(* ===== verification/_CoqProject ===== *)
-Q . S2P
Prelude.v
Bitops.v
Math.v
Lock.v
ListNode.v
Buddy.v
KmallocEarly.v
Page.v
PageTable.v
Memory.v
Slab.v
Kmalloc.v
RbTree.v
RbTreeRep.v
RbTreeOk.v
RbTreeRemove.v
RbTreeSpec.v
CMem.v
CString.v
Fifo.v
Vector.v
Queue.v
KString.v
KSplit.v
Vmalloc.v
VmallocOk.v
Fs.v
Shell.v
Schedule.v
Timer.v
Apic.v
Keyboard.v
Console.v
Debug.v
Irq.v
Smp.v
Gpu.v
Boot.v
FifoSpsc.v
Usr.v
IrqInit.v
Serial.v
Klog.v
Sysfs.v
Late.v
ResizeBinary.v
