(* ===== verification/Prelude.v ===== *)
(** * oh-my-os: a verification library for the kernel

    oh-my-os is a small 32-bit x86 kernel: a boot loader, memory management
    (page allocator, slab caches, page tables, kmalloc and vmalloc), threads
    and a scheduler, interrupts, timers, keyboard and serial console, an
    in-memory file system with a shell, a frame buffer, and a library of
    lists, trees, strings and containers.  This library translates the C code
    into executable definitions and proves what the parts promise.

    ** How the code is modelled

    A C function is a definition in the monad [M S] of this file: it takes
    the state [S] of its component and returns ([Ret]) or stops in one of
    three ways: an assertion fires ([Bug]), a pointer is bad ([Fault]), or a
    loop uses up its bound ([Spin]).  A statement "the code returns" is a
    theorem that the result is [Ret], so it excludes the other three.
    Integers are [Z] with the wrap-around of their C type written out.
    Pointers are addresses into maps of the objects of their type; what has
    never been written reads as zero where the memory is .bss, and as an
    arbitrary value where it comes from the heap.  Nodes of intrusive lists
    live in a memory of nodes of their own (ListNode.v), so list surgery is
    pointer surgery as in the source.

    Hardware is the part of its documentation the drivers rely on: CR0, CR3
    and the translations cached by the processor (PageTable.v), GDTR and the
    segment registers (Memory.v), IDTR (Irq.v), the interrupt command
    register that starts other processors (Smp.v), the two 8259A, the I/O APIC, the local APIC and the CMOS clock (Apic.v), the
    interval timer (IrqInit.v), the keyboard controller (Keyboard.v), the
    serial port (its registers in Serial.v, as a stream in Console.v), the
    IDE disk (Boot.v), the store buffers of the processors (FifoSpsc.v).

    ** Files

    Foundations:
    - Prelude.v: machine integers, outcomes, the monad, tactics, shared lemmas.
    - Bitops.v: include/bitops.h, log2.h, atomic.h, the rounding macros of
      stdlib.h, the address arithmetic of memory.h and asm-generic/mmu.h.
    - Math.v: libs/math.c, include/math.h, [do_div] of include/x86.h.
    - Lock.v: libs/lock.c as an interleaving of processors, and the
      sequential summary used elsewhere.
    - ListNode.v: include/list.h.  Buddy.v: the theory of buddy blocks that
      the two buddy allocators share.

    Memory management:
    - KmallocEarly.v, Kmalloc.v: mm/kmalloc.c.  Page.v: mm/page.c.
      Slab.v: mm/slab.c.  PageTable.v: mm/page_table.c.  Memory.v:
      mm/memory.c.  Vmalloc.v (code), VmallocOk.v (properties): mm/vmalloc.c.

    Libraries:
    - RbTree.v (code), RbTreeRep.v (memory and trees), RbTreeOk.v
      (insertion), RbTreeRemove.v (removal), RbTreeSpec.v (the contract):
      libs/rb_tree.c.
    - CMem.v: byte memory and the memory routines; CString.v: C strings and
      number conversion; KString.v: growing strings; KSplit.v: splitting a
      line into words (libs/string.c, include/x86.h).
    - Fifo.v, Vector.v, Queue.v: libs/fifo.c, libs/vector.c, libs/queue.c.
      FifoSpsc.v: libs/fifo.c between two processors, and the threads of
      usr/thread.c that use it so.

    Kernel:
    - Fs.v: fs/fs.c.  Shell.v: usr/fs.c, usr/init.c.  Schedule.v:
      schedule/schedule.c.  Timer.v: kernel/timer.c.  Apic.v: kernel/pic.c,
      ioapic.c, lapic.c.  Keyboard.v: kernel/keyboard.c.  Console.v:
      kernel/stdio.c, serial.c.  Irq.v: kernel/irq.c.  Smp.v: kernel/smp.c.
      Debug.v: kernel/debug.c, the symbols and call traces; Klog.v: the
      same file, the log.  Gpu.v: graphic/.  Boot.v: boot/setup/main.c.
    - Setting up: IrqInit.v: [irq_init] and [timer_init].  Serial.v:
      [stdio_init] and [serial_init].  Sysfs.v: what the files of /sys and
      "lscpu" report (mm/page.c, mm/kmalloc.c, kernel/smp.c).  Late.v:
      [kernel_init_late] with the screen and the files of /sys.
      Usr.v: usr/init.c, usr/thread.c, usr/mem.c, usr/debug.c.
    - ResizeBinary.v: tools/resize_binary.c, which pads the boot sector and
      the images of the build.

    ** How the parts meet

    Components use each other as the code does.  Slab.v runs on the state of
    Page.v, Kmalloc.v on both and on KmallocEarly.v; Vmalloc.v runs on the
    page tables and the page allocator; Irq.v composes the timers, the
    scheduler with its file system, the keyboard with its queue, the local
    APIC and the page tables in one state, and IrqInit.v adds the other
    controllers; Debug.v uses the red-black tree, and Irq.v its call traces
    for a fault; KSplit.v uses the vector and the growing strings; Console.v the queue of the
    keyboard and the growing strings, and Klog.v the console; Late.v joins
    page tables, frame buffer and file system, and Usr.v the shell and the
    scheduler.  Where a
    client needs only a contract it is stated as a class:
    - [PageTable.FrameAlloc], frames for page tables, discharged by
      [alloc_page] of Page.v ([PageTable.page_frames]);
    - [Vmalloc.AreaTree], the tree of areas, discharged by libs/rb_tree.c
      ([VmallocOk.rb_area_tree]);
    - [Buddy.FreeListShape], the free lists of an allocator, with
      instances in KmallocEarly.v, Page.v and Vmalloc.v;
    - [CMem.KHeap], [RbTree.NodeAlloc], [Fs.FsHeap], [Schedule.SchedHeap],
      [Timer.TimerHeap], [Vmalloc.VHeap], [Usr.FifoHeap]: what their clients use of
      [kmalloc], namely that it returns NULL or something not in use
      ([SchedHeap] for descriptors and stacks of threads).  That
      the allocator has this property is the subject of Slab.v and
      Kmalloc.v; the classes differ in the type of the objects, so their
      instances here are concrete ones, used by the examples.

    ** What the theorems show

    - Allocators: the two buddy allocators refine an abstract best-fit
      allocator on a tiling ([Page.alloc_pages_refines],
      [KmallocEarly.alloc_blocks_refines]); [Page.free_pages_refines] states
      under which condition freeing is right, and
      [Page.free_pages_swallows_live_page] shows what happens without it;
      slab objects of 16 to 2048 bytes never overlap, and the caches of
      kmalloc inherit it; the 8-byte cache is broken
      ([Slab.slab8_hands_out_twice]).
    - Address spaces: mapping and unmapping change exactly the translations
      asked for and leave no stale cache entry; switching paging on; the
      areas of vmalloc tile their range; [vfree] never returns.
    - Trees: every sequence of operations of libs/rb_tree.c implements an
      interval map, in which an insertion is refused only for an empty or
      overlapping interval or without memory, keeps the red-black invariant,
      and no assertion fires.
    - Byte routines and containers: copying, number conversion round trips,
      fifo, queue, vector and growing string as lists, with the boundary at
      which the string overflows its buffer; the fifo between two processors
      with store buffers loses, tears and reorders nothing
      ([FifoSpsc.fifo_spsc]), and its test threads can always finish while
      the fifo is allocated.
    - Threads: mutual exclusion of the spin lock for any interleaving, round
      robin fairness, creation and exit of threads with their stacks (the
      exit of an idle thread frees a static array:
      [Schedule.thread_exit_static_stack]), the clock and when timers do not
      fire, termination of directory removal.
    - Devices and start-up: the state in which drivers leave the interrupt
      controllers, an interrupt from [irq_handler] to the queue, where it
      arrives as what the keys mean on a US keyboard ([Keyboard.meaning]), a
      fault that ends a thread, starting the processors the BIOS lists, loading the kernel from the disk; the state
      after [irq_init], [stdio_init] and [kernel_init_late]; the image the
      build tool writes.
    - Text: the log holds every message, complete and in order
      ([Klog.klog_ok]); the files of /sys report the free lists and the
      caches as they are; reading a line and splitting it into words.
    - Commands: what [ls], [cd], [cat] and [devmem] do and that [cd] stays in
      the tree; after [usr_init] every command is found and the shell runs.
    Theorems whose names say what goes wrong record defects of the code: the
    definitions follow the source, also where it is wrong.

    ** Bounds and fuel

    Loops over memory get a bound that the state determines and that their
    theorems show to be enough: the number of live nodes plus two for the
    tree ([RbTree.fuel_of]), the number of blocks plus one for directory
    lists ([Fs.list_fuel]), the number of nodes plus one for counting a list
    ([Sysfs.size_of]), the number of mapped bytes plus one for strings
    ([CString.scan_fuel]), eleven digits for a 32-bit number in base 10 or
    16 ([CString.digits_fuel]), the number of orders for splitting and
    merging.  Loops that wait for a device take their bound as an argument:
    the device is busy for [delay] reads, and any bound above it is enough.
    A loop that the code never leaves has the result [Spin] for every bound.

    ** Not modelled

    - The assembly of entry.S apart from the stubs' vector numbers and the
      register exchange of a context switch; the order in which
      [start_kernel] calls the initialisers, and [memory_init] as a whole: it
      writes through [current], which is still NULL, so that what it does
      depends on what is at address 0 (its parts are in Page.v, Memory.v,
      Kmalloc.v and Vmalloc.v).  What a processor that was started does
      before it starts the next one (lines 211 to 217 of kernel/smp.c).
    - The text of messages for information and for errors, of call traces and
      of the trap frame, and of the files "gpu_dump" and "state".  What a
      message reads on its way is modelled where it can fail: the walk of
      the page tables and of the stack in [irq_handler], and the line number
      that [WARN_ON] takes for a string.
    - [pair] and [repeat] of include/stdio.h, which only messages use.
    - [powlf] of libs/math.c (floating point), the registers of
      include/register.h and x86.h no code uses, the table of colours, and
      boot/entryother (one jump). *)

From stdpp Require Import base numbers list gmap option.
From Stdlib Require Import ZArith Lia.

#[export] Set Default Goal Selector "!".

Open Scope Z_scope.

(** ** Machine integers

    The kernel is compiled with [-m32]: [unsigned long], [unsigned int],
    [size_t] and pointers are 32 bits wide, [int] and [long] are 32-bit
    two's complement.  A w-bit unsigned value is a [Z] in [0 .. 2^w - 1];
    every operation that can leave the range is wrapped explicitly. *)

Definition wrap (w x : Z) : Z := x mod 2 ^ w.

Abbreviation u8 := (wrap 8).
Abbreviation u16 := (wrap 16).
Abbreviation u32 := (wrap 32).

Definition fits (w x : Z) : Prop := 0 <= x < 2 ^ w.

(** Two's complement reading of the low 32 (respectively 8) bits. *)
Definition sext (w x : Z) : Z :=
  let y := wrap w x in if y <? 2 ^ (w - 1) then y else y - 2 ^ w.

Abbreviation s32 := (sext 32).
Abbreviation s8 := (sext 8).

(** The error numbers of include/error.h, returned negated. *)
Definition ENOENT : Z := 2.
Definition ENOMEM : Z := 12.
Definition ENODEV : Z := 19.
Definition EINVAL : Z := 22.
Definition ENOSPC : Z := 28.

(** ** Outcomes of a C computation

    [Ret]: the code returns; [Bug]: an [assert] (BUG_ON) fires, which prints
    a trace and halts the processor; [Fault]: a NULL pointer or memory that
    is not mapped is accessed; [Spin]: the bound given to a loop is used up
    (each theorem about a loop shows the bound is large enough). *)
Inductive outcome (A : Type) : Type :=
  | Ret (a : A)
  | Bug
  | Fault
  | Spin.
Arguments Ret {A} a.
Arguments Bug {A}.
Arguments Fault {A}.
Arguments Spin {A}.

#[export] Instance outcome_ret : MRet outcome := fun A a => Ret a.
#[export] Instance outcome_bind : MBind outcome := fun A B f m =>
  match m with Ret a => f a | Bug => Bug | Fault => Fault | Spin => Spin end.

(** [assert] of include/assert.h. *)
Definition assert (b : bool) : outcome unit := if b then Ret tt else Bug.

(** [WARN_ON(_expr, ...)] of include/debug.h: when the condition holds,
    [pr_err] is given [__LINE__] among its strings, and reads characters at
    the address that number is. *)
Definition WARN_ON (expr : bool) : outcome unit := if expr then Fault else Ret tt.

(** Dereferencing a possibly NULL pointer. *)
Definition deref {A} (p : option A) : outcome A :=
  match p with Some a => Ret a | None => Fault end.

(** State-passing computations over a state [S]. *)
Definition M (S A : Type) : Type := S -> outcome (A * S).

#[export] Instance M_ret {S} : MRet (M S) := fun A a s => Ret (a, s).
#[export] Instance M_bind {S} : MBind (M S) := fun A B f m s =>
  match m s with
  | Ret (a, s') => f a s' | Bug => Bug | Fault => Fault | Spin => Spin
  end.

Definition mget {S} : M S S := fun s => Ret (s, s).
Definition mput {S} (s : S) : M S unit := fun _ => Ret (tt, s).
Definition mmod {S} (f : S -> S) : M S unit := fun s => Ret (tt, f s).
Definition mlift {S A} (o : outcome A) : M S A := fun s =>
  match o with Ret a => Ret (a, s) | Bug => Bug | Fault => Fault | Spin => Spin end.

(** Run a computation on a part of the state. *)
Definition zoom {S P A} (get : S -> P) (put : P -> S -> S) (m : M P A) : M S A := fun s =>
  match m (get s) with
  | Ret (a, p) => Ret (a, put p s) | Bug => Bug | Fault => Fault | Spin => Spin
  end.

(** [runs m s a s']: the computation returns [a] in state [s']. *)
Notation "m '@@' s '~>' a ',' s'" := (m s = Ret (a, s'))
  (at level 70, s at next level, a at next level, s' at next level) : Z_scope.

(** ** Automation *)

Create HintDb kern.

(** Decide an integer comparison in the goal or a hypothesis. *)
Ltac zify_bool :=
  repeat match goal with
  | H : (_ && _)%bool = true |- _ => apply andb_prop in H; destruct H
  | H : (_ || _)%bool = false |- _ => apply orb_false_elim in H; destruct H
  | H : negb _ = true |- _ => apply negb_true_iff in H
  | H : negb _ = false |- _ => apply negb_false_iff in H
  | H : (_ =? _) = true |- _ => apply Z.eqb_eq in H
  | H : (_ =? _) = false |- _ => apply Z.eqb_neq in H
  | H : (_ <? _) = true |- _ => apply Z.ltb_lt in H
  | H : (_ <? _) = false |- _ => apply Z.ltb_ge in H
  | H : (_ <=? _) = true |- _ => apply Z.leb_le in H
  | H : (_ <=? _) = false |- _ => apply Z.leb_gt in H
  | H : (_ >? _) = true |- _ => rewrite Z.gtb_ltb in H
  | H : (_ >? _) = false |- _ => rewrite Z.gtb_ltb in H
  | H : (_ >=? _) = true |- _ => rewrite Z.geb_leb in H
  | H : (_ >=? _) = false |- _ => rewrite Z.geb_leb in H
  end.

(** Case analysis on the first boolean test of the goal. *)
Ltac case_if :=
  match goal with
  | |- context [if ?b then _ else _] => let E := fresh "E" in destruct b eqn:E
  end; zify_bool.

(** Rewrite a test of the goal whose value arithmetic decides. *)
Ltac if_true :=
  match goal with
  | |- context [if ?b then _ else _] => replace b with true by lia
  end.
Ltac if_false :=
  match goal with
  | |- context [if ?b then _ else _] => replace b with false by lia
  end.

(** Run a monadic hypothesis that is known to return. *)
Ltac run_inv :=
  repeat match goal with
  | H : Ret _ = Ret _ |- _ => injection H as H
  | H : (_, _) = (_, _) |- _ => injection H as H
  | H : Bug = Ret _ |- _ => discriminate H
  | H : Fault = Ret _ |- _ => discriminate H
  | H : Spin = Ret _ |- _ => discriminate H
  end.

(** ** Generic lemmas *)

Lemma outcome_bind_ret {A B} (m : outcome A) (f : A -> outcome B) (b : B) :
  (m ≫= f) = Ret b -> exists a, m = Ret a /\ f a = Ret b.
Proof. destruct m; simpl; try done. eauto. Qed.

Lemma M_bind_ret {S A B} (m : M S A) (f : A -> M S B) (s : S) (b : B) (s2 : S) :
  (m ≫= f) s = Ret (b, s2) ->
  exists a s1, m s = Ret (a, s1) /\ f a s1 = Ret (b, s2).
Proof. unfold mbind, M_bind. destruct (m s) as [[a s1]| | |]; try done. eauto. Qed.

Lemma M_bind_run {S A B} (m : M S A) (f : A -> M S B) (s s1 : S) (a : A) :
  m s = Ret (a, s1) -> (m ≫= f) s = f a s1.
Proof. intros H. unfold mbind, M_bind. by rewrite H. Qed.

Lemma M_bind_ext {S A B} (m : M S A) (f g : A -> M S B) s :
  (forall a s', f a s' = g a s') -> (m ≫= f) s = (m ≫= g) s.
Proof. intros E. unfold mbind, M_bind. destruct (m s) as [[a s']| | |]; [apply E|done..]. Qed.

Lemma M_bind_assoc {S A B C} (m : M S A) (f : A -> M S B) (g : B -> M S C) s :
  ((m ≫= f) ≫= g) s = (m ≫= (fun a => f a ≫= g)) s.
Proof. unfold mbind, M_bind. by destruct (m s) as [[a s']| | |]. Qed.

Lemma M_bind_eq {S A B} (m m' : M S A) (f : A -> M S B) s : m s = m' s -> (m ≫= f) s = (m' ≫= f) s.
Proof. intros E. unfold mbind, M_bind. by rewrite E. Qed.

Lemma zoom_run {S P A} (get : S -> P) (put : P -> S -> S) (m : M P A) s a p :
  m (get s) = Ret (a, p) -> zoom get put m s = Ret (a, put p s).
Proof. intros E. unfold zoom. by rewrite E. Qed.

Lemma wrap_fits (w x : Z) : 0 <= w -> fits w (wrap w x).
Proof. intros Hw. apply Z.mod_pos_bound. lia. Qed.

Lemma wrap_small (w x : Z) : fits w x -> wrap w x = x.
Proof. intros H. by apply Z.mod_small. Qed.

Lemma pow2_pos (k : Z) : 0 <= k -> 0 < 2 ^ k.
Proof. intros. by apply Z.pow_pos_nonneg. Qed.

(** Distinct numbers below [n] are at most [n] many. *)
Lemma NoDup_range_length (l : list Z) (n : Z) :
  NoDup l -> (forall x, x ∈ l -> 0 <= x < n) -> Z.of_nat (length l) <= Z.max 0 n.
Proof.
  intros Hn Hr. assert (Hs : l ⊆ seqZ 0 n) by (intros x Hx; apply elem_of_seqZ; apply Hr in Hx; lia).
  pose proof (submseteq_length _ _ (NoDup_submseteq _ _ Hn Hs)) as Hl. rewrite length_seqZ in Hl. lia.
Qed.

Lemma NoDup_range_full (l : list Z) (n : Z) :
  NoDup l -> (forall x, x ∈ l -> 0 <= x < n) -> n <= Z.of_nat (length l) ->
  forall x, 0 <= x < n -> x ∈ l.
Proof.
  intros Hn Hr Hlen x Hx.
  assert (Hs : l ⊆ seqZ 0 n) by (intros y Hy; apply elem_of_seqZ; apply Hr in Hy; lia).
  assert (Hp : l ≡ₚ seqZ 0 n).
  { apply submseteq_length_Permutation; [by apply NoDup_submseteq|]. rewrite length_seqZ. lia. }
  rewrite Hp. apply elem_of_seqZ. lia.
Qed.

#[export] Hint Resolve wrap_fits wrap_small pow2_pos : kern.
