(* ===== verification/Bitops.v ===== *)
(** * Bit tricks and rounding

    include/bitops.h ([fls]), include/log2.h, the rounding macros of
    include/stdlib.h, the single-word bit operations and the counters of
    include/atomic.h, and the address arithmetic of include/memory.h and
    include/asm-generic/mmu.h.  The theorems relate the branchy code to
    [Z.log2], [Z.log2_up] and the division-based meaning of rounding, with
    the 32-bit overflow conditions spelled out. *)

From stdpp Require Import base numbers.
From Stdlib Require Import ZArith Lia.
From S2P Require Import Prelude.

Open Scope Z_scope.

(** ** include/bitops.h *)

Definition BIT (i : Z) : Z := Z.shiftl 1 i.

(** [fls]: position of the last set bit, by halving. *)
Definition fls (x0 : Z) : Z :=
  if x0 =? 0 then 0 else
  let '(x, r) :=
    if Z.land x0 0xffff0000 =? 0 then (x0, 0) else (Z.shiftr x0 16, 0 + 16) in
  let '(x, r) :=
    if Z.land x 0xff00 =? 0 then (x, r) else (Z.shiftr x 8, r + 8) in
  let '(x, r) :=
    if Z.land x 0xf0 =? 0 then (x, r) else (Z.shiftr x 4, r + 4) in
  let '(x, r) :=
    if Z.land x 0xc =? 0 then (x, r) else (Z.shiftr x 2, r + 2) in
  let '(x, r) :=
    if Z.land x 0x2 =? 0 then (x, r) else (Z.shiftr x 1, r + 1) in
  if Z.land x 0x1 =? 0 then r else r + 1.

(** ** include/log2.h *)

Definition ilog2_roundup (n : Z) : Z :=
  if n =? 0 then 0 else u32 (fls (u32 (n - 1))).

Definition ilog2_rounddown (n : Z) : Z := u32 (fls n - 1).

Definition ilog2 (n : Z) : Z := ilog2_rounddown n.

Definition is_power_of_2 (n : Z) : bool :=
  negb (n =? 0) && (Z.land n (u32 (n - 1)) =? 0).

(** [1UL << k]; the callers keep [k] below 32. *)
Definition shl1 (k : Z) : Z := u32 (Z.shiftl 1 k).

Definition roundup_pow_of_two (n : Z) : Z := shl1 (ilog2_roundup n).
Definition rounddown_pow_of_two (n : Z) : Z := shl1 (ilog2_rounddown n).

(** ** include/stdlib.h *)

Definition round_down (a n : Z) : Z := u32 (u32 a - u32 a mod n).
Definition round_up (a n : Z) : Z := round_down (u32 (u32 a + u32 n - 1)) (u32 n).

(** ** include/atomic.h

    The bit operations act on the word at the address they are given; the
    kernel uses them with bit numbers below 32. *)

Definition set_bit (nr w : Z) : Z := Z.lor w (BIT nr).
Definition clear_bit (nr w : Z) : Z := Z.ldiff w (BIT nr).
Definition change_bit (nr w : Z) : Z := Z.lxor w (BIT nr).
Definition test_bit (nr w : Z) : bool := Z.testbit w nr.
Definition test_and_set_bit (nr w : Z) : bool * Z := (test_bit nr w, set_bit nr w).
Definition test_and_clear_bit (nr w : Z) : bool * Z := (test_bit nr w, clear_bit nr w).
Definition test_and_change_bit (nr w : Z) : bool * Z := (test_bit nr w, change_bit nr w).

(** Counters: [int] values, so every result is a 32-bit two's complement. *)
Definition atomic_read (v : Z) : Z := v.
Definition atomic_set (v i : Z) : Z := i.
Definition atomic_add (v i : Z) : Z := s32 (v + i).
Definition atomic_sub (v i : Z) : Z := s32 (v - i).
Definition atomic_sub_test_zero (v i : Z) : bool * Z :=
  let v' := s32 (v - i) in (v' =? 0, v').
Definition atomic_inc (v : Z) : Z := s32 (v + 1).
Definition atomic_dec (v : Z) : Z := s32 (v - 1).
Definition atomic_inc_test_zero (v : Z) : bool * Z :=
  let v' := s32 (v + 1) in (v' =? 0, v').
Definition atomic_dec_test_zero (v : Z) : bool * Z :=
  let v' := s32 (v - 1) in (v' =? 0, v').
(** [xaddl] exchanges: the register receives the old counter. *)
Definition atomic_add_return (v i : Z) : Z * Z := (s32 (v + i), s32 (v + i)).
Definition atomic_sub_return (v i : Z) : Z * Z := atomic_add_return v (s32 (- i)).
(** [lock cmpxchg]: returns the old value, stores [new] if it was [old]. *)
Definition cmpxchg (v old new : Z) : Z * Z := (v, if v =? old then new else v).

(** ** include/asm-generic/mmu.h and include/memory.h *)

Definition PAGE_SHIFT : Z := 12.
Definition PAGE_SIZE : Z := Z.shiftl 1 PAGE_SHIFT.
Definition KERNEL_STACK_SIZE : Z := PAGE_SIZE * 2.
Definition KERNEL_VIRT_BASE : Z := 0xC0000000.
Definition PHYS_HIGHMEM_START : Z := 0x38000000.
Definition VMALLOC_START : Z := PAGE_SIZE.
Definition VMALLOC_END : Z := KERNEL_VIRT_BASE.

Definition GFP_HIGHMEM : Z := 0x01.
Definition GFP_LINEAR : Z := 0x02.
Definition GFP_NORMAL : Z := GFP_LINEAR.

Definition PAGE_VALID : Z := BIT 0.
Definition PAGE_FREE : Z := BIT 1.
Definition PAGE_HIGHMEM : Z := BIT 2.
Definition PAGE_SLAB : Z := BIT 3.

Definition pde_index (x : Z) : Z := Z.land (Z.shiftr x 22) 0x3ff.
Definition pte_index (x : Z) : Z := Z.land (Z.shiftr x 12) 0x3ff.
Definition page_base (x : Z) : Z := Z.land x (u32 (Z.lnot 0xfff)).
Definition page_offset (x : Z) : Z := Z.land x 0xfff.

Definition round_up_page (x : Z) : Z := round_up x PAGE_SIZE.
Definition round_down_page (x : Z) : Z := round_down x PAGE_SIZE.

Definition virt_to_phys (x : Z) : Z := u32 (x - KERNEL_VIRT_BASE).
Definition phys_to_virt (x : Z) : Z := u32 (x + KERNEL_VIRT_BASE).
Definition phys_to_pfn (x : Z) : Z := Z.shiftr x PAGE_SHIFT.

(** A [struct page *] is the index of the page in [pages]. *)
Definition page_to_phys (pfn : Z) : Z := u32 (PAGE_SIZE * pfn).
Definition phys_to_page (phys : Z) : Z := phys_to_pfn phys.
Definition virt_to_page (virt : Z) : Z := phys_to_page (virt_to_phys virt).
Definition page_to_virt (pfn : Z) : Z := phys_to_virt (page_to_phys pfn).

Definition is_vmalloc_addr (addr : Z) : bool :=
  (VMALLOC_START <=? addr) && (addr <? VMALLOC_END).

(** ** Theorems *)

(** One halving step of [fls]: the mask test compares with [2^k]. *)
Lemma land_high_zero (k x : Z) :
  0 < k -> 0 <= x < 2 ^ (2 * k) ->
  (Z.land x (Z.shiftl (Z.ones k) k) =? 0) = (x <? 2 ^ k).
Proof.
  intros Hk Hx.
  assert (E : Z.land x (Z.shiftl (Z.ones k) k) = Z.shiftl (Z.shiftr x k) k).
  { apply Z.bits_inj'. intros n Hn.
    rewrite Z.land_spec, !Z.shiftl_spec by lia.
    destruct (Z.ltb_spec n k).
    { rewrite !(Z.testbit_neg_r _ (n - k)) by lia. by rewrite andb_false_r. }
    rewrite Z.shiftr_spec by lia. replace (n - k + k) with n by lia.
    destruct (Z.ltb_spec n (2 * k)).
    - rewrite Z.ones_spec_low by lia. by rewrite andb_true_r.
    - rewrite Z.ones_spec_high, andb_false_r by lia.
      destruct (Z.eq_dec x 0) as [->|]; [by rewrite Z.bits_0|].
      symmetry. apply Z.bits_above_log2; [lia|].
      apply Z.log2_lt_pow2; [lia|].
      eapply Z.lt_le_trans; [apply Hx|]. apply Z.pow_le_mono_r; lia. }
  rewrite E, Z.shiftl_mul_pow2, Z.shiftr_div_pow2 by lia.
  pose proof (pow2_pos k ltac:(lia)).
  pose proof (Z.div_mod x (2 ^ k) ltac:(lia)).
  pose proof (Z.mod_pos_bound x (2 ^ k) ltac:(lia)).
  destruct (Z.ltb_spec x (2 ^ k)).
  - rewrite Z.div_small by lia. lia.
  - assert (1 <= x / 2 ^ k) by (apply Z.div_le_lower_bound; lia). nia.
Qed.

Lemma log2_shiftr_pos (k x : Z) :
  0 <= k -> 2 ^ k <= x ->
  0 < Z.shiftr x k /\ Z.log2 (Z.shiftr x k) = Z.log2 x - k.
Proof.
  intros Hk Hx. pose proof (pow2_pos k Hk).
  assert (k <= Z.log2 x) by (apply Z.log2_le_pow2; lia).
  split; [|rewrite Z.log2_shiftr by lia; lia].
  rewrite Z.shiftr_div_pow2 by lia.
  assert (1 <= x / 2 ^ k) by (apply Z.div_le_lower_bound; lia). lia.
Qed.

(** The step itself, as a relation between the pair before and after. *)
Lemma fls_step (k m x r : Z) :
  0 < k -> m = Z.shiftl (Z.ones k) k -> 0 < x < 2 ^ (2 * k) ->
  let '(x', r') := if Z.land x m =? 0 then (x, r) else (Z.shiftr x k, r + k) in
  0 < x' < 2 ^ k /\ r' + Z.log2 x' = r + Z.log2 x.
Proof.
  intros Hk -> Hx. rewrite land_high_zero by lia.
  destruct (Z.ltb_spec x (2 ^ k)); [lia|].
  destruct (log2_shiftr_pos k x) as [Hp Hl]; [lia..|].
  split; [|lia]. split; [done|].
  rewrite Z.shiftr_div_pow2 by lia.
  apply Z.div_lt_upper_bound; [lia|].
  rewrite <- Z.pow_add_r by lia. replace (k + k) with (2 * k) by lia. lia.
Qed.

Ltac fls_halve k :=
  match goal with
  | H : 0 < ?x < _ |- context [if Z.land ?x ?m =? 0 then (?x, ?r) else _] =>
      let S := fresh "S" in
      pose proof (fls_step k m x r ltac:(lia) eq_refl H) as S;
      destruct (if Z.land x m =? 0 then (x, r) else (Z.shiftr x k, r + k)) as [? ?];
      cbv beta iota in S; destruct S as [? ?]
  end.

Lemma fls_log2 (x : Z) : 0 < x < 2 ^ 32 -> fls x = Z.log2 x + 1.
Proof.
  intros Hx. unfold fls. if_false. change 0xffff0000 with (Z.shiftl (Z.ones 16) 16).
  fls_halve 16. fls_halve 8. fls_halve 4. fls_halve 2. fls_halve 1.
  match goal with H : 0 < ?y < 2 ^ 1 |- _ => assert (y = 1) as -> by lia end.
  change (Z.log2 1) with 0 in *. change (Z.land 1 1 =? 0) with false.
  cbv iota. lia.
Qed.

Lemma fls_bound (x : Z) : fits 32 x -> 0 <= fls x <= 32.
Proof.
  intros [H1 H2]. destruct (Z.eq_dec x 0) as [->|]; [by vm_compute|].
  rewrite fls_log2 by lia. pose proof (Z.log2_nonneg x).
  assert (Z.log2 x < 32) by (apply Z.log2_lt_pow2; lia). lia.
Qed.

Lemma ilog2_roundup_spec (n : Z) :
  1 <= n < 2 ^ 32 -> ilog2_roundup n = Z.log2_up n.
Proof.
  intros Hn. unfold ilog2_roundup. if_false.
  rewrite (wrap_small 32 (n - 1)) by (unfold fits; lia).
  destruct (Z.eq_dec n 1) as [->|]; [done|].
  pose proof (fls_bound (n - 1) ltac:(unfold fits; lia)).
  rewrite wrap_small by (unfold fits; lia).
  rewrite fls_log2 by lia. rewrite Z.log2_up_eqn by lia. by rewrite Z.sub_1_r.
Qed.

(** The order computed for [n] units is the least one whose block holds them. *)
Lemma ilog2_roundup_least (n k : Z) :
  1 <= n < 2 ^ 32 -> 0 <= k -> (n <= 2 ^ k <-> ilog2_roundup n <= k).
Proof. intros Hn Hk. rewrite ilog2_roundup_spec by lia. apply Z.log2_up_le_pow2; lia. Qed.

Lemma ilog2_roundup_nonneg (n : Z) : 0 <= ilog2_roundup n.
Proof.
  unfold ilog2_roundup. case_if; [lia|]. apply (wrap_fits 32). lia.
Qed.

Lemma ilog2_spec (n : Z) : 1 <= n < 2 ^ 32 -> ilog2 n = Z.log2 n.
Proof.
  intros Hn. unfold ilog2, ilog2_rounddown. rewrite fls_log2 by lia.
  pose proof (Z.log2_nonneg n).
  assert (Z.log2 n < 32) by (apply Z.log2_lt_pow2; lia).
  rewrite wrap_small by (unfold fits; lia). lia.
Qed.

Lemma roundup_pow_of_two_spec (n : Z) :
  1 <= n <= 2 ^ 31 ->
  n <= roundup_pow_of_two n < 2 * n /\
  roundup_pow_of_two n = 2 ^ ilog2_roundup n.
Proof.
  intros Hn. unfold roundup_pow_of_two, shl1.
  pose proof (ilog2_roundup_nonneg n).
  assert (ilog2_roundup n <= 31) by (apply ilog2_roundup_least; lia).
  rewrite Z.shiftl_mul_pow2, Z.mul_1_l by lia.
  assert (fits 32 (2 ^ ilog2_roundup n)).
  { split; [lia|]. apply Z.pow_lt_mono_r; lia. }
  rewrite wrap_small by done. split; [|done]. split.
  { apply ilog2_roundup_least; lia. }
  destruct (Z.eq_dec n 1) as [->|]; [by vm_compute|].
  rewrite ilog2_roundup_spec by lia.
  destruct (Z.log2_up_spec n) as [Hl _]; [lia|].
  replace (Z.log2_up n) with (Z.succ (Z.pred (Z.log2_up n))) by lia.
  rewrite Z.pow_succ_r; [lia|].
  pose proof (Z.log2_up_pos n). lia.
Qed.

(** Rounding is multiplication of the (ceiling) quotient. *)
Lemma round_down_spec (a n : Z) :
  fits 32 a -> 0 < n -> round_down a n = a / n * n.
Proof.
  intros Ha Hn. unfold round_down. rewrite (wrap_small 32 a) by done.
  pose proof (Z.div_mod a n ltac:(lia)). pose proof (Z.mod_pos_bound a n Hn).
  pose proof (Z.div_pos a n ltac:(destruct Ha; lia) Hn).
  rewrite wrap_small; [lia|]. destruct Ha. split; nia.
Qed.

Lemma round_up_spec (a n : Z) :
  0 <= a -> 0 < n -> a + n <= 2 ^ 32 -> n < 2 ^ 32 ->
  round_up a n = (a + n - 1) / n * n.
Proof.
  intros Ha Hn Hs Hn2. unfold round_up.
  rewrite (wrap_small 32 a), (wrap_small 32 n) by (unfold fits; lia).
  rewrite (wrap_small 32 (a + n - 1)) by (unfold fits; lia).
  apply round_down_spec; [unfold fits; lia | done].
Qed.

Lemma round_up_bounds (a n : Z) :
  0 <= a -> 0 < n -> a + n <= 2 ^ 32 -> n < 2 ^ 32 ->
  a <= round_up a n < a + n /\ round_up a n mod n = 0.
Proof.
  intros. rewrite round_up_spec by done.
  pose proof (Z.div_mod (a + n - 1) n ltac:(lia)).
  pose proof (Z.mod_pos_bound (a + n - 1) n ltac:(lia)).
  split; [nia|]. apply Z.mod_mul. lia.
Qed.

Lemma round_down_bounds (a n : Z) :
  fits 32 a -> 0 < n -> a - n < round_down a n <= a /\ round_down a n mod n = 0.
Proof.
  intros. rewrite round_down_spec by done.
  pose proof (Z.div_mod a n ltac:(lia)).
  pose proof (Z.mod_pos_bound a n ltac:(lia)).
  split; [nia|]. apply Z.mod_mul. lia.
Qed.

(** Bits of a word after an update. *)
Lemma BIT_testbit (i j : Z) : 0 <= i -> Z.testbit (BIT i) j = bool_decide (i = j).
Proof.
  intros Hi. unfold BIT. rewrite Z.shiftl_1_l.
  case_bool_decide as Hc; [subst; by apply Z.pow2_bits_true|].
  by apply Z.pow2_bits_false.
Qed.

Lemma test_set_bit (i j w : Z) :
  0 <= i -> test_bit j (set_bit i w) = bool_decide (i = j) || test_bit j w.
Proof.
  intros. unfold test_bit, set_bit. by rewrite Z.lor_spec, BIT_testbit, orb_comm.
Qed.

Lemma test_clear_bit (i j w : Z) :
  0 <= i -> test_bit j (clear_bit i w) = negb (bool_decide (i = j)) && test_bit j w.
Proof.
  intros. unfold test_bit, clear_bit. by rewrite Z.ldiff_spec, BIT_testbit, andb_comm.
Qed.

Lemma pfn_virt_roundtrip (pfn : Z) :
  0 <= pfn < 2 ^ 20 -> virt_to_page (page_to_virt pfn) = pfn.
Proof.
  intros Hp. unfold virt_to_page, page_to_virt, phys_to_page, phys_to_pfn,
    virt_to_phys, phys_to_virt, page_to_phys.
  unfold wrap. rewrite Zminus_mod_idemp_l, Z.add_simpl_r, Zmod_mod.
  change PAGE_SIZE with (2 ^ 12). rewrite Z.mod_small by lia.
  unfold PAGE_SHIFT. rewrite Z.shiftr_div_pow2 by lia.
  rewrite Z.mul_comm. apply Z.div_mul. lia.
Qed.

#[export] Hint Rewrite test_set_bit test_clear_bit using lia : kern_bits.
#[export] Hint Resolve ilog2_roundup_nonneg : kern.
