(* ===== verification/Math.v ===== *)
(** * Small arithmetic (libs/math.c, include/math.h, [do_div] of include/x86.h)

    [do_div] divides 64 by 32 bits with two 32-bit divisions, the second of
    which is the [divl] instruction, which faults when the quotient does not
    fit; [rand] is a 48-bit linear congruential generator that takes its
    result with [do_div]; [log2n] and [pow] are loops over [int]s.  The
    floating-point [powlf] is left out. *)

From stdpp Require Import base numbers list.
From Stdlib Require Import ZArith Lia.
From S2P Require Import Prelude.

Open Scope Z_scope.

(** ** Division *)

(** [divl base] on [upper:low]: quotient and remainder, or a fault. *)
Definition divl (upper low base : Z) : outcome (Z * Z) :=
  let n := upper * 2 ^ 32 + low in
  if base =? 0 then Fault else if 2 ^ 32 <=? n / base then Fault else Ret (n / base, n mod base).

(** [do_div(n, base)]: the remainder, and what becomes of [n]. *)
Definition do_div (n base : Z) : outcome (Z * Z) :=
  let low := u32 n in
  let high := u32 (n / 2 ^ 32) in
  uh ← (if negb (high =? 0) then if base =? 0 then Fault else Ret (high mod base, high / base) else Ret (high, high));
  let '(upper, high) := uh in
  qr ← divl upper low base;
  let '(low, mod_) := qr in
  Ret (mod_, high * 2 ^ 32 + low).

(** ** Random numbers *)

Definition RAND_MAX : Z := 0x7fff.

(** The state is the variable [next]. *)
Definition rand : M Z Z :=
  next ← mget;
  let next := Z.land (wrap 64 (next * 0x5DEECE66D + 0xB)) (2 ^ 48 - 1) in
  _ ← mput next;
  r ← mlift (do_div (Z.shiftr next 12) (RAND_MAX + 1));
  mret (s32 r.1).

Definition srand (seed : Z) : M Z unit := mput seed.

(** ** Powers and logarithms *)

Fixpoint pow_loop (n : nat) (x ret : Z) : Z :=
  match n with O => ret | S n => pow_loop n x (s32 (ret * x)) end.
Definition pow (x e : Z) : Z := pow_loop (Z.to_nat e) x 1.

(** The comparison of [size_i] with [n] is unsigned; the shift is on an
    [int], with the bits lost that leave it. *)
Fixpoint log2n_loop (fuel : nat) (n i size_i : Z) : outcome Z :=
  match fuel with
  | O => Spin
  | S fuel => if u32 size_i <=? n then log2n_loop fuel n (s32 (i + 1)) (s32 (Z.shiftl size_i 1)) else Ret (i - 1)
  end.
Definition log2n (fuel : nat) (n : Z) : outcome Z := log2n_loop fuel n 0 1.

(** ** Theorems *)

Lemma high_word n : fits 64 n -> u32 (n / 2 ^ 32) = n / 2 ^ 32.
Proof.
  intros Hn. apply wrap_small. unfold fits in *. split; [apply Z.div_pos; lia|apply Z.div_lt_upper_bound; lia].
Qed.

(** A number split at bit 32 is divided by dividing its high word first. *)
Lemma split_division n base : 0 < base ->
  let high := n / 2 ^ 32 in
  ((high mod base) * 2 ^ 32 + n mod 2 ^ 32) / base = n / base - (high / base) * 2 ^ 32 /\
  ((high mod base) * 2 ^ 32 + n mod 2 ^ 32) mod base = n mod base.
Proof.
  intros Hb high. assert (E : high mod base * 2 ^ 32 + n mod 2 ^ 32 = n + (- (high / base) * 2 ^ 32) * base).
  { unfold high. pose proof (Z.div_mod n (2 ^ 32) ltac:(lia)). pose proof (Z.div_mod (n / 2 ^ 32) base ltac:(lia)). lia. }
  rewrite E, Z.div_add, Z.mod_add by lia. split; [lia|done].
Qed.

Lemma do_div_run (n base : Z) : fits 64 n -> 0 < base < 2 ^ 32 -> do_div n base = Ret (n mod base, n / base).
Proof.
  intros Hn Hb. unfold do_div. rewrite high_word by done. set (high := n / 2 ^ 32).
  assert (Hh : 0 <= high) by (apply Z.div_pos; unfold fits in Hn; lia).
  destruct (split_division n base ltac:(lia)) as [Ed Em]. fold high in Ed, Em.
  replace (if negb (high =? 0) then if base =? 0 then Fault else Ret (high mod base, high / base) else Ret (high, high))
    with (Ret (high mod base, high / base)).
  2:{ destruct (Z.eqb_spec high 0) as [->|]; cbn [negb]; [by rewrite Zmod_0_l, Zdiv_0_l|by replace (base =? 0) with false by lia]. }
  cbn [mbind outcome_bind]. unfold divl. replace (base =? 0) with false by lia. unfold wrap. rewrite Ed, Em.
  assert (Hq : n / base - high / base * 2 ^ 32 < 2 ^ 32).
  { rewrite <-Ed. apply Z.div_lt_upper_bound; [lia|]. pose proof (Z.mod_pos_bound high base ltac:(lia)).
    pose proof (Z.mod_pos_bound n (2 ^ 32) ltac:(lia)). nia. }
  replace (2 ^ 32 <=? n / base - high / base * 2 ^ 32) with false by lia. cbn. do 2 f_equal. lia.
Qed.

(** [do_div] divides every 64-bit number by every 32-bit number but 0:
    [n] becomes the quotient and the value is the remainder; the [divl]
    instruction never overflows, because the high word has been reduced
    first.  Division by 0 faults. *)
Theorem do_div_ok (n base : Z) :
  fits 64 n -> fits 32 base -> do_div n base = if base =? 0 then Fault else Ret (n mod base, n / base).
Proof.
  intros Hn Hb. destruct (Z.eqb_spec base 0) as [->|Hne].
  - unfold do_div. by destruct (negb _).
  - apply do_div_run; [done|]. unfold fits in Hb. lia.
Qed.

Lemma lcg_state s : fits 48 (Z.land (wrap 64 (s * 0x5DEECE66D + 0xB)) (2 ^ 48 - 1)).
Proof. change (2 ^ 48 - 1) with (Z.ones 48). rewrite Z.land_ones by lia. apply Z.mod_pos_bound. lia. Qed.

(** [rand] returns, from every seed, a number of the range 0 to RAND_MAX
    that its comment promises: bits 12 to 26 of the next number of the
    linear congruential sequence modulo 2 ^ 48. *)
Theorem rand_ok (s : Z) :
  exists r s', rand s = Ret (r, s') /\ 0 <= r <= RAND_MAX /\
    s' = (s * 0x5DEECE66D + 0xB) mod 2 ^ 48 /\ r = (s' / 2 ^ 12) mod 2 ^ 15.
Proof.
  pose proof (lcg_state s) as Hf. unfold rand. rewrite (M_bind_run _ _ s s s) by done. cbv zeta.
  set (s' := Z.land _ _) in *. rewrite (M_bind_run _ _ s s' tt) by done.
  assert (Es : s' = (s * 0x5DEECE66D + 0xB) mod 2 ^ 48).
  { unfold s', wrap. change (2 ^ 48 - 1) with (Z.ones 48). rewrite Z.land_ones by lia.
    change (2 ^ 64) with (2 ^ 48 * 2 ^ 16). rewrite Z.rem_mul_r by lia.
    rewrite (Z.mul_comm (2 ^ 48) (_ mod _)), Z.mod_add by lia. apply Zmod_mod. }
  assert (Hs : 0 <= Z.shiftr s' 12 < 2 ^ 64).
  { rewrite Z.shiftr_div_pow2 by lia. unfold fits in Hf. split; [apply Z.div_pos; lia|apply Z.div_lt_upper_bound; lia]. }
  assert (E : mlift (do_div (Z.shiftr s' 12) (RAND_MAX + 1)) s' =
              Ret ((Z.shiftr s' 12 mod (RAND_MAX + 1), Z.shiftr s' 12 / (RAND_MAX + 1)), s')).
  { unfold mlift. by rewrite do_div_run. }
  rewrite (M_bind_run _ _ _ _ _ E). cbn [fst]. rewrite Z.shiftr_div_pow2 by lia. change (RAND_MAX + 1) with (2 ^ 15).
  pose proof (Z.mod_pos_bound (s' / 2 ^ 12) (2 ^ 15) ltac:(lia)) as Hm.
  exists (s' / 2 ^ 12 mod 2 ^ 15), s'. split.
  - unfold mret, M_ret. do 2 f_equal. unfold sext. rewrite wrap_small by (unfold fits; lia). if_true. done.
  - unfold RAND_MAX. split; [lia|]. split; [exact Es|done].
Qed.

Lemma sext_mul w a b : 0 < w -> sext w (sext w a * b) = sext w (a * b).
Proof.
  intros Hw. unfold sext at 1 3. replace (wrap w (sext w a * b)) with (wrap w (a * b)); [done|].
  unfold sext, wrap. destruct (a mod 2 ^ w <? 2 ^ (w - 1)).
  - by rewrite Zmult_mod_idemp_l.
  - rewrite Z.mul_sub_distr_r, Zminus_mod, Zmult_mod_idemp_l, (Z.mul_comm (2 ^ w)), Z.mod_mul by lia.
    by rewrite Z.sub_0_r, Zmod_mod.
Qed.

Lemma pow_loop_spec x n : forall r, pow_loop n x (s32 r) = s32 (r * x ^ Z.of_nat n).
Proof.
  induction n as [|n IH]; intros r; [by rewrite Z.mul_1_r|]. cbn [pow_loop]. rewrite sext_mul, IH by lia.
  f_equal. rewrite Nat2Z.inj_succ, Z.pow_succ_r by lia. lia.
Qed.

(** [pow(x, e)] is the power in 32-bit arithmetic (1 for a negative
    exponent). *)
Theorem pow_ok (x e : Z) : pow x e = if e <? 0 then 1 else s32 (x ^ e).
Proof.
  unfold pow. change 1 with (s32 1) at 1. rewrite pow_loop_spec. destruct (Z.ltb_spec e 0) as [H|H].
  - by replace (Z.to_nat e) with O by lia.
  - by rewrite Z2Nat.id, Z.mul_1_l by lia.
Qed.

Lemma log2n_loop_run n k : 0 < n < 2 ^ 31 -> forall fuel i,
  0 <= i <= 31 -> i + Z.of_nat k = Z.log2 n + 1 -> (k < fuel)%nat ->
  log2n_loop fuel n i (s32 (2 ^ i)) = Ret (Z.log2 n).
Proof.
  intros Hn. assert (Hl : Z.log2 n < 31) by (apply Z.log2_lt_pow2; lia).
  induction k as [|k IH]; intros fuel i Hi Hk Hf; (destruct fuel as [|fuel]; [lia|]); cbn [log2n_loop].
  - assert (i = Z.log2 n + 1) as -> by lia. pose proof (Z.log2_spec n ltac:(lia)) as [_ H]. rewrite <-Z.add_1_r in H.
    assert (E : u32 (s32 (2 ^ (Z.log2 n + 1))) = 2 ^ (Z.log2 n + 1)).
    { assert (0 < 2 ^ (Z.log2 n + 1) <= 2 ^ 31) by (split; [apply Z.pow_pos_nonneg; lia|apply Z.pow_le_mono_r; lia]).
      unfold sext. rewrite (wrap_small 32 (2 ^ (Z.log2 n + 1))) by (unfold fits; lia). change (2 ^ (32 - 1)) with (2 ^ 31).
      destruct (Z.ltb_spec (2 ^ (Z.log2 n + 1)) (2 ^ 31)); [apply wrap_small; unfold fits; lia|].
      unfold wrap. replace (2 ^ (Z.log2 n + 1)) with (2 ^ 31) by lia. done. }
    rewrite E. replace (_ <=? n) with false by lia. f_equal. lia.
  - assert (Hlt : i <= Z.log2 n) by lia. pose proof (Z.log2_spec n ltac:(lia)) as [H _].
    assert (Hp : 0 < 2 ^ i <= n) by (split; [apply Z.pow_pos_nonneg; lia|etransitivity; [apply Z.pow_le_mono_r|exact H]; lia]).
    assert (Ei : s32 (2 ^ i) = 2 ^ i).
    { unfold sext. rewrite wrap_small by (unfold fits; lia). by replace (2 ^ i <? 2 ^ (32 - 1)) with true by lia. }
    rewrite Ei, wrap_small by (unfold fits; lia). replace (2 ^ i <=? n) with true by lia.
    rewrite Z.shiftl_mul_pow2 by lia. replace (2 ^ i * 2 ^ 1) with (2 ^ (i + 1)) by (rewrite Z.pow_add_r; lia).
    replace (s32 (i + 1)) with (i + 1); [apply IH; lia|].
    unfold sext. rewrite wrap_small by (unfold fits; lia). by replace (i + 1 <? 2 ^ (32 - 1)) with true by lia.
Qed.

Lemma log2n_zero_spins n : 0 <= n -> forall fuel i, log2n_loop fuel n i 0 = Spin.
Proof. intros Hn. induction fuel as [|fuel IH]; intros i; [done|]. cbn [log2n_loop]. change (u32 0) with 0. if_true. apply IH. Qed.

(** One round of the loop of [log2n] on a number of at least 2 ^ 31. *)
Lemma log2n_big n k : 2 ^ 31 <= n < 2 ^ 32 -> forall fuel i j, 0 <= j <= 32 -> (k + Z.to_nat j = 32)%nat ->
  log2n_loop fuel n i (s32 (2 ^ j)) = Spin.
Proof.
  intros Hn. induction k as [|k IH]; intros fuel i j Hj Hk.
  - assert (j = 32) as -> by lia. change (s32 (2 ^ 32)) with 0. apply log2n_zero_spins. lia.
  - destruct fuel as [|fuel]; [done|]. cbn [log2n_loop].
    assert (Hp : 0 < 2 ^ j <= 2 ^ 31) by (split; [apply Z.pow_pos_nonneg; lia|apply Z.pow_le_mono_r; lia]).
    assert (u32 (s32 (2 ^ j)) <= n /\ s32 (Z.shiftl (s32 (2 ^ j)) 1) = s32 (2 ^ (j + 1))) as [E1 E2].
    { rewrite Z.shiftl_mul_pow2, sext_mul, Z.pow_add_r by lia. split; [|done].
      unfold sext. rewrite (wrap_small 32 (2 ^ j)) by (unfold fits; lia).
      destruct (_ <? _); unfold wrap; [rewrite Z.mod_small by lia; lia|].
      pose proof (Z.mod_add (2 ^ j - 2 ^ 32) 1 (2 ^ 32) ltac:(lia)) as Ea. rewrite <-Ea, Z.mod_small; lia. }
    rewrite E2. if_true. apply IH; lia.
Qed.

(** [log2n] is the logarithm rounded down, -1 for 0, as long as the
    number is below 2 ^ 31; on any other number the shifted [int] becomes 0
    and the loop never ends. *)
Theorem log2n_ok (n : Z) (fuel : nat) :
  fits 32 n ->
  (n < 2 ^ 31 -> (32 < fuel)%nat -> log2n fuel n = Ret (if n =? 0 then -1 else Z.log2 n)) /\
  (2 ^ 31 <= n -> log2n fuel n = Spin).
Proof.
  intros Hn. unfold fits in Hn. unfold log2n. split.
  - intros Hs Hf. destruct (Z.eqb_spec n 0) as [->|Hne]; [by destruct fuel; [lia|]|].
    assert (0 <= Z.log2 n < 31) by (split; [apply Z.log2_nonneg|apply Z.log2_lt_pow2; lia]).
    change 1 with (s32 (2 ^ 0)). apply (log2n_loop_run n (Z.to_nat (Z.log2 n + 1))); lia.
  - intros Hb. change 1 with (s32 (2 ^ 0)). apply (log2n_big n 32); lia.
Qed.

Lemma do_div_ok_witness : do_div 0x123456789ABCDEF0 1000 = Ret (0x123456789ABCDEF0 mod 1000, 0x123456789ABCDEF0 / 1000).
Proof. apply (do_div_ok 0x123456789ABCDEF0 1000); split; lia. Defined.

Lemma log2n_ok_witness : log2n 40 1000 = Ret 9 /\ log2n 40 0x80000000 = Spin.
Proof.
  split.
  - apply (log2n_ok 1000 40); [split; lia|lia|lia].
  - apply (log2n_ok 0x80000000 40); [split; lia|lia].
Defined.
