(* ===== verification/Lock.v ===== *)
(** * Spin locks (libs/lock.c, include/lock.h)

    Two views of the same code.  [cpu_step] is the interleaving semantics:
    any number of processors run [spin_lock]; [critical section];
    [spin_unlock] one memory access at a time, and [mutual_exclusion] holds
    in every reachable state.  [spin_lock] and [spin_unlock] are the
    sequential summary the other components use, for code that runs while
    no other processor touches the lock; [spin_lock_alone] derives it from
    the step relation. *)

From stdpp Require Import base numbers list gmap relations.
From Stdlib Require Import ZArith Lia.
From S2P Require Import Prelude Bitops.

Open Scope Z_scope.

(** The retry bound in the [assert] of the wait loop. *)
Definition SPIN_LIMIT : Z := 10000000.

(** Where a processor is in [spin_lock]: about to read the counter, about
    to run [cmpxchg], past the lock, or stopped by the [assert]. *)
Inductive cpu_pc : Type :=
  | Idle
  | Reading (count : Z)
  | Trying (count : Z)
  | Critical
  | Halted.

Record lock_state := LockState {
  counter : Z;                 (** [lock->counter] *)
  pcs : gmap Z cpu_pc          (** processors; absent means [Idle] *)
}.

Definition pc_of (s : lock_state) (i : Z) : cpu_pc := default Idle (pcs s !! i).

Definition goto (s : lock_state) (i : Z) (v : Z) (p : cpu_pc) : lock_state :=
  LockState v (<[i := p]> (pcs s)).

(** One memory access (or local step) of processor [i]. *)
Inductive cpu_step (i : Z) (s : lock_state) : lock_state -> Prop :=
  | step_call :
      pc_of s i = Idle -> cpu_step i s (goto s i (counter s) (Reading 0))
  | step_busy c :
      pc_of s i = Reading c -> atomic_read (counter s) <> 0 -> c < SPIN_LIMIT ->
      cpu_step i s (goto s i (counter s) (Reading (c + 1)))
  | step_bug c :
      pc_of s i = Reading c -> atomic_read (counter s) <> 0 -> SPIN_LIMIT <= c ->
      cpu_step i s (goto s i (counter s) Halted)
  | step_seen_free c :
      pc_of s i = Reading c -> atomic_read (counter s) = 0 ->
      cpu_step i s (goto s i (counter s) (Trying c))
  | step_cmpxchg c old v :
      pc_of s i = Trying c -> cmpxchg (counter s) 0 1 = (old, v) ->
      cpu_step i s (goto s i v (if old =? 0 then Critical else Reading c))
  | step_unlock :
      pc_of s i = Critical -> cpu_step i s (goto s i (atomic_set (counter s) 0) Idle).

Definition any_step (s s' : lock_state) : Prop := exists i, cpu_step i s s'.

(** [spinlock_init], every processor outside the lock. *)
Definition spinlock_init : lock_state := LockState 0 ∅.

(** ** The sequential summary *)

Definition spin_lock (counter : Z) : outcome Z := if counter =? 0 then Ret 1 else Bug.
Definition spin_unlock (counter : Z) : Z := atomic_set counter 0.

(** ** Mutual exclusion *)

Definition lock_inv (s : lock_state) : Prop :=
  (counter s = 0 /\ forall i, pc_of s i <> Critical) \/
  (counter s = 1 /\ exists i, pc_of s i = Critical /\ forall j, pc_of s j = Critical -> j = i).

Lemma pc_of_goto s i v p j : pc_of (goto s i v p) j = if decide (i = j) then p else pc_of s j.
Proof. unfold pc_of, goto. simpl. rewrite lookup_insert. by case_decide. Qed.

(** A processor outside the lock moves to another place outside it. *)
Lemma lock_inv_outside s i p :
  lock_inv s -> pc_of s i <> Critical -> p <> Critical -> lock_inv (goto s i (counter s) p).
Proof.
  intros [[Hc Hn]|(Hc & j & Hj & Hu)] Hi Hp; [left|right]; (split; [done|]).
  - intros k. rewrite pc_of_goto. case_decide; [done|apply Hn].
  - exists j. split.
    + rewrite pc_of_goto. case_decide; [congruence|done].
    + intros k. rewrite pc_of_goto. case_decide; [done|apply Hu].
Qed.

Lemma lock_inv_step s s' : any_step s s' -> lock_inv s -> lock_inv s'.
Proof.
  intros [i Hs] HI. destruct Hs as [Hp|c Hp _ _|c Hp _ _|c Hp _|c old v Hp Hx|Hp];
    try (apply lock_inv_outside; [done|congruence|done]).
  - unfold cmpxchg in Hx. injection Hx as <- <-. destruct (Z.eqb_spec (counter s) 0) as [E|E].
    + destruct HI as [[_ Hn]|[Hc _]]; [|congruence]. right. split; [done|].
      exists i. split; [by rewrite pc_of_goto, decide_True|].
      intros j. rewrite pc_of_goto. case_decide; [done|]. intros Hj. by apply Hn in Hj.
    + apply lock_inv_outside; [done|congruence|done].
  - destruct HI as [[_ Hn]|(_ & k & Hk & Hu)]; [by apply Hn in Hp|]. left. split; [done|].
    intros j. rewrite pc_of_goto. case_decide; [done|]. intros Hj.
    apply Hu in Hj. apply Hu in Hp. congruence.
Qed.

Lemma lock_inv_init : lock_inv spinlock_init.
Proof. left. split; [done|]. intros i. unfold pc_of. simpl. by rewrite lookup_empty. Qed.

Lemma lock_inv_reachable s : rtc any_step spinlock_init s -> lock_inv s.
Proof.
  generalize lock_inv_init. generalize spinlock_init as s0.
  intros s0 H0 Hr. induction Hr; eauto using lock_inv_step.
Qed.

(** C7. Mutual exclusion: in every interleaving of any number of processors
    that take and release the lock, at most one is past [spin_lock]; the
    counter is 1 exactly while there is one and 0 exactly while there is
    none, so a release makes the lock free again. *)
Theorem mutual_exclusion (s : lock_state) :
  rtc any_step spinlock_init s ->
  (forall i j, pc_of s i = Critical -> pc_of s j = Critical -> i = j) /\
  (counter s = 1 <-> exists i, pc_of s i = Critical) /\
  (counter s = 0 <-> forall i, pc_of s i <> Critical).
Proof.
  intros [[Hc Hn]|(Hc & k & Hk & Hu)]%lock_inv_reachable; rewrite Hc.
  - split_and!; [intros i j Hi; by apply Hn in Hi| |done].
    split; [done|]. intros [i Hi]. by apply Hn in Hi.
  - split_and!; [|naive_solver|].
    + intros i j Hi%Hu Hj%Hu. congruence.
    + split; [done|]. intros Hn. by apply Hn in Hk.
Qed.

(** Processor 0 takes the lock and gives it back: the counter is 0 again. *)
Lemma mutual_exclusion_witness :
  exists s, rtc any_step spinlock_init s /\ counter s = 1 /\
    exists s', any_step s s' /\ pc_of s' 0 = Idle /\ counter s' = 0.
Proof.
  set (s1 := goto spinlock_init 0 0 (Reading 0)).
  set (s2 := goto s1 0 0 (Trying 0)). set (s3 := goto s2 0 1 Critical).
  assert (Hr : rtc any_step spinlock_init s3).
  { eapply rtc_l; [exists 0; by apply (step_call 0 spinlock_init)|].
    eapply rtc_l; [exists 0; by apply (step_seen_free 0 s1 0)|].
    eapply rtc_l; [exists 0; by apply (step_cmpxchg 0 s2 0 0 1)|]. apply rtc_refl. }
  exists s3. split; [exact Hr|].
  assert (H3 : counter s3 = 1) by (apply (mutual_exclusion s3 Hr); exists 0; reflexivity).
  split; [exact H3|]. eexists. split; [exists 0; apply (step_unlock 0 s3); reflexivity|].
  split; reflexivity.
Defined.

(** ** A processor that runs alone *)

Lemma spin_until_bug n s i c :
  counter s <> 0 -> pc_of s i = Reading c -> c + Z.of_nat n = SPIN_LIMIT ->
  exists s', rtc (cpu_step i) s s' /\ pc_of s' i = Halted /\ counter s' = counter s.
Proof.
  revert s c. induction n as [|n IH]; intros s c Hl Hp Hn.
  - exists (goto s i (counter s) Halted). split; [|by rewrite pc_of_goto, decide_True].
    apply rtc_once. apply (step_bug i s c); [done|done|lia].
  - destruct (IH (goto s i (counter s) (Reading (c + 1))) (c + 1)) as (s' & Hr & Hs').
    + done.
    + by rewrite pc_of_goto, decide_True.
    + lia.
    + exists s'. split; [|done]. eapply rtc_l; [|done].
      apply (step_busy i s c); [done|done|lia].
Qed.

(** What [spin_lock] does when no other processor runs: on a free lock
    it returns with the counter at 1; on a lock that is already taken, by
    this very control flow for instance, it can only spin until its
    [assert] stops the processor.  This is the sequential [spin_lock] the
    other components use. *)
Theorem spin_lock_alone (s : lock_state) (i : Z) :
  pc_of s i = Idle ->
  exists s', rtc (cpu_step i) s s' /\
    match spin_lock (counter s) with
    | Ret v => pc_of s' i = Critical /\ counter s' = v
    | _ => pc_of s' i = Halted /\ counter s' = counter s
    end.
Proof.
  intros Hp. unfold spin_lock. set (s1 := goto s i (counter s) (Reading 0)).
  assert (H1 : cpu_step i s s1) by by apply step_call.
  assert (Hp1 : pc_of s1 i = Reading 0) by (unfold s1; by rewrite pc_of_goto, decide_True).
  destruct (Z.eqb_spec (counter s) 0) as [E|E].
  - set (s2 := goto s1 i (counter s1) (Trying 0)).
    assert (H2 : cpu_step i s1 s2) by by apply step_seen_free.
    assert (Hp2 : pc_of s2 i = Trying 0) by (unfold s2; by rewrite pc_of_goto, decide_True).
    exists (goto s2 i 1 Critical). split.
    + eapply rtc_l; [done|]. eapply rtc_l; [done|]. apply rtc_once.
      apply (step_cmpxchg i s2 0 0 1); [done|]. unfold cmpxchg. simpl. by rewrite E.
    + by rewrite pc_of_goto, decide_True.
  - destruct (spin_until_bug (Z.to_nat SPIN_LIMIT) s1 i 0) as (s' & Hr & Hs');
      [done|done|rewrite Z2Nat.id; unfold SPIN_LIMIT; lia|].
    exists s'. split; [|done]. by eapply rtc_l.
Qed.

Lemma spin_lock_alone_witness :
  exists s', rtc (cpu_step 3) (LockState 1 ∅) s' /\
             pc_of s' 3 = Halted /\ counter s' = 1.
Proof. apply (spin_lock_alone (LockState 1 ∅) 3). reflexivity. Defined.
