(* ===== verification/ListNode.v ===== *)
(** * Intrusive circular doubly linked lists (include/list.h)

    A [struct list_node *] is an element of a type [L] of node addresses
    (each component has its own: list heads and the nodes embedded in its
    objects); NULL is [None].  The memory that holds the nodes is a finite
    map in which an address that was never written reads as the zeroed
    node, as in the kernel's .bss.

    [dll s h xs] is the representation invariant: from the head [h] the
    [next] pointers visit exactly [xs] and come back to [h], and the [prev]
    pointers are the inverse.  Every operation is shown to act on [xs] as
    the list operation it implements, and to leave every other list of the
    same memory alone. *)

From stdpp Require Import base numbers list gmap.
From Stdlib Require Import ZArith Lia.
From S2P Require Import Prelude.

Open Scope Z_scope.

(** [struct list_node]. *)
Record list_node (L : Type) := ListNode {
  prev : option L;
  next : option L
}.
Arguments ListNode {L} prev next.
Arguments prev {L} _.
Arguments next {L} _.

Section Lists.
Context {L : Type} `{Countable L}.

Implicit Types (s : gmap L (list_node L)) (h x y a b c cur node : L) (xs ys : list L).

(** ** Memory of nodes *)

Definition nd s a : list_node L := default (ListNode None None) (s !! a).

Definition set_prev a (p : option L) s : gmap L (list_node L) :=
  <[a := ListNode p (next (nd s a))]> s.
Definition set_next a (p : option L) s : gmap L (list_node L) :=
  <[a := ListNode (prev (nd s a)) p]> s.

(** ** The operations, statement by statement *)

Definition list_init h s : gmap L (list_node L) :=
  set_prev h (Some h) (set_next h (Some h) s).

Definition list_insert_before cur node s : outcome (gmap L (list_node L)) :=
  p ← deref (prev (nd s cur));
  let s := set_next p (Some node) s in
  let s := set_next node (Some cur) s in
  let s := set_prev node (prev (nd s cur)) s in
  let s := set_prev cur (Some node) s in
  Ret s.

Definition list_insert cur node s : outcome (gmap L (list_node L)) :=
  n ← deref (next (nd s cur));
  let s := set_prev n (Some node) s in
  let s := set_next node (next (nd s cur)) s in
  let s := set_prev node (Some cur) s in
  let s := set_next cur (Some node) s in
  Ret s.

Definition list_insert_head h node s := list_insert h node s.
Definition list_insert_tail h node s := list_insert_before h node s.

Definition list_remove node s : outcome (gmap L (list_node L)) :=
  p ← deref (prev (nd s node));
  let s := set_next p (next (nd s node)) s in
  n ← deref (next (nd s node));
  let s := set_prev n (prev (nd s node)) s in
  Ret s.

Definition list_empty h s : bool := bool_decide (next (nd s h) = Some h).
Definition list_next h s : option L := next (nd s h).
Definition list_tail h s : option L := prev (nd s h).

(** The counting loop of [list_size], with [fuel] iterations at most. *)
Fixpoint list_size_loop (fuel : nat) h (node : option L) (size : Z) s : outcome Z :=
  match fuel with
  | O => Spin
  | S fuel =>
      if bool_decide (node = Some h) then Ret size
      else n ← deref node; list_size_loop fuel h (next (nd s n)) (size + 1) s
  end.
Definition list_size (fuel : nat) h s : outcome Z :=
  list_size_loop fuel h (next (nd s h)) 0 s.

(** The traversal idiom [for (node = head->next; node != head; node =
    node->next)]: the nodes it visits. *)
Fixpoint list_visit (fuel : nat) h (node : option L) s : outcome (list L) :=
  match fuel with
  | O => Spin
  | S fuel =>
      if bool_decide (node = Some h) then Ret []
      else n ← deref node; l ← list_visit fuel h (next (nd s n)) s; Ret (n :: l)
  end.

(** ** Representation *)

Definition linked s a b : Prop := next (nd s a) = Some b /\ prev (nd s b) = Some a.

(** Consecutive elements of the list are linked both ways. *)
Fixpoint chain s (l : list L) : Prop :=
  match l with
  | a :: (b :: _) as l' => linked s a b /\ chain s l'
  | _ => True
  end.

Definition dll s h xs : Prop := NoDup (h :: xs) /\ chain s (h :: xs ++ [h]).

(** ** Reads after writes *)

Lemma nd_set_prev a p s b :
  nd (set_prev a p s) b = if decide (a = b) then ListNode p (next (nd s b)) else nd s b.
Proof.
  unfold nd at 1, set_prev. rewrite lookup_insert. by case_decide; subst.
Qed.

Lemma nd_set_next a p s b :
  nd (set_next a p s) b = if decide (a = b) then ListNode (prev (nd s b)) p else nd s b.
Proof.
  unfold nd at 1, set_next. rewrite lookup_insert. by case_decide; subst.
Qed.

Lemma next_set_prev a p s b : next (nd (set_prev a p s) b) = next (nd s b).
Proof. rewrite nd_set_prev. by case_decide. Qed.
Lemma prev_set_next a p s b : prev (nd (set_next a p s) b) = prev (nd s b).
Proof. rewrite nd_set_next. by case_decide. Qed.
Lemma prev_set_prev a p s b :
  prev (nd (set_prev a p s) b) = if decide (a = b) then p else prev (nd s b).
Proof. rewrite nd_set_prev. by case_decide. Qed.
Lemma next_set_next a p s b :
  next (nd (set_next a p s) b) = if decide (a = b) then p else next (nd s b).
Proof. rewrite nd_set_next. by case_decide. Qed.

(** ** Chains *)

Lemma chain_app s l1 a l2 :
  chain s (l1 ++ a :: l2) <-> chain s (l1 ++ [a]) /\ chain s (a :: l2).
Proof.
  induction l1 as [|x l1 IH]; [simpl; tauto|].
  destruct l1 as [|y l1]; [simpl; tauto|].
  change (linked s x y /\ chain s ((y :: l1) ++ a :: l2) <->
          (linked s x y /\ chain s ((y :: l1) ++ [a])) /\ chain s (a :: l2)).
  rewrite IH. tauto.
Qed.

Lemma chain_cons s a b l : chain s (a :: b :: l) <-> linked s a b /\ chain s (b :: l).
Proof. done. Qed.

Lemma chain_link s l1 a b l2 :
  chain s (l1 ++ a :: b :: l2) <->
  chain s (l1 ++ [a]) /\ linked s a b /\ chain s (b :: l2).
Proof. by rewrite chain_app, chain_cons. Qed.

(** A chain only depends on the [next] of its sources and the [prev] of
    its targets. *)
Lemma chain_frame s s' l :
  (forall c, c ∈ removelast l -> next (nd s' c) = next (nd s c)) ->
  (forall c, c ∈ tail l -> prev (nd s' c) = prev (nd s c)) ->
  chain s l -> chain s' l.
Proof.
  induction l as [|a l IH]; [done|]. destruct l as [|b l]; [done|].
  intros Hn Hp. rewrite !chain_cons. intros [[H1 H2] H3].
  simpl in Hn, Hp. split.
  - split; [rewrite Hn | rewrite Hp]; set_solver.
  - apply IH; [..|done]; intros; [apply Hn | apply Hp].
    + by apply list_elem_of_further.
    + by apply list_elem_of_further.
Qed.

Lemma dll_frame s s' h xs :
  (forall c, c ∈ h :: xs -> nd s' c = nd s c) -> dll s h xs -> dll s' h xs.
Proof.
  intros Hf [Hnd Hs]. split; [done|].
  assert (Hr : removelast (h :: xs ++ [h]) = h :: xs)
    by (rewrite app_comm_cons; apply removelast_last).
  apply (chain_frame s); [rewrite Hr|simpl|done]; intros c Hc; rewrite Hf; set_solver.
Qed.

Lemma dll_next s h xs : dll s h xs -> next (nd s h) = Some (hd h xs).
Proof. intros [_ Hs]. destruct xs; simpl in *; firstorder. Qed.

Ltac rw_nodes :=
  repeat (rewrite next_set_prev || rewrite prev_set_next ||
          rewrite prev_set_prev || rewrite next_set_next).

(** [list_insert] between [cur] and its successor. *)
Lemma list_insert_effect s cur node n :
  next (nd s cur) = Some n -> node <> cur -> node <> n ->
  exists s', list_insert cur node s = Ret s' /\
    forall c,
      next (nd s' c) = (if decide (c = cur) then Some node else
                        if decide (c = node) then Some n else next (nd s c)) /\
      prev (nd s' c) = (if decide (c = n) then Some node else
                        if decide (c = node) then Some cur else prev (nd s c)).
Proof.
  intros Hn H1 H2. unfold list_insert. rewrite Hn. simpl. eexists.
  split; [reflexivity|]. intros c. rw_nodes. rewrite Hn.
  split; repeat case_decide; congruence.
Qed.

Lemma list_insert_before_effect s cur node p :
  prev (nd s cur) = Some p -> node <> cur -> node <> p ->
  exists s', list_insert_before cur node s = Ret s' /\
    forall c,
      next (nd s' c) = (if decide (c = p) then Some node else
                        if decide (c = node) then Some cur else next (nd s c)) /\
      prev (nd s' c) = (if decide (c = cur) then Some node else
                        if decide (c = node) then Some p else prev (nd s c)).
Proof.
  intros Hn H1 H2. unfold list_insert_before. rewrite Hn. simpl. eexists.
  split; [reflexivity|]. intros c. rw_nodes. rewrite Hn.
  split; repeat case_decide; congruence.
Qed.

Lemma list_remove_effect s x p n :
  prev (nd s x) = Some p -> next (nd s x) = Some n -> x <> p -> x <> n ->
  exists s', list_remove x s = Ret s' /\
    forall c,
      next (nd s' c) = (if decide (c = p) then Some n else next (nd s c)) /\
      prev (nd s' c) = (if decide (c = n) then Some p else prev (nd s c)).
Proof.
  intros Hp Hn H1 H2. unfold list_remove. rewrite Hp. simpl. rw_nodes.
  rewrite decide_False by done. rewrite Hn. simpl. eexists.
  split; [reflexivity|]. intros c. rw_nodes. rewrite Hp.
  split; repeat case_decide; congruence.
Qed.

Lemma elem_of_removelast (l : list L) c : c ∈ removelast l -> c ∈ l.
Proof.
  induction l as [|a [|b l] IH]; [done|set_solver|].
  change (removelast (a :: b :: l)) with (a :: removelast (b :: l)).
  set_solver.
Qed.

(** Splicing a node in or out of a chain whose sources and targets are
    distinct. *)
Lemma chain_insert s s' l1 cur n l2 node :
  chain s (l1 ++ cur :: n :: l2) ->
  NoDup (removelast (l1 ++ cur :: n :: l2)) -> NoDup (tail (l1 ++ cur :: n :: l2)) ->
  node ∉ l1 ++ cur :: n :: l2 ->
  (forall c,
      next (nd s' c) = (if decide (c = cur) then Some node else
                        if decide (c = node) then Some n else next (nd s c)) /\
      prev (nd s' c) = (if decide (c = n) then Some node else
                        if decide (c = node) then Some cur else prev (nd s c))) ->
  chain s' (l1 ++ cur :: node :: n :: l2).
Proof.
  intros Hc HN HT Hnode Hw.
  rewrite removelast_app in HN by done.
  change (removelast (cur :: n :: l2)) with (cur :: removelast (n :: l2)) in HN.
  rewrite chain_link in Hc. destruct Hc as (C1 & [L1 L2] & C2).
  rewrite chain_link, chain_cons. unfold linked.
  apply NoDup_app in HN as (_ & HN1 & HN2). apply NoDup_cons in HN2 as [HN2 _].
  assert (HT' : n ∉ tail (l1 ++ [cur]) /\ n ∉ l2 /\ (forall c, c ∈ tail (l1 ++ [cur]) -> c ∈ l1 ++ [cur])).
  { destruct l1 as [|y l1]; simpl in *.
    - apply NoDup_cons in HT as [? _]. set_solver.
    - replace (l1 ++ cur :: n :: l2) with ((l1 ++ [cur]) ++ n :: l2) in HT
        by by rewrite <- app_assoc.
      apply NoDup_app in HT as (_ & HT1 & HT2). apply NoDup_cons in HT2. set_solver. }
  destruct HT' as (T1 & T2 & T3).
  split_and!.
  - apply (chain_frame s); [..|done]; intros c Hc.
    + rewrite removelast_last in Hc. rewrite (proj1 (Hw c)).
      rewrite !decide_False; set_solver.
    + rewrite (proj2 (Hw c)). rewrite !decide_False; set_solver.
  - rewrite (proj1 (Hw cur)). by rewrite decide_True.
  - rewrite (proj2 (Hw node)). rewrite decide_False by set_solver. by rewrite decide_True.
  - rewrite (proj1 (Hw node)). rewrite decide_False by set_solver. by rewrite decide_True.
  - rewrite (proj2 (Hw n)). by rewrite decide_True.
  - apply (chain_frame s); [..|done]; intros c Hc.
    + assert (c ∈ n :: l2) by by apply elem_of_removelast.
      rewrite (proj1 (Hw c)). rewrite !decide_False; set_solver.
    + simpl in Hc. rewrite (proj2 (Hw c)). rewrite !decide_False; set_solver.
Qed.

Lemma chain_delete s s' l1 p x n l2 :
  chain s (l1 ++ p :: x :: n :: l2) ->
  NoDup (removelast (l1 ++ p :: x :: n :: l2)) ->
  NoDup (tail (l1 ++ p :: x :: n :: l2)) ->
  (forall c,
      next (nd s' c) = (if decide (c = p) then Some n else next (nd s c)) /\
      prev (nd s' c) = (if decide (c = n) then Some p else prev (nd s c))) ->
  chain s' (l1 ++ p :: n :: l2).
Proof.
  intros Hc HN HT Hw.
  rewrite removelast_app in HN by done.
  change (removelast (p :: x :: n :: l2)) with (p :: x :: removelast (n :: l2)) in HN.
  rewrite chain_link, chain_cons in Hc. destruct Hc as (C1 & _ & _ & C2).
  apply NoDup_app in HN as (_ & HN1 & HN2). apply NoDup_cons in HN2 as [HN2 _].
  assert (HT' : n ∉ tail (l1 ++ [p]) /\ n ∉ l2).
  { destruct l1 as [|y l1]; simpl in *.
    - apply NoDup_cons in HT as [_ HT]. apply NoDup_cons in HT. set_solver.
    - replace (l1 ++ p :: x :: n :: l2) with ((l1 ++ [p]) ++ x :: n :: l2) in HT
        by by rewrite <- app_assoc.
      apply NoDup_app in HT as (_ & HT1 & HT2).
      apply NoDup_cons in HT2 as [_ HT2]. apply NoDup_cons in HT2. set_solver. }
  destruct HT' as [T1 T2].
  rewrite chain_link. split_and!.
  - apply (chain_frame s); [..|done]; intros c Hc.
    + rewrite removelast_last in Hc. rewrite (proj1 (Hw c)). rewrite decide_False; set_solver.
    + rewrite (proj2 (Hw c)). rewrite decide_False; set_solver.
  - split; [rewrite (proj1 (Hw p))|rewrite (proj2 (Hw n))]; by rewrite decide_True.
  - apply (chain_frame s); [..|done]; intros c Hc.
    + rewrite (proj1 (Hw c)). rewrite decide_False; set_solver.
    + simpl in Hc. rewrite (proj2 (Hw c)). rewrite decide_False; set_solver.
Qed.

(** ** The operations implement list operations *)

Lemma dll_ends s h xs :
  dll s h xs ->
  NoDup (removelast (h :: xs ++ [h])) /\ NoDup (tail (h :: xs ++ [h])) /\ NoDup (h :: xs).
Proof.
  intros [Hnd _]. split_and!; [|simpl|done].
  - by rewrite app_comm_cons, removelast_last.
  - apply NoDup_app. apply NoDup_cons in Hnd as [? ?].
    split_and!; [done|set_solver|apply NoDup_singleton].
Qed.

Lemma node_eq (n1 n2 : list_node L) : prev n1 = prev n2 -> next n1 = next n2 -> n1 = n2.
Proof. destruct n1, n2; simpl; congruence. Qed.

Lemma list_init_dll h s : dll (list_init h s) h [].
Proof.
  split; [apply NoDup_singleton|]. unfold list_init. simpl. split; [|done]. split.
  - rw_nodes. by case_decide.
  - rw_nodes. by case_decide.
Qed.

Lemma list_init_frame h s c : c <> h -> nd (list_init h s) c = nd s c.
Proof.
  intros. unfold list_init. rewrite nd_set_prev, nd_set_next.
  repeat case_decide; congruence.
Qed.

(** Insertion after the head or after a member. *)
Lemma list_insert_dll s h ys zs l1 cur node :
  dll s h (ys ++ zs) -> node ∉ h :: ys ++ zs -> h :: ys = l1 ++ [cur] ->
  exists s', list_insert cur node s = Ret s' /\
    dll s' h (ys ++ node :: zs) /\
    (forall c, c ∉ node :: h :: ys ++ zs -> nd s' c = nd s c).
Proof.
  intros Hd Hnode El. destruct (zs ++ [h]) as [|n l2] eqn:En; [by destruct zs|].
  assert (EC : h :: (ys ++ zs) ++ [h] = l1 ++ cur :: n :: l2).
  { rewrite <- app_assoc, En, app_comm_cons, El, <- app_assoc. done. }
  destruct (dll_ends _ _ _ Hd) as (N1 & N2 & N3). destruct Hd as [_ Hc].
  rewrite EC in Hc, N1, N2.
  assert (cur ∈ h :: ys ++ zs) by (rewrite app_comm_cons, El; set_solver).
  assert (n ∈ h :: ys ++ zs) by (assert (n ∈ zs ++ [h]) by (rewrite En; set_solver); set_solver).
  assert (node ∉ l1 ++ cur :: n :: l2) by (rewrite <- EC; set_solver).
  assert (Hlk : next (nd s cur) = Some n) by by rewrite chain_link in Hc; destruct Hc as (_ & [? _] & _).
  destruct (list_insert_effect s cur node n) as (s' & E & Hw); [done|set_solver..|].
  exists s'. split; [done|]. split.
  - split.
    + apply NoDup_cons in N3 as [? ?]. apply NoDup_cons.
      split; [set_solver|]. rewrite <- Permutation_middle. apply NoDup_cons. set_solver.
    + rewrite <- app_assoc. cbn [app]. rewrite En, app_comm_cons, El, <- app_assoc. cbn [app].
      by apply (chain_insert s).
  - intros c Hcn. apply node_eq; [rewrite (proj2 (Hw c))|rewrite (proj1 (Hw c))];
      rewrite !decide_False; set_solver.
Qed.

(** Insertion before the head (at the tail) or before a member. *)
Lemma list_insert_before_dll s h ys zs l2 cur node :
  dll s h (ys ++ zs) -> node ∉ h :: ys ++ zs -> zs ++ [h] = cur :: l2 ->
  exists s', list_insert_before cur node s = Ret s' /\
    dll s' h (ys ++ node :: zs) /\
    (forall c, c ∉ node :: h :: ys ++ zs -> nd s' c = nd s c).
Proof.
  intros Hd Hnode En. destruct (exists_last (l := h :: ys)) as (l1 & p & El); [done|].
  assert (EC : h :: (ys ++ zs) ++ [h] = l1 ++ p :: cur :: l2).
  { rewrite <- app_assoc, En, app_comm_cons, El, <- app_assoc. done. }
  destruct (dll_ends _ _ _ Hd) as (N1 & N2 & N3). destruct Hd as [_ Hc].
  rewrite EC in Hc, N1, N2.
  assert (p ∈ h :: ys ++ zs) by (rewrite app_comm_cons, El; set_solver).
  assert (cur ∈ h :: ys ++ zs) by (assert (cur ∈ zs ++ [h]) by (rewrite En; set_solver); set_solver).
  assert (node ∉ l1 ++ p :: cur :: l2) by (rewrite <- EC; set_solver).
  assert (Hlk : prev (nd s cur) = Some p) by by rewrite chain_link in Hc; destruct Hc as (_ & [_ ?] & _).
  destruct (list_insert_before_effect s cur node p) as (s' & E & Hw); [done|set_solver..|].
  exists s'. split; [done|]. split.
  - split.
    + apply NoDup_cons in N3 as [? ?]. apply NoDup_cons.
      split; [set_solver|]. rewrite <- Permutation_middle. apply NoDup_cons. set_solver.
    + rewrite <- app_assoc. cbn [app]. rewrite En, app_comm_cons, El, <- app_assoc. cbn [app].
      by apply (chain_insert s).
  - intros c Hcn. apply node_eq; [rewrite (proj2 (Hw c))|rewrite (proj1 (Hw c))];
      rewrite !decide_False; set_solver.
Qed.

Lemma list_remove_dll s h ys x zs :
  dll s h (ys ++ x :: zs) ->
  exists s', list_remove x s = Ret s' /\
    dll s' h (ys ++ zs) /\
    (forall c, c ∉ h :: ys ++ zs -> nd s' c = nd s c).
Proof.
  intros Hd. destruct (exists_last (l := h :: ys)) as (l1 & p & El); [done|].
  destruct (zs ++ [h]) as [|n l2] eqn:En; [by destruct zs|].
  assert (EC : h :: (ys ++ x :: zs) ++ [h] = l1 ++ p :: x :: n :: l2).
  { rewrite <- app_assoc. simpl. rewrite En, app_comm_cons, El, <- app_assoc. done. }
  destruct (dll_ends _ _ _ Hd) as (N1 & N2 & N3). destruct Hd as [_ Hc].
  rewrite EC in Hc, N1, N2.
  rewrite app_comm_cons in N3. apply NoDup_app in N3 as (A1 & A2 & A3).
  apply NoDup_cons in A3 as [A3 A4].
  assert (Hp : p ∈ h :: ys) by (rewrite El; set_solver).
  assert (Hn : n ∈ zs ++ [h]) by (rewrite En; set_solver).
  assert (x <> p) by (intros ->; set_solver).
  assert (x <> n) by (intros ->; set_solver).
  pose proof Hc as Hc'. rewrite chain_link, chain_cons in Hc'.
  destruct Hc' as (_ & [_ P1] & [P2 _] & _).
  destruct (list_remove_effect s x p n) as (s' & E & Hw); [done..|].
  exists s'. split; [done|]. split.
  - split.
    + rewrite app_comm_cons. apply NoDup_app. set_solver.
    + rewrite <- app_assoc, En, app_comm_cons, El, <- app_assoc. cbn [app].
      by apply (chain_delete s _ _ _ x).
  - intros c Hcn. apply node_eq; [rewrite (proj2 (Hw c))|rewrite (proj1 (Hw c))];
      rewrite !decide_False; set_solver.
Qed.

Lemma list_insert_head_dll s h xs node :
  dll s h xs -> node ∉ h :: xs ->
  exists s', list_insert h node s = Ret s' /\ dll s' h (node :: xs) /\
    (forall c, c ∉ node :: h :: xs -> nd s' c = nd s c).
Proof. intros Hd Hn. by apply (list_insert_dll s h [] xs [] h). Qed.

Lemma list_insert_tail_dll s h xs node :
  dll s h xs -> node ∉ h :: xs ->
  exists s', list_insert_tail h node s = Ret s' /\ dll s' h (xs ++ [node]) /\
    (forall c, c ∉ node :: h :: xs -> nd s' c = nd s c).
Proof.
  intros Hd Hn.
  destruct (list_insert_before_dll s h xs [] [] h node) as (s' & E & Hd' & Hf);
    rewrite ?app_nil_r in *; [done..|]. eauto.
Qed.

Lemma list_empty_dll s h xs : dll s h xs -> list_empty h s = true <-> xs = [].
Proof.
  intros Hd. unfold list_empty. rewrite (dll_next _ _ _ Hd), bool_decide_eq_true.
  destruct xs as [|x xs]; simpl; [done|]. split; [|done].
  intros [= ->]. destruct Hd as [Hn _]. apply NoDup_cons in Hn. set_solver.
Qed.

Lemma list_next_dll s h x xs : dll s h (x :: xs) -> list_next h s = Some x.
Proof. apply dll_next. Qed.

(** The traversal visits the members in order, given one iteration more
    than there are members. *)
Lemma list_visit_chain s h xs a fuel :
  chain s (a :: xs ++ [h]) -> h ∉ xs -> (length xs < fuel)%nat ->
  list_visit fuel h (next (nd s a)) s = Ret xs.
Proof.
  revert a fuel. induction xs as [|x xs IH]; intros a fuel Hc Hh Hf;
    (destruct fuel as [|fuel]; [simpl in Hf; lia|]); simpl in *.
  - destruct Hc as [[-> _] _]. by rewrite bool_decide_true.
  - destruct Hc as [[-> _] Hc]. rewrite bool_decide_false by set_solver.
    simpl. rewrite (IH x fuel); [done|done|set_solver|lia].
Qed.

Lemma list_visit_dll s h xs fuel :
  dll s h xs -> (length xs < fuel)%nat -> list_visit fuel h (next (nd s h)) s = Ret xs.
Proof.
  intros [Hnd Hc] Hf. apply NoDup_cons in Hnd as [? _]. by apply list_visit_chain.
Qed.

Lemma list_size_loop_visit s h (node : option L) (k : Z) fuel xs :
  list_visit fuel h node s = Ret xs ->
  list_size_loop fuel h node k s = Ret (k + Z.of_nat (length xs)).
Proof.
  revert node k xs. induction fuel as [|fuel IH]; intros node k xs; [done|]. simpl.
  case_bool_decide.
  - intros [= <-]. simpl. f_equal. lia.
  - destruct node as [n|]; [|done]. simpl. intros Hv.
    apply outcome_bind_ret in Hv as (l & Hl & [= <-]).
    rewrite (IH _ _ l) by done. simpl. f_equal. lia.
Qed.

Lemma list_size_dll s h xs fuel :
  dll s h xs -> (length xs < fuel)%nat ->
  list_size fuel h s = Ret (Z.of_nat (length xs)).
Proof.
  intros Hd Hf. unfold list_size. erewrite list_size_loop_visit; [done|].
  by apply list_visit_dll.
Qed.
End Lists.
