(* ===== verification/Buddy.v ===== *)
(** * The theory of buddy blocks

    Both allocators of the kernel (the boot-time heap of mm/kmalloc.c and
    the page allocator of mm/page.c) cut an index space into blocks of
    [2^order] units aligned to their size and find the buddy of a block by
    flipping one bit of its index.  This file holds what the two share: the
    arithmetic of the bit flip and the abstract state, a map from the first
    index of each block to its order and whether it is free, with its
    tiling invariant.  The two moves of the algorithm, splitting a block
    and merging two, preserve the tiling. *)

From stdpp Require Import base numbers list gmap.
From Stdlib Require Import ZArith Lia Znumtheory.
From S2P Require Import Prelude ListNode.

Open Scope Z_scope.

(** The index of the buddy, as both files compute it: [i ^ (1 << order)]. *)
Definition buddy (i o : Z) : Z := Z.lxor i (Z.shiftl 1 o).

Definition aligned (i o : Z) : Prop := i mod 2 ^ o = 0.

(** ** Arithmetic *)

Lemma pow2_succ (o : Z) : 0 <= o -> 2 ^ (o + 1) = 2 * 2 ^ o.
Proof. intros. rewrite Z.pow_add_r by lia. lia. Qed.

Lemma aligned_le (i o k : Z) : 0 <= k <= o -> aligned i o -> aligned i k.
Proof.
  unfold aligned. intros Hk Ha. apply Z.mod_divide in Ha; [|lia].
  apply Z.mod_divide; [lia|]. destruct Ha as [q ->].
  exists (q * 2 ^ (o - k)). rewrite <- Z.mul_assoc, <- Z.pow_add_r by lia.
  do 2 f_equal. lia.
Qed.

Lemma aligned_quot (i o : Z) : 0 <= o -> aligned i o -> i = 2 ^ o * (i / 2 ^ o).
Proof. intros Ho Ha. pose proof (Z.div_mod i (2 ^ o) ltac:(lia)). unfold aligned in Ha. lia. Qed.

Lemma aligned_mul (q o : Z) : aligned (2 ^ o * q) o.
Proof. unfold aligned. rewrite Z.mul_comm. apply Z_mod_mult. Qed.

Lemma lxor_1_even (q : Z) : Z.lxor (2 * q) 1 = 2 * q + 1.
Proof. by destruct q as [|[]|[]]. Qed.
Lemma lxor_1_odd (q : Z) : Z.lxor (2 * q + 1) 1 = 2 * q.
Proof.
  rewrite <- lxor_1_even, Z.lxor_assoc. change (Z.lxor 1 1) with 0. apply Z.lxor_0_r.
Qed.

(** Flipping the bit of an aligned index moves by one block size. *)
Lemma buddy_cases (i o : Z) :
  0 <= o -> aligned i o ->
  (aligned i (o + 1) /\ buddy i o = i + 2 ^ o) \/
  (aligned (i - 2 ^ o) (o + 1) /\ buddy i o = i - 2 ^ o).
Proof.
  intros Ho Ha. rewrite (aligned_quot i o) by done.
  set (q := i / 2 ^ o). unfold buddy.
  rewrite Z.mul_comm, <- Z.shiftl_mul_pow2, <- Z.shiftl_lxor by lia.
  rewrite !Z.shiftl_mul_pow2 by lia.
  destruct (Z.Even_or_Odd q) as [[p Hp]|[p Hp]]; rewrite Hp.
  - left. rewrite lxor_1_even. split; [|lia].
    replace (2 * p * 2 ^ o) with (2 ^ (o + 1) * p) by (rewrite pow2_succ by lia; lia).
    apply aligned_mul.
  - right. rewrite lxor_1_odd. split; [|lia].
    replace ((2 * p + 1) * 2 ^ o - 2 ^ o) with (2 ^ (o + 1) * p)
      by (rewrite pow2_succ by lia; lia).
    apply aligned_mul.
Qed.

Lemma buddy_aligned (i o : Z) : 0 <= o -> aligned i o -> aligned (buddy i o) o.
Proof.
  intros Ho Ha. destruct (buddy_cases i o Ho Ha) as [[_ ->]|[_ ->]]; unfold aligned in *.
  - rewrite <- (Z.mul_1_l (2 ^ o)) at 1. by rewrite Z_mod_plus_full.
  - replace (i - 2 ^ o) with (i + (-1) * 2 ^ o) by lia. by rewrite Z_mod_plus_full.
Qed.

Lemma buddy_split (h o : Z) :
  0 <= o -> aligned h (o + 1) -> buddy h o = h + 2 ^ o.
Proof.
  intros Ho Ha. destruct (buddy_cases h o Ho) as [[_ E]|[Ha' E]]; [|done|].
  { apply (aligned_le h (o + 1)); [lia|done]. }
  exfalso. unfold aligned in *. pose proof (pow2_pos (o + 1) ltac:(lia)).
  apply Z.mod_divide in Ha; [|lia]. apply Z.mod_divide in Ha'; [|lia].
  pose proof (Z.divide_sub_r _ _ _ Ha Ha') as [q Hq].
  rewrite pow2_succ in Hq by lia. pose proof (pow2_pos o Ho).
  assert (1 = q * 2); [|lia]. apply (Z.mul_reg_l _ _ (2 ^ o)); lia.
Qed.

(** Flipping a bit below [n] stays below [2^n]. *)
Lemma buddy_range (n h o : Z) :
  0 <= h < 2 ^ n -> aligned h o -> 0 <= o < n -> 0 <= buddy h o < 2 ^ n.
Proof.
  intros Hh Ha Ho.
  assert (Hup : forall m, aligned m (o + 1) -> 0 <= m < 2 ^ n -> m + 2 * 2 ^ o <= 2 ^ n).
  { intros m Hm Hr. rewrite <- pow2_succ by lia. apply aligned_quot in Hm; [|lia].
    assert (E : 2 ^ n = 2 ^ (o + 1) * 2 ^ (n - (o + 1))).
    { rewrite <- Z.pow_add_r by lia. f_equal. lia. }
    rewrite E in *. set (P := 2 ^ (o + 1)) in *. set (R := 2 ^ (n - (o + 1))) in *.
    assert (0 < P) by (apply pow2_pos; lia). set (q := m / P) in *.
    assert (q < R) by nia. nia. }
  pose proof (pow2_pos o ltac:(lia)).
  destruct (buddy_cases h o) as [[A ->]|[A ->]]; [lia|done| |].
  - specialize (Hup h A ltac:(lia)). lia.
  - assert (0 <= h - 2 ^ o); [|lia].
    apply aligned_quot in A; [|lia]. rewrite pow2_succ in A by lia.
    set (q := (h - 2 ^ o) / _) in *. assert (0 <= q) by nia. nia.
Qed.

Lemma buddy_ne (h o : Z) : 0 <= o -> aligned h o -> buddy h o <> h.
Proof.
  intros Ho Ha. pose proof (pow2_pos o Ho).
  destruct (buddy_cases h o) as [[_ ->]|[_ ->]]; [done..|lia|lia].
Qed.

(** Two aligned ranges of which one starts inside the other coincide. *)
Lemma aligned_inside (b h o o' : Z) :
  0 <= o' <= o -> aligned b o -> aligned h o' -> h <= b < h + 2 ^ o' -> b = h.
Proof.
  intros Ho Hb Hh Hr. apply (aligned_le b o o') in Hb; [|lia].
  apply aligned_quot in Hb; [|lia]. apply aligned_quot in Hh; [|lia].
  pose proof (pow2_pos o' ltac:(lia)).
  assert (b / 2 ^ o' = h / 2 ^ o') by nia. lia.
Qed.

(** ** Abstract blocks *)

(** First index of a block to its order and whether it is free. *)
Abbreviation blockmap := (gmap Z (Z * bool)).

Definition inside (p h o : Z) : Prop := h <= p < h + 2 ^ o.

Record tiling (max : Z) (managed : Z -> Prop) (a : blockmap) : Prop := Tiling {
  tl_wf : forall h o f, a !! h = Some (o, f) -> 0 <= h /\ 0 <= o <= max /\ aligned h o;
  tl_disj : forall h1 o1 f1 h2 o2 f2,
    a !! h1 = Some (o1, f1) -> a !! h2 = Some (o2, f2) -> h1 <> h2 ->
    h1 + 2 ^ o1 <= h2 \/ h2 + 2 ^ o2 <= h1;
  tl_cover : forall p, managed p <-> exists h o f, a !! h = Some (o, f) /\ inside p h o
}.

Section Tiling.
Context {max : Z} {managed : Z -> Prop}.
Implicit Types (a : blockmap) (h b o k p : Z) (f : bool).

Lemma tiling_head_managed a h o f :
  tiling max managed a -> a !! h = Some (o, f) -> managed h.
Proof.
  intros T E. apply (tl_cover _ _ _ T). exists h, o, f. split; [done|].
  destruct (tl_wf _ _ _ T _ _ _ E) as (? & ? & ?). unfold inside. lia.
Qed.

Lemma tiling_inside_head a h o f p o' f' :
  tiling max managed a -> a !! h = Some (o, f) -> inside p h o ->
  a !! p = Some (o', f') -> p = h.
Proof.
  intros T E Hp E'. destruct (decide (p = h)) as [|Hne]; [done|].
  destruct (tl_wf _ _ _ T _ _ _ E') as (? & ? & ?).
  destruct (tl_disj _ _ _ T _ _ _ _ _ _ E' E Hne); unfold inside in *; lia.
Qed.

(** The buddy of a block is the start of a block that is not larger: a
    larger one would contain the block itself. *)
Lemma tiling_buddy a h o f :
  tiling max managed a -> a !! h = Some (o, f) -> managed (buddy h o) ->
  exists o' f', a !! buddy h o = Some (o', f') /\ o' <= o.
Proof.
  intros T E Hm. destruct (tl_wf _ _ _ T _ _ _ E) as (Hh & Ho & Ha).
  apply (tl_cover _ _ _ T) in Hm as (h' & o' & f' & E' & Hi).
  destruct (tl_wf _ _ _ T _ _ _ E') as (Hh' & Ho' & Ha').
  assert (Hba : aligned (buddy h o) o) by (apply buddy_aligned; [lia|done]).
  destruct (Z.le_gt_cases o' o) as [Hle|Hgt].
  - assert (buddy h o = h') as Eb by (apply (aligned_inside _ _ o o'); [lia|done..]).
    rewrite Eb. eauto.
  - exfalso. assert (h <> h') by (intros ->; rewrite E in E'; injection E'; lia).
    assert (Hlow : exists m, aligned m (o + 1) /\ inside h m (o + 1) /\ inside (buddy h o) m (o + 1)).
    { pose proof (pow2_pos o ltac:(lia)). unfold inside. rewrite pow2_succ by lia.
      destruct (buddy_cases h o) as [[? ->]|[? ->]]; [lia|done| |].
      - exists h. split; [done|]. lia.
      - exists (h - 2 ^ o). split; [done|]. lia. }
    destruct Hlow as (m & Hm1 & Hm2 & Hm3).
    (* the aligned pair lies inside the larger block *)
    assert (inside h h' o').
    { apply (aligned_le h' o' (o + 1)) in Ha'; [|lia].
      apply aligned_quot in Hm1; [|lia].
      pose proof (aligned_quot h' (o + 1) ltac:(lia) Ha') as Q.
      assert (Q2 : 2 ^ o' = 2 ^ (o + 1) * 2 ^ (o' - (o + 1))).
      { rewrite <- Z.pow_add_r by lia. f_equal. lia. }
      unfold inside in *. rewrite Q2 in Hi |- *.
      pose proof (pow2_pos (o + 1) ltac:(lia)).
      pose proof (pow2_pos (o' - (o + 1)) ltac:(lia)).
      set (P := 2 ^ (o + 1)) in *. set (R := 2 ^ (o' - (o + 1))) in *.
      set (m' := m / P) in *. set (q := h' / P) in *.
      assert (q <= m' < q + R) by nia. nia. }
    pose proof (tiling_inside_head _ _ _ _ _ _ _ T E' H0 E). done.
Qed.

(** Splitting: a block of order [k + 1] becomes two of order [k], the upper
    half free. *)
Definition split_block (h k : Z) (f : bool) a : blockmap :=
  <[h + 2 ^ k := (k, true)]> (<[h := (k, f)]> a).

Lemma tiling_split a h k f :
  tiling max managed a -> 0 <= k -> a !! h = Some (k + 1, f) ->
  a !! (h + 2 ^ k) = None /\ tiling max managed (split_block h k f a).
Proof.
  intros T Hk E. destruct (tl_wf _ _ _ T _ _ _ E) as (Hh & Ho & Ha).
  pose proof (pow2_pos k Hk). pose proof (pow2_succ k Hk) as Hp.
  assert (En : a !! (h + 2 ^ k) = None).
  { destruct (a !! (h + 2 ^ k)) as [[o' f']|] eqn:E'; [|done].
    assert (h + 2 ^ k = h); [|lia].
    eapply (tiling_inside_head a h); eauto. unfold inside. lia. }
  split; [done|].
  assert (Hdis : forall h' o' f', a !! h' = Some (o', f') -> h' <> h ->
            h' + 2 ^ o' <= h \/ h + 2 ^ (k + 1) <= h').
  { intros. eapply or_comm, (tl_disj _ _ _ T h); eauto. }
  assert (Hsz : forall h' o' f', a !! h' = Some (o', f') -> 0 < 2 ^ o').
  { intros h' o' f' E'. destruct (tl_wf _ _ _ T _ _ _ E') as (? & ? & ?). lia. }
  unfold split_block. split.
  - intros h' o' f' E'. rewrite !lookup_insert in E'.
    case_decide as C1; [injection E' as <- <-; subst h'|
      case_decide as C2; [injection E' as <- <-; subst h'|]].
    + split_and!; [lia..|]. rewrite <- buddy_split by (try done; lia).
      apply buddy_aligned; [lia|]. apply (aligned_le h (k + 1)); [lia|done].
    + split_and!; [lia..|]. apply (aligned_le h (k + 1)); [lia|done].
    + by apply (tl_wf _ _ _ T _ _ f').
  - intros h1 o1 f1 h2 o2 f2 E1 E2 Hne. rewrite !lookup_insert in E1, E2.
    repeat case_decide; simplify_eq; try lia;
      try (pose proof (Hdis _ _ _ E1 ltac:(congruence)); pose proof (Hsz _ _ _ E1); lia);
      try (pose proof (Hdis _ _ _ E2 ltac:(congruence)); pose proof (Hsz _ _ _ E2); lia).
    eapply (tl_disj _ _ _ T); eauto.
  - intros p. rewrite (tl_cover _ _ _ T). unfold inside. split.
    + intros (h' & o' & f' & E' & Hi). destruct (decide (h' = h)) as [->|Hne].
      * rewrite E in E'. injection E' as <- <-. destruct (Z.lt_ge_cases p (h + 2 ^ k)).
        -- exists h, k, f. rewrite lookup_insert_ne, lookup_insert_eq by lia. split; [done|lia].
        -- exists (h + 2 ^ k), k, true. rewrite lookup_insert_eq. split; [done|lia].
      * exists h', o', f'. split; [|done].
        rewrite !lookup_insert_ne; [done|congruence|]. intros <-. congruence.
    + intros (h' & o' & f' & E' & Hi). rewrite !lookup_insert in E'.
      case_decide as C1; [injection E' as <- <-; subst h'|
        case_decide as C2; [injection E' as <- <-; subst h'|]].
      * exists h, (k + 1), f. split; [done|lia].
      * exists h, (k + 1), f. split; [done|lia].
      * eauto.
Qed.

(** Merging: a block and its buddy of the same order become one block at
    the lower of the two indices. *)
Definition merge_block (h k : Z) (f : bool) a : blockmap :=
  <[Z.min h (buddy h k) := (k + 1, f)]> (delete (Z.max h (buddy h k)) a).

Lemma tiling_merge a h k f f' :
  tiling max managed a -> a !! h = Some (k, f) -> a !! buddy h k = Some (k, f') ->
  k < max ->
  tiling max managed (merge_block h k f a).
Proof.
  intros T E Eb Hk. destruct (tl_wf _ _ _ T _ _ _ E) as (Hh & Ho & Ha).
  destruct (tl_wf _ _ _ T _ _ _ Eb) as (Hb & _ & _).
  pose proof (pow2_pos k ltac:(lia)). pose proof (pow2_succ k ltac:(lia)) as Hp.
  unfold merge_block.
  assert (Hlow : exists m fm fx, aligned m (k + 1) /\ Z.min h (buddy h k) = m /\
     Z.max h (buddy h k) = m + 2 ^ k /\ 0 <= m /\ a !! m = Some (k, fm) /\
     a !! (m + 2 ^ k) = Some (k, fx)).
  { destruct (buddy_cases h k) as [[A B]|[A B]]; [lia|done| |]; rewrite B in *.
    - exists h, f, f'. split_and!; [done|lia|lia|lia|done|done].
    - exists (h - 2 ^ k), f', f. rewrite Z.sub_add. split_and!; [done|lia|lia|lia|done|done]. }
  destruct Hlow as (m & fm & fx & Am & -> & -> & Hm & Em & Ex).
  assert (Hdis : forall h' o' f', a !! h' = Some (o', f') -> h' <> m -> h' <> m + 2 ^ k ->
            h' + 2 ^ o' <= m \/ m + 2 ^ (k + 1) <= h').
  { intros h' o' f0 E' N1 N2.
    destruct (tl_disj _ _ _ T _ _ _ _ _ _ E' Em N1);
    destruct (tl_disj _ _ _ T _ _ _ _ _ _ E' Ex N2); lia. }
  split.
  - intros h' o' f0 E'. rewrite lookup_insert in E'.
    case_decide; [injection E' as <- <-; subst h'|].
    + split_and!; [lia..|done].
    + rewrite lookup_delete_Some in E'. destruct E' as [_ E']. by apply (tl_wf _ _ _ T _ _ f0).
  - intros h1 o1 f1 h2 o2 f2 E1 E2 Hne.
    apply lookup_insert_Some in E1 as [[<- [= <- <-]]|[C1 [D1 E1]%lookup_delete_Some]];
    apply lookup_insert_Some in E2 as [[<- [= <- <-]]|[C2 [D2 E2]%lookup_delete_Some]].
    + done.
    + pose proof (Hdis _ _ _ E2 ltac:(congruence) ltac:(congruence)). lia.
    + pose proof (Hdis _ _ _ E1 ltac:(congruence) ltac:(congruence)). lia.
    + eapply (tl_disj _ _ _ T); eauto.
  - intros p. rewrite (tl_cover _ _ _ T). unfold inside. split.
    + intros (h' & o' & f0 & E' & Hi).
      destruct (decide (h' = m)) as [->|N1]; [|destruct (decide (h' = m + 2 ^ k)) as [->|N2]].
      * rewrite Em in E'. injection E' as <- <-. exists m, (k + 1), f.
        rewrite lookup_insert_eq. split; [done|lia].
      * rewrite Ex in E'. injection E' as <- <-. exists m, (k + 1), f.
        rewrite lookup_insert_eq. split; [done|lia].
      * exists h', o', f0. split; [|done].
        by rewrite lookup_insert_ne, lookup_delete_ne by congruence.
    + intros (h' & o' & f0 & E' & Hi). rewrite lookup_insert in E'.
      case_decide; [injection E' as <- <-; subst h'|].
      * destruct (Z.lt_ge_cases p (m + 2 ^ k)).
        -- exists m, k, fm. split; [done|lia].
        -- exists (m + 2 ^ k), k, fx. split; [done|lia].
      * rewrite lookup_delete_Some in E'. destruct E' as [_ E']. eauto.
Qed.

Lemma tiling_status a h o f f' :
  tiling max managed a -> a !! h = Some (o, f) -> tiling max managed (<[h := (o, f')]> a).
Proof.
  intros T E. split.
  - intros h' o' f0 E'. rewrite lookup_insert in E'. case_decide; simplify_eq.
    + by apply (tl_wf _ _ _ T _ _ f).
    + by apply (tl_wf _ _ _ T _ _ f0).
  - intros h1 o1 f1 h2 o2 f2 E1 E2 Hne. rewrite lookup_insert in E1, E2.
    repeat case_decide; simplify_eq; eapply (tl_disj _ _ _ T); eauto.
  - intros p. rewrite (tl_cover _ _ _ T). split; intros (h' & o' & f0 & E' & Hi).
    + destruct (decide (h = h')) as [->|].
      * rewrite E in E'. injection E' as <- <-. exists h', o, f'.
        by rewrite lookup_insert_eq.
      * exists h', o', f0. by rewrite lookup_insert_ne.
    + rewrite lookup_insert in E'. case_decide; simplify_eq; eauto.
Qed.

Lemma tiling_ext (managed' : Z -> Prop) a :
  (forall p, managed p <-> managed' p) -> tiling max managed a -> tiling max managed' a.
Proof.
  intros He T. split; [apply T|apply T|]. intros p. rewrite <- He. apply T.
Qed.

(** A block that overlaps nothing managed can be added. *)
Lemma tiling_add (managed' : Z -> Prop) a h o f :
  tiling max managed a -> 0 <= h -> 0 <= o <= max -> aligned h o ->
  (forall p, inside p h o -> ~ managed p) ->
  (forall p, managed' p <-> managed p \/ inside p h o) ->
  tiling max managed' (<[h := (o, f)]> a).
Proof.
  intros T Hh Ho Ha Hout Hm. pose proof (pow2_pos o ltac:(lia)) as Hp.
  assert (Hdis : forall h' o' f', a !! h' = Some (o', f') -> h' + 2 ^ o' <= h \/ h + 2 ^ o <= h').
  { intros h' o' f' E'. destruct (tl_wf _ _ _ T _ _ _ E') as (? & ? & ?).
    pose proof (pow2_pos o' ltac:(lia)).
    destruct (Z.le_gt_cases (h' + 2 ^ o') h); [by left|].
    destruct (Z.le_gt_cases (h + 2 ^ o) h'); [by right|]. exfalso.
    apply (Hout (Z.max h h')); [unfold inside; lia|].
    apply (tl_cover _ _ _ T). exists h', o', f'. split; [done|]. unfold inside. lia. }
  split.
  - intros h' o' f' [[<- [= <- <-]]|[_ E']]%lookup_insert_Some; [done|]. by apply (tl_wf _ _ _ T _ _ f').
  - intros h1 o1 f1 h2 o2 f2 [[<- [= <- <-]]|[N1 E1]]%lookup_insert_Some
      [[<- [= <- <-]]|[N2 E2]]%lookup_insert_Some Hne; [done| | |].
    + apply Hdis in E2. lia.
    + apply Hdis in E1. lia.
    + by eapply (tl_disj _ _ _ T).
  - intros p. rewrite Hm, (tl_cover _ _ _ T). split.
    + intros [(h' & o' & f' & E' & Hi)|Hi].
      * exists h', o', f'. split; [|done]. rewrite lookup_insert_ne; [done|]. intros <-.
        apply Hdis in E'. pose proof Hi as Hi'. unfold inside in *. lia.
      * exists h, o, f. by rewrite lookup_insert_eq.
    + intros (h' & o' & f' & [[<- [= <- <-]]|[_ E']]%lookup_insert_Some & Hi); [by right|].
      left. eauto.
Qed.
End Tiling.

#[export] Hint Resolve tiling_status : kern.

(** ** Abstract allocators

    What the two allocators promise, over block maps: best fit among the
    blocks selected by [sel] (the zone of the page allocator), and
    coalescing. *)

Section Spec.
Context (max : Z) (managed : Z -> Prop).

(** [n] splits bring a block of order [o + n] down to order [o]. *)
Fixpoint carve (n : nat) (h o : Z) (a : blockmap) : blockmap :=
  match n with
  | O => a
  | S n => carve n h o (split_block h (o + Z.of_nat n) false a)
  end.

(** Best fit: the smallest free block that is large enough, cut down. *)
Inductive alloc_spec (sel : Z -> Prop) (o : Z) (a : blockmap) : option Z -> blockmap -> Prop :=
  | alloc_none :
      (forall h k, a !! h = Some (k, true) -> sel h -> k < o) ->
      alloc_spec sel o a None a
  | alloc_some h k :
      a !! h = Some (k, true) -> sel h -> o <= k ->
      (forall h' k', a !! h' = Some (k', true) -> sel h' -> o <= k' -> k <= k') ->
      alloc_spec sel o a (Some h) (carve (Z.to_nat (k - o)) h o (<[h := (k, false)]> a)).

(** Coalescing of a block that is being freed, as long as its buddy is
    wholly free.  There is no rule for a buddy that is free with a smaller
    order, of which only the lower part is free. *)
Inductive merges : Z -> Z -> blockmap -> Z -> Z -> blockmap -> Prop :=
  | merges_top h a : merges h max a h max a
  | merges_stop h o a :
      (forall o', a !! buddy h o <> Some (o', true)) -> o < max -> merges h o a h o a
  | merges_step h o a h' o' a' :
      o < max -> a !! buddy h o = Some (o, true) ->
      merges (Z.min h (buddy h o)) (o + 1) (merge_block h o false a) h' o' a' ->
      merges h o a h' o' a'.

(** The abstract effect on live blocks: an allocation adds exactly the
    returned block. *)
Lemma carve_live n h o a h' o' :
  h' <> h -> 0 <= o ->
  (forall k, o <= k < o + Z.of_nat n -> a !! (h + 2 ^ k) = None \/ exists j, a !! (h + 2 ^ k) = Some (j, true)) ->
  (carve n h o a !! h' = Some (o', false) <-> a !! h' = Some (o', false)).
Proof.
  revert a. induction n as [|n IH]; intros a Hne Ho Hfree; [done|].
  cbn [carve]. rewrite IH; [|done|done|].
  - unfold split_block. rewrite lookup_insert. case_decide as Hd.
    + subst h'. destruct (Hfree (o + Z.of_nat n)) as [E|[j E]]; [lia|..];
        rewrite E; naive_solver.
    + by rewrite lookup_insert_ne.
  - intros k Hk. unfold split_block. rewrite lookup_insert. case_decide as Hd.
    + right. eauto.
    + rewrite lookup_insert_ne; [apply Hfree; lia|]. pose proof (pow2_pos k ltac:(lia)). lia.
Qed.

Lemma alloc_spec_live sel o a r a' :
  tiling max managed a -> 0 <= o -> alloc_spec sel o a r a' ->
  forall h k, a' !! h = Some (k, false) <-> (r = Some h /\ k = o) \/ a !! h = Some (k, false).
Proof.
  intros T Ho Hs. destruct Hs as [_|h k E _ Hk _]; [intros; split; [by right|by intros [[? _]|?]]|].
  intros h' k'. set (a1 := <[h := (k, false)]> a).
  assert (Hnone : forall j, o <= j < o + Z.of_nat (Z.to_nat (k - o)) -> a !! (h + 2 ^ j) = None).
  { intros j Hj. destruct (a !! (h + 2 ^ j)) as [[o' f']|] eqn:E'; [|done]. exfalso.
    pose proof (pow2_pos j ltac:(lia)).
    assert (2 ^ j < 2 ^ k) by (apply Z.pow_lt_mono_r; lia).
    enough (h + 2 ^ j = h) by lia.
    eapply (tiling_inside_head a h k true); eauto. unfold inside. lia. }
  destruct (decide (h' = h)) as [->|Hne].
  - assert (Hc : forall n b, b !! h = Some (o + Z.of_nat n, false) ->
       carve n h o b !! h = Some (o, false)).
    { induction n as [|n IH]; intros b Eb; [by rewrite Z.add_0_r in Eb|].
      cbn [carve]. apply IH. unfold split_block.
      pose proof (pow2_pos (o + Z.of_nat n) ltac:(lia)).
      by rewrite lookup_insert_ne, lookup_insert_eq by lia. }
    rewrite Hc; [split; [intros [= <-]; by left|intros [[_ ->]|?]; [done|congruence]]|].
    unfold a1. rewrite lookup_insert_eq. do 2 f_equal. lia.
  - rewrite carve_live; [|done|done|].
    + unfold a1. rewrite lookup_insert_ne by done. split; [by right|].
      intros [[? _]|?]; [congruence|done].
    + intros j Hj. left. unfold a1. pose proof (pow2_pos j ltac:(lia)).
      rewrite lookup_insert_ne by lia. by apply Hnone.
Qed.

Lemma merges_facts h o a h' o' a' :
  merges h o a h' o' a' -> tiling max managed a -> a !! h = Some (o, false) ->
  tiling max managed a' /\ a' !! h' = Some (o', false) /\
  (forall x k, x <> h' -> a' !! x = Some (k, false) <-> x <> h /\ a !! x = Some (k, false)) /\
  (h' = h \/ a !! h' = None \/ exists k, a !! h' = Some (k, true)).
Proof.
  induction 1 as [h a|h o a Hstop Hlt|h o a h' o' a' Hlt Eb Hm IH]; intros T E.
  - naive_solver.
  - naive_solver.
  - destruct (tl_wf _ _ _ T _ _ _ E) as (Hh & Ho & Ha).
    pose proof (pow2_pos o ltac:(lia)) as Hp.
    destruct IH as (T' & E' & Hx & Hh').
    { by eapply tiling_merge. }
    { unfold merge_block. by rewrite lookup_insert_eq. }
    split; [done|]. split; [done|]. 
    assert (Hcases : forall x k, merge_block h o false a !! x = Some (k, false) <->
              (x = Z.min h (buddy h o) /\ k = o + 1) \/
              (x <> Z.min h (buddy h o) /\ x <> h /\ a !! x = Some (k, false))).
    { intros x k. unfold merge_block. rewrite lookup_insert. case_decide as Hd.
      - split; [intros [= <-]; left; naive_solver|]. intros [[-> ->]|[? _]]; [done|congruence].
      - rewrite lookup_delete. case_decide as Hd2.
        + split; [done|]. intros [[? _]|(_ & ? & ?)]; [congruence|].
          destruct (Z.max_spec h (buddy h o)); destruct (Z.min_spec h (buddy h o)); exfalso.
          * assert (x = buddy h o) as -> by lia. congruence.
          * lia.
          * lia.
          * assert (x = h) by lia. congruence.
        + destruct (Z.max_spec h (buddy h o)); destruct (Z.min_spec h (buddy h o)); try lia.
          * split; [|naive_solver]. intros Hxk. right. split_and!; [congruence|lia|done].
          * split; [|naive_solver]. intros Hxk. right. split_and!; [congruence|lia|done]. }
    split.
    + intros x k Hne. rewrite (Hx x k Hne), Hcases. split.
      * intros [? [[? ?]|(? & ? & ?)]]; [congruence|done].
      * intros [? ?]. assert (x <> Z.min h (buddy h o)).
        { intros ->. destruct (Z.min_spec h (buddy h o)) as [[? E0]|[? E0]]; rewrite E0 in *; congruence. }
        naive_solver.
    + assert (Hmin : Z.min h (buddy h o) = h \/ exists k, a !! Z.min h (buddy h o) = Some (k, true)).
      { destruct (Z.min_spec h (buddy h o)) as [[? ->]|[? ->]]; [by left|right; eauto]. }
      destruct Hh' as [->|Hh']; [naive_solver|].
      unfold merge_block in Hh'. rewrite lookup_insert in Hh'. case_decide as Hd.
      * subst h'. naive_solver.
      * rewrite lookup_delete in Hh'. case_decide as Hd2; [|naive_solver].
        subst h'. destruct (Z.max_spec h (buddy h o)) as [[? ->]|[? ->]]; [|by left]. 
        right. right. eauto.
Qed.

(** Freeing removes exactly the freed block from the live ones. *)
Lemma merges_live h o a h' o' a' :
  merges h o a h' o' a' -> tiling max managed a -> a !! h = Some (o, false) ->
  forall x k, <[h' := (o', true)]> a' !! x = Some (k, false) <-> x <> h /\ a !! x = Some (k, false).
Proof.
  intros Hm T E. destruct (merges_facts _ _ _ _ _ _ Hm T E) as (T' & E' & Hx & Hh').
  intros x k. rewrite lookup_insert. case_decide as Hd; [|by apply Hx].
  subst x. split; [done|]. intros [Hne Ea]. exfalso.
  destruct Hh' as [?|[?|[? ?]]]; congruence.
Qed.

(** A condition on the heap under which coalescing never meets a partly
    free buddy: at every level, a free buddy of the region around the
    block is free as a whole. *)
Definition whole_buddies (a : blockmap) (h o : Z) : Prop :=
  forall k o', o <= k < max ->
    a !! buddy (2 ^ k * (h / 2 ^ k)) k = Some (o', true) -> o' = k.

Lemma quot_min_buddy h o k :
  0 <= o -> aligned h o -> o < k -> Z.min h (buddy h o) / 2 ^ k = h / 2 ^ k.
Proof.
  intros Ho Ha Hk.
  assert (E : forall x, x / 2 ^ k = x / 2 ^ (o + 1) / 2 ^ (k - (o + 1))).
  { intros x. rewrite Z.div_div by lia. rewrite <- Z.pow_add_r by lia. do 2 f_equal. lia. }
  rewrite !E. f_equal. pose proof (pow2_pos o Ho). pose proof (pow2_succ o Ho) as Hs.
  destruct (buddy_cases h o) as [[A ->]|[A ->]]; [lia|done| |].
  - rewrite Z.min_l by lia. done.
  - rewrite Z.min_r by lia. rewrite Hs in *. apply aligned_quot in A; [|lia].
    rewrite Hs in A. set (q := (h - 2 ^ o) / (2 * 2 ^ o)) in *.
    apply (Z.div_unique _ _ _ (2 ^ o)); lia.
Qed.

Lemma merges_total n h o a :
  tiling max managed a -> a !! h = Some (o, false) -> whole_buddies a h o ->
  o + Z.of_nat n = max -> exists h' o' a', merges h o a h' o' a'.
Proof.
  revert h o a. induction n as [|n IH]; intros h o a T E W Hn.
  - assert (o = max) as -> by lia. do 3 eexists. apply merges_top.
  - destruct (tl_wf _ _ _ T _ _ _ E) as (Hh & Ho & Ha).
    destruct (a !! buddy h o) as [[o' [|]]|] eqn:Eb.
    + assert (o' = o) as ->.
      { apply (W o o'); [lia|]. rewrite <- aligned_quot by (done || lia). done. }
      destruct (IH (Z.min h (buddy h o)) (o + 1) (merge_block h o false a))
        as (h' & o' & a' & Hm).
      * eapply tiling_merge; [done..|lia].
      * unfold merge_block. by rewrite lookup_insert_eq.
      * intros k o1 Hk. rewrite quot_min_buddy by (done || lia). unfold merge_block.
        rewrite lookup_insert. case_decide; [done|].
        intros [_ Ek]%lookup_delete_Some. apply (W k o1); [lia|done].
      * lia.
      * exists h', o', a'. apply merges_step; [lia|done..].
    + do 3 eexists. apply merges_stop; [|lia]. intros o1. by rewrite Eb.
    + do 3 eexists. apply merges_stop; [|lia]. intros o1. by rewrite Eb.
Qed.

End Spec.

(** ** Free lists

    Both allocators keep one list per order (the page allocator one such
    family per zone) and thread the blocks on it through a node embedded in
    their descriptor. *)

Class FreeListShape (L zone : Type) `{Countable L} `{EqDecision zone} := {
  fl_head : zone -> Z -> L;          (** [&free_lists[order]], per zone *)
  fl_node : Z -> L;                  (** the node embedded in a descriptor *)
  fl_zone : Z -> zone;               (** zone of a block, by its index *)
  fl_head_inj : forall z o z' o', fl_head z o = fl_head z' o' -> z = z' /\ o = o';
  fl_node_inj : forall i j, fl_node i = fl_node j -> i = j;
  fl_head_node : forall z o i, fl_head z o <> fl_node i
}.

Section FreeLists.
Context {L zone : Type} `{FreeListShape L zone}.
Implicit Types (s : gmap L (list_node L)) (a : blockmap) (z : zone) (h o : Z).

(** The lists hold exactly the free blocks of their order and zone. *)
Definition lists_ok (max : Z) s a : Prop :=
  exists fl : zone -> Z -> list Z,
    forall z o, 0 <= o <= max ->
      dll s (fl_head z o) (fl_node <$> fl z o) /\
      (forall h, h ∈ fl z o <-> a !! h = Some (o, true) /\ fl_zone h = z).

Lemma lists_ok_ext max s a a' :
  (forall h o, a' !! h = Some (o, true) <-> a !! h = Some (o, true)) ->
  lists_ok max s a -> lists_ok max s a'.
Proof.
  intros He [fl Hfl]. exists fl. intros z o Ho. destruct (Hfl z o Ho) as [? Hm].
  split; [done|]. intros h. by rewrite He.
Qed.

Lemma elem_of_nodes (h : Z) (l : list Z) : fl_node h ∈ fl_node <$> l <-> h ∈ l.
Proof.
  rewrite list_elem_of_fmap. split; [|eauto].
  by intros (y & ->%fl_node_inj & Hy).
Qed.

Lemma head_not_node z o (l : list Z) : fl_head z o ∉ fl_node <$> l.
Proof. intros (y & E & _)%list_elem_of_fmap. by apply fl_head_node in E. Qed.

(** What an operation on block [h] leaves alone: every node that is neither
    a list head, nor the one of [h], nor on a free list. *)
Definition lists_frame a h s s' : Prop :=
  forall c, (forall z o, c <> fl_head z o) -> c <> fl_node h ->
    (forall x o, a !! x = Some (o, true) -> c <> fl_node x) -> nd s' c = nd s c.

Lemma lists_ok_push max s a h o :
  lists_ok max s a -> 0 <= o <= max -> (forall o', a !! h <> Some (o', true)) ->
  exists s', list_insert (fl_head (fl_zone h) o) (fl_node h) s = Ret s' /\
             lists_ok max s' (<[h := (o, true)]> a) /\ lists_frame a h s s'.
Proof.
  intros [fl Hfl] Ho Hnf. set (z := fl_zone h).
  destruct (Hfl z o Ho) as [Hd Hm].
  assert (Hout : forall z' o', 0 <= o' <= max -> h ∉ fl z' o').
  { intros z' o' Ho'. rewrite (proj2 (Hfl z' o' Ho')). intros [? _]. by eapply Hnf. }
  destruct (list_insert_head_dll s (fl_head z o) (fl_node <$> fl z o) (fl_node h))
    as (s' & E & Hd' & Hf); [done| |].
  { rewrite not_elem_of_cons, elem_of_nodes. split; [|by apply Hout].
    intros Hc. symmetry in Hc. by apply fl_head_node in Hc. }
  exists s'. split; [done|]. split.
  2:{ intros c H1 H2 H3. apply Hf. rewrite !not_elem_of_cons. split_and!; [done|apply H1|].
      intros (x & -> & Hx)%list_elem_of_fmap. apply Hm in Hx as [Hx _]. by eapply H3. }
  exists (fun z' o' => if decide (z' = z /\ o' = o) then h :: fl z o else fl z' o').
  intros z' o' Ho'. case_decide as Hc.
  - destruct Hc as [-> ->]. split; [done|]. intros h'.
    rewrite elem_of_cons, Hm, lookup_insert. case_decide as Hd2.
    + subst h'. naive_solver.
    + naive_solver.
  - destruct (Hfl z' o' Ho') as [Hdz Hmz]. split.
    + apply (dll_frame s); [|done]. intros c Hcm. apply Hf.
      rewrite !not_elem_of_cons. apply elem_of_cons in Hcm as [->|Hcm].
      * split_and!; [apply fl_head_node| |apply head_not_node].
        intros [-> ->]%fl_head_inj. naive_solver.
      * apply list_elem_of_fmap in Hcm as (y & -> & Hy). rewrite elem_of_nodes. split_and!.
        -- intros ->%fl_node_inj. by apply (Hout z' o').
        -- intros Hx. symmetry in Hx. by apply fl_head_node in Hx.
        -- rewrite Hm. apply Hmz in Hy as [Hy1 Hy2]. intros [Hy3 Hy4]. apply Hc. naive_solver.
    + intros h'. rewrite Hmz, lookup_insert. case_decide as Hd2; [|done].
      subst h'. split.
      * intros [Hx _]. by apply Hnf in Hx.
      * intros [[= ->] Hz]. exfalso. apply Hc. split; [|done]. by rewrite <- Hz.
Qed.

Lemma lists_ok_remove max s a h o :
  lists_ok max s a -> 0 <= o <= max -> a !! h = Some (o, true) ->
  exists s', list_remove (fl_node h) s = Ret s' /\
             lists_ok max s' (<[h := (o, false)]> a) /\ lists_frame a h s s'.
Proof.
  intros [fl Hfl] Ho Ea. set (z := fl_zone h).
  destruct (Hfl z o Ho) as [Hd Hm].
  assert (Hin : h ∈ fl z o) by by apply Hm.
  apply list_elem_of_split in Hin as (l1 & l2 & El).
  rewrite El, fmap_app, fmap_cons in Hd.
  destruct (list_remove_dll _ _ _ _ _ Hd) as (s' & E & Hd' & Hf).
  assert (Hnd : h ∉ l1 ++ l2).
  { destruct Hd as [Hnd _]. apply NoDup_cons in Hnd as [_ Hnd].
    rewrite <- Permutation_middle in Hnd. apply NoDup_cons in Hnd as [Hnd _].
    by rewrite <- fmap_app, elem_of_nodes in Hnd. }
  exists s'. split; [done|]. split.
  2:{ intros c H1 H2 H3. apply Hf. rewrite not_elem_of_cons, <- fmap_app. split; [apply H1|].
      intros (x & -> & Hx)%list_elem_of_fmap.
      assert (Hx' : x ∈ fl z o) by (rewrite El; set_solver).
      apply Hm in Hx' as [Hx' _]. by eapply H3. }
  exists (fun z' o' => if decide (z' = z /\ o' = o) then l1 ++ l2 else fl z' o').
  intros z' o' Ho'. case_decide as Hc.
  - destruct Hc as [-> ->]. rewrite fmap_app. split; [done|]. intros h'.
    rewrite lookup_insert. case_decide as Hd2.
    + subst h'. naive_solver.
    + rewrite <- Hm, El. set_solver.
  - destruct (Hfl z' o' Ho') as [Hdz Hmz]. split.
    + apply (dll_frame s); [|done]. intros c Hcm. apply Hf.
      rewrite not_elem_of_cons, <- fmap_app. apply elem_of_cons in Hcm as [->|Hcm].
      * split; [|apply head_not_node]. intros [-> ->]%fl_head_inj. naive_solver.
      * apply list_elem_of_fmap in Hcm as (y & -> & Hy). rewrite elem_of_nodes. split.
        -- intros Hx. symmetry in Hx. by apply fl_head_node in Hx.
        -- intros Hy'. assert (Hyl : y ∈ fl z o) by (rewrite El; set_solver).
           apply Hm in Hyl as [Hy3 Hy4]. apply Hmz in Hy as [Hy1 Hy2].
           apply Hc. naive_solver.
    + intros h'. rewrite Hmz, lookup_insert. case_decide as Hd2; [|done].
      subst h'. rewrite Ea. split; [|naive_solver].
      intros [[= ->] Hz]. exfalso. apply Hc. by split.
Qed.

Lemma lists_ok_empty max s a z o :
  lists_ok max s a -> 0 <= o <= max ->
  list_empty (fl_head z o) s = true -> forall h, a !! h = Some (o, true) -> fl_zone h <> z.
Proof.
  intros [fl Hfl] Ho He h Ea Hz. destruct (Hfl z o Ho) as [Hd Hm].
  apply (list_empty_dll _ _ _ Hd) in He. apply fmap_nil_inv in He.
  assert (h ∈ fl z o) as Hin by by apply Hm. rewrite He in Hin. by apply elem_of_nil in Hin.
Qed.

Lemma lists_ok_first max s a z o :
  lists_ok max s a -> 0 <= o <= max ->
  list_empty (fl_head z o) s = false ->
  exists h, list_next (fl_head z o) s = Some (fl_node h) /\
            a !! h = Some (o, true) /\ fl_zone h = z.
Proof.
  intros [fl Hfl] Ho He. destruct (Hfl z o Ho) as [Hd Hm].
  destruct (fl z o) as [|h l] eqn:El.
  - assert (list_empty (fl_head z o) s = true) by by apply (list_empty_dll _ _ _ Hd).
    congruence.
  - exists h. split; [by apply (list_next_dll _ _ _ (fl_node <$> l))|].
    apply Hm. set_solver.
Qed.

(** Taking the buddy off its list is all the lists see of a merge. *)
Lemma lists_ok_merge max s a h o :
  a !! h = Some (o, false) -> buddy h o <> h ->
  lists_ok max s (<[buddy h o := (o, false)]> a) ->
  lists_ok max s (merge_block h o false a).
Proof.
  intros E Hne. set (b := buddy h o). set (m := Z.min h b). fold b in Hne.
  apply lists_ok_ext. intros x o0. unfold merge_block. fold b m.
  destruct (decide (x = m)) as [->|Hxm].
  - rewrite lookup_insert_eq, lookup_insert. split; [done|]. case_decide; [done|]. intros Ec. exfalso.
    assert (m = h) by (unfold m in *; lia). congruence.
  - rewrite lookup_insert_ne by congruence. rewrite lookup_delete, lookup_insert.
    destruct (decide (Z.max h b = x)) as [Hd|Hd], (decide (b = x)) as [Hd2|Hd2];
      [done| | |done].
    + split; [done|]. intros Ec. assert (x = h) by lia. congruence.
    + exfalso. unfold m in *. lia.
Qed.
End FreeLists.
