(* ===== verification/KmallocEarly.v ===== *)
(** * The boot-time heap (mm/kmalloc.c, first half)

    Before the page allocator exists, [kmalloc] serves requests from a
    static 32 KiB buffer cut into 8-byte units by a buddy allocator:
    [alloc_blocks], [free_blocks], [kmalloc_early], [kfree_early] and
    [kmalloc_early_init], modelled statement by statement over the
    descriptor array [blocks] and the free lists.

    [alloc_spec] is the abstract allocator: best fit on a tiling of the
    buffer.  [alloc_blocks_refines] shows the code implements it, so live
    blocks never overlap after an allocation.  [free_blocks_refines] shows
    that freeing merges exactly like the abstract [merges] relation when no
    buddy on the way up is partly free; the code does not check that, and
    [free_blocks_swallows_live_block] runs it into the missing check.
    [kmalloc_early_underallocates] shows the rounding error in the size
    computation. *)

From stdpp Require Import base numbers list gmap countable.
From Stdlib Require Import ZArith Lia.
From S2P Require Import Prelude Bitops ListNode Buddy.

Open Scope Z_scope.

Definition MIN_SIZE : Z := 8.
Definition MAX_ORDER : Z := 12.
Definition MAX_SIZE : Z := Z.shiftl MIN_SIZE MAX_ORDER.

(** Node addresses: [&free_lists[i]] and [&blocks[i].node]. *)
Inductive kloc : Type :=
  | FreeList (i : Z)
  | BlockNode (i : Z).

#[export] Instance kloc_eq_dec : EqDecision kloc.
Proof. solve_decision. Defined.
#[export] Instance kloc_countable : Countable kloc.
Proof.
  refine (inj_countable'
    (fun l => match l with FreeList i => inl i | BlockNode i => inr i end)
    (fun s => match s with inl i => FreeList i | inr i => BlockNode i end) _).
  by intros [].
Defined.

#[export, refine] Instance kloc_shape : FreeListShape kloc unit := {|
  fl_head := fun _ o => FreeList o;
  fl_node := BlockNode;
  fl_zone := fun _ => tt
|}.
Proof.
  - by intros [] o [] o' [= ->].
  - by intros i j [= ->].
  - done.
Defined.

(** [struct block], its list node kept in the node memory. *)
Record block := Block { order : Z; free : bool }.

Record kheap := KHeap {
  kblocks : gmap Z block;                     (** [blocks[1 << MAX_ORDER]] *)
  knodes : gmap kloc (list_node kloc)         (** nodes and list heads *)
}.

Definition blk (s : kheap) (i : Z) : block := default (Block 0 false) (kblocks s !! i).

(** Access to [blocks[i]], in bounds only. *)
Definition in_blocks (i : Z) : bool := (0 <=? i) && (i <? Z.shiftl 1 MAX_ORDER).

Definition get_block (i : Z) : M kheap block := fun s =>
  if in_blocks i then Ret (blk s i, s) else Fault.
Definition put_block (i : Z) (b : block) : M kheap unit := fun s =>
  if in_blocks i then Ret (tt, KHeap (<[i := b]> (kblocks s)) (knodes s)) else Fault.
Definition set_order (i o : Z) : M kheap unit :=
  b ← get_block i; put_block i (Block o (free b)).
Definition set_free (i : Z) (f : bool) : M kheap unit :=
  b ← get_block i; put_block i (Block (order b) f).

(** A list.h operation on the node memory. *)
Definition on_nodes (f : gmap kloc (list_node kloc) -> outcome (gmap kloc (list_node kloc)))
    : M kheap unit := fun s =>
  match f (knodes s) with
  | Ret n => Ret (tt, KHeap (kblocks s) n)
  | Bug => Bug | Fault => Fault | Spin => Spin
  end.

(** [container_of(node, struct block, node)]. *)
Definition block_of_node (p : option kloc) : outcome Z :=
  match p with Some (BlockNode i) => Ret i | _ => Fault end.

Definition block_buddy (i : Z) : M kheap Z :=
  b ← get_block i; mret (buddy i (order b)).

(** The split loop of [alloc_blocks]. *)
Fixpoint alloc_split (fuel : nat) (block : Z) (ord : Z) : M kheap unit :=
  match fuel with
  | O => fun _ => Spin
  | S fuel =>
      b ← get_block block;
      if ord <? order b then
        _ ← set_order block (order b - 1);
        bud ← block_buddy block;
        b' ← get_block block;
        _ ← set_order bud (order b');
        _ ← set_free bud true;
        bb ← get_block bud;
        _ ← on_nodes (list_insert (FreeList (order bb)) (BlockNode bud));
        alloc_split fuel block ord
      else mret tt
  end.

(** The scan over orders of [alloc_blocks], from [i]. *)
Fixpoint alloc_scan (fuel : nat) (i ord : Z) : M kheap (option Z) :=
  match fuel with
  | O => fun _ => Spin
  | S fuel =>
      if i <=? MAX_ORDER then
        s ← mget;
        if list_empty (FreeList i) (knodes s) then alloc_scan fuel (i + 1) ord
        else
          let node := list_next (FreeList i) (knodes s) in
          block ← mlift (block_of_node node);
          _ ← on_nodes (list_remove (BlockNode block));
          b ← get_block block;
          _ ← mlift (assert (i =? order b));
          _ ← alloc_split 13 block ord;
          _ ← set_free block false;
          mret (Some block)
      else mret None
  end.

Definition alloc_blocks (ord : Z) : M kheap (option Z) :=
  _ ← mlift (assert (ord <=? MAX_ORDER));
  alloc_scan 14 ord ord.

(** The merge loop of [free_blocks]; returns the block it ends with. *)
Fixpoint free_merge (fuel : nat) (block : Z) : M kheap Z :=
  match fuel with
  | O => fun _ => Spin
  | S fuel =>
      b ← get_block block;
      if order b <? MAX_ORDER then
        bud ← block_buddy block;
        bb ← get_block bud;
        if free bb then
          _ ← on_nodes (list_remove (BlockNode bud));
          let block := if bud <? block then bud else block in
          b ← get_block block;
          _ ← set_order block (order b + 1);
          free_merge fuel block
        else mret block
      else mret block
  end.

Definition free_blocks (block : Z) : M kheap unit :=
  block ← free_merge 13 block;
  _ ← set_free block true;
  b ← get_block block;
  on_nodes (list_insert (FreeList (order b)) (BlockNode block)).

(** ** Entry points

    [block_buffer] is the address the linker gives the buffer. *)
Section Entry.
Context (block_buffer : Z).

Definition is_early_block_addr (addr : Z) : bool :=
  (block_buffer <=? addr) && (addr <=? u32 (block_buffer + MAX_SIZE)).

Definition index_to_addr (index : Z) : Z := u32 (block_buffer + index * MIN_SIZE).
Definition addr_to_index (addr : Z) : Z := u32 (addr - block_buffer) / MIN_SIZE.

Definition early_order (size : Z) : Z := ilog2_roundup (size / MIN_SIZE).

Definition kmalloc_early (size : Z) : M kheap (option Z) :=
  b ← alloc_blocks (early_order size);
  mret (index_to_addr <$> b).

Definition kfree_early (ptr : Z) : M kheap unit :=
  let offset := u32 (ptr - block_buffer) in
  _ ← mlift (assert ((offset <? MAX_SIZE) && (Z.land offset (MIN_SIZE - 1) =? 0)));
  free_blocks (addr_to_index ptr).
End Entry.

(** [list_init] of the heads [0 .. n - 1]. *)
Fixpoint init_lists (n : nat) (m : gmap kloc (list_node kloc)) : gmap kloc (list_node kloc) :=
  match n with
  | O => m
  | S n => list_init (FreeList (Z.of_nat n)) (init_lists n m)
  end.

Definition kmalloc_early_init : M kheap unit :=
  _ ← on_nodes (fun m => Ret (init_lists (Z.to_nat (MAX_ORDER + 1)) m));
  _ ← set_order 0 MAX_ORDER;
  _ ← set_free 0 true;
  on_nodes (list_insert (FreeList MAX_ORDER) (BlockNode 0)).

(** The zeroed memory the kernel starts with. *)
Definition kheap_bss : kheap := KHeap ∅ ∅.

(** ** Abstract specification *)

Definition in_buffer (p : Z) : Prop := 0 <= p < 2 ^ MAX_ORDER.

(** ** Representation invariant

    [x] is a block that is being worked on: taken off its list, its [free]
    field not yet updated. *)
Record kinv_at (x : option Z) (s : kheap) (a : blockmap) : Prop := KInv {
  ki_tile : tiling MAX_ORDER in_buffer a;
  ki_order : forall h o f, a !! h = Some (o, f) -> order (blk s h) = o;
  ki_free : forall h o f, a !! h = Some (o, f) -> x <> Some h -> free (blk s h) = f;
  ki_lists : lists_ok MAX_ORDER (knodes s) a
}.

Definition kinv := kinv_at None.

(** ** Running the primitive steps *)

Lemma in_blocks_spec i : in_blocks i = true <-> in_buffer i.
Proof. unfold in_blocks, in_buffer, MAX_ORDER. change (Z.shiftl 1 12) with (2 ^ 12). lia. Qed.

Lemma get_block_run i s : in_buffer i -> get_block i s = Ret (blk s i, s).
Proof. intros Hi. unfold get_block. by rewrite (proj2 (in_blocks_spec i) Hi). Qed.

Definition upd_block (i : Z) (b : block) (s : kheap) : kheap :=
  KHeap (<[i := b]> (kblocks s)) (knodes s).

Lemma set_order_run i o s :
  in_buffer i -> set_order i o s = Ret (tt, upd_block i (Block o (free (blk s i))) s).
Proof.
  intros Hi. unfold set_order, mbind, M_bind. rewrite get_block_run by done.
  unfold put_block. by rewrite (proj2 (in_blocks_spec i) Hi).
Qed.

Lemma set_free_run i f s :
  in_buffer i -> set_free i f s = Ret (tt, upd_block i (Block (order (blk s i)) f) s).
Proof.
  intros Hi. unfold set_free, mbind, M_bind. rewrite get_block_run by done.
  unfold put_block. by rewrite (proj2 (in_blocks_spec i) Hi).
Qed.

Lemma blk_upd i b s j : blk (upd_block i b s) j = if decide (i = j) then b else blk s j.
Proof. unfold blk, upd_block. simpl. rewrite lookup_insert. by case_decide. Qed.

Lemma blk_nodes s n j : blk (KHeap (kblocks s) n) j = blk s j.
Proof. done. Qed.

Lemma on_nodes_run f s n : f (knodes s) = Ret n -> on_nodes f s = Ret (tt, KHeap (kblocks s) n).
Proof. intros E. unfold on_nodes. by rewrite E. Qed.

Lemma kinv_in_buffer x s a h o f :
  kinv_at x s a -> a !! h = Some (o, f) -> in_buffer h.
Proof. intros K E. eapply tiling_head_managed; [apply K|done]. Qed.

Lemma split_half_in_buffer x s a h k f :
  kinv_at x s a -> a !! h = Some (k + 1, f) -> 0 <= k -> in_buffer (h + 2 ^ k).
Proof.
  intros K E Hk. apply (tl_cover _ _ _ (ki_tile _ _ _ K)). exists h, (k + 1), f.
  split; [done|]. unfold inside. rewrite pow2_succ by lia. lia.
Qed.

(** Simplify a read of a descriptor after writes. *)
Ltac blk_simpl :=
  repeat (rewrite blk_nodes || rewrite blk_upd); repeat (case_decide; try lia; try done).

(** ** Allocation *)

(** One iteration of the split loop. *)
Lemma alloc_split_step fuel s a h k ord :
  kinv_at (Some h) s a -> a !! h = Some (k + 1, false) -> 0 <= ord <= k -> k < MAX_ORDER ->
  exists s', alloc_split (S fuel) h ord s = alloc_split fuel h ord s' /\
             kinv_at (Some h) s' (split_block h k false a).
Proof.
  intros K E Ho Hk. destruct (tl_wf _ _ _ (ki_tile _ _ _ K) _ _ _ E) as (Hh & _ & Ha).
  destruct (tiling_split a h k false (ki_tile _ _ _ K)) as [En T']; [lia|done|].
  pose proof (kinv_in_buffer _ _ _ _ _ _ K E) as Hb.
  pose proof (split_half_in_buffer _ _ _ _ _ _ K E ltac:(lia)) as Hb'.
  pose proof (pow2_pos k ltac:(lia)) as Hp.
  destruct (lists_ok_push MAX_ORDER (knodes s) (<[h := (k, false)]> a) (h + 2 ^ k) k)
    as (n & Ei & Hl & _).
  { apply (lists_ok_ext _ _ a); [|apply K]. intros h' o. rewrite lookup_insert.
    case_decide; naive_solver. }
  { unfold MAX_ORDER in *. lia. }
  { intros o'. rewrite lookup_insert_ne by lia. by rewrite En. }
  set (s1 := upd_block h (Block k (free (blk s h))) s).
  set (s2 := upd_block (h + 2 ^ k) (Block k (free (blk s1 (h + 2 ^ k)))) s1).
  set (s3 := upd_block (h + 2 ^ k) (Block k true) s2).
  exists (KHeap (kblocks s3) n). split.
  - cbn [alloc_split]. unfold mbind at 1, M_bind at 1. rewrite get_block_run by done.
    rewrite (ki_order _ _ _ K _ _ _ E). if_true.
    replace (k + 1 - 1) with k by lia.
    unfold mbind, M_bind. rewrite set_order_run by done. fold s1.
    unfold block_buddy, mbind, M_bind. rewrite get_block_run by done. cbn [mret M_ret].
    assert (E1 : blk s1 h = Block k (free (blk s h))) by (unfold s1; blk_simpl).
    rewrite E1. cbn [order]. unfold mret, M_ret. rewrite (buddy_split h k) by (try done; lia).
    rewrite get_block_run by done. rewrite E1. cbn [order].
    rewrite set_order_run by done. fold s2.
    rewrite set_free_run by done.
    assert (E2 : blk s2 (h + 2 ^ k) = Block k (free (blk s1 (h + 2 ^ k)))) by (unfold s2; blk_simpl).
    rewrite E2. cbn [order]. fold s3. rewrite get_block_run by done.
    assert (E3 : blk s3 (h + 2 ^ k) = Block k true) by (unfold s3; blk_simpl).
    rewrite E3. cbn [order]. by rewrite (on_nodes_run _ s3 n).
  - split; [done| | |done].
    + intros h' o f E'. unfold s3, s2, s1. blk_simpl.
      * subst h'. unfold split_block in E'. rewrite lookup_insert_eq in E'. by injection E'.
      * subst h'. unfold split_block in E'. rewrite lookup_insert_ne, lookup_insert_eq in E' by lia.
        by injection E'.
      * unfold split_block in E'. rewrite !lookup_insert_ne in E' by done. by apply (ki_order _ _ _ K _ _ f).
    + intros h' o f E' Hx. unfold s3, s2, s1. blk_simpl.
      * subst h'. unfold split_block in E'. rewrite lookup_insert_eq in E'. by injection E'.
      * subst h'. congruence.
      * unfold split_block in E'. rewrite !lookup_insert_ne in E' by done. by apply (ki_free _ _ _ K _ o).
Qed.

Lemma alloc_split_run n fuel s a h ord :
  kinv_at (Some h) s a -> a !! h = Some (ord + Z.of_nat n, false) -> 0 <= ord ->
  ord + Z.of_nat n <= MAX_ORDER -> (n < fuel)%nat ->
  exists s', alloc_split fuel h ord s = Ret (tt, s') /\
             kinv_at (Some h) s' (carve n h ord a) /\
             carve n h ord a !! h = Some (ord, false).
Proof.
  revert fuel s a. induction n as [|n IH]; intros fuel s a K E Ho Hm Hf;
    (destruct fuel as [|fuel]; [lia|]).
  - exists s. rewrite Z.add_0_r in E. split; [|done].
    cbn [alloc_split]. unfold mbind, M_bind.
    rewrite get_block_run by (eapply kinv_in_buffer; eauto).
    rewrite (ki_order _ _ _ K _ _ _ E). by if_false.
  - destruct (alloc_split_step fuel s a h (ord + Z.of_nat n) ord) as (s1 & -> & K1);
      [done|by replace (ord + Z.of_nat n + 1) with (ord + Z.of_nat (S n)) by lia|lia|lia|].
    apply (IH fuel s1 (split_block h (ord + Z.of_nat n) false a)); [done| |lia|lia|lia].
    unfold split_block. pose proof (pow2_pos (ord + Z.of_nat n) ltac:(lia)).
    by rewrite lookup_insert_ne, lookup_insert_eq by lia.
Qed.

Lemma kinv_settle s a h o f :
  kinv_at (Some h) s a -> a !! h = Some (o, f) -> free (blk s h) = f -> kinv s a.
Proof.
  intros K E Hf. split; [apply K..| |apply K].
  intros h' o' f' E' _. destruct (decide (h' = h)) as [->|Hne].
  - congruence.
  - apply (ki_free _ _ _ K _ o'); [done|congruence].
Qed.

Lemma kinv_set_free s a h o f :
  kinv_at (Some h) s a -> a !! h = Some (o, f) ->
  kinv (upd_block h (Block (order (blk s h)) f) s) a.
Proof.
  intros K E. apply (kinv_settle _ _ h o f); [|done|by blk_simpl].
  split; [apply K| | |apply K].
  - intros h' o' f' E'. blk_simpl; [subst h'|]; by eapply ki_order.
  - intros h' o' f' E' Hx. blk_simpl; [subst h'; congruence|]. by eapply ki_free.
Qed.

Lemma alloc_scan_run m fuel s a i ord :
  kinv s a -> 0 <= ord <= i -> i + Z.of_nat m = MAX_ORDER + 1 -> (m < fuel)%nat ->
  (forall h k, a !! h = Some (k, true) -> ord <= k -> i <= k) ->
  exists r s' a', alloc_scan fuel i ord s = Ret (r, s') /\ alloc_spec (fun _ => True) ord a r a' /\ kinv s' a'.
Proof.
  revert fuel i. induction m as [|m IH]; intros fuel i K Ho Hm Hf Hmin;
    (destruct fuel as [|fuel]; [lia|]); cbn [alloc_scan].
  - if_false. exists None, s, a. split; [done|]. split; [|done]. apply alloc_none.
    intros h k E. destruct (Z.lt_ge_cases k ord); [done|].
    specialize (Hmin h k E ltac:(lia)).
    destruct (tl_wf _ _ _ (ki_tile _ _ _ K) _ _ _ E) as (_ & ? & _). lia.
  - if_true. unfold mbind at 1, M_bind at 1, mget.
    destruct (list_empty (FreeList i) (knodes s)) eqn:Ee.
    + apply (IH fuel (i + 1)); [done|lia|lia|lia|].
      intros h k E Hk. specialize (Hmin h k E Hk).
      destruct (Z.eq_dec k i) as [->|]; [|lia]. exfalso.
      by apply (lists_ok_empty MAX_ORDER (knodes s) a tt i (ki_lists _ _ _ K) ltac:(lia) Ee h E).
    + destruct (lists_ok_first MAX_ORDER (knodes s) a tt i (ki_lists _ _ _ K)) as (h & En & E & _);
        [lia|done|]. cbn [fl_head kloc_shape fl_node] in En. rewrite En. cbn [block_of_node].
      destruct (lists_ok_remove MAX_ORDER (knodes s) a h i (ki_lists _ _ _ K)) as (n & Er & Hl & _);
        [lia|done|]. cbn [fl_node kloc_shape] in Er.
      set (a1 := <[h := (i, false)]> a) in *. set (s1 := KHeap (kblocks s) n).
      assert (K1 : kinv_at (Some h) s1 a1).
      { split; [by eapply tiling_status, E; apply K| | |done].
        - intros h' o f E'. unfold a1 in E'. rewrite lookup_insert in E'. case_decide.
          + injection E' as <- <-. subst h'. by apply (ki_order _ _ _ K _ _ _ E).
          + by apply (ki_order _ _ _ K _ _ _ E').
        - intros h' o f E' Hx. unfold a1 in E'. rewrite lookup_insert_ne in E' by congruence.
          by apply (ki_free _ _ _ K _ _ _ E'). }
      destruct (alloc_split_run (Z.to_nat (i - ord)) 13 s1 a1 h ord) as (s2 & Es & K2 & E2);
        [done| |lia|lia|unfold MAX_ORDER in *; lia|].
      { unfold a1. rewrite lookup_insert_eq. do 2 f_equal. lia. }
      exists (Some h), (upd_block h (Block (order (blk s2 h)) false) s2),
        (carve (Z.to_nat (i - ord)) h ord a1).
      split; [|split].
      * unfold mbind, M_bind, mlift. rewrite (on_nodes_run _ s n) by done. fold s1.
        pose proof (kinv_in_buffer _ _ _ _ _ _ K E).
        rewrite get_block_run by done.
        rewrite (ki_order _ _ _ K1 h i false) by (unfold a1; by rewrite lookup_insert_eq).
        rewrite Z.eqb_refl. cbn [assert]. rewrite Es. by rewrite set_free_run.
      * apply alloc_some; [done|done|lia|]. intros; by apply Hmin with h'.
      * by eapply kinv_set_free.
Qed.

(** Refinement of the abstract allocator, errors included: from a
    well-formed heap every request with a valid order returns, with the
    result the specification allows, in a well-formed heap. *)
Lemma alloc_blocks_run s a ord :
  kinv s a -> 0 <= ord <= MAX_ORDER ->
  exists r s' a', alloc_blocks ord s = Ret (r, s') /\ alloc_spec (fun _ => True) ord a r a' /\ kinv s' a'.
Proof.
  intros K Ho. unfold alloc_blocks, mbind, M_bind, mlift, assert. if_true.
  apply (alloc_scan_run (Z.to_nat (MAX_ORDER + 1 - ord))); [done|lia|lia| |].
  - unfold MAX_ORDER in *. lia.
  - intros. lia.
Qed.

Lemma alloc_blocks_too_large s ord : MAX_ORDER < ord -> alloc_blocks ord s = Bug.
Proof. intros Ho. unfold alloc_blocks, mbind, M_bind, mlift, assert. by if_false. Qed.

(** ** Freeing *)

Lemma buddy_in_buffer h o :
  in_buffer h -> aligned h o -> 0 <= o < MAX_ORDER -> in_buffer (buddy h o).
Proof.
  intros Hh Ha Ho. by apply buddy_range.
Qed.

(** The stop test of the merge loop reads a correct flag. *)
Lemma buddy_not_free s a h o :
  kinv_at (Some h) s a -> a !! h = Some (o, false) -> o < MAX_ORDER ->
  (forall o', a !! buddy h o <> Some (o', true)) -> free (blk s (buddy h o)) = false.
Proof.
  intros K E Ho Hn. destruct (tl_wf _ _ _ (ki_tile _ _ _ K) _ _ _ E) as (Hh & Ho' & Ha).
  pose proof (kinv_in_buffer _ _ _ _ _ _ K E) as Hb.
  destruct (tiling_buddy a h o false (ki_tile _ _ _ K) E) as (o' & f' & E' & _).
  { apply buddy_in_buffer; [done..|lia]. }
  destruct f'; [by apply Hn in E'|].
  apply (ki_free _ _ _ K _ _ _ E'). intros [= Hc].
  by apply (buddy_ne h o); [lia| |].
Qed.

Lemma free_merge_step fuel s a h o :
  kinv_at (Some h) s a -> a !! h = Some (o, false) -> o < MAX_ORDER ->
  a !! buddy h o = Some (o, true) ->
  exists s', free_merge (S fuel) h s = free_merge fuel (Z.min h (buddy h o)) s' /\
             kinv_at (Some (Z.min h (buddy h o))) s' (merge_block h o false a).
Proof.
  intros K E Ho Eb. destruct (tl_wf _ _ _ (ki_tile _ _ _ K) _ _ _ E) as (Hh & Ho' & Ha).
  pose proof (kinv_in_buffer _ _ _ _ _ _ K E) as Hb.
  pose proof (kinv_in_buffer _ _ _ _ _ _ K Eb) as Hb'.
  set (b := buddy h o) in *. set (m := Z.min h b).
  assert (Hne : b <> h) by (intros Hc; rewrite Hc in Eb; congruence).
  destruct (lists_ok_remove MAX_ORDER (knodes s) a b o (ki_lists _ _ _ K)) as (n & Er & Hl & _); [lia|done|].
  assert (Hm : in_buffer m) by (unfold m; destruct (Z.min_spec h b) as [[_ ->]|[_ ->]]; done).
  assert (Hom : order (blk s m) = o).
  { unfold m. destruct (Z.min_spec h b) as [[_ ->]|[_ ->]]; by eapply ki_order. }
  set (s1 := KHeap (kblocks s) n).
  exists (upd_block m (Block (o + 1) (free (blk s1 m))) s1). split.
  - cbn [free_merge]. unfold mbind at 1, M_bind at 1. rewrite get_block_run by done.
    rewrite (ki_order _ _ _ K _ _ _ E). if_true.
    unfold block_buddy, mbind, M_bind. rewrite !get_block_run by done.
    rewrite (ki_order _ _ _ K _ _ _ E). unfold mret, M_ret. fold b.
    rewrite get_block_run by done. rewrite (ki_free _ _ _ K _ _ _ Eb) by congruence.
    cbn [fl_node kloc_shape] in Er. rewrite (on_nodes_run _ s n Er). fold s1.
    assert (Em : (if b <? h then b else h) = m).
    { unfold m. destruct (Z.ltb_spec b h); lia. }
    rewrite Em. rewrite get_block_run by done. rewrite set_order_run by done.
    replace (order (blk s1 m)) with o by (symmetry; exact Hom). done.
  - assert (Hmx : forall x o0 f0, x <> m -> merge_block h o false a !! x = Some (o0, f0) ->
               a !! x = Some (o0, f0) /\ x <> h /\ x <> b).
    { intros x o0 f0 Hx. unfold merge_block. fold b m. rewrite lookup_insert_ne by congruence.
      intros [Hd ?]%lookup_delete_Some. split_and!; [done|unfold m in *; lia..]. }
    split.
    + eapply tiling_merge; [apply K|done|exact Eb|done].
    + intros x o0 f0 Ex. blk_simpl.
      * subst x. unfold merge_block in Ex. fold b m in Ex. rewrite lookup_insert_eq in Ex. by injection Ex.
      * destruct (Hmx x o0 f0) as (Ea & _ & _); [congruence|done|]. unfold s1. rewrite blk_nodes.
        by apply (ki_order _ _ _ K _ _ f0).
    + intros x o0 f0 Ex Hx. rewrite blk_upd, decide_False by congruence.
      destruct (Hmx x o0 f0) as (Ea & ? & _); [congruence|done|]. unfold s1. rewrite blk_nodes.
      apply (ki_free _ _ _ K _ o0); [done|congruence].
    + by apply lists_ok_merge.
Qed.

Lemma free_merge_run h o a h' o' a' :
  merges MAX_ORDER h o a h' o' a' ->
  forall fuel s, kinv_at (Some h) s a -> a !! h = Some (o, false) ->
  (Z.to_nat (MAX_ORDER - o) < fuel)%nat ->
  exists s', free_merge fuel h s = Ret (h', s') /\ kinv_at (Some h') s' a' /\
             a' !! h' = Some (o', false).
Proof.
  induction 1 as [h a|h o a Hstop Hlt|h o a h' o' a' Hlt Eb Hm IH]; intros fuel s K E Hf;
    (destruct fuel as [|fuel]; [lia|]);
    pose proof (kinv_in_buffer _ _ _ _ _ _ K E) as Hb;
    destruct (tl_wf _ _ _ (ki_tile _ _ _ K) _ _ _ E) as (Hh & Ho & Ha).
  - exists s. split; [|done]. cbn [free_merge]. unfold mbind, M_bind.
    rewrite get_block_run by done. rewrite (ki_order _ _ _ K _ _ _ E). done.
  - exists s. split; [|done].
    cbn [free_merge]. unfold mbind at 1, M_bind at 1. rewrite get_block_run by done.
    rewrite (ki_order _ _ _ K _ _ _ E). if_true.
    unfold block_buddy, mbind, M_bind. rewrite !get_block_run by done.
    rewrite (ki_order _ _ _ K _ _ _ E). unfold mret, M_ret. rewrite get_block_run by (apply buddy_in_buffer; [done..|lia]).
    by rewrite (buddy_not_free s a h o).
  - destruct (free_merge_step fuel s a h o) as (s1 & -> & K1); [done..|].
    apply IH; [done| |lia]. unfold merge_block. by rewrite lookup_insert_eq.
Qed.

Lemma kinv_at_weaken x s a : kinv s a -> kinv_at x s a.
Proof. intros K. split; [apply K..| |apply K]. intros h o f E _. by apply (ki_free _ _ _ K _ o). Qed.

Lemma free_blocks_run s a h o h' o' a' :
  kinv s a -> a !! h = Some (o, false) -> merges MAX_ORDER h o a h' o' a' ->
  exists s', free_blocks h s = Ret (tt, s') /\ kinv s' (<[h' := (o', true)]> a').
Proof.
  intros K E Hm.
  destruct (tl_wf _ _ _ (ki_tile _ _ _ K) _ _ _ E) as (Hh & Ho & Ha).
  destruct (free_merge_run _ _ _ _ _ _ Hm 13 s) as (s1 & E1 & K1 & Ea');
    [by apply kinv_at_weaken|done|unfold MAX_ORDER in *; lia|].
  pose proof (kinv_in_buffer _ _ _ _ _ _ K1 Ea') as Hb'.
  destruct (tl_wf _ _ _ (ki_tile _ _ _ K1) _ _ _ Ea') as (_ & Ho' & _).
  set (s2 := upd_block h' (Block (order (blk s1 h')) true) s1).
  destruct (lists_ok_push MAX_ORDER (knodes s1) a' h' o' (ki_lists _ _ _ K1) Ho') as (n & Ei & Hl & _).
  { intros o0. by rewrite Ea'. }
  assert (Eo : blk s2 h' = Block o' true).
  { unfold s2. rewrite blk_upd, decide_True by done. f_equal. by eapply ki_order. }
  exists (KHeap (kblocks s2) n). split.
  - unfold free_blocks, mbind, M_bind. rewrite E1, set_free_run by done. fold s2.
    rewrite get_block_run by done. rewrite Eo. cbn [order].
    by rewrite (on_nodes_run _ s2 n).
  - split; [by eapply tiling_status, Ea'; apply K1| | |done].
    + intros x o0 f0 Ex. rewrite blk_nodes. rewrite lookup_insert in Ex. case_decide.
      * subst x. rewrite Eo. by injection Ex.
      * unfold s2. rewrite blk_upd, decide_False by done. by apply (ki_order _ _ _ K1 _ _ f0).
    + intros x o0 f0 Ex _. rewrite blk_nodes. rewrite lookup_insert in Ex. case_decide.
      * subst x. rewrite Eo. by injection Ex.
      * unfold s2. rewrite blk_upd, decide_False by done.
        apply (ki_free _ _ _ K1 _ o0); [done|congruence].
Qed.

(** ** Initialisation *)

Definition one_block : blockmap := {[ 0 := (MAX_ORDER, true) ]}.

Lemma one_block_tiling : tiling MAX_ORDER in_buffer one_block.
Proof.
  unfold one_block. split.
  - intros h o f [<- [= <- <-]]%lookup_singleton_Some. done.
  - intros h1 o1 f1 h2 o2 f2 [<- _]%lookup_singleton_Some [<- _]%lookup_singleton_Some. done.
  - intros p. split.
    + intros Hp. exists 0, MAX_ORDER, true. by rewrite lookup_singleton_eq.
    + by intros (h & o & f & [<- [= <- <-]]%lookup_singleton_Some & Hi).
Qed.

Lemma init_lists_dll n m o :
  0 <= o < Z.of_nat n -> dll (init_lists n m) (FreeList o) [].
Proof.
  induction n as [|n IH]; intros Ho; [lia|]. cbn [init_lists].
  destruct (decide (o = Z.of_nat n)) as [->|Hne]; [apply list_init_dll|].
  apply (dll_frame (init_lists n m)); [|apply IH; lia].
  intros c Hc. apply list_init_frame. set_solver.
Qed.

Lemma kmalloc_early_init_run s :
  exists s', kmalloc_early_init s = Ret (tt, s') /\ kinv s' one_block.
Proof.
  set (m := init_lists (Z.to_nat (MAX_ORDER + 1)) (knodes s)).
  assert (Hl0 : lists_ok MAX_ORDER m ∅).
  { exists (fun _ _ => []). intros z o Ho. split.
    - apply init_lists_dll. unfold MAX_ORDER in *. lia.
    - intros h. rewrite lookup_empty. set_solver. }
  destruct (lists_ok_push MAX_ORDER m ∅ 0 MAX_ORDER Hl0) as (n & Ei & Hl & _); [done|done|].
  assert (Hb : in_buffer 0) by done.
  set (s1 := KHeap (kblocks s) m).
  set (s2 := upd_block 0 (Block MAX_ORDER (free (blk s1 0))) s1).
  set (s3 := upd_block 0 (Block MAX_ORDER true) s2).
  assert (E3 : blk s3 0 = Block MAX_ORDER true) by (unfold s3; by rewrite blk_upd, decide_True).
  exists (KHeap (kblocks s3) n). split.
  - unfold kmalloc_early_init, mbind, M_bind. rewrite (on_nodes_run _ s m) by done. fold s1.
    rewrite set_order_run by done. fold s2. rewrite set_free_run by done.
    unfold s2 at 1. rewrite blk_upd, decide_True by done. cbn [order]. fold s3.
    by rewrite (on_nodes_run _ s3 n).
  - split; [apply one_block_tiling| | |]; unfold one_block.
    + intros h o f [<- [= <- <-]]%lookup_singleton_Some. rewrite blk_nodes. by rewrite E3.
    + intros h o f [<- [= <- <-]]%lookup_singleton_Some _. rewrite blk_nodes. by rewrite E3.
    + done.
Qed.

(** ** Properties *)

(** C10. The boot-time allocator implements the abstract best-fit allocator
    on a tiling: from a well-formed heap, every request of a valid order
    terminates; the answer is NULL only when no free block is large enough,
    otherwise it is the smallest sufficient free block cut down to the
    requested order; the heap stays well formed and the only change to the
    live blocks is the one that is returned. *)
Theorem alloc_blocks_refines (s : kheap) (a : blockmap) (ord : Z) :
  kinv s a -> 0 <= ord <= MAX_ORDER ->
  exists r s' a',
    alloc_blocks ord s = Ret (r, s') /\ alloc_spec (fun _ => True) ord a r a' /\ kinv s' a' /\
    forall h k, a' !! h = Some (k, false) <-> (r = Some h /\ k = ord) \/ a !! h = Some (k, false).
Proof.
  intros K Ho. destruct (alloc_blocks_run s a ord K Ho) as (r & s' & a' & E & Hs & K').
  exists r, s', a'. split_and!; [done..|]. eapply alloc_spec_live; [apply K|lia|done].
Qed.

Definition heap0 : kheap :=
  match kmalloc_early_init kheap_bss with Ret (_, s) => s | _ => kheap_bss end.

Lemma heap0_inv : kinv heap0 one_block.
Proof.
  destruct (kmalloc_early_init_run kheap_bss) as (s' & E & K).
  unfold heap0. by rewrite E.
Qed.

Lemma alloc_blocks_refines_witness :
  exists r s' a',
    alloc_blocks 3 heap0 = Ret (r, s') /\ alloc_spec (fun _ => True) 3 one_block r a' /\ kinv s' a' /\
    forall h k, a' !! h = Some (k, false) <->
      (r = Some h /\ k = 3) \/ one_block !! h = Some (k, false).
Proof. apply (alloc_blocks_refines heap0 one_block 3 heap0_inv). by vm_compute. Defined.

(** Freeing a live block terminates, keeps the heap well formed and
    removes exactly that block from the live ones, provided that no buddy
    met while coalescing is only partly free ([whole_buddies]). *)
Theorem free_blocks_refines (s : kheap) (a : blockmap) (h o : Z) :
  kinv s a -> a !! h = Some (o, false) -> whole_buddies MAX_ORDER a h o ->
  exists s' a',
    free_blocks h s = Ret (tt, s') /\ kinv s' a' /\
    forall x k, a' !! x = Some (k, false) <-> x <> h /\ a !! x = Some (k, false).
Proof.
  intros K E W. pose proof (tl_wf _ _ _ (ki_tile _ _ _ K) _ _ _ E) as (Hh & Ho & Ha).
  destruct (merges_total MAX_ORDER in_buffer (Z.to_nat (MAX_ORDER - o)) h o a) as (h' & o' & a' & Hm);
    [apply K|done|done|lia|].
  destruct (free_blocks_run s a h o h' o' a' K E Hm) as (s' & Er & K').
  exists s', (<[h' := (o', true)]> a'). split_and!; [done..|].
  by eapply merges_live; [|apply K|].
Qed.

Definition heap1 : kheap :=
  match alloc_blocks 12 heap0 with Ret (_, s) => s | _ => heap0 end.

Lemma heap1_inv : kinv heap1 {[ 0 := (MAX_ORDER, false) ]}.
Proof.
  destruct (alloc_blocks_run heap0 one_block 12 heap0_inv ltac:(by vm_compute))
    as (r & s' & a' & E & Hs & K).
  unfold heap1. rewrite E. destruct Hs as [Hn|h k Eh _ Hk _].
  - exfalso. specialize (Hn 0 MAX_ORDER eq_refl I). by vm_compute in Hn.
  - unfold one_block in Eh. apply lookup_singleton_Some in Eh as [<- [= <-]]. exact K.
Qed.

Lemma free_blocks_refines_witness :
  exists s' a',
    free_blocks 0 heap1 = Ret (tt, s') /\ kinv s' a' /\
    forall x k, a' !! x = Some (k, false) <->
      x <> 0 /\ ({[ 0 := (MAX_ORDER, false) ]} : blockmap) !! x = Some (k, false).
Proof.
  apply (free_blocks_refines heap1 {[ 0 := (MAX_ORDER, false) ]} 0 MAX_ORDER heap1_inv).
  - reflexivity.
  - intros k o' Hk. unfold MAX_ORDER in Hk. lia.
Defined.

(** Without that provision freeing is unsafe: [free_blocks] looks at the
    [free] field of the buddy but not at its order.  After allocating a
    16-byte block (0) and two 8-byte blocks (2 and 3), freeing 2 and then 0
    coalesces block 0 with the buddy 2 of which the upper half 3 is still
    in use, up to the whole buffer; the next 32-byte request is answered
    with units 0 to 3, although unit 3 was never freed. *)
Theorem free_blocks_swallows_live_block :
  exists s,
    (a ← alloc_blocks 1; b ← alloc_blocks 0; c ← alloc_blocks 0;
     _ ← free_blocks 2; _ ← free_blocks 0; d ← alloc_blocks 2;
     mret (a, b, c, d)) heap0 = Ret ((Some 0, Some 2, Some 3, Some 0), s) /\
    inside 3 0 2.
Proof. eexists. split; [vm_compute; reflexivity|by vm_compute]. Qed.

(** Bytes in the block that [kmalloc_early] returns for a request. *)
Definition early_capacity (size : Z) : Z := MIN_SIZE * 2 ^ early_order size.

Lemma early_order_bound size : 0 <= size <= MAX_SIZE -> 0 <= early_order size <= MAX_ORDER.
Proof.
  intros Hs. unfold early_order. split; [auto with kern|].
  change MAX_SIZE with (2 ^ 12 * 8) in Hs. unfold MIN_SIZE, MAX_ORDER.
  destruct (Z.eq_dec (size / 8) 0) as [->|Hne]; [by vm_compute|].
  assert (0 <= size / 8) by (apply Z.div_pos; lia).
  assert (size / 8 <= 2 ^ 12) by (apply Z.div_le_upper_bound; lia).
  apply ilog2_roundup_least; lia.
Qed.

Lemma early_capacity_small (size : Z) :
  1 <= size <= MAX_SIZE ->
  (early_capacity size < size <->
   size mod MIN_SIZE <> 0 /\ exists j, 0 <= j /\ size / MIN_SIZE = 2 ^ j).
Proof.
  intros Hs. unfold early_capacity, early_order, MIN_SIZE.
  assert (Hmax : MAX_SIZE = 2 ^ 15) by done. rewrite Hmax in Hs.
  pose proof (Z.div_mod size 8 ltac:(lia)) as Hd. set (q := size / 8) in *.
  pose proof (Z.mod_pos_bound size 8 ltac:(lia)) as Hr. set (r := size mod 8) in *.
  destruct (Z.eq_dec q 0) as [->|Hq].
  { change (2 ^ ilog2_roundup 0) with 1. split; [lia|].
    intros [_ (j & Hj & E)]. pose proof (pow2_pos j Hj). lia. }
  assert (Hq1 : 1 <= q < 2 ^ 32) by lia.
  set (k := ilog2_roundup q). assert (Hk : 0 <= k) by (unfold k; auto with kern).
  assert (q <= 2 ^ k) by (apply ilog2_roundup_least; lia).
  split.
  - intros Hlt. assert (2 ^ k = q) by lia. split; [lia|]. by exists k.
  - intros [Hr0 (j & Hj & Eq)].
    assert (k <= j) by (apply ilog2_roundup_least; lia).
    assert (2 ^ k <= 2 ^ j) by (apply Z.pow_le_mono_r; lia). lia.
Qed.

(** The block [kmalloc_early] returns is too small for the request
    exactly when the size is not a multiple of 8 and its quotient by 8 is a
    power of two: the quotient is rounded down before the order is rounded
    up.  [sizeof(struct vm_area)], 36 bytes, is such a size, and
    [vmalloc_init] runs before the slab caches take over. *)
Theorem kmalloc_early_underallocates (size : Z) :
  1 <= size <= MAX_SIZE ->
  (early_capacity size < size <->
   size mod MIN_SIZE <> 0 /\ exists j, 0 <= j /\ size / MIN_SIZE = 2 ^ j).
Proof. apply early_capacity_small. Qed.

Lemma kmalloc_early_underallocates_witness :
  early_capacity 36 < 36 <-> 36 mod MIN_SIZE <> 0 /\ exists j, 0 <= j /\ 36 / MIN_SIZE = 2 ^ j.
Proof. apply (kmalloc_early_underallocates 36). by vm_compute. Defined.

(** For sizes that are a multiple of 8 [kmalloc_early] is a correct
    allocator: it returns NULL or the address of [size] bytes inside the
    buffer that no live block overlaps, and [addr_to_index], which
    [kfree_early] uses, maps the address back to the new block. *)
Theorem kmalloc_early_ok (base : Z) (s : kheap) (a : blockmap) (size : Z) :
  kinv s a -> 0 < base -> base + MAX_SIZE < 2 ^ 32 ->
  0 < size <= MAX_SIZE -> size mod MIN_SIZE = 0 ->
  exists r s' a', kmalloc_early base size s = Ret (r, s') /\ kinv s' a' /\
    forall p, r = Some p ->
      base <= p /\ p + size <= base + MAX_SIZE /\
      a' !! addr_to_index base p = Some (early_order size, false) /\
      (forall h k, a !! h = Some (k, false) ->
         p + size <= base + h * MIN_SIZE \/ base + (h + 2 ^ k) * MIN_SIZE <= p).
Proof.
  intros K Hb0 Hb Hs Hm.
  pose proof (early_order_bound size ltac:(lia)) as Hob.
  destruct (alloc_blocks_run s a (early_order size) K Hob) as (r & s' & a' & E & Hsp & K').
  pose proof (alloc_spec_live _ _ _ _ _ _ _ (ki_tile _ _ _ K) (proj1 Hob) Hsp) as Hl.
  exists (index_to_addr base <$> r), s', a'.
  split; [by unfold kmalloc_early, mbind, M_bind; rewrite E|]. split; [done|].
  intros p Hp. destruct r as [i|]; [|done]. injection Hp as Hp.
  assert (Ei : a' !! i = Some (early_order size, false)) by (apply Hl; by left).
  destruct (tl_wf _ _ _ (ki_tile _ _ _ K') _ _ _ Ei) as (Hi & Ho & Ha).
  pose proof (pow2_pos (early_order size) ltac:(lia)) as Hpow.
  assert (Hcap : size <= MIN_SIZE * 2 ^ early_order size).
  { destruct (Z.lt_ge_cases (early_capacity size) size) as [Hlt|]; [|done].
    apply early_capacity_small in Hlt; [|lia]. tauto. }
  assert (Hend : i + 2 ^ early_order size <= 2 ^ MAX_ORDER).
  { assert (Hin : in_buffer (i + 2 ^ early_order size - 1)).
    { apply (tl_cover _ _ _ (ki_tile _ _ _ K')). exists i, (early_order size), false.
      split; [done|]. unfold inside. lia. }
    unfold in_buffer in Hin. lia. }
  change MAX_SIZE with (MIN_SIZE * 2 ^ MAX_ORDER) in *. unfold MIN_SIZE in *.
  assert (Hpe : p = base + i * 8).
  { rewrite <- Hp. unfold index_to_addr, MIN_SIZE. apply wrap_small. unfold fits. lia. }
  assert (Hidx : addr_to_index base p = i).
  { unfold addr_to_index, MIN_SIZE. rewrite Hpe, Z.add_simpl_l.
    rewrite wrap_small by (unfold fits; lia). apply Z.div_mul. lia. }
  rewrite Hidx. split_and!; [lia|lia|done|].
  intros h k Eh. assert (Eh' : a' !! h = Some (k, false)) by (apply Hl; by right).
  destruct (decide (h = i)) as [->|Hne].
  - exfalso. inversion Hsp; subst. congruence.
  - destruct (tl_disj _ _ _ (ki_tile _ _ _ K') _ _ _ _ _ _ Eh' Ei Hne); lia.
Qed.

Lemma kmalloc_early_ok_witness :
  exists r s' a', kmalloc_early 0xC0100000 16 heap0 = Ret (r, s') /\ kinv s' a' /\
    forall p, r = Some p ->
      0xC0100000 <= p /\ p + 16 <= 0xC0100000 + MAX_SIZE /\
      a' !! addr_to_index 0xC0100000 p = Some (early_order 16, false) /\
      (forall h k, one_block !! h = Some (k, false) ->
         p + 16 <= 0xC0100000 + h * MIN_SIZE \/
         0xC0100000 + (h + 2 ^ k) * MIN_SIZE <= p).
Proof.
  apply (kmalloc_early_ok 0xC0100000 heap0 one_block 16 heap0_inv); by vm_compute.
Defined.
