(* ===== verification/Page.v ===== *)
(** * The page allocator (mm/page.c)

    Physical pages are handed out in blocks of [2^order] by a buddy
    allocator with one family of free lists for low (linearly mapped) and
    one for high memory.  The state is the array [pages], the memory of the
    list nodes and [page_lock].  [pinv] is the representation invariant: the
    valid pages are tiled by blocks whose first descriptor carries the
    order and the PAGE_FREE flag, the free lists hold exactly the free
    blocks of their order and zone, and the PAGE_HIGHMEM flag tells the
    zone. *)

From stdpp Require Import base numbers list gmap countable.
From Stdlib Require Import ZArith Lia.
From S2P Require Import Prelude Bitops Lock ListNode Buddy.

Open Scope Z_scope.

Definition TOTAL_PAGES : Z := 1024 * 1024.
Definition PAGE_MAX_ORDER : Z := 10.

(** [highmem_start_pfn], as [scan_memory_slot] sets it. *)
Definition highmem_start_pfn : Z := phys_to_pfn PHYS_HIGHMEM_START.

(** Node addresses: the list heads of page.c, the [node] of a page, and the
    list heads of a slab cache, which thread the same node. *)
Inductive ploc : Type :=
  | HighmemFreeList (order : Z)
  | FreeList (order : Z)
  | PageNode (pfn : Z)
  | SlabsFull (cache : Z)
  | SlabsPartial (cache : Z).

#[export] Instance ploc_eq_dec : EqDecision ploc.
Proof. solve_decision. Defined.
#[export] Instance ploc_countable : Countable ploc.
Proof.
  refine (inj_countable'
    (fun l => match l with
      | HighmemFreeList o => (0, o) | FreeList o => (1, o) | PageNode p => (2, p)
      | SlabsFull c => (3, c) | SlabsPartial c => (4, c) end)
    (fun t => match t.1 with
      | 0 => HighmemFreeList t.2 | 1 => FreeList t.2 | 2 => PageNode t.2
      | 3 => SlabsFull t.2 | _ => SlabsPartial t.2 end) _).
  by intros [].
Defined.

(** [struct page] without the embedded list node. *)
Record page := Page {
  flags : Z;
  order : Z;
  s_mem : Z;
  freelist : Z;
  active : Z;
  total : Z;
  slab_cache : option Z
}.

Definition zero_page : page := Page 0 0 0 0 0 0 None.

Record pmem := PMem {
  pages : gmap Z page;                       (** [pages[TOTAL_PAGES]] *)
  pnodes : gmap ploc (list_node ploc);
  page_lock : Z
}.

Definition pg (s : pmem) (i : Z) : page := default zero_page (pages s !! i).

Definition in_pages (i : Z) : bool := (0 <=? i) && (i <? TOTAL_PAGES).

Definition get_page (i : Z) : M pmem page := fun s =>
  if in_pages i then Ret (pg s i, s) else Fault.
Definition upd_page (i : Z) (p : page) (s : pmem) : pmem :=
  PMem (<[i := p]> (pages s)) (pnodes s) (page_lock s).
Definition put_page (i : Z) (p : page) : M pmem unit := fun s =>
  if in_pages i then Ret (tt, upd_page i p s) else Fault.

Definition with_flags (p : page) (f : Z) : page :=
  Page f (order p) (s_mem p) (freelist p) (active p) (total p) (slab_cache p).
Definition with_order (p : page) (o : Z) : page :=
  Page (flags p) o (s_mem p) (freelist p) (active p) (total p) (slab_cache p).

Definition page_set_bit (nr i : Z) : M pmem unit :=
  p ← get_page i; put_page i (with_flags p (set_bit nr (flags p))).
Definition page_clear_bit (nr i : Z) : M pmem unit :=
  p ← get_page i; put_page i (with_flags p (clear_bit nr (flags p))).
Definition page_set_order (i o : Z) : M pmem unit :=
  p ← get_page i; put_page i (with_order p o).

Definition on_pnodes (f : gmap ploc (list_node ploc) -> outcome (gmap ploc (list_node ploc)))
    : M pmem unit := fun s =>
  match f (pnodes s) with
  | Ret n => Ret (tt, PMem (pages s) n (page_lock s))
  | Bug => Bug | Fault => Fault | Spin => Spin
  end.

Definition lock_pages : M pmem unit := fun s =>
  match spin_lock (page_lock s) with
  | Ret v => Ret (tt, PMem (pages s) (pnodes s) v)
  | _ => Bug
  end.
Definition unlock_pages : M pmem unit := fun s =>
  Ret (tt, PMem (pages s) (pnodes s) (spin_unlock (page_lock s))).

(** A [struct page *] is its index, so the conversions are the identity. *)
Definition page_to_pfn (page : Z) : Z := page.
Definition pfn_to_page (pfn : Z) : Z := pfn.

Definition page_buddy (page : Z) : M pmem Z :=
  p ← get_page page; mret (buddy (page_to_pfn page) (order p)).

Definition free_page (page ord : Z) : M pmem unit :=
  _ ← page_set_bit PAGE_FREE page;
  _ ← page_set_order page ord;
  p ← get_page page;
  if test_bit PAGE_HIGHMEM (flags p)
  then on_pnodes (list_insert (HighmemFreeList ord) (PageNode page))
  else on_pnodes (list_insert (FreeList ord) (PageNode page)).

(** [init_free_pages]: [count] runs from 0 in steps of [1 << order]. *)
Fixpoint init_free_loop (fuel : nat) (start_page nr_pages ord count : Z) : M pmem Z :=
  match fuel with
  | O => fun _ => Spin
  | S fuel =>
      if count <? nr_pages then
        _ ← free_page (start_page + count) ord;
        init_free_loop fuel start_page nr_pages ord (count + Z.shiftl 1 ord)
      else mret count
  end.
Definition init_free_pages (start_page nr_pages ord : Z) : M pmem unit :=
  count ← init_free_loop (S (Z.to_nat nr_pages)) start_page nr_pages ord 0;
  mlift (assert (count =? nr_pages)).

(** The loop of [add_free_pages] that sets the flags, over [n] pages. *)
Fixpoint mark_pages (n : nat) (pfn : Z) (highmem : bool) : M pmem unit :=
  match n with
  | O => mret tt
  | S n =>
      _ ← page_set_bit PAGE_VALID (pfn_to_page pfn);
      _ ← (if highmem then page_set_bit PAGE_HIGHMEM (pfn_to_page pfn) else mret tt);
      mark_pages n (pfn + 1) highmem
  end.

(** The part of [add_free_pages] after the zone is known. *)
Definition add_zone_pages (start_pfn end_pfn : Z) (highmem : bool) : M pmem unit :=
  _ ← mark_pages (Z.to_nat (end_pfn - start_pfn)) start_pfn highmem;
  let split_start := round_up start_pfn (Z.shiftl 1 PAGE_MAX_ORDER) in
  let split_end := round_down end_pfn (Z.shiftl 1 PAGE_MAX_ORDER) in
  if split_end <=? split_start then
    init_free_pages (pfn_to_page start_pfn) (end_pfn - start_pfn) 0
  else
    _ ← init_free_pages (pfn_to_page start_pfn) (split_start - start_pfn) 0;
    _ ← init_free_pages (pfn_to_page split_start) (split_end - split_start) PAGE_MAX_ORDER;
    init_free_pages (pfn_to_page split_end) (end_pfn - split_end) 0.

(** [add_free_pages]: a range that straddles the zone boundary is handled
    by two recursive calls, which do not straddle it. *)
Definition add_free_pages (start_pfn end_pfn : Z) : M pmem unit :=
  _ ← mlift (assert (start_pfn <=? end_pfn));
  if highmem_start_pfn <=? start_pfn then add_zone_pages start_pfn end_pfn true
  else if end_pfn <=? highmem_start_pfn then add_zone_pages start_pfn end_pfn false
  else
    _ ← add_zone_pages start_pfn highmem_start_pfn false;
    add_zone_pages highmem_start_pfn end_pfn true.

Definition get_free_list (gfp_mask ord : Z) : ploc :=
  if Z.land gfp_mask GFP_HIGHMEM =? 0 then FreeList ord else HighmemFreeList ord.

(** [container_of(node, struct page, node)]. *)
Definition page_of_node (p : option ploc) : outcome Z :=
  match p with Some (PageNode i) => Ret i | _ => Fault end.

(** The split loop of [alloc_pages]. *)
Fixpoint pages_split (fuel : nat) (page ord : Z) : M pmem unit :=
  match fuel with
  | O => fun _ => Spin
  | S fuel =>
      p ← get_page page;
      if ord <? order p then
        _ ← page_set_order page (order p - 1);
        bud ← page_buddy page;
        pb ← get_page bud;
        _ ← mlift (assert (test_bit PAGE_VALID (flags pb)));
        p' ← get_page page;
        _ ← free_page bud (order p');
        pages_split fuel page ord
      else mret tt
  end.

(** The scan over orders of [alloc_pages]. *)
Fixpoint pages_scan (fuel : nat) (gfp_mask i ord : Z) : M pmem (option Z) :=
  match fuel with
  | O => fun _ => Spin
  | S fuel =>
      if i <=? PAGE_MAX_ORDER then
        s ← mget;
        let list := get_free_list gfp_mask i in
        if list_empty list (pnodes s) then pages_scan fuel gfp_mask (i + 1) ord
        else
          let node := list_next list (pnodes s) in
          page ← mlift (page_of_node node);
          _ ← on_pnodes (list_remove (PageNode page));
          p ← get_page page;
          _ ← mlift (assert (i =? order p));
          _ ← pages_split 11 page ord;
          _ ← page_clear_bit PAGE_FREE page;
          _ ← unlock_pages;
          mret (Some page)
      else
        _ ← unlock_pages;
        mret None
  end.

Definition alloc_pages (gfp_mask ord : Z) : M pmem (option Z) :=
  if PAGE_MAX_ORDER <? ord then mret None
  else
    _ ← lock_pages;
    pages_scan 12 gfp_mask ord ord.

Definition alloc_page (gfp_mask : Z) : M pmem (option Z) := alloc_pages gfp_mask 0.

(** The merge loop of [free_pages]. *)
Fixpoint pages_merge (fuel : nat) (page : Z) : M pmem Z :=
  match fuel with
  | O => fun _ => Spin
  | S fuel =>
      p ← get_page page;
      if order p <? PAGE_MAX_ORDER then
        bud ← page_buddy page;
        pb ← get_page bud;
        if negb (test_bit PAGE_VALID (flags pb)) || negb (test_bit PAGE_FREE (flags pb))
        then mret page
        else
          _ ← on_pnodes (list_remove (PageNode bud));
          let page := if bud <? page then bud else page in
          p ← get_page page;
          _ ← page_set_order page (order p + 1);
          pages_merge fuel page
      else mret page
  end.

Definition free_pages (page : Z) : M pmem unit :=
  _ ← lock_pages;
  page ← pages_merge 11 page;
  p ← get_page page;
  _ ← free_page page (order p);
  unlock_pages.

(** [page_init]: the heads of both families for orders [0 .. n - 1]. *)
Fixpoint init_page_lists (n : nat) (m : gmap ploc (list_node ploc)) : gmap ploc (list_node ploc) :=
  match n with
  | O => m
  | S n =>
      list_init (FreeList (Z.of_nat n))
        (list_init (HighmemFreeList (Z.of_nat n)) (init_page_lists n m))
  end.
Definition page_init : M pmem unit := fun s =>
  Ret (tt, PMem (pages s) (init_page_lists (Z.to_nat (PAGE_MAX_ORDER + 1)) (pnodes s))
             (counter spinlock_init)).

Definition pmem_bss : pmem := PMem ∅ ∅ 0.

(** ** Representation invariant *)

Definition in_highmem (p : Z) : bool := highmem_start_pfn <=? p.

#[export, refine] Instance ploc_shape : FreeListShape ploc bool := {|
  fl_head := fun z o => if z : bool then HighmemFreeList o else FreeList o;
  fl_node := PageNode;
  fl_zone := in_highmem
|}.
Proof.
  - by intros [] o [] o' [= ->].
  - by intros i j [= ->].
  - by intros [] o i.
Defined.

Definition valid (s : pmem) (p : Z) : Prop :=
  0 <= p < TOTAL_PAGES /\ test_bit PAGE_VALID (flags (pg s p)) = true.

(** [D]: the pages handed to the allocator so far, all the valid ones except
    while [add_free_pages] runs.  [x]: a block being worked on, its
    PAGE_FREE flag not yet updated. *)
Record pinv_on (D : Z -> Prop) (x : option Z) (s : pmem) (a : blockmap) : Prop := PInv {
  pi_tile : tiling PAGE_MAX_ORDER D a;
  pi_order : forall h o f, a !! h = Some (o, f) -> order (pg s h) = o;
  pi_free : forall h o f, a !! h = Some (o, f) -> x <> Some h ->
              test_bit PAGE_FREE (flags (pg s h)) = f;
  pi_zone : forall p, valid s p -> test_bit PAGE_HIGHMEM (flags (pg s p)) = in_highmem p;
  pi_lists : lists_ok PAGE_MAX_ORDER (pnodes s) a
}.

Definition pinv_at (x : option Z) (s : pmem) : blockmap -> Prop := pinv_on (valid s) x s.

Definition pinv (s : pmem) (a : blockmap) : Prop := pinv_at None s a /\ page_lock s = 0.

(** ** Running the primitive steps *)

Lemma in_pages_spec i : in_pages i = true <-> 0 <= i < TOTAL_PAGES.
Proof. unfold in_pages. lia. Qed.

Lemma get_page_run i s : 0 <= i < TOTAL_PAGES -> get_page i s = Ret (pg s i, s).
Proof. intros Hi. unfold get_page. by rewrite (proj2 (in_pages_spec i) Hi). Qed.

Lemma put_page_run i p s : 0 <= i < TOTAL_PAGES -> put_page i p s = Ret (tt, upd_page i p s).
Proof. intros Hi. unfold put_page. by rewrite (proj2 (in_pages_spec i) Hi). Qed.

Lemma pg_upd i p s j : pg (upd_page i p s) j = if decide (i = j) then p else pg s j.
Proof. unfold pg, upd_page. simpl. rewrite lookup_insert. by case_decide. Qed.

Lemma pg_nodes s n v j : pg (PMem (pages s) n v) j = pg s j.
Proof. done. Qed.

Lemma on_pnodes_run f s n :
  f (pnodes s) = Ret n -> on_pnodes f s = Ret (tt, PMem (pages s) n (page_lock s)).
Proof. intros E. unfold on_pnodes. by rewrite E. Qed.

Lemma page_set_order_run i o s :
  0 <= i < TOTAL_PAGES -> page_set_order i o s = Ret (tt, upd_page i (with_order (pg s i) o) s).
Proof.
  intros Hi. unfold page_set_order, mbind, M_bind. rewrite get_page_run by done.
  by apply put_page_run.
Qed.

Lemma page_set_bit_run nr i s :
  0 <= i < TOTAL_PAGES ->
  page_set_bit nr i s = Ret (tt, upd_page i (with_flags (pg s i) (set_bit nr (flags (pg s i)))) s).
Proof.
  intros Hi. unfold page_set_bit, mbind, M_bind. rewrite get_page_run by done.
  by apply put_page_run.
Qed.

Lemma page_clear_bit_run nr i s :
  0 <= i < TOTAL_PAGES ->
  page_clear_bit nr i s = Ret (tt, upd_page i (with_flags (pg s i) (clear_bit nr (flags (pg s i)))) s).
Proof.
  intros Hi. unfold page_clear_bit, mbind, M_bind. rewrite get_page_run by done.
  by apply put_page_run.
Qed.

(** The descriptor [free_page] writes. *)
Definition freed (p : page) (o : Z) : page :=
  with_order (with_flags p (set_bit PAGE_FREE (flags p))) o.

Lemma free_page_run h o s n :
  0 <= h < TOTAL_PAGES ->
  list_insert (if test_bit PAGE_HIGHMEM (flags (pg s h)) then HighmemFreeList o else FreeList o)
    (PageNode h) (pnodes s) = Ret n ->
  free_page h o s = Ret (tt, PMem (<[h := freed (pg s h) o]> (pages s)) n (page_lock s)).
Proof.
  intros Hh Hi. unfold free_page.
  rewrite (M_bind_run _ _ _ _ _ (page_set_bit_run _ _ _ Hh)).
  rewrite (M_bind_run _ _ _ _ _ (page_set_order_run _ _ _ Hh)).
  rewrite (M_bind_run _ _ _ _ _ (get_page_run _ _ Hh)).
  rewrite !pg_upd, !decide_True by done.
  change (flags (with_order (with_flags (pg s h) (set_bit PAGE_FREE (flags (pg s h)))) o))
    with (set_bit PAGE_FREE (flags (pg s h))).
  rewrite test_set_bit by done. change (bool_decide (PAGE_FREE = PAGE_HIGHMEM)) with false.
  cbn [orb]. set (s2 := upd_page h (with_order _ _) _).
  assert (E2 : pages s2 = <[h := freed (pg s h) o]> (pages s)).
  { unfold s2, upd_page. simpl. by rewrite insert_insert_eq. }
  assert (En : pnodes s2 = pnodes s) by done. rewrite <- En in Hi.
  destruct (test_bit PAGE_HIGHMEM _); rewrite (on_pnodes_run _ _ n) by done; by rewrite E2.
Qed.

(** The flags that only [add_free_pages] writes. *)
Definition same_kind (p p' : page) : Prop :=
  test_bit PAGE_VALID (flags p') = test_bit PAGE_VALID (flags p) /\
  test_bit PAGE_HIGHMEM (flags p') = test_bit PAGE_HIGHMEM (flags p).

Lemma same_kind_order p o : same_kind p (with_order p o).
Proof. done. Qed.

Lemma same_kind_freed p o : same_kind p (freed p o).
Proof. split; unfold freed, with_order, with_flags; cbn [flags]; by rewrite test_set_bit. Qed.

Lemma same_kind_clear p : same_kind p (with_flags p (clear_bit PAGE_FREE (flags p))).
Proof. split; unfold with_flags; cbn [flags]; by rewrite test_clear_bit. Qed.

#[export] Hint Resolve same_kind_order same_kind_freed same_kind_clear : kern.

Lemma same_kind_upd s i p n v :
  same_kind (pg s i) p ->
  forall q, same_kind (pg s q) (pg (PMem (<[i := p]> (pages s)) n v) q).
Proof.
  intros Hk q. change (pg (PMem _ n v) q) with (pg (upd_page i p s) q).
  rewrite pg_upd. case_decide; [by subst q|done].
Qed.

Lemma valid_same s s' :
  (forall q, same_kind (pg s q) (pg s' q)) -> forall p, valid s p <-> valid s' p.
Proof. intros Hk p. unfold valid. by rewrite (proj1 (Hk p)). Qed.

(** Rebuilding the invariant after writes that keep the kind of pages. *)
Lemma pinv_change D x x' s s' a a' :
  pinv_on D x s a -> (forall q, same_kind (pg s q) (pg s' q)) ->
  tiling PAGE_MAX_ORDER D a' ->
  (forall h o f, a' !! h = Some (o, f) -> order (pg s' h) = o) ->
  (forall h o f, a' !! h = Some (o, f) -> x' <> Some h -> test_bit PAGE_FREE (flags (pg s' h)) = f) ->
  lists_ok PAGE_MAX_ORDER (pnodes s') a' ->
  pinv_on D x' s' a'.
Proof.
  intros K Hk T Ho Hf Hl. split; [done..| |done].
  intros p Hp. rewrite (proj2 (Hk p)). apply K. by apply (valid_same s s').
Qed.

(** The invariant with the set [D] of managed pages fixed, and a frame: the
    pages in [Fr] (pages some other component owns) and the list heads of
    the slab caches are as they were in the state [s0]. *)
Section Run.
Context (D Fr : Z -> Prop) (s0 : pmem).

Definition node_framed (c : ploc) : Prop :=
  match c with
  | PageNode q => Fr q
  | SlabsFull _ | SlabsPartial _ => True
  | HighmemFreeList _ | FreeList _ => False
  end.

Definition pframe (s s' : pmem) : Prop :=
  (forall q, Fr q -> pg s' q = pg s q) /\
  (forall c, node_framed c -> nd (pnodes s') c = nd (pnodes s) c).

Lemma pframe_trans s s' s'' : pframe s s' -> pframe s' s'' -> pframe s s''.
Proof.
  intros [H1 H2] [H3 H4]. split; intros; [rewrite H3, H1|rewrite H4, H2]; done.
Qed.

(** No framed page lies in a free block or in the one being worked on. *)
Definition avoids (x : option Z) (a : blockmap) : Prop :=
  forall q h o f, Fr q -> a !! h = Some (o, f) -> inside q h o -> f = false /\ x <> Some h.

Record pst (x : option Z) (s : pmem) (a : blockmap) : Prop := PSt {
  ps_inv : pinv_on D x s a;
  ps_valid : forall p, D p <-> valid s p;
  ps_frame : pframe s0 s;
  ps_avoids : avoids x a
}.

Lemma pst_at x s a : pst x s a -> pinv_at x s a.
Proof.
  intros K. split; [|apply K..]. eapply tiling_ext; [apply K|apply K].
Qed.

Lemma pst_change x x' s s' a a' :
  pst x s a -> (forall q, same_kind (pg s q) (pg s' q)) ->
  tiling PAGE_MAX_ORDER D a' ->
  (forall h o f, a' !! h = Some (o, f) -> order (pg s' h) = o) ->
  (forall h o f, a' !! h = Some (o, f) -> x' <> Some h -> test_bit PAGE_FREE (flags (pg s' h)) = f) ->
  lists_ok PAGE_MAX_ORDER (pnodes s') a' ->
  pframe s s' -> avoids x' a' ->
  pst x' s' a'.
Proof.
  intros K Hk T Ho Hf Hl Hfr Hav. split; [eapply pinv_change; [apply K|done..]| |..|done].
  - intros p. rewrite (ps_valid _ _ _ K). by apply valid_same.
  - eapply pframe_trans; [apply K|done].
Qed.

Lemma pst_in_pages x s a h o f :
  pst x s a -> a !! h = Some (o, f) -> 0 <= h < TOTAL_PAGES.
Proof. intros K E. apply (ps_valid _ _ _ K h). eapply tiling_head_managed; [apply K|done]. Qed.

Lemma pst_head x s a h o f :
  pst x s a -> a !! h = Some (o, f) ->
  order (pg s h) = o /\ 0 <= o <= PAGE_MAX_ORDER /\ aligned h o /\ 0 <= h < TOTAL_PAGES /\ valid s h.
Proof.
  intros K E. destruct (tl_wf _ _ _ (pi_tile _ _ _ _ (ps_inv _ _ _ K)) _ _ _ E) as (? & ? & ?).
  split_and!; [by apply (pi_order _ _ _ _ (ps_inv _ _ _ K) _ _ f)|lia|lia|done| | |].
  - lia.
  - by eapply pst_in_pages.
  - apply (ps_valid _ _ _ K). eapply tiling_head_managed; [apply K|done].
Qed.

(** A write to the first descriptor of a block that is free or worked on,
    and a list operation on it, keep the frame. *)
Lemma pst_unframed x s a h o f p :
  pst x s a -> a !! h = Some (o, f) -> f = true \/ x = Some h -> inside p h o -> ~ Fr p.
Proof.
  intros K E Hf Hi Hc. destruct (ps_avoids _ _ _ K p h o f Hc E Hi) as [-> ?].
  by destruct Hf.
Qed.

Lemma pst_unframed_head x s a h o f :
  pst x s a -> a !! h = Some (o, f) -> f = true \/ x = Some h -> ~ Fr h.
Proof.
  intros K E Hf. eapply pst_unframed; [done..|].
  destruct (pst_head _ _ _ _ _ _ K E) as (_ & Ho & _). unfold inside.
  pose proof (pow2_pos o). lia.
Qed.

Lemma pframe_page h p s : ~ Fr h -> pframe s (upd_page h p s).
Proof.
  intros Hh. split; [|done]. intros q Hq. rewrite pg_upd, decide_False; [done|]. by intros ->.
Qed.

Lemma pframe_nodes x s0' a s h n v :
  pst x s0' a -> ~ Fr h -> lists_frame a h (pnodes s) n -> pframe s (PMem (pages s) n v).
Proof.
  intros K Hh Hl. split; [done|]. intros c Hc. apply Hl.
  - intros z k ->. by destruct z.
  - by intros ->.
  - intros y k Ey ->. revert Hc. by apply (pst_unframed_head _ _ _ _ _ _ K Ey); left.
Qed.

Lemma pframe_put s h p n v :
  ~ Fr h -> pframe s (PMem (pages s) n v) -> pframe s (PMem (<[h := p]> (pages s)) n v).
Proof.
  intros Hh Hn. eapply pframe_trans; [apply (pframe_page h p s Hh)|]. split; [done|apply Hn].
Qed.

(** The list that [free_page] chooses is the one of the page's zone. *)
Lemma free_page_zone x s a h o n :
  pst x s a -> valid s h ->
  list_insert (fl_head (fl_zone h) o) (fl_node h) (pnodes s) = Ret n ->
  free_page h o s = Ret (tt, PMem (<[h := freed (pg s h) o]> (pages s)) n (page_lock s)).
Proof.
  intros K Hv Hi. apply free_page_run; [apply Hv|].
  by rewrite (pi_zone _ _ _ _ (ps_inv _ _ _ K) h Hv).
Qed.

Lemma pg_put s i p n v j :
  pg (PMem (<[i := p]> (pages s)) n v) j = if decide (i = j) then p else pg s j.
Proof. apply (pg_upd i p s). Qed.

Lemma freed_free p o : test_bit PAGE_FREE (flags (freed p o)) = true.
Proof. unfold freed. cbn [with_order with_flags flags]. by rewrite test_set_bit. Qed.

(** ** Allocation *)

Lemma avoids_split a h k :
  avoids (Some h) a -> a !! h = Some (k + 1, false) -> 0 <= k ->
  avoids (Some h) (split_block h k false a).
Proof.
  intros Hav E Hk q h' o f Hq. pose proof (pow2_succ k Hk). pose proof (pow2_pos k Hk).
  assert (Hin : inside q h (k + 1) -> False).
  { intros Hi. by destruct (Hav q h _ _ Hq E Hi). }
  unfold split_block, inside in *.
  intros [[<- [= <- <-]]|[N1 [[<- [= <- <-]]|[N2 E']]%lookup_insert_Some]]%lookup_insert_Some Hi.
  - exfalso. apply Hin. lia.
  - exfalso. apply Hin. lia.
  - by apply (Hav q h' o f).
Qed.

(** One iteration of the split loop. *)
Lemma pages_split_step fuel s a h k ord :
  pst (Some h) s a -> a !! h = Some (k + 1, false) -> 0 <= ord <= k -> k < PAGE_MAX_ORDER ->
  exists s', pages_split (S fuel) h ord s = pages_split fuel h ord s' /\
             pst (Some h) s' (split_block h k false a).
Proof.
  intros K E Ho Hk. destruct (pst_head _ _ _ _ _ _ K E) as (Eo & _ & Ha & Hh & _).
  pose proof (ps_inv _ _ _ K) as KI.
  destruct (tiling_split a h k false (pi_tile _ _ _ _ KI)) as [En T']; [lia|done|].
  pose proof (pow2_pos k ltac:(lia)) as Hp. set (b := h + 2 ^ k).
  assert (Hib : inside b h (k + 1)) by (unfold inside, b; rewrite pow2_succ by lia; lia).
  assert (Hb : valid s b).
  { apply (ps_valid _ _ _ K), (tl_cover _ _ _ (pi_tile _ _ _ _ KI)). exists h, (k + 1), false. done. }
  set (s1 := upd_page h (with_order (pg s h) k) s).
  assert (Hext : forall h' o, <[h := (k, false)]> a !! h' = Some (o, true) <-> a !! h' = Some (o, true)).
  { intros h' o. rewrite lookup_insert. case_decide; naive_solver. }
  destruct (lists_ok_push PAGE_MAX_ORDER (pnodes s1) (<[h := (k, false)]> a) b k) as (n & Ei & Hl & Hfr).
  { apply (lists_ok_ext _ _ a); [done|apply KI]. }
  { lia. }
  { intros o'. rewrite Hext. unfold b. by rewrite En. }
  assert (Ek : forall q, same_kind (pg s q) (pg s1 q)).
  { apply (same_kind_upd s h). auto with kern. }
  assert (Hbf : free_page b k s1 = Ret (tt, PMem (<[b := freed (pg s1 b) k]> (pages s1)) n (page_lock s1))).
  { apply free_page_run; [apply Hb|]. rewrite (proj2 (Ek b)).
    by rewrite (pi_zone _ _ _ _ KI b Hb). }
  exists (PMem (<[b := freed (pg s1 b) k]> (pages s1)) n (page_lock s1)). split.
  - cbn [pages_split]. rewrite (M_bind_run _ _ _ _ _ (get_page_run _ _ Hh)), Eo. if_true.
    rewrite (M_bind_run _ _ _ _ _ (page_set_order_run _ _ _ Hh)).
    replace (k + 1 - 1) with k by lia. fold s1.
    assert (E1 : order (pg s1 h) = k) by (unfold s1; by rewrite pg_upd, decide_True).
    assert (Eb : page_buddy h s1 = Ret (b, s1)).
    { unfold page_buddy. rewrite (M_bind_run _ _ _ _ _ (get_page_run _ _ Hh)), E1.
      unfold page_to_pfn. by rewrite buddy_split by (done || lia). }
    rewrite (M_bind_run _ _ _ _ _ Eb), (M_bind_run _ _ _ _ _ (get_page_run _ _ (proj1 Hb))).
    rewrite (proj1 (Ek b)), (proj2 Hb).
    rewrite (M_bind_run _ _ s1 s1 tt) by done.
    rewrite (M_bind_run _ _ _ _ _ (get_page_run _ _ Hh)), E1.
    by rewrite (M_bind_run _ _ _ _ _ Hbf).
  - eapply (pst_change _ _ s); [done| |done| | |done| |].
    + intros q. rewrite pg_put. case_decide; [subst q|apply Ek].
      unfold s1. rewrite pg_upd, decide_False by (unfold b; lia). auto with kern.
    + intros h' o f. unfold split_block. fold b.
      intros [[<- [= <- <-]]|[N1 [[<- [= <- <-]]|[N2 E']]%lookup_insert_Some]]%lookup_insert_Some;
        rewrite pg_put.
      * by rewrite decide_True.
      * rewrite decide_False by done. unfold s1. by rewrite pg_upd, decide_True.
      * rewrite decide_False by done. unfold s1. rewrite pg_upd, decide_False by done.
        by apply (pi_order _ _ _ _ KI _ _ f).
    + intros h' o f. unfold split_block. fold b.
      intros [[<- [= <- <-]]|[N1 [[<- [= <- <-]]|[N2 E']]%lookup_insert_Some]]%lookup_insert_Some Hx;
        rewrite pg_put.
      * rewrite decide_True by done. apply freed_free.
      * congruence.
      * rewrite decide_False by done. unfold s1. rewrite pg_upd, decide_False by done.
        by apply (pi_free _ _ _ _ KI _ o).
    + assert (Hnb : ~ Fr b) by (eapply pst_unframed; [exact K|exact E|by right|done]).
      eapply pframe_trans; [apply (pframe_page h)|apply pframe_put; [done|]].
      * eapply pst_unframed_head; [exact K|exact E|by right].
      * eapply (pframe_nodes _ s a s1); [exact K|done|].
        intros c H1 H2 H3. apply Hfr; [done..|]. intros y k' Ey. apply Hext in Ey. eauto.
    + apply avoids_split; [apply K|done|lia].
Qed.

Lemma pages_split_run n fuel s a h ord :
  pst (Some h) s a -> a !! h = Some (ord + Z.of_nat n, false) -> 0 <= ord ->
  ord + Z.of_nat n <= PAGE_MAX_ORDER -> (n < fuel)%nat ->
  exists s', pages_split fuel h ord s = Ret (tt, s') /\
             pst (Some h) s' (carve n h ord a) /\
             carve n h ord a !! h = Some (ord, false).
Proof.
  revert fuel s a. induction n as [|n IH]; intros fuel s a K E Ho Hm Hf;
    (destruct fuel as [|fuel]; [lia|]).
  - exists s. rewrite Z.add_0_r in E. split; [|done].
    destruct (pst_head _ _ _ _ _ _ K E) as (Eo & _ & _ & Hh & _).
    cbn [pages_split]. rewrite (M_bind_run _ _ _ _ _ (get_page_run _ _ Hh)), Eo. by if_false.
  - destruct (pages_split_step fuel s a h (ord + Z.of_nat n) ord) as (s1 & -> & K1);
      [done|by replace (ord + Z.of_nat n + 1) with (ord + Z.of_nat (S n)) by lia|lia|lia|].
    apply (IH fuel s1 (split_block h (ord + Z.of_nat n) false a)); [done| |lia|lia|lia].
    unfold split_block. pose proof (pow2_pos (ord + Z.of_nat n) ltac:(lia)).
    by rewrite lookup_insert_ne, lookup_insert_eq by lia.
Qed.

(** Taking a free block off its list. *)
Lemma pages_unlink s a h o n :
  pst None s a -> a !! h = Some (o, true) ->
  lists_ok PAGE_MAX_ORDER n (<[h := (o, false)]> a) -> lists_frame a h (pnodes s) n ->
  pst (Some h) (PMem (pages s) n (page_lock s)) (<[h := (o, false)]> a).
Proof.
  intros K E Hl Hfr. pose proof (ps_inv _ _ _ K) as KI.
  eapply (pst_change _ _ s); [done|done| | | |done| |].
  - eapply tiling_status; [apply KI|done].
  - intros h' o' f' [[<- [= <- <-]]|[N E']]%lookup_insert_Some; rewrite pg_nodes;
      by eapply (pi_order _ _ _ _ KI).
  - intros h' o' f' [[<- [= <- <-]]|[N E']]%lookup_insert_Some Hx; rewrite pg_nodes; [congruence|].
    by eapply (pi_free _ _ _ _ KI).
  - eapply pframe_nodes; [done| |done]. eapply pst_unframed_head; [done..|by left].
  - intros q h' o' f' Hq [[<- [= <- <-]]|[N E']]%lookup_insert_Some Hi.
    + exfalso. by destruct (ps_avoids _ _ _ K q h o true Hq E Hi).
    + split; [by apply (ps_avoids _ _ _ K q h' o' f')|congruence].
Qed.

(** [clear_bit(PAGE_FREE)] and [spin_unlock] settle the block. *)
Lemma pages_settle s a h o v :
  pst (Some h) s a -> a !! h = Some (o, false) ->
  pst None (PMem (<[h := with_flags (pg s h) (clear_bit PAGE_FREE (flags (pg s h)))]> (pages s))
                (pnodes s) v) a.
Proof.
  intros K E. pose proof (ps_inv _ _ _ K) as KI.
  eapply (pst_change _ _ s); [done| |apply KI| | |apply KI| |].
  - apply same_kind_upd. auto with kern.
  - intros h' o' f' E'. rewrite pg_put. case_decide as Hd; [subst h'|];
      by eapply (pi_order _ _ _ _ KI).
  - intros h' o' f' E' _. rewrite pg_put. case_decide as Hd.
    + subst h'. rewrite E in E'. injection E' as <- <-. cbn [with_flags flags].
      by rewrite test_clear_bit.
    + eapply (pi_free _ _ _ _ KI); [done|congruence].
  - apply pframe_put; [|done]. by eapply pst_unframed_head; [done..|by right].
  - intros q h' o' f' Hq E' Hi. split; [|done]. by apply (ps_avoids _ _ _ K q h' o' f').
Qed.

Definition wanted (gfp_mask : Z) (h : Z) : Prop :=
  in_highmem h = negb (Z.land gfp_mask GFP_HIGHMEM =? 0).

Lemma get_free_list_head gfp_mask o :
  get_free_list gfp_mask o = fl_head (negb (Z.land gfp_mask GFP_HIGHMEM =? 0)) o.
Proof. unfold get_free_list. by destruct (_ =? 0). Qed.

(** The body of the scan once a list is found not to be empty. *)
Lemma pages_take s a h i ord n :
  pst None s a -> a !! h = Some (i, true) -> 0 <= ord <= i ->
  lists_ok PAGE_MAX_ORDER n (<[h := (i, false)]> a) -> lists_frame a h (pnodes s) n ->
  exists s2, pages_split 11 h ord (PMem (pages s) n (page_lock s)) = Ret (tt, s2) /\
    page_clear_bit PAGE_FREE h s2 =
      Ret (tt, upd_page h (with_flags (pg s2 h) (clear_bit PAGE_FREE (flags (pg s2 h)))) s2) /\
    pst None (PMem (pages (upd_page h (with_flags (pg s2 h) (clear_bit PAGE_FREE (flags (pg s2 h)))) s2))
                  (pnodes s2) 0) (carve (Z.to_nat (i - ord)) h ord (<[h := (i, false)]> a)).
Proof.
  intros K E Ho Hl Hfr. destruct (pst_head _ _ _ _ _ _ K E) as (_ & Hi & _ & Hh & _).
  pose proof (pages_unlink _ _ _ _ _ K E Hl Hfr) as K1.
  destruct (pages_split_run (Z.to_nat (i - ord)) 11 _ _ h ord K1) as (s2 & Es & K2 & E2).
  - rewrite lookup_insert_eq. do 2 f_equal. lia.
  - lia.
  - lia.
  - unfold PAGE_MAX_ORDER in *. lia.
  - exists s2. split; [done|]. split; [by apply page_clear_bit_run|]. by eapply pages_settle.
Qed.

Lemma pst_lock x s a v : pst x s a -> pst x (PMem (pages s) (pnodes s) v) a.
Proof. intros K. by eapply (pst_change _ _ s); [done|done|apply K..|done|apply K]. Qed.

Lemma pages_scan_run m fuel s a gfp i ord :
  pst None s a -> 0 <= ord <= i -> i + Z.of_nat m = PAGE_MAX_ORDER + 1 -> (m < fuel)%nat ->
  (forall h k, a !! h = Some (k, true) -> wanted gfp h -> ord <= k -> i <= k) ->
  exists r s' a', pages_scan fuel gfp i ord s = Ret (r, s') /\
    alloc_spec (wanted gfp) ord a r a' /\ pst None s' a' /\ page_lock s' = 0.
Proof.
  revert fuel i. induction m as [|m IH]; intros fuel i K Ho Hm Hf Hmin;
    (destruct fuel as [|fuel]; [lia|]); cbn [pages_scan]; pose proof (ps_inv _ _ _ K) as KI.
  - if_false. exists None, (PMem (pages s) (pnodes s) 0), a. split; [done|]. split.
    + apply alloc_none. intros h k E Hw. destruct (Z.lt_ge_cases k ord); [done|].
      specialize (Hmin h k E Hw ltac:(lia)).
      destruct (pst_head _ _ _ _ _ _ K E) as (_ & ? & _). lia.
    + split; [|done]. by apply pst_lock.
  - if_true. rewrite (M_bind_run _ _ _ s s) by done. rewrite get_free_list_head.
    set (z := negb (Z.land gfp GFP_HIGHMEM =? 0)).
    destruct (list_empty (fl_head z i) (pnodes s)) eqn:Ee.
    + apply (IH fuel (i + 1)); [done|lia|lia|lia|].
      intros h k E Hw Hk. specialize (Hmin h k E Hw Hk).
      destruct (Z.eq_dec k i) as [->|]; [|lia]. exfalso.
      by apply (lists_ok_empty PAGE_MAX_ORDER (pnodes s) a z i (pi_lists _ _ _ _ KI)
        ltac:(lia) Ee h E).
    + destruct (lists_ok_first PAGE_MAX_ORDER (pnodes s) a z i (pi_lists _ _ _ _ KI))
        as (h & En & E & Hz); [lia|done|]. rewrite En.
      destruct (lists_ok_remove PAGE_MAX_ORDER (pnodes s) a h i (pi_lists _ _ _ _ KI))
        as (n & Er & Hl & Hfr); [lia|done|].
      destruct (pages_take s a h i ord n K E ltac:(lia) Hl Hfr) as (s2 & Es & Ec & K2).
      eexists (Some h), _, _. split; [|split; [|split; [exact K2|done]]].
      * rewrite (M_bind_run _ _ s s h) by done.
        rewrite (M_bind_run _ _ _ _ _ (on_pnodes_run _ s n Er)).
        destruct (pst_head _ _ _ _ _ _ K E) as (Eo & _ & _ & Hh & _).
        rewrite (M_bind_run _ _ _ _ _ (get_page_run _ _ Hh)), pg_nodes, Eo, Z.eqb_refl.
        rewrite (M_bind_run _ _ (PMem (pages s) n (page_lock s)) (PMem (pages s) n (page_lock s)) tt) by done.
        by rewrite (M_bind_run _ _ _ _ _ Es), (M_bind_run _ _ _ _ _ Ec).
      * apply alloc_some; [done|by unfold wanted; fold z|lia|]. intros; by apply Hmin with h'.
Qed.

(** ** Freeing *)

Lemma page_buddy_run s h :
  0 <= h < TOTAL_PAGES -> page_buddy h s = Ret (buddy h (order (pg s h)), s).
Proof.
  intros Hh. unfold page_buddy. by rewrite (M_bind_run _ _ _ _ _ (get_page_run _ _ Hh)).
Qed.

(** The guard of the merge loop decides whether the buddy is a free block:
    a page that was never added has its PAGE_VALID flag clear. *)
Lemma buddy_guard s a h o :
  pst (Some h) s a -> a !! h = Some (o, false) -> o < PAGE_MAX_ORDER ->
  0 <= buddy h o < TOTAL_PAGES /\
  (negb (test_bit PAGE_VALID (flags (pg s (buddy h o)))) ||
   negb (test_bit PAGE_FREE (flags (pg s (buddy h o)))) = false <->
   exists o', a !! buddy h o = Some (o', true)).
Proof.
  intros K E Ho. destruct (pst_head _ _ _ _ _ _ K E) as (_ & Ho' & Ha & Hh & _).
  pose proof (ps_inv _ _ _ K) as KI.
  assert (Hb : 0 <= buddy h o < TOTAL_PAGES).
  { apply (buddy_range 20); [exact Hh|done|unfold PAGE_MAX_ORDER in *; lia]. }
  split; [done|]. rewrite orb_false_iff, !negb_false_iff.
  assert (Hne : Some h <> Some (buddy h o)) by (intros [= Hc]; by apply (buddy_ne h o); [lia| |]).
  split.
  - intros [Hv Hf]. destruct (tiling_buddy a h o false (pi_tile _ _ _ _ KI) E) as (o' & f' & E' & _).
    { apply (ps_valid _ _ _ K). by split. }
    exists o'. by rewrite E', <- (pi_free _ _ _ _ KI _ _ _ E' Hne), Hf.
  - intros [o' E']. split; [|by apply (pi_free _ _ _ _ KI _ _ _ E' Hne)].
    by destruct (pst_head _ _ _ _ _ _ K E') as (_ & _ & _ & _ & [_ ?]).
Qed.

Lemma avoids_merge a h o :
  avoids (Some h) a -> a !! h = Some (o, false) -> a !! buddy h o = Some (o, true) ->
  0 <= o -> aligned h o -> avoids (Some (Z.min h (buddy h o))) (merge_block h o false a).
Proof.
  intros Hav E Eb Ho Ha q h' o' f Hq. unfold merge_block.
  assert (Hn1 : ~ inside q h o) by (intros Hi; by destruct (Hav q h _ _ Hq E Hi)).
  assert (Hn2 : ~ inside q (buddy h o) o) by (intros Hi; by destruct (Hav q _ _ _ Hq Eb Hi)).
  intros [[<- [= <- <-]]|[N [N2 E']%lookup_delete_Some]]%lookup_insert_Some Hi.
  - exfalso. unfold inside in *. rewrite pow2_succ in Hi by done. pose proof (pow2_pos o Ho).
    destruct (buddy_cases h o Ho Ha) as [[_ Eq]|[_ Eq]]; rewrite Eq in *; lia.
  - split; [by apply (Hav q h' o' f)|congruence].
Qed.

Lemma pages_merge_step fuel s a h o :
  pst (Some h) s a -> a !! h = Some (o, false) -> o < PAGE_MAX_ORDER ->
  a !! buddy h o = Some (o, true) ->
  exists s', pages_merge (S fuel) h s = pages_merge fuel (Z.min h (buddy h o)) s' /\
             pst (Some (Z.min h (buddy h o))) s' (merge_block h o false a).
Proof.
  intros K E Ho Eb. destruct (pst_head _ _ _ _ _ _ K E) as (Eo & Ho' & Ha & Hh & _).
  destruct (pst_head _ _ _ _ _ _ K Eb) as (Eob & _ & _ & Hb & _).
  destruct (buddy_guard _ _ _ _ K E Ho) as [_ Hg]. pose proof (ps_inv _ _ _ K) as KI.
  pose proof (avoids_merge a h o (ps_avoids _ _ _ K) E Eb ltac:(lia) Ha) as Hav'.
  set (b := buddy h o) in *. set (m := Z.min h b) in *.
  assert (Hne : b <> h) by (apply buddy_ne; [lia|done]).
  destruct (lists_ok_remove PAGE_MAX_ORDER (pnodes s) a b o (pi_lists _ _ _ _ KI))
    as (n & Er & Hl & Hfr); [lia|done|].
  assert (Hm : 0 <= m < TOTAL_PAGES /\ order (pg s m) = o /\ ~ Fr m).
  { unfold m. destruct (Z.min_spec h b) as [[_ ->]|[_ ->]]; (split; [done|split; [done|]]);
      eapply pst_unframed_head; eauto. }
  destruct Hm as (Hm & Hom & Hmf). set (s1 := PMem (pages s) n (page_lock s)).
  exists (upd_page m (with_order (pg s1 m) (o + 1)) s1). split.
  - cbn [pages_merge]. rewrite (M_bind_run _ _ _ _ _ (get_page_run _ _ Hh)), Eo. if_true.
    rewrite (M_bind_run _ _ _ _ _ (page_buddy_run _ _ Hh)), Eo. fold b.
    rewrite (M_bind_run _ _ _ _ _ (get_page_run _ _ Hb)), (proj2 Hg) by eauto.
    rewrite (M_bind_run _ _ _ _ _ (on_pnodes_run _ s n Er)). fold s1.
    assert (Em : (if b <? h then b else h) = m) by (unfold m; destruct (Z.ltb_spec b h); lia).
    rewrite Em. rewrite (M_bind_run _ _ _ _ _ (get_page_run _ _ Hm)).
    change (order (pg s1 m)) with (order (pg s m)). rewrite Hom.
    by rewrite (M_bind_run _ _ _ _ _ (page_set_order_run _ _ _ Hm)).
  - assert (Hmx : forall x o0 f0, x <> m -> merge_block h o false a !! x = Some (o0, f0) ->
               a !! x = Some (o0, f0) /\ x <> h /\ x <> b).
    { intros x o0 f0 Hx. unfold merge_block. fold b m. rewrite lookup_insert_ne by congruence.
      intros [Hd ?]%lookup_delete_Some. split_and!; [done|unfold m in *; lia..]. }
    eapply (pst_change _ _ s); [done| | | | | | |done].
    + apply (same_kind_upd s m). auto with kern.
    + eapply tiling_merge; [apply KI|done|exact Eb|done].
    + intros x o0 f0 Ex. rewrite pg_upd. case_decide as Hd.
      * subst x. unfold merge_block in Ex. fold b m in Ex. rewrite lookup_insert_eq in Ex. by injection Ex.
      * destruct (Hmx x o0 f0) as (Ea & _ & _); [congruence|done|].
        by apply (pi_order _ _ _ _ KI _ _ f0).
    + intros x o0 f0 Ex Hx. rewrite pg_upd, decide_False by congruence.
      destruct (Hmx x o0 f0) as (Ea & ? & _); [congruence|done|].
      apply (pi_free _ _ _ _ KI _ o0); [done|congruence].
    + by apply lists_ok_merge.
    + eapply pframe_trans; [|by apply pframe_page]. eapply pframe_nodes; [exact K| |done].
      eapply pst_unframed_head; [exact K|exact Eb|by left].
Qed.

Lemma pages_merge_run h o a h' o' a' :
  merges PAGE_MAX_ORDER h o a h' o' a' ->
  forall fuel s, pst (Some h) s a -> a !! h = Some (o, false) ->
  (Z.to_nat (PAGE_MAX_ORDER - o) < fuel)%nat ->
  exists s', pages_merge fuel h s = Ret (h', s') /\ pst (Some h') s' a' /\
             a' !! h' = Some (o', false).
Proof.
  induction 1 as [h a|h o a Hstop Hlt|h o a h' o' a' Hlt Eb Hm IH]; intros fuel s K E Hf;
    (destruct fuel as [|fuel]; [lia|]);
    destruct (pst_head _ _ _ _ _ _ K E) as (Eo & _ & _ & Hh & _).
  - exists s. split; [|done]. cbn [pages_merge].
    by rewrite (M_bind_run _ _ _ _ _ (get_page_run _ _ Hh)), Eo, Z.ltb_irrefl.
  - exists s. split; [|done]. destruct (buddy_guard _ _ _ _ K E Hlt) as [Hb Hg].
    cbn [pages_merge]. rewrite (M_bind_run _ _ _ _ _ (get_page_run _ _ Hh)), Eo. if_true.
    rewrite (M_bind_run _ _ _ _ _ (page_buddy_run _ _ Hh)), Eo.
    rewrite (M_bind_run _ _ _ _ _ (get_page_run _ _ Hb)).
    destruct (_ || _); [done|]. exfalso. destruct (proj1 Hg eq_refl) as [o' E']. by eapply Hstop.
  - destruct (pages_merge_step fuel s a h o) as (s1 & -> & K1); [done..|].
    apply IH; [done| |lia]. unfold merge_block. by rewrite lookup_insert_eq.
Qed.

(** A live block none of whose pages is framed can be worked on. *)
Lemma pst_grab s a h o :
  pst None s a -> a !! h = Some (o, false) -> (forall q, inside q h o -> ~ Fr q) -> pst (Some h) s a.
Proof.
  intros K E Hn. pose proof (ps_inv _ _ _ K) as KI.
  eapply (pst_change _ _ s); [done|done|apply KI..| |apply KI|done|].
  - intros x k f Ex _. by apply (pi_free _ _ _ _ KI _ k).
  - intros q x k f Hq Ex Hi. split; [by apply (ps_avoids _ _ _ K q x k f)|].
    intros [= ->]. rewrite E in Ex. injection Ex as <- <-. by apply (Hn q).
Qed.

(** Putting a block on its free list. *)
Lemma free_page_block s a h o :
  pst (Some h) s a -> a !! h = Some (o, false) ->
  exists s', free_page h o s = Ret (tt, s') /\ pst None s' (<[h := (o, true)]> a).
Proof.
  intros K E. destruct (pst_head _ _ _ _ _ _ K E) as (_ & Ho & _ & Hh & Hv).
  pose proof (ps_inv _ _ _ K) as KI.
  assert (Hnh : ~ Fr h) by (eapply pst_unframed_head; [exact K|exact E|by right]).
  destruct (lists_ok_push PAGE_MAX_ORDER (pnodes s) a h o (pi_lists _ _ _ _ KI) Ho)
    as (n & Ei & Hl & Hfr); [intros o0; by rewrite E|].
  eexists. split; [by eapply free_page_zone|].
  eapply (pst_change _ _ s); [done| | | | |done| |].
  - apply same_kind_upd. auto with kern.
  - by eapply tiling_status; [apply KI|].
  - intros x o0 f0 [[<- [= <- <-]]|[N Ex]]%lookup_insert_Some; rewrite pg_put.
    + by rewrite decide_True.
    + rewrite decide_False by done. by apply (pi_order _ _ _ _ KI _ _ f0).
  - intros x o0 f0 [[<- [= <- <-]]|[N Ex]]%lookup_insert_Some _; rewrite pg_put.
    + rewrite decide_True by done. apply freed_free.
    + rewrite decide_False by done. apply (pi_free _ _ _ _ KI _ o0); [done|congruence].
  - apply pframe_put; [done|]. by eapply pframe_nodes.
  - intros q x k f Hq [[<- [= <- <-]]|[N Ex]]%lookup_insert_Some Hi.
    + exfalso. by destruct (ps_avoids _ _ _ K q h o false Hq E Hi).
    + split; [by apply (ps_avoids _ _ _ K q x k f)|done].
Qed.
End Run.

Arguments node_framed : simpl never.

Lemma lock_pages_run s : page_lock s = 0 -> lock_pages s = Ret (tt, PMem (pages s) (pnodes s) 1).
Proof. intros E. unfold lock_pages, spin_lock. by rewrite E. Qed.

(** Pages in live blocks. *)
Definition live_page (a : blockmap) (q : Z) : Prop :=
  exists h o, a !! h = Some (o, false) /\ inside q h o.

Lemma live_avoids s a (Fr : Z -> Prop) :
  pinv s a -> (forall q, Fr q -> live_page a q) -> avoids Fr None a.
Proof.
  intros [K _] HF q h o f Hq E Hi. split; [|done]. destruct (HF q Hq) as (h' & o' & E' & Hi').
  destruct (decide (h = h')) as [->|Hne]; [congruence|].
  destruct (tl_disj _ _ _ (pi_tile _ _ _ _ K) _ _ _ _ _ _ E E' Hne); unfold inside in *; lia.
Qed.

Lemma pinv_pst s a Fr :
  pinv s a -> (forall q, Fr q -> live_page a q) -> pst (valid s) Fr s None s a.
Proof. intros K HF. split; [apply K|done|done|by eapply live_avoids]. Qed.

(** Running [alloc_pages]; pages that are live keep their descriptors and
    their nodes. *)
Lemma alloc_pages_run s a gfp ord :
  pinv s a -> 0 <= ord <= PAGE_MAX_ORDER ->
  exists r s' a', alloc_pages gfp ord s = Ret (r, s') /\
    alloc_spec (wanted gfp) ord a r a' /\ pinv s' a' /\ (forall p, valid s' p <-> valid s p) /\
    pframe (live_page a) s s'.
Proof.
  intros K Ho. unfold alloc_pages. if_false.
  rewrite (M_bind_run _ _ _ _ _ (lock_pages_run s (proj2 K))).
  destruct (pages_scan_run (valid s) (live_page a) s (Z.to_nat (PAGE_MAX_ORDER + 1 - ord)) 12
    (PMem (pages s) (pnodes s) 1) a gfp ord ord) as (r & s' & a' & E & Hs & K' & L).
  - apply pst_lock. by apply pinv_pst.
  - lia.
  - lia.
  - unfold PAGE_MAX_ORDER in *. lia.
  - intros; lia.
  - exists r, s', a'. split_and!; [done|done|split; [by eapply pst_at|done]| |apply K'].
    intros p. symmetry. apply (ps_valid _ _ _ _ _ _ K').
Qed.

(** For every order: NULL means that no free block of the zone is large
    enough, and the live blocks grow by the returned one. *)
Lemma alloc_pages_total s a gfp ord :
  pinv s a -> 0 <= ord ->
  exists r s' a', alloc_pages gfp ord s = Ret (r, s') /\ pinv s' a' /\
    (r = None -> forall h k, a !! h = Some (k, true) -> wanted gfp h -> k < ord) /\
    forall h k, a' !! h = Some (k, false) <-> (r = Some h /\ k = ord) \/ a !! h = Some (k, false).
Proof.
  intros K Ho. destruct (Z.ltb_spec PAGE_MAX_ORDER ord) as [Hlt|Hge].
  - exists None, s, a. unfold alloc_pages. if_true. split_and!; [done..| |].
    + intros _ h k E _. pose proof (tl_wf _ _ _ (pi_tile _ _ _ _ (proj1 K)) _ _ _ E). lia.
    + intros h k. split; [by right|]. by intros [[? _]|?].
  - destruct (alloc_pages_run s a gfp ord K ltac:(lia)) as (r & s' & a' & E & Hs & K' & _).
    exists r, s', a'. split_and!; [done..| |].
    + intros ->. by inversion Hs.
    + eapply alloc_spec_live; [apply K|lia|done].
Qed.

(** Running [free_pages]; the other live pages are left alone. *)
Lemma free_pages_run s a h o h' o' a' :
  pinv s a -> a !! h = Some (o, false) -> merges PAGE_MAX_ORDER h o a h' o' a' ->
  exists s', free_pages h s = Ret (tt, s') /\ pinv s' (<[h' := (o', true)]> a') /\
    (forall p, valid s' p <-> valid s p) /\
    pframe (fun q => live_page a q /\ ~ inside q h o) s s'.
Proof.
  intros K E Hm. set (Fr := fun q => live_page a q /\ ~ inside q h o).
  assert (K0 : pst (valid s) Fr s None s a) by (apply pinv_pst; [done|by intros q [? _]]).
  destruct (pst_head _ _ _ _ _ _ _ _ _ K0 E) as (_ & Ho & _).
  destruct (pages_merge_run (valid s) Fr s _ _ _ _ _ _ Hm 11 (PMem (pages s) (pnodes s) 1))
    as (s1 & E1 & K1 & Ea'); [|done|unfold PAGE_MAX_ORDER in *; lia|].
  { apply pst_lock. eapply pst_grab; [done..|]. by intros q Hi [_ ?]. }
  destruct (pst_head _ _ _ _ _ _ _ _ _ K1 Ea') as (Eo' & _ & _ & Hh' & _).
  destruct (free_page_block _ _ _ _ _ _ _ K1 Ea') as (s2 & E2 & K2).
  apply (pst_lock _ _ _ _ _ _ 0) in K2.
  exists (PMem (pages s2) (pnodes s2) 0). split_and!.
  - unfold free_pages. rewrite (M_bind_run _ _ _ _ _ (lock_pages_run s (proj2 K))).
    rewrite (M_bind_run _ _ _ _ _ E1), (M_bind_run _ _ _ _ _ (get_page_run _ _ Hh')), Eo'.
    by rewrite (M_bind_run _ _ _ _ _ E2).
  - split; [|done]. eapply pst_at, K2.
  - intros p. symmetry. apply (ps_valid _ _ _ _ _ _ K2).
  - apply K2.
Qed.

(** ** Adding memory *)

Definition marked (highmem : bool) (p : page) : page :=
  let f := set_bit PAGE_VALID (flags p) in
  with_flags p (if highmem then set_bit PAGE_HIGHMEM f else f).

Lemma mark_one pfn (hm : bool) (s : pmem) :
  0 <= pfn < TOTAL_PAGES ->
  exists s', (_ ← page_set_bit PAGE_VALID (pfn_to_page pfn);
              if hm then page_set_bit PAGE_HIGHMEM (pfn_to_page pfn) else mret tt) s = Ret (tt, s') /\
    pnodes s' = pnodes s /\ page_lock s' = page_lock s /\
    forall q, pg s' q = if decide (pfn = q) then marked hm (pg s q) else pg s q.
Proof.
  intros Hp. rewrite (M_bind_run _ _ _ _ _ (page_set_bit_run _ _ _ Hp)). destruct hm.
  - eexists. split; [by apply page_set_bit_run|]. split_and!; [done..|].
    intros q. rewrite !pg_upd. unfold pfn_to_page.
    destruct (decide (pfn = q)) as [->|]; [|done]. by rewrite decide_True.
  - eexists. split; [done|]. split_and!; [done..|].
    intros q. rewrite pg_upd. unfold pfn_to_page. by destruct (decide (pfn = q)) as [->|].
Qed.

Lemma mark_pages_run n pfn (hm : bool) (s : pmem) :
  0 <= pfn -> pfn + Z.of_nat n <= TOTAL_PAGES ->
  exists s', mark_pages n pfn hm s = Ret (tt, s') /\
    pnodes s' = pnodes s /\ page_lock s' = page_lock s /\
    forall q, pg s' q = if decide (pfn <= q < pfn + Z.of_nat n) then marked hm (pg s q) else pg s q.
Proof.
  revert pfn s. induction n as [|n IH]; intros pfn s Hp Hn.
  - exists s. split_and!; [done..|]. intros q. rewrite decide_False by lia. done.
  - destruct (mark_one pfn hm s) as (s1 & E1 & N1 & L1 & P1); [lia|].
    destruct (IH (pfn + 1) s1) as (s2 & E2 & N2 & L2 & P2); [lia..|].
    exists s2. split_and!; [|congruence..|].
    + cbn [mark_pages]. rewrite <- E2. unfold mbind, M_bind in *.
      destruct (page_set_bit PAGE_VALID (pfn_to_page pfn) s) as [[[] s0]| | |]; [|done..].
      by rewrite E1.
    + intros q. rewrite P2, P1.
      destruct (decide (pfn = q)) as [->|Hne].
      * rewrite decide_False by lia. rewrite decide_True by lia. done.
      * destruct (decide (pfn + 1 <= q < pfn + 1 + Z.of_nat n));
          [rewrite decide_True by lia|rewrite decide_False by lia]; done.
Qed.

(** The state while memory is being added: everything outside [D] is not
    yet known to the allocator, and the live blocks stay as they are. *)
Record grows (D D' : Z -> Prop) (R : Z -> Prop) (s s' : pmem) (a a' : blockmap) : Prop := Grows {
  gr_inv : pinv_on D' None s' a';
  gr_kind : forall q, same_kind (pg s q) (pg s' q);
  gr_frame : forall q, ~ R q -> pg s' q = pg s q;
  gr_lock : page_lock s' = page_lock s;
  gr_live : forall h k, a' !! h = Some (k, false) <-> a !! h = Some (k, false)
}.

Lemma pinv_on_ext D D' x s a :
  (forall p, D p <-> D' p) -> pinv_on D x s a -> pinv_on D' x s a.
Proof. intros He K. split; [|apply K..]. eapply tiling_ext; [done|apply K]. Qed.

Lemma free_page_add D D' s a h o :
  pinv_on D None s a -> 0 <= h -> 0 <= o <= PAGE_MAX_ORDER -> aligned h o ->
  (forall p, inside p h o -> ~ D p) -> (forall p, D' p <-> D p \/ inside p h o) ->
  valid s h ->
  exists s', free_page h o s = Ret (tt, s') /\
    grows D D' (fun q => q = h) s s' a (<[h := (o, true)]> a).
Proof.
  intros K Hh Ho Ha Hout HD' Hv.
  assert (En : a !! h = None).
  { destruct (a !! h) as [[o' f']|] eqn:E; [|done]. exfalso.
    apply (Hout h); [unfold inside; pose proof (pow2_pos o); lia|].
    eapply tiling_head_managed; [apply K|done]. }
  destruct (lists_ok_push PAGE_MAX_ORDER (pnodes s) a h o (pi_lists _ _ _ _ K) Ho)
    as (n & Ei & Hl & _); [intros o0; by rewrite En|].
  eexists. split.
  { apply free_page_run; [apply Hv|]. rewrite (pi_zone _ _ _ _ K h Hv). exact Ei. }
  split.
  - split; [by eapply tiling_add; [apply K|..]| | | |done].
    + intros x o0 f0 [[<- [= <- <-]]|[N Ex]]%lookup_insert_Some; rewrite pg_put.
      * by rewrite decide_True.
      * rewrite decide_False by done. by apply (pi_order _ _ _ _ K _ _ f0).
    + intros x o0 f0 [[<- [= <- <-]]|[N Ex]]%lookup_insert_Some _; rewrite pg_put.
      * rewrite decide_True by done. apply freed_free.
      * rewrite decide_False by done. by apply (pi_free _ _ _ _ K _ o0).
    + intros p Hp. pose proof (same_kind_upd s h (freed (pg s h) o) n (page_lock s)
        (same_kind_freed _ _)) as Hk.
      rewrite (proj2 (Hk p)). apply K. by apply (valid_same _ _ Hk).
  - apply same_kind_upd. auto with kern.
  - intros q Hq. by rewrite pg_put, decide_False by congruence.
  - done.
  - intros x k. rewrite lookup_insert. case_decide; [|done]. subst x. by rewrite En.
Qed.

Lemma grows_trans D D1 D2 R1 R2 R s s1 s2 a a1 a2 :
  grows D D1 R1 s s1 a a1 -> grows D1 D2 R2 s1 s2 a1 a2 ->
  (forall q, R1 q -> R q) -> (forall q, R2 q -> R q) -> grows D D2 R s s2 a a2.
Proof.
  intros G1 G2 H1 H2. split; [apply G2| | | |].
  - intros q. destruct (gr_kind _ _ _ _ _ _ _ G1 q), (gr_kind _ _ _ _ _ _ _ G2 q).
    split; congruence.
  - intros q Hq. rewrite (gr_frame _ _ _ _ _ _ _ G2), (gr_frame _ _ _ _ _ _ _ G1); naive_solver.
  - by rewrite (gr_lock _ _ _ _ _ _ _ G2), (gr_lock _ _ _ _ _ _ _ G1).
  - intros h k. by rewrite (gr_live _ _ _ _ _ _ _ G2), (gr_live _ _ _ _ _ _ _ G1).
Qed.

Definition range (lo hi : Z) (p : Z) : Prop := lo <= p < hi.

Lemma grows_refl D R s a : pinv_on D None s a -> grows D D R s s a a.
Proof. by intros K. Qed.

Lemma grows_ext D D1 D2 R s s' a a' :
  (forall p, D1 p <-> D2 p) -> grows D D1 R s s' a a' -> grows D D2 R s s' a a'.
Proof. intros He G. split; [|apply G..]. eapply pinv_on_ext; [done|apply G]. Qed.

Lemma init_free_loop_run m fuel D s a start ord nr count :
  pinv_on D None s a -> 0 <= ord <= PAGE_MAX_ORDER -> nr = count + Z.of_nat m * 2 ^ ord ->
  0 <= start + count -> start + nr <= TOTAL_PAGES -> aligned (start + count) ord ->
  (forall p, range (start + count) (start + nr) p -> ~ D p /\ valid s p) ->
  (m < fuel)%nat ->
  exists s' a', init_free_loop fuel start nr ord count s = Ret (nr, s') /\
    grows D (fun p => D p \/ range (start + count) (start + nr) p)
      (range (start + count) (start + nr)) s s' a a'.
Proof.
  revert fuel D s a count. induction m as [|m IH]; intros fuel D s a count K Ho Hnr Hs Hn Ha Hp Hf;
    (destruct fuel as [|fuel]; [lia|]); cbn [init_free_loop]; pose proof (pow2_pos ord ltac:(lia)) as Hpo.
  - if_false. exists s, a. replace count with nr by lia. split; [done|].
    eapply grows_ext; [|by apply grows_refl]. intros p. unfold range. split; [by left|]. intros [?|?]; [done|lia].
  - assert (2 ^ ord * Z.of_nat m >= 0) by nia. if_true.
    assert (Hin : forall p, inside p (start + count) ord -> range (start + count) (start + nr) p).
    { unfold inside, range. intros p Hp0. nia. }
    destruct (free_page_add D (fun p => D p \/ inside p (start + count) ord) s a (start + count) ord)
      as (s1 & E1 & G1); [done|done|done|done|intros p Hi; by apply Hp, Hin|done| |].
    { apply Hp, Hin. unfold inside. lia. }
    rewrite (M_bind_run _ _ _ _ _ E1). rewrite Z.shiftl_1_l.
    destruct (IH fuel (fun p => D p \/ inside p (start + count) ord) s1
      (<[start + count := (ord, true)]> a) (count + 2 ^ ord)) as (s2 & a2 & E2 & G2).
    + apply G1.
    + done.
    + lia.
    + lia.
    + done.
    + unfold aligned in *. rewrite Z.add_assoc, <- Z.add_mod_idemp_r by lia.
      by rewrite Z_mod_same_full, Z.add_0_r.
    + unfold range, inside in *. intros p Hpr. destruct (Hp p) as [Hd Hv]; [lia|]. split.
      * intros [?|?]; [done|lia].
      * by apply (valid_same s s1 (gr_kind _ _ _ _ _ _ _ G1)).
    + lia.
    + exists s2, a2. split; [done|]. eapply grows_ext; [|eapply (grows_trans _ _ _ _ _ _ _ _ _ _ _ _ G1 G2)].
      * intros p. unfold inside, range. rewrite Z.add_assoc. assert (start + count + 2 ^ ord <= start + nr) by nia.
        destruct (Z.lt_ge_cases p (start + count + 2 ^ ord)); intuition lia.
      * intros q ->. unfold range. nia.
      * intros q. unfold range. lia.
Qed.

Lemma init_free_pages_run D s a start fin ord :
  pinv_on D None s a -> 0 <= ord <= PAGE_MAX_ORDER -> 0 <= start <= fin -> fin <= TOTAL_PAGES ->
  aligned (fin - start) ord -> aligned start ord ->
  (forall p, range start fin p -> ~ D p /\ valid s p) ->
  exists s' a', init_free_pages start (fin - start) ord s = Ret (tt, s') /\
    grows D (fun p => D p \/ range start fin p) (range start fin) s s' a a'.
Proof.
  intros K Ho Hs Hn Han Ha Hp. pose proof (pow2_pos ord ltac:(lia)) as Hpo.
  apply aligned_quot in Han; [|lia]. set (nr := fin - start) in *.
  assert (Ef : start + nr = fin) by (unfold nr; lia).
  assert (0 <= nr / 2 ^ ord) by (apply Z.div_pos; lia).
  destruct (init_free_loop_run (Z.to_nat (nr / 2 ^ ord)) (S (Z.to_nat nr)) D s a start ord nr 0)
    as (s' & a' & E & G); rewrite ?Z.add_0_r, ?Ef; try done; try lia.
  - assert (nr / 2 ^ ord <= nr) by nia. lia.
  - rewrite Z.add_0_r, Ef in G. exists s', a'. split; [|done].
    unfold init_free_pages. rewrite (M_bind_run _ _ _ _ _ E), Z.eqb_refl. done.
Qed.

Lemma valid_marked (hm : bool) p : test_bit PAGE_VALID (flags (marked hm p)) = true.
Proof.
  unfold marked, with_flags. cbn [flags]. destruct hm; rewrite !test_set_bit by done; done.
Qed.
Lemma highmem_marked (hm : bool) p :
  flags p = 0 -> test_bit PAGE_HIGHMEM (flags (marked hm p)) = hm.
Proof.
  intros E. unfold marked, with_flags. cbn [flags]. rewrite E. by destruct hm.
Qed.
Lemma free_marked (hm : bool) p :
  test_bit PAGE_FREE (flags (marked hm p)) = test_bit PAGE_FREE (flags p).
Proof.
  unfold marked, with_flags. cbn [flags]. destruct hm; rewrite !test_set_bit by done; done.
Qed.

(** Marking fresh pages leaves the allocator's own pages alone. *)
Lemma mark_pages_inv s a lo hi (hm : bool) :
  pinv s a -> 0 <= lo <= hi -> hi <= TOTAL_PAGES ->
  (forall p, range lo hi p -> flags (pg s p) = 0 /\ in_highmem p = hm) ->
  exists s1, mark_pages (Z.to_nat (hi - lo)) lo hm s = Ret (tt, s1) /\
    pinv_on (valid s) None s1 a /\ page_lock s1 = 0 /\
    (forall p, valid s1 p <-> valid s p \/ range lo hi p) /\
    (forall p, ~ range lo hi p -> pg s1 p = pg s p).
Proof.
  intros [K Hl] Hlo Hhi Hz.
  destruct (mark_pages_run (Z.to_nat (hi - lo)) lo hm s) as (s1 & E1 & N1 & L1 & P1); [lia..|].
  exists s1. split; [done|].
  assert (P1' : forall q, pg s1 q = if decide (range lo hi q) then marked hm (pg s q) else pg s q).
  { intros q. rewrite P1. unfold range.
    destruct (decide (lo <= q < hi)); [rewrite decide_True by lia|rewrite decide_False by lia]; done. }
  assert (Hfr : forall q, ~ range lo hi q -> pg s1 q = pg s q).
  { intros q Hq. by rewrite P1', decide_False. }
  assert (Hvalid : forall p, valid s1 p <-> valid s p \/ range lo hi p).
  { intros p. unfold valid. rewrite P1'. case_decide as Hd.
    - split; [by right|]. intros _. split; [unfold range in Hd; lia|apply valid_marked].
    - tauto. }
  assert (Hnv : forall p, valid s p -> ~ range lo hi p).
  { intros p [_ Hv] Hr. destruct (Hz p Hr) as [Hf _]. by rewrite Hf in Hv. }
  split; [|split; [congruence|done]]. split; [apply K| | | |].
  - intros h o f E. rewrite Hfr; [by apply (pi_order _ _ _ _ K _ _ f)|].
    apply Hnv. eapply tiling_head_managed; [apply K|done].
  - intros h o f E Hx. rewrite Hfr; [by apply (pi_free _ _ _ _ K _ o)|].
    apply Hnv. eapply tiling_head_managed; [apply K|done].
  - intros p Hp. rewrite P1'. case_decide as Hd.
    + destruct (Hz p Hd) as [Hf Hh]. by rewrite highmem_marked.
    + apply K. apply Hvalid in Hp. tauto.
  - rewrite N1. apply K.
Qed.

Lemma add_zone_pages_run s a lo hi (hm : bool) :
  pinv s a -> 0 <= lo <= hi -> hi <= TOTAL_PAGES ->
  (forall p, range lo hi p -> flags (pg s p) = 0 /\ in_highmem p = hm) ->
  exists s' a', add_zone_pages lo hi hm s = Ret (tt, s') /\ pinv s' a' /\
    (forall p, valid s' p <-> valid s p \/ range lo hi p) /\
    (forall p, ~ range lo hi p -> pg s' p = pg s p) /\
    (forall h k, a' !! h = Some (k, false) <-> a !! h = Some (k, false)).
Proof.
  intros K Hlo Hhi Hz.
  destruct (mark_pages_inv s a lo hi hm) as (s1 & E1 & K1 & L1 & V1 & F1); [done..|].
  assert (Hnv : forall p, range lo hi p -> ~ valid s p /\ valid s1 p).
  { intros p Hr. destruct (Hz p Hr) as [Hf _]. split; [|apply V1; by right].
    intros [_ Hv]. by rewrite Hf in Hv. }
  assert (Hfin : forall s' a' D', grows (valid s) D' (range lo hi) s1 s' a a' ->
    (forall p, D' p <-> valid s p \/ range lo hi p) ->
    pinv s' a' /\ (forall p, valid s' p <-> valid s p \/ range lo hi p) /\
    (forall p, ~ range lo hi p -> pg s' p = pg s p) /\
    (forall h k, a' !! h = Some (k, false) <-> a !! h = Some (k, false))).
  { intros s' a' D' G HD'.
    assert (HV : forall p, valid s' p <-> valid s p \/ range lo hi p).
    { intros p. rewrite <- V1. symmetry. apply valid_same, G. }
    split_and!; [split| | |apply G].
    - eapply pinv_on_ext; [|apply G]. intros p. by rewrite HD', HV.
    - rewrite (gr_lock _ _ _ _ _ _ _ G). done.
    - done.
    - intros p Hp. rewrite (gr_frame _ _ _ _ _ _ _ G) by done. by apply F1. }
  unfold add_zone_pages. rewrite (M_bind_run _ _ _ _ _ E1). unfold pfn_to_page.
  change (Z.shiftl 1 PAGE_MAX_ORDER) with (2 ^ 10).
  destruct (round_up_bounds lo (2 ^ 10)) as [Hu1 Hu2]; [unfold TOTAL_PAGES in *; lia..|].
  destruct (round_down_bounds hi (2 ^ 10)) as [Hd1 Hd2]; [unfold TOTAL_PAGES, fits in *; lia..|].
  set (u := round_up lo (2 ^ 10)) in *. set (d := round_down hi (2 ^ 10)) in *.
  assert (A0 : forall x, aligned x 0) by (intros x; apply Z.mod_1_r).
  destruct (Z.leb_spec d u) as [Hle|Hgt].
  - destruct (init_free_pages_run (valid s) s1 a lo hi 0) as (s2 & a2 & E2 & G2); try done; try lia.
    exists s2, a2. split; [done|]. by eapply Hfin.
  - destruct (init_free_pages_run (valid s) s1 a lo u 0) as (s2 & a2 & E2 & G2); try done; try lia.
    { intros p Hr. apply Hnv. unfold range in *. lia. }
    assert (Hmult : aligned (d - u) 10).
    { unfold aligned. rewrite Zminus_mod, Hu2, Hd2. done. }
    destruct (init_free_pages_run _ s2 a2 u d PAGE_MAX_ORDER (gr_inv _ _ _ _ _ _ _ G2))
      as (s3 & a3 & E3 & G3); try done; try lia.
    { intros p Hr. split.
      - intros [Hv|Hr2]; [|unfold range in *; lia]. destruct (Hnv p); [unfold range in *; lia|done].
      - apply (valid_same s1 s2 (gr_kind _ _ _ _ _ _ _ G2)), Hnv. unfold range in *. lia. }
    destruct (init_free_pages_run _ s3 a3 d hi 0 (gr_inv _ _ _ _ _ _ _ G3))
      as (s4 & a4 & E4 & G4); try done; try lia.
    { intros p Hr. split.
      - intros [[Hv|Hr2]|Hr2]; [|unfold range in *; lia..]. destruct (Hnv p); [unfold range in *; lia|done].
      - apply (valid_same s2 s3 (gr_kind _ _ _ _ _ _ _ G3)),
          (valid_same s1 s2 (gr_kind _ _ _ _ _ _ _ G2)), Hnv. unfold range in *. lia. }
    exists s4, a4. rewrite (M_bind_run _ _ _ _ _ E2), (M_bind_run _ _ _ _ _ E3). split; [done|].
    pose proof (grows_trans _ _ _ _ _ (range lo hi) _ _ _ _ _ _ G2 G3
      ltac:(unfold range; lia) ltac:(unfold range; lia)) as G23.
    eapply Hfin; [eapply (grows_trans _ _ _ _ _ _ _ _ _ _ _ _ G23 G4); unfold range; [done|lia]|].
    intros p. unfold range. intuition lia.
Qed.

Lemma init_page_lists_dll n m (z : bool) o :
  0 <= o < Z.of_nat n -> dll (init_page_lists n m) (fl_head z o) [].
Proof.
  induction n as [|n IH]; intros Ho; [lia|]. cbn [init_page_lists].
  set (m0 := init_page_lists n m) in *. set (H := HighmemFreeList (Z.of_nat n)).
  destruct (decide (o = Z.of_nat n)) as [->|Hne].
  - destruct z; cbn [fl_head ploc_shape]; [|apply list_init_dll].
    apply (dll_frame (list_init H m0)); [|apply list_init_dll].
    intros c Hc. apply list_init_frame. set_solver.
  - apply (dll_frame m0); [|apply IH; lia]. intros c Hc.
    assert (c = fl_head z o) as -> by set_solver.
    rewrite !list_init_frame; [done|..]; destruct z; cbn [fl_head ploc_shape]; intros [= Hc']; lia.
Qed.

Lemma page_init_run :
  exists s, page_init pmem_bss = Ret (tt, s) /\ pinv s ∅ /\ (forall p, pg s p = zero_page).
Proof.
  eexists. split; [done|]. split; [|by intros].
  split; [|done]. split.
  - split.
    + intros h o f. by rewrite lookup_empty.
    + intros h1 o1 f1 h2 o2 f2. by rewrite lookup_empty.
    + intros p. split; [by intros [_ ?]|]. intros (h & o & f & E & _). by rewrite lookup_empty in E.
  - intros h o f. by rewrite lookup_empty.
  - intros h o f. by rewrite lookup_empty.
  - by intros p [_ ?].
  - exists (fun _ _ => []). intros z o Ho. split.
    + apply init_page_lists_dll. unfold PAGE_MAX_ORDER in *. lia.
    + intros h. rewrite lookup_empty. set_solver.
Qed.

Lemma add_free_pages_run s a lo hi :
  pinv s a -> 0 <= lo <= hi -> hi <= TOTAL_PAGES ->
  (forall p, range lo hi p -> flags (pg s p) = 0) ->
  exists s' a', add_free_pages lo hi s = Ret (tt, s') /\ pinv s' a' /\
    (forall p, valid s' p <-> valid s p \/ range lo hi p) /\
    (forall h k, a' !! h = Some (k, false) <-> a !! h = Some (k, false)) /\
    (forall p, ~ range lo hi p -> pg s' p = pg s p).
Proof.
  intros K Hlo Hhi Hz. unfold add_free_pages, assert. if_true.
  rewrite (M_bind_run _ _ s s tt) by done.
  destruct (Z.leb_spec highmem_start_pfn lo) as [H1|H1]; [|destruct (Z.leb_spec hi highmem_start_pfn) as [H2|H2]].
  - destruct (add_zone_pages_run s a lo hi true) as (s' & a' & E & K' & V & F & L); [done..| |].
    { intros p Hr. split; [by apply Hz|]. unfold in_highmem, range in *. lia. }
    exists s', a'. done.
  - destruct (add_zone_pages_run s a lo hi false) as (s' & a' & E & K' & V & F & L); [done..| |].
    { intros p Hr. split; [by apply Hz|]. unfold in_highmem, range in *. lia. }
    exists s', a'. done.
  - destruct (add_zone_pages_run s a lo highmem_start_pfn false) as (s1 & a1 & E1 & K1 & V1 & F1 & L1);
      [done|lia|lia| |].
    { intros p Hr. split; [apply Hz|]; unfold in_highmem, range in *; lia. }
    destruct (add_zone_pages_run s1 a1 highmem_start_pfn hi true) as (s2 & a2 & E2 & K2 & V2 & F2 & L2);
      [done|lia|done| |].
    { intros p Hr. split; [rewrite F1; [apply Hz|]|]; unfold in_highmem, range in *; lia. }
    exists s2, a2. split; [by rewrite (M_bind_run _ _ _ _ _ E1)|]. split; [done|]. split.
    + intros p. rewrite V2, V1. unfold range. intuition lia.
    + split; [intros h k; by rewrite L2, L1|]. intros p Hp.
      rewrite F2, F1; unfold range in *; (done || lia).
Qed.

(** ** Properties *)

(** C1. The page allocator implements the abstract best-fit allocator of the
    zone the request asks for: the call terminates with the lock released;
    an order above 10 is refused; otherwise NULL is returned only when the
    zone has no free block of sufficient order, and a block that is returned
    is the smallest sufficient one of the zone, cut down to the order asked
    for.  The tiling stays well formed, the returned block is the only change
    to the live blocks, and neither the descriptors and list nodes of live
    pages nor the list heads of the slab caches are written. *)
Theorem alloc_pages_refines (s : pmem) (a : blockmap) (gfp ord : Z) :
  pinv s a -> 0 <= ord ->
  exists r s' a',
    alloc_pages gfp ord s = Ret (r, s') /\ pinv s' a' /\
    (if PAGE_MAX_ORDER <? ord then r = None /\ s' = s /\ a' = a
     else alloc_spec (wanted gfp) ord a r a') /\
    pframe (live_page a) s s' /\
    forall h k, a' !! h = Some (k, false) <-> (r = Some h /\ k = ord) \/ a !! h = Some (k, false).
Proof.
  intros K Ho. destruct (Z.ltb_spec PAGE_MAX_ORDER ord) as [Hlt|Hge].
  - exists None, s, a. unfold alloc_pages. if_true. split_and!; [done..|].
    intros h k. split; [by right|]. by intros [[? _]|?].
  - destruct (alloc_pages_run s a gfp ord K ltac:(lia)) as (r & s' & a' & E & Hs & K' & _ & F).
    exists r, s', a'. split_and!; [done..|].
    eapply alloc_spec_live; [apply K|lia|done].
Qed.

(** C2. Freeing a live block of pages terminates with the lock released,
    keeps the tiling, removes exactly that block from the live ones and
    writes no descriptor or list node of another live page, if no buddy met
    while coalescing is only partly free.  In particular it never merges
    with pages outside the memory that was added. *)
Theorem free_pages_refines (s : pmem) (a : blockmap) (h o : Z) :
  pinv s a -> a !! h = Some (o, false) -> whole_buddies PAGE_MAX_ORDER a h o ->
  exists s' a',
    free_pages h s = Ret (tt, s') /\ pinv s' a' /\
    pframe (fun q => live_page a q /\ ~ inside q h o) s s' /\
    forall x k, a' !! x = Some (k, false) <-> x <> h /\ a !! x = Some (k, false).
Proof.
  intros K E W. pose proof (tl_wf _ _ _ (pi_tile _ _ _ _ (proj1 K)) _ _ _ E) as (Hh & Ho & Ha).
  destruct (merges_total PAGE_MAX_ORDER (valid s) (Z.to_nat (PAGE_MAX_ORDER - o)) h o a)
    as (h' & o' & a' & Hm); [apply K|done|done|lia|].
  destruct (free_pages_run s a h o h' o' a' K E Hm) as (s' & Er & K' & _ & Hfr).
  exists s', (<[h' := (o', true)]> a'). split_and!; [done..|].
  by eapply merges_live; [|apply K|].
Qed.

(** [add_free_pages] hands a range of fresh pages to the allocator: every
    assertion on the way holds, exactly the pages of the range become valid,
    also when the range straddles the boundary between low and high memory
    or is not aligned to the largest block, live blocks and the
    descriptors of other pages are kept and the invariant holds afterwards. *)
Theorem add_free_pages_ok (s : pmem) (a : blockmap) (start_pfn end_pfn : Z) :
  pinv s a -> 0 <= start_pfn <= end_pfn -> end_pfn <= TOTAL_PAGES ->
  (forall p, range start_pfn end_pfn p -> flags (pg s p) = 0) ->
  exists s' a', add_free_pages start_pfn end_pfn s = Ret (tt, s') /\ pinv s' a' /\
    (forall p, valid s' p <-> valid s p \/ range start_pfn end_pfn p) /\
    (forall h k, a' !! h = Some (k, false) <-> a !! h = Some (k, false)) /\
    (forall p, ~ range start_pfn end_pfn p -> pg s' p = pg s p).
Proof. apply add_free_pages_run. Qed.

(** The allocator after [page_init], and with 1026 pages added on both sides
    of the zone boundary. *)
Definition mem0 : pmem :=
  match page_init pmem_bss with Ret (_, s) => s | _ => pmem_bss end.
Definition mem1 : pmem :=
  match add_free_pages 0x37c00 0x38002 mem0 with Ret (_, s) => s | _ => mem0 end.

Lemma mem0_inv : pinv mem0 ∅ /\ forall p, pg mem0 p = zero_page.
Proof.
  destruct page_init_run as (s & E & K & P). unfold mem0. by rewrite E.
Qed.

Lemma mem1_inv : exists a, pinv mem1 a /\ (forall h k, a !! h <> Some (k, false)) /\
  forall p, valid mem1 p <-> range 0x37c00 0x38002 p.
Proof.
  destruct mem0_inv as [K P].
  destruct (add_free_pages_run mem0 ∅ 0x37c00 0x38002 K) as (s & a & E & K' & V & L & _).
  { done. } { done. } { intros p _. by rewrite P. }
  unfold mem1. rewrite E. exists a. split; [done|]. split.
  - intros h k Hk. by apply L in Hk.
  - intros p. rewrite V. split; [|by right]. intros [[_ Hv]|?]; [|done]. by rewrite P in Hv.
Qed.

Lemma add_free_pages_ok_witness :
  exists s' a', add_free_pages 0x37c00 0x38002 mem0 = Ret (tt, s') /\ pinv s' a' /\
    (forall p, valid s' p <-> valid mem0 p \/ range 0x37c00 0x38002 p) /\
    (forall h k, a' !! h = Some (k, false) <-> (∅ : blockmap) !! h = Some (k, false)) /\
    (forall p, ~ range 0x37c00 0x38002 p -> pg s' p = pg mem0 p).
Proof.
  apply (add_free_pages_ok mem0 ∅ 0x37c00 0x38002 (proj1 mem0_inv)); [done|done|].
  intros p _. by rewrite (proj2 mem0_inv).
Defined.

Lemma alloc_pages_refines_witness :
  exists a r s' a', pinv mem1 a /\
    alloc_pages GFP_HIGHMEM 0 mem1 = Ret (r, s') /\ pinv s' a' /\
    (if PAGE_MAX_ORDER <? 0 then r = None /\ s' = mem1 /\ a' = a
     else alloc_spec (wanted GFP_HIGHMEM) 0 a r a') /\
    pframe (live_page a) mem1 s' /\
    forall h k, a' !! h = Some (k, false) <-> (r = Some h /\ k = 0) \/ a !! h = Some (k, false).
Proof.
  destruct mem1_inv as (a & K & _). exists a.
  destruct (alloc_pages_refines mem1 a GFP_HIGHMEM 0 K) as (r & s' & a' & H); [done|].
  exists r, s', a'. exact (conj K H).
Defined.

(** A single page, allocated. *)
Definition mem2 : pmem :=
  match (_ ← add_free_pages 0 1; alloc_pages GFP_NORMAL 0) mem0 with Ret (_, s) => s | _ => mem0 end.

Lemma mem2_inv : exists a, pinv mem2 a /\ a !! 0 = Some (0, false) /\ forall h, a !! h <> None -> h = 0.
Proof.
  destruct mem0_inv as [K P].
  destruct (add_free_pages_run mem0 ∅ 0 1 K) as (s & a & E & K' & V & L & _).
  { done. } { done. } { intros p _. by rewrite P. }
  assert (V' : forall p, valid s p -> p = 0).
  { intros p Hv. apply V in Hv as [[_ Hv]|Hr]; [by rewrite P in Hv|]. unfold range in Hr. lia. }
  destruct (alloc_pages_run s a GFP_NORMAL 0 K' ltac:(done)) as (r & s2 & a2 & E2 & Hs & K2 & V2 & _).
  assert (Er : r = Some 0).
  { destruct Hs as [Hn|h k Eh _ _ _].
    - exfalso. destruct (proj1 (tl_cover _ _ _ (pi_tile _ _ _ _ (proj1 K')) 0)) as (h & o & f & Eh & Hi).
      { apply V. right. done. }
      assert (h = 0) as -> by (apply V'; eapply tiling_head_managed; [apply K'|done]).
      destruct f; [|by apply L in Eh].
      specialize (Hn _ _ Eh ltac:(done)).
      destruct (tl_wf _ _ _ (pi_tile _ _ _ _ (proj1 K')) _ _ _ Eh). lia.
    - f_equal. apply V'. eapply tiling_head_managed; [apply K'|done]. }
  exists a2. unfold mem2. rewrite (M_bind_run _ _ _ _ _ E), E2. split_and!.
  - done.
  - apply (alloc_spec_live _ _ _ _ _ _ _ (pi_tile _ _ _ _ (proj1 K')) ltac:(done) Hs). by left.
  - intros h Hh. destruct (a2 !! h) as [[o f]|] eqn:Eh; [|done]. apply V', V2.
    eapply tiling_head_managed; [apply (proj1 K2)|done].
Qed.

Lemma free_pages_refines_witness :
  exists a s' a', pinv mem2 a /\ a !! 0 = Some (0, false) /\
    free_pages 0 mem2 = Ret (tt, s') /\ pinv s' a' /\
    pframe (fun q => live_page a q /\ ~ inside q 0 0) mem2 s' /\
    forall x k, a' !! x = Some (k, false) <-> x <> 0 /\ a !! x = Some (k, false).
Proof.
  destruct mem2_inv as (a & K & E & Hd). exists a.
  destruct (free_pages_refines mem2 a 0 0 K E) as (s' & a' & H).
  - intros k o' Hk Ho'. exfalso. rewrite Zdiv_0_l, Z.mul_0_r in Ho'.
    apply (buddy_ne 0 k); [lia|by apply Zmod_0_l|]. apply Hd. by rewrite Ho'.
  - exists s', a'. exact (conj K (conj E H)).
Defined.

(** The proviso of freeing is needed: [free_pages] checks that the buddy
    is valid and free but not that it has the same order.  With four pages
    joined to one block, allocate two pages (0), then page 2 and page 3;
    freeing 2 and then 0 merges block 0 with the pair 2, 3, and the next
    request for four pages is answered with pages 0 to 3, although page 3
    was never freed. *)
Theorem free_pages_swallows_live_page :
  exists s,
    (_ ← add_free_pages 0 4;
     _ ← alloc_pages GFP_NORMAL 0; _ ← alloc_pages GFP_NORMAL 0;
     _ ← alloc_pages GFP_NORMAL 0; _ ← alloc_pages GFP_NORMAL 0;
     _ ← free_pages 3; _ ← free_pages 2; _ ← free_pages 1; _ ← free_pages 0;
     b ← alloc_pages GFP_NORMAL 1; c ← alloc_pages GFP_NORMAL 0; d ← alloc_pages GFP_NORMAL 0;
     _ ← free_pages 2; _ ← free_pages 0; e ← alloc_pages GFP_NORMAL 2;
     mret (b, c, d, e)) mem0 = Ret ((Some 0, Some 2, Some 3, Some 0), s) /\
    inside 3 0 2.
Proof. eexists. split; [vm_compute; reflexivity|by vm_compute]. Qed.
