(* ===== verification/PageTable.v ===== *)
(** * Page tables (mm/page_table.c)

    Two-level x86 page tables, edited through the linear mapping.  The state
    holds the words of linearly mapped memory, the frame allocator, CR0 and
    CR3 and the translations the processor has cached (the TLB).  The
    abstract view is [walk]: the page table entry the processor finds for a
    virtual page number.  [pt_ok] says that the tables are frames of their
    own that the allocator does not consider free, and that the TLB holds
    nothing the tables do not say.

    The allocator is used through the interface [FrameAlloc]; the instance
    at the end of the file is [alloc_page(GFP_NORMAL)] of mm/page.c. *)

From stdpp Require Import base numbers list gmap sets.
From Stdlib Require Import ZArith Lia ZifyBool.
From S2P Require Import Prelude Bitops Lock ListNode Buddy Page.

Open Scope Z_scope.

(** ** Constants of include/asm-generic/mmu.h, memory.h and x86.h *)

Definition PTE_P : Z := Z.shiftl 1 0.
Definition PTE_W : Z := Z.shiftl 1 1.
Definition PDE_P : Z := Z.shiftl 1 0.
Definition PDE_W : Z := Z.shiftl 1 1.

Definition LINEAR_MAP_SIZE : Z := 0x38000000.
Definition VIRT_LINEAR_END : Z := KERNEL_VIRT_BASE + LINEAR_MAP_SIZE.
Definition VPT : Z := 0xfac00000.

Definition CR0_PE : Z := 0x00000001.
Definition CR0_MP : Z := 0x00000002.
Definition CR0_EM : Z := 0x00000004.
Definition CR0_TS : Z := 0x00000008.
Definition CR0_NE : Z := 0x00000020.
Definition CR0_WP : Z := 0x00010000.
Definition CR0_AM : Z := 0x00040000.
Definition CR0_PG : Z := 0x80000000.

(** What the page tables need from the frame allocator: [fa_inv s F] says
    that [F] is the set of low frames it can still hand out. *)
Class FrameAlloc : Type := {
  fa_state : Type;
  fa_alloc_page : M fa_state (option Z);
  fa_inv : fa_state -> gset Z -> Prop;
  fa_low : forall s F f, fa_inv s F -> f ∈ F -> 0 <= f < highmem_start_pfn;
  fa_some : forall s F, fa_inv s F -> F <> ∅ ->
    exists f s', fa_alloc_page s = Ret (Some f, s') /\ f ∈ F /\ fa_inv s' (F ∖ {[f]});
  fa_none : forall s, fa_inv s ∅ -> exists s', fa_alloc_page s = Ret (None, s') /\ fa_inv s' ∅
}.

Section PageTable.
Context `{FA : FrameAlloc}.

(** [words] is indexed by the address of the word; [tlb] by virtual page
    number. *)
Record ptm := PTM {
  words : gmap Z Z;
  falloc : fa_state;
  cr0 : Z;
  cr3 : Z;
  tlb : gmap Z Z
}.

Definition with_words (w : gmap Z Z) (s : ptm) : ptm := PTM w (falloc s) (cr0 s) (cr3 s) (tlb s).
Definition with_tlb (t : gmap Z Z) (s : ptm) : ptm := PTM (words s) (falloc s) (cr0 s) (cr3 s) t.

(** Memory is reached through the linear mapping; elsewhere is a fault. *)
Definition linear (a : Z) : bool := (KERNEL_VIRT_BASE <=? a) && (a <? VIRT_LINEAR_END).
Definition word_at (w : gmap Z Z) (a : Z) : Z := default 0 (w !! a).
Definition load (a : Z) : M ptm Z := fun s =>
  if linear a then Ret (word_at (words s) a, s) else Fault.
Definition store (a v : Z) : M ptm unit := fun s =>
  if linear a then Ret (tt, with_words (<[a := v]> (words s)) s) else Fault.

(** [memset(p, 0, 4 * n)] on whole words. *)
Fixpoint zero_words (n : nat) (a : Z) : M ptm unit :=
  match n with
  | O => mret tt
  | S n => _ ← store a 0; zero_words n (a + 4)
  end.

Definition alloc_page_normal : M ptm (option Z) := fun s =>
  match fa_alloc_page (falloc s) with
  | Ret (r, f) => Ret (r, PTM (words s) f (cr0 s) (cr3 s) (tlb s))
  | Bug => Bug | Fault => Fault | Spin => Spin
  end.

(** The instruction [invlpg] drops the cached translation of a page. *)
Definition invlpg (va : Z) : M ptm unit := fun s =>
  Ret (tt, with_tlb (delete (va / PAGE_SIZE) (tlb s)) s).

(** ** mm/page_table.c *)

Definition tlb_invalidate (pgdir va : Z) : M ptm unit :=
  s ← mget;
  if cr3 s =? virt_to_phys pgdir then invlpg va else mret tt.

Definition set_pde (pde pa flag : Z) : M ptm unit :=
  store pde (Z.lor (Z.lor pa flag) PDE_P).

(** The NULL page of a failed allocation is used without a check; its frame
    number is garbage, so the run is a fault from there on. *)
Definition get_pte (pgdir va : Z) : M ptm Z :=
  let pde := u32 (pgdir + 4 * pde_index va) in
  v ← load pde;
  _ ← (if Z.land v PTE_P =? 0 then
         page ← alloc_page_normal;
         page ← mlift (deref page);
         let page_pa := page_to_phys page in
         _ ← zero_words (Z.to_nat (PAGE_SIZE / 4)) (phys_to_virt page_pa);
         set_pde pde page_pa (Z.lor PDE_P PDE_W)
       else mret tt);
  v ← load pde;
  let pt := phys_to_virt (page_base v) in
  mret (u32 (pt + 4 * pte_index va)).

Fixpoint map_loop (fuel : nat) (pgdir va pa size flag offset : Z) : M ptm unit :=
  match fuel with
  | O => fun _ => Spin
  | S fuel =>
      if offset <? size then
        pte ← get_pte pgdir va;
        _ ← store pte (Z.lor (Z.lor pa flag) PTE_P);
        _ ← tlb_invalidate pgdir va;
        map_loop fuel pgdir (u32 (va + PAGE_SIZE)) (u32 (pa + PAGE_SIZE)) size flag
          (u32 (offset + PAGE_SIZE))
      else mret tt
  end.
Definition page_map (pgdir va pa size flag : Z) : M ptm unit :=
  let va := round_down_page va in
  let pa := round_down_page pa in
  map_loop (S (Z.to_nat (size / PAGE_SIZE) + 1)) pgdir va pa size flag 0.

Fixpoint unmap_loop (fuel : nat) (pgdir va size offset : Z) : M ptm unit :=
  match fuel with
  | O => fun _ => Spin
  | S fuel =>
      if offset <? size then
        pte ← get_pte pgdir va;
        _ ← store pte 0;
        _ ← tlb_invalidate pgdir va;
        unmap_loop fuel pgdir (u32 (va + PAGE_SIZE)) size (u32 (offset + PAGE_SIZE))
      else mret tt
  end.
Definition page_unmap (pgdir va size : Z) : M ptm unit :=
  let va := round_down_page va in
  unmap_loop (S (Z.to_nat (size / PAGE_SIZE) + 1)) pgdir va size 0.

(** Loading CR3 flushes the TLB. *)
Definition lcr3 (v : Z) : M ptm unit := fun s =>
  Ret (tt, PTM (words s) (falloc s) (cr0 s) v ∅).
Definition lcr0 (v : Z) : M ptm unit := fun s =>
  Ret (tt, PTM (words s) (falloc s) v (cr3 s) (tlb s)).
Definition rcr0 : M ptm Z := fun s => Ret (cr0 s, s).

Definition enable_paging (v : Z) : M ptm unit :=
  _ ← lcr3 v;
  c ← rcr0;
  let c := Z.lor c (Z.lor CR0_PE (Z.lor CR0_PG (Z.lor CR0_AM (Z.lor CR0_WP
             (Z.lor CR0_NE (Z.lor CR0_TS (Z.lor CR0_EM CR0_MP))))))) in
  let c := Z.land c (u32 (Z.lnot (Z.lor CR0_TS CR0_EM))) in
  lcr0 c.

(** [page_table_dump] as the list of lines it prints: a directory entry
    [(i, va_base, pde)] is a [DumpDir], a table entry a [DumpPte]. *)
Inductive dump_line : Type :=
  | DumpDir (i va_base pde : Z)
  | DumpPte (j pte_va pte : Z).

(** The inner loop; the boolean tells that it executed [return]. *)
Fixpoint dump_table (n : nat) (pt va_base va size j : Z) : M ptm (list dump_line * bool) :=
  match n with
  | O => mret ([], false)
  | S n =>
      pte ← load (u32 (pt + 4 * j));
      if Z.land pte PTE_P =? 0 then dump_table n pt va_base va size (j + 1)
      else
        let pte_va := u32 (va_base + j * PAGE_SIZE) in
        if u32 (va + size) <? pte_va then mret ([DumpPte j pte_va pte], true)
        else
          r ← dump_table n pt va_base va size (j + 1);
          mret (DumpPte j pte_va pte :: r.1, r.2)
  end.

Fixpoint dump_dir (n : nat) (pgdir va size i : Z) : M ptm (list dump_line) :=
  match n with
  | O => mret []
  | S n =>
      pde ← load (u32 (pgdir + 4 * i));
      if Z.land pde PDE_P =? 0 then dump_dir n pgdir va size (i + 1)
      else
        let va_base := u32 (i * 1024 * PAGE_SIZE) in
        if va_base <? va then dump_dir n pgdir va size (i + 1)
        else if u32 (va + size) <=? va_base then mret []
        else
          let pt := phys_to_virt (page_base pde) in
          r ← dump_table 1024 pt va_base va size 0;
          if (r.2 : bool) then mret (DumpDir i va_base pde :: r.1)
          else
            r' ← dump_dir n pgdir va size (i + 1);
            mret (DumpDir i va_base pde :: r.1 ++ r')
  end.
Definition page_table_dump (pgdir va size : Z) : M ptm (list dump_line) :=
  dump_dir 1024 pgdir va size 0.

(** ** The abstract view *)

(** The address of word [i] of the low frame [f]. *)
Definition wd (f i : Z) : Z := KERNEL_VIRT_BASE + 4096 * f + 4 * i.
Definition low (f : Z) : Prop := 0 <= f < highmem_start_pfn.

Definition pde_of (w : gmap Z Z) (d i : Z) : Z := word_at w (wd d i).
Definition present (e : Z) : bool := negb (Z.land e PTE_P =? 0).
Definition frame_of (e : Z) : Z := e / 4096.

(** The entry the processor finds for page number [v] from directory [d]. *)
Definition walk (w : gmap Z Z) (d v : Z) : option Z :=
  let e := pde_of w d (v / 1024) in
  if present e then
    let t := word_at w (wd (frame_of e) (v mod 1024)) in
    if present t then Some t else None
  else None.

(** The directory entry [VPT] maps the directory itself. *)
Definition vpt_idx : Z := 1003.
Definition outside_vpt (v : Z) : Prop := 0 <= v < 2 ^ 20 /\ v / 1024 <> vpt_idx.

Record pt_ok (s : ptm) (d : Z) (F : gset Z) : Prop := PtOk {
  po_dir : low d /\ d ∉ F;
  po_alloc : fa_inv (falloc s) F;
  po_pde : forall i, 0 <= i < 1024 -> i <> vpt_idx -> present (pde_of (words s) d i) = true ->
    let e := pde_of (words s) d i in
    fits 32 e /\ low (frame_of e) /\ frame_of e ∉ F /\ frame_of e <> d;
  po_inj : forall i j, 0 <= i < 1024 -> 0 <= j < 1024 -> i <> vpt_idx -> j <> vpt_idx ->
    present (pde_of (words s) d i) = true -> present (pde_of (words s) d j) = true ->
    frame_of (pde_of (words s) d i) = frame_of (pde_of (words s) d j) -> i = j;
  po_tlb : cr3 s = 4096 * d -> forall v e, outside_vpt v ->
    tlb s !! v = Some e -> walk (words s) d v = Some e
}.

(** ** Arithmetic of addresses *)

Lemma page_base_spec x : fits 32 x -> page_base x = 4096 * (x / 4096).
Proof.
  intros [H0 H1]. unfold page_base. change (u32 (Z.lnot 4095)) with (Z.shiftl (Z.ones 20) 12).
  assert (E : Z.land x (Z.shiftl (Z.ones 20) 12) = Z.shiftl (Z.shiftr x 12) 12).
  { apply Z.bits_inj'. intros n Hn. rewrite Z.land_spec, !Z.shiftl_spec by lia.
    destruct (Z.ltb_spec n 12).
    { rewrite !(Z.testbit_neg_r _ (n - 12)) by lia. by rewrite andb_false_r. }
    rewrite Z.shiftr_spec by lia. replace (n - 12 + 12) with n by lia.
    destruct (Z.ltb_spec n 32).
    - rewrite Z.ones_spec_low by lia. by rewrite andb_true_r.
    - rewrite Z.ones_spec_high, andb_false_r by lia.
      destruct (Z.eq_dec x 0) as [->|]; [by rewrite Z.bits_0|].
      symmetry. apply Z.bits_above_log2; [lia|]. apply Z.log2_lt_pow2; [lia|].
      eapply Z.lt_le_trans; [exact H1|]. apply Z.pow_le_mono_r; lia. }
  rewrite E, Z.shiftl_mul_pow2, Z.shiftr_div_pow2 by lia. change (2 ^ 12) with 4096. lia.
Qed.

Lemma index_spec x k : fits 32 x -> 0 <= k -> Z.land (Z.shiftr x k) 0x3ff = (x / 2 ^ k) mod 1024.
Proof.
  intros Hx Hk. change 0x3ff with (Z.ones 10). rewrite Z.land_ones by lia.
  by rewrite Z.shiftr_div_pow2.
Qed.

Lemma pde_index_spec x : fits 32 x -> pde_index x = x / 4096 / 1024.
Proof.
  intros Hx. unfold pde_index. rewrite index_spec by (done || lia). unfold fits in Hx.
  change (2 ^ 22) with (4096 * 1024). rewrite <- Z.div_div by lia.
  apply Z.mod_small. split; [apply Z.div_pos; [apply Z.div_pos|]; lia|].
  apply Z.div_lt_upper_bound; [lia|].
  apply Z.div_lt_upper_bound; lia.
Qed.

Lemma pte_index_spec x : fits 32 x -> pte_index x = (x / 4096) mod 1024.
Proof. intros Hx. unfold pte_index. by rewrite index_spec by (done || lia). Qed.

(** A page aligned word with flags in its low bits. *)
Lemma lor_flags f k : 0 <= f -> 0 <= k < 4096 -> Z.lor (4096 * f) k = 4096 * f + k.
Proof.
  intros Hf Hk. rewrite <- (Z.add_lor_land (4096 * f) k).
  replace (Z.land (4096 * f) k) with 0; [lia|]. symmetry.
  replace (4096 * f) with (Z.shiftl f 12) by (rewrite Z.shiftl_mul_pow2 by lia; lia).
  apply Z.bits_inj'. intros n Hn. rewrite Z.land_spec, Z.bits_0, Z.shiftl_spec by lia.
  destruct (Z.ltb_spec n 12); [by rewrite Z.testbit_neg_r by lia|].
  destruct (Z.eq_dec k 0) as [->|]; [by rewrite Z.bits_0, andb_false_r|].
  rewrite (Z.bits_above_log2 k), andb_false_r; [done|lia|].
  apply Z.log2_lt_pow2; [lia|]. eapply Z.lt_le_trans; [apply Hk|].
  change 4096 with (2 ^ 12). apply Z.pow_le_mono_r; lia.
Qed.

Lemma lor_P_present x : present (Z.lor x PTE_P) = true.
Proof.
  unfold present. apply negb_true_iff, Z.eqb_neq. intros E.
  assert (Hb : Z.testbit (Z.land (Z.lor x PTE_P) PTE_P) 0 = true).
  { rewrite Z.land_spec, Z.lor_spec. by rewrite orb_true_r. }
  by rewrite E in Hb.
Qed.

Lemma lowest_fits (f k : Z) : low f -> 0 <= k < 4096 ->
  linear (KERNEL_VIRT_BASE + 4096 * f + k) = true /\ fits 32 (KERNEL_VIRT_BASE + 4096 * f + k).
Proof.
  unfold low. change highmem_start_pfn with 0x38000. intros Hf Hk.
  unfold linear, fits, VIRT_LINEAR_END, LINEAR_MAP_SIZE, KERNEL_VIRT_BASE. lia.
Qed.

Lemma wd_linear f i : low f -> 0 <= i < 1024 -> linear (wd f i) = true.
Proof. intros Hf Hi. apply (lowest_fits f (4 * i)); [done|lia]. Qed.

Lemma wd_inj f i g j : 0 <= i < 1024 -> 0 <= j < 1024 -> wd f i = wd g j -> f = g /\ i = j.
Proof. unfold wd. lia. Qed.

(** The address computations of the code, for low frames. *)
Lemma page_to_virt_low f : low f -> phys_to_virt (page_to_phys f) = wd f 0.
Proof.
  intros Hf. destruct (lowest_fits f 0 Hf ltac:(lia)) as [_ Hw]. unfold low in Hf.
  change highmem_start_pfn with 0x38000 in Hf.
  unfold phys_to_virt, page_to_phys. change PAGE_SIZE with 4096.
  rewrite (wrap_small 32 (4096 * f)) by (unfold fits; lia).
  rewrite wrap_small; unfold wd, fits in *; lia.
Qed.

Lemma frame_virt e i : fits 32 e -> low (frame_of e) -> 0 <= i < 1024 ->
  u32 (phys_to_virt (page_base e) + 4 * i) = wd (frame_of e) i.
Proof.
  intros He Hl Hi. rewrite page_base_spec by done. unfold phys_to_virt.
  destruct (lowest_fits _ (4 * i) Hl ltac:(lia)) as [_ Hw].
  destruct (lowest_fits _ 0 Hl ltac:(lia)) as [_ Hw0]. unfold frame_of in *.
  rewrite (wrap_small 32 (_ + KERNEL_VIRT_BASE)) by (unfold fits in *; lia).
  rewrite wrap_small; unfold wd, fits in *; lia.
Qed.

Lemma dir_virt d i : low d -> 0 <= i < 1024 -> u32 (wd d 0 + 4 * i) = wd d i.
Proof.
  intros Hl Hi. destruct (lowest_fits d (4 * i) Hl ltac:(lia)) as [_ Hw].
  rewrite wrap_small; unfold wd, fits in *; lia.
Qed.

Lemma dir_phys d : low d -> virt_to_phys (wd d 0) = 4096 * d.
Proof.
  unfold low. change highmem_start_pfn with 0x38000. intros Hl. unfold virt_to_phys, wd.
  rewrite wrap_small; unfold fits; lia.
Qed.

(** The directory entry [get_pte] writes for a new table. *)
Definition new_pde (f : Z) : Z := Z.lor (Z.lor (page_to_phys f) (Z.lor PDE_P PDE_W)) PDE_P.

Lemma new_pde_ok f : low f -> fits 32 (new_pde f) /\ frame_of (new_pde f) = f /\
  present (new_pde f) = true.
Proof.
  intros Hl. unfold low in Hl. change highmem_start_pfn with 0x38000 in Hl.
  split_and!; [| |apply lor_P_present]; unfold new_pde, page_to_phys;
    change PAGE_SIZE with 4096; rewrite (wrap_small 32) by (unfold fits; lia);
    rewrite <- Z.lor_assoc; change (Z.lor (Z.lor PDE_P PDE_W) PDE_P) with 3;
    rewrite lor_flags by lia; [unfold fits; lia|].
  unfold frame_of. symmetry. apply (Z.div_unique _ _ _ 3); lia.
Qed.

(** ** Running the steps *)

Lemma load_run a s : linear a = true -> load a s = Ret (word_at (words s) a, s).
Proof. intros E. unfold load. by rewrite E. Qed.

Lemma store_run a v s : linear a = true ->
  store a v s = Ret (tt, with_words (<[a := v]> (words s)) s).
Proof. intros E. unfold store. by rewrite E. Qed.

Lemma word_at_insert w a v b : word_at (<[a := v]> w) b = if decide (a = b) then v else word_at w b.
Proof. unfold word_at. rewrite lookup_insert. by case_decide. Qed.

(** The memory after clearing [n] words from word [k] of frame [f]. *)
Lemma zero_words_run n f k s : low f -> 0 <= k -> k + Z.of_nat n <= 1024 ->
  exists w, zero_words n (wd f k) s = Ret (tt, with_words w s) /\
    (forall i, k <= i < k + Z.of_nat n -> word_at w (wd f i) = 0) /\
    (forall a, (forall i, k <= i < k + Z.of_nat n -> a <> wd f i) -> word_at w a = word_at (words s) a).
Proof.
  intros Hf. revert k s. induction n as [|n IH]; intros k s Hk Hn.
  { exists (words s). split; [by destruct s|]. split; [lia|done]. }
  cbn [zero_words]. rewrite (M_bind_run _ _ _ _ _ (store_run _ 0 s (wd_linear f k Hf ltac:(lia)))).
  replace (wd f k + 4) with (wd f (k + 1)) by (unfold wd; lia).
  destruct (IH (k + 1) (with_words (<[wd f k := 0]> (words s)) s)) as (w & E & Hz & Ho); [lia..|].
  exists w. split; [by rewrite E|]. split.
  - intros i Hi. destruct (decide (i = k)) as [->|]; [|apply Hz; lia].
    rewrite Ho.
    + cbn [words with_words]. by rewrite word_at_insert, decide_True.
    + intros j Hj E'. apply wd_inj in E'; lia.
  - intros a Ha. rewrite Ho.
    + cbn [words with_words]. rewrite word_at_insert, decide_False; [done|].
      intros <-. by apply (Ha k); [lia|].
    + intros j Hj. apply Ha. lia.
Qed.

(** Only the word at [v mod 1024] of the table and the directory matter. *)
Lemma walk_ext w w' d v :
  pde_of w' d (v / 1024) = pde_of w d (v / 1024) ->
  (present (pde_of w d (v / 1024)) = true ->
   word_at w' (wd (frame_of (pde_of w d (v / 1024))) (v mod 1024)) =
   word_at w (wd (frame_of (pde_of w d (v / 1024))) (v mod 1024))) ->
  walk w' d v = walk w d v.
Proof. intros E1 E2. unfold walk. rewrite E1. destruct (present _); [|done]. by rewrite E2. Qed.

Lemma outside_idx v : outside_vpt v -> 0 <= v / 1024 < 1024 /\ 0 <= v mod 1024 < 1024.
Proof.
  intros [Hv _]. split; [|by apply Z.mod_pos_bound].
  split; [apply Z.div_pos; lia|]. apply Z.div_lt_upper_bound; lia.
Qed.

(** What [get_pte] leaves behind: the tables may have grown by one empty
    table for directory entry [i]; translations, CR3 and TLB are as before. *)
Record grown (d i : Z) (s s' : ptm) (F F' : gset Z) : Prop := Grown {
  gr_ok : pt_ok s' d F';
  gr_sub : F' ⊆ F;
  gr_here : present (pde_of (words s') d i) = true;
  gr_there : forall j, 0 <= j < 1024 -> j <> i -> pde_of (words s') d j = pde_of (words s) d j;
  gr_new : pde_of (words s') d i = pde_of (words s) d i \/ frame_of (pde_of (words s') d i) ∈ F;
  gr_size : if present (pde_of (words s) d i) then F' = F
            else exists f, f ∈ F /\ F' = F ∖ {[f]};
  gr_walk : forall v, outside_vpt v -> walk (words s') d v = walk (words s) d v;
  gr_regs : cr3 s' = cr3 s /\ cr0 s' = cr0 s /\ tlb s' = tlb s;
  gr_frame : forall f k, low f -> f ∉ F -> f <> d -> 0 <= k < 1024 ->
    word_at (words s') (wd f k) = word_at (words s) (wd f k)
}.

(** Installing the cleared frame [f] as table [i]. *)
Lemma install_table s d F i f w fa :
  pt_ok s d F -> 0 <= i < 1024 -> i <> vpt_idx -> present (pde_of (words s) d i) = false ->
  f ∈ F -> fa_inv fa (F ∖ {[f]}) ->
  (forall k, 0 <= k < 1024 -> word_at w (wd f k) = 0) ->
  (forall a, (forall k, 0 <= k < 1024 -> a <> wd f k) -> word_at w a = word_at (words s) a) ->
  grown d i s (PTM (<[wd d i := new_pde f]> w) fa (cr0 s) (cr3 s) (tlb s)) F (F ∖ {[f]}).
Proof.
  intros K Hi Hv Ha Hf Hfa Hz Ho.
  assert (Hl : low f) by (eapply fa_low; [apply K|done]).
  destruct (new_pde_ok f Hl) as (N1 & N2 & N3). destruct (po_dir _ _ _ K) as [Hd Hd'].
  assert (Hfd : f <> d) by (intros ->; done).
  assert (Hother : forall g k, 0 <= k < 1024 -> g <> f -> g <> d ->
            word_at (<[wd d i := new_pde f]> w) (wd g k) = word_at (words s) (wd g k)).
  { intros g k Hk Hg Hg'. rewrite word_at_insert, decide_False.
    - apply Ho. intros j Hj E. apply wd_inj in E; tauto.
    - intros E. apply wd_inj in E; [|done..]. destruct E. congruence. }
  assert (Hpde : forall j, 0 <= j < 1024 ->
    pde_of (<[wd d i := new_pde f]> w) d j = if decide (j = i) then new_pde f else pde_of (words s) d j).
  { intros j Hj. unfold pde_of. rewrite word_at_insert. case_decide as E.
    - apply wd_inj in E as [_ ->]; [|done..]. by rewrite decide_True.
    - rewrite decide_False by (intros ->; done). apply Ho. intros k Hk E'. apply wd_inj in E'; [destruct E'; congruence|done..]. }
  assert (Hwalk : forall v, outside_vpt v ->
    walk (<[wd d i := new_pde f]> w) d v = walk (words s) d v).
  { intros v Hov. destruct (outside_idx v Hov) as [Hq Hr].
    destruct (decide (v / 1024 = i)) as [Eq|Ne].
    - unfold walk. rewrite Hpde by done. rewrite Eq, decide_True, Ha, N3, N2 by done.
      rewrite word_at_insert, decide_False, Hz by
        (first [done | intros E; apply wd_inj in E; [|done..]; by destruct E; subst]).
      done.
    - apply walk_ext; [by rewrite Hpde, decide_False|]. intros Hp.
      destruct (po_pde _ _ _ K _ Hq (proj2 Hov) Hp) as (_ & _ & Hnf & Hnd).
      apply Hother; [done| |done]. intros E. congruence. }
  split; cbn [words cr0 cr3 tlb].
  - split; cbn [words cr3 tlb falloc].
    + split; [done|]. set_solver.
    + done.
    + intros j Hj Hjv. rewrite Hpde by done. case_decide as E; intros Hp; cbn zeta.
      * rewrite N2. split_and!; [done..|set_solver|done].
      * destruct (po_pde _ _ _ K _ Hj Hjv Hp) as (? & ? & ? & ?). split_and!; [done..|set_solver|done].
    + intros j k Hj Hk Hjv Hkv. rewrite !Hpde by done.
      case_decide as Ej; case_decide as Ek; rewrite ?N2; [congruence| | |].
      * intros _ Hp E. destruct (po_pde _ _ _ K _ Hk Hkv Hp) as (_ & _ & ? & _). congruence.
      * intros Hp _ E. destruct (po_pde _ _ _ K _ Hj Hjv Hp) as (_ & _ & ? & _). congruence.
      * by apply (po_inj _ _ _ K).
    + intros Hc v e Hov Ht. rewrite Hwalk by done. by apply (po_tlb _ _ _ K).
  - set_solver.
  - rewrite Hpde by done. by rewrite decide_True.
  - intros j Hj Hne. rewrite Hpde by done. by rewrite decide_False.
  - right. rewrite Hpde by done. by rewrite decide_True, N2.
  - rewrite Ha. by exists f.
  - done.
  - done.
  - intros g k Hg HgF Hgd Hk. apply Hother; [done| |done]. intros ->. done.
Qed.

(** [get_pte] finds or makes the table and returns the address of the entry. *)
Lemma get_pte_run s d F va :
  pt_ok s d F -> fits 32 va -> pde_index va <> vpt_idx ->
  (present (pde_of (words s) d (pde_index va)) = true \/ F <> ∅) ->
  exists s' F', grown d (pde_index va) s s' F F' /\
    get_pte (wd d 0) va s =
      Ret (wd (frame_of (pde_of (words s') d (pde_index va))) (pte_index va), s').
Proof.
  intros K Hva Hnv Hor.
  assert (Hi : 0 <= pde_index va < 1024) by (unfold pde_index; rewrite index_spec by (done || lia); by apply Z.mod_pos_bound).
  assert (Hj : 0 <= pte_index va < 1024) by (rewrite pte_index_spec by done; by apply Z.mod_pos_bound).
  set (i := pde_index va) in *. destruct (po_dir _ _ _ K) as [Hd HdF].
  assert (Hfin : forall s' F', pt_ok s' d F' -> present (pde_of (words s') d i) = true ->
     (v ← load (wd d i); mret (u32 (phys_to_virt (page_base v) + 4 * pte_index va))) s' =
     Ret (wd (frame_of (pde_of (words s') d i)) (pte_index va), s')).
  { intros s' F' K' Hp. rewrite (M_bind_run _ _ _ _ _ (load_run _ s' (wd_linear d i Hd Hi))).
    destruct (po_pde _ _ _ K' _ Hi Hnv Hp) as (? & ? & _ & _). unfold mret, M_ret.
    f_equal. f_equal. by apply frame_virt. }
  unfold get_pte. fold i. rewrite dir_virt by done.
  rewrite (M_bind_run _ _ _ _ _ (load_run _ s (wd_linear d i Hd Hi))).
  fold (pde_of (words s) d i).
  destruct (present (pde_of (words s) d i)) eqn:Hp.
  - assert (E : (Z.land (pde_of (words s) d i) PTE_P =? 0) = false) by (by apply negb_true_iff).
    rewrite E, (M_bind_run _ _ s s tt eq_refl).
    exists s, F. split; [|by eapply Hfin].
    split; [done..|by left|by rewrite Hp|done|done|done].
  - assert (E : (Z.land (pde_of (words s) d i) PTE_P =? 0) = true) by (by apply negb_false_iff).
    destruct Hor as [?|HF]; [done|].
    destruct (fa_some _ _ (po_alloc _ _ _ K) HF) as (f & fa & Ef & HfF & Hfa).
    assert (Hl : low f) by (eapply fa_low; [apply K|done]).
    rewrite E. set (s1 := PTM (words s) fa (cr0 s) (cr3 s) (tlb s)).
    assert (E1 : alloc_page_normal s = Ret (Some f, s1)) by (unfold alloc_page_normal; by rewrite Ef).
    destruct (zero_words_run 1024 f 0 s1 Hl) as (w & Ew & Hz & Ho); [lia..|].
    set (s2 := PTM (<[wd d i := new_pde f]> w) fa (cr0 s) (cr3 s) (tlb s)).
    assert (G : grown d i s s2 F (F ∖ {[f]})) by (apply install_table; [done..|exact Hz|exact Ho]).
    exists s2, (F ∖ {[f]}). split; [done|].
    rewrite (M_bind_run _ _ s s2 tt).
    + eapply Hfin; apply G.
    + rewrite (M_bind_run _ _ _ _ _ E1). cbn [deref].
      rewrite (M_bind_run _ _ s1 s1 f eq_refl). rewrite page_to_virt_low by done.
      rewrite (M_bind_run _ _ _ _ _ Ew). unfold set_pde. by rewrite store_run by (by apply wd_linear).
Qed.

(** ** Editing entries *)

(** The frames that hold page tables. *)
Definition table (w : gmap Z Z) (d f : Z) : Prop :=
  exists i, 0 <= i < 1024 /\ i <> vpt_idx /\ present (pde_of w d i) = true /\ frame_of (pde_of w d i) = f.

Definition entry (e : Z) : option Z := if present e then Some e else None.

(** From [s] to [s'] the translations of the pages [v .. v + n - 1] became
    [g], the others are the same; new tables (one per page at most) came out of
    [F]; memory that is
    neither the directory nor a table nor free is untouched. *)
Record edited (d v n : Z) (g : Z -> option Z) (s s' : ptm) (F F' : gset Z) : Prop := Edited {
  ed_ok : pt_ok s' d F';
  ed_sub : F' ⊆ F;
  ed_size : Z.of_nat (size F) <= Z.of_nat (size F') + n;
  ed_walk : forall u, outside_vpt u ->
    walk (words s') d u = if decide (v <= u < v + n) then g u else walk (words s) d u;
  ed_regs : cr3 s' = cr3 s /\ cr0 s' = cr0 s;
  ed_frame : forall f k, low f -> f ∉ F -> f <> d -> ~ table (words s) d f -> 0 <= k < 1024 ->
    word_at (words s') (wd f k) = word_at (words s) (wd f k);
  ed_tables : forall f, table (words s') d f -> table (words s) d f \/ f ∈ F
}.

Lemma tlb_invalidate_run d va s : low d ->
  tlb_invalidate (wd d 0) va s =
    Ret (tt, with_tlb (if cr3 s =? 4096 * d then delete (va / 4096) (tlb s) else tlb s) s).
Proof.
  intros Hd. unfold tlb_invalidate, mget, mbind, M_bind. rewrite dir_phys by done.
  by destruct (_ =? _); destruct s.
Qed.

(** Writing the entry of page [u] and dropping its cached translation. *)
Lemma write_entry s d F u e :
  pt_ok s d F -> outside_vpt u -> present (pde_of (words s) d (u / 1024)) = true ->
  edited d u 1 (fun _ => entry e) s
    (PTM (<[wd (frame_of (pde_of (words s) d (u / 1024))) (u mod 1024) := e]> (words s))
       (falloc s) (cr0 s) (cr3 s)
       (if cr3 s =? 4096 * d then delete u (tlb s) else tlb s)) F F /\
  forall j, 0 <= j < 1024 ->
    pde_of (<[wd (frame_of (pde_of (words s) d (u / 1024))) (u mod 1024) := e]> (words s)) d j =
    pde_of (words s) d j.
Proof.
  intros K Hu Hp. destruct (outside_idx u Hu) as [Hq Hr].
  destruct (po_pde _ _ _ K _ Hq (proj2 Hu) Hp) as (Hf & Hl & HnF & Hnd).
  set (t := frame_of (pde_of (words s) d (u / 1024))) in *.
  set (w := <[wd t (u mod 1024) := e]> (words s)).
  assert (Hpde : forall j, 0 <= j < 1024 -> pde_of w d j = pde_of (words s) d j).
  { intros j Hj. unfold pde_of, w. rewrite word_at_insert, decide_False; [done|].
    intros E. by apply wd_inj in E as [? _]; [|done..]. }
  assert (Hwalk : forall x, outside_vpt x ->
    walk w d x = if decide (u <= x < u + 1) then entry e else walk (words s) d x).
  { intros x Hx. destruct (outside_idx x Hx) as [Hxq Hxr]. case_decide as E.
    - assert (x = u) as -> by lia. unfold walk. rewrite Hpde, Hp by done.
      unfold w. fold t. by rewrite word_at_insert, decide_True.
    - apply walk_ext; [by apply Hpde|]. intros Hpx. unfold w.
      rewrite word_at_insert, decide_False; [done|]. intros Ew. apply wd_inj in Ew as [Et Em]; [|done..].
      apply (po_inj _ _ _ K) in Et; [|done|done|apply Hu|apply Hx|done|done].
      apply E. pose proof (Z.div_mod u 1024 ltac:(lia)). pose proof (Z.div_mod x 1024 ltac:(lia)). lia. }
  split; [|done]. split; cbn [words cr0 cr3 tlb falloc].
  - split; cbn [words cr3 tlb falloc].
    + apply K.
    + apply K.
    + intros i Hi. rewrite Hpde by done. apply (po_pde _ _ _ K i Hi).
    + intros i j Hi Hj. rewrite !Hpde by done. by apply (po_inj _ _ _ K).
    + intros Hc v x Hv. rewrite Hc, Z.eqb_refl, lookup_delete, Hwalk by done.
      case_decide as E1; [done|]. intros Hx. rewrite decide_False by lia. by apply (po_tlb _ _ _ K).
  - done.
  - lia.
  - done.
  - done.
  - intros f k Hlf HfF Hfd Ht Hk. unfold w. rewrite word_at_insert, decide_False; [done|].
    intros E. apply wd_inj in E as [<- _]; [|done..]. apply Ht.
    exists (u / 1024). split; [done|]. split; [apply Hu|done].
  - intros f (i & Hi & Hiv & Hpi & Hfi). rewrite Hpde in Hpi, Hfi by done. left. by exists i.
Qed.

Lemma edited_grown d i v n g s s1 s2 F F1 :
  0 <= i < 1024 -> i <> vpt_idx -> 1 <= n -> grown d i s s1 F F1 -> edited d v n g s1 s2 F1 F1 ->
  edited d v n g s s2 F F1.
Proof.
  intros Hi Hiv Hn G E.
  assert (Ht : forall f, table (words s1) d f -> table (words s) d f \/ f ∈ F).
  { intros f (j & Hj & Hjv & Hp & Hf). destruct (decide (j = i)) as [->|Hne].
    - destruct (gr_new _ _ _ _ _ _ G) as [E1|E1]; [left|right; by rewrite <- Hf].
      rewrite E1 in Hp, Hf. by exists i.
    - rewrite (gr_there _ _ _ _ _ _ G) in Hp, Hf by done. left. by exists j. }
  pose proof (gr_sub _ _ _ _ _ _ G) as Hs1. split.
  - apply E.
  - done.
  - pose proof (gr_size _ _ _ _ _ _ G) as Hs. destruct (present _); [subst; lia|].
    destruct Hs as (f & Hf & ->). rewrite size_difference by (by apply singleton_subseteq_l).
    rewrite size_singleton. lia.
  - intros u Hu. rewrite (ed_walk _ _ _ _ _ _ _ _ E) by done. case_decide; [done|].
    by apply (gr_walk _ _ _ _ _ _ G).
  - destruct (ed_regs _ _ _ _ _ _ _ _ E) as [-> ->]. split; apply (gr_regs _ _ _ _ _ _ G).
  - intros f k Hl HF Hd Hnt Hk. rewrite (ed_frame _ _ _ _ _ _ _ _ E); [|done|set_solver|done| |done].
    + by apply (gr_frame _ _ _ _ _ _ G).
    + intros T. by destruct (Ht f T).
  - intros f T. apply (ed_tables _ _ _ _ _ _ _ _ E) in T as [T|T]; [by apply Ht|]. right. set_solver.
Qed.

Lemma edited_trans d v n m g s s1 s2 F F1 F2 :
  0 <= n -> 0 <= m -> edited d v n g s s1 F F1 -> edited d (v + n) m g s1 s2 F1 F2 ->
  edited d v (n + m) g s s2 F F2.
Proof.
  intros Hn Hm E1 E2. pose proof (ed_sub _ _ _ _ _ _ _ _ E1). split.
  - apply E2.
  - etrans; [apply E2|apply E1].
  - pose proof (ed_size _ _ _ _ _ _ _ _ E1). pose proof (ed_size _ _ _ _ _ _ _ _ E2). lia.
  - intros u Hu. rewrite (ed_walk _ _ _ _ _ _ _ _ E2) by done.
    rewrite (ed_walk _ _ _ _ _ _ _ _ E1) by done. repeat case_decide; (done || lia).
  - destruct (ed_regs _ _ _ _ _ _ _ _ E1) as [<- <-]. apply E2.
  - intros f k Hl HF Hd Hnt Hk. rewrite (ed_frame _ _ _ _ _ _ _ _ E2); [|done|set_solver|done| |done].
    + by apply (ed_frame _ _ _ _ _ _ _ _ E1).
    + intros T. by destruct (ed_tables _ _ _ _ _ _ _ _ E1 f T).
  - intros f T. apply (ed_tables _ _ _ _ _ _ _ _ E2) in T as [T|T]; [by apply (ed_tables _ _ _ _ _ _ _ _ E1)|].
    right. set_solver.
Qed.

(** [covered s d v n X]: the tables the pages [v .. v + n - 1] need are there,
    or their directory entries are in [X]. *)
Definition covered (w : gmap Z Z) (d v n : Z) (X : gset Z) : Prop :=
  forall u, v <= u < v + n -> present (pde_of w d (u / 1024)) = true \/ u / 1024 ∈ X.

(** One iteration of either loop, whatever follows it. *)
Lemma edit_step {A} (k : M ptm A) s d F X va e n :
  pt_ok s d F -> fits 32 va -> 0 <= n ->
  (forall u, va / 4096 <= u < va / 4096 + (1 + n) -> outside_vpt u) ->
  covered (words s) d (va / 4096) (1 + n) X -> (size X <= size F)%nat ->
  exists s' F' X',
    (pte ← get_pte (wd d 0) va; _ ← store pte e; _ ← tlb_invalidate (wd d 0) va; k) s = k s' /\
    edited d (va / 4096) 1 (fun _ => entry e) s s' F F' /\
    covered (words s') d (va / 4096 + 1) n X' /\ (size X' <= size F')%nat.
Proof.
  intros K Hva Hn Hout Hc HX. set (u := va / 4096) in *. pose proof (Hout u ltac:(lia)) as Hu. destruct (outside_idx u Hu) as [Hq Hr].
  pose proof (pde_index_spec va Hva) as Ei. pose proof (pte_index_spec va Hva) as Ej. fold u in Ei, Ej.
  destruct (get_pte_run s d F va) as (s1 & F1 & G & E1); [done|done|rewrite Ei; apply Hu| |].
  { rewrite Ei. destruct (Hc u ltac:(lia)) as [?|Hin]; [by left|]. right. intros ->.
    rewrite size_empty in HX. assert (X = ∅) as -> by (apply leibniz_equiv, size_empty_inv; lia). by apply elem_of_empty in Hin. }
  rewrite Ei, Ej in E1. rewrite Ei in G. destruct (po_dir _ _ _ (gr_ok _ _ _ _ _ _ G)) as [Hd _].
  destruct (write_entry s1 d F1 u e (gr_ok _ _ _ _ _ _ G) Hu (gr_here _ _ _ _ _ _ G)) as [E2 Hpde].
  set (s2 := PTM _ (falloc s1) _ _ _) in E2.
  destruct (po_pde _ _ _ (gr_ok _ _ _ _ _ _ G) _ Hq (proj2 Hu) (gr_here _ _ _ _ _ _ G)) as (_ & Hl & _ & _).
  exists s2, F1, (X ∖ (if present (pde_of (words s) d (u / 1024)) then ∅ else {[u / 1024]})).
  split_and!.
  - rewrite (M_bind_run _ _ _ _ _ E1), (M_bind_run _ _ _ _ _ (store_run _ e s1 (wd_linear _ _ Hl Hr))).
    by rewrite (M_bind_run _ _ _ _ _ (tlb_invalidate_run d va _ Hd)).
  - eapply edited_grown; [exact Hq|apply Hu|done|exact G|exact E2].
  - intros x Hx. cbn [words s2]. destruct (decide (x / 1024 = u / 1024)) as [Ex|Nx].
    { left. rewrite Ex. unfold s2. cbn [words]. rewrite Hpde by done. apply G. }
    destruct (Hc x ltac:(lia)) as [Hp|Hin].
    + left. unfold s2. cbn [words].
      destruct (outside_idx x (Hout x ltac:(lia))) as [Hxq _].
      rewrite Hpde by done. by rewrite (gr_there _ _ _ _ _ _ G).
    + right. destruct (present _); set_solver.
  - pose proof (gr_size _ _ _ _ _ _ G) as Hs. destruct (present _) eqn:Hp.
    + subst F1. by rewrite difference_empty_L.
    + destruct Hs as (f & HfF & ->). destruct (Hc u ltac:(lia)) as [?|Hin]; [congruence|].
      rewrite !size_difference by (by apply singleton_subseteq_l). rewrite !size_singleton. lia.
Qed.


(** ** The loops *)

(** [edited] depends on the new entries only on the pages edited. *)
Lemma edited_ext d v n g g' s s' F F' :
  (forall u, v <= u < v + n -> g u = g' u) -> edited d v n g s s' F F' -> edited d v n g' s s' F F'.
Proof.
  intros Hg E. split; try apply E. intros u Hu. rewrite (ed_walk _ _ _ _ _ _ _ _ E) by done.
  case_decide; [by apply Hg|done].
Qed.

Lemma edited_refl d v g s F : pt_ok s d F -> edited d v 0 g s s F F.
Proof.
  intros K. split; [done|done|lia| |done|done|by left]. intros u Hu. by rewrite decide_False by lia.
Qed.

(** Both loops write an entry per page; [ent] gives it from the offset. *)
Fixpoint edit_loop (ent : Z -> Z) (fuel : nat) (pgdir va sz offset : Z) : M ptm unit :=
  match fuel with
  | O => fun _ => Spin
  | S fuel =>
      if offset <? sz then
        pte ← get_pte pgdir va;
        _ ← store pte (ent offset);
        _ ← tlb_invalidate pgdir va;
        edit_loop ent fuel pgdir (u32 (va + PAGE_SIZE)) sz (u32 (offset + PAGE_SIZE))
      else mret tt
  end.

Lemma map_loop_edit fuel pgdir va pa sz flag offset s :
  map_loop fuel pgdir va (u32 (pa + offset)) sz flag offset s =
  edit_loop (fun off => Z.lor (Z.lor (u32 (pa + off)) flag) PTE_P) fuel pgdir va sz offset s.
Proof.
  revert va offset s. induction fuel as [|fuel IH]; intros va offset s; [done|].
  cbn [map_loop edit_loop]. destruct (_ <? _); [|done].
  do 3 (apply M_bind_ext; intros ? ?). rewrite <- IH.
  assert (E : u32 (u32 (pa + offset) + PAGE_SIZE) = u32 (pa + u32 (offset + PAGE_SIZE))).
  { unfold wrap. rewrite Zplus_mod_idemp_l, Zplus_mod_idemp_r. f_equal. lia. }
  by rewrite E.
Qed.

Lemma unmap_loop_edit fuel pgdir va sz offset s :
  unmap_loop fuel pgdir va sz offset s = edit_loop (fun _ => 0) fuel pgdir va sz offset s.
Proof.
  revert va offset s. induction fuel as [|fuel IH]; intros va offset s; [done|].
  cbn [unmap_loop edit_loop]. destruct (_ <? _); [|done].
  do 3 (apply M_bind_ext; intros ? ?). apply IH.
Qed.

Lemma edit_loop_run ent n fuel s d F X v sz k :
  pt_ok s d F -> 0 <= v -> 0 <= k -> sz <= 2 ^ 32 - 4096 -> (n < fuel)%nat ->
  (forall u, v <= u < v + Z.of_nat n -> outside_vpt u) ->
  4096 * (k + Z.of_nat n) - 4096 < sz <= 4096 * (k + Z.of_nat n) \/ n = O /\ sz <= 4096 * k ->
  covered (words s) d v (Z.of_nat n) X -> (size X <= size F)%nat ->
  exists s' F', edit_loop ent fuel (wd d 0) (u32 (4096 * v)) sz (4096 * k) s = Ret (tt, s') /\
    edited d v (Z.of_nat n) (fun u => entry (ent (4096 * (k + (u - v))))) s s' F F'.
Proof.
  revert fuel s F X v k. induction n as [|n IH]; intros fuel s F X v k K Hv Hk Hsz Hfuel Hout Hr Hc HX.
  { destruct fuel; [lia|]. cbn [edit_loop]. if_false. exists s, F. split; [done|]. by apply edited_refl. }
  destruct fuel as [|fuel]; [lia|]. cbn [edit_loop]. if_true.
  assert (Hv20 : v < 2 ^ 20) by (apply (Hout v); lia).
  rewrite (wrap_small 32 (4096 * v)) by (unfold fits; lia).
  assert (Ev : 4096 * v / 4096 = v) by (rewrite Z.mul_comm; by apply Z.div_mul).
  destruct (edit_step (edit_loop ent fuel (wd d 0) (u32 (4096 * v + PAGE_SIZE)) sz (u32 (4096 * k + PAGE_SIZE)))
    s d F X (4096 * v) (ent (4096 * k)) (Z.of_nat n)) as (s1 & F1 & X1 & E1 & D1 & Hc1 & HX1).
  - done.
  - unfold fits; lia.
  - lia.
  - rewrite Ev. intros u Hu. apply Hout. lia.
  - rewrite Ev. by replace (1 + Z.of_nat n) with (Z.of_nat (S n)) by lia.
  - done.
  - rewrite E1, Ev in *. change PAGE_SIZE with 4096.
    replace (4096 * v + 4096) with (4096 * (v + 1)) by lia.
    rewrite (wrap_small 32 (4096 * k + 4096)) by (unfold fits; lia).
    replace (4096 * k + 4096) with (4096 * (k + 1)) by lia.
    destruct (IH fuel s1 F1 X1 (v + 1) (k + 1)) as (s2 & F2 & E2 & D2).
    + apply D1.
    + lia.
    + lia.
    + done.
    + lia.
    + intros u Hu. apply Hout. lia.
    + lia.
    + done.
    + done.
    + exists s2, F2. split; [done|]. replace (Z.of_nat (S n)) with (1 + Z.of_nat n) by lia.
      eapply edited_trans; [lia|lia| |].
      * eapply edited_ext; [|exact D1]. intros u Hu. assert (u = v) as -> by lia. cbn beta.
        do 3 f_equal. lia.
      * eapply edited_ext; [|exact D2]. intros u Hu. cbn beta. do 3 f_equal. lia.
Qed.

(** The number of pages the loops visit. *)
Definition npages (sz : Z) : Z := (sz + 4095) / 4096.

Lemma npages_bounds sz : 0 <= sz ->
  0 <= npages sz /\ 4096 * npages sz - 4096 < sz <= 4096 * npages sz.
Proof.
  intros Hs. unfold npages. pose proof (Z.div_mod (sz + 4095) 4096 ltac:(lia)).
  pose proof (Z.mod_pos_bound (sz + 4095) 4096 ltac:(lia)). lia.
Qed.

(** An edit of [sz] bytes at [va] has what it needs: the pages exist, none
    is in the window of the self map, and there are frames enough for the
    tables that are missing. *)
Definition editable (s : ptm) (d va sz : Z) (F : gset Z) : Prop :=
  (forall u, va / 4096 <= u < va / 4096 + npages sz -> outside_vpt u) /\
  exists X, covered (words s) d (va / 4096) (npages sz) X /\ (size X <= size F)%nat.

(** A page outside the window needs one table at most. *)
Lemma one_page_editable (s : ptm) (d va sz : Z) (F : gset Z) :
  npages sz = 1 -> outside_vpt (va / 4096) -> (0 < size F)%nat -> editable s d va sz F.
Proof.
  intros Hn Ho Hs. assert (Hu : forall u, va / 4096 <= u < va / 4096 + npages sz -> u = va / 4096) by lia.
  split; [by intros u ->%Hu|]. exists {[va / 4096 / 1024]}. split; [|by rewrite size_singleton].
  intros u ->%Hu. right. by apply elem_of_singleton.
Qed.

Lemma round_down_page_spec x : fits 32 x -> round_down_page x = u32 (4096 * (x / 4096)).
Proof.
  intros Hx. unfold round_down_page. change PAGE_SIZE with 4096. rewrite round_down_spec by (done || lia).
  rewrite wrap_small; [lia|]. unfold fits in *. pose proof (Z.mod_pos_bound x 4096 ltac:(lia)).
  pose proof (Z.div_mod x 4096 ltac:(lia)). pose proof (Z.div_pos x 4096 ltac:(lia) ltac:(lia)). lia.
Qed.

Lemma edit_run ent s d F va sz :
  pt_ok s d F -> fits 32 va -> 0 <= sz <= 2 ^ 32 - 4096 -> editable s d va sz F ->
  exists s' F',
    edit_loop ent (S (Z.to_nat (sz / PAGE_SIZE) + 1)) (wd d 0) (round_down_page va) sz 0 s = Ret (tt, s') /\
    edited d (va / 4096) (npages sz) (fun u => entry (ent (4096 * (u - va / 4096)))) s s' F F'.
Proof.
  intros K Hva Hsz [Hout (X & Hc & HX)]. rewrite round_down_page_spec by done.
  destruct (npages_bounds sz ltac:(lia)) as [Hn Hb].
  destruct (edit_loop_run ent (Z.to_nat (npages sz)) (S (Z.to_nat (sz / PAGE_SIZE) + 1)) s d F X (va / 4096) sz 0)
    as (s' & F' & E & D); rewrite ?Z2Nat.id by done; try done.
  - unfold fits in Hva. apply Z.div_pos; lia.
  - lia.
  - change PAGE_SIZE with 4096. unfold npages.
    assert ((sz + 4095) / 4096 <= sz / 4096 + 1); [|lia].
    replace (sz + 4095) with (sz - 1 + 1 * 4096) by lia. rewrite Z.div_add by lia.
    pose proof (Z.div_le_mono (sz - 1) sz 4096 ltac:(lia) ltac:(lia)). lia.
  - lia.
  - exists s', F'. split; [exact E|]. eapply edited_ext; [|rewrite Z2Nat.id in D by done; exact D].
    intros u _. cbn beta. by rewrite Z.add_0_l.
Qed.

Lemma page_map_run (s : ptm) (d va pa sz flag : Z) (F : gset Z) :
  pt_ok s d F -> fits 32 va -> fits 32 pa -> 0 <= sz <= 2 ^ 32 - PAGE_SIZE -> editable s d va sz F ->
  exists s' F', page_map (page_to_virt d) va pa sz flag s = Ret (tt, s') /\
    edited d (va / 4096) (npages sz)
      (fun u => Some (Z.lor (Z.lor (u32 (4096 * (pa / 4096 + (u - va / 4096)))) flag) PTE_P)) s s' F F'.
Proof.
  intros K Hva Hpa Hsz He. unfold page_map, page_to_virt.
  rewrite page_to_virt_low by apply K. rewrite round_down_page_spec with (x := pa) by done.
  rewrite <- (Z.add_0_r (4096 * (pa / 4096))), map_loop_edit.
  destruct (edit_run (fun off => Z.lor (Z.lor (u32 (4096 * (pa / 4096) + off)) flag) PTE_P) s d F va sz K Hva Hsz He)
    as (s' & F' & E & D).
  exists s', F'. split; [exact E|]. eapply edited_ext; [|exact D]. intros u Hu. cbn beta.
  unfold entry. rewrite lor_P_present. do 4 f_equal. lia.
Qed.

(** The tables of a directory can be printed: [page_table_dump] reads only
    memory that is mapped, and changes nothing. *)
Definition tables_low (s : ptm) (d : Z) : Prop :=
  low d /\ forall i, 0 <= i < 1024 -> present (pde_of (words s) d i) = true ->
    fits 32 (pde_of (words s) d i) /\ low (frame_of (pde_of (words s) d i)).

Lemma dump_table_run n s e va_base va size j :
  fits 32 e -> low (frame_of e) -> 0 <= j -> j + Z.of_nat n <= 1024 ->
  exists l b, dump_table n (phys_to_virt (page_base e)) va_base va size j s = Ret ((l, b), s).
Proof.
  intros He Hf. revert j. induction n as [|n IH]; intros j Hj Hn; [by eexists _, _|]. cbn [dump_table].
  rewrite frame_virt by (done || lia).
  rewrite (M_bind_run _ _ _ _ _ (load_run _ s (wd_linear (frame_of e) j Hf ltac:(lia)))).
  destruct (IH (j + 1)) as (l & b & E); [lia|lia|].
  destruct (_ =? 0); [by exists l, b|]. destruct (_ <? _); [by eexists _, _|].
  rewrite (M_bind_run _ _ _ _ _ E). by eexists _, _.
Qed.

Lemma dump_dir_run n s d va size i :
  tables_low s d -> 0 <= i -> i + Z.of_nat n <= 1024 ->
  exists l, dump_dir n (wd d 0) va size i s = Ret (l, s).
Proof.
  intros [Hd Ht]. revert i. induction n as [|n IH]; intros i Hi Hn; [by eexists|]. cbn [dump_dir].
  rewrite dir_virt by (done || lia).
  rewrite (M_bind_run _ _ _ _ _ (load_run _ s (wd_linear d i Hd ltac:(lia)))). fold (pde_of (words s) d i).
  destruct (IH (i + 1)) as [l E]; [lia|lia|]. destruct (Z.land _ _ =? 0) eqn:Hp; [by exists l|].
  destruct (_ <? _); [by exists l|]. destruct (_ <=? _); [by eexists|].
  destruct (Ht i ltac:(lia)) as [He Hf]; [unfold present; change PTE_P with PDE_P; by rewrite Hp|].
  destruct (dump_table_run 1024 s _ (u32 (i * 1024 * PAGE_SIZE)) va size 0 He Hf ltac:(lia) ltac:(lia)) as (l' & b & E').
  rewrite (M_bind_run _ _ _ _ _ E'). cbn [fst snd]. destruct b; [by eexists|].
  rewrite (M_bind_run _ _ _ _ _ E). by eexists.
Qed.

Lemma page_table_dump_run s d va size :
  tables_low s d -> exists l, page_table_dump (page_to_virt d) va size s = Ret (l, s).
Proof.
  intros Ht. unfold page_table_dump, page_to_virt. rewrite page_to_virt_low by apply Ht.
  apply (dump_dir_run 1024 s d va size 0 Ht); lia.
Qed.

(** C5. [page_map] installs exactly the translations it is asked for.  For a
    directory frame [d] with well-formed tables, a size that does not come
    within a page of 4 GiB, and frames enough for the missing tables, the
    call returns; page [k] of the range then translates to page [k] of the
    physical range with the given flags and the present bit, every other
    page translates as before, no processor cache entry contradicts the
    tables, the tables stay well formed, and no memory other than the
    directory, the tables and formerly free frames is written.  The range
    starts at [va] rounded down and has as many pages as [size] rounded up. *)
Theorem page_map_ok (s : ptm) (d va pa sz flag : Z) (F : gset Z) :
  pt_ok s d F -> fits 32 va -> fits 32 pa -> 0 <= sz <= 2 ^ 32 - PAGE_SIZE -> editable s d va sz F ->
  exists s' F', page_map (page_to_virt d) va pa sz flag s = Ret (tt, s') /\
    edited d (va / 4096) (npages sz)
      (fun u => Some (Z.lor (Z.lor (u32 (4096 * (pa / 4096 + (u - va / 4096)))) flag) PTE_P)) s s' F F'.
Proof. apply page_map_run. Qed.

(** C31. [page_unmap] removes exactly the translations of the range, under
    the same conditions: afterwards no page of the range translates, neither
    in the tables nor in the processor's cache, and the rest is unchanged.
    (It may allocate a table for an absent directory entry on the way.) *)
Theorem page_unmap_ok (s : ptm) (d va sz : Z) (F : gset Z) :
  pt_ok s d F -> fits 32 va -> 0 <= sz <= 2 ^ 32 - PAGE_SIZE -> editable s d va sz F ->
  exists s' F', page_unmap (page_to_virt d) va sz s = Ret (tt, s') /\
    edited d (va / 4096) (npages sz) (fun _ => None) s s' F F'.
Proof.
  intros K Hva Hsz He. unfold page_unmap, page_to_virt. rewrite page_to_virt_low by apply K.
  rewrite unmap_loop_edit. exact (edit_run (fun _ => 0) s d F va sz K Hva Hsz He).
Qed.
End PageTable.

(** ** The page allocator as the source of frames *)

(** The low frames the page allocator can hand out. *)
Definition free_low (s : pmem) (F : gset Z) : Prop :=
  exists a, pinv s a /\ forall p, p ∈ F <-> valid s p /\ ~ live_page a p /\ p < highmem_start_pfn.

(** A single page more in use. *)
Lemma live_page_one (a a' : blockmap) h :
  (forall x k, a' !! x = Some (k, false) <-> (Some h = Some x /\ k = 0) \/ a !! x = Some (k, false)) ->
  forall p, live_page a' p <-> live_page a p \/ p = h.
Proof.
  intros L p. unfold live_page. setoid_rewrite L. split.
  - intros (h' & o & [[[= <-] ->]|E'] & Hi).
    + right. unfold inside in Hi. change (2 ^ 0) with 1 in Hi. lia.
    + left. by exists h', o.
  - intros [(h' & o & E' & Hi)| ->]; [by exists h', o; split; [right|]|].
    exists h, 0. split; [by left|]. unfold inside. change (2 ^ 0) with 1. lia.
Qed.

Lemma free_low_alloc s F : free_low s F ->
  exists r s', alloc_page GFP_NORMAL s = Ret (r, s') /\
    match r with
    | Some f => f ∈ F /\ free_low s' (F ∖ {[f]})
    | None => F = ∅ /\ free_low s' F
    end.
Proof.
  intros (a & K & HF).
  destruct (alloc_pages_run s a GFP_NORMAL 0 K ltac:(done)) as (r & s' & a' & E & Hs & K' & V & _).
  exists r, s'. split; [exact E|].
  pose proof (alloc_spec_live _ _ _ _ _ _ _ (pi_tile _ _ _ _ (proj1 K)) ltac:(done) Hs) as L.
  pose proof (pi_tile _ _ _ _ (proj1 K)) as T. destruct Hs as [Hn|h k Eh Hw _ _].
  - assert (F = ∅) as ->.
    { apply set_eq. intros p. split; [|by intros ?%elem_of_empty]. intros Hp.
      apply HF in Hp as (Hv & Hl & Hlow). exfalso.
      destruct (proj1 (tl_cover _ _ _ T p) Hv) as (h & o & f & Eh & Hi).
      destruct f; [|apply Hl; by exists h, o].
      assert (o < 0); [|destruct (tl_wf _ _ _ T _ _ _ Eh); lia].
      apply (Hn h o Eh). unfold wanted, in_highmem, inside in *. change (Z.land GFP_NORMAL GFP_HIGHMEM =? 0) with true.
      cbn [negb]. lia. }
    split; [done|]. exists a. split; [done|]. intros p. rewrite V. apply HF.
  - match type of K' with pinv _ ?x => set (a' := x) in * end.
    assert (Hlive : forall p, live_page a' p <-> live_page a p \/ p = h) by by apply live_page_one.
    assert (Hnl : ~ live_page a h).
    { intros (h' & o & E' & Hi). pose proof (tiling_inside_head _ _ _ _ _ _ _ T E' Hi Eh). congruence. }
    split.
    + apply HF. split; [by eapply tiling_head_managed|]. split; [done|].
      unfold wanted, in_highmem in Hw. change (Z.land GFP_NORMAL GFP_HIGHMEM =? 0) with true in Hw. cbn [negb] in Hw. lia.
    + exists a'. split; [done|]. intros p. rewrite elem_of_difference, elem_of_singleton, V, HF, Hlive. tauto.
Qed.

#[export, refine] Instance page_frames : FrameAlloc := {|
  fa_state := pmem;
  fa_alloc_page := alloc_page GFP_NORMAL;
  fa_inv := free_low
|}.
Proof.
  - intros s F f (a & K & HF) Hf. apply HF in Hf as ([[? _] _] & _ & ?). lia.
  - intros s F K HF. destruct (free_low_alloc s F K) as ([f|] & s' & E & H).
    + by exists f, s'.
    + by destruct H.
  - intros s K. destruct (free_low_alloc s ∅ K) as ([f|] & s' & E & H).
    + destruct H as [Hf _]. by apply elem_of_empty in Hf.
    + exists s'. by destruct H.
Defined.

(** An empty directory in frame 256, with the frames of [mem1] free. *)
Definition ptm0 : ptm := PTM ∅ mem1 0 0x100000 ∅.
Definition frames0 : gset Z := list_to_set (seqZ 0x37c00 0x400).

Lemma frames0_spec p : p ∈ frames0 <-> 0x37c00 <= p < 0x38000.
Proof. unfold frames0. rewrite elem_of_list_to_set, elem_of_seqZ. lia. Qed.

#[local] Opaque frames0.

Lemma two_frames : (1 < size frames0)%nat.
Proof.
  assert (Hsub : ({[0x37c00; 0x37c01]} : gset Z) ⊆ frames0).
  { intros x [->%elem_of_singleton| ->%elem_of_singleton]%elem_of_union; apply frames0_spec; lia. }
  apply subseteq_size in Hsub. rewrite size_union, !size_singleton in Hsub.
  - exact Hsub.
  - apply disjoint_singleton_l. rewrite elem_of_singleton. discriminate.
Qed.

Lemma ptm0_ok : pt_ok ptm0 256 frames0.
Proof.
  split; cbn [words falloc cr3 tlb ptm0].
  - split; [done|]. rewrite frames0_spec. lia.
  - destruct mem1_inv as (a & K & L & V). exists a. split; [exact K|]. intros p.
    rewrite frames0_spec, V. unfold range. change highmem_start_pfn with 0x38000.
    split; [|lia]. intros Hp. split; [lia|]. split; [|lia]. intros (h & o & E & _). by apply L in E.
  - done.
  - done.
  - done.
Qed.

(** Any range of one page of the kernel's linear area can be edited. *)
Lemma ptm0_editable : editable ptm0 256 0xC0001234 0x1000 frames0.
Proof.
  split.
  - change (npages 0x1000) with 1. change (0xC0001234 / 4096) with 0xC0001. intros u Hu.
    assert (u = 0xC0001) as -> by lia. done.
  - exists {[768]}. split.
    + change (npages 0x1000) with 1. change (0xC0001234 / 4096) with 0xC0001. intros u Hu.
      assert (u = 0xC0001) as -> by lia. right. by apply elem_of_singleton.
    + rewrite size_singleton, <- (size_singleton (C := gset Z) 0x37c00).
      apply subseteq_size, singleton_subseteq_l, frames0_spec. lia.
Qed.

Lemma page_map_ok_witness :
  exists s' F', page_map (page_to_virt 256) 0xC0001234 0x1000 0x1000 PTE_W ptm0 = Ret (tt, s') /\
    edited 256 (0xC0001234 / 4096) (npages 0x1000)
      (fun u => Some (Z.lor (Z.lor (u32 (4096 * (0x1000 / 4096 + (u - 0xC0001234 / 4096)))) PTE_W) PTE_P))
      ptm0 s' frames0 F'.
Proof. apply (page_map_ok ptm0 256 0xC0001234 0x1000 0x1000 PTE_W frames0 ptm0_ok); try done. apply ptm0_editable. Defined.

Lemma page_unmap_ok_witness :
  exists s' F', page_unmap (page_to_virt 256) 0xC0001234 0x1000 ptm0 = Ret (tt, s') /\
    edited 256 (0xC0001234 / 4096) (npages 0x1000) (fun _ => None) ptm0 s' frames0 F'.
Proof. apply (page_unmap_ok ptm0 256 0xC0001234 0x1000 frames0 ptm0_ok); try done. apply ptm0_editable. Defined.
