(* ===== verification/Memory.v ===== *)
(** * Memory initialisation (mm/memory.c)

    [scan_memory_slot] hands the RAM above the kernel to the page allocator,
    from the list of slots the BIOS reports; [seg_init] and [gdt_init] build
    the flat segment descriptors; [setup_paging] is the part of
    [memory_init] that makes the kernel's page directory, maps the linear
    area and switches paging on. *)

From stdpp Require Import base numbers list gmap sets.
From Stdlib Require Import ZArith Lia ZifyBool ZifyNat.
From S2P Require Import Prelude Bitops Lock ListNode Buddy Page PageTable.

Open Scope Z_scope.

(** ** The memory map *)

Definition E820_RAM : Z := 1.

Record e820_map := E820Map { addr : Z; size : Z; type : Z }.

Abbreviation u64 := (wrap 64).

(** [phys_to_pfn] casts its argument to [uintptr_t] without parenthesising
    it: of the sum [map->addr + map->size] only the first 64-bit operand is
    truncated to 32 bits; the quotient is then converted to [unsigned long]. *)
Definition slot_end_pfn (m : e820_map) : Z := u32 (Z.shiftr (u64 (u32 (addr m) + size m)) PAGE_SHIFT).
Definition slot_start_pfn (m : e820_map) : Z := phys_to_pfn (u32 (addr m)).

(** The first loop: the last RAM slot that holds the end of the kernel. *)
Fixpoint find_slot (phys_end : Z) (i : nat) (slots : list e820_map) (index : option nat) : option nat :=
  match slots with
  | [] => index
  | m :: slots =>
      find_slot phys_end (S i) slots
        (if (type m =? E820_RAM) && (addr m <? phys_end) && (phys_end <? u64 (addr m + size m))
         then Some i else index)
  end.

(** The last loop, over the slots behind the kernel's. *)
Fixpoint add_slots (slots : list e820_map) : M pmem unit :=
  match slots with
  | [] => mret tt
  | m :: slots =>
      _ ← (if type m =? E820_RAM then add_free_pages (slot_start_pfn m) (slot_end_pfn m) else mret tt);
      add_slots slots
  end.

(** The frame numbers [scan_memory_slot] stores in its global variables. *)
Record pfns := Pfns {
  kernel_end_pfn : Z;
  linear_start_pfn : Z;
  linear_end_pfn : Z;
  highmem_end_pfn : Z
}.

(** [kend] is the address of the linker symbol [end].  [index] is not
    initialised: without a slot that holds the kernel, the map is read at an
    arbitrary index. *)
Definition scan_memory_slot (kend : Z) (slots : list e820_map) : M pmem pfns :=
  let index := find_slot (virt_to_phys kend) 0 slots None in
  let kernel_end := phys_to_pfn (round_up_page (virt_to_phys kend)) in
  index ← mlift (deref index);
  map ← mlift (deref (slots !! index));
  let free_end := slot_end_pfn map in
  let g :=
    if free_end <=? highmem_start_pfn
    then Pfns kernel_end kernel_end free_end highmem_start_pfn
    else Pfns kernel_end kernel_end highmem_start_pfn free_end in
  _ ← add_free_pages kernel_end free_end;
  _ ← add_slots (drop (S index) slots);
  mret g.

(** ** Segments *)

Record seg_desc := SegDesc {
  lim_15_0 : Z; base_15_0 : Z; base_23_16 : Z; seg_type : Z; seg_s : Z; dpl : Z; seg_present : Z;
  lim_19_16 : Z; avl : Z; seg_l : Z; db : Z; gran : Z; base_31_24 : Z
}.

Definition seg_init (ty base limit d : Z) (g : bool) : seg_desc :=
  let limit := if g then Z.shiftr limit 12 else limit in
  SegDesc (Z.land limit 0xffff) (Z.land base 0xffff) (Z.land (Z.shiftr base 16) 0xff)
    (wrap 4 ty) 1 (wrap 2 d) 1 (Z.land (Z.shiftr limit 16) 0xf) 0 0 1 (Z.b2z g)
    (Z.land (Z.shiftr base 24) 0xff).

Definition STA_X : Z := 0x8.
Definition STA_W : Z := 0x2.
Definition STA_R : Z := 0x2.
Definition SEG_KTEXT : Z := 1.
Definition SEG_KDATA : Z := 2.
Definition SEG_UTEXT : Z := 3.
Definition SEG_UDATA : Z := 4.
Definition DPL_KERNEL : Z := 0.
Definition DPL_USER : Z := 3.
Definition KERNEL_CS : Z := Z.lor (Z.shiftl SEG_KTEXT 3) DPL_KERNEL.
Definition KERNEL_DS : Z := Z.lor (Z.shiftl SEG_KDATA 3) DPL_KERNEL.
Definition USER_DS : Z := Z.lor (Z.shiftl SEG_UDATA 3) DPL_USER.

(** The descriptor table [gdt] and its address, the limit and the base in
    GDTR, and the selectors in the segment registers. *)
Record segs := Segs {
  gdt : gmap Z seg_desc; gdt_at : Z; gdtr : Z * Z; cs : Z; ds : Z; es : Z; fs : Z; gs : Z; ss : Z
}.

Definition SEG_MAX : Z := 6.

Definition gdt_init (s : segs) : segs :=
  let t := gdt s in
  let t := <[SEG_KTEXT := seg_init (Z.lor STA_X STA_R) 0x0 0xFFFFFFFF DPL_KERNEL true]> t in
  let t := <[SEG_KDATA := seg_init STA_W 0x0 0xFFFFFFFF DPL_KERNEL true]> t in
  let t := <[SEG_UTEXT := seg_init (Z.lor STA_X STA_R) 0x0 0xFFFFFFFF DPL_USER true]> t in
  let t := <[SEG_UDATA := seg_init STA_W 0x0 0xFFFFFFFF DPL_USER true]> t in
  Segs t (gdt_at s) (8 * SEG_MAX - 1, gdt_at s) KERNEL_CS KERNEL_DS KERNEL_DS USER_DS USER_DS KERNEL_DS.

(** How the processor reads a descriptor. *)
Definition seg_base (d : seg_desc) : Z :=
  base_15_0 d + 2 ^ 16 * base_23_16 d + 2 ^ 24 * base_31_24 d.
Definition seg_limit (d : seg_desc) : Z :=
  let l := lim_15_0 d + 2 ^ 16 * lim_19_16 d in
  if gran d =? 1 then 4096 * l + 4095 else l.

(** The descriptor the processor finds for a selector: the entry of the
    table GDTR points to, when the limit includes it. *)
Definition selected (g : segs) (sel : Z) : option seg_desc :=
  if ((gdtr g).2 =? gdt_at g) && (8 * (sel / 8) + 7 <=? (gdtr g).1) then gdt g !! (sel / 8) else None.

(** The selector names a present 32-bit segment of the given type and
    privilege that starts at 0 and covers the 4 GiB. *)
Definition flat_segment (g : segs) (sel ty pl : Z) : Prop :=
  exists d, selected g sel = Some d /\ seg_base d = 0 /\ seg_limit d = 0xFFFFFFFF /\ seg_type d = ty /\
    dpl d = pl /\ seg_s d = 1 /\ seg_present d = 1 /\ db d = 1.

(** The segments of the kernel and of user programs: executable and
    readable (10) or writable (2); all segment registers in use. *)
Record flat_segments (g : segs) : Prop := FlatSegments {
  fl_cs : cs g = 8 /\ flat_segment g (cs g) 10 0;
  fl_ds : ds g = 16 /\ es g = 16 /\ ss g = 16 /\ flat_segment g (ds g) 2 0;
  fl_fs : fs g = 35 /\ gs g = 35 /\ flat_segment g (fs g) 2 3;
  fl_user : flat_segment g 27 10 3
}.

(** ** Switching paging on *)

(** The processor caches the translation of a page it touches. *)
Definition tlb_fill (d v : Z) : M ptm unit := fun s =>
  Ret (tt, with_tlb (match walk (words s) d v with
                     | Some e => <[v := e]> (tlb s) | None => tlb s end) s).

Fixpoint fetches (d : Z) (l : list Z) : M ptm unit :=
  match l with [] => mret tt | v :: l => _ ← tlb_fill d v; fetches d l end.

(** Both the tables and the segments change here. *)
Abbreviation boot := (ptm * segs)%type.
Definition on_tables {A} (m : M ptm A) : M boot A := fun b =>
  match m b.1 with
  | Ret (a, s) => Ret (a, (s, b.2)) | Bug => Bug | Fault => Fault | Spin => Spin
  end.

(** [code]: the pages the processor touches between the two writes of
    [pgdir[0]], through the temporary mapping. *)
Definition start_paging (code : list Z) (pgdir : Z) : M boot unit :=
  v ← on_tables (load (u32 (pgdir + 4 * pde_index KERNEL_VIRT_BASE)));
  _ ← on_tables (store pgdir v);
  _ ← on_tables (enable_paging (virt_to_phys pgdir));
  _ ← on_tables (fetches (phys_to_pfn (virt_to_phys pgdir)) code);
  _ ← mmod (fun b => (b.1, gdt_init b.2));
  on_tables (store pgdir 0).

(** The middle of [memory_init]: the result of [alloc_page] is not checked,
    and the page is not cleared before it becomes the directory. *)
Definition setup_paging (code : list Z) (linear_end : Z) : M boot Z :=
  page ← on_tables alloc_page_normal;
  page ← mlift (deref page);
  let c := page_to_phys page in
  let pgdir := phys_to_virt c in
  _ ← on_tables (set_pde (u32 (pgdir + 4 * pde_index VPT)) c (Z.lor PDE_P PDE_W));
  _ ← on_tables (page_map pgdir KERNEL_VIRT_BASE 0x0 (u32 (Z.shiftl linear_end PAGE_SHIFT)) PTE_W);
  _ ← start_paging code pgdir;
  mret pgdir.

(** ** The memory map is handed over *)

(** The last byte of the page is in a RAM slot; the whole page is. *)
Definition ram_page (m : e820_map) (p : Z) : Prop :=
  type m = E820_RAM /\ addr m <= 4096 * p + 4095 < addr m + size m.
Definition whole_ram_page (m : e820_map) (p : Z) : Prop :=
  type m = E820_RAM /\ addr m <= 4096 * p /\ 4096 * p + 4096 <= addr m + size m.

(** The page range the code computes for a slot. *)
Lemma ram_page_range m p :
  ram_page m p <-> type m = E820_RAM /\ addr m / 4096 <= p < (addr m + size m) / 4096.
Proof. unfold ram_page. split; intros [Ht Hr]; (split; [done|]); Z.div_mod_to_equations; lia. Qed.

(** RAM slots in ascending order from [lo], below 4 GiB. *)
Fixpoint slots_from (lo : Z) (slots : list e820_map) : Prop :=
  match slots with
  | [] => True
  | m :: slots =>
      if type m =? E820_RAM
      then lo <= addr m < 2 ^ 32 /\ 0 <= size m /\ addr m + size m <= 2 ^ 32 /\ slots_from (addr m + size m) slots
      else slots_from lo slots
  end.

Lemma slot_end_pfn_spec m : 0 <= addr m < 2 ^ 32 -> 0 <= size m -> addr m + size m <= 2 ^ 32 ->
  slot_end_pfn m = (addr m + size m) / 4096.
Proof.
  intros Ha Hs He. unfold slot_end_pfn. rewrite (wrap_small 32 (addr m)) by (unfold fits; lia).
  rewrite (wrap_small 64) by (unfold fits; lia). unfold PAGE_SHIFT. rewrite Z.shiftr_div_pow2 by lia.
  change (2 ^ 12) with 4096. apply wrap_small. split; [apply Z.div_pos; lia|].
  apply Z.div_lt_upper_bound; lia.
Qed.

Lemma slot_start_pfn_spec m : 0 <= addr m < 2 ^ 32 -> slot_start_pfn m = addr m / 4096.
Proof.
  intros Ha. unfold slot_start_pfn, phys_to_pfn, PAGE_SHIFT. rewrite (wrap_small 32) by (unfold fits; lia).
  by rewrite Z.shiftr_div_pow2.
Qed.

Lemma add_slots_run slots lo s a :
  pinv s a -> 0 <= lo -> slots_from lo slots ->
  (forall p, lo / 4096 <= p < TOTAL_PAGES -> flags (pg s p) = 0) ->
  exists s' a', add_slots slots s = Ret (tt, s') /\ pinv s' a' /\
    (forall p, valid s' p <-> valid s p \/ exists m, m ∈ slots /\ ram_page m p) /\
    (forall h k, a' !! h = Some (k, false) <-> a !! h = Some (k, false)).
Proof.
  revert lo s a. induction slots as [|m slots IH]; intros lo s a K Hlo Hs Hz.
  { exists s, a. split_and!; [done..| |done]. intros p. split; [by left|].
    intros [?|(m & Hm & _)]; [done|]. by apply elem_of_nil in Hm. }
  cbn [add_slots slots_from] in *. destruct (Z.eqb_spec (type m) E820_RAM) as [Ht|Ht].
  - destruct Hs as (H1 & H2 & H3 & H4).
    rewrite slot_start_pfn_spec, slot_end_pfn_spec by lia.
    pose proof (Z.div_le_mono lo (addr m) 4096 ltac:(lia) (proj1 H1)).
    pose proof (Z.div_le_mono (addr m) (addr m + size m) 4096 ltac:(lia) ltac:(lia)).
    pose proof (Z.div_le_mono (addr m + size m) (2 ^ 32) 4096 ltac:(lia) H3) as H5.
    change (2 ^ 32 / 4096) with TOTAL_PAGES in H5. pose proof (Z.div_pos lo 4096 Hlo ltac:(lia)).
    destruct (add_free_pages_run s a (addr m / 4096) ((addr m + size m) / 4096) K)
      as (s1 & a1 & E1 & K1 & V1 & L1 & F1); [lia|lia| |].
    { intros p Hp. apply Hz. unfold range in Hp. lia. }
    destruct (IH (addr m + size m) s1 a1 K1 ltac:(lia) H4) as (s2 & a2 & E2 & K2 & V2 & L2).
    { intros p Hp. rewrite F1; [apply Hz|]; unfold range; lia. }
    exists s2, a2. split; [by rewrite (M_bind_run _ _ _ _ _ E1)|]. split_and!; [done| |].
    + intros p. rewrite V2, V1. setoid_rewrite elem_of_cons. unfold range. split.
      * intros [[?|Hr]|(m' & ? & ?)]; [by left|right; exists m; split; [by left|by apply ram_page_range]|].
        right. exists m'. split; [by right|done].
      * intros [?|(m' & [->|?] & Hr)]; [by left; left|left; right; by apply ram_page_range in Hr as [_ Hr]|]. right. by exists m'.
    + intros h k. by rewrite L2, L1.
  - destruct (IH lo s a K Hlo Hs Hz) as (s2 & a2 & E2 & K2 & V2 & L2).
    exists s2, a2. split; [done|]. split_and!; [done| |done].
    intros p. rewrite V2. setoid_rewrite elem_of_cons. split.
    + intros [?|(m' & ? & ?)]; [by left|]. right. exists m'. split; [by right|done].
    + intros [?|(m' & [->|?] & Hr)]; [by left|by destruct Hr|]. right. by exists m'.
Qed.

(** The slot found is RAM and holds the end of the kernel. *)
Lemma find_slot_some phys_end i slots index r :
  find_slot phys_end i slots index = Some r ->
  index = Some r \/ exists m, slots !! (r - i)%nat = Some m /\ (i <= r)%nat /\
    type m = E820_RAM /\ addr m < phys_end < u64 (addr m + size m).
Proof.
  revert i index. induction slots as [|m slots IH]; intros i index E; [by left|].
  cbn [find_slot] in E. apply IH in E as [E|(m' & Em & Hr & Hm)].
  - destruct (_ && _) eqn:Eb; [|by left]. injection E as <-. right. exists m.
    rewrite Nat.sub_diag. zify_bool. split; [done|]. lia.
  - right. exists m'. split; [|split; [lia|done]].
    replace (r - i)%nat with (S (r - S i)) by lia. done.
Qed.

(** C37. The scan of the memory map, for a map whose RAM slots from the one
    that holds the end of the kernel on are in ascending order and end below
    4 GiB: every assertion on the way holds, and the pages the allocator has
    afterwards, all free, are exactly the pages from the first one behind
    the kernel to the last one that ends inside the kernel's slot, and the
    pages whose last byte is in one of the RAM slots that follow.  When these
    slots start at page boundaries, every such page is RAM as a whole (see
    [scan_partial_page] for a slot that does not).  The zone boundaries are
    computed from the end of the kernel's slot. *)
Theorem scan_memory_slot_ok (s : pmem) (kend : Z) (slots : list e820_map) (i : nat) (m : e820_map) :
  pinv s ∅ -> (forall p, flags (pg s p) = 0) ->
  KERNEL_VIRT_BASE <= kend < KERNEL_VIRT_BASE + PHYS_HIGHMEM_START ->
  find_slot (virt_to_phys kend) 0 slots None = Some i -> slots !! i = Some m ->
  slots_from (addr m) (drop i slots) ->
  let first := (kend - KERNEL_VIRT_BASE + 4095) / 4096 in
  let behind := drop (S i) slots in
  first <= (addr m + size m) / 4096 -> 0 <= addr m ->
  exists s' a g, scan_memory_slot kend slots s = Ret (g, s') /\ pinv s' a /\
    (forall p, valid s' p <-> first <= p /\ 4096 * p + 4095 < addr m + size m \/
                             exists m', m' ∈ behind /\ ram_page m' p) /\
    ((forall m', m' ∈ behind -> type m' = E820_RAM -> addr m' mod 4096 = 0) ->
       forall p, valid s' p -> exists m', m' ∈ slots /\ whole_ram_page m' p) /\
    (forall h k, a !! h <> Some (k, false)) /\
    kernel_end_pfn g = first /\
    linear_end_pfn g = Z.min ((addr m + size m) / 4096) highmem_start_pfn /\
    highmem_end_pfn g = Z.max ((addr m + size m) / 4096) highmem_start_pfn.
Proof.
  intros K Hz Hk Ef Em Hs first behind Hle Ha0. subst behind.
  destruct (find_slot_some _ _ _ _ _ Ef) as [?|(m' & Em' & _ & Ht & Hend & _)]; [done|].
  rewrite Nat.sub_0_r, Em in Em'. injection Em' as <-.
  rewrite (drop_S _ _ _ Em) in Hs. cbn [slots_from] in Hs. rewrite Ht, Z.eqb_refl in Hs.
  destruct Hs as (H1 & H2 & H3 & H4).
  assert (Ev : virt_to_phys kend = kend - KERNEL_VIRT_BASE).
  { unfold virt_to_phys. apply wrap_small. unfold fits, PHYS_HIGHMEM_START, KERNEL_VIRT_BASE in *. lia. }
  assert (Ek : phys_to_pfn (round_up_page (virt_to_phys kend)) = first).
  { rewrite Ev. unfold phys_to_pfn, round_up_page, PAGE_SHIFT. change PAGE_SIZE with 4096.
    rewrite round_up_spec by (unfold PHYS_HIGHMEM_START, KERNEL_VIRT_BASE in *; lia).
    rewrite Z.shiftr_div_pow2 by lia. change (2 ^ 12) with 4096. rewrite Z.div_mul by lia.
    unfold first. f_equal. lia. }
  assert (Hf0 : 0 <= first) by (apply Z.div_pos; lia).
  pose proof (Z.div_le_mono (addr m + size m) (2 ^ 32) 4096 ltac:(lia) H3) as H5.
  change (2 ^ 32 / 4096) with TOTAL_PAGES in H5.
  destruct (add_free_pages_run s ∅ first ((addr m + size m) / 4096) K)
    as (s1 & a1 & E1 & K1 & V1 & L1 & F1); [lia|lia|by intros|].
  destruct (add_slots_run (drop (S i) slots) (addr m + size m) s1 a1 K1 ltac:(lia) H4)
    as (s2 & a2 & E2 & K2 & V2 & L2).
  { intros p Hp. rewrite F1; [done|]. unfold range. lia. }
  eexists s2, a2, _. split.
  { unfold scan_memory_slot. rewrite Ef, Ek. cbn [deref].
    rewrite (M_bind_run _ _ s s i) by done. rewrite Em. rewrite (M_bind_run _ _ s s m) by done.
    rewrite slot_end_pfn_spec by lia.
    rewrite (M_bind_run _ _ _ _ _ E1), (M_bind_run _ _ _ _ _ E2). done. }
  assert (Hval : forall p, valid s2 p <-> first <= p /\ 4096 * p + 4095 < addr m + size m \/
                             exists m', m' ∈ drop (S i) slots /\ ram_page m' p).
  { intros p. rewrite V2, V1. unfold range. split.
    - intros [[[_ Hv]|?]|?]; [by rewrite Hz in Hv| |by right]. left. Z.div_mod_to_equations. lia.
    - intros [?|?]; [left; right|by right]. Z.div_mod_to_equations. lia. }
  split_and!; [done|exact Hval| | | | |].
  - intros Hal p Hv. apply Hval in Hv as [Hv|(m' & Hm' & Hr)].
    + exists m. split; [by eapply list_elem_of_lookup_2|]. split; [done|]. unfold first in Hv.
      rewrite Ev in Hend. Z.div_mod_to_equations. lia.
    + exists m'. destruct Hr as [Hr1 Hr2]. specialize (Hal m' Hm' Hr1). split; [rewrite <- (take_drop (S i) slots); apply elem_of_app; by right|]. split; [done|].
      Z.div_mod_to_equations. lia.
  - intros h k E. apply L2, L1 in E. by rewrite lookup_empty in E.
  - by case_if.
  - case_if; cbn; lia.
  - case_if; cbn; lia.
Qed.

(** A machine with two slots: 1 to 4 MiB and 8 to 9 MiB. *)
Definition slots0 : list e820_map :=
  [E820Map 0 0x9fc00 1; E820Map 0x100000 0x300000 1; E820Map 0x400000 0x100000 2;
   E820Map 0x800000 0x100000 1].

Lemma scan_memory_slot_ok_witness :
  exists s' a g, scan_memory_slot 0xC0200010 slots0 mem0 = Ret (g, s') /\ pinv s' a /\
    (forall p, valid s' p <-> 0x201 <= p /\ 4096 * p + 4095 < 0x400000 \/
                             exists m', m' ∈ drop 2 slots0 /\ ram_page m' p) /\
    ((forall m', m' ∈ drop 2 slots0 -> type m' = E820_RAM -> addr m' mod 4096 = 0) ->
       forall p, valid s' p -> exists m', m' ∈ slots0 /\ whole_ram_page m' p) /\
    (forall h k, a !! h <> Some (k, false)) /\
    kernel_end_pfn g = 0x201 /\
    linear_end_pfn g = 0x400 /\
    highmem_end_pfn g = highmem_start_pfn.
Proof.
  apply (scan_memory_slot_ok mem0 0xC0200010 slots0 1 (E820Map 0x100000 0x300000 1)).
  - apply mem0_inv.
  - intros p. by rewrite (proj2 mem0_inv).
  - done.
  - done.
  - done.
  - cbn. lia.
  - done.
  - done.
Defined.

(** A RAM slot at or above 4 GiB, which the BIOS reports on larger
    machines, is truncated to a 32-bit address: after the scan the first
    pages of memory, among them page 8 from which the map itself is being
    read, are valid pages that the allocator may hand out. *)
Theorem scan_wraps_high_ram :
  exists s' g,
    scan_memory_slot 0xC0101010 [E820Map 0x100000 0x4000 1; E820Map 0x100000000 0x10000 1] mem0
      = Ret (g, s') /\
    valid s' 8 /\ test_bit PAGE_FREE (flags (pg s' 8)) = true.
Proof.
  set (r := scan_memory_slot _ _ _).
  assert (H : match r with
    | Ret (_, s) => test_bit PAGE_VALID (flags (pg s 8)) && test_bit PAGE_FREE (flags (pg s 8))
    | _ => false end = true) by (unfold r; vm_compute; reflexivity).
  destruct r as [[g s]| | |]; [|done..]. apply andb_prop in H as [Hv Hf]. by exists s, g.
Qed.

(** A RAM slot that starts inside a page: the start is rounded down, and the
    allocator gets a page whose first half is not RAM. *)
Theorem scan_partial_page :
  exists s' g,
    scan_memory_slot 0xC0101010 [E820Map 0x100000 0x4000 1; E820Map 0x200000 0x800 2; E820Map 0x200800 0x2000 1] mem0
      = Ret (g, s') /\
    valid s' 0x200 /\ test_bit PAGE_FREE (flags (pg s' 0x200)) = true.
Proof.
  set (r := scan_memory_slot _ _ _).
  assert (H : match r with
    | Ret (_, s) => test_bit PAGE_VALID (flags (pg s 0x200)) && test_bit PAGE_FREE (flags (pg s 0x200))
    | _ => false end = true) by (unfold r; vm_compute; reflexivity).
  destruct r as [[g s]| | |]; [|done..]. apply andb_prop in H as [Hv Hf]. by exists s, g.
Qed.

(** ** Segments *)

(** [seg_init] encodes base and limit so that the processor reads them
    back: the base exactly, the limit exactly when counted in bytes (below
    1 MiB) and rounded up to the last byte of its page when counted in pages. *)
Theorem seg_init_roundtrip (ty base limit d : Z) (g : bool) :
  fits 32 base -> fits 32 limit -> (g = false -> limit < 2 ^ 20) ->
  seg_base (seg_init ty base limit d g) = base /\
  seg_limit (seg_init ty base limit d g) = if g then 4096 * (limit / 4096) + 4095 else limit.
Proof.
  intros Hb Hl Hg. unfold fits in *.
  assert (E : forall x k n, 0 <= k -> 0 <= n -> Z.land (Z.shiftr x k) (Z.ones n) = (x / 2 ^ k) mod 2 ^ n).
  { intros x k n Hk Hn. by rewrite Z.land_ones, Z.shiftr_div_pow2. }
  assert (E20 : forall l, 0 <= l < 2 ^ 20 ->
    Z.land l 0xffff + 2 ^ 16 * Z.land (Z.shiftr l 16) 0xf = l).
  { intros l Hll. change 0xf with (Z.ones 4). rewrite E by lia. change 0xffff with (Z.ones 16).
    rewrite Z.land_ones by lia. rewrite (Z.mod_small (l / 2 ^ 16)).
    - pose proof (Z.div_mod l (2 ^ 16) ltac:(lia)). lia.
    - split; [apply Z.div_pos; lia|]. apply Z.div_lt_upper_bound; lia. }
  split.
  - unfold seg_base, seg_init. cbn [base_15_0 base_23_16 base_31_24].
    change 0xff with (Z.ones 8). rewrite !E by lia. change 0xffff with (Z.ones 16).
    rewrite Z.land_ones by lia. change (2 ^ 24) with (2 ^ 16 * 2 ^ 8).
    rewrite <- Z.div_div by lia. rewrite (Z.mod_small (base / 2 ^ 16 / 2 ^ 8)).
    + pose proof (Z.div_mod base (2 ^ 16) ltac:(lia)).
      pose proof (Z.div_mod (base / 2 ^ 16) (2 ^ 8) ltac:(lia)). lia.
    + split; [apply Z.div_pos; [apply Z.div_pos|]; lia|].
      apply Z.div_lt_upper_bound; [lia|]. apply Z.div_lt_upper_bound; lia.
  - unfold seg_limit, seg_init. cbn [lim_15_0 lim_19_16 gran]. destruct g; cbn [Z.b2z Z.eqb].
    + rewrite E20; rewrite Z.shiftr_div_pow2 by lia; change (2 ^ 12) with 4096; [done|].
      split; [apply Z.div_pos; lia|]. apply Z.div_lt_upper_bound; lia.
    + apply E20. specialize (Hg eq_refl). lia.
Qed.

Lemma seg_init_roundtrip_witness :
  seg_base (seg_init STA_W 0x12345678 0xFFFFFFFF DPL_USER true) = 0x12345678 /\
  seg_limit (seg_init STA_W 0x12345678 0xFFFFFFFF DPL_USER true) = 4096 * (0xFFFFFFFF / 4096) + 4095.
Proof. apply (seg_init_roundtrip STA_W 0x12345678 0xFFFFFFFF DPL_USER true); done. Defined.

(** ** Switching paging on *)

Lemma on_tables_run {A} (m : M ptm A) s s' a g :
  m s = Ret (a, s') -> on_tables m (s, g) = Ret (a, (s', g)).
Proof. intros E. unfold on_tables. cbn. by rewrite E. Qed.

(** After touching the pages of [l], the cache holds what it held and their
    translations. *)
Lemma fetches_run d l s :
  exists t, fetches d l s = Ret (tt, with_tlb t s) /\
    forall v, t !! v = match walk (words s) d v with
                       | Some e => if decide (v ∈ l) then Some e else tlb s !! v
                       | None => tlb s !! v end.
Proof.
  revert s. induction l as [|u l IH]; intros s.
  { exists (tlb s). split; [by destruct s|]. intros v. by destruct (walk _ _ _). }
  cbn [fetches]. unfold tlb_fill at 1. unfold mbind at 1, M_bind at 1.
  set (s1 := with_tlb _ s). destruct (IH s1) as (t & E & Ht). exists t. split; [by rewrite E|].
  intros v. rewrite Ht. change (words s1) with (words s). cbn [tlb s1 with_tlb].
  destruct (decide (v = u)) as [->|Hne].
  - destruct (walk (words s) d u) as [e|]; [|done]. rewrite lookup_insert_eq.
    rewrite (decide_True (P := u ∈ u :: l)) by (by left). by case_decide.
  - destruct (walk (words s) d v) as [e|] eqn:Ev.
    + destruct (decide (v ∈ l)) as [Hl|Hl].
      * by rewrite decide_True by (by right).
      * rewrite decide_False by (by intros [?|?]%elem_of_cons).
        destruct (walk (words s) d u); [by rewrite lookup_insert_ne|done].
    + destruct (walk (words s) d u); [by rewrite lookup_insert_ne|done].
Qed.

(** CR0 as [enable_paging] leaves it. *)
Definition paging_cr0 (c : Z) : Z :=
  Z.land (Z.lor c (Z.lor CR0_PE (Z.lor CR0_PG (Z.lor CR0_AM (Z.lor CR0_WP
    (Z.lor CR0_NE (Z.lor CR0_TS (Z.lor CR0_EM CR0_MP)))))))) (u32 (Z.lnot (Z.lor CR0_TS CR0_EM))).

(** The bits of CR0: PE, MP, NE, WP, AM and PG are set, EM and TS clear, the
    others are as before. *)
Definition cr0_paging (c c' : Z) : Prop :=
  forall i, 0 <= i < 32 -> Z.testbit c' i =
    if decide (i ∈ [0; 1; 5; 16; 18; 31]) then true else if decide (i ∈ [2; 3]) then false else Z.testbit c i.

Lemma paging_cr0_bits c : cr0_paging c (paging_cr0 c).
Proof.
  intros i Hi. unfold paging_cr0. rewrite Z.land_spec, Z.lor_spec. generalize (Z.testbit c i). intros b.
  assert (Hin : i ∈ seqZ 0 32) by (by apply elem_of_seqZ). revert b. revert i Hin Hi.
  apply (proj1 (Forall_forall (fun i => 0 <= i < 32 -> forall b : bool, _ = _) (seqZ 0 32))).
  vm_compute seqZ. repeat (apply Forall_cons; split; [intros _ []; vm_compute; reflexivity|]). by apply Forall_nil.
Qed.

Lemma gdt_init_flat g : flat_segments (gdt_init g).
Proof.
  assert (S : forall i d, gdt (gdt_init g) !! i = Some d -> 0 <= i < 6 -> forall sel, sel / 8 = i -> selected (gdt_init g) sel = Some d).
  { intros i d Hd Hi sel <-. unfold selected. cbn [gdt_init gdtr gdt_at fst snd]. rewrite Z.eqb_refl.
    change (8 * SEG_MAX - 1) with 47. replace (8 * (sel / 8) + 7 <=? 47) with true by lia. exact Hd. }
  split.
  - split; [done|]. eexists. split; [eapply (S 1); [unfold gdt_init; cbn [gdt]; rewrite lookup_insert_ne, lookup_insert_ne, lookup_insert_ne, lookup_insert_eq by done; reflexivity|lia|done]|]. by split_and!.
  - split_and!; [done..|]. eexists. split; [eapply (S 2); [unfold gdt_init; cbn [gdt]; rewrite lookup_insert_ne, lookup_insert_ne, lookup_insert_eq by done; reflexivity|lia|done]|]. by split_and!.
  - split_and!; [done..|]. eexists. split; [eapply (S 4); [unfold gdt_init; cbn [gdt]; rewrite lookup_insert_eq by done; reflexivity|lia|done]|]. by split_and!.
  - eexists. split; [eapply (S 3); [unfold gdt_init; cbn [gdt]; rewrite lookup_insert_ne, lookup_insert_eq by done; reflexivity|lia|done]|]. by split_and!.
Qed.

(** The directory in the new frame, before the linear area is mapped. *)
Lemma fresh_dir (w : gmap Z Z) fa c0 c3 t d x (F : gset Z) :
  low d -> d ∉ F -> free_low fa F -> c3 <> 4096 * d ->
  (forall k, 0 <= k < 1024 -> word_at w (wd d k) = 0) ->
  let s := PTM (<[wd d vpt_idx := x]> w) fa c0 c3 t in
  pt_ok s d F /\ forall i, 0 <= i < 1024 -> i <> vpt_idx -> present (pde_of (words s) d i) = false.
Proof.
  intros Hd HF Hfa Hc Hz s.
  assert (Ha : forall i, 0 <= i < 1024 -> i <> vpt_idx -> present (pde_of (words s) d i) = false).
  { intros i Hi Hv. unfold pde_of. cbn [s words]. rewrite word_at_insert, decide_False.
    - by rewrite Hz.
    - intros E. apply wd_inj in E as [_ E]; [congruence|done|done]. }
  split; [|done]. split; cbn [s falloc cr3]; [done|done| | |done].
  - intros i Hi Hv Hp. by rewrite Ha in Hp.
  - intros i j Hi Hj Hv _ Hp. by rewrite Ha in Hp.
Qed.

(** Clearing a directory entry keeps the tables well formed. *)
Lemma clear_pde s d F i x c0 c3 :
  pt_ok s d F -> 0 <= i < 1024 ->
  let w := <[wd d i := 0]> (<[wd d i := x]> (words s)) in
  pt_ok (PTM w (falloc s) c0 c3 ∅) d F /\
  forall v, outside_vpt v -> walk w d v = if decide (v / 1024 = i) then None else walk (words s) d v.
Proof.
  intros K Hi w.
  assert (Hw : forall a, word_at w a = if decide (wd d i = a) then 0 else word_at (words s) a).
  { intros a. unfold w. rewrite !word_at_insert. by repeat case_decide. }
  assert (Hpde : forall j, 0 <= j < 1024 -> pde_of w d j = if decide (j = i) then 0 else pde_of (words s) d j).
  { intros j Hj. unfold pde_of. rewrite Hw. case_decide as E.
    - apply wd_inj in E as [_ ->]; [|done..]. by rewrite decide_True.
    - rewrite decide_False; [done|]. intros ->. done. }
  split.
  - split; cbn [words falloc tlb cr3].
    + apply K.
    + apply K.
    + intros j Hj Hv. rewrite Hpde by done. case_decide; [done|]. by apply K.
    + intros j k Hj Hk Hjv Hkv. rewrite !Hpde by done. case_decide; [done|]. case_decide; [done|]. by apply K.
    + intros _ v e _. by rewrite lookup_empty.
  - intros v Hv. destruct (outside_idx v Hv) as [Hq Hr]. case_decide as E.
    + unfold walk. rewrite Hpde by done. by rewrite decide_True.
    + apply walk_ext; [by rewrite Hpde, decide_False|]. intros Hp.
      destruct (po_pde _ _ _ K _ Hq (proj2 Hv) Hp) as (_ & _ & _ & Hnd).
      rewrite Hw, decide_False; [done|]. intros Ew. by apply wd_inj in Ew as [? _].
Qed.

(** Aliasing directory entry 0 to that of the kernel. *)
Lemma alias_walk s d F v :
  pt_ok s d F -> 0 <= v < 1024 ->
  walk (<[wd d 0 := pde_of (words s) d 768]> (words s)) d v = walk (words s) d (0xC0000 + v).
Proof.
  intros K Hv. unfold walk. rewrite (Z.div_small v 1024), (Z.mod_small v 1024) by done.
  replace ((0xC0000 + v) / 1024) with 768 by (apply (Z.div_unique _ _ _ v); lia).
  replace ((0xC0000 + v) mod 1024) with v by (apply (Z.mod_unique _ _ 768); lia).
  assert (E0 : pde_of (<[wd d 0 := pde_of (words s) d 768]> (words s)) d 0 = pde_of (words s) d 768).
  { unfold pde_of at 1. by rewrite word_at_insert, decide_True. }
  rewrite E0. destruct (present (pde_of (words s) d 768)) eqn:Hp; [|done].
  destruct (po_pde _ _ _ K 768) as (_ & _ & _ & Hnd); [done..|].
  rewrite word_at_insert, decide_False; [done|]. intros E. by apply wd_inj in E as [? _].
Qed.

Lemma start_paging_run code s d F g :
  pt_ok s d F ->
  exists s', start_paging code (wd d 0) (s, g) = Ret (tt, (s', gdt_init g)) /\
    pt_ok (with_tlb ∅ s') d F /\ cr3 s' = 4096 * d /\ cr0 s' = paging_cr0 (cr0 s) /\
    (forall v, outside_vpt v ->
       walk (words s') d v = if decide (v < 1024) then None else walk (words s) d v) /\
    (forall v, 0 <= v < 1024 -> tlb s' !! v =
       if decide (v ∈ code) then walk (words s) d (0xC0000 + v) else None).
Proof.
  intros K. destruct (po_dir _ _ _ K) as [Hd _].
  set (x := pde_of (words s) d 768). set (w2 := <[wd d 0 := x]> (words s)).
  set (s2 := PTM w2 (falloc s) (paging_cr0 (cr0 s)) (4096 * d) ∅).
  destruct (fetches_run d code s2) as (t & Ef & Ht).
  destruct (clear_pde s d F 0 x (paging_cr0 (cr0 s)) (4096 * d) K ltac:(lia)) as [K' Hw].
  exists (PTM (<[wd d 0 := 0]> w2) (falloc s) (paging_cr0 (cr0 s)) (4096 * d) t). split_and!.
  - unfold start_paging. change (pde_index KERNEL_VIRT_BASE) with 768. rewrite dir_virt, dir_phys by (done || lia).
    rewrite (M_bind_run _ _ _ _ _ (on_tables_run _ _ _ _ _ (load_run _ s (wd_linear d 768 Hd ltac:(lia))))).
    rewrite (M_bind_run _ _ _ _ _ (on_tables_run _ _ _ _ _ (store_run _ _ s (wd_linear d 0 Hd ltac:(lia))))).
    rewrite (M_bind_run _ _ _ (s2, g) tt) by done.
    replace (phys_to_pfn (4096 * d)) with d
      by (unfold phys_to_pfn, PAGE_SHIFT; rewrite Z.shiftr_div_pow2, Z.mul_comm by lia; symmetry; by apply Z.div_mul).
    rewrite (M_bind_run _ _ _ _ _ (on_tables_run _ _ _ _ _ Ef)).
    rewrite (M_bind_run _ _ _ (with_tlb t s2, gdt_init g) tt) by done.
    by rewrite (on_tables_run _ _ _ _ _ (store_run _ _ (with_tlb t s2) (wd_linear d 0 Hd ltac:(lia)))).
  - exact K'.
  - done.
  - done.
  - intros v Hv. cbn [words]. rewrite Hw by done. destruct (outside_idx v Hv) as [Hq _].
    pose proof (Z.div_mod v 1024 ltac:(lia)). pose proof (Z.mod_pos_bound v 1024 ltac:(lia)).
    repeat case_decide; (done || lia).
  - intros v Hv. cbn [tlb]. rewrite Ht. cbn [words tlb s2]. unfold w2, x.
    rewrite (alias_walk s d F) by done. rewrite lookup_empty. by destruct (walk _ _ _); case_decide.
Qed.

(** The directory entries of the linear area. *)
Definition linear_tables (linear_end : Z) : gset Z :=
  list_to_set (seqZ 768 ((linear_end + 1023) / 1024)).

Lemma linear_covered w d linear_end :
  0 <= linear_end -> covered w d 0xC0000 linear_end (linear_tables linear_end).
Proof.
  intros Hl u Hu. right. unfold linear_tables. rewrite elem_of_list_to_set, elem_of_seqZ.
  assert (768 <= u / 1024) by (apply Z.div_le_lower_bound; lia).
  assert (u / 1024 < 768 + (linear_end + 1023) / 1024); [|lia].
  apply Z.div_lt_upper_bound; [lia|].
  pose proof (Z.div_mod (linear_end + 1023) 1024 ltac:(lia)).
  pose proof (Z.mod_pos_bound (linear_end + 1023) 1024 ltac:(lia)). lia.
Qed.

Lemma linear_tables_size linear_end :
  0 <= linear_end -> (base.size (linear_tables linear_end) <= Z.to_nat ((linear_end + 1023) / 1024))%nat.
Proof.
  intros Hl. unfold linear_tables. rewrite size_list_to_set by apply NoDup_seqZ. by rewrite length_seqZ.
Qed.

Lemma linear_bytes n : 0 <= n <= 0x38000 -> u32 (Z.shiftl n PAGE_SHIFT) = 4096 * n.
Proof. intros Hn. unfold PAGE_SHIFT. rewrite Z.shiftl_mul_pow2 by lia. rewrite wrap_small; [lia|unfold fits; lia]. Qed.

(** Mapping the linear area into tables that map nothing yet. *)
Lemma map_linear_run s d F n :
  0 <= n <= 0x38000 -> pt_ok s d F ->
  (forall i, 0 <= i < 1024 -> i <> vpt_idx -> present (pde_of (words s) d i) = false) ->
  (Z.to_nat ((n + 1023) / 1024) <= base.size F)%nat ->
  exists s' F', page_map (page_to_virt d) KERNEL_VIRT_BASE 0 (4096 * n) PTE_W s = Ret (tt, s') /\
    pt_ok s' d F' /\ F' ⊆ F /\ cr0 s' = cr0 s /\
    forall v, outside_vpt v -> walk (words s') d v =
      if decide (0xC0000 <= v < 0xC0000 + n) then Some (Z.lor (Z.lor (4096 * (v - 0xC0000)) PTE_W) PTE_P) else None.
Proof.
  intros Hn K Habs Hsz.
  assert (Enp : npages (4096 * n) = n).
  { unfold npages. rewrite (Z.mul_comm 4096), Z.div_add_l by lia. rewrite (Z.div_small 4095) by lia. lia. }
  destruct (page_map_run s d KERNEL_VIRT_BASE 0 (4096 * n) PTE_W F K)
    as (s' & F' & E & D); [done|done|change PAGE_SIZE with 4096; lia| |].
  { unfold editable. rewrite Enp. change (KERNEL_VIRT_BASE / 4096) with 0xC0000. split.
    - intros u Hu. split; [lia|]. intros E.
      pose proof (Z.div_mod u 1024 ltac:(lia)). pose proof (Z.mod_pos_bound u 1024 ltac:(lia)).
      unfold vpt_idx in E. lia.
    - exists (linear_tables n). split; [by apply linear_covered; lia|].
      pose proof (linear_tables_size n ltac:(lia)). lia. }
  rewrite Enp in D. change (KERNEL_VIRT_BASE / 4096) with 0xC0000 in D.
  destruct D as [K' Hsub _ Hw [_ H0] _ _]. exists s', F'. split_and!; [done..|].
  intros v Hv. rewrite Hw by done. case_decide as Hr.
  - do 3 f_equal. rewrite Z.div_0_l by lia. rewrite wrap_small; [lia|unfold fits; lia].
  - unfold walk. rewrite Habs; [done|apply outside_idx, Hv|apply Hv].
Qed.


Definition segs0 : segs := Segs ∅ 0xC0110000 (0, 0) 0 0 0 0 0 0.

