(* ===== verification/Slab.v ===== *)
(** * Slab caches (mm/slab.c)

    A cache hands out objects of one size, cut from pages of the page
    allocator.  The first descriptor of a slab page counts the objects in
    use ([active]); the indices of the free ones are bytes at the end of the
    page itself ([freelist[active ..]]).  [cache_ok] is the representation
    invariant of one cache on top of the page allocator's, and the abstract
    state is the stack of free indices of each of its pages.  The theorems
    show that a cache with at most 256 objects per page never hands out an
    object that is in use, and that the 8-byte cache, whose 448 indices do
    not fit the bytes they are stored in, does. *)

From stdpp Require Import base numbers list gmap countable.
From Stdlib Require Import ZArith Lia.
From S2P Require Import Prelude Bitops Lock ListNode Buddy Page.

Open Scope Z_scope.

(** [struct kmem_cache]; its two list heads are the nodes [SlabsFull c] and
    [SlabsPartial c] of the cache [c]. *)
Record kmem_cache := KmemCache { size : Z; lock : Z }.

Record slabs := Slabs {
  sl_pages : pmem;                    (** mm/page.c and all list nodes *)
  sl_bytes : gmap Z Z;                (** the memory of the pages, by address *)
  sl_caches : gmap Z kmem_cache
}.

Definition cache_of (s : slabs) (c : Z) : kmem_cache :=
  default (KmemCache 0 0) (sl_caches s !! c).

Definition on_pages {A} (m : M pmem A) : M slabs A := fun s =>
  match m (sl_pages s) with
  | Ret (x, p) => Ret (x, Slabs p (sl_bytes s) (sl_caches s))
  | Bug => Bug | Fault => Fault | Spin => Spin
  end.

Definition read_byte (addr : Z) : M slabs Z := fun s =>
  Ret (default 0 (sl_bytes s !! addr), s).
Definition write_byte (addr v : Z) : M slabs unit := fun s =>
  Ret (tt, Slabs (sl_pages s) (<[addr := u8 v]> (sl_bytes s)) (sl_caches s)).

Definition put_cache (c : Z) (k : kmem_cache) : M slabs unit := fun s =>
  Ret (tt, Slabs (sl_pages s) (sl_bytes s) (<[c := k]> (sl_caches s))).
Definition get_cache (c : Z) : M slabs kmem_cache := fun s => Ret (cache_of s c, s).

Definition lock_cache (c : Z) : M slabs unit :=
  k ← get_cache c;
  v ← mlift (spin_lock (lock k));
  put_cache c (KmemCache (size k) v).
Definition unlock_cache (c : Z) : M slabs unit :=
  k ← get_cache c;
  put_cache c (KmemCache (size k) (spin_unlock (lock k))).

(** Writes to the slab fields of a page descriptor. *)
Definition upd_slab (f : page -> page) (i : Z) : M slabs unit :=
  on_pages (p ← get_page i; put_page i (f p)).
Definition with_s_mem (v : Z) (p : page) : page :=
  Page.Page (flags p) (order p) v (freelist p) (active p) (total p) (slab_cache p).
Definition with_slab (fl act tot : Z) (c : option Z) (p : page) : page :=
  Page.Page (flags p) (order p) (s_mem p) fl act tot c.
Definition with_active (act : Z) (p : page) : page :=
  Page.Page (flags p) (order p) (s_mem p) (freelist p) act (total p) (slab_cache p).

Definition index_to_obj (k : kmem_cache) (p : page) (idx : Z) : Z :=
  u32 (s_mem p + size k * idx).
Definition obj_to_index (k : kmem_cache) (p : page) (obj : Z) : Z :=
  u32 (obj - s_mem p) / size k.

(** The loop [for (i = 0; i < total; i++) page->freelist[i] = i]. *)
Fixpoint init_freelist (n : nat) (fl i : Z) : M slabs unit :=
  match n with
  | O => mret tt
  | S n => _ ← write_byte (u32 (fl + i)) i; init_freelist n fl (i + 1)
  end.

Section Slab.
(** [vmap] of mm/vmalloc.c on one page, which is reached for high memory
    only; 0 is NULL. *)
Context (vmap_page : Z -> M slabs Z).

(** [page_address] of mm/page_table.c. *)
Definition page_address (page : Z) : M slabs Z :=
  p ← on_pages (get_page page);
  if negb (test_bit PAGE_HIGHMEM (flags p)) then mret (page_to_virt page)
  else vmap_page page.

Definition slab_page_init (cache : Z) (page : option Z) : M slabs Z :=
  page ← mlift (deref page);
  addr ← page_address page;
  _ ← upd_slab (with_s_mem addr) page;
  if addr =? 0 then mret (- ENOMEM)
  else
    k ← get_cache cache;
    _ ← mlift (if size k =? 0 then Fault else Ret tt);
    let tot := u16 (PAGE_SIZE / size k) in
    let fl := u32 (addr + PAGE_SIZE - tot) in
    _ ← upd_slab (with_slab fl 0 (u16 ((PAGE_SIZE - tot) / size k)) (Some cache)) page;
    _ ← init_freelist (Z.to_nat tot) fl 0;
    _ ← on_pages (page_set_bit PAGE_SLAB page);
    mret 0.

Definition slab_page_deinit (page : Z) : M slabs unit :=
  _ ← upd_slab (with_slab 0 0 0 None) page;
  on_pages (page_clear_bit PAGE_SLAB page).

Definition alloc_block (cache page : Z) : M slabs Z :=
  p ← on_pages (get_page page);
  _ ← mlift (assert (active p <? total p));
  index ← read_byte (u32 (freelist p + active p));
  _ ← upd_slab (with_active (u16 (active p + 1))) page;
  k ← get_cache cache;
  p ← on_pages (get_page page);
  let obj := index_to_obj k p index in
  _ ← (if active p =? total p then
         _ ← on_pages (on_pnodes (list_remove (PageNode page)));
         on_pages (on_pnodes (list_insert (SlabsFull cache) (PageNode page)))
       else mret tt);
  mret obj.

Definition free_block (cache page obj : Z) : M slabs unit :=
  k ← get_cache cache;
  p ← on_pages (get_page page);
  let index := obj_to_index k p obj in
  _ ← mlift (assert (0 <? active p));
  _ ← upd_slab (with_active (u16 (active p - 1))) page;
  p ← on_pages (get_page page);
  _ ← write_byte (u32 (freelist p + active p)) index;
  if active p =? 0 then
    _ ← on_pages (on_pnodes (list_remove (PageNode page)));
    _ ← slab_page_deinit page;
    on_pages (free_pages page)
  else mret tt.

(** 0 is NULL. *)
Definition kmem_cache_alloc (cache : Z) : M slabs Z :=
  _ ← lock_cache cache;
  s ← mget;
  page ← (if list_empty (SlabsPartial cache) (pnodes (sl_pages s)) then
            page ← on_pages (alloc_page GFP_NORMAL);
            r ← slab_page_init cache page;
            if r =? 0 then
              page ← mlift (deref page);
              _ ← on_pages (on_pnodes (list_insert (SlabsPartial cache) (PageNode page)));
              mret (Some page)
            else mret None
          else
            page ← mlift (page_of_node (list_next (SlabsPartial cache) (pnodes (sl_pages s))));
            mret (Some page));
  match page with
  | None => mret 0
  | Some page =>
      ptr ← alloc_block cache page;
      _ ← unlock_cache cache;
      mret ptr
  end.

Definition kmem_cache_free (cache obj : Z) : M slabs unit :=
  _ ← mlift (assert (negb (is_vmalloc_addr obj)));
  let page := virt_to_page obj in
  p ← on_pages (get_page page);
  _ ← mlift (assert (bool_decide (slab_cache p = Some cache) &&
                     negb (test_bit PAGE_HIGHMEM (flags p))));
  _ ← lock_cache cache;
  _ ← free_block cache page obj;
  unlock_cache cache.

Definition kmem_cache_create (cache sz : Z) : M slabs Z :=
  if PAGE_SIZE <? sz then mret (- EINVAL)
  else
    _ ← on_pages (on_pnodes (fun m => Ret (list_init (SlabsFull cache) m)));
    _ ← on_pages (on_pnodes (fun m => Ret (list_init (SlabsPartial cache) m)));
    _ ← put_cache cache (KmemCache sz (counter spinlock_init));
    mret 0.
End Slab.

(** ** Running the primitive steps *)

Lemma on_pages_run {A} (m : M pmem A) s x p :
  m (sl_pages s) = Ret (x, p) -> on_pages m s = Ret (x, Slabs p (sl_bytes s) (sl_caches s)).
Proof. intros E. unfold on_pages. by rewrite E. Qed.

Definition slabs_pg (s : slabs) (i : Z) : page := pg (sl_pages s) i.

Lemma get_slab_page i s :
  0 <= i < TOTAL_PAGES -> on_pages (get_page i) s = Ret (slabs_pg s i, s).
Proof. intros Hi. erewrite on_pages_run by by apply get_page_run. by destruct s. Qed.

Definition put_pages (p : pmem) (s : slabs) : slabs := Slabs p (sl_bytes s) (sl_caches s).

Lemma upd_slab_run f i s :
  0 <= i < TOTAL_PAGES ->
  upd_slab f i s = Ret (tt, put_pages (upd_page i (f (slabs_pg s i)) (sl_pages s)) s).
Proof.
  intros Hi. unfold upd_slab. apply on_pages_run.
  rewrite (M_bind_run _ _ _ _ _ (get_page_run _ _ Hi)). by apply put_page_run.
Qed.

Lemma on_slab_nodes_run f s n :
  f (pnodes (sl_pages s)) = Ret n ->
  on_pages (on_pnodes f) s =
    Ret (tt, put_pages (PMem (pages (sl_pages s)) n (page_lock (sl_pages s))) s).
Proof. intros E. by apply on_pages_run, on_pnodes_run. Qed.

Lemma lock_cache_run c s k :
  sl_caches s !! c = Some (KmemCache k 0) ->
  lock_cache c s = Ret (tt, Slabs (sl_pages s) (sl_bytes s) (<[c := KmemCache k 1]> (sl_caches s))).
Proof.
  intros E. unfold lock_cache, get_cache, mbind, M_bind, cache_of. by rewrite E.
Qed.

Lemma unlock_cache_run c s k v :
  sl_caches s !! c = Some (KmemCache k v) ->
  unlock_cache c s = Ret (tt, Slabs (sl_pages s) (sl_bytes s) (<[c := KmemCache k 0]> (sl_caches s))).
Proof.
  intros E. unfold unlock_cache, get_cache, mbind, M_bind, cache_of. by rewrite E.
Qed.

(** The bytes [init_freelist] leaves. *)
Lemma init_freelist_run n fl i s :
  0 <= fl + i -> fl + i + Z.of_nat n <= 2 ^ 32 ->
  exists b, init_freelist n fl i s = Ret (tt, Slabs (sl_pages s) b (sl_caches s)) /\
    forall addr, b !! addr = if decide (fl + i <= addr < fl + i + Z.of_nat n)
                             then Some (u8 (addr - fl)) else sl_bytes s !! addr.
Proof.
  revert i s. induction n as [|n IH]; intros i s H0 H1.
  - exists (sl_bytes s). split; [by destruct s|]. intros addr. rewrite decide_False by lia. done.
  - cbn [init_freelist]. unfold mbind, M_bind, write_byte.
    rewrite (wrap_small 32) by (unfold fits; lia).
    set (s1 := Slabs _ _ _).
    destruct (IH (i + 1) s1) as (b & E & Hb); [lia..|].
    exists b. split; [done|]. intros addr. rewrite Hb.
    destruct (decide (fl + (i + 1) <= addr < fl + (i + 1) + Z.of_nat n)).
    + rewrite decide_True by lia. done.
    + unfold s1. cbn [sl_bytes]. rewrite lookup_insert. case_decide as Hd.
      * rewrite decide_True by lia. do 2 f_equal. lia.
      * rewrite decide_False by lia. done.
Qed.

(** ** The invariant of the page allocator under the slab code's writes *)

(** Fields the page allocator reads. *)
Definition same_block (p p' : page) : Prop :=
  order p' = order p /\ same_kind p p' /\
  test_bit PAGE_FREE (flags p') = test_bit PAGE_FREE (flags p).

Lemma pinv_writes s s' a :
  pinv s a -> page_lock s' = 0 -> (forall q, same_block (pg s q) (pg s' q)) ->
  (forall l, match l with
             | FreeList _ | HighmemFreeList _ => True
             | PageNode h => exists o, a !! h = Some (o, true)
             | _ => False end -> nd (pnodes s') l = nd (pnodes s) l) ->
  pinv s' a.
Proof.
  intros [K _] HL Hb Hn. split; [|done].
  assert (Hv : forall p, valid s p <-> valid s' p) by (apply valid_same; intros q; apply Hb).
  split.
  - eapply tiling_ext; [exact Hv|apply K].
  - intros h o f E. rewrite (proj1 (Hb h)). by apply (pi_order _ _ _ _ K _ _ f).
  - intros h o f E Hx. rewrite (proj2 (proj2 (Hb h))). by apply (pi_free _ _ _ _ K _ o).
  - intros p Hp. rewrite (proj2 (proj1 (proj2 (Hb p)))). apply K. by apply Hv.
  - destruct (pi_lists _ _ _ _ K) as [fl Hfl]. exists fl. intros z o Ho.
    destruct (Hfl z o Ho) as [Hd Hm]. split; [|done].
    apply (dll_frame (pnodes s)); [|done]. intros l [->|Hl]%elem_of_cons.
    + apply Hn. by destruct z.
    + apply list_elem_of_fmap in Hl as (h & -> & Hh). apply Hn. apply Hm in Hh as [Hh _]. by exists o.
Qed.

Lemma same_block_upd i p s q :
  same_block (pg s i) p -> same_block (pg s q) (pg (upd_page i p s) q).
Proof. intros Hb. rewrite pg_upd. case_decide; [by subst q|done]. Qed.

(** ** One cache *)

Section Cache.
Context (c sz : Z).

(** [total] and [page->total] of [slab_page_init]. *)
Definition slots : Z := PAGE_SIZE / sz.
Definition objs : Z := (PAGE_SIZE - slots) / sz.

(** Sizes for which the indices fit the bytes of the free list and a page
    holds at least one object. *)
Context (Hsz : 16 <= sz <= 2048).

Lemma slots_bound : 2 <= slots <= 256.
Proof.
  unfold slots. change PAGE_SIZE with 4096. split.
  - apply Z.div_le_lower_bound; lia.
  - apply Z.div_le_upper_bound; lia.
Qed.

Lemma objs_bound : 1 <= objs <= 255 /\ objs <= slots /\ sz * objs <= PAGE_SIZE - slots.
Proof.
  pose proof slots_bound as Hs. unfold objs.
  assert (H1 : 1 <= (PAGE_SIZE - slots) / sz).
  { apply Z.div_le_lower_bound; [lia|].
    assert (sz * slots <= PAGE_SIZE) by (apply Z.mul_div_le; lia).
    change PAGE_SIZE with 4096 in *. nia. }
  assert (H2 : (PAGE_SIZE - slots) / sz <= 255).
  { apply Z.lt_succ_r, Z.div_lt_upper_bound; [lia|]. change PAGE_SIZE with 4096 in *. nia. }
  split; [done|]. split.
  - unfold slots at 2. apply Z.div_le_mono; lia.
  - apply Z.mul_div_le. lia.
Qed.

Definition obj (p i : Z) : Z := page_to_virt p + sz * i.

(** Low pages are mapped linearly. *)
Lemma slab_virt_low p :
  0 <= p -> in_highmem p = false -> page_to_virt p = KERNEL_VIRT_BASE + PAGE_SIZE * p /\ p < 0x38000.
Proof.
  intros H0 Hl. unfold in_highmem in Hl. apply Z.leb_gt in Hl.
  change highmem_start_pfn with 0x38000 in Hl. split; [|done].
  unfold page_to_virt, phys_to_virt, page_to_phys. change PAGE_SIZE with 4096.
  unfold KERNEL_VIRT_BASE. rewrite (wrap_small 32 (4096 * p)) by (unfold fits; lia).
  rewrite wrap_small by (unfold fits; lia). lia.
Qed.

(** A slab page with the stack [fs] of free indices. *)
Record slab_page (s : slabs) (p : Z) (fs : list Z) : Prop := SlabPage {
  sp_low : 0 <= p < TOTAL_PAGES /\ in_highmem p = false;
  sp_cache : slab_cache (slabs_pg s p) = Some c;
  sp_slab : test_bit PAGE_SLAB (flags (slabs_pg s p)) = true;
  sp_mem : s_mem (slabs_pg s p) = page_to_virt p;
  sp_fl : freelist (slabs_pg s p) = page_to_virt p + PAGE_SIZE - slots;
  sp_total : total (slabs_pg s p) = objs;
  sp_active : active (slabs_pg s p) = objs - Z.of_nat (length fs);
  sp_bytes : forall i x, fs !! i = Some x ->
    default 0 (sl_bytes s !! (page_to_virt p + PAGE_SIZE - slots + (objs - Z.of_nat (length fs)) + Z.of_nat i)) = x;
  sp_nodup : NoDup fs;
  sp_range : forall x, x ∈ fs -> 0 <= x < objs
}.

(** Abstract state: the stack of free indices of each page of the cache. *)
Abbreviation cmap := (gmap Z (list Z)).

(** The cache's lists: [ps] the partial pages, [fl] the ones that were full. *)
Definition cache_lists (n : gmap ploc (list_node ploc)) (cm : cmap) (ps fl : list Z) : Prop :=
  dll n (SlabsPartial c) (PageNode <$> ps) /\
  dll n (SlabsFull c) (PageNode <$> fl) /\
  (forall p, p ∈ ps -> p ∉ fl) /\
  (forall p, p ∈ ps \/ p ∈ fl <-> cm !! p <> None).

(** [v] is the lock. *)
Record cache_core (v : Z) (s : slabs) (a : blockmap) (cm : cmap) : Prop := CacheCore {
  co_pages : pinv (sl_pages s) a;
  co_cache : sl_caches s !! c = Some (KmemCache sz v);
  co_page : forall p fs, cm !! p = Some fs -> slab_page s p fs /\ a !! p = Some (0, false)
}.

(** Between operations: a page on the partial list has a free object, and
    every page an object in use. *)
Definition cache_ok (s : slabs) (a : blockmap) (cm : cmap) : Prop :=
  cache_core 0 s a cm /\
  (exists ps fl, cache_lists (pnodes (sl_pages s)) cm ps fl /\ forall p, p ∈ ps -> cm !! p <> Some []) /\
  (forall p fs, cm !! p = Some fs -> Z.of_nat (length fs) < objs).

(** Objects in use. *)
Definition live (cm : cmap) (q : Z) : Prop :=
  exists p fs i, cm !! p = Some fs /\ 0 <= i < objs /\ i ∉ fs /\ q = obj p i.

(** What an operation on the cache leaves alone: descriptors and nodes of
    live pages of other owners, other caches, and every byte outside the
    free list areas of its own pages. *)
Record cache_frame (a : blockmap) (cm cm' : cmap) (s s' : slabs) : Prop := CacheFrame {
  cf_pages : forall q, live_page a q -> cm !! q = None -> slabs_pg s' q = slabs_pg s q /\
    nd (pnodes (sl_pages s')) (PageNode q) = nd (pnodes (sl_pages s)) (PageNode q);
  cf_caches : forall c', c' <> c -> sl_caches s' !! c' = sl_caches s !! c' /\
    nd (pnodes (sl_pages s')) (SlabsFull c') = nd (pnodes (sl_pages s)) (SlabsFull c') /\
    nd (pnodes (sl_pages s')) (SlabsPartial c') = nd (pnodes (sl_pages s)) (SlabsPartial c');
  cf_bytes : forall addr, sl_bytes s' !! addr <> sl_bytes s !! addr ->
    exists p, (cm !! p <> None \/ cm' !! p <> None) /\ in_highmem p = false /\
      page_to_virt p + PAGE_SIZE - slots <= addr < page_to_virt p + PAGE_SIZE
}.

(** Objects lie in their page, below the free list, and do not overlap. *)
Lemma obj_bounds p i :
  0 <= i < objs -> page_to_virt p <= obj p i /\ obj p i + sz <= page_to_virt p + PAGE_SIZE - slots.
Proof. intros Hi. destruct objs_bound as (_ & _ & Hb). unfold obj. nia. Qed.

Lemma obj_disjoint p i p' i' :
  0 <= p -> in_highmem p = false -> 0 <= p' -> in_highmem p' = false ->
  0 <= i < objs -> 0 <= i' < objs -> (p, i) <> (p', i') ->
  obj p i + sz <= obj p' i' \/ obj p' i' + sz <= obj p i.
Proof.
  intros H1 H2 H3 H4 Hi Hi' Hne.
  destruct (slab_virt_low p H1 H2) as [E _]. destruct (slab_virt_low p' H3 H4) as [E' _].
  pose proof (obj_bounds p i Hi). pose proof (obj_bounds p' i' Hi'). pose proof slots_bound.
  rewrite E, E' in *. destruct (Z.eq_dec p p') as [->|].
  - assert (i <> i') by congruence. unfold obj. nia.
  - nia.
Qed.

(** *** Framing *)

Definition nodes_frame (cm : cmap) (n n' : gmap ploc (list_node ploc)) : Prop :=
  forall l, l <> SlabsFull c -> l <> SlabsPartial c ->
    (forall q, cm !! q <> None -> l <> PageNode q) -> nd n' l = nd n l.

Lemma cache_not_free v s a cm h o : cache_core v s a cm -> a !! h = Some (o, true) -> cm !! h = None.
Proof.
  intros K E. destruct (cm !! h) as [fs|] eqn:Ec; [|done].
  destruct (co_page _ _ _ _ K _ _ Ec). congruence.
Qed.

Lemma core_nodes v s a cm n :
  cache_core v s a cm -> nodes_frame cm (pnodes (sl_pages s)) n ->
  cache_core v (put_pages (PMem (pages (sl_pages s)) n (page_lock (sl_pages s))) s) a cm.
Proof.
  intros K Hn. split; [|apply K|].
  - eapply pinv_writes; [apply K|apply K|done|]. intros l Hl. apply Hn.
    + by intros ->.
    + by intros ->.
    + intros q Hq ->. destruct Hl as [o Hl]. by rewrite (cache_not_free _ _ _ _ _ _ K Hl) in Hq.
  - intros p fs E. destruct (co_page _ _ _ _ K _ _ E) as [[] ?]. done.
Qed.

Lemma core_lock v v' s a cm :
  cache_core v s a cm ->
  cache_core v' (Slabs (sl_pages s) (sl_bytes s) (<[c := KmemCache sz v']> (sl_caches s))) a cm.
Proof.
  intros K. split; [apply K|cbn [sl_caches]; by rewrite lookup_insert_eq|].
  intros p fs E. destruct (co_page _ _ _ _ K _ _ E) as [[] ?]. done.
Qed.

(** Replacing the descriptor and the free list of one page. *)
Lemma core_page v s a cm p d b fs :
  cache_core v s a cm -> a !! p = Some (0, false) ->
  same_block (slabs_pg s p) d ->
  slab_page (Slabs (upd_page p d (sl_pages s)) b (sl_caches s)) p fs ->
  (forall q fq addr, q <> p -> cm !! q = Some fq ->
     page_to_virt q <= addr < page_to_virt q + PAGE_SIZE -> b !! addr = sl_bytes s !! addr) ->
  cache_core v (Slabs (upd_page p d (sl_pages s)) b (sl_caches s)) a (<[p := fs]> cm).
Proof.
  intros K Ea Hd Hp Hb. split; [|apply K|].
  - eapply pinv_writes; [apply K|apply K|intros q; by apply same_block_upd|done].
  - intros q fq [[<- <-]|[Hne E]]%lookup_insert_Some; [done|].
    destruct (co_page _ _ _ _ K _ _ E) as [Hq Hqa]. split; [|done].
    assert (Eq : slabs_pg (Slabs (upd_page p d (sl_pages s)) b (sl_caches s)) q = slabs_pg s q).
    { unfold slabs_pg. cbn [sl_pages]. by rewrite pg_upd, decide_False. }
    destruct Hq. split; rewrite ?Eq; try done.
    intros i x Ei. cbn [sl_bytes]. erewrite Hb; [by eapply sp_bytes0|done|done|].
    destruct objs_bound as (? & ? & ?). pose proof slots_bound.
    apply lookup_lt_Some in Ei. change PAGE_SIZE with 4096 in *.
    assert (NoDup_len : Z.of_nat (length fq) <= objs).
    { etransitivity; [by apply (NoDup_range_length fq objs)|lia]. }
    lia.
Qed.

(** *** Taking an object *)

Lemma virt_fits p d :
  0 <= p -> in_highmem p = false -> 0 <= d <= PAGE_SIZE -> u32 (page_to_virt p + d) = page_to_virt p + d.
Proof.
  intros H0 Hl Hd. destruct (slab_virt_low p H0 Hl) as [E ?]. apply wrap_small. rewrite E.
  unfold fits, KERNEL_VIRT_BASE. change PAGE_SIZE with 4096 in *. lia.
Qed.

Lemma slab_page_length s p fs : slab_page s p fs -> Z.of_nat (length fs) <= objs.
Proof.
  intros P. etransitivity; [apply (NoDup_range_length fs objs); apply P|].
  destruct objs_bound. lia.
Qed.

Definition with_active_of (s : slabs) (p v : Z) : slabs :=
  put_pages (upd_page p (with_active v (slabs_pg s p)) (sl_pages s)) s.

Lemma slabs_pg_active s p v q :
  slabs_pg (with_active_of s p v) q = if decide (p = q) then with_active v (slabs_pg s p) else slabs_pg s q.
Proof. unfold slabs_pg, with_active_of, put_pages. cbn [sl_pages]. apply pg_upd. Qed.

Lemma core_pop v s a cm p x fs :
  cache_core v s a cm -> cm !! p = Some (x :: fs) ->
  cache_core v (with_active_of s p (objs - Z.of_nat (length fs))) a (<[p := fs]> cm).
Proof.
  intros K E. destruct (co_page _ _ _ _ K _ _ E) as [P Ea].
  apply core_page; [done..| |done].
  change (slab_page (with_active_of s p (objs - Z.of_nat (length fs))) p fs).
  assert (Eq : forall w, slabs_pg (with_active_of s p w) p = with_active w (slabs_pg s p)).
  { intros w. by rewrite slabs_pg_active, decide_True. }
  destruct P. apply list.NoDup_cons in sp_nodup0 as [Hx Hnd].
  split; rewrite ?(Eq (objs - Z.of_nat (length fs))); try done.
  - intros i y Ei. rewrite <- (sp_bytes0 (S i) y Ei). do 2 f_equal. cbn [length]. lia.
  - intros y Hy. apply sp_range0. set_solver.
Qed.

Lemma lists_pop n cm p x fs ps fl :
  cache_lists n cm ps fl -> cm !! p = Some (x :: fs) -> cache_lists n (<[p := fs]> cm) ps fl.
Proof.
  intros (H1 & H2 & H3 & H4) E. split_and!; [done..|]. intros q. rewrite H4, lookup_insert.
  case_decide; [subst q; by rewrite E|done].
Qed.

Lemma elem_of_page_nodes (q : Z) (l : list Z) : PageNode q ∈ PageNode <$> l <-> q ∈ l.
Proof. rewrite list_elem_of_fmap. split; [by intros (y & [= ->] & ?)|eauto]. Qed.

(** Moving the first partial page to the full list. *)
Lemma lists_to_full n cm p ps fl :
  cache_lists n cm (p :: ps) fl ->
  exists n1 n2, list_remove (PageNode p) n = Ret n1 /\
    list_insert (SlabsFull c) (PageNode p) n1 = Ret n2 /\
    cache_lists n2 cm ps (p :: fl) /\ nodes_frame cm n n2.
Proof.
  intros (H1 & H2 & H3 & H4).
  assert (Hpps : p ∉ ps).
  { destruct H1 as [Hnd _]. apply list.NoDup_cons in Hnd as [_ Hnd]. apply list.NoDup_cons in Hnd as [Hnd _].
    by rewrite elem_of_page_nodes in Hnd. }
  assert (Hpfl : p ∉ fl) by (apply H3; set_solver).
  destruct (list_remove_dll n (SlabsPartial c) [] (PageNode p) _ H1)
    as (n1 & E1 & D1 & F1).
  assert (D2 : dll n1 (SlabsFull c) (PageNode <$> fl)).
  { apply (dll_frame n); [|done]. intros l Hl. apply F1. rewrite not_elem_of_cons.
    apply elem_of_cons in Hl as [->|Hl].
    - split; [done|]. by intros (y & ? & _)%list_elem_of_fmap.
    - apply list_elem_of_fmap in Hl as (y & -> & Hy). split; [done|]. cbn [app]. rewrite elem_of_page_nodes.
      intros Hy2. apply (H3 y); set_solver. }
  destruct (list_insert_head_dll n1 (SlabsFull c) _ (PageNode p) D2)
    as (n2 & E2 & D3 & F2).
  { rewrite not_elem_of_cons, elem_of_page_nodes. done. }
  exists n1, n2. split_and!; [done|done| |].
  - split_and!; [|done| |].
    + apply (dll_frame n1); [|done]. intros l Hl. apply F2. rewrite !not_elem_of_cons.
      apply elem_of_cons in Hl as [->|Hl].
      * split_and!; [done|done|]. by intros (y & ? & _)%list_elem_of_fmap.
      * cbn [app] in Hl. apply list_elem_of_fmap in Hl as (y & -> & Hy). rewrite elem_of_page_nodes. split_and!.
        -- intros [= ->]. done.
        -- done.
        -- apply H3. set_solver.
    + intros q Hq. rewrite not_elem_of_cons. split; [by intros ->|]. apply H3. set_solver.
    + intros q. rewrite <- H4. set_solver.
  - intros l L1 L2 L3.
    assert (Hin : forall q, q ∈ p :: ps \/ q ∈ fl -> l <> PageNode q).
    { intros q Hq. apply L3. by apply H4. }
    rewrite F2, F1; [done|..]; rewrite !not_elem_of_cons.
    + split; [done|]. intros (y & -> & Hy)%list_elem_of_fmap. apply (Hin y); set_solver.
    + split_and!; [apply Hin; set_solver|done|].
      intros (y & -> & Hy)%list_elem_of_fmap. apply (Hin y); set_solver.
Qed.

(** What the steps on the cache's own pages leave alone. *)
Record local_frame (cm : cmap) (s s' : slabs) : Prop := LocalFrame {
  lf_pages : forall q, cm !! q = None -> slabs_pg s' q = slabs_pg s q;
  lf_caches : sl_caches s' = sl_caches s;
  lf_nodes : nodes_frame cm (pnodes (sl_pages s)) (pnodes (sl_pages s'))
}.

Lemma slab_access v s a cm p fs :
  cache_core v s a cm -> cm !! p = Some fs ->
  0 <= p < TOTAL_PAGES /\ in_highmem p = false /\
  on_pages (get_page p) s = Ret (slabs_pg s p, s).
Proof.
  intros K E. destruct (co_page _ _ _ _ K _ _ E) as [P _]. destruct (sp_low _ _ _ P).
  split_and!; [lia|lia|done|by apply get_slab_page].
Qed.

Lemma active_fits n : Z.of_nat n <= objs -> u16 (objs - Z.of_nat n) = objs - Z.of_nat n.
Proof. intros Hn. apply wrap_small. destruct objs_bound. unfold fits. lia. Qed.

Lemma alloc_block_run v s a cm p x fs ps fl :
  cache_core v s a cm -> cm !! p = Some (x :: fs) ->
  cache_lists (pnodes (sl_pages s)) cm (p :: ps) fl ->
  (forall q, q ∈ ps -> cm !! q <> Some []) ->
  exists s' ps' fl', alloc_block c p s = Ret (obj p x, s') /\
    cache_core v s' a (<[p := fs]> cm) /\
    cache_lists (pnodes (sl_pages s')) (<[p := fs]> cm) ps' fl' /\
    (forall q, q ∈ ps' -> <[p := fs]> cm !! q <> Some []) /\
    local_frame cm s s' /\ sl_bytes s' = sl_bytes s.
Proof.
  intros K E Hl Hps. destruct (co_page _ _ _ _ K _ _ E) as [P Ea].
  destruct (slab_access _ _ _ _ _ _ K E) as (Hp & Hlow & Hget).
  pose proof (slab_page_length _ _ _ P) as Hlen. cbn [length] in Hlen.
  pose proof (core_pop _ _ _ _ _ _ _ K E) as K1.
  set (s1 := with_active_of s p (objs - Z.of_nat (length fs))) in *.
  pose proof slots_bound. destruct objs_bound as (Hob & Hos & _).
  assert (Hx : 0 <= x < objs) by (apply (sp_range _ _ _ P); set_solver).
  assert (Hread : read_byte (u32 (freelist (slabs_pg s p) + active (slabs_pg s p))) s = Ret (x, s)).
  { rewrite (sp_fl _ _ _ P), (sp_active _ _ _ P). cbn [length].
    replace (page_to_virt p + PAGE_SIZE - slots + (objs - Z.of_nat (S (length fs))))
      with (page_to_virt p + (PAGE_SIZE - slots + (objs - Z.of_nat (S (length fs))))) by lia.
    rewrite virt_fits by (change PAGE_SIZE with 4096; done || lia).
    unfold read_byte. pose proof (sp_bytes _ _ _ P 0 x eq_refl) as Hb. cbn [length] in Hb.
    rewrite <- Hb. do 3 f_equal. f_equal. lia. }
  assert (Hobj : u32 (s_mem (slabs_pg s p) + sz * x) = obj p x).
  { rewrite (sp_mem _ _ _ P). apply virt_fits; [lia|done|].
    pose proof (obj_bounds p x Hx). unfold obj in *. lia. }
  assert (Hfr1 : local_frame cm s s1).
  { split; [|done|done]. intros q Hq. unfold s1. rewrite slabs_pg_active, decide_False; [done|]. congruence. }
  pose proof (lists_pop _ _ _ _ _ _ _ Hl E) as Hl1.
  assert (Hrun : forall s2 : slabs,
    (if objs - Z.of_nat (length fs) =? objs then
         _ ← on_pages (on_pnodes (list_remove (PageNode p)));
         on_pages (on_pnodes (list_insert (SlabsFull c) (PageNode p)))
       else mret tt) s1 = Ret (tt, s2) -> alloc_block c p s = Ret (obj p x, s2)).
  { intros s2 Hs2. unfold alloc_block.
    rewrite (M_bind_run _ _ _ _ _ Hget), (sp_active _ _ _ P), (sp_total _ _ _ P). cbn [length].
    rewrite (proj2 (Z.ltb_lt _ _)) by lia. rewrite (M_bind_run _ _ s s tt) by done.
    rewrite (sp_active _ _ _ P) in Hread. cbn [length] in Hread.
    rewrite (M_bind_run _ _ _ _ _ Hread).
    replace (objs - Z.of_nat (S (length fs)) + 1) with (objs - Z.of_nat (length fs)) by lia.
    rewrite active_fits by lia.
    rewrite (M_bind_run _ _ _ _ _ (upd_slab_run _ _ _ Hp)). fold s1.
    rewrite (M_bind_run _ _ s1 s1 (KmemCache sz v)).
    2:{ unfold get_cache, cache_of. by rewrite (co_cache _ _ _ _ K1). }
    rewrite (M_bind_run _ _ _ _ _ (get_slab_page p s1 Hp)).
    assert (Ep1 : slabs_pg s1 p = with_active (objs - Z.of_nat (length fs)) (slabs_pg s p)).
    { unfold s1. by rewrite slabs_pg_active, decide_True. }
    rewrite Ep1. cbn [with_active active total]. rewrite (sp_total _ _ _ P).
    rewrite (M_bind_run _ _ _ _ _ Hs2). by rewrite <- Hobj. }
  destruct fs as [|y fs].
  - destruct (lists_to_full _ _ _ _ _ Hl1) as (n1 & n2 & E1 & E2 & Hl2 & Hn2).
    exists (put_pages (PMem (pages (sl_pages s1)) n2 (page_lock (sl_pages s1))) s1), ps, (p :: fl).
    split_and!.
    + apply Hrun. rewrite (proj2 (Z.eqb_eq _ _)) by (cbn [length]; lia). rewrite (M_bind_run _ _ _ _ _ (on_slab_nodes_run _ s1 n1 E1)).
      by rewrite (on_slab_nodes_run _ _ n2).
    + by apply core_nodes.
    + done.
    + intros q Hq. rewrite lookup_insert_ne; [by apply Hps|]. intros <-.
      destruct Hl as ([Hnd _] & _). apply list.NoDup_cons in Hnd as [_ Hnd].
      apply list.NoDup_cons in Hnd as [Hnd _]. by rewrite elem_of_page_nodes in Hnd.
    + split; [apply Hfr1|apply Hfr1|]. intros l L1 L2 L3. rewrite Hn2; [done..|].
      intros q Hq. apply L3. rewrite lookup_insert in Hq. case_decide; [by subst q; rewrite E|done].
    + done.
  - exists s1, (p :: ps), fl. split_and!; [|done|done| |done|done].
    + apply Hrun. by rewrite (proj2 (Z.eqb_neq _ _)) by (cbn [length]; lia).
    + intros q [->|Hq]%elem_of_cons; [by rewrite lookup_insert_eq|].
      rewrite lookup_insert. case_decide; [done|]. by apply Hps.
Qed.

(** *** Adding a page *)

Definition all_free : list Z := seqZ 0 objs.

Lemma all_free_pop : all_free = 0 :: seqZ 1 (objs - 1).
Proof.
  destruct objs_bound as (Hb & _). unfold all_free. rewrite seqZ_cons by lia.
  done.
Qed.

Lemma all_free_length : Z.of_nat (length all_free) = objs.
Proof. destruct objs_bound as (Hb & _). unfold all_free. rewrite length_seqZ. lia. Qed.

(** The descriptor [slab_page_init] leaves. *)
Definition slab_desc (s : slabs) (p : Z) : page :=
  let d := with_slab (page_to_virt p + PAGE_SIZE - slots) 0 objs (Some c)
             (with_s_mem (page_to_virt p) (slabs_pg s p)) in
  with_flags d (set_bit PAGE_SLAB (flags d)).

(** [slab_page_init] on a low page, for every size the cache can have. *)
Lemma slab_page_init_state vmap_page v s p :
  0 < sz <= PAGE_SIZE -> sl_caches s !! c = Some (KmemCache sz v) ->
  0 <= p < TOTAL_PAGES -> in_highmem p = false ->
  test_bit PAGE_HIGHMEM (flags (slabs_pg s p)) = false ->
  exists b, slab_page_init vmap_page c (Some p) s =
      Ret (0, Slabs (upd_page p (slab_desc s p) (sl_pages s)) b (sl_caches s)) /\
    forall addr, b !! addr =
      if decide (page_to_virt p + PAGE_SIZE - slots <= addr < page_to_virt p + PAGE_SIZE)
      then Some (u8 (addr - (page_to_virt p + PAGE_SIZE - slots))) else sl_bytes s !! addr.
Proof.
  clear Hsz. intros Hs Ec Hp Hlow Hf. destruct (slab_virt_low p (proj1 Hp) Hlow) as [Ev Hpl].
  assert (Hslots : 1 <= slots <= PAGE_SIZE).
  { unfold slots. change PAGE_SIZE with 4096 in *. split.
    - apply Z.div_le_lower_bound; lia.
    - apply Z.div_le_upper_bound; nia. }
  assert (Hobjs : 0 <= objs <= PAGE_SIZE).
  { unfold objs. change PAGE_SIZE with 4096 in *. split.
    - apply Z.div_pos; lia.
    - apply Z.div_le_upper_bound; nia. }
  change PAGE_SIZE with 4096 in Hslots, Hobjs.
  set (V := page_to_virt p) in *. assert (HV : 0xC0000000 <= V <= 0xF8000000 - 4096).
  { rewrite Ev. unfold KERNEL_VIRT_BASE. change PAGE_SIZE with 4096. lia. }
  set (s1 := put_pages (upd_page p (with_s_mem V (slabs_pg s p)) (sl_pages s)) s).
  set (d2 := with_slab (V + PAGE_SIZE - slots) 0 objs (Some c) (with_s_mem V (slabs_pg s p))).
  set (s2 := put_pages (upd_page p d2 (sl_pages s1)) s1).
  destruct (init_freelist_run (Z.to_nat slots) (V + PAGE_SIZE - slots) 0 s2) as (b & Eb & Hb).
  { change PAGE_SIZE with 4096. lia. } { change PAGE_SIZE with 4096. lia. }
  set (s3 := Slabs (sl_pages s2) b (sl_caches s2)).
  assert (Es4 : put_pages (upd_page p (slab_desc s p) (sl_pages s3)) s3
                = Slabs (upd_page p (slab_desc s p) (sl_pages s)) b (sl_caches s)).
  { unfold s3, s2, s1, put_pages, upd_page. cbn [sl_pages sl_bytes sl_caches pages pnodes page_lock].
    by rewrite !insert_insert_eq. }
  assert (E1 : slabs_pg s1 p = with_s_mem V (slabs_pg s p)).
  { unfold slabs_pg, s1, put_pages. cbn [sl_pages]. by rewrite pg_upd, decide_True. }
  assert (E3 : pg (sl_pages s3) p = d2).
  { unfold s3, s2, put_pages. cbn [sl_pages]. by rewrite pg_upd, decide_True. }
  exists b. rewrite <- Es4. split.
  - unfold slab_page_init. rewrite (M_bind_run _ _ s s p) by done.
    rewrite (M_bind_run (page_address vmap_page p) _ s s V).
    2:{ unfold page_address. rewrite (M_bind_run _ _ _ _ _ (get_slab_page p s Hp)). by rewrite Hf. }
    rewrite (M_bind_run _ _ _ _ _ (upd_slab_run _ _ _ Hp)). fold s1.
    rewrite (proj2 (Z.eqb_neq V 0)) by lia.
    rewrite (M_bind_run _ _ s1 s1 (KmemCache sz v)).
    2:{ unfold get_cache, cache_of. change (sl_caches s1) with (sl_caches s). by rewrite Ec. }
    cbn [size]. rewrite (proj2 (Z.eqb_neq sz 0)) by lia. rewrite (M_bind_run _ _ s1 s1 tt) by done.
    fold slots. rewrite (wrap_small 16 slots) by (unfold fits; lia).
    fold objs. rewrite (wrap_small 16 objs) by (unfold fits; lia).
    rewrite (wrap_small 32 (V + PAGE_SIZE - slots)) by (unfold fits; change PAGE_SIZE with 4096; lia).
    rewrite (M_bind_run _ _ _ _ _ (upd_slab_run _ _ _ Hp)), E1. fold d2 s2.
    rewrite (M_bind_run _ _ _ _ _ Eb). fold s3.
    erewrite M_bind_run; [done|]. erewrite on_pages_run by by apply page_set_bit_run. by rewrite E3.
  - intros addr. rewrite Hb. fold V. change PAGE_SIZE with 4096.
    destruct (decide (V + 4096 - slots <= addr < V + 4096));
      [rewrite decide_True by lia|rewrite decide_False by lia]; done.
Qed.

Lemma slab_page_init_run vmap_page v s a cm p :
  cache_core v s a cm -> cm !! p = None -> a !! p = Some (0, false) ->
  0 <= p < TOTAL_PAGES -> in_highmem p = false -> valid (sl_pages s) p ->
  exists s', slab_page_init vmap_page c (Some p) s = Ret (0, s') /\
    cache_core v s' a (<[p := all_free]> cm) /\
    pnodes (sl_pages s') = pnodes (sl_pages s) /\ sl_caches s' = sl_caches s /\
    (forall q, q <> p -> slabs_pg s' q = slabs_pg s q) /\
    (forall addr, sl_bytes s' !! addr <> sl_bytes s !! addr ->
       page_to_virt p + PAGE_SIZE - slots <= addr < page_to_virt p + PAGE_SIZE).
Proof.
  intros K En Ea Hp Hlow Hv. pose proof slots_bound as Hs. destruct objs_bound as (Hob & Hos & Hbnd).
  destruct (slab_virt_low p (proj1 Hp) Hlow) as [Ev Hpl].
  destruct (slab_page_init_state vmap_page v s p) as (b & Er & Hb).
  { change PAGE_SIZE with 4096. lia. } { apply K. } { done. } { done. }
  { unfold slabs_pg. by rewrite (pi_zone _ _ _ _ (proj1 (co_pages _ _ _ _ K)) p Hv). }
  eexists. split; [exact Er|]. split_and!.
  - apply core_page; [done|done| | |].
    + unfold same_block, same_kind, slab_desc, with_flags, with_slab, with_s_mem. cbn [order flags].
      rewrite !test_set_bit by done. done.
    + assert (Ed : slabs_pg (Slabs (upd_page p (slab_desc s p) (sl_pages s)) b (sl_caches s)) p = slab_desc s p).
      { unfold slabs_pg. cbn [sl_pages]. by rewrite pg_upd, decide_True. }
      split; rewrite ?Ed; try done.
      * unfold slab_desc. cbn [with_flags flags]. by rewrite test_set_bit.
      * cbn [slab_desc with_flags with_slab active]. rewrite all_free_length. lia.
      * intros i x Ei. cbn [sl_bytes]. rewrite Hb, all_free_length.
        unfold all_free in Ei. apply lookup_seqZ in Ei as [-> Hi].
        rewrite decide_True by lia. cbn [from_option]. unfold id. rewrite wrap_small; unfold fits; lia.
      * apply NoDup_seqZ.
      * intros x Hx. apply elem_of_seqZ in Hx. lia.
    + intros q fq addr Hne Eq Haddr. rewrite Hb, decide_False; [done|].
      destruct (co_page _ _ _ _ K _ _ Eq) as [Pq _]. destruct (sp_low _ _ _ Pq) as [Hq Hql].
      destruct (slab_virt_low q (proj1 Hq) Hql) as [Evq _]. rewrite Evq in Haddr. rewrite Ev.
      change PAGE_SIZE with 4096 in *. assert (p + 1 <= q \/ q + 1 <= p) by lia. lia.
  - done.
  - done.
  - intros q Hq. unfold slabs_pg. cbn [sl_pages]. by rewrite pg_upd, decide_False.
  - intros addr Hne. cbn [sl_bytes] in Hne. rewrite Hb in Hne. by case_decide.
Qed.

(** *** [kmem_cache_alloc] *)

Lemma live_page_cm v s a cm p : cache_core v s a cm -> cm !! p <> None -> live_page a p.
Proof.
  intros K Hp. destruct (cm !! p) as [fs|] eqn:E; [|done].
  destruct (co_page _ _ _ _ K _ _ E) as [_ Ea]. exists p, 0. split; [done|]. unfold inside. lia.
Qed.

Lemma core_pmem v s a cm a' pm' (Fr : Z -> Prop) :
  cache_core v s a cm -> pinv pm' a' -> pframe Fr (sl_pages s) pm' ->
  (forall q, cm !! q <> None -> Fr q /\ a' !! q = Some (0, false)) ->
  cache_core v (put_pages pm' s) a' cm.
Proof.
  intros K K' [Hf1 _] Hq. split; [done|apply K|].
  intros p fs E. destruct (Hq p) as [Hp Ea']; [congruence|]. split; [|done].
  destruct (co_page _ _ _ _ K _ _ E) as [P _].
  assert (Ep : slabs_pg (put_pages pm' s) p = slabs_pg s p) by by apply Hf1.
  destruct P. split; rewrite ?Ep; done.
Qed.

Lemma lists_frame_nodes n n' cm ps fl :
  cache_lists n cm ps fl ->
  (forall l, match l with
             | SlabsFull c' | SlabsPartial c' => c' = c
             | PageNode q => cm !! q <> None
             | _ => False end -> nd n' l = nd n l) ->
  cache_lists n' cm ps fl.
Proof.
  intros (H1 & H2 & H3 & H4) Hn. split_and!; [| |done..].
  - apply (dll_frame n); [|done]. intros l [->|Hl]%elem_of_cons; [by apply Hn|].
    apply list_elem_of_fmap in Hl as (q & -> & Hq). apply Hn, H4. by left.
  - apply (dll_frame n); [|done]. intros l [->|Hl]%elem_of_cons; [by apply Hn|].
    apply list_elem_of_fmap in Hl as (q & -> & Hq). apply Hn, H4. by right.
Qed.

Lemma lists_pframe pm pm' cm ps fl (Fr : Z -> Prop) :
  cache_lists (pnodes pm) cm ps fl -> pframe Fr pm pm' -> (forall q, cm !! q <> None -> Fr q) ->
  cache_lists (pnodes pm') cm ps fl.
Proof.
  intros Hl [_ Hn] Hq. eapply lists_frame_nodes; [done|]. intros l Hl'. apply Hn.
  destruct l; cbn; try done. by apply Hq.
Qed.

(** Adding the new page to the empty partial list. *)
Lemma lists_add n cm p fs fl :
  cache_lists n cm [] fl -> cm !! p = None ->
  exists n', list_insert (SlabsPartial c) (PageNode p) n = Ret n' /\
    cache_lists n' (<[p := fs]> cm) [p] fl /\ nodes_frame (<[p := fs]> cm) n n'.
Proof.
  intros (H1 & H2 & H3 & H4) En.
  assert (Hpf : p ∉ fl). { intros Hc. apply (proj1 (H4 p)); [by right|done]. }
  destruct (list_insert_head_dll n (SlabsPartial c) [] (PageNode p) H1) as (n' & E & D & F).
  { rewrite not_elem_of_cons. split; [done|]. apply not_elem_of_nil. }
  exists n'. split_and!; [done|split_and!; [done| | |]|].
  - apply (dll_frame n); [|done]. intros l Hl. apply F. rewrite !not_elem_of_cons.
    apply elem_of_cons in Hl as [->|Hl].
    + split_and!; [done|done|apply not_elem_of_nil].
    + apply list_elem_of_fmap in Hl as (q & -> & Hq).
      split_and!; [|done|apply not_elem_of_nil]. intros [= ->]. done.
  - intros q Hq%list_elem_of_singleton. by subst q.
  - intros q. rewrite list_elem_of_singleton, lookup_insert. case_decide as Hd.
    + subst q. naive_solver.
    + rewrite <- H4. split; [intros [?|?]; [congruence|by right]|]. intros [Hq|?]; [|by right].
      by apply elem_of_nil in Hq.
  - intros l L1 L2 L3. apply F. rewrite !not_elem_of_cons. split_and!; [|done|apply not_elem_of_nil].
    apply L3. by rewrite lookup_insert_eq.
Qed.

Lemma live_pop cm p x fs :
  cm !! p = Some (x :: fs) -> NoDup (x :: fs) -> 0 <= x < objs ->
  forall q, live (<[p := fs]> cm) q <-> live cm q \/ q = obj p x.
Proof.
  intros E Hnd Hx q. apply list.NoDup_cons in Hnd as [Hnd _]. split.
  - intros (p' & fs' & i & [[<- <-]|[Hne E']]%lookup_insert_Some & Hi & Hni & ->).
    + destruct (decide (i = x)) as [->|Hix]; [by right|]. left. exists p, (x :: fs), i.
      split_and!; [done|lia|lia|set_solver|done].
    + left. exists p', fs', i. done.
  - intros [(p' & fs' & i & E' & Hi & Hni & ->)| ->].
    + destruct (decide (p = p')) as [<-|Hne].
      * rewrite E in E'. injection E' as <-. exists p, fs, i. rewrite lookup_insert_eq.
        split_and!; [done|lia|lia|set_solver|done].
      * exists p', fs', i. by rewrite lookup_insert_ne.
    + exists p, fs, x. rewrite lookup_insert_eq. done.
Qed.

Lemma live_new cm p : cm !! p = None -> forall q, live (<[p := all_free]> cm) q <-> live cm q.
Proof.
  intros E q. split.
  - intros (p' & fs' & i & [[<- <-]|[Hne E']]%lookup_insert_Some & Hi & Hni & ->).
    + exfalso. apply Hni. apply elem_of_seqZ. lia.
    + exists p', fs', i. done.
  - intros (p' & fs' & i & E' & Hi & Hni & ->). exists p', fs', i.
    rewrite lookup_insert_ne by congruence. done.
Qed.

(** A free object of the cache overlaps no object in use. *)
Lemma live_disjoint v s a cm p x fs q :
  cache_core v s a cm -> cm !! p = Some (x :: fs) -> live cm q ->
  q + sz <= obj p x \/ obj p x + sz <= q.
Proof.
  intros K E (p' & fs' & i & E' & Hi & Hni & ->).
  destruct (co_page _ _ _ _ K _ _ E) as [P _]. destruct (co_page _ _ _ _ K _ _ E') as [P' _].
  destruct (sp_low _ _ _ P) as [Hp Hl]. destruct (sp_low _ _ _ P') as [Hp' Hl'].
  apply obj_disjoint; try done; try lia.
  - apply (sp_range _ _ _ P). set_solver.
  - intros [= -> ->]. rewrite E in E'. injection E' as <-. set_solver.
Qed.

(** The end of [kmem_cache_alloc], from the page it has chosen. *)
Lemma alloc_finish s a cm p x fs ps fl :
  cache_core 1 s a cm -> cm !! p = Some (x :: fs) ->
  cache_lists (pnodes (sl_pages s)) cm (p :: ps) fl ->
  (forall q, q ∈ ps -> cm !! q <> Some []) ->
  (forall q fq, cm !! q = Some fq -> q <> p -> Z.of_nat (length fq) < objs) ->
  exists s', (ptr ← alloc_block c p; _ ← unlock_cache c; mret ptr) s = Ret (obj p x, s') /\
    cache_ok s' a (<[p := fs]> cm) /\ sl_bytes s' = sl_bytes s /\
    (forall q, cm !! q = None -> slabs_pg s' q = slabs_pg s q) /\
    (forall c', c' <> c -> sl_caches s' !! c' = sl_caches s !! c') /\
    nodes_frame cm (pnodes (sl_pages s)) (pnodes (sl_pages s')).
Proof.
  intros K E Hl Hps Hu.
  destruct (alloc_block_run _ _ _ _ _ _ _ _ _ K E Hl Hps) as (s1 & ps' & fl' & E1 & K1 & L1 & N1 & F1 & B1).
  eexists. split.
  { rewrite (M_bind_run _ _ _ _ _ E1).
    by rewrite (M_bind_run _ _ _ _ _ (unlock_cache_run c s1 sz 1 (co_cache _ _ _ _ K1))). }
  split_and!; [split_and!| | | |].
  - by eapply core_lock.
  - by exists ps', fl'.
  - intros q fq [[<- <-]|[Hne Eq]]%lookup_insert_Some; [|by apply (Hu q)].
    destruct (co_page _ _ _ _ K _ _ E) as [P _]. apply slab_page_length in P. cbn [length] in P. lia.
  - done.
  - apply F1.
  - intros c' Hc. cbn [sl_caches]. rewrite lookup_insert_ne by done. by rewrite (lf_caches _ _ _ F1).
  - apply F1.
Qed.

(** What [kmem_cache_alloc] promises: a new object. *)
Definition alloc_post (s : slabs) (a : blockmap) (cm : cmap) (ptr : Z) (s' : slabs) : Prop :=
  exists a' cm', cache_ok s' a' cm' /\
    (forall q, live cm' q <-> live cm q \/ q = ptr) /\
    (forall q, live cm q -> q + sz <= ptr \/ ptr + sz <= q) /\
    (exists p, a' !! p = Some (0, false) /\
       page_to_virt p <= ptr /\ ptr + sz <= page_to_virt p + PAGE_SIZE - slots) /\
    cache_frame a cm cm' s s'.

Lemma cache_alloc_partial vmap_page s a cm p ps fl :
  cache_ok s a cm -> cache_lists (pnodes (sl_pages s)) cm (p :: ps) fl ->
  (forall q, q ∈ p :: ps -> cm !! q <> Some []) ->
  exists ptr s', kmem_cache_alloc vmap_page c s = Ret (ptr, s') /\ alloc_post s a cm ptr s'.
Proof.
  intros (K & _ & Hu) Hl Hps.
  destruct (cm !! p) as [[|x fs]|] eqn:E.
  - exfalso. apply (Hps p); [set_solver|done].
  - pose proof (lock_cache_run c s sz (co_cache _ _ _ _ K)) as El.
    set (s1 := Slabs (sl_pages s) (sl_bytes s) (<[c:=KmemCache sz 1]> (sl_caches s))) in *.
    destruct (alloc_finish s1 a cm p x fs ps fl) as (s2 & E2 & K2 & B2 & P2 & C2 & N2);
      [by eapply core_lock|done|done|intros; apply Hps; set_solver|by intros; eapply Hu|].
    exists (obj p x), s2. split.
    + unfold kmem_cache_alloc. rewrite (M_bind_run _ _ _ _ _ El), (M_bind_run _ _ s1 s1 s1) by done.
      assert (Hne : list_empty (SlabsPartial c) (pnodes (sl_pages s1)) = false).
      { apply not_true_is_false. intros Hc. by apply (list_empty_dll _ _ _ (proj1 Hl)) in Hc. }
      rewrite Hne. rewrite (M_bind_run _ _ s1 s1 (Some p)); [exact E2|].
      rewrite (M_bind_run _ _ s1 s1 p); [done|].
      change (pnodes (sl_pages s1)) with (pnodes (sl_pages s)).
      by rewrite (list_next_dll _ _ (PageNode p) _ (proj1 Hl)).
    + destruct (co_page _ _ _ _ K _ _ E) as [P Ea]. pose proof (sp_range _ _ _ P x ltac:(set_solver)) as Hx.
      exists a, (<[p := fs]> cm). split_and!; [done|by apply live_pop; [|apply P|]|..].
      * intros q Hq. eapply live_disjoint; eauto.
      * exists p. split; [done|]. by apply obj_bounds.
      * split.
        -- intros q _ Hq. split; [by apply P2|]. apply N2; [done..|]. intros y Hy [= ->]. done.
        -- intros c' Hc. rewrite (C2 c' Hc). unfold s1. cbn [sl_caches]. rewrite lookup_insert_ne by done.
           split_and!; [done|apply N2; congruence..].
        -- intros addr Hne. by rewrite B2 in Hne.
  - exfalso. destruct Hl as (_ & _ & _ & H4). apply (proj1 (H4 p)); [left; set_solver|done].
Qed.

(** No partial page: a page is taken from the page allocator. *)
Lemma cache_alloc_fresh vmap_page s a cm fl :
  cache_ok s a cm -> cache_lists (pnodes (sl_pages s)) cm [] fl ->
  (exists ptr s', kmem_cache_alloc vmap_page c s = Ret (ptr, s') /\ alloc_post s a cm ptr s') \/
  (kmem_cache_alloc vmap_page c s = Fault /\ forall h k, a !! h = Some (k, true) -> in_highmem h = true).
Proof.
  intros (K & _ & Hu) Hl.
  pose proof (lock_cache_run c s sz (co_cache _ _ _ _ K)) as El.
  set (s1 := Slabs (sl_pages s) (sl_bytes s) (<[c:=KmemCache sz 1]> (sl_caches s))) in *.
  assert (K1 : cache_core 1 s1 a cm) by by eapply core_lock.
  destruct (alloc_pages_run (sl_pages s) a GFP_NORMAL 0 (co_pages _ _ _ _ K) ltac:(done))
    as (r & pm' & a' & Ep & Hsp & Kp & Vp & Fp).
  pose proof (tl_wf _ _ _ (pi_tile _ _ _ _ (proj1 (co_pages _ _ _ _ K)))) as Hwf.
  pose proof (alloc_spec_live _ _ _ _ _ _ _ (pi_tile _ _ _ _ (proj1 (co_pages _ _ _ _ K))) ltac:(done) Hsp) as Hlv.
  assert (Ep1 : on_pages (alloc_page GFP_NORMAL) s1 = Ret (r, put_pages pm' s1)) by (apply on_pages_run, Ep).
  assert (He : list_empty (SlabsPartial c) (pnodes (sl_pages s1)) = true).
  { by apply (list_empty_dll _ _ _ (proj1 Hl)). }
  destruct r as [p|].
  - left.
    assert (Hpl : in_highmem p = false) by (inversion Hsp; subst; done).
    assert (Epa : a' !! p = Some (0, false)) by (apply Hlv; by left).
    assert (Hvp : valid pm' p) by (eapply tiling_head_managed; [apply Kp|done]).
    assert (Enc : cm !! p = None).
    { destruct (cm !! p) as [fq|] eqn:Eq; [|done]. destruct (co_page _ _ _ _ K _ _ Eq) as [_ Ea].
      inversion Hsp; subst. congruence. }
    assert (Hcm : forall q, cm !! q <> None -> live_page a q /\ a' !! q = Some (0, false)).
    { intros q Hq. split; [by eapply live_page_cm|]. destruct (cm !! q) as [fq|] eqn:Eq; [|done].
      apply Hlv. right. by destruct (co_page _ _ _ _ K _ _ Eq). }
    pose proof (core_pmem _ _ _ _ _ _ _ K1 Kp Fp Hcm) as K2.
    set (s2 := put_pages pm' s1) in *.
    assert (L2 : cache_lists (pnodes (sl_pages s2)) cm [] fl).
    { eapply lists_pframe; [exact Hl|exact Fp|]. intros q Hq. by apply Hcm. }
    destruct (slab_page_init_run vmap_page 1 s2 a' cm p K2 Enc Epa (proj1 Hvp) Hpl Hvp)
      as (s3 & E3 & K3 & N3 & C3 & P3 & B3).
    rewrite <- N3 in L2.
    destruct (lists_add _ _ p all_free _ L2 Enc) as (n & En & L4 & F4).
    pose proof (core_nodes _ _ _ _ _ K3 F4) as K4.
    set (s4 := put_pages (PMem (pages (sl_pages s3)) n (page_lock (sl_pages s3))) s3) in *.
    destruct (alloc_finish s4 a' (<[p := all_free]> cm) p 0 (seqZ 1 (objs - 1)) [] fl K4)
      as (s5 & E5 & K5 & B5 & P5 & C5 & N5).
    { by rewrite lookup_insert_eq, all_free_pop. }
    { done. }
    { intros q Hq. by apply elem_of_nil in Hq. }
    { intros q fq [[<- _]|[_ Eq]]%lookup_insert_Some Hne; [done|]. by apply (Hu q). }
    rewrite insert_insert_eq in K5.
    exists (obj p 0), s5. split.
    + unfold kmem_cache_alloc. rewrite (M_bind_run _ _ _ _ _ El), (M_bind_run _ _ s1 s1 s1) by done.
      rewrite He, (M_bind_run _ _ s1 s4 (Some p)); [exact E5|].
      rewrite (M_bind_run _ _ _ _ _ Ep1), (M_bind_run _ _ _ _ _ E3). cbn [Z.eqb].
      rewrite (M_bind_run _ _ s3 s3 p) by done. by rewrite (M_bind_run _ _ _ _ _ (on_slab_nodes_run _ s3 n En)).
    + destruct objs_bound as (Hob & _). exists a', (<[p := seqZ 1 (objs - 1)]> cm).
      split_and!; [done| | |exists p; split; [done|by apply obj_bounds; lia]|].
      * intros q. rewrite <- (insert_insert_eq cm p (seqZ 1 (objs - 1)) all_free).
        rewrite (live_pop _ p 0); [by rewrite live_new| | |lia].
        -- by rewrite lookup_insert_eq, all_free_pop.
        -- rewrite <- all_free_pop. apply NoDup_seqZ.
      * intros q Hq. eapply (live_disjoint 1 s4 a' (<[p := all_free]> cm)); [done| |].
        -- by rewrite lookup_insert_eq, all_free_pop.
        -- by apply live_new.
      * split.
        -- intros q Hq Hqn. assert (Hqp : q <> p).
           { intros ->. destruct Hq as (h & o & Eh & Hi).
             assert (Eh' : a' !! h = Some (o, false)) by (apply Hlv; by right).
             pose proof (tiling_inside_head _ _ _ _ _ _ _ (pi_tile _ _ _ _ (proj1 Kp)) Eh' Hi Epa). subst h.
             inversion Hsp; subst. congruence. }
           assert (Hqc : <[p := all_free]> cm !! q = None) by by rewrite lookup_insert_ne.
           split.
           ++ rewrite (P5 q Hqc). change (slabs_pg s4 q) with (slabs_pg s3 q). rewrite (P3 q Hqp).
              by apply Fp.
           ++ rewrite (N5 (PageNode q)); [|done|done|by intros y Hy [= ->]].
              change (pnodes (sl_pages s4)) with n.
              rewrite (F4 (PageNode q)); [|done|done|by intros y Hy [= ->]]. rewrite N3. by apply Fp.
        -- intros c' Hc. rewrite (C5 c' Hc). change (sl_caches s4) with (sl_caches s3). rewrite C3.
           cbn [s2 put_pages sl_caches s1]. rewrite lookup_insert_ne by done. split; [done|].
           split; (rewrite N5; [|congruence|congruence|done]); change (pnodes (sl_pages s4)) with n;
             (rewrite F4; [|congruence|congruence|done]); rewrite N3; by apply Fp.
        -- intros addr Hne. rewrite B5 in Hne. change (sl_bytes s4) with (sl_bytes s3) in Hne.
           exists p. split; [right; by rewrite lookup_insert_eq|]. split; [done|]. by apply B3.
  - right. split.
    + unfold kmem_cache_alloc. rewrite (M_bind_run _ _ _ _ _ El), (M_bind_run _ _ s1 s1 s1) by done.
      rewrite He. unfold mbind at 1, M_bind at 1. by rewrite (M_bind_run _ _ _ _ _ Ep1).
    + intros h k Eh. inversion Hsp as [Hn|]; subst. destruct (in_highmem h) eqn:Hh; [done|].
      exfalso. specialize (Hn h k Eh Hh). destruct (Hwf _ _ _ Eh). lia.
Qed.

(** *** [kmem_cache_free] *)

Definition pushed (s : slabs) (p act addr i : Z) : slabs :=
  Slabs (upd_page p (with_active act (slabs_pg s p)) (sl_pages s)) (<[addr := u8 i]> (sl_bytes s)) (sl_caches s).

Definition push_addr (p : Z) (fs : list Z) : Z :=
  page_to_virt p + PAGE_SIZE - slots + (objs - Z.of_nat (length fs) - 1).

Lemma core_push v s a cm p fs i :
  cache_core v s a cm -> cm !! p = Some fs -> 0 <= i < objs -> i ∉ fs ->
  Z.of_nat (length fs) < objs ->
  cache_core v (pushed s p (objs - Z.of_nat (length fs) - 1) (push_addr p fs) i) a (<[p := i :: fs]> cm).
Proof.
  intros K E Hi Hni Hlen. destruct (co_page _ _ _ _ K _ _ E) as [P Ea].
  pose proof slots_bound. destruct objs_bound as (Hob & Hos & _).
  destruct (sp_low _ _ _ P) as [Hp Hlow]. destruct (slab_virt_low p (proj1 Hp) Hlow) as [Ev _].
  apply core_page; [done..| |].
  - set (s' := Slabs _ _ _).
    assert (Ep : slabs_pg s' p = with_active (objs - Z.of_nat (length fs) - 1) (slabs_pg s p)).
    { unfold slabs_pg, s'. cbn [sl_pages]. by rewrite pg_upd, decide_True. }
    destruct P. split; rewrite ?Ep; try done.
    + cbn [with_active active length]. lia.
    + intros k x Ek. cbn [s' sl_bytes length]. unfold push_addr. rewrite lookup_insert.
      destruct k as [|k]; cbn in Ek.
      * injection Ek as <-. rewrite decide_True by lia. cbn. rewrite wrap_small; unfold id, fits; lia.
      * rewrite decide_False by lia. rewrite <- (sp_bytes0 k x Ek). do 2 f_equal. lia.
    + by apply list.NoDup_cons.
    + intros x [->|Hx]%elem_of_cons; [done|]. by apply sp_range0.
  - intros q fq addr Hne Eq Haddr. rewrite lookup_insert_ne; [done|].
    destruct (co_page _ _ _ _ K _ _ Eq) as [Pq _]. destruct (sp_low _ _ _ Pq) as [Hq Hql].
    destruct (slab_virt_low q (proj1 Hq) Hql) as [Evq _]. unfold push_addr.
    rewrite Evq in Haddr. rewrite Ev. change PAGE_SIZE with 4096 in *.
    assert (p + 1 <= q \/ q + 1 <= p) by lia. lia.
Qed.

(** The start of [free_block], up to the test for an empty page. *)
Lemma free_block_push v s a cm p fs i :
  cache_core v s a cm -> cm !! p = Some fs -> 0 <= i < objs -> i ∉ fs ->
  Z.of_nat (length fs) < objs ->
  free_block c p (obj p i) s =
    (if objs - Z.of_nat (length fs) - 1 =? 0 then
       _ ← on_pages (on_pnodes (list_remove (PageNode p)));
       _ ← slab_page_deinit p;
       on_pages (free_pages p)
     else mret tt) (pushed s p (objs - Z.of_nat (length fs) - 1) (push_addr p fs) i).
Proof.
  intros K E Hi Hni Hlen. destruct (co_page _ _ _ _ K _ _ E) as [P Ea].
  pose proof slots_bound. destruct objs_bound as (Hob & Hos & _).
  destruct (slab_access _ _ _ _ _ _ K E) as (Hp & Hlow & Hget).
  unfold free_block. rewrite (M_bind_run _ _ s s (KmemCache sz v)).
  2:{ unfold get_cache, cache_of. by rewrite (co_cache _ _ _ _ K). }
  rewrite (M_bind_run _ _ _ _ _ Hget), (sp_active _ _ _ P).
  assert (Eidx : obj_to_index (KmemCache sz v) (slabs_pg s p) (obj p i) = i).
  { unfold obj_to_index, obj. rewrite (sp_mem _ _ _ P), Z.add_simpl_l. cbn [size].
    pose proof (obj_bounds p i Hi) as Hb. unfold obj in Hb. change PAGE_SIZE with 4096 in Hb.
    rewrite wrap_small by (unfold fits; nia). rewrite Z.mul_comm. apply Z.div_mul. lia. }
  rewrite Eidx. rewrite (proj2 (Z.ltb_lt _ _)) by lia. rewrite (M_bind_run _ _ s s tt) by done.
  rewrite (wrap_small 16) by (unfold fits; lia).
  rewrite (M_bind_run _ _ _ _ _ (upd_slab_run _ _ _ Hp)).
  rewrite (M_bind_run _ _ _ _ _ (get_slab_page p _ Hp)).
  set (s1 := put_pages _ s).
  assert (E1 : slabs_pg s1 p = with_active (objs - Z.of_nat (length fs) - 1) (slabs_pg s p)).
  { unfold s1, slabs_pg, put_pages. cbn [sl_pages]. by rewrite pg_upd, decide_True. }
  rewrite E1. cbn [with_active active freelist]. rewrite (sp_fl _ _ _ P).
  replace (page_to_virt p + PAGE_SIZE - slots + (objs - Z.of_nat (length fs) - 1))
    with (page_to_virt p + (PAGE_SIZE - slots + (objs - Z.of_nat (length fs) - 1))) by lia.
  rewrite virt_fits by (change PAGE_SIZE with 4096; done || lia).
  rewrite (M_bind_run _ _ s1 (pushed s p (objs - Z.of_nat (length fs) - 1) (push_addr p fs) i) tt); [done|].
  unfold write_byte, pushed, push_addr, s1. do 3 f_equal. f_equal. lia.
Qed.

(** An object that stays on a page with others in use. *)
Lemma live_push cm p fs i :
  cm !! p = Some fs -> 0 <= i < objs -> i ∉ fs ->
  (forall q gs, cm !! q = Some gs -> 0 <= q /\ in_highmem q = false) ->
  forall q, live (<[p := i :: fs]> cm) q <-> live cm q /\ q <> obj p i.
Proof.
  intros E Hi Hni Hlow q. split.
  - intros (p' & fs' & j & [[<- <-]|[Hne E']]%lookup_insert_Some & Hj & Hnj & ->).
    + apply not_elem_of_cons in Hnj as [Hji Hnj]. split; [exists p, fs, j; done|].
      unfold obj. intros Hc. apply Hji. nia.
    + split; [exists p', fs', j; done|]. destruct (Hlow _ _ E) as [? ?]. destruct (Hlow _ _ E') as [? ?].
      destruct (obj_disjoint p' j p i) as [?|?]; try done; [congruence|lia|lia].
  - intros [(p' & fs' & j & E' & Hj & Hnj & ->) Hq]. destruct (decide (p = p')) as [<-|Hne].
    + rewrite E in E'. injection E' as <-. exists p, (i :: fs), j. rewrite lookup_insert_eq.
      split_and!; [done|lia|lia| |done]. rewrite not_elem_of_cons. split; [congruence|done].
    + exists p', fs', j. by rewrite lookup_insert_ne.
Qed.

(** A page with no object in use contributes none. *)
Lemma live_drop cm p fs :
  cm !! p = Some fs -> NoDup fs -> (forall x, x ∈ fs -> 0 <= x < objs) -> objs <= Z.of_nat (length fs) ->
  forall q, live (delete p cm) q <-> live cm q.
Proof.
  intros E Hn Hr Hl q. split.
  - intros (p' & fs' & j & [Hne E']%lookup_delete_Some & H). by exists p', fs', j.
  - intros (p' & fs' & j & E' & Hj & Hnj & ->). destruct (decide (p = p')) as [<-|Hne].
    + rewrite E in E'. injection E' as <-. exfalso. apply Hnj. by apply (NoDup_range_full fs objs).
    + exists p', fs', j. by rewrite lookup_delete_ne.
Qed.

(** Unlinking a page from the list it is on. *)
Lemma lists_drop n cm p ps fl :
  cache_lists n cm ps fl -> cm !! p <> None ->
  exists n' ps' fl', list_remove (PageNode p) n = Ret n' /\
    cache_lists n' (delete p cm) ps' fl' /\ (forall q, q ∈ ps' -> q ∈ ps) /\ nodes_frame cm n n'.
Proof.
  intros (H1 & H2 & H3 & H4) Hp.
  assert (Hx : forall l1 l2 h, dll n h (PageNode <$> l1 ++ p :: l2) -> p ∉ l1 ++ l2).
  { intros l1 l2 h [Hnd _]. apply list.NoDup_cons in Hnd as [_ Hnd].
    rewrite fmap_app, fmap_cons, <- Permutation_middle, <- fmap_app in Hnd.
    apply list.NoDup_cons in Hnd as [Hnd _]. by rewrite elem_of_page_nodes in Hnd. }
  assert (Hdom : forall q, delete p cm !! q <> None <-> q <> p /\ cm !! q <> None).
  { intros q. destruct (decide (p = q)) as [->|Hne].
    - rewrite lookup_delete_eq. naive_solver.
    - rewrite lookup_delete_ne by done. naive_solver. }
  assert (Hmem : forall (ls : list Z) q, PageNode q ∉ PageNode <$> ls <-> q ∉ ls).
  { intros ls q. by rewrite elem_of_page_nodes. }
  apply H4 in Hp as [Hp|Hp]; pose proof Hp as Hpin; apply list_elem_of_split in Hp as (l1 & l2 & ->).
  - pose proof (Hx _ _ _ H1) as Hout. rewrite fmap_app, fmap_cons in H1.
    destruct (list_remove_dll _ _ _ _ _ H1) as (n' & E & D & F). rewrite <- fmap_app in D, F.
    exists n', (l1 ++ l2), fl. split_and!; [done|split_and!; [done| | |]| |].
    + apply (dll_frame n); [|done]. intros l [->|Hl]%elem_of_cons; apply F; rewrite not_elem_of_cons.
      * split; [done|]. by intros (y & ? & _)%list_elem_of_fmap.
      * apply list_elem_of_fmap in Hl as (y & -> & Hy). rewrite Hmem. split; [done|].
        intros Hy2. apply (H3 y); [set_solver|done].
    + intros q Hq. apply H3. set_solver.
    + intros q. rewrite Hdom, <- H4. pose proof (H3 p Hpin).
      split; [intros [Hq|Hq]; (split; [intros ->; done|set_solver])|]. intros [? [Hq|Hq]]; set_solver.
    + set_solver.
    + intros l L1 L2 L3. apply F. rewrite not_elem_of_cons. split; [done|].
      intros (y & -> & Hy)%list_elem_of_fmap. apply (L3 y); [|done]. apply H4. set_solver.
  - pose proof (Hx _ _ _ H2) as Hout. rewrite fmap_app, fmap_cons in H2.
    destruct (list_remove_dll _ _ _ _ _ H2) as (n' & E & D & F). rewrite <- fmap_app in D, F.
    exists n', ps, (l1 ++ l2). split_and!; [done|split_and!; [|done| |]| |].
    + apply (dll_frame n); [|done]. intros l [->|Hl]%elem_of_cons; apply F; rewrite not_elem_of_cons.
      * split; [done|]. by intros (y & ? & _)%list_elem_of_fmap.
      * apply list_elem_of_fmap in Hl as (y & -> & Hy). rewrite Hmem. split; [done|].
        intros Hy2. apply (H3 y); [done|set_solver].
    + intros q Hq Hq2. apply (H3 q); [done|set_solver].
    + intros q. rewrite Hdom, <- H4.
      assert (p ∉ ps) by (intros Hc; by apply (H3 p)).
      split; [intros [Hq|Hq]; (split; [intros ->; done|set_solver])|]. intros [? [Hq|Hq]]; set_solver.
    + done.
    + intros l L1 L2 L3. apply F. rewrite not_elem_of_cons. split; [done|].
      intros (y & -> & Hy)%list_elem_of_fmap. apply (L3 y); [|done]. apply H4. set_solver.
Qed.

Lemma core_delete v s a cm p : cache_core v s a cm -> cache_core v s a (delete p cm).
Proof.
  intros K. split; [apply K..|]. intros q fs [_ E]%lookup_delete_Some. by apply (co_page _ _ _ _ K).
Qed.

Lemma core_other v s a cm p d :
  cache_core v s a cm -> cm !! p = None -> same_block (slabs_pg s p) d ->
  cache_core v (put_pages (upd_page p d (sl_pages s)) s) a cm.
Proof.
  intros K En Hd. split; [|apply K|].
  - eapply pinv_writes; [apply K|apply K|intros q; by apply same_block_upd|done].
  - intros q fs E. destruct (co_page _ _ _ _ K _ _ E) as [P Ea]. split; [|done].
    assert (Eq : slabs_pg (put_pages (upd_page p d (sl_pages s)) s) q = slabs_pg s q).
    { unfold slabs_pg, put_pages. cbn [sl_pages]. rewrite pg_upd, decide_False; [done|]. congruence. }
    destruct P. split; rewrite ?Eq; done.
Qed.

(** The descriptor [slab_page_deinit] leaves. *)
Definition deinited (d : page) : page :=
  let d := with_slab 0 0 0 None d in with_flags d (clear_bit PAGE_SLAB (flags d)).

Lemma slab_page_deinit_run s p :
  0 <= p < TOTAL_PAGES ->
  slab_page_deinit p s = Ret (tt, put_pages (upd_page p (deinited (slabs_pg s p)) (sl_pages s)) s).
Proof.
  intros Hp. unfold slab_page_deinit. rewrite (M_bind_run _ _ _ _ _ (upd_slab_run _ _ _ Hp)).
  erewrite on_pages_run by by apply page_clear_bit_run.
  assert (E : pg (sl_pages (put_pages (upd_page p (with_slab 0 0 0 None (slabs_pg s p)) (sl_pages s)) s)) p
              = with_slab 0 0 0 None (slabs_pg s p)) by (cbn; by rewrite pg_upd, decide_True).
  rewrite E. unfold put_pages, upd_page, deinited. cbn [sl_pages sl_bytes sl_caches pages pnodes page_lock].
  by rewrite insert_insert_eq.
Qed.

Lemma same_block_deinited d : same_block d (deinited d).
Proof.
  unfold same_block, same_kind, deinited, with_slab, with_flags. cbn [order flags].
  rewrite !test_clear_bit by done. done.
Qed.

(** Giving an empty page back. *)
(** Page [p] leaves the allocated blocks, and nothing else does. *)
Definition given_back (a a' : blockmap) (p : Z) : Prop :=
  forall x k, a' !! x = Some (k, false) <-> x <> p /\ a !! x = Some (k, false).

Lemma free_block_empty s a cm p fs ps fl :
  cache_core 1 s a cm -> cm !! p = Some fs -> cache_lists (pnodes (sl_pages s)) cm ps fl ->
  whole_buddies PAGE_MAX_ORDER a p 0 ->
  exists s' a' ps' fl',
    (_ ← on_pages (on_pnodes (list_remove (PageNode p)));
     _ ← slab_page_deinit p;
     on_pages (free_pages p)) s = Ret (tt, s') /\
    cache_core 1 s' a' (delete p cm) /\
    cache_lists (pnodes (sl_pages s')) (delete p cm) ps' fl' /\ (forall q, q ∈ ps' -> q ∈ ps) /\
    given_back a a' p /\
    sl_bytes s' = sl_bytes s /\ sl_caches s' = sl_caches s /\
    (forall q, live_page a q -> cm !! q = None -> slabs_pg s' q = slabs_pg s q) /\
    (forall l, match l with PageNode q => live_page a q /\ cm !! q = None
               | SlabsFull c' | SlabsPartial c' => c' <> c | _ => False end ->
       nd (pnodes (sl_pages s')) l = nd (pnodes (sl_pages s)) l).
Proof.
  intros K E Hl Hw. destruct (co_page _ _ _ _ K _ _ E) as [P Ea].
  destruct (slab_access _ _ _ _ _ _ K E) as (Hp & Hlow & _).
  destruct (lists_drop _ _ p _ _ Hl ltac:(congruence)) as (n & ps' & fl' & En & L1 & Hsub & F1).
  pose proof (core_delete _ _ _ _ p (core_nodes _ _ _ _ _ K F1)) as K1.
  set (s1 := put_pages (PMem (pages (sl_pages s)) n (page_lock (sl_pages s))) s) in *.
  pose proof (core_other _ _ _ _ p (deinited (slabs_pg s1 p)) K1 (lookup_delete_eq cm p)
    (same_block_deinited _)) as K2.
  set (s2 := put_pages (upd_page p (deinited (slabs_pg s1 p)) (sl_pages s1)) s1) in *.
  pose proof (pi_tile _ _ _ _ (proj1 (co_pages _ _ _ _ K2))) as T2.
  destruct (merges_total PAGE_MAX_ORDER _ (Z.to_nat PAGE_MAX_ORDER) p 0 a T2 Ea Hw ltac:(done))
    as (h' & o' & am & Hm).
  destruct (free_pages_run (sl_pages s2) a p 0 h' o' am (co_pages _ _ _ _ K2) Ea Hm)
    as (pm & Ef & Kf & _ & Ff).
  pose proof (merges_live _ _ _ _ _ _ _ _ Hm T2 Ea) as Hlive.
  assert (Hcm : forall q, delete p cm !! q <> None ->
    (live_page a q /\ ~ inside q p 0) /\ <[h' := (o', true)]> am !! q = Some (0, false)).
  { intros q Hq. destruct (delete p cm !! q) as [fq|] eqn:Eq; [|done].
    destruct (co_page _ _ _ _ K1 _ _ Eq) as [_ Eqa].
    assert (q <> p) by (intros ->; by rewrite lookup_delete_eq in Eq).
    split; [split; [by eapply (live_page_cm _ _ _ _ _ K1); rewrite Eq|unfold inside; lia]|].
    by apply Hlive. }
  exists (put_pages pm s2), (<[h' := (o', true)]> am), ps', fl'. split_and!.
  - rewrite (M_bind_run _ _ _ _ _ (on_slab_nodes_run _ s n En)). fold s1.
    rewrite (M_bind_run _ _ _ _ _ (slab_page_deinit_run s1 p Hp)). fold s2.
    by erewrite on_pages_run by exact Ef.
  - by eapply core_pmem.
  - eapply (lists_pframe (sl_pages s2)); [exact L1|exact Ff|]. intros q Hq. by apply Hcm.
  - done.
  - exact Hlive.
  - done.
  - done.
  - intros q Hq Hqn. assert (Hqp : q <> p) by congruence.
    change (pg pm q = slabs_pg s q). rewrite (proj1 Ff q); [|split; [done|unfold inside; lia]].
    unfold s2. cbn [put_pages sl_pages]. by rewrite pg_upd, decide_False.
  - intros l Hlm. change (nd (pnodes pm) l = nd (pnodes (sl_pages s)) l). rewrite (proj2 Ff l).
    + change (nd n l = nd (pnodes (sl_pages s)) l). apply F1.
      * by intros ->.
      * by intros ->.
      * intros q Hq ->. by destruct Hlm.
    + destruct l as [| |q| |]; cbn; try done. destruct Hlm as [Hl1 Hl2]. split; [done|].
      unfold inside. assert (q <> p) by congruence. lia.
Qed.

(** Another object of page [p] is in use. *)
Definition page_shared (cm : cmap) (p ptr : Z) : Prop :=
  exists q, live cm q /\ q <> ptr /\ virt_to_page q = p.

(** What [kmem_cache_free] promises: the object is no longer in use.  Its
    page goes back to the page allocator when this was its last object in
    use; otherwise it stays with the cache and the allocator is as before. *)
Definition free_post (s : slabs) (a : blockmap) (cm : cmap) (ptr : Z) (s' : slabs) : Prop :=
  exists a' cm', cache_ok s' a' cm' /\
    (forall q, live cm' q <-> live cm q /\ q <> ptr) /\ cache_frame a cm cm' s s' /\
    (page_shared cm (virt_to_page ptr) ptr -> a' = a /\ dom cm' = dom cm) /\
    (~ page_shared cm (virt_to_page ptr) ptr ->
       given_back a a' (virt_to_page ptr) /\ dom cm' = dom cm ∖ {[virt_to_page ptr]}).

Lemma pushed_frame s p act addr i q : q <> p -> slabs_pg (pushed s p act addr i) q = slabs_pg s q.
Proof. intros Hq. unfold slabs_pg, pushed. cbn [sl_pages]. by rewrite pg_upd, decide_False. Qed.

Lemma virt_to_page_obj p i :
  0 <= p -> in_highmem p = false -> 0 <= i < objs ->
  virt_to_page (obj p i) = p /\ is_vmalloc_addr (obj p i) = false.
Proof.
  intros H0 Hl Hi. destruct (slab_virt_low p H0 Hl) as [Ev Hp]. pose proof (obj_bounds p i Hi) as [Hb1 Hb2].
  pose proof slots_bound. rewrite Ev in *. unfold KERNEL_VIRT_BASE in *. change PAGE_SIZE with 4096 in *.
  split.
  - unfold virt_to_page, phys_to_page, phys_to_pfn, virt_to_phys, KERNEL_VIRT_BASE, PAGE_SHIFT.
    rewrite wrap_small by (unfold fits; lia). rewrite Z.shiftr_div_pow2 by lia. change (2 ^ 12) with 4096.
    symmetry. apply (Z.div_unique _ _ _ (obj p i - 3221225472 - 4096 * p)); lia.
  - unfold is_vmalloc_addr, VMALLOC_END, KERNEL_VIRT_BASE. rewrite (proj2 (Z.ltb_ge _ _)) by lia.
    apply andb_false_r.
Qed.

(** A page has another object in use unless one index alone is missing from
    its free stack. *)
Lemma page_shared_iff s a cm v p fs i :
  cache_core v s a cm -> cm !! p = Some fs -> 0 <= i < objs -> i ∉ fs ->
  (page_shared cm p (obj p i) <-> Z.of_nat (length fs) + 1 < objs).
Proof.
  intros K E Hi Hni. destruct (co_page _ _ _ _ K _ _ E) as [P _].
  assert (Hnd : NoDup (i :: fs)) by (apply list.NoDup_cons; split; [done|apply P]).
  assert (Hrg : forall x, x ∈ i :: fs -> 0 <= x < objs) by (intros x [->|Hx]%elem_of_cons; [done|by apply P]).
  destruct (sp_low _ _ _ P) as [Hp Hlow]. split.
  - intros (q & (p' & fs' & j & E' & Hj & Hnj & ->) & Hne & Hv).
    destruct (co_page _ _ _ _ K _ _ E') as [P' _]. destruct (sp_low _ _ _ P') as [Hp' Hlow'].
    rewrite (proj1 (virt_to_page_obj p' j (proj1 Hp') Hlow' Hj)) in Hv. subst p'.
    rewrite E in E'. injection E' as <-. assert (j <> i) by congruence.
    assert (Hnd2 : NoDup (j :: i :: fs)) by (apply list.NoDup_cons; split; [set_solver|done]).
    assert (Hsub : j :: i :: fs ⊆+ seqZ 0 objs).
    { apply NoDup_submseteq; [done|]. intros x Hx. apply elem_of_seqZ.
      apply elem_of_cons in Hx as [->|Hx]; [lia|]. apply Hrg in Hx. lia. }
    apply submseteq_length in Hsub. rewrite length_seqZ in Hsub. cbn [length] in Hsub. lia.
  - intros Hlt. destruct (decide (Forall (fun x => x ∈ i :: fs) (seqZ 0 objs))) as [Ha|Ha].
    + exfalso. rewrite list.Forall_forall in Ha.
      assert (Hsub : seqZ 0 objs ⊆+ i :: fs) by (apply NoDup_submseteq; [apply NoDup_seqZ|exact Ha]).
      apply submseteq_length in Hsub. rewrite length_seqZ in Hsub. cbn [length] in Hsub. lia.
    + apply not_Forall_Exists in Ha; [|apply _]. apply list.Exists_exists in Ha as (j & Hj & Hn).
      apply elem_of_seqZ in Hj. cbn in Hn. exists (obj p j). split_and!.
      * exists p, fs, j. split_and!; [done|lia|lia|set_solver|done].
      * unfold obj. intros Eo. assert (j = i) as -> by nia. set_solver.
      * apply virt_to_page_obj; [lia|done|lia].
Qed.

(** [free_block] on a locked cache. *)
Lemma free_block_run s a cm p fs i ps fl :
  cache_core 1 s a cm -> cm !! p = Some fs -> 0 <= i < objs -> i ∉ fs ->
  (forall q fq, cm !! q = Some fq -> Z.of_nat (length fq) < objs) ->
  cache_lists (pnodes (sl_pages s)) cm ps fl -> (forall q, q ∈ ps -> cm !! q <> Some []) ->
  whole_buddies PAGE_MAX_ORDER a p 0 ->
  exists s' a' cm' ps' fl', free_block c p (obj p i) s = Ret (tt, s') /\
    cache_core 1 s' a' cm' /\
    cache_lists (pnodes (sl_pages s')) cm' ps' fl' /\ (forall q, q ∈ ps' -> cm' !! q <> Some []) /\
    (forall q fq, cm' !! q = Some fq -> Z.of_nat (length fq) < objs) /\
    (forall q, live cm' q <-> live cm q /\ q <> obj p i) /\
    sl_caches s' = sl_caches s /\ cache_frame a cm cm' s s' /\
    (if Z.of_nat (length fs) + 1 <? objs then a' = a /\ dom cm' = dom cm
     else given_back a a' p /\ dom cm' = dom cm ∖ {[p]}).
Proof.
  intros K E Hi Hni Hu Hl Hps Hw. destruct (co_page _ _ _ _ K _ _ E) as [P Ea].
  pose proof (Hu _ _ E) as Hlen. rewrite (free_block_push _ _ _ _ _ _ _ K E Hi Hni Hlen).
  pose proof (core_push _ _ _ _ _ _ _ K E Hi Hni Hlen) as K1.
  set (s1 := pushed s p (objs - Z.of_nat (length fs) - 1) (push_addr p fs) i) in *.
  set (cm1 := <[p := i :: fs]> cm) in *.
  assert (Hdom : forall q, cm1 !! q = None <-> cm !! q = None).
  { intros q. unfold cm1. rewrite lookup_insert. case_decide; [subst q; by rewrite E|done]. }
  assert (L1 : cache_lists (pnodes (sl_pages s1)) cm1 ps fl).
  { destruct Hl as (H1 & H2 & H3 & H4). split_and!; [done..|]. intros q. by rewrite Hdom, <- H4. }
  assert (Hlow : forall q gs, cm !! q = Some gs -> 0 <= q /\ in_highmem q = false).
  { intros q gs Eq. destruct (co_page _ _ _ _ K _ _ Eq) as [Pq _]. by destruct (sp_low _ _ _ Pq) as [[? _] ?]. }
  pose proof (live_push cm p fs i E Hi Hni Hlow) as Hlive. fold cm1 in Hlive.
  destruct (sp_low _ _ _ P) as [Hp Hpl]. pose proof slots_bound. destruct objs_bound as (Hob & Hos & _).
  assert (Hbytes : forall addr, sl_bytes s1 !! addr <> sl_bytes s !! addr ->
    page_to_virt p + PAGE_SIZE - slots <= addr < page_to_virt p + PAGE_SIZE).
  { intros addr. unfold s1, pushed, push_addr. cbn [sl_bytes]. rewrite lookup_insert.
    case_decide; [|done]. intros _. lia. }
  destruct (Z.eqb_spec (objs - Z.of_nat (length fs) - 1) 0) as [Hz|Hz].
  - destruct (free_block_empty s1 a cm1 p (i :: fs) ps fl K1)
      as (s' & a' & ps' & fl' & E' & K' & L' & Hsub & Hgb & B' & C' & P' & N').
    { unfold cm1. by rewrite lookup_insert_eq. } { done. } { done. }
    exists s', a', (delete p cm1), ps', fl'. split_and!; [done..| | | | | |].
    + intros q Hq. unfold cm1. rewrite delete_insert_eq.
      intros [_ Hc]%lookup_delete_Some. apply Hsub in Hq. by apply (Hps q).
    + intros q fq [Hne Eq]%lookup_delete_Some. unfold cm1 in Eq. rewrite lookup_insert_ne in Eq by done.
      by apply (Hu q).
    + intros q. rewrite (live_drop cm1 p (i :: fs)); [apply Hlive|..].
      * unfold cm1. by rewrite lookup_insert_eq.
      * apply list.NoDup_cons. split; [done|apply P].
      * intros x [->|Hx]%elem_of_cons; [done|]. by apply P.
      * cbn [length]. lia.
    + by rewrite C'.
    + split.
      * intros q Hq Hqn. assert (q <> p) by congruence. split.
        -- rewrite (P' q); [by apply pushed_frame|done|by apply Hdom].
        -- apply (N' (PageNode q)). split; [done|by apply Hdom].
      * intros c' Hc. rewrite C'. split; [done|]. split; [by apply (N' (SlabsFull c'))|by apply (N' (SlabsPartial c'))].
      * intros addr. rewrite B'. intros Hne. exists p. split; [left; congruence|]. split; [done|]. by apply Hbytes.
    + if_false. split; [done|]. unfold cm1. rewrite dom_delete_L, dom_insert_L. set_solver.
  - exists s1, a, cm1, ps, fl. split_and!; [done..| | |done|done| |].
    + intros q Hq. unfold cm1. rewrite lookup_insert. case_decide; [done|]. by apply Hps.
    + intros q fq [[<- <-]|[Hne Eq]]%lookup_insert_Some; [cbn [length]; lia|by apply (Hu q)].
    + split.
      * intros q Hq Hqn. split; [apply pushed_frame; congruence|done].
      * done.
      * intros addr Hne. exists p. split; [left; congruence|]. split; [done|]. by apply Hbytes.
    + if_true. split; [done|]. unfold cm1. rewrite dom_insert_L.
      assert (p ∈ dom cm) by (apply elem_of_dom; eauto). set_solver.
Qed.

Lemma kmem_cache_free_run s a cm p fs i :
  cache_ok s a cm -> cm !! p = Some fs -> 0 <= i < objs -> i ∉ fs ->
  whole_buddies PAGE_MAX_ORDER a p 0 ->
  exists s', kmem_cache_free c (obj p i) s = Ret (tt, s') /\ free_post s a cm (obj p i) s'.
Proof.
  intros (K & (ps & fl & Hl & Hps) & Hu) E Hi Hni Hw.
  destruct (co_page _ _ _ _ K _ _ E) as [P Ea]. destruct (sp_low _ _ _ P) as [Hp Hlow].
  destruct (virt_to_page_obj p i (proj1 Hp) Hlow Hi) as [Evp Eva].
  pose proof (lock_cache_run c s sz (co_cache _ _ _ _ K)) as El.
  set (s1 := Slabs (sl_pages s) (sl_bytes s) (<[c:=KmemCache sz 1]> (sl_caches s))) in *.
  assert (K1 : cache_core 1 s1 a cm) by by eapply core_lock.
  destruct (free_block_run s1 a cm p fs i ps fl K1 E Hi Hni Hu Hl Hps Hw)
    as (s2 & a' & cm' & ps' & fl' & E2 & K2 & L2 & N2 & U2 & V2 & C2 & F2 & B2).
  pose proof (page_shared_iff s1 a cm 1 p fs i K1 E Hi Hni) as Hsh.
  eexists. split.
  - unfold kmem_cache_free. rewrite Eva, (M_bind_run _ _ s s tt), Evp by done.
    rewrite (M_bind_run _ _ _ _ _ (get_slab_page p s Hp)).
    assert (Hv : valid (sl_pages s) p).
    { eapply tiling_head_managed; [apply (co_pages _ _ _ _ K)|done]. }
    rewrite (sp_cache _ _ _ P), bool_decide_true by done.
    assert (Hz : test_bit PAGE_HIGHMEM (flags (slabs_pg s p)) = false).
    { unfold slabs_pg. by rewrite (pi_zone _ _ _ _ (proj1 (co_pages _ _ _ _ K)) p Hv). }
    rewrite Hz. rewrite (M_bind_run _ _ s s tt) by done.
    rewrite (M_bind_run _ _ _ _ _ El), (M_bind_run _ _ _ _ _ E2).
    exact (unlock_cache_run c s2 sz 1 (co_cache _ _ _ _ K2)).
  - exists a', cm'. rewrite Evp, Hsh. split_and!; [split_and!| | | |].
    + by eapply core_lock.
    + by exists ps', fl'.
    + done.
    + done.
    + destruct F2 as [G1 G2 G3]. split; [done| |done].
      intros c' Hc. destruct (G2 c' Hc) as (_ & ? & ?). cbn [sl_caches]. rewrite lookup_insert_ne by done.
      rewrite C2. unfold s1. cbn [sl_caches]. by rewrite lookup_insert_ne.
    + intros Hlt. by rewrite (proj2 (Z.ltb_lt _ _) Hlt) in B2.
    + intros Hge. by rewrite (proj2 (Z.ltb_ge _ _)) in B2 by lia.
Qed.

Lemma kmem_cache_create_run s a :
  pinv (sl_pages s) a ->
  exists s', kmem_cache_create c sz s = Ret (0, s') /\ cache_ok s' a ∅.
Proof.
  intros K. unfold kmem_cache_create. change PAGE_SIZE with 4096. if_false.
  eexists. split; [done|]. unfold put_cache, on_pages, on_pnodes. cbn [sl_pages sl_bytes sl_caches pages pnodes page_lock].
  split_and!; [split| |].
  - eapply pinv_writes; [apply K|apply K|done|]. intros l Hl. cbn [sl_pages pnodes].
    rewrite !list_init_frame; [done|..]; by destruct l.
  - cbn. by rewrite lookup_insert_eq.
  - intros p fs. by rewrite lookup_empty.
  - exists [], []. cbn [sl_pages pnodes]. split; [split_and!|].
    + apply list_init_dll.
    + apply (dll_frame (list_init (SlabsFull c) (pnodes (sl_pages s)))); [|apply list_init_dll].
      intros l Hl. apply list_init_frame. set_solver.
    + intros p Hp. by apply elem_of_nil in Hp.
    + intros p. rewrite lookup_empty. split; [|done]. by intros [Hp|Hp]; apply elem_of_nil in Hp.
    + intros p Hp. by apply elem_of_nil in Hp.
  - intros p fs. by rewrite lookup_empty.
Qed.
End Cache.

Lemma cache_alloc_cases (vmap_page : Z -> M slabs Z) (c sz : Z) (s : slabs) (a : blockmap) cm :
  16 <= sz <= 2048 -> cache_ok c sz s a cm ->
  (exists ptr s', kmem_cache_alloc vmap_page c s = Ret (ptr, s') /\ alloc_post c sz s a cm ptr s') \/
  (kmem_cache_alloc vmap_page c s = Fault /\ forall h k, a !! h = Some (k, true) -> in_highmem h = true).
Proof.
  intros Hsz K. pose proof K as (_ & (ps & fl & Hl & Hps) & _). destruct ps as [|p ps].
  - by eapply cache_alloc_fresh.
  - left. by eapply cache_alloc_partial.
Qed.

(** The new object is in no page of another cache. *)
Lemma alloc_other_cache (c sz c2 sz2 : Z) s a cm cm2 ptr s' q :
  16 <= sz <= 2048 -> 16 <= sz2 <= 2048 -> c2 <> c ->
  cache_ok c sz s a cm -> cache_ok c2 sz2 s a cm2 -> live sz2 cm2 q ->
  alloc_post c sz s a cm ptr s' -> q + sz2 <= ptr \/ ptr + sz <= q.
Proof.
  intros Hsz Hsz2 Hc K K2 (p2 & fs2 & j & E2 & Hj & _ & ->) (a' & cm' & K' & Hl & _ & _ & F).
  destruct (proj2 (Hl ptr) (or_intror eq_refl)) as (p & fs & i & E & Hi & _ & ->).
  destruct (co_page _ _ _ _ _ _ (proj1 K') _ _ E) as [P _].
  destruct (co_page _ _ _ _ _ _ (proj1 K2) _ _ E2) as [P2 A2].
  pose proof (sp_cache _ _ _ _ _ P) as C. pose proof (sp_cache _ _ _ _ _ P2) as C2.
  assert (Hne : p <> p2).
  { intros ->. destruct (cm !! p2) as [gs|] eqn:Ec.
    - destruct (co_page _ _ _ _ _ _ (proj1 K) _ _ Ec) as [P1 _]. pose proof (sp_cache _ _ _ _ _ P1). congruence.
    - destruct (cf_pages _ _ _ _ _ _ _ F p2) as [Ep _]; [|done|congruence].
      exists p2, 0. split; [done|]. unfold inside. lia. }
  destruct (sp_low _ _ _ _ _ P) as [Hp Hlow]. destruct (sp_low _ _ _ _ _ P2) as [Hp2 Hlow2].
  destruct (slab_virt_low p (proj1 Hp) Hlow) as [Ev _]. destruct (slab_virt_low p2 (proj1 Hp2) Hlow2) as [Ev2 _].
  pose proof (obj_bounds sz Hsz p i Hi). pose proof (obj_bounds sz2 Hsz2 p2 j Hj).
  pose proof (slots_bound sz Hsz). pose proof (slots_bound sz2 Hsz2). change PAGE_SIZE with 4096 in *. lia.
Qed.

(** ** Properties *)

(** C6. A cache of objects of 16 to 2048 bytes never hands out memory that is
    in use: the call returns an object that overlaps no object in use,
    inside a page of the cache and below its free list, the objects in use
    afterwards are the old ones and the new one, and no other owner's pages,
    no other cache and no byte outside the free lists of the cache's pages
    is written.  The only other outcome is the fault on the NULL page when
    the low zone has no free page. *)
Theorem kmem_cache_alloc_ok (vmap_page : Z -> M slabs Z) (c sz : Z) (s : slabs) (a : blockmap)
    (cm : gmap Z (list Z)) :
  16 <= sz <= 2048 -> cache_ok c sz s a cm ->
  (exists ptr s', kmem_cache_alloc vmap_page c s = Ret (ptr, s') /\ alloc_post c sz s a cm ptr s') \/
  (kmem_cache_alloc vmap_page c s = Fault /\ forall h k, a !! h = Some (k, true) -> in_highmem h = true).
Proof. apply cache_alloc_cases. Qed.

(** C13. Freeing an object in use returns it: exactly that object leaves the
    ones in use and the cache stays well formed.  When it was the last object
    in use of its page, that page and no other leaves the cache and the
    allocated pages; otherwise the page allocator and the pages of the cache
    are as before.  Nothing else is written.  (The page allocator's own
    proviso on partly free buddies applies.) *)
Theorem kmem_cache_free_ok (c sz : Z) (s : slabs) (a : blockmap) (cm : gmap Z (list Z)) (ptr : Z) :
  16 <= sz <= 2048 -> cache_ok c sz s a cm -> live sz cm ptr ->
  whole_buddies PAGE_MAX_ORDER a (virt_to_page ptr) 0 ->
  exists s', kmem_cache_free c ptr s = Ret (tt, s') /\ free_post c sz s a cm ptr s'.
Proof.
  intros Hsz K (p & fs & i & E & Hi & Hni & ->) Hw. pose proof K as (Kc & _).
  destruct (co_page _ _ _ _ _ _ Kc _ _ E) as [P _]. destruct (sp_low _ _ _ _ _ P) as [[Hp _] Hlow].
  destruct (virt_to_page_obj sz Hsz p i Hp Hlow Hi) as [Ev _]. rewrite Ev in Hw.
  exact (kmem_cache_free_run c sz Hsz s a cm p fs i K E Hi Hni Hw).
Qed.

Lemma alloc_post_of vmap_page (c sz : Z) s a cm ps fl ptr s' :
  16 <= sz <= 2048 -> cache_ok c sz s a cm -> cache_lists c (pnodes (sl_pages s)) cm ps fl ->
  (forall p, p ∈ ps -> cm !! p <> Some []) ->
  kmem_cache_alloc vmap_page c s = Ret (ptr, s') -> alloc_post c sz s a cm ptr s'.
Proof.
  intros Hsz K Hl Hps E. destruct ps as [|p ps].
  - destruct (cache_alloc_fresh c sz Hsz vmap_page s a cm fl K Hl) as [(ptr' & s'' & E' & Hp)|[E' _]];
      congruence.
  - destruct (cache_alloc_partial c sz Hsz vmap_page s a cm p ps fl K Hl Hps) as (ptr' & s'' & E' & Hp).
    congruence.
Qed.

(** A cache of 64-byte objects on a single page of low memory, and the same
    with one object allocated. *)
Definition no_vmap (p : Z) : M slabs Z := mret 0.
Definition slab0 : slabs :=
  match (_ ← on_pages (add_free_pages 16 17); kmem_cache_create 3 64) (Slabs mem0 ∅ ∅) with
  | Ret (_, s) => s | _ => Slabs mem0 ∅ ∅ end.

Lemma slab0_ok : exists a, cache_ok 3 64 slab0 a ∅ /\ (forall h k f, a !! h = Some (k, f) -> h = 16).
Proof.
  destruct mem0_inv as [K P].
  destruct (add_free_pages_run mem0 ∅ 16 17 K) as (s & a & E & K' & V & L).
  { done. } { done. } { intros p _. by rewrite P. }
  destruct (kmem_cache_create_run 3 64 ltac:(done) (Slabs s ∅ ∅) a K') as (s' & E' & Kc).
  exists a. split.
  - unfold slab0. rewrite (M_bind_run _ _ _ (Slabs s ∅ ∅) tt), E'; [done|]. by apply on_pages_run.
  - intros h k f Eh. assert (Hv : valid s h) by (eapply tiling_head_managed; [apply K'|done]).
    apply V in Hv as [[_ Hv]|Hr]; [by rewrite P in Hv|]. unfold range in Hr. lia.
Qed.

Lemma kmem_cache_alloc_ok_witness :
  exists a, cache_ok 3 64 slab0 a ∅ /\
  ((exists ptr s', kmem_cache_alloc no_vmap 3 slab0 = Ret (ptr, s') /\ alloc_post 3 64 slab0 a ∅ ptr s') \/
   (kmem_cache_alloc no_vmap 3 slab0 = Fault /\ forall h k, a !! h = Some (k, true) -> in_highmem h = true)).
Proof.
  destruct slab0_ok as (a & K & _). exists a. split; [exact K|].
  apply (kmem_cache_alloc_ok no_vmap 3 64 slab0 a ∅); [done|exact K].
Defined.

Definition slab1 : slabs :=
  match kmem_cache_alloc no_vmap 3 slab0 with Ret (_, s) => s | _ => slab0 end.

(** No page beside page 16 is valid, at any level. *)
Lemma slab1_buddies :
  forallb (fun k => negb (test_bit PAGE_VALID (flags (pg (sl_pages slab1) (buddy (2 ^ k * (16 / 2 ^ k)) k)))))
    (seqZ 0 10) = true.
Proof. vm_compute. reflexivity. Qed.

Lemma slab1_ptr : exists s, kmem_cache_alloc no_vmap 3 slab0 = Ret (0xC0010000, s).
Proof. eexists. vm_compute. reflexivity. Qed.

Lemma slab1_ok : exists a cm, cache_ok 3 64 slab1 a cm /\ live 64 cm 0xC0010000 /\
  whole_buddies PAGE_MAX_ORDER a 16 0.
Proof.
  destruct slab0_ok as (a & K & _). pose proof K as (_ & (ps & fl & Hl & Hps) & _).
  destruct slab1_ptr as [s1 E1].
  assert (Hpost : alloc_post 3 64 slab0 a ∅ 0xC0010000 s1).
  { exact (alloc_post_of no_vmap 3 64 slab0 a ∅ ps fl _ _ ltac:(lia) K Hl Hps E1). }
  destruct Hpost as (a' & cm' & K' & Hlive & _). unfold slab1. rewrite E1.
  exists a', cm'. split_and!; [done|apply Hlive; by right|].
  intros k o' Hk Hb. exfalso.
  pose proof slab1_buddies as Hs. unfold slab1 in Hs. rewrite E1, forallb_forall in Hs.
  specialize (Hs k). rewrite <- list_elem_of_In, elem_of_seqZ in Hs.
  specialize (Hs ltac:(unfold PAGE_MAX_ORDER in Hk; lia)). apply negb_true_iff in Hs.
  pose proof (tiling_head_managed _ _ _ _ (pi_tile _ _ _ _ (proj1 (co_pages _ _ _ _ _ _ (proj1 K')))) Hb) as [_ Hv].
  rewrite Hs in Hv. discriminate Hv.
Qed.

Lemma kmem_cache_free_ok_witness :
  exists a cm, cache_ok 3 64 slab1 a cm /\ live 64 cm 0xC0010000 /\
    exists s', kmem_cache_free 3 0xC0010000 slab1 = Ret (tt, s') /\
      free_post 3 64 slab1 a cm 0xC0010000 s'.
Proof.
  destruct slab1_ok as (a & cm & K & L & W). exists a, cm. split; [exact K|]. split; [exact L|].
  apply (kmem_cache_free_ok 3 64 slab1 a cm 0xC0010000); [done|exact K|exact L|exact W].
Defined.

(** ** The 8-byte cache *)

(** [n] objects taken from one page. *)
Fixpoint alloc_many (n : nat) (c p : Z) : M slabs (list Z) :=
  match n with
  | O => mret []
  | S n => x ← alloc_block c p; l ← alloc_many n c p; mret (x :: l)
  end.

(** A page of the 8-byte cache after [n] allocations. *)
Record page8 (c p n : Z) (s : slabs) : Prop := Page8 {
  p8_low : 0 <= p < TOTAL_PAGES /\ in_highmem p = false;
  p8_size : exists v, sl_caches s !! c = Some (KmemCache 8 v);
  p8_mem : s_mem (slabs_pg s p) = page_to_virt p;
  p8_fl : freelist (slabs_pg s p) = page_to_virt p + 3584;
  p8_total : total (slabs_pg s p) = 448;
  p8_active : active (slabs_pg s p) = n;
  p8_bytes : forall i, 0 <= i < 512 -> sl_bytes s !! (page_to_virt p + 3584 + i) = Some (u8 i)
}.

Lemma page8_step c p n s :
  page8 c p n s -> 0 <= n < 447 ->
  exists s', alloc_block c p s = Ret (page_to_virt p + 8 * u8 n, s') /\ page8 c p (n + 1) s'.
Proof.
  intros [[Hp Hlow] [v Ec] Em Efl Et Ea Hb] Hn.
  pose proof (wrap_fits 8 n ltac:(done)) as Hu. unfold fits in Hu. change (2 ^ 8) with 256 in Hu.
  set (s1 := with_active_of s p (n + 1)).
  assert (E1 : slabs_pg s1 p = with_active (n + 1) (slabs_pg s p)).
  { unfold s1. by rewrite slabs_pg_active, decide_True. }
  exists s1. split.
  - unfold alloc_block. rewrite (M_bind_run _ _ _ _ _ (get_slab_page p s Hp)), Ea, Et, Efl.
    rewrite (proj2 (Z.ltb_lt n 448)) by lia. rewrite (M_bind_run _ _ s s tt) by done.
    rewrite <- Z.add_assoc, virt_fits by (change PAGE_SIZE with 4096; done || lia).
    rewrite Z.add_assoc, (M_bind_run _ _ s s (u8 n)) by (unfold read_byte; by rewrite Hb by lia).
    rewrite (wrap_small 16) by (unfold fits; lia).
    rewrite (M_bind_run _ _ _ _ _ (upd_slab_run _ _ _ Hp)).
    fold (with_active_of s p (n + 1)). fold s1.
    rewrite (M_bind_run _ _ s1 s1 (KmemCache 8 v)).
    2:{ unfold get_cache, cache_of. change (sl_caches s1) with (sl_caches s). by rewrite Ec. }
    rewrite (M_bind_run _ _ _ _ _ (get_slab_page p s1 Hp)), E1. cbn [with_active active total].
    rewrite Et, (proj2 (Z.eqb_neq _ _)) by lia. rewrite (M_bind_run _ _ s1 s1 tt) by done.
    unfold index_to_obj. cbn [with_active s_mem size]. rewrite Em, virt_fits; [done|lia|done|].
    change PAGE_SIZE with 4096. lia.
  - split; rewrite ?E1; try done. by exists v.
Qed.

Lemma alloc_many_page8 k c p n s :
  page8 c p n s -> 0 <= n -> n + Z.of_nat k <= 447 ->
  exists s', alloc_many k c p s =
    Ret ((fun i => page_to_virt p + 8 * u8 i) <$> seqZ n (Z.of_nat k), s').
Proof.
  revert n s. induction k as [|k IH]; intros n s P Hn Hk.
  - by exists s.
  - destruct (page8_step c p n s P ltac:(lia)) as (s1 & E1 & P1).
    destruct (IH (n + 1) s1 P1) as (s2 & E2); [lia..|].
    exists s2. cbn [alloc_many]. rewrite (M_bind_run _ _ _ _ _ E1), (M_bind_run _ _ _ _ _ E2).
    rewrite (seqZ_cons n (Z.of_nat (S k))) by lia.
    rewrite fmap_cons. unfold mret, M_ret. do 5 f_equal; lia.
Qed.

(** The cache of 8-byte objects hands out memory that is in use.  A page
    holds 448 of them, but the free list stores their indices in bytes:
    after [slab_page_init], the 257th object taken from the page is the
    first one again, although nothing was freed in between. *)
Theorem slab8_hands_out_twice (vmap_page : Z -> M slabs Z) (c p : Z) (s : slabs) (v : Z) :
  sl_caches s !! c = Some (KmemCache 8 v) -> 0 <= p < TOTAL_PAGES -> in_highmem p = false ->
  test_bit PAGE_HIGHMEM (flags (slabs_pg s p)) = false ->
  exists objects s',
    (_ ← slab_page_init vmap_page c (Some p); alloc_many 257 c p) s = Ret (objects, s') /\
    objects !! 0%nat = Some (page_to_virt p) /\ objects !! 256%nat = Some (page_to_virt p).
Proof.
  intros Ec Hp Hlow Hf.
  destruct (slab_page_init_state c 8 vmap_page v s p) as (b & Er & Hb); [done..|].
  set (s1 := Slabs _ b _) in *.
  assert (Ed : slabs_pg s1 p = slab_desc c 8 s p).
  { unfold slabs_pg, s1. cbn [sl_pages]. by rewrite pg_upd, decide_True. }
  assert (P : page8 c p 0 s1).
  { split; rewrite ?Ed; try done; [by exists v| |].
    - change (page_to_virt p + PAGE_SIZE - slots 8 = page_to_virt p + 3584).
      change PAGE_SIZE with 4096. change (slots 8) with 512. lia.
    - intros i Hi. cbn [s1 sl_bytes]. rewrite Hb. change PAGE_SIZE with 4096. change (slots 8) with 512.
      rewrite decide_True by lia. do 2 f_equal. lia. }
  destruct (alloc_many_page8 257 c p 0 s1 P) as (s2 & E2); [done|done|].
  eexists _, s2. rewrite (M_bind_run _ _ _ _ _ Er). split; [exact E2|].
  rewrite !list_lookup_fmap, !lookup_seqZ_lt by lia. split.
  - transitivity (Some (page_to_virt p + 8 * u8 0)); [done|]. f_equal. change (u8 0) with 0. lia.
  - transitivity (Some (page_to_virt p + 8 * u8 256)); [done|]. f_equal. change (u8 256) with 0. lia.
Qed.

Lemma slab8_hands_out_twice_witness :
  exists objects s',
    (_ ← slab_page_init no_vmap 0 (Some 16); alloc_many 257 0 16)
      (Slabs mem0 ∅ {[ 0 := KmemCache 8 0 ]}) = Ret (objects, s') /\
    objects !! 0%nat = Some (page_to_virt 16) /\ objects !! 256%nat = Some (page_to_virt 16).
Proof.
  apply (slab8_hands_out_twice no_vmap 0 16 (Slabs mem0 ∅ {[ 0 := KmemCache 8 0 ]}) 0).
  - reflexivity.
  - done.
  - reflexivity.
  - unfold slabs_pg. cbn [sl_pages]. by rewrite (proj2 mem0_inv).
Defined.
