(* ===== verification/Kmalloc.v ===== *)
(** * kmalloc (mm/kmalloc.c, second half)

    [kmalloc] serves small requests from eight slab caches of 8 to 1024
    bytes, larger ones from the page allocator, and everything before
    [kmalloc_init] from the boot-time heap; [kfree] finds out from the
    address which of the three owns it.  The theorems show that the size
    class chosen always covers the request and is the least one that does,
    that [kmalloc] inherits the guarantees of the allocator it dispatches
    to, and that [kfree] sends an address back to the allocator it came
    from. *)

From stdpp Require Import base numbers list gmap.
From Stdlib Require Import ZArith Lia.
From S2P Require Import Prelude Bitops Lock ListNode Buddy KmallocEarly Page Slab.

Open Scope Z_scope.

Definition KMEM_CACHE_MAX_ORDER : Z := 7.
Definition KMEM_CACHE_MAX_SIZE : Z := Z.shiftl MIN_SIZE KMEM_CACHE_MAX_ORDER.

(** The allocators' states; the cache [kmalloc_cache[i]] is cache [i]. *)
Record kstate := KState {
  k_slabs : slabs;
  k_early : kheap;
  init_kmem_cache : bool
}.

Definition on_slabs {A} (m : M slabs A) : M kstate A := fun s =>
  match m (k_slabs s) with
  | Ret (x, t) => Ret (x, KState t (k_early s) (init_kmem_cache s))
  | Bug => Bug | Fault => Fault | Spin => Spin
  end.
Definition on_early {A} (m : M kheap A) : M kstate A := fun s =>
  match m (k_early s) with
  | Ret (x, t) => Ret (x, KState (k_slabs s) t (init_kmem_cache s))
  | Bug => Bug | Fault => Fault | Spin => Spin
  end.

(** The two order computations of [kmalloc]. *)
Definition cache_order (size : Z) : Z := ilog2_roundup (round_up size MIN_SIZE / MIN_SIZE).
Definition page_order (size : Z) : Z := ilog2_roundup (round_up_page size / PAGE_SIZE).

Section Kmalloc.
(** The address of [block_buffer], and [vmap] on one page (see Slab.v). *)
Context (block_buffer : Z) (vmap_page : Z -> M slabs Z).

(** 0 is NULL. *)
Definition kmalloc (size : Z) : M kstate Z :=
  s ← mget;
  if negb (init_kmem_cache s) then
    r ← on_early (kmalloc_early block_buffer size);
    mret (default 0 r)
  else if size <=? KMEM_CACHE_MAX_SIZE then
    let order := cache_order size in
    _ ← mlift (assert (order <=? KMEM_CACHE_MAX_ORDER));
    on_slabs (kmem_cache_alloc vmap_page order)
  else
    let order := page_order size in
    page ← on_slabs (on_pages (alloc_pages GFP_NORMAL order));
    match page with
    | None => mret 0
    | Some page => mret (page_to_virt page)
    end.

Definition kfree (ptr : Z) : M kstate unit :=
  if is_early_block_addr block_buffer ptr then on_early (kfree_early block_buffer ptr)
  else
    let page := virt_to_page ptr in
    p ← on_slabs (on_pages (get_page page));
    if test_bit PAGE_SLAB (flags p) then
      c ← mlift (match slab_cache p with Some c => Ret c | None => Bug end);
      on_slabs (kmem_cache_free c ptr)
    else on_slabs (on_pages (free_pages page)).
End Kmalloc.

(** The loop of [kmalloc_init] over the caches [i .. i + n - 1]. *)
Fixpoint create_caches (n : nat) (i : Z) : M slabs unit :=
  match n with
  | O => mret tt
  | S n => _ ← kmem_cache_create i (Z.shiftl MIN_SIZE i); create_caches n (i + 1)
  end.

Definition kmalloc_init : M kstate unit :=
  _ ← on_slabs (create_caches (Z.to_nat (KMEM_CACHE_MAX_ORDER + 1)) 0);
  mmod (fun s => KState (k_slabs s) (k_early s) true).

(** ** Size classes *)

(** Rounding a size up to units of [n] and taking the rounded-up logarithm
    gives the least order whose blocks of [n * 2^order] bytes hold it. *)
Lemma order_least (n size k : Z) :
  0 < n < 2 ^ 32 -> 0 < size -> size + n <= 2 ^ 32 -> 0 <= k ->
  (size <= n * 2 ^ k <-> ilog2_roundup (round_up size n / n) <= k).
Proof.
  intros Hn Hs Hb Hk. rewrite round_up_spec by lia. rewrite Z.div_mul by lia.
  set (q := (size + n - 1) / n).
  assert (Hq : n * q <= size + n - 1 < n * q + n).
  { pose proof (Z.div_mod (size + n - 1) n ltac:(lia)).
    pose proof (Z.mod_pos_bound (size + n - 1) n ltac:(lia)). unfold q. lia. }
  assert (1 <= q) by nia. assert (q < 2 ^ 32) by nia.
  rewrite <- (ilog2_roundup_least q k) by lia. pose proof (pow2_pos k Hk). nia.
Qed.

Lemma cache_order_spec size :
  0 < size <= KMEM_CACHE_MAX_SIZE ->
  0 <= cache_order size <= KMEM_CACHE_MAX_ORDER /\ size <= Z.shiftl MIN_SIZE (cache_order size) /\
  (forall k, 0 <= k -> size <= Z.shiftl MIN_SIZE k -> cache_order size <= k).
Proof.
  intros Hs. change KMEM_CACHE_MAX_SIZE with 1024 in Hs. unfold cache_order, MIN_SIZE.
  assert (H0 : 0 <= ilog2_roundup (round_up size 8 / 8)) by auto with kern.
  split_and!; [done| | |].
  - apply (order_least 8 size 7); unfold KMEM_CACHE_MAX_ORDER; lia.
  - rewrite Z.shiftl_mul_pow2 by done. apply (order_least 8 size); lia.
  - intros k Hk. rewrite Z.shiftl_mul_pow2 by done. apply (order_least 8 size k); lia.
Qed.

Lemma page_order_spec size :
  0 < size <= 2 ^ 32 - PAGE_SIZE ->
  0 <= page_order size /\ size <= PAGE_SIZE * 2 ^ page_order size /\
  (forall k, 0 <= k -> size <= PAGE_SIZE * 2 ^ k -> page_order size <= k).
Proof.
  intros Hs. change PAGE_SIZE with 4096 in *. unfold page_order, round_up_page. change PAGE_SIZE with 4096.
  assert (H0 : 0 <= ilog2_roundup (round_up size 4096 / 4096)) by auto with kern.
  split_and!; [done| |].
  - apply (order_least 4096 size); lia.
  - intros k Hk. apply (order_least 4096 size k); lia.
Qed.

Lemma page_order_wraps size : 2 ^ 32 - PAGE_SIZE < size < 2 ^ 32 -> page_order size = 0.
Proof.
  intros Hs. change PAGE_SIZE with 4096 in Hs. unfold page_order, round_up_page.
  change PAGE_SIZE with 4096. unfold round_up. rewrite (wrap_small 32 size), (wrap_small 32 4096) by (unfold fits; lia).
  assert (E : u32 (size + 4096 - 1) = size + 4096 - 1 - 2 ^ 32).
  { unfold wrap. symmetry. apply (Z.mod_unique _ _ 1); lia. }
  rewrite E, round_down_spec by (unfold fits; lia).
  rewrite (Z.div_small (size + 4096 - 1 - 2 ^ 32)) by lia. done.
Qed.

(** ** Running the dispatch *)

Lemma on_slabs_run {A} (m : M slabs A) s x t :
  m (k_slabs s) = Ret (x, t) -> on_slabs m s = Ret (x, KState t (k_early s) (init_kmem_cache s)).
Proof. intros E. unfold on_slabs. by rewrite E. Qed.

Lemma kmalloc_cache_run base vm size s :
  init_kmem_cache s = true -> 0 < size <= KMEM_CACHE_MAX_SIZE ->
  kmalloc base vm size s = on_slabs (kmem_cache_alloc vm (cache_order size)) s.
Proof.
  intros Hi Hs. destruct (cache_order_spec size Hs) as (Ho & _).
  unfold kmalloc. rewrite (M_bind_run _ _ s s s), Hi by done. cbn [negb].
  rewrite (proj2 (Z.leb_le _ _)) by lia.
  rewrite (proj2 (Z.leb_le (cache_order size) _)) by lia. by rewrite (M_bind_run _ _ s s tt).
Qed.

Lemma kmalloc_pages_run base vm size s :
  init_kmem_cache s = true -> KMEM_CACHE_MAX_SIZE < size ->
  kmalloc base vm size s =
    (page ← on_slabs (on_pages (alloc_pages GFP_NORMAL (page_order size)));
     match page with None => mret 0 | Some page => mret (page_to_virt page) end) s.
Proof.
  intros Hi Hs. unfold kmalloc. rewrite (M_bind_run _ _ s s s), Hi by done. cbn [negb].
  by rewrite (proj2 (Z.leb_gt _ _)) by lia.
Qed.

(** ** Properties *)

(** The size classes are right for every request whose rounding does not
    overflow: the cache order is at most 7 (so the assertion holds and the
    cache exists), the block covers the request, and no smaller order
    would; the same for whole pages. *)
Theorem kmalloc_order_least (size : Z) :
  0 < size <= 2 ^ 32 - PAGE_SIZE ->
  if size <=? KMEM_CACHE_MAX_SIZE then
    0 <= cache_order size <= KMEM_CACHE_MAX_ORDER /\ size <= Z.shiftl MIN_SIZE (cache_order size) /\
    (forall k, 0 <= k -> size <= Z.shiftl MIN_SIZE k -> cache_order size <= k)
  else
    0 <= page_order size /\ size <= PAGE_SIZE * 2 ^ page_order size /\
    (forall k, 0 <= k -> size <= PAGE_SIZE * 2 ^ k -> page_order size <= k).
Proof.
  intros Hs. destruct (Z.leb_spec size KMEM_CACHE_MAX_SIZE).
  - apply cache_order_spec. lia.
  - by apply page_order_spec.
Qed.

Lemma kmalloc_order_least_witness :
  if 100 <=? KMEM_CACHE_MAX_SIZE then
    0 <= cache_order 100 <= KMEM_CACHE_MAX_ORDER /\ 100 <= Z.shiftl MIN_SIZE (cache_order 100) /\
    (forall k, 0 <= k -> 100 <= Z.shiftl MIN_SIZE k -> cache_order 100 <= k)
  else
    0 <= page_order 100 /\ 100 <= PAGE_SIZE * 2 ^ page_order 100 /\
    (forall k, 0 <= k -> 100 <= PAGE_SIZE * 2 ^ k -> page_order 100 <= k).
Proof. apply (kmalloc_order_least 100). by vm_compute. Defined.

(** C14. A request of 9 to 1024 bytes, once [kmalloc_init] has created the
    caches ([init_kmem_cache] is set), is answered with memory of at least
    that size which overlaps no object in use of its own cache, nor of any
    other cache of objects of 16 bytes and more, or the kernel faults because
    low memory is used up. *)
Theorem kmalloc_small_ok (base : Z) (vm : Z -> M slabs Z) (size : Z) (s : kstate) (a : blockmap)
    (cm : gmap Z (list Z)) :
  let sz := Z.shiftl MIN_SIZE (cache_order size) in
  init_kmem_cache s = true -> 8 < size <= KMEM_CACHE_MAX_SIZE ->
  cache_ok (cache_order size) sz (k_slabs s) a cm ->
  size <= sz /\
  ((exists ptr s', kmalloc base vm size s = Ret (ptr, s') /\ k_early s' = k_early s /\
      alloc_post (cache_order size) sz (k_slabs s) a cm ptr (k_slabs s') /\
      forall c2 sz2 cm2 q, c2 <> cache_order size -> 16 <= sz2 <= 2048 ->
        cache_ok c2 sz2 (k_slabs s) a cm2 -> live sz2 cm2 q -> q + sz2 <= ptr \/ ptr + sz <= q) \/
   (kmalloc base vm size s = Fault /\ forall h k, a !! h = Some (k, true) -> in_highmem h = true)).
Proof.
  intros sz Hi Hs K. destruct (cache_order_spec size) as (Ho & Hle & _); [lia|]. split; [done|].
  assert (Hsz : 16 <= sz <= 2048).
  { unfold sz in *. rewrite Z.shiftl_mul_pow2 in * by lia. unfold MIN_SIZE, KMEM_CACHE_MAX_ORDER in *.
    assert (1 <= cache_order size).
    { destruct (Z.eq_dec (cache_order size) 0) as [E|]; [|lia]. rewrite E in Hle. lia. }
    assert (2 ^ 1 <= 2 ^ cache_order size) by (apply Z.pow_le_mono_r; lia).
    assert (2 ^ cache_order size <= 2 ^ 7) by (apply Z.pow_le_mono_r; lia). lia. }
  rewrite kmalloc_cache_run by (done || lia).
  destruct (cache_alloc_cases vm _ _ _ _ _ Hsz K) as [(ptr & t & E & Hp)|[E Hn]].
  - left. exists ptr, (KState t (k_early s) (init_kmem_cache s)). split_and!; [by apply on_slabs_run|done..|].
    intros c2 sz2 cm2 q Hc Hs2 K2 Hq. by eapply (alloc_other_cache _ sz c2 sz2).
  - right. split; [|done]. unfold on_slabs. by rewrite E.
Qed.

(** A request beyond 1024 bytes whose rounding does not overflow gets
    whole pages: NULL only when low memory has no free block of the order
    needed, otherwise the linear address of a new block of pages that
    covers the request. *)
Theorem kmalloc_large_ok (base : Z) (vm : Z -> M slabs Z) (size : Z) (s : kstate) (a : blockmap) :
  init_kmem_cache s = true -> KMEM_CACHE_MAX_SIZE < size <= 2 ^ 32 - PAGE_SIZE ->
  pinv (sl_pages (k_slabs s)) a ->
  exists ptr s' a', kmalloc base vm size s = Ret (ptr, s') /\
    pinv (sl_pages (k_slabs s')) a' /\
    ((ptr = 0 /\ forall h k, a !! h = Some (k, true) -> in_highmem h = false -> k < page_order size) \/
     exists h, ptr = page_to_virt h /\ virt_to_page ptr = h /\
       size <= PAGE_SIZE * 2 ^ page_order size /\
       forall x k, a' !! x = Some (k, false) <->
         (x = h /\ k = page_order size) \/ a !! x = Some (k, false)).
Proof.
  intros Hi Hs K. destruct (page_order_spec size) as (Ho & Hle & _); [by change KMEM_CACHE_MAX_SIZE with 1024 in Hs; lia|].
  rewrite kmalloc_pages_run by (done || lia).
  destruct (alloc_pages_total (sl_pages (k_slabs s)) a GFP_NORMAL (page_order size) K Ho)
    as (r & pm & a' & E & K' & Hn & Hl).
  pose proof (on_slabs_run _ s _ _ (on_pages_run _ (k_slabs s) _ _ E)) as E2.
  rewrite (M_bind_run _ _ _ _ _ E2). destruct r as [h|].
  - eexists _, _, a'. split; [done|]. split; [done|]. right. exists h. split; [done|].
    assert (Hv : 0 <= h < 2 ^ 20).
    { assert (valid pm h) as [? _]; [|done]. eapply tiling_head_managed; [apply K'|].
      apply (Hl h). left. done. }
    split; [by apply pfn_virt_roundtrip|]. split; [done|]. intros x k. rewrite Hl. naive_solver.
  - eexists _, _, a'. split; [done|]. split; [done|]. left. split; [done|].
    intros h k Eh Hz. by apply (Hn eq_refl h k Eh).
Qed.

(** Rounding the size of a request in the last page of the address space
    overflows to 0: [kmalloc] of almost 4 GiB asks the page allocator for a
    single page and returns it as if it were large enough. *)
Theorem kmalloc_huge_underallocates (base : Z) (vm : Z -> M slabs Z) (size : Z) (s : kstate) :
  init_kmem_cache s = true -> 2 ^ 32 - PAGE_SIZE < size < 2 ^ 32 ->
  kmalloc base vm size s =
    (page ← on_slabs (on_pages (alloc_page GFP_NORMAL));
     match page with None => mret 0 | Some page => mret (page_to_virt page) end) s.
Proof.
  intros Hi Hs. rewrite kmalloc_pages_run by (done || (change PAGE_SIZE with 4096 in Hs; change KMEM_CACHE_MAX_SIZE with 1024; lia)).
  by rewrite page_order_wraps.
Qed.

(** ** Initialisation *)

(** Creating a cache leaves the page allocator and the other caches alone. *)
Lemma create_run c sz s a :
  pinv (sl_pages s) a -> sz <= PAGE_SIZE ->
  exists s', kmem_cache_create c sz s = Ret (0, s') /\ pinv (sl_pages s') a /\
    (forall sz', sz' = sz -> cache_ok c sz' s' a ∅) /\
    (forall c' sz', c' <> c -> cache_ok c' sz' s a ∅ -> cache_ok c' sz' s' a ∅).
Proof.
  intros K Hs. unfold kmem_cache_create. rewrite (proj2 (Z.ltb_ge _ _)) by done.
  eexists. split; [done|].
  unfold put_cache, on_pages, on_pnodes. cbn [sl_pages sl_bytes sl_caches pages pnodes page_lock].
  assert (K' : pinv (PMem (pages (sl_pages s))
    (list_init (SlabsPartial c) (list_init (SlabsFull c) (pnodes (sl_pages s)))) (page_lock (sl_pages s))) a).
  { eapply pinv_writes; [apply K|apply K|done|]. intros l Hl. cbn [pnodes].
    rewrite !list_init_frame; [done|..]; by destruct l. }
  split_and!; [done| |].
  - intros sz' ->. split_and!; [split; [done| |]| |].
    + cbn. by rewrite lookup_insert_eq.
    + intros p fs. by rewrite lookup_empty.
    + exists [], []. cbn [sl_pages pnodes]. split; [split_and!|].
      * apply list_init_dll.
      * apply (dll_frame (list_init (SlabsFull c) (pnodes (sl_pages s)))); [|apply list_init_dll].
        intros l Hl. apply list_init_frame. set_solver.
      * intros p Hp. by apply elem_of_nil in Hp.
      * intros p. rewrite lookup_empty. split; [|done]. by intros [Hp|Hp]; apply elem_of_nil in Hp.
      * intros p Hp. by apply elem_of_nil in Hp.
    + intros p fs. by rewrite lookup_empty.
  - intros c' sz' Hc (Kc & (ps & fl & (H1 & H2 & H3 & H4) & H5) & H6).
    split_and!; [split; [done| |]| |done].
    + cbn. rewrite lookup_insert_ne by done. apply Kc.
    + intros p fs. by rewrite lookup_empty.
    + exists ps, fl. cbn [sl_pages pnodes]. split; [split_and!|done]; [| |done|done].
      * apply (dll_frame (pnodes (sl_pages s))); [|done]. intros l [->|Hl]%elem_of_cons.
        -- rewrite !list_init_frame by congruence. done.
        -- apply list_elem_of_fmap in Hl as (y & -> & _). by rewrite !list_init_frame.
      * apply (dll_frame (pnodes (sl_pages s))); [|done]. intros l [->|Hl]%elem_of_cons.
        -- rewrite !list_init_frame by congruence. done.
        -- apply list_elem_of_fmap in Hl as (y & -> & _). by rewrite !list_init_frame.
Qed.

Lemma create_caches_run n i s a :
  pinv (sl_pages s) a -> 0 <= i -> i + Z.of_nat n <= 8 ->
  (forall j, 0 <= j < i -> cache_ok j (Z.shiftl MIN_SIZE j) s a ∅) ->
  exists s', create_caches n i s = Ret (tt, s') /\ pinv (sl_pages s') a /\
    forall j, 0 <= j < i + Z.of_nat n -> cache_ok j (Z.shiftl MIN_SIZE j) s' a ∅.
Proof.
  revert i s. induction n as [|n IH]; intros i s K Hi Hn Hall.
  - exists s. split_and!; [done..|]. intros j Hj. apply Hall. lia.
  - destruct (create_run i (Z.shiftl MIN_SIZE i) s a K) as (s1 & E1 & K1 & Hn1 & Ho1).
    { rewrite Z.shiftl_mul_pow2 by lia. unfold MIN_SIZE. change PAGE_SIZE with 4096.
      assert (2 ^ i <= 2 ^ 7) by (apply Z.pow_le_mono_r; lia). lia. }
    destruct (IH (i + 1) s1 K1) as (s2 & E2 & K2 & H2); [lia|lia| |].
    { intros j Hj. destruct (Z.eq_dec j i) as [->|]; [by apply Hn1|]. apply Ho1; [lia|]. apply Hall. lia. }
    exists s2. split_and!; [|done|].
    + cbn [create_caches]. by rewrite (M_bind_run _ _ _ _ _ E1).
    + intros j Hj. apply H2. lia.
Qed.

(** [kmalloc_init] switches over to the slab caches: afterwards every
    cache [i] serves objects of [8 << i] bytes, is empty and well formed,
    and the page allocator and the boot-time heap are untouched. *)
Theorem kmalloc_init_ok (s : kstate) (a : blockmap) :
  pinv (sl_pages (k_slabs s)) a ->
  exists s', kmalloc_init s = Ret (tt, s') /\ init_kmem_cache s' = true /\ k_early s' = k_early s /\
    pinv (sl_pages (k_slabs s')) a /\
    forall i, 0 <= i <= KMEM_CACHE_MAX_ORDER -> cache_ok i (Z.shiftl MIN_SIZE i) (k_slabs s') a ∅.
Proof.
  intros K. destruct (create_caches_run 8 0 (k_slabs s) a K) as (t & E & K' & H); [done|done|intros; lia|].
  eexists. split; [|split; [|split; [|split]]].
  - unfold kmalloc_init. change (Z.to_nat (KMEM_CACHE_MAX_ORDER + 1)) with 8%nat.
    by rewrite (M_bind_run _ _ _ _ _ (on_slabs_run _ s _ _ E)).
  - done.
  - done.
  - done.
  - intros i Hi. apply H. unfold KMEM_CACHE_MAX_ORDER in Hi. lia.
Qed.

Definition kst0 : kstate := KState (Slabs mem0 ∅ ∅) heap0 false.
Definition kst1 : kstate := match kmalloc_init kst0 with Ret (_, s) => s | _ => kst0 end.

Lemma kst1_ok :
  init_kmem_cache kst1 = true /\ pinv (sl_pages (k_slabs kst1)) ∅ /\
  forall i, 0 <= i <= KMEM_CACHE_MAX_ORDER -> cache_ok i (Z.shiftl MIN_SIZE i) (k_slabs kst1) ∅ ∅.
Proof.
  destruct (create_caches_run 8 0 (Slabs mem0 ∅ ∅) ∅ (proj1 mem0_inv)) as (t & E & K' & H);
    [done|done|intros; lia|].
  unfold kst1, kmalloc_init. change (Z.to_nat (KMEM_CACHE_MAX_ORDER + 1)) with 8%nat.
  rewrite (M_bind_run _ _ _ _ _ (on_slabs_run _ kst0 _ _ E)). split_and!; [done|done|].
  intros i Hi. apply H. unfold KMEM_CACHE_MAX_ORDER in Hi. lia.
Qed.

Lemma kmalloc_init_ok_witness :
  exists s', kmalloc_init kst0 = Ret (tt, s') /\ init_kmem_cache s' = true /\ k_early s' = k_early kst0 /\
    pinv (sl_pages (k_slabs s')) ∅ /\
    forall i, 0 <= i <= KMEM_CACHE_MAX_ORDER -> cache_ok i (Z.shiftl MIN_SIZE i) (k_slabs s') ∅ ∅.
Proof. apply (kmalloc_init_ok kst0 ∅ (proj1 mem0_inv)). Defined.

(** The caches with one page of low memory to draw from. *)
Definition kst2 : kstate :=
  match (_ ← on_slabs (on_pages (add_free_pages 16 17)); kmalloc_init) kst0 with Ret (_, s) => s | _ => kst0 end.

Lemma kst2_ok : init_kmem_cache kst2 = true /\
  exists a, forall i, 0 <= i <= KMEM_CACHE_MAX_ORDER -> cache_ok i (Z.shiftl MIN_SIZE i) (k_slabs kst2) a ∅.
Proof.
  destruct mem0_inv as [K P].
  destruct (add_free_pages_run mem0 ∅ 16 17 K) as (m & a & E & K' & _).
  { done. } { done. } { intros p _. by rewrite P. }
  destruct (create_caches_run 8 0 (Slabs m ∅ ∅) a K') as (t & E' & _ & H); [done|done|intros; lia|].
  pose proof (on_slabs_run (on_pages (add_free_pages 16 17)) kst0 tt (Slabs m ∅ ∅)
    (on_pages_run (add_free_pages 16 17) (Slabs mem0 ∅ ∅) tt m E)) as E1.
  unfold kst2. rewrite (M_bind_run _ _ _ _ _ E1). cbn [k_early init_kmem_cache kst0].
  unfold kmalloc_init. change (Z.to_nat (KMEM_CACHE_MAX_ORDER + 1)) with 8%nat.
  rewrite (M_bind_run _ _ _ _ _ (on_slabs_run _ (KState (Slabs m ∅ ∅) heap0 false) _ _ E')).
  split; [done|]. exists a. intros i Hi. apply H. unfold KMEM_CACHE_MAX_ORDER in Hi. lia.
Qed.

Lemma kst2_run : match kmalloc 0xC0100000 no_vmap 100 kst2 with Ret _ => true | _ => false end = true.
Proof. vm_compute. reflexivity. Qed.

Lemma kmalloc_small_ok_witness :
  exists a ptr s', kmalloc 0xC0100000 no_vmap 100 kst2 = Ret (ptr, s') /\ 100 <= Z.shiftl MIN_SIZE (cache_order 100) /\
    alloc_post (cache_order 100) (Z.shiftl MIN_SIZE (cache_order 100)) (k_slabs kst2) a ∅ ptr (k_slabs s').
Proof.
  destruct kst2_ok as (Hi & a & K).
  destruct (kmalloc_small_ok 0xC0100000 no_vmap 100 kst2 a ∅ Hi) as (Hs & H).
  - split; [reflexivity|discriminate].
  - apply K. split; discriminate.
  - destruct H as [(ptr & s' & E & _ & Hp & _)|[E _]].
    + exists a, ptr, s'. split; [exact E|]. split; [exact Hs|exact Hp].
    + exfalso. pose proof kst2_run as R. rewrite E in R. discriminate R.
Defined.

Lemma kmalloc_large_ok_witness :
  exists ptr s' a', kmalloc 0xC0100000 no_vmap 8192 kst1 = Ret (ptr, s') /\
    pinv (sl_pages (k_slabs s')) a' /\
    ((ptr = 0 /\ forall h k, (∅ : blockmap) !! h = Some (k, true) -> in_highmem h = false -> k < page_order 8192) \/
     exists h, ptr = page_to_virt h /\ virt_to_page ptr = h /\
       8192 <= PAGE_SIZE * 2 ^ page_order 8192 /\
       forall x k, a' !! x = Some (k, false) <->
         (x = h /\ k = page_order 8192) \/ (∅ : blockmap) !! x = Some (k, false)).
Proof.
  apply (kmalloc_large_ok 0xC0100000 no_vmap 8192 kst1 ∅ (proj1 kst1_ok)).
  - by vm_compute.
  - apply (proj1 (proj2 kst1_ok)).
Defined.

Lemma kmalloc_huge_underallocates_witness :
  kmalloc 0xC0100000 no_vmap 0xFFFFF001 kst1 =
    (page ← on_slabs (on_pages (alloc_page GFP_NORMAL));
     match page with None => mret 0 | Some page => mret (page_to_virt page) end) kst1.
Proof. apply (kmalloc_huge_underallocates 0xC0100000 no_vmap 0xFFFFF001 kst1 (proj1 kst1_ok)). by vm_compute. Defined.

(** ** Freeing *)

(** [kfree] finds the owner of an address outside the boot-time heap: an
    object in use of a cache goes back to that cache, which then counts it
    as free. *)
Theorem kfree_slab_ok (base ptr c sz : Z) (s : kstate) (a : blockmap) (cm : gmap Z (list Z)) :
  16 <= sz <= 2048 -> is_early_block_addr base ptr = false ->
  cache_ok c sz (k_slabs s) a cm -> live sz cm ptr ->
  whole_buddies PAGE_MAX_ORDER a (virt_to_page ptr) 0 ->
  exists s', kfree base ptr s = Ret (tt, s') /\ k_early s' = k_early s /\
    free_post c sz (k_slabs s) a cm ptr (k_slabs s').
Proof.
  intros Hsz He K (p & fs & i & E & Hi & Hni & ->) Hw. pose proof K as (Kc & _).
  destruct (co_page _ _ _ _ _ _ Kc _ _ E) as [P _]. destruct (sp_low _ _ _ _ _ P) as [Hp Hlow].
  destruct (virt_to_page_obj sz Hsz p i (proj1 Hp) Hlow Hi) as [Ev _]. rewrite Ev in Hw.
  destruct (kmem_cache_free_run c sz Hsz _ a cm p fs i K E Hi Hni Hw) as (t & Et & Hpost).
  exists (KState t (k_early s) (init_kmem_cache s)). split; [|done].
  unfold kfree. rewrite He, Ev.
  pose proof (on_slabs_run _ s _ _ (get_slab_page p (k_slabs s) Hp)) as Eg.
  rewrite (M_bind_run _ _ _ _ _ Eg), (sp_slab _ _ _ _ _ P), (sp_cache _ _ _ _ _ P).
  rewrite (M_bind_run _ _ _ (KState (k_slabs s) (k_early s) (init_kmem_cache s)) c) by done.
  unfold on_slabs. cbn [k_slabs]. by rewrite Et.
Qed.

(** An address [kmalloc] took from the page allocator goes back there:
    exactly its block leaves the live ones. *)
Theorem kfree_pages_ok (base h o : Z) (s : kstate) (a : blockmap) :
  pinv (sl_pages (k_slabs s)) a -> a !! h = Some (o, false) ->
  is_early_block_addr base (page_to_virt h) = false ->
  test_bit PAGE_SLAB (flags (slabs_pg (k_slabs s) h)) = false ->
  whole_buddies PAGE_MAX_ORDER a h o ->
  exists s' a', kfree base (page_to_virt h) s = Ret (tt, s') /\ pinv (sl_pages (k_slabs s')) a' /\
    forall x k, a' !! x = Some (k, false) <-> x <> h /\ a !! x = Some (k, false).
Proof.
  intros K E He Hs W. pose proof (tl_wf _ _ _ (pi_tile _ _ _ _ (proj1 K)) _ _ _ E) as (Hh & Ho & Ha).
  assert (Hp : 0 <= h < TOTAL_PAGES).
  { assert (valid (sl_pages (k_slabs s)) h) as [? _]; [|done]. by eapply tiling_head_managed; [apply K|]. }
  destruct (merges_total PAGE_MAX_ORDER _ (Z.to_nat (PAGE_MAX_ORDER - o)) h o a (pi_tile _ _ _ _ (proj1 K)) E W)
    as (h' & o' & a' & Hm); [lia|].
  destruct (free_pages_run _ a h o h' o' a' K E Hm) as (pm & Ef & K' & _).
  exists (KState (put_pages pm (k_slabs s)) (k_early s) (init_kmem_cache s)), (<[h' := (o', true)]> a').
  split; [|split; [exact K'|by eapply merges_live; [|apply K|]]].
  unfold kfree. rewrite He, pfn_virt_roundtrip by done.
  pose proof (on_slabs_run _ s _ _ (get_slab_page h (k_slabs s) Hp)) as Eg.
  rewrite (M_bind_run _ _ _ _ _ Eg), Hs.
  apply (on_slabs_run _ (KState (k_slabs s) (k_early s) (init_kmem_cache s)) tt). by apply on_pages_run.
Qed.

(** A kernel state around a state of the caches or of the page allocator. *)
Lemma kstate_with (t : slabs) (P : slabs -> Prop) : P t -> exists s : kstate, P (k_slabs s).
Proof. intros HP. by exists (KState t (KHeap ∅ ∅) true). Qed.

Lemma slabs_with (t : pmem) (P : pmem -> Prop) : P t -> exists s : slabs, P (sl_pages s).
Proof. intros HP. by exists (Slabs t ∅ ∅). Qed.

Lemma kfree_slab_ok_witness :
  exists s a cm, cache_ok 3 64 (k_slabs s) a cm /\ live 64 cm 0xC0010000 /\
    exists s', kfree 0xC0100000 0xC0010000 s = Ret (tt, s') /\
      k_early s' = k_early s /\ free_post 3 64 (k_slabs s) a cm 0xC0010000 (k_slabs s').
Proof.
  destruct (kstate_with slab1 (fun t => exists a cm, cache_ok 3 64 t a cm /\
    live 64 cm 0xC0010000 /\ whole_buddies PAGE_MAX_ORDER a 16 0) slab1_ok) as (s & a & cm & K & L & W). exists s, a, cm.
  split; [exact K|]. split; [exact L|].
  apply (kfree_slab_ok 0xC0100000 0xC0010000 3 64 s a cm); [lia|reflexivity|exact K|exact L|exact W].
Defined.

Lemma mem2_not_slab : test_bit PAGE_SLAB (flags (pg mem2 0)) = false.
Proof. vm_compute. reflexivity. Qed.

Lemma kfree_pages_ok_witness :
  exists s a, pinv (sl_pages (k_slabs s)) a /\ a !! 0 = Some (0, false) /\
    exists s' a', kfree 0xC0100000 (page_to_virt 0) s = Ret (tt, s') /\
    pinv (sl_pages (k_slabs s')) a' /\
    forall x k, a' !! x = Some (k, false) <-> x <> 0 /\ a !! x = Some (k, false).
Proof.
  destruct (slabs_with mem2 (fun m => test_bit PAGE_SLAB (flags (pg m 0)) = false /\
    exists a, pinv m a /\ a !! 0 = Some (0, false) /\ forall h, a !! h <> None -> h = 0)
    (conj mem2_not_slab mem2_inv)) as [t Ht].
  destruct (kstate_with t (fun t => test_bit PAGE_SLAB (flags (pg (sl_pages t) 0)) = false /\
    exists a, pinv (sl_pages t) a /\ a !! 0 = Some (0, false) /\ forall h, a !! h <> None -> h = 0) Ht) as (s & Hf & a & K & E & Hd). exists s, a.
  split; [exact K|]. split; [exact E|].
  apply (kfree_pages_ok 0xC0100000 0 0 s a K E).
  - reflexivity.
  - exact Hf.
  - intros k o' Hk Ho'. exfalso. rewrite Zdiv_0_l, Z.mul_0_r in Ho'.
    apply (buddy_ne 0 k); [lia|by apply Zmod_0_l|]. apply Hd. by rewrite Ho'.
Defined.
