(* ===== verification/RbTree.v ===== *)
(** * Red-black interval trees: the code (libs/rb_tree.c)

    The tree maps disjoint intervals [start, end] of addresses to values.
    This file is the translation of libs/rb_tree.c over a memory of nodes:
    a pointer is an optional address, every field access reads or writes
    the memory and faults on a NULL or freed node.  RbTreeRep.v relates the
    memory to trees, RbTreeOk.v proves the operations correct. *)

From stdpp Require Import base numbers list gmap.
From Stdlib Require Import ZArith Lia.
From S2P Require Import Prelude.

Open Scope Z_scope.

Abbreviation ptr := (option Z).

Record rb_node := RbNode {
  id : Z; start : Z; end_ : Z; value : Z;
  red : bool; parent : ptr; left : ptr; right : ptr
}.

(** The memory of nodes, and the fields of the [struct rb_tree] in use. *)
Record rb_tree := RbTree {
  nodes : gmap Z rb_node;
  root : ptr;
  total : Z
}.

(** [kmalloc] as the tree uses it: an address no live node has, or NULL. *)
Class NodeAlloc := {
  alloc : gmap Z rb_node -> ptr;
  alloc_fresh : forall m a, alloc m = Some a -> m !! a = None
}.

Definition with_red (c : bool) (n : rb_node) : rb_node :=
  RbNode (id n) (start n) (end_ n) (value n) c (parent n) (left n) (right n).
Definition with_parent (p : ptr) (n : rb_node) : rb_node :=
  RbNode (id n) (start n) (end_ n) (value n) (red n) p (left n) (right n).
Definition with_left (p : ptr) (n : rb_node) : rb_node :=
  RbNode (id n) (start n) (end_ n) (value n) (red n) (parent n) p (right n).
Definition with_right (p : ptr) (n : rb_node) : rb_node :=
  RbNode (id n) (start n) (end_ n) (value n) (red n) (parent n) (left n) p.

(** [p->...] *)
Definition rd (p : ptr) : M rb_tree rb_node := fun s =>
  match p with
  | None => Fault
  | Some a => match nodes s !! a with Some n => Ret (n, s) | None => Fault end
  end.
Definition wr (p : ptr) (f : rb_node -> rb_node) : M rb_tree unit := fun s =>
  match p with
  | None => Fault
  | Some a =>
      match nodes s !! a with
      | Some n => Ret (tt, RbTree (<[a := f n]> (nodes s)) (root s) (total s))
      | None => Fault
      end
  end.
Definition get_root : M rb_tree ptr := fun s => Ret (root s, s).
Definition set_root (p : ptr) : M rb_tree unit := fun s =>
  Ret (tt, RbTree (nodes s) p (total s)).

Definition is_null (p : ptr) : bool := bool_decide (p = None).
Definition ptr_eq (p q : ptr) : bool := bool_decide (p = q).

Definition set_red (node : ptr) : M rb_tree unit :=
  if is_null node then mret tt else wr node (with_red true).
Definition set_black (node : ptr) : M rb_tree unit :=
  if is_null node then mret tt else wr node (with_red false).
Definition is_red (node : ptr) : M rb_tree bool :=
  if is_null node then mret false else n ← rd node; mret (red n).
Definition is_black (node : ptr) : M rb_tree bool :=
  b ← is_red node; mret (negb b).

Definition rb_node_key_start (node : ptr) : M rb_tree Z := n ← rd node; mret (start n).
Definition rb_node_key_end (node : ptr) : M rb_tree Z := n ← rd node; mret (end_ n).
Definition rb_node_value (node : ptr) : M rb_tree Z := n ← rd node; mret (value n).

(** [a && b] on computations: [b] runs only if [a] holds. *)
Definition andM (a b : M rb_tree bool) : M rb_tree bool :=
  x ← a; if x : bool then b else mret false.

Definition node_validate (node : ptr) : M rb_tree unit :=
  if is_null node then mret tt
  else
    n ← rd node;
    _ ← (if is_null (left n) then mret tt
         else
           l ← rd (left n);
           _ ← mlift (assert (end_ l <? start n));
           mlift (assert (ptr_eq (parent l) node)));
    _ ← (if is_null (right n) then mret tt
         else
           r ← rd (right n);
           _ ← mlift (assert (end_ n <? start r));
           mlift (assert (ptr_eq (parent r) node)));
    b ← andM (is_red node) (is_red (left n));
    _ ← mlift (assert (negb b));
    b ← andM (is_red node) (is_red (right n));
    mlift (assert (negb b)).

(** [tree_validate]; [fail_node] is the value of the pointer's target. *)
Fixpoint tree_validate (fuel : nat) (root : ptr) (fail_node : ptr) : M rb_tree (Z * ptr) :=
  match fuel with
  | O => fun _ => Spin
  | S fuel =>
      if is_null root then mret (0, fail_node)
      else if negb (is_null fail_node) then mret (- EINVAL, fail_node)
      else
        _ ← node_validate root;
        n ← rd root;
        '(l, fail_node) ← tree_validate fuel (left n) fail_node;
        if l <? 0 then mret (l, fail_node)
        else
          '(r, fail_node) ← tree_validate fuel (right n) fail_node;
          if r <? 0 then mret (r, fail_node)
          else if negb (l =? r) then mret (- EINVAL, root)
          else
            b ← is_black root;
            mret (l + (if b : bool then 1 else 0), fail_node)
  end.

(** Bounds for the loops: no path is longer than the number of nodes. *)
Definition fuel_of (s : rb_tree) : nat := S (S (size (nodes s))).

Definition rb_tree_validate : M rb_tree unit :=
  s ← mget;
  if is_null (root s) then mret tt
  else
    b ← is_black (root s);
    _ ← mlift (assert b);
    '(r, _) ← tree_validate (fuel_of s) (root s) None;
    if r <? 0 then mlift Bug else mret tt.

Fixpoint search_loop (fuel : nat) (node : ptr) (key : Z) : M rb_tree ptr :=
  match fuel with
  | O => fun _ => Spin
  | S fuel =>
      if is_null node then mret None
      else
        n ← rd node;
        if key <? start n then search_loop fuel (left n) key
        else if end_ n <? key then search_loop fuel (right n) key
        else mret node
  end.
Definition rb_tree_search (key : Z) : M rb_tree ptr :=
  s ← mget; search_loop (fuel_of s) (root s) key.

Definition rotate_left (nodex : ptr) : M rb_tree unit :=
  x ← rd nodex; let nodey := right x in
  y ← rd nodey;
  _ ← wr nodex (with_right (left y));
  y ← rd nodey;
  _ ← (if is_null (left y) then mret tt else wr (left y) (with_parent nodex));
  x ← rd nodex;
  _ ← wr nodey (with_parent (parent x));
  r ← get_root;
  _ ← (if ptr_eq nodex r then set_root nodey
       else
         x ← rd nodex; p ← rd (parent x);
         if ptr_eq nodex (left p) then wr (parent x) (with_left nodey)
         else wr (parent x) (with_right nodey));
  _ ← wr nodey (with_left nodex);
  wr nodex (with_parent nodey).

Definition rotate_right (nodex : ptr) : M rb_tree unit :=
  x ← rd nodex; let nodey := left x in
  y ← rd nodey;
  _ ← wr nodex (with_left (right y));
  y ← rd nodey;
  _ ← (if is_null (right y) then mret tt else wr (right y) (with_parent nodex));
  x ← rd nodex;
  _ ← wr nodey (with_parent (parent x));
  r ← get_root;
  _ ← (if ptr_eq nodex r then set_root nodey
       else
         x ← rd nodex; p ← rd (parent x);
         if ptr_eq nodex (left p) then wr (parent x) (with_left nodey)
         else wr (parent x) (with_right nodey));
  _ ← wr nodey (with_right nodex);
  wr nodex (with_parent nodey).

(** [node->parent] and [node->parent->parent] as expressions. *)
Definition parent_of (node : ptr) : M rb_tree ptr := n ← rd node; mret (parent n).
Definition grandparent_of (node : ptr) : M rb_tree ptr := p ← parent_of node; parent_of p.

Fixpoint insert_fixup_loop (fuel : nat) (nodex : ptr) : M rb_tree unit :=
  match fuel with
  | O => fun _ => Spin
  | S fuel =>
      r ← get_root;
      go ← andM (mret (negb (ptr_eq nodex r))) (p ← parent_of nodex; is_red p);
      if go : bool then
        p ← parent_of nodex; gp ← grandparent_of nodex; g ← rd gp;
        if ptr_eq p (left g) then
          let nodey := right g in
          yred ← is_red nodey;
          if yred : bool then
            _ ← set_black nodey;
            p ← parent_of nodex; _ ← set_black p;
            gp ← grandparent_of nodex; _ ← set_red gp;
            gp ← grandparent_of nodex;
            insert_fixup_loop fuel gp
          else
            p ← parent_of nodex; pn ← rd p;
            nodex ← (if ptr_eq nodex (right pn) then
                       nodex ← parent_of nodex; _ ← rotate_left nodex; mret nodex
                     else mret nodex);
            p ← parent_of nodex; _ ← set_black p;
            gp ← grandparent_of nodex; _ ← set_red gp;
            gp ← grandparent_of nodex; _ ← rotate_right gp;
            insert_fixup_loop fuel nodex
        else
          let nodey := left g in
          yred ← is_red nodey;
          if yred : bool then
            _ ← set_black nodey;
            p ← parent_of nodex; _ ← set_black p;
            gp ← grandparent_of nodex; _ ← set_red gp;
            gp ← grandparent_of nodex;
            insert_fixup_loop fuel gp
          else
            p ← parent_of nodex; pn ← rd p;
            nodex ← (if ptr_eq nodex (left pn) then
                       nodex ← parent_of nodex; _ ← rotate_right nodex; mret nodex
                     else mret nodex);
            p ← parent_of nodex; _ ← set_black p;
            gp ← grandparent_of nodex; _ ← set_red gp;
            gp ← grandparent_of nodex; _ ← rotate_left gp;
            insert_fixup_loop fuel nodex
      else mret tt
  end.

Definition insert_fixup (nodex : ptr) : M rb_tree unit :=
  s ← mget;
  _ ← insert_fixup_loop (fuel_of s) nodex;
  r ← get_root; set_black r.

(** The descent of [rb_tree_insert]: the parent of the new node, or [None]
    if the interval overlaps one in the tree. *)
Fixpoint insert_descend (fuel : nat) (node par : ptr) (st en : Z) : M rb_tree (option ptr) :=
  match fuel with
  | O => fun _ => Spin
  | S fuel =>
      if is_null node then mret (Some par)
      else
        n ← rd node;
        if end_ n <? st then insert_descend fuel (right n) node st en
        else if en <? start n then insert_descend fuel (left n) node st en
        else mret None
  end.

Definition kfree_node (p : ptr) : M rb_tree unit := fun s =>
  match p with
  | None => Fault
  | Some a =>
      match nodes s !! a with
      | Some _ => Ret (tt, RbTree (delete a (nodes s)) (root s) (total s))
      | None => Fault
      end
  end.

Section Insert.
Context `{NodeAlloc}.

(** [tree] is NULL or the tree of the state. *)
Definition rb_tree_insert (tree : ptr) (st en val : Z) : M rb_tree ptr :=
  if is_null tree || (en <? st) then mret None
  else
    s ← mget;
    d ← insert_descend (fuel_of s) (root s) None st en;
    match d with
    | None => mret None
    | Some par =>
        match alloc (nodes s) with
        | None => mret None
        | Some a =>
            let new_node := Some a in
            _ ← mput (RbTree (<[a := RbNode (total s) st en val true par None None]> (nodes s))
                        (root s) (u32 (total s + 1)));
            linked ← (if is_null par then _ ← set_root new_node; mret true
                      else
                        n ← rd new_node; p ← rd par;
                        if end_ n <? start p then _ ← wr par (with_left new_node); mret true
                        else if end_ p <? start n then _ ← wr par (with_right new_node); mret true
                        else mret false);
            if linked : bool then
              _ ← insert_fixup new_node;
              _ ← rb_tree_validate;
              mret new_node
            else
              _ ← kfree_node new_node; mret None
        end
    end.
End Insert.

Fixpoint remove_fixup_loop (fuel : nat) (par nodex : ptr) : M rb_tree ptr :=
  match fuel with
  | O => fun _ => Spin
  | S fuel =>
      r ← get_root;
      go ← andM (mret (negb (ptr_eq nodex r))) (is_black nodex);
      if go : bool then
        _ ← mlift (assert (negb (is_null nodex && is_null par)));
        if is_null par then remove_fixup_loop fuel par nodex
        else
          p ← rd par;
          nodex ←
            (if ptr_eq nodex (left p) then
               let nodey := right p in
               yred ← is_red nodey;
               nodey ← (if yred : bool then
                          _ ← set_black nodey; _ ← set_red par; _ ← rotate_left par;
                          p ← rd par; mret (right p)
                        else mret nodey);
               both ← (if is_null nodey then mret true
                       else y ← rd nodey; andM (is_black (left y)) (is_black (right y)));
               if both : bool then _ ← set_red nodey; mret par
               else
                 y ← rd nodey;
                 inner ← andM (is_red (left y)) (is_black (right y));
                 nodey ← (if inner : bool then
                            _ ← set_red nodey; y ← rd nodey; _ ← set_black (left y);
                            _ ← rotate_right nodey;
                            p ← rd par; mret (right p)
                          else mret nodey);
                 p ← rd par; _ ← wr nodey (with_red (red p));
                 _ ← set_black par;
                 y ← rd nodey; _ ← set_black (right y);
                 _ ← rotate_left par;
                 get_root
             else
               let nodey := left p in
               yred ← is_red nodey;
               nodey ← (if yred : bool then
                          _ ← set_black nodey; _ ← set_red par; _ ← rotate_right par;
                          p ← rd par; mret (left p)
                        else mret nodey);
               both ← (if is_null nodey then mret true
                       else y ← rd nodey; andM (is_black (left y)) (is_black (right y)));
               if both : bool then _ ← set_red nodey; mret par
               else
                 y ← rd nodey;
                 inner ← andM (is_red (right y)) (is_black (left y));
                 nodey ← (if inner : bool then
                            _ ← set_red nodey; y ← rd nodey; _ ← set_black (right y);
                            _ ← rotate_left nodey;
                            p ← rd par; mret (left p)
                          else mret nodey);
                 p ← rd par; _ ← wr nodey (with_red (red p));
                 _ ← set_black par;
                 y ← rd nodey; _ ← set_black (left y);
                 _ ← rotate_right par;
                 get_root);
          par ← parent_of nodex;
          remove_fixup_loop fuel par nodex
      else mret nodex
  end.

Definition remove_fixup (par nodex : ptr) : M rb_tree unit :=
  s ← mget;
  nodex ← remove_fixup_loop (fuel_of s) par nodex;
  set_black nodex.

(** The loop [while (nodey->left) nodey = nodey->left]. *)
Fixpoint leftmost_loop (fuel : nat) (nodey : ptr) : M rb_tree ptr :=
  match fuel with
  | O => fun _ => Spin
  | S fuel =>
      y ← rd nodey;
      if is_null (left y) then mret nodey else leftmost_loop fuel (left y)
  end.

Definition rb_tree_remove (tree : ptr) (key : Z) : M rb_tree Z :=
  if is_null tree then mret (- EINVAL)
  else
    nodez ← rb_tree_search key;
    if is_null nodez then mret (- EINVAL)
    else
      s ← mget;
      z ← rd nodez;
      nodey ← (if is_null (left z) || is_null (right z) then mret nodez
               else leftmost_loop (fuel_of s) (right z));
      y ← rd nodey;
      let nodex := if is_null (left y) then right y else left y in
      _ ← (if is_null nodex then mret tt
           else y ← rd nodey; wr nodex (with_parent (parent y)));
      y ← rd nodey;
      _ ← (if is_null (parent y) then set_root nodex
           else
             p ← rd (parent y);
             if ptr_eq nodey (left p) then wr (parent y) (with_left nodex)
             else wr (parent y) (with_right nodex));
      fixup ← is_black nodey;
      y ← rd nodey;
      let nodex_parent := parent y in
      nodex_parent ←
        (if ptr_eq nodey nodez then mret nodex_parent
         else
           z ← rd nodez;
           _ ← wr nodey (with_parent (parent z));
           z ← rd nodez;
           _ ← (if is_null (parent z) then set_root nodey
                else
                  p ← rd (parent z);
                  if ptr_eq nodez (left p) then wr (parent z) (with_left nodey)
                  else wr (parent z) (with_right nodey));
           z ← rd nodez; _ ← wr nodey (with_red (red z));
           z ← rd nodez; _ ← wr nodey (with_left (left z));
           z ← rd nodez; _ ← wr nodey (with_right (right z));
           z ← rd nodez;
           _ ← (if is_null (left z) then mret tt else wr (left z) (with_parent nodey));
           z ← rd nodez;
           _ ← (if is_null (right z) then mret tt else wr (right z) (with_parent nodey));
           mret (if ptr_eq nodex_parent nodez then nodey else nodex_parent));
      _ ← (if fixup : bool then remove_fixup nodex_parent nodex else mret tt);
      _ ← kfree_node nodez;
      _ ← rb_tree_validate;
      mret 0.

(** [rb_tree_create] on memory that holds no other tree. *)
Definition rb_tree_create : rb_tree := RbTree ∅ None 0.

Fixpoint tree_delete (fuel : nat) (root : ptr) : M rb_tree unit :=
  match fuel with
  | O => fun _ => Spin
  | S fuel =>
      if is_null root then mret tt
      else
        n ← rd root; _ ← tree_delete fuel (left n);
        n ← rd root; _ ← tree_delete fuel (right n);
        kfree_node root
  end.

(** [rb_tree_delete] up to [kfree(tree)]. *)
Definition rb_tree_delete (tree : ptr) : M rb_tree unit :=
  if is_null tree then mret tt
  else s ← mget; tree_delete (fuel_of s) (root s).

(** [tree_iterate]; the callback is a computation that returns an [int]. *)
Fixpoint tree_iterate {P} (fuel : nat) (node : ptr) (callback : rb_node -> P -> Z * P) (priv : P)
    : M rb_tree (Z * P) :=
  match fuel with
  | O => fun _ => Spin
  | S fuel =>
      if is_null node then mret (0, priv)
      else
        n ← rd node;
        '(ret, priv) ← tree_iterate fuel (left n) callback priv;
        if negb (ret =? 0) then mret (ret, priv)
        else
          n ← rd node;
          let '(ret, priv) := callback n priv in
          if negb (ret =? 0) then mret (ret, priv)
          else
            '(ret, priv) ← tree_iterate fuel (right n) callback priv;
            mret (ret, priv)
  end.
Definition rb_tree_iterate {P} (callback : rb_node -> P -> Z * P) (priv : P) : M rb_tree (Z * P) :=
  s ← mget; tree_iterate (fuel_of s) (root s) callback priv.
