(* ===== verification/RbTreeRep.v ===== *)
(** * Red-black trees: memory and trees

    [tree] is a binary tree that carries the address of each node; a zipper
    [plug k t] points into it, as the code does with its node pointers.
    [rb_state s T] says that the memory of [s] holds exactly [T], parent
    pointers included.  The lemmas run the primitive steps of the code, a
    field read, a recolouring, a rotation, on that level, so that the
    correctness proofs of RbTreeOk.v only see trees. *)

From stdpp Require Import base numbers list gmap.
From Stdlib Require Import ZArith Lia.
From S2P Require Import Prelude RbTree.

Open Scope Z_scope.

Record info := Info { i_id : Z; i_start : Z; i_end : Z; i_value : Z }.

Inductive tree : Type :=
  | Leaf
  | Node (a : Z) (c : bool) (i : info) (l r : tree).

Definition rootp (t : tree) : ptr := match t with Leaf => None | Node a _ _ _ _ => Some a end.

Definition cell (i : info) (c : bool) (par l r : ptr) : rb_node :=
  RbNode (i_id i) (i_start i) (i_end i) (i_value i) c par l r.

(** A node whose child in direction [d] ([true]: left) is [s]. *)
Definition nodeD (d : bool) (a : Z) (c : bool) (i : info) (s t : tree) : tree :=
  if d then Node a c i s t else Node a c i t s.
Definition cellD (d : bool) (i : info) (c : bool) (par s t : ptr) : rb_node :=
  if d then cell i c par s t else cell i c par t s.

Fixpoint addrs (t : tree) : list Z :=
  match t with Leaf => [] | Node a _ _ l r => a :: addrs l ++ addrs r end.

(** ** Zippers *)

(** A step down: the hole is the child of [f_addr] in direction [f_dir]. *)
Record frame := Frame { f_dir : bool; f_addr : Z; f_red : bool; f_info : info; f_sib : tree }.

Definition plug1 (f : frame) (t : tree) : tree :=
  nodeD (f_dir f) (f_addr f) (f_red f) (f_info f) t (f_sib f).
Fixpoint plug (k : list frame) (t : tree) : tree :=
  match k with [] => t | f :: k => plug k (plug1 f t) end.

(** The parent pointer of the hole. *)
Definition parp (k : list frame) : ptr := match k with [] => None | f :: _ => Some (f_addr f) end.

Fixpoint kaddrs (k : list frame) : list Z :=
  match k with [] => [] | f :: k => f_addr f :: addrs (f_sib f) ++ kaddrs k end.

(** ** Representation *)

Fixpoint rep (H : gmap Z rb_node) (par : ptr) (t : tree) : Prop :=
  match t with
  | Leaf => True
  | Node a c i l r =>
      H !! a = Some (cell i c par (rootp l) (rootp r)) /\ rep H (Some a) l /\ rep H (Some a) r
  end.

(** The nodes around a hole that holds the pointer [hp]. *)
Fixpoint repk (H : gmap Z rb_node) (k : list frame) (hp : ptr) : Prop :=
  match k with
  | [] => True
  | f :: k =>
      H !! f_addr f = Some (cellD (f_dir f) (f_info f) (f_red f) (parp k) hp (rootp (f_sib f))) /\
      rep H (Some (f_addr f)) (f_sib f) /\ repk H k (Some (f_addr f))
  end.

(** The memory holds the tree [T] and, while a removal is under way, the
    node [X] that is no longer part of it; nothing else. *)
Record holds (X : ptr) (s : rb_tree) (T : tree) : Prop := Holds {
  rs_rep : rep (nodes s) None T;
  rs_root : root s = rootp T;
  rs_nodup : NoDup (addrs T);
  rs_dom : forall a, a ∈ addrs T \/ X = Some a <-> is_Some (nodes s !! a);
  rs_extra : forall a, X = Some a -> a ∉ addrs T
}.
Arguments rs_rep {X} s T _.
Arguments rs_root {X} s T _.
Arguments rs_nodup {X} s T _.
Arguments rs_dom {X} s T _ a.
Arguments rs_extra {X} s T _ a _.

Lemma rootp_nodeD d a c i s t : rootp (nodeD d a c i s t) = Some a.
Proof. by destruct d. Qed.

Lemma rep_nodeD H par d a c i s t :
  rep H par (nodeD d a c i s t) <->
  H !! a = Some (cellD d i c par (rootp s) (rootp t)) /\ rep H (Some a) s /\ rep H (Some a) t.
Proof. destruct d; simpl; tauto. Qed.

Lemma rep_plug H k t :
  rep H None (plug k t) <-> rep H (parp k) t /\ repk H k (rootp t).
Proof.
  revert t. induction k as [|f k IH]; intros t; [simpl; tauto|]. cbn [plug].
  rewrite IH. unfold plug1 at 1. rewrite rep_nodeD. cbn [parp repk].
  unfold plug1. rewrite rootp_nodeD. tauto.
Qed.

Lemma addrs_nodeD d a c i s t : addrs (nodeD d a c i s t) ≡ₚ a :: addrs s ++ addrs t.
Proof. destruct d; simpl; [done|]. by rewrite (Permutation_app_comm (addrs t)). Qed.

Lemma addrs_plug k t : addrs (plug k t) ≡ₚ kaddrs k ++ addrs t.
Proof.
  revert t. induction k as [|f k IH]; intros t; [done|]. cbn [plug kaddrs].
  rewrite IH. unfold plug1. rewrite addrs_nodeD.
  rewrite (Permutation_app_comm (kaddrs k)). simpl. f_equiv.
  rewrite (Permutation_app_comm (addrs t)). by rewrite <- !app_assoc, (Permutation_app_comm (addrs t)).
Qed.

(** A hole that is not at the top has the top frame as root. *)
Lemma root_plug_cons f k t t' : rootp (plug (f :: k) t) = rootp (plug (f :: k) t').
Proof.
  revert f t t'. induction k as [|g k IH]; intros f t t'.
  - simpl. unfold plug1. by rewrite !rootp_nodeD.
  - change (rootp (plug (g :: k) (plug1 f t)) = rootp (plug (g :: k) (plug1 f t'))). apply IH.
Qed.

Lemma root_plug_in f k t : exists a, rootp (plug (f :: k) t) = Some a /\ a ∈ kaddrs (f :: k).
Proof.
  revert f t. induction k as [|g k IH]; intros f t.
  - exists (f_addr f). simpl. unfold plug1. rewrite rootp_nodeD. split; [done|]. set_solver.
  - destruct (IH g (plug1 f t)) as (a & E & Ha). exists a. split; [exact E|].
    cbn [kaddrs] in *. set_solver.
Qed.

(** ** Framing *)

Lemma rep_frame H H' par t :
  (forall a, a ∈ addrs t -> H' !! a = H !! a) -> rep H par t -> rep H' par t.
Proof.
  revert par. induction t as [|a c i l IHl r IHr]; intros par Hf; [done|]. simpl.
  intros (E & Hl & Hr). split_and!.
  - rewrite Hf; [done|]. simpl. set_solver.
  - apply IHl; [|done]. intros b Hb. apply Hf. simpl. set_solver.
  - apply IHr; [|done]. intros b Hb. apply Hf. simpl. set_solver.
Qed.

Lemma repk_frame H H' k hp :
  (forall a, a ∈ kaddrs k -> H' !! a = H !! a) -> repk H k hp -> repk H' k hp.
Proof.
  revert hp. induction k as [|f k IH]; intros hp Hf; [done|]. simpl.
  intros (E & Hs & Hk). split_and!.
  - rewrite Hf; [done|]. simpl. set_solver.
  - eapply rep_frame; [|done]. intros b Hb. apply Hf. simpl. set_solver.
  - apply IH; [|done]. intros b Hb. apply Hf. simpl. set_solver.
Qed.

(** Changing the parent pointer of the root of a tree. *)
Lemma rep_reparent H H' par par' t :
  rep H par t -> NoDup (addrs t) ->
  (forall a, a ∈ addrs t -> Some a <> rootp t -> H' !! a = H !! a) ->
  (forall a, rootp t = Some a -> H' !! a = with_parent par' <$> H !! a) ->
  rep H' par' t.
Proof.
  destruct t as [|a c i l r]; [done|]. simpl. intros (E & Hl & Hr) Hnd Hf Hp.
  apply list.NoDup_cons in Hnd as [Ha Hnd]. split_and!.
  - rewrite (Hp a eq_refl), E. done.
  - eapply rep_frame; [|done]. intros b Hb. apply Hf; [set_solver|]. intros [= ->]. set_solver.
  - eapply rep_frame; [|done]. intros b Hb. apply Hf; [set_solver|]. intros [= ->]. set_solver.
Qed.

(** Changing what the hole holds. *)
Definition with_child (d : bool) (p : ptr) (n : rb_node) : rb_node :=
  if d then with_left p n else with_right p n.

Lemma repk_sethole H H' f k hp hp' :
  repk H (f :: k) hp -> f_addr f ∉ addrs (f_sib f) ++ kaddrs k ->
  H' !! f_addr f = with_child (f_dir f) hp' <$> H !! f_addr f ->
  (forall a, a ∈ addrs (f_sib f) ++ kaddrs k -> H' !! a = H !! a) ->
  repk H' (f :: k) hp'.
Proof.
  simpl. intros (E & Hs & Hk) Ha E' Hf. split_and!.
  - rewrite E', E. by destruct (f_dir f).
  - eapply rep_frame; [|done]. intros b Hb. apply Hf. set_solver.
  - eapply repk_frame; [|done]. intros b Hb. apply Hf. set_solver.
Qed.

(** ** Primitive steps *)

Definition upd (f : rb_node -> rb_node) (a : Z) (s : rb_tree) : rb_tree :=
  RbTree (alter f a (nodes s)) (root s) (total s).

Lemma rd_run s a n : nodes s !! a = Some n -> rd (Some a) s = Ret (n, s).
Proof. intros E. unfold rd. by rewrite E. Qed.

Lemma wr_run s a n f : nodes s !! a = Some n -> wr (Some a) f s = Ret (tt, upd f a s).
Proof.
  intros E. unfold wr, upd. rewrite E. do 3 f_equal. apply map_eq. intros b.
  destruct (decide (a = b)) as [<-|Hne].
  - by rewrite lookup_insert_eq, lookup_alter_eq, E.
  - by rewrite lookup_insert_ne, lookup_alter_ne.
Qed.

Lemma upd_lookup f a s b :
  nodes (upd f a s) !! b = if decide (a = b) then f <$> nodes s !! b else nodes s !! b.
Proof.
  unfold upd. simpl. case_decide as Hd; [subst b; apply lookup_alter_eq|by apply lookup_alter_ne].
Qed.

Lemma upd_root f a s : root (upd f a s) = root s.
Proof. done. Qed.

Lemma upd_dom f a s b : is_Some (nodes (upd f a s) !! b) <-> is_Some (nodes s !! b).
Proof. rewrite upd_lookup. case_decide; [|done]. by rewrite fmap_is_Some. Qed.

Section Steps.
Context {X : ptr}.
Local Abbreviation rb_state := (holds X).

(** The node in the hole. *)
Lemma state_cell s k d a c i l r :
  rb_state s (plug k (nodeD d a c i l r)) ->
  nodes s !! a = Some (cellD d i c (parp k) (rootp l) (rootp r)).
Proof. intros [Hr _ _ _ _]. apply rep_plug in Hr as [Hr _]. by apply rep_nodeD in Hr as (? & _). Qed.

Lemma state_frame_cell s f k t :
  rb_state s (plug (f :: k) t) ->
  nodes s !! f_addr f = Some (cellD (f_dir f) (f_info f) (f_red f) (parp k) (rootp t) (rootp (f_sib f))).
Proof. intros Hs. by apply (state_cell s k). Qed.

Lemma state_nodup s k t :
  rb_state s (plug k t) -> NoDup (kaddrs k ++ addrs t).
Proof. intros [_ _ Hn _ _]. by rewrite addrs_plug in Hn. Qed.

(** Recolouring the node in the hole. *)
Lemma recolor s k d a c c' i l r :
  rb_state s (plug k (nodeD d a c i l r)) ->
  wr (Some a) (with_red c') s = Ret (tt, upd (with_red c') a s) /\
  rb_state (upd (with_red c') a s) (plug k (nodeD d a c' i l r)).
Proof.
  intros Hs. pose proof (state_cell _ _ _ _ _ _ _ _ Hs) as E. split; [by eapply wr_run|].
  pose proof (state_nodup _ _ _ Hs) as Hnd. destruct Hs as [Hr Hrt Hn Hd Hex].
  apply rep_plug in Hr as [Ht Hk]. apply rep_nodeD in Ht as (_ & Hl & Hrr).
  rewrite addrs_nodeD in Hnd. apply NoDup_app in Hnd as (_ & Hnk & Hnt).
  apply list.NoDup_cons in Hnt as [Hna Hnt].
  assert (Hfr : forall b, b <> a -> nodes (upd (with_red c') a s) !! b = nodes s !! b).
  { intros b Hb. rewrite upd_lookup, decide_False by congruence. done. }
  split.
  - apply rep_plug. rewrite rep_nodeD, rootp_nodeD. rewrite rootp_nodeD in Hk. split_and!.
    + rewrite upd_lookup, decide_True, E by done. by destruct d.
    + eapply rep_frame; [|done]. intros b Hb. apply Hfr. set_solver.
    + eapply rep_frame; [|done]. intros b Hb. apply Hfr. set_solver.
    + eapply repk_frame; [|done]. intros b Hb. apply Hfr. intros ->. apply (Hnk a Hb). set_solver.
  - rewrite upd_root, Hrt. destruct k as [|f k]; [simpl; by rewrite !rootp_nodeD|]. apply root_plug_cons.
  - rewrite addrs_plug, addrs_nodeD. by rewrite addrs_plug, addrs_nodeD in Hn.
  - intros b. rewrite upd_dom, <- Hd. by rewrite !addrs_plug, !addrs_nodeD.
  - intros b Hb. rewrite addrs_plug, addrs_nodeD. specialize (Hex b Hb). by rewrite addrs_plug, addrs_nodeD in Hex.
Qed.
End Steps.

(** ** Rotations *)

Definition rotate (d : bool) : ptr -> M rb_tree unit := if d then rotate_left else rotate_right.

(** The states a rotation at [x] goes through. *)
Definition set_top (k : list frame) (p : ptr) (s : rb_tree) : rb_tree :=
  match k with
  | [] => RbTree (nodes s) p (total s)
  | f :: _ => upd (with_child (f_dir f) p) (f_addr f) s
  end.
Definition reparent (p : ptr) (par : ptr) (s : rb_tree) : rb_tree :=
  match p with None => s | Some b => upd (with_parent par) b s end.

Definition rotated (d : bool) (k : list frame) (x y : Z) (b : ptr) (s : rb_tree) : rb_tree :=
  upd (with_parent (Some y)) x
    (upd (with_child d (Some x)) y
      (set_top k (Some y)
        (upd (with_parent (parp k)) y
          (reparent b (Some x) (upd (with_child (negb d) b) x s))))).

Lemma set_top_lookup k p s q :
  nodes (set_top k p s) !! q =
    match k with
    | [] => nodes s !! q
    | f :: _ => if decide (f_addr f = q) then with_child (f_dir f) p <$> nodes s !! q else nodes s !! q
    end.
Proof. destruct k; [done|]. apply upd_lookup. Qed.

Lemma reparent_lookup b par s q :
  nodes (reparent b par s) !! q =
    if decide (b = Some q) then with_parent par <$> nodes s !! q else nodes s !! q.
Proof.
  destruct b as [b|]; cbn [reparent]; [|by rewrite decide_False].
  rewrite upd_lookup. destruct (decide (b = q)) as [->|Hne].
  - by rewrite decide_True.
  - by rewrite decide_False by congruence.
Qed.

Lemma is_null_Some a : is_null (Some a) = false.
Proof. done. Qed.
Lemma ptr_eq_true p q : p = q -> ptr_eq p q = true.
Proof. intros ->. by apply bool_decide_true. Qed.
Lemma ptr_eq_false p q : p <> q -> ptr_eq p q = false.
Proof. intros. by apply bool_decide_false. Qed.

(** Setting the pointer to the hole, as [rotate_left] and [rotate_right]
    do it: at the root, or in the parent's field that holds [x]. *)
Lemma set_top_run s k x y :
  (k = [] <-> root s = Some x) ->
  nodes s !! x <> None ->
  (forall n, nodes s !! x = Some n -> parent n = parp k) ->
  (forall f k', k = f :: k' -> exists c i par, nodes s !! f_addr f =
     Some (cellD (f_dir f) i c par (Some x) (rootp (f_sib f))) /\ rootp (f_sib f) <> Some x) ->
  (if ptr_eq (Some x) (root s) then set_root (Some y)
   else
     n ← rd (Some x); p ← rd (parent n);
     if ptr_eq (Some x) (left p) then wr (parent n) (with_left (Some y))
     else wr (parent n) (with_right (Some y))) s = Ret (tt, set_top k (Some y) s).
Proof.
  intros Hk Hx Hp Hf.
  destruct k as [|f k'].
  - rewrite ptr_eq_true; [done|]. symmetry. by apply Hk.
  - rewrite ptr_eq_false.
    2:{ intros Hc. symmetry in Hc. apply Hk in Hc. done. }
    destruct (nodes s !! x) as [n|] eqn:En; [|done].
    rewrite (M_bind_run _ _ _ _ _ (rd_run s x n En)), (Hp n eq_refl).
    destruct (Hf f k' eq_refl) as (c & i & par & Ef & Hsib). cbn [parp].
    rewrite (M_bind_run _ _ _ _ _ (rd_run s _ _ Ef)).
    destruct (f_dir f) eqn:Ed; cbn [cellD cell left].
    + rewrite ptr_eq_true by done. cbn [set_top]. rewrite Ed. by eapply wr_run.
    + rewrite ptr_eq_false by congruence. cbn [set_top]. rewrite Ed. by eapply wr_run.
Qed.

(** Which pointers a rotation changes. *)
Section Rotated.
Context (s : rb_tree) (k : list frame) (d : bool) (x y : Z) (b : ptr).
Context (Hxy : x <> y) (Hbx : b <> Some x) (Hby : b <> Some y).
Context (Hkx : parp k <> Some x) (Hky : parp k <> Some y) (Hkb : forall q, parp k = Some q -> b <> Some q).

Lemma rotated_x : nodes (rotated d k x y b s) !! x =
  (fun n => with_parent (Some y) (with_child (negb d) b n)) <$> nodes s !! x.
Proof using All.
  unfold rotated. rewrite upd_lookup, decide_True by done.
  rewrite upd_lookup, decide_False, set_top_lookup by done.
  assert (E : nodes (upd (with_parent (parp k)) y (reparent b (Some x) (upd (with_child (negb d) b) x s))) !! x
    = with_child (negb d) b <$> nodes s !! x).
  { rewrite upd_lookup, decide_False, reparent_lookup, decide_False, upd_lookup, decide_True by done. done. }
  destruct k as [|f k']; [|cbn [parp] in Hkx; rewrite decide_False by congruence];
    rewrite E; by destruct (nodes s !! x).
Qed.

Lemma rotated_y : nodes (rotated d k x y b s) !! y =
  (fun n => with_child d (Some x) (with_parent (parp k) n)) <$> nodes s !! y.
Proof using All.
  unfold rotated. rewrite upd_lookup, decide_False by done.
  rewrite upd_lookup, decide_True, set_top_lookup by done.
  assert (E : nodes (upd (with_parent (parp k)) y (reparent b (Some x) (upd (with_child (negb d) b) x s))) !! y
    = with_parent (parp k) <$> nodes s !! y).
  { rewrite upd_lookup, decide_True, reparent_lookup, decide_False, upd_lookup, decide_False by done. done. }
  destruct k as [|f k']; [|cbn [parp] in Hky; rewrite decide_False by congruence];
    rewrite E; by destruct (nodes s !! y).
Qed.

Lemma rotated_b q : b = Some q ->
  nodes (rotated d k x y b s) !! q = with_parent (Some x) <$> nodes s !! q.
Proof using All.
  intros Eb. assert (x <> q) by congruence. assert (y <> q) by congruence.
  unfold rotated. rewrite upd_lookup, decide_False by done.
  rewrite upd_lookup, decide_False, set_top_lookup by done.
  assert (E : nodes (upd (with_parent (parp k)) y (reparent b (Some x) (upd (with_child (negb d) b) x s))) !! q
    = with_parent (Some x) <$> nodes s !! q).
  { rewrite upd_lookup, decide_False, reparent_lookup, decide_True, upd_lookup, decide_False by done. done. }
  destruct k as [|f k']; [done|]. rewrite decide_False; [done|]. intros Hc.
  by apply (Hkb (f_addr f)); [|congruence].
Qed.

Lemma rotated_top f k' : k = f :: k' ->
  nodes (rotated d k x y b s) !! f_addr f = with_child (f_dir f) (Some y) <$> nodes s !! f_addr f.
Proof using All.
  intros Ek. rewrite Ek in Hkx, Hky, Hkb. cbn [parp] in Hkx, Hky.
  unfold rotated. rewrite upd_lookup, decide_False by congruence.
  rewrite upd_lookup, decide_False, set_top_lookup, Ek, decide_True by congruence.
  rewrite upd_lookup, decide_False, reparent_lookup, decide_False, upd_lookup, decide_False by (done || congruence || by apply Hkb).
  done.
Qed.

Lemma rotated_other q : q <> x -> q <> y -> b <> Some q -> parp k <> Some q ->
  nodes (rotated d k x y b s) !! q = nodes s !! q.
Proof using All.
  intros H1 H2 H3 H4. unfold rotated.
  rewrite upd_lookup, decide_False, upd_lookup, decide_False, set_top_lookup by congruence.
  assert (E : nodes (upd (with_parent (parp k)) y (reparent b (Some x) (upd (with_child (negb d) b) x s))) !! q
    = nodes s !! q).
  { rewrite upd_lookup, decide_False, reparent_lookup, decide_False, upd_lookup, decide_False by congruence. done. }
  destruct k as [|f k']; [done|]. cbn [parp] in H4. by rewrite decide_False by congruence.
Qed.

Lemma rotated_root : root (rotated d k x y b s) = match k with [] => Some y | _ => root s end.
Proof. clear. unfold rotated, reparent. by destruct k, b. Qed.

Lemma rotated_dom q : is_Some (nodes (rotated d k x y b s) !! q) <-> is_Some (nodes s !! q).
Proof.
  clear. unfold rotated. rewrite !upd_dom. rewrite set_top_lookup.
  assert (E : is_Some (nodes (upd (with_parent (parp k)) y (reparent b (Some x) (upd (with_child (negb d) b) x s))) !! q)
    <-> is_Some (nodes s !! q)).
  { rewrite upd_dom, reparent_lookup. case_decide; rewrite ?fmap_is_Some; by rewrite upd_dom. }
  destruct k as [|f k']; [done|]. case_decide; [by rewrite fmap_is_Some|done].
Qed.
End Rotated.

Lemma rootp_in t a : rootp t = Some a -> a ∈ addrs t.
Proof. destruct t; [done|]. intros [= ->]. simpl. set_solver. Qed.

Lemma parp_in k a : parp k = Some a -> a ∈ kaddrs k.
Proof. destruct k; [done|]. intros [= <-]. simpl. set_solver. Qed.

Lemma root_plug_iff k t x :
  rootp t = Some x -> x ∉ kaddrs k -> (k = [] <-> rootp (plug k t) = Some x).
Proof.
  intros Ht Hx. destruct k as [|f k]; [done|]. split; [done|]. intros E. exfalso.
  destruct (root_plug_in f k t) as (a & Ea & Ha). congruence.
Qed.

Section Rotate.
Context {X : ptr}.
Local Abbreviation rb_state := (holds X).

(** The code of a rotation runs through these states. *)
Lemma rotate_code s k d x cx ix A y cy iy B C :
  rb_state s (plug k (nodeD d x cx ix A (nodeD d y cy iy B C))) ->
  x <> y -> x ∉ kaddrs k -> y ∉ kaddrs k -> rootp B <> Some x -> rootp B <> Some y ->
  (forall q, parp k = Some q -> rootp B <> Some q) ->
  (forall f k', k = f :: k' -> rootp (f_sib f) <> Some x) ->
  rotate d (Some x) s = Ret (tt, rotated d k x y (rootp B) s).
Proof.
  intros Hs Hxy Hxk Hyk HBx HBy HBk Hsib.
  pose proof (state_cell _ _ _ _ _ _ _ _ Hs) as Ex. rewrite rootp_nodeD in Ex.
  assert (Ey : nodes s !! y = Some (cellD d iy cy (Some x) (rootp B) (rootp C))).
  { destruct Hs as [Hr _ _ _ _]. apply rep_plug in Hr as [Hr _].
    apply rep_nodeD in Hr as (_ & _ & Hr). by apply rep_nodeD in Hr as (? & _). }
  set (s1 := upd (with_child (negb d) (rootp B)) x s).
  set (s2 := reparent (rootp B) (Some x) s1).
  set (s3 := upd (with_parent (parp k)) y s2).
  assert (E1y : nodes s1 !! y = nodes s !! y) by (unfold s1; by rewrite upd_lookup, decide_False).
  assert (E2x : nodes s2 !! x = Some (with_child (negb d) (rootp B) (cellD d ix cx (parp k) (rootp A) (Some y)))).
  { unfold s2. rewrite reparent_lookup, decide_False by done. unfold s1.
    by rewrite upd_lookup, decide_True, Ex. }
  assert (E2y : nodes s2 !! y = nodes s !! y).
  { unfold s2. by rewrite reparent_lookup, decide_False. }
  assert (E3x : nodes s3 !! x = nodes s2 !! x) by (unfold s3; by rewrite upd_lookup, decide_False).
  assert (Eb : (if is_null (rootp B) then mret tt else wr (rootp B) (with_parent (Some x))) s1 = Ret (tt, s2)).
  { destruct (rootp B) as [b|] eqn:EB; [|done]. rewrite is_null_Some.
    assert (is_Some (nodes s1 !! b)) as [n En].
    { unfold s1. rewrite upd_dom. apply (rs_dom _ _ Hs). left. rewrite addrs_plug, !addrs_nodeD.
      apply rootp_in in EB. set_solver. }
    by rewrite (wr_run _ _ _ _ En). }
  assert (Et : (if ptr_eq (Some x) (root s3) then set_root (Some y)
     else n ← rd (Some x); p ← rd (parent n);
          if ptr_eq (Some x) (left p) then wr (parent n) (with_left (Some y))
          else wr (parent n) (with_right (Some y))) s3 = Ret (tt, set_top k (Some y) s3)).
  { apply set_top_run.
    - replace (root s3) with (root s) by (unfold s3, s2, reparent; by destruct (rootp B)).
      rewrite (rs_root _ _ Hs). apply root_plug_iff; [apply rootp_nodeD|done].
    - by rewrite E3x, E2x.
    - intros n. rewrite E3x, E2x. intros [= <-]. by destruct d.
    - intros f k' ->. pose proof (state_frame_cell _ _ _ _ Hs) as Ef. rewrite rootp_nodeD in Ef.
      do 3 eexists. split; [|by eapply Hsib]. unfold s3, s2, s1.
      assert (f_addr f <> x /\ f_addr f <> y) as [? ?] by (cbn [kaddrs] in *; set_solver).
      rewrite upd_lookup, decide_False, reparent_lookup, decide_False, upd_lookup, decide_False; 
        [exact Ef|congruence|by apply HBk|congruence]. }
  set (s4 := set_top k (Some y) s3) in *.
  assert (Hd4 : forall q, is_Some (nodes s4 !! q) <-> is_Some (nodes s3 !! q)).
  { intros q. unfold s4. rewrite set_top_lookup. destruct k; [done|]. case_decide; by rewrite ?fmap_is_Some. }
  assert (is_Some (nodes s4 !! y)) as [ny E4y].
  { rewrite Hd4. unfold s3. rewrite upd_dom, E2y, Ey. done. }
  set (s5 := upd (with_child d (Some x)) y s4).
  assert (is_Some (nodes s5 !! x)) as [nx E5x].
  { unfold s5. rewrite upd_dom, Hd4, E3x, E2x. done. }
  destruct d; cbn [rotate cellD negb with_child] in *; unfold rotate_left, rotate_right;
    rewrite (M_bind_run _ _ _ _ _ (rd_run _ _ _ Ex)); cbn [cell left right];
    rewrite (M_bind_run _ _ _ _ _ (rd_run _ _ _ Ey)); cbn [cell left right];
    rewrite (M_bind_run _ _ _ _ _ (wr_run _ _ _ _ Ex)); fold s1; rewrite <- E1y in Ey;
    rewrite (M_bind_run _ _ _ _ _ (rd_run _ _ _ Ey)); cbn [cell left right];
    rewrite (M_bind_run _ _ _ _ _ Eb), (M_bind_run _ _ _ _ _ (rd_run _ _ _ E2x)); cbn [cell with_right with_left parent];
    rewrite E1y, <- E2y in Ey; rewrite (M_bind_run _ _ _ _ _ (wr_run _ _ _ _ Ey)); fold s3;
    rewrite (M_bind_run _ _ s3 s3 (root s3)) by done;
    rewrite (M_bind_run _ _ _ _ _ Et), (M_bind_run _ _ _ _ _ (wr_run _ _ _ _ E4y));
    by rewrite (wr_run _ _ _ _ E5x).
Qed.

Lemma rotate_addrs k d x cx ix A y cy iy B C :
  addrs (plug k (nodeD d x cx ix A (nodeD d y cy iy B C))) ≡ₚ
  addrs (plug k (nodeD d y cy iy (nodeD d x cx ix A B) C)).
Proof.
  rewrite !addrs_plug, !addrs_nodeD. f_equiv. rewrite <- Permutation_middle.
  rewrite perm_swap. by rewrite <- app_comm_cons, <- app_assoc.
Qed.

(** A rotation of the memory is a rotation of the tree. *)
Lemma rotate_run s k d x cx ix A y cy iy B C :
  rb_state s (plug k (nodeD d x cx ix A (nodeD d y cy iy B C))) ->
  exists s', rotate d (Some x) s = Ret (tt, s') /\
    rb_state s' (plug k (nodeD d y cy iy (nodeD d x cx ix A B) C)) /\ total s' = total s.
Proof.
  intros Hs. pose proof (state_nodup _ _ _ Hs) as Hnd. rewrite !addrs_nodeD in Hnd.
  apply NoDup_app in Hnd as (Nk & Nkt & Nt). apply list.NoDup_cons in Nt as [Nx Nt].
  apply NoDup_app in Nt as (NA & NAy & Nt). apply list.NoDup_cons in Nt as [Ny Nt].
  apply NoDup_app in Nt as (NB & NBC & NC).
  assert (Hxy : x <> y) by set_solver.
  assert (Hxk : x ∉ kaddrs k) by (intros Hc; apply (Nkt x Hc); set_solver).
  assert (Hyk : y ∉ kaddrs k) by (intros Hc; apply (Nkt y Hc); set_solver).
  assert (HB : forall q, rootp B = Some q -> q ∈ addrs B) by (intros; by apply rootp_in).
  assert (HBx : rootp B <> Some x) by (intros Hc%HB; set_solver).
  assert (HBy : rootp B <> Some y) by (intros Hc%HB; set_solver).
  assert (HBk : forall q, parp k = Some q -> rootp B <> Some q).
  { intros q Hq%parp_in Hc%HB. apply (Nkt q Hq). set_solver. }
  assert (Hpx : parp k <> Some x) by (intros Hc%parp_in; done).
  assert (Hpy : parp k <> Some y) by (intros Hc%parp_in; done).
  eexists. split.
  { eapply rotate_code; [done..|]. intros f k' -> Hc%rootp_in. apply Hxk. cbn [kaddrs]. set_solver. }
  split; [|by unfold rotated, reparent, set_top; destruct k, (rootp B)].
  pose proof (rotated_x s k d x y (rootp B) Hxy HBx HBy Hpx Hpy HBk) as Rx.
  pose proof (rotated_y s k d x y (rootp B) Hxy HBx HBy Hpx Hpy HBk) as Ry.
  pose proof (rotated_b s k d x y (rootp B) Hxy HBx HBy Hpx Hpy HBk) as Rb.
  pose proof (rotated_top s k d x y (rootp B) Hxy HBx HBy Hpx Hpy HBk) as Rt.
  pose proof (rotated_other s k d x y (rootp B) Hxy HBx HBy Hpx Hpy HBk) as Ro.
  pose proof (state_cell _ _ _ _ _ _ _ _ Hs) as Ex. rewrite rootp_nodeD in Ex.
  destruct Hs as [Hr Hrt Hn Hd Hex]. apply rep_plug in Hr as [Hr Hk].
  apply rep_nodeD in Hr as (_ & HrA & Hr). apply rep_nodeD in Hr as (Ey & HrB & HrC).
  rewrite rootp_nodeD in Hk.
  split.
  - apply rep_plug. rewrite !rep_nodeD, !rootp_nodeD. split; [split_and!|].
    + rewrite Ry, Ey. by destruct d.
    + rewrite Rx, Ex. by destruct d.
    + eapply rep_frame; [|done]. intros q Hq. apply Ro; [set_solver..| |].
      * intros Hc%HB. set_solver.
      * intros Hc%parp_in. apply (Nkt q Hc). set_solver.
    + eapply rep_reparent; [done|done| |done].
      intros q Hq Hne. apply Ro; [set_solver..|congruence|].
      intros Hc%parp_in. apply (Nkt q Hc). set_solver.
    + eapply rep_frame; [|done]. intros q Hq. apply Ro; [set_solver..| |].
      * intros Hc%HB. by apply (NBC q).
      * intros Hc%parp_in. apply (Nkt q Hc). set_solver.
    + destruct k as [|f k']; [done|]. cbn [kaddrs] in *. apply list.NoDup_cons in Nk as [Nf Nk].
      eapply repk_sethole; [exact Hk|done|by eapply Rt|].
      intros q Hq. apply Ro; [set_solver|set_solver| |].
      * intros Hc%HB. apply (Nkt q); set_solver.
      * cbn [parp]. intros [= <-]. done.
  - rewrite rotated_root. destruct k as [|f k']; [simpl; by rewrite rootp_nodeD|].
    rewrite Hrt. apply root_plug_cons.
  - by rewrite rotate_addrs in Hn.
  - intros q. rewrite rotated_dom, <- Hd. by rewrite rotate_addrs.
  - intros q Hq. specialize (Hex q Hq). by rewrite rotate_addrs in Hex.
Qed.
End Rotate.
