(* ===== verification/RbTreeOk.v ===== *)
(** * Red-black trees: correctness

    [rb_ok] is the red-black invariant (no red node has a red child, every
    path has the same number of black nodes, the root is black), [sorted]
    the order of the intervals.  Every operation of libs/rb_tree.c, run on
    a memory that holds such a tree, returns, leaves a memory that holds
    such a tree, and acts on the list of intervals as the corresponding list
    operation; in particular none of the assertions of [rb_tree_validate],
    which the code runs after every update, fires. *)

From stdpp Require Import base numbers list gmap.
From Stdlib Require Import ZArith Lia.
From S2P Require Import Prelude RbTree RbTreeRep.

Open Scope Z_scope.

(** ** Balance *)

Definition red_root (t : tree) : bool := match t with Leaf => false | Node _ c _ _ _ => c end.

Fixpoint bal (t : tree) (n : nat) : Prop :=
  match t with
  | Leaf => n = O
  | Node _ true _ l r => bal l n /\ bal r n /\ red_root l = false /\ red_root r = false
  | Node _ false _ l r => match n with O => False | S m => bal l m /\ bal r m end
  end.

Definition rb_ok (t : tree) : Prop := red_root t = false /\ exists n, bal t n.

(** Whether a red node is not allowed in the hole: below a red node and at
    the root. *)
Definition kred (k : list frame) : bool := match k with [] => true | f :: _ => f_red f end.

(** What a zipper requires of its hole: a tree of black height [n]. *)
Fixpoint kbal (k : list frame) (n : nat) : Prop :=
  match k with
  | [] => True
  | f :: k =>
      bal (f_sib f) n /\
      if f_red f then red_root (f_sib f) = false /\ kred k = false /\ kbal k n else kbal k (S n)
  end.

Lemma bal_nodeD d a c i s t n :
  bal (nodeD d a c i s t) n <->
  if c then bal s n /\ bal t n /\ red_root s = false /\ red_root t = false
  else match n with O => False | S m => bal s m /\ bal t m end.
Proof. destruct d, c, n; simpl; tauto. Qed.

Lemma red_root_nodeD d a c i s t : red_root (nodeD d a c i s t) = c.
Proof. by destruct d. Qed.

Lemma bal_plug k t n :
  bal t n -> kbal k n -> (red_root t = true -> kred k = false) -> rb_ok (plug k t).
Proof.
  revert t n. induction k as [|f k IH]; intros t n Ht Hk Hr.
  - split; [|by exists n]. simpl. destruct (red_root t); [|done]. by specialize (Hr eq_refl).
  - cbn [plug]. destruct Hk as [Hs Hk]. cbn [kred] in Hr. unfold plug1. destruct (f_red f) eqn:Ef.
    + destruct Hk as (Hsr & Hkr & Hk). apply (IH _ n); [|done|].
      * apply bal_nodeD. split_and!; [done..| |done]. destruct (red_root t); [|done].
        by specialize (Hr eq_refl).
      * done.
    + apply (IH _ (S n)); [|done|].
      * by apply bal_nodeD.
      * by rewrite red_root_nodeD.
Qed.

Lemma plug_bal k t :
  rb_ok (plug k t) -> exists n, bal t n /\ kbal k n /\ (red_root t = true -> kred k = false).
Proof.
  revert t. induction k as [|f k IH]; intros t.
  - intros [Hr [n Hn]]. exists n. cbn [plug] in *. split_and!; [done|done|congruence].
  - cbn [plug]. intros (n & Hn & Hk & Hr)%IH. unfold plug1 in *.
    rewrite bal_nodeD in Hn. rewrite red_root_nodeD in Hr. cbn [kbal kred].
    destruct (f_red f) eqn:Ef.
    + destruct Hn as (? & ? & ? & ?). exists n. split_and!; try done; [by apply Hr|congruence].
    + destruct n as [|m]; [done|]. destruct Hn. exists m. done.
Qed.

(** ** Elements, in order *)

Fixpoint elems (t : tree) : list (Z * info) :=
  match t with Leaf => [] | Node a _ i l r => elems l ++ (a, i) :: elems r end.

Lemma elems_plug_ext k t t' : elems t = elems t' -> elems (plug k t) = elems (plug k t').
Proof.
  revert t t'. induction k as [|f k IH]; intros t t' E; [done|]. cbn [plug]. apply IH.
  unfold plug1. destruct (f_dir f); simpl; by rewrite E.
Qed.

Lemma elems_recolor d a c c' i s t : elems (nodeD d a c i s t) = elems (nodeD d a c' i s t).
Proof. by destruct d. Qed.

Lemma elems_rotate d x cx ix A y cy iy B C :
  elems (nodeD d x cx ix A (nodeD d y cy iy B C)) = elems (nodeD d y cy iy (nodeD d x cx ix A B) C).
Proof. destruct d; simpl; by rewrite <- app_assoc. Qed.

(** Equality of element lists up to association. *)
Ltac elems_eq := simpl; rewrite <- ?app_assoc; simpl; rewrite <- ?app_assoc; done.

(** ** Zipper bookkeeping *)

Lemma nodeD_swap d a c i s t : nodeD d a c i s t = nodeD (negb d) a c i t s.
Proof. by destruct d. Qed.

Lemma plug_swap d a c i t u k :
  plug (Frame d a c i u :: k) t = plug (Frame (negb d) a c i t :: k) u.
Proof. cbn [plug]. unfold plug1. cbn [f_dir f_addr f_red f_info f_sib]. by rewrite nodeD_swap. Qed.

Definition blacken (t : tree) : tree :=
  match t with Leaf => Leaf | Node a _ i l r => Node a false i l r end.
Definition redden (t : tree) : tree :=
  match t with Leaf => Leaf | Node a _ i l r => Node a true i l r end.

Lemma elems_blacken t : elems (blacken t) = elems t.
Proof. by destruct t. Qed.
Lemma blacken_black t : red_root t = false -> blacken t = t.
Proof. destruct t as [|a [] i l r]; done. Qed.
Lemma rootp_blacken t : rootp (blacken t) = rootp t.
Proof. by destruct t. Qed.
Lemma bal_blacken t n : bal t n -> bal (blacken t) (if red_root t then S n else n).
Proof. destruct t as [|a [] i l r]; simpl; tauto. Qed.
Lemma blacken_nodeD d a c i s t : blacken (nodeD d a c i s t) = nodeD d a false i s t.
Proof. by destruct d. Qed.
Lemma redden_nodeD d a c i s t : redden (nodeD d a c i s t) = nodeD d a true i s t.
Proof. by destruct d. Qed.

(** ** The helpers of the code, on the hole *)

Lemma node_nodeD a c i l r : Node a c i l r = nodeD true a c i l r.
Proof. done. Qed.

Section Fixup.
Context {X : ptr}.
Local Abbreviation rb_state := (holds X).

Lemma rd_hole s k d a c i l r :
  rb_state s (plug k (nodeD d a c i l r)) ->
  rd (Some a) s = Ret (cellD d i c (parp k) (rootp l) (rootp r), s).
Proof. intros Hs. eapply rd_run, state_cell, Hs. Qed.

Lemma rd_frame s f k t :
  rb_state s (plug (f :: k) t) ->
  rd (Some (f_addr f)) s =
    Ret (cellD (f_dir f) (f_info f) (f_red f) (parp k) (rootp t) (rootp (f_sib f)), s).
Proof. intros Hs. by eapply rd_run, state_frame_cell. Qed.

Lemma is_red_run s k t : rb_state s (plug k t) -> is_red (rootp t) s = Ret (red_root t, s).
Proof.
  intros Hs. destruct t as [|a c i l r]; [done|]. unfold is_red. cbn [rootp]. rewrite is_null_Some.
  rewrite node_nodeD in Hs. by rewrite (M_bind_run _ _ _ _ _ (rd_hole _ _ _ _ _ _ _ _ Hs)).
Qed.

Lemma is_black_run s k t : rb_state s (plug k t) -> is_black (rootp t) s = Ret (negb (red_root t), s).
Proof. intros Hs. unfold is_black. by rewrite (M_bind_run _ _ _ _ _ (is_red_run _ _ _ Hs)). Qed.

Lemma set_black_run s k t :
  rb_state s (plug k t) ->
  exists s', set_black (rootp t) s = Ret (tt, s') /\ rb_state s' (plug k (blacken t)).
Proof.
  intros Hs. destruct t as [|a c i l r]; [by exists s|]. rewrite node_nodeD in Hs.
  destruct (recolor _ _ _ _ _ false _ _ _ Hs) as [E Hs']. eexists. split; [exact E|exact Hs'].
Qed.

Lemma set_red_run s k t :
  rb_state s (plug k t) ->
  exists s', set_red (rootp t) s = Ret (tt, s') /\ rb_state s' (plug k (redden t)).
Proof.
  intros Hs. destruct t as [|a c i l r]; [by exists s|]. rewrite node_nodeD in Hs.
  destruct (recolor _ _ _ _ _ true _ _ _ Hs) as [E Hs']. eexists. split; [exact E|exact Hs'].
Qed.

Lemma parent_of_run s k t x :
  rb_state s (plug k t) -> rootp t = Some x -> parent_of (Some x) s = Ret (parp k, s).
Proof.
  intros Hs Hx. destruct t as [|a c i l r]; [done|]. injection Hx as ->. rewrite node_nodeD in Hs.
  unfold parent_of. by rewrite (M_bind_run _ _ _ _ _ (rd_hole _ _ _ _ _ _ _ _ Hs)).
Qed.

Lemma grandparent_of_run s f k t x :
  rb_state s (plug (f :: k) t) -> rootp t = Some x -> grandparent_of (Some x) s = Ret (parp k, s).
Proof.
  intros Hs Hx. unfold grandparent_of. rewrite (M_bind_run _ _ _ _ _ (parent_of_run _ _ _ _ Hs Hx)).
  apply (parent_of_run s k (plug1 f t)); [done|apply rootp_nodeD].
Qed.

(** Distinctness of the pointers the code compares. *)
Lemma hole_ne_sib s f k t x : rb_state s (plug (f :: k) t) -> rootp t = Some x -> rootp (f_sib f) <> Some x.
Proof.
  intros Hs Hx%rootp_in Hc%rootp_in. apply state_nodup in Hs. cbn [kaddrs] in Hs.
  apply NoDup_app in Hs as (_ & Hs & _). apply (Hs x); set_solver.
Qed.

Lemma hole_is_root s k t x :
  rb_state s (plug k t) -> rootp t = Some x -> (k = [] <-> root s = Some x).
Proof.
  intros Hs Hx. rewrite (rs_root _ _ Hs). apply root_plug_iff; [done|].
  intros Hc. apply state_nodup in Hs. apply NoDup_app in Hs as (_ & Hs & _).
  by apply (Hs x), rootp_in.
Qed.

(** ** Insertion *)

(** The two mirror images of the loop body of [insert_fixup]. *)
Definition ins_body (fuel : nat) (d : bool) (nodex nodey : ptr) : M rb_tree unit :=
  yred ← is_red nodey;
  if yred : bool then
    _ ← set_black nodey;
    p ← parent_of nodex; _ ← set_black p;
    gp ← grandparent_of nodex; _ ← set_red gp;
    gp ← grandparent_of nodex;
    insert_fixup_loop fuel gp
  else
    p ← parent_of nodex; pn ← rd p;
    nodex ← (if ptr_eq nodex (if d then right pn else left pn) then
               nodex ← parent_of nodex; _ ← rotate d nodex; mret nodex
             else mret nodex);
    p ← parent_of nodex; _ ← set_black p;
    gp ← grandparent_of nodex; _ ← set_red gp;
    gp ← grandparent_of nodex; _ ← rotate (negb d) gp;
    insert_fixup_loop fuel nodex.

Lemma insert_guard s k t x :
  rb_state s (plug k t) -> rootp t = Some x ->
  (r ← get_root; andM (mret (negb (ptr_eq (Some x) r))) (p ← parent_of (Some x); is_red p)) s
    = Ret (match k with [] => false | f :: _ => f_red f end, s).
Proof.
  intros Hs Hx. rewrite (M_bind_run _ _ s s (root s)) by done. unfold andM.
  pose proof (hole_is_root _ _ _ _ Hs Hx) as Hk. destruct k as [|f k].
  - rewrite (ptr_eq_true (Some x)) by (symmetry; by apply Hk). done.
  - rewrite (ptr_eq_false (Some x)).
    2:{ intros Hc. symmetry in Hc. by apply Hk in Hc. }
    rewrite (M_bind_run _ _ s s true) by done.
    rewrite (M_bind_run _ _ _ _ _ (parent_of_run _ _ _ _ Hs Hx)). cbn [parp].
    pose proof (is_red_run s k (plug1 f t) Hs) as E. unfold plug1 in E.
    by rewrite rootp_nodeD, red_root_nodeD in E.
Qed.

Lemma insert_exit fuel s k t x :
  rb_state s (plug k t) -> rootp t = Some x -> match k with [] => True | f :: _ => f_red f = false end ->
  insert_fixup_loop (S fuel) (Some x) s = Ret (tt, s).
Proof.
  intros Hs Hx Hk. cbn [insert_fixup_loop]. pose proof (insert_guard _ _ _ _ Hs Hx) as E.
  apply M_bind_ret in E as (r & s1 & [= <- <-] & E). rewrite (M_bind_run _ _ s s (root s)) by done.
  rewrite (M_bind_run _ _ _ _ _ E). destruct k; [done|]. by rewrite Hk.
Qed.

Lemma insert_enter fuel s f g k t x :
  rb_state s (plug (f :: g :: k) t) -> rootp t = Some x -> f_red f = true ->
  insert_fixup_loop (S fuel) (Some x) s = ins_body fuel (f_dir g) (Some x) (rootp (f_sib g)) s.
Proof.
  intros Hs Hx Hf. cbn [insert_fixup_loop]. pose proof (insert_guard _ _ _ _ Hs Hx) as E.
  apply M_bind_ret in E as (r & s1 & [= <- <-] & E). rewrite (M_bind_run _ _ s s (root s)) by done.
  rewrite (M_bind_run _ _ _ _ _ E), Hf.
  rewrite (M_bind_run _ _ _ _ _ (parent_of_run _ _ _ _ Hs Hx)).
  rewrite (M_bind_run _ _ _ _ _ (grandparent_of_run _ _ _ _ _ Hs Hx)). cbn [parp].
  pose proof (rd_frame s g k (plug1 f t) Hs) as Eg. rewrite (M_bind_run _ _ _ _ _ Eg).
  assert (Hne : rootp (f_sib g) <> Some (f_addr f)).
  { apply (hole_ne_sib s g k (plug1 f t)); [done|]. apply rootp_nodeD. }
  unfold plug1. rewrite rootp_nodeD. destruct (f_dir g); cbn [cellD cell left right].
  - rewrite ptr_eq_true by done. done.
  - rewrite ptr_eq_false by congruence. done.
Qed.

Definition fix_post (T : tree) (s' : rb_tree) : Prop :=
  exists T', rb_state s' T' /\ elems T' = elems T /\ exists m, bal (blacken T') m.

Lemma fix_post_ok s T : rb_state s T -> rb_ok T -> fix_post T s.
Proof. intros Hs [Hr Hb]. exists T. by rewrite blacken_black. Qed.

(** Uncle red: recolour and go on two levels up. *)
Lemma ins_uncle_red fuel s f g k t x :
  rb_state s (plug (f :: g :: k) t) -> rootp t = Some x -> red_root (f_sib g) = true ->
  exists s1, ins_body fuel (f_dir g) (Some x) (rootp (f_sib g)) s
             = insert_fixup_loop fuel (Some (f_addr g)) s1 /\
    rb_state s1 (plug k (nodeD (f_dir g) (f_addr g) true (f_info g)
      (nodeD (f_dir f) (f_addr f) false (f_info f) t (f_sib f)) (blacken (f_sib g)))).
Proof.
  destruct f as [fd fa fc fi fs], g as [gd ga gc gi gs].
  cbn [f_dir f_addr f_red f_info f_sib]. set (f := Frame fd fa fc fi fs). set (g := Frame gd ga gc gi gs).
  intros Hs Hx Hu.
  assert (Hs' : rb_state s (plug (Frame (negb gd) ga gc gi (plug1 f t) :: k) gs)).
  { rewrite <- plug_swap. exact Hs. }
  destruct (set_black_run _ _ _ Hs') as (s1 & E1 & Hs1).
  assert (Hs1' : rb_state s1 (plug (f :: Frame gd ga gc gi (blacken gs) :: k) t)).
  { change (rb_state s1 (plug (Frame gd ga gc gi (blacken gs) :: k) (plug1 f t))).
    rewrite plug_swap. exact Hs1. }
  destruct (set_black_run s1 (Frame gd ga gc gi (blacken gs) :: k) (plug1 f t) Hs1') as (s2 & E2 & Hs2).
  unfold plug1, f in E2, Hs2. cbn [f_dir f_addr f_red f_info f_sib] in E2, Hs2.
  rewrite blacken_nodeD in Hs2. rewrite rootp_nodeD in E2.
  assert (Hs2' : rb_state s2 (plug (Frame fd fa false fi fs :: Frame gd ga gc gi (blacken gs) :: k) t)) by exact Hs2.
  destruct (set_red_run s2 k (plug1 (Frame gd ga gc gi (blacken gs)) (nodeD fd fa false fi t fs)) Hs2)
    as (s3 & E3 & Hs3).
  unfold plug1 in E3, Hs3. cbn [f_dir f_addr f_red f_info f_sib] in E3, Hs3.
  rewrite redden_nodeD in Hs3. rewrite rootp_nodeD in E3.
  exists s3. split; [|exact Hs3].
  assert (Hs3' : rb_state s3 (plug (Frame fd fa false fi fs :: Frame gd ga true gi (blacken gs) :: k) t)) by exact Hs3.
  unfold ins_body. rewrite (M_bind_run _ _ _ _ _ (is_red_run _ _ _ Hs')), Hu.
  rewrite (M_bind_run _ _ _ _ _ E1), (M_bind_run _ _ _ _ _ (parent_of_run _ _ _ _ Hs1' Hx)).
  cbn [parp f_addr]. rewrite (M_bind_run _ _ _ _ _ E2).
  rewrite (M_bind_run _ _ _ _ _ (grandparent_of_run _ _ _ _ _ Hs2' Hx)). cbn [parp f_addr].
  rewrite (M_bind_run _ _ _ _ _ E3), (M_bind_run _ _ _ _ _ (grandparent_of_run _ _ _ _ _ Hs3' Hx)). done.
Qed.

(** Uncle black, the node on the outer side: recolour and rotate. *)
Lemma ins_outer s d q iq C g k t x :
  rb_state s (plug (Frame d q true iq C :: g :: k) t) -> rootp t = Some x -> f_dir g = d ->
  exists s1,
    (forall fuel, (p ← parent_of (Some x); _ ← set_black p;
      gp ← grandparent_of (Some x); _ ← set_red gp;
      gp ← grandparent_of (Some x); _ ← rotate (negb d) gp;
      insert_fixup_loop fuel (Some x)) s = insert_fixup_loop fuel (Some x) s1) /\
    rb_state s1 (plug k (nodeD (negb d) q false iq
      (nodeD (negb d) (f_addr g) true (f_info g) (f_sib g) C) t)).
Proof.
  destruct g as [gd ga gc gi gs]. cbn [f_dir f_addr f_red f_info f_sib]. intros Hs Hx ->.
  destruct (set_black_run s (Frame d ga gc gi gs :: k) (plug1 (Frame d q true iq C) t) Hs) as (s1 & E1 & Hs1).
  unfold plug1 in E1, Hs1. cbn [f_dir f_addr f_red f_info f_sib] in E1, Hs1.
  rewrite blacken_nodeD in Hs1. rewrite rootp_nodeD in E1.
  assert (Hs1' : rb_state s1 (plug (Frame d q false iq C :: Frame d ga gc gi gs :: k) t)) by exact Hs1.
  destruct (set_red_run s1 k (plug1 (Frame d ga gc gi gs) (nodeD d q false iq t C)) Hs1) as (s2 & E2 & Hs2).
  unfold plug1 in E2, Hs2. cbn [f_dir f_addr f_red f_info f_sib] in E2, Hs2.
  rewrite redden_nodeD in Hs2. rewrite rootp_nodeD in E2.
  assert (Hs2' : rb_state s2 (plug (Frame d q false iq C :: Frame d ga true gi gs :: k) t)) by exact Hs2.
  rewrite (nodeD_swap d ga), (nodeD_swap d q) in Hs2.
  destruct (rotate_run _ _ _ _ _ _ _ _ _ _ _ _ Hs2) as (s3 & E3 & Hs3 & _).
  exists s3. split; [|done]. intros fuel.
  rewrite (M_bind_run _ _ _ _ _ (parent_of_run _ _ _ _ Hs Hx)). cbn [parp f_addr].
  rewrite (M_bind_run _ _ _ _ _ E1), (M_bind_run _ _ _ _ _ (grandparent_of_run _ _ _ _ _ Hs1' Hx)).
  cbn [parp f_addr].
  rewrite (M_bind_run _ _ _ _ _ E2), (M_bind_run _ _ _ _ _ (grandparent_of_run _ _ _ _ _ Hs2' Hx)).
  cbn [parp f_addr]. by rewrite (M_bind_run _ _ _ _ _ E3).
Qed.

(** Uncle black, the node on the inner side: rotate it to the outer side. *)
Lemma ins_inner s d p ip A g k x ix l r :
  rb_state s (plug (Frame (negb d) p true ip A :: g :: k) (nodeD d x true ix l r)) -> 
  exists s1, rotate d (Some p) s = Ret (tt, s1) /\
    rb_state s1 (plug (Frame d x true ix r :: g :: k) (nodeD d p true ip A l)).
Proof.
  intros Hs. change (rb_state s (plug (g :: k) (plug1 (Frame (negb d) p true ip A) (nodeD d x true ix l r)))) in Hs.
  unfold plug1 in Hs. cbn [f_dir f_addr f_red f_info f_sib] in Hs. rewrite nodeD_swap, negb_involutive in Hs.
  destruct (rotate_run _ _ _ _ _ _ _ _ _ _ _ _ Hs) as (s1 & E1 & Hs1 & _). by exists s1.
Qed.

(** The black uncle cases together. *)
Lemma ins_uncle_black fuel s f g k x ix l r n :
  rb_state s (plug (f :: g :: k) (Node x true ix l r)) -> f_red f = true ->
  red_root (f_sib g) = false -> bal (Node x true ix l r) n -> kbal (f :: g :: k) n ->
  exists s', ins_body (S fuel) (f_dir g) (Some x) (rootp (f_sib g)) s = Ret (tt, s') /\
    fix_post (plug (f :: g :: k) (Node x true ix l r)) s'.
Proof.
  intros Hs Hf Hu Hb Hk. destruct f as [fd fa fc fi fs]. cbn [f_red] in Hf. subst fc.
  cbn [kbal f_red f_sib] in Hk. destruct Hk as (Hfs & Hfsr & Hgr & Hgs & Hk). cbn [kred] in Hgr. rewrite Hgr in Hk.
  destruct Hb as (Hl & Hr & Hlr & Hrr). set (d := f_dir g).
  pose proof (is_red_run s (Frame (negb (f_dir g)) (f_addr g) (f_red g) (f_info g)
    (plug1 (Frame fd fa true fi fs) (Node x true ix l r)) :: k) (f_sib g)) as Er.
  rewrite <- plug_swap in Er. destruct g as [gd ga gc gi gs]. cbn [f_dir f_addr f_red f_info f_sib] in *.
  specialize (Er Hs). subst gc. unfold d.
  unfold ins_body. rewrite (M_bind_run _ _ _ _ _ Er), Hu.
  rewrite (M_bind_run _ _ _ _ _ (parent_of_run _ _ _ _ Hs eq_refl)). cbn [parp f_addr].
  rewrite (M_bind_run _ _ _ _ _ (rd_frame _ _ _ _ Hs)). cbn [f_dir f_addr f_red f_info f_sib rootp].
  assert (Hne : rootp fs <> Some x) by exact (hole_ne_sib _ _ _ _ _ Hs eq_refl).
  destruct (decide (fd = gd)) as [->|Hd].
  - assert (Ei : ptr_eq (Some x) (if gd then right (cellD gd fi true (Some ga) (Some x) (rootp fs))
       else left (cellD gd fi true (Some ga) (Some x) (rootp fs))) = false).
    { apply ptr_eq_false. destruct gd; cbn; congruence. }
    cbn [parp f_addr]. rewrite Ei, (M_bind_run _ _ s s (Some x)) by done.
    destruct (ins_outer s gd fa fi fs (Frame gd ga false gi gs) k (Node x true ix l r) x Hs eq_refl eq_refl)
      as (s1 & E1 & Hs1). cbn [f_dir f_addr f_red f_info f_sib] in *.
    exists s1. split.
    + rewrite E1.
      assert (Hs1' : rb_state s1 (plug (Frame gd fa false fi (nodeD (negb gd) ga true gi gs fs) :: k) (Node x true ix l r))).
      { rewrite plug_swap. exact Hs1. }
      by eapply insert_exit.
    + eexists. split; [exact Hs1|]. split.
      * cbn [plug]. unfold plug1. cbn [f_dir f_addr f_red f_info f_sib]. apply elems_plug_ext.
        destruct gd; elems_eq.
      * assert (Hok : rb_ok (plug k (nodeD (negb gd) fa false fi (nodeD (negb gd) ga true gi gs fs) (Node x true ix l r)))).
        { apply (bal_plug k _ (S n)); [|done|by rewrite red_root_nodeD].
          apply bal_nodeD. split; [by apply bal_nodeD|done]. }
        destruct Hok as [Hr1 Hb1]. by rewrite blacken_black.
  - assert (fd = negb gd) as -> by (destruct fd, gd; done).
    assert (Ei : ptr_eq (Some x) (if gd then right (cellD (negb gd) fi true (Some ga) (Some x) (rootp fs))
       else left (cellD (negb gd) fi true (Some ga) (Some x) (rootp fs))) = true).
    { apply ptr_eq_true. by destruct gd. }
    cbn [parp f_addr]. rewrite Ei.
    set (lx := if gd then l else r). set (rx := if gd then r else l).
    assert (En : Node x true ix l r = nodeD gd x true ix lx rx) by by destruct gd.
    pose proof Hs as Hs0. rewrite En in Hs0.
    destruct (ins_inner s gd fa fi fs (Frame gd ga false gi gs) k x ix lx rx Hs0) as (s1 & E1 & Hs1).
    rewrite (M_bind_run _ _ s s1 (Some fa)).
    2:{ rewrite (M_bind_run _ _ _ _ _ (parent_of_run _ _ _ _ Hs eq_refl)). cbn [parp f_addr].
        by rewrite (M_bind_run _ _ _ _ _ E1). }
    destruct (ins_outer s1 gd x ix rx (Frame gd ga false gi gs) k (nodeD gd fa true fi fs lx) fa Hs1
      (rootp_nodeD _ _ _ _ _ _) eq_refl) as (s2 & E2 & Hs2). cbn [f_dir f_addr f_red f_info f_sib] in *.
    exists s2. split.
    + rewrite E2.
      assert (Hs2' : rb_state s2 (plug (Frame gd x false ix (nodeD (negb gd) ga true gi gs rx) :: k) (nodeD gd fa true fi fs lx))).
      { rewrite plug_swap. exact Hs2. }
      eapply insert_exit; [exact Hs2'|apply rootp_nodeD|done].
    + eexists. split; [exact Hs2|]. split.
      * cbn [plug]. unfold plug1. cbn [f_dir f_addr f_red f_info f_sib]. apply elems_plug_ext.
        unfold lx, rx. destruct gd; elems_eq.
      * assert (Hbx : bal lx n /\ bal rx n /\ red_root lx = false /\ red_root rx = false) by (unfold lx, rx; by destruct gd).
        destruct Hbx as (? & ? & ? & ?).
        assert (Hok : rb_ok (plug k (nodeD (negb gd) x false ix (nodeD (negb gd) ga true gi gs rx) (nodeD gd fa true fi fs lx)))).
        { apply (bal_plug k _ (S n)); [|done|by rewrite red_root_nodeD].
          apply bal_nodeD. split; by apply bal_nodeD. }
        destruct Hok as [Hr1 Hb1]. by rewrite blacken_black.
Qed.

Lemma insert_loop_run fuel s k x ix l r n :
  rb_state s (plug k (Node x true ix l r)) -> bal (Node x true ix l r) n -> kbal k n ->
  (length k < fuel)%nat ->
  exists s', insert_fixup_loop fuel (Some x) s = Ret (tt, s') /\
    fix_post (plug k (Node x true ix l r)) s'.
Proof.
  revert s k x ix l r n. induction fuel as [fuel IH] using lt_wf_ind. intros s k x ix l r n Hs Hb Hk Hf.
  destruct fuel as [|fuel]; [lia|]. destruct k as [|f k].
  - exists s. split; [by eapply insert_exit|]. exists (Node x true ix l r). split_and!; [done..|].
    exists (S n). apply (bal_blacken _ _ Hb).
  - destruct (f_red f) eqn:Ef.
    2:{ exists s. split; [by eapply insert_exit|]. apply fix_post_ok; [done|]. by eapply bal_plug. }
    destruct k as [|g k]; [cbn [kbal] in Hk; rewrite Ef in Hk; destruct Hk as (_ & _ & Hk & _); done|].
    destruct (red_root (f_sib g)) eqn:Eu.
    2:{ cbn [length] in Hf. destruct fuel as [|fuel]; [lia|].
        rewrite (insert_enter _ _ _ _ _ _ _ Hs eq_refl Ef). by eapply ins_uncle_black. }
    rewrite (insert_enter _ _ _ _ _ _ _ Hs eq_refl Ef).
    destruct (ins_uncle_red fuel _ _ _ _ _ _ Hs eq_refl Eu) as (s1 & -> & Hs1).
    cbn [kbal] in Hk. rewrite Ef in Hk. destruct Hk as (Hfs & Hfsr & Hgr & Hgs & Hk). cbn [kred] in Hgr.
    rewrite Hgr in Hk. destruct f as [fd fa fc fi fs], g as [gd ga gc gi gs]. cbn [f_dir f_addr f_red f_info f_sib] in *.
    set (P := nodeD fd fa false fi (Node x true ix l r) fs) in *. set (U := blacken gs) in *.
    assert (En : nodeD gd ga true gi P U = Node ga true gi (if gd then P else U) (if gd then U else P)) by by destruct gd.
    assert (HbU : bal U (S n)) by (apply bal_blacken in Hgs; by rewrite Eu in Hgs).
    assert (HbP : bal P (S n)) by (apply bal_nodeD; done).
    assert (HrU : red_root U = false) by (unfold U; by destruct gs).
    assert (HrP : red_root P = false) by apply red_root_nodeD.
    rewrite En in Hs1.
    destruct (IH fuel ltac:(lia) s1 k ga gi _ _ (S n) Hs1) as (s' & E' & T' & Hs' & He & Hm).
    + simpl. by destruct gd.
    + done.
    + cbn [length] in Hf. lia.
    + exists s'. split; [done|]. exists T'. split_and!; [done| |done]. rewrite He, <- En.
      cbn [plug]. apply elems_plug_ext. unfold plug1, P, U. cbn [f_dir f_addr f_red f_info f_sib].
      destruct gd, fd; simpl; by rewrite elems_blacken.
Qed.

Lemma insert_fixup_run s k x ix l r n :
  rb_state s (plug k (Node x true ix l r)) -> bal (Node x true ix l r) n -> kbal k n ->
  (length k < fuel_of s)%nat ->
  exists s' T', insert_fixup (Some x) s = Ret (tt, s') /\ rb_state s' T' /\ rb_ok T' /\
    elems T' = elems (plug k (Node x true ix l r)).
Proof.
  intros Hs Hb Hk Hf. destruct (insert_loop_run (fuel_of s) s k x ix l r n Hs Hb Hk Hf)
    as (s1 & E1 & T1 & Hs1 & He & Hm).
  destruct (set_black_run s1 [] T1 Hs1) as (s2 & E2 & Hs2).
  exists s2, (blacken T1). split_and!; [|done| |by rewrite elems_blacken].
  - unfold insert_fixup. rewrite (M_bind_run _ _ s s s) by done. rewrite (M_bind_run _ _ _ _ _ E1).
    rewrite (M_bind_run _ _ s1 s1 (root s1)) by done. by rewrite (rs_root _ _ Hs1).
  - split; [by destruct T1|done].
Qed.

End Fixup.

(** ** Order *)

Definition before (e1 e2 : Z * info) : Prop := i_end e1.2 < i_start e2.2.
Definition proper (e : Z * info) : Prop := i_start e.2 <= i_end e.2.

(** Non-empty intervals in ascending order. *)
Fixpoint ordered (l : list (Z * info)) : Prop :=
  match l with
  | [] => True
  | e :: l => proper e /\ ordered l /\ forall e2, e2 ∈ l -> before e e2
  end.

Lemma ordered_cons e l :
  ordered (e :: l) <-> proper e /\ ordered l /\ forall e2, e2 ∈ l -> before e e2.
Proof. done. Qed.

Lemma ordered_app l1 l2 :
  ordered (l1 ++ l2) <-> ordered l1 /\ ordered l2 /\ forall e1 e2, e1 ∈ l1 -> e2 ∈ l2 -> before e1 e2.
Proof.
  induction l1 as [|e l1 IH].
  - simpl. split; [|tauto]. intros ?. split_and!; try done. intros e1 e2 Hc. by apply elem_of_nil in Hc.
  - rewrite <- app_comm_cons, !ordered_cons, IH. split.
    + intros (Hp & (Ho1 & Ho2 & H3) & H4). split_and!; try done.
      * intros e2 Hm2. apply H4. set_solver.
      * intros e1 e2 [->|Hm1]%elem_of_cons Hm2; [apply H4; set_solver|by apply H3].
    + intros ((Hp & Ho1 & H3) & Ho2 & H4). split_and!; try done.
      * intros e1 e2 Hm1 Hm2. apply H4; [set_solver|done].
      * intros e2 [Hm2|Hm2]%elem_of_app; [by apply H3|]. apply H4; [set_solver|done].
Qed.

(** The elements before and after the hole. *)
Fixpoint kpre (k : list frame) : list (Z * info) :=
  match k with
  | [] => []
  | f :: k => if f_dir f then kpre k else kpre k ++ elems (f_sib f) ++ [(f_addr f, f_info f)]
  end.
Fixpoint kpost (k : list frame) : list (Z * info) :=
  match k with
  | [] => []
  | f :: k => if f_dir f then (f_addr f, f_info f) :: elems (f_sib f) ++ kpost k else kpost k
  end.

Lemma elems_plug k t : elems (plug k t) = kpre k ++ elems t ++ kpost k.
Proof.
  revert t. induction k as [|f k IH]; intros t; [simpl; by rewrite app_nil_r|].
  cbn [plug kpre kpost]. rewrite IH. unfold plug1. destruct (f_dir f); elems_eq.
Qed.

Section Walk.
Context {X : ptr}.
Local Abbreviation rb_state := (holds X).

(** ** Bounds *)

Lemma state_size s T : rb_state s T -> (length (addrs T) <= size (nodes s))%nat.
Proof.
  intros [_ _ Hn Hd _]. rewrite <- (size_dom (nodes s)).
  assert (He : list_to_set (addrs T) ⊆@{gset Z} dom (nodes s)).
  { intros a Ha%elem_of_list_to_set. apply elem_of_dom, Hd. by left. }
  apply subseteq_size in He. by rewrite size_list_to_set in He.
Qed.

Lemma kaddrs_length k : (length k <= length (kaddrs k))%nat.
Proof. induction k as [|f k IH]; [done|]. cbn [kaddrs length]. rewrite length_app. lia. Qed.

Lemma state_fuel s k t : rb_state s (plug k t) ->
  (length k < fuel_of s)%nat /\ (length (addrs t) < fuel_of s)%nat.
Proof.
  intros Hs. pose proof (state_size _ _ Hs) as Hl. rewrite addrs_plug, length_app in Hl.
  pose proof (kaddrs_length k). unfold fuel_of. lia.
Qed.

(** ** Search *)

Fixpoint tree_search (t : tree) (key : Z) : ptr :=
  match t with
  | Leaf => None
  | Node a _ i l r =>
      if key <? i_start i then tree_search l key
      else if i_end i <? key then tree_search r key else Some a
  end.

(** Stepping down from the hole. *)
Lemma plug_left k a c i l r : plug k (Node a c i l r) = plug (Frame true a c i r :: k) l.
Proof. done. Qed.
Lemma plug_right k a c i l r : plug k (Node a c i l r) = plug (Frame false a c i l :: k) r.
Proof. done. Qed.

Lemma rd_node s k a c i l r :
  rb_state s (plug k (Node a c i l r)) ->
  rd (Some a) s = Ret (cell i c (parp k) (rootp l) (rootp r), s).
Proof. apply (rd_hole s k true). Qed.

Lemma search_loop_run fuel s k t key :
  rb_state s (plug k t) -> (length (addrs t) < fuel)%nat ->
  search_loop fuel (rootp t) key s = Ret (tree_search t key, s).
Proof.
  revert fuel k. induction t as [|a c i l IHl r IHr]; intros fuel k Hs Hf;
    (destruct fuel as [|fuel]; [lia|]); cbn [search_loop rootp]; [done|]. rewrite is_null_Some.
  rewrite (M_bind_run _ _ _ _ _ (rd_node _ _ _ _ _ _ _ Hs)). cbn [cell start end_ left right tree_search].
  cbn [addrs length] in Hf. rewrite length_app in Hf.
  destruct (key <? i_start i); [|destruct (i_end i <? key); [|done]].
  - rewrite plug_left in Hs. apply (IHl _ _ Hs). lia.
  - rewrite plug_right in Hs. apply (IHr _ _ Hs). lia.
Qed.

Lemma tree_search_spec t key a :
  ordered (elems t) ->
  tree_search t key = Some a -> exists i, (a, i) ∈ elems t /\ i_start i <= key <= i_end i.
Proof.
  induction t as [|b c i l IHl r IHr]; cbn [tree_search elems]; [done|].
  intros (Hl & (Hp & Hr & _)%ordered_cons & _)%ordered_app. unfold proper in Hp. cbn in Hp.
  destruct (Z.ltb_spec key (i_start i)); [|destruct (Z.ltb_spec (i_end i) key)].
  - intros (j & Hj & ?)%IHl; [|done]. exists j. split; [set_solver|done].
  - intros (j & Hj & ?)%IHr; [|done]. exists j. split; [set_solver|done].
  - intros [= <-]. exists i. split; [set_solver|lia].
Qed.

Lemma tree_search_complete t key a i :
  ordered (elems t) -> (a, i) ∈ elems t -> i_start i <= key <= i_end i -> tree_search t key = Some a.
Proof.
  induction t as [|b c j l IHl r IHr]; cbn [tree_search elems]; [by intros _ ?%elem_of_nil|].
  intros (Hl & (Hp & Hr & Hbr)%ordered_cons & Hbl)%ordered_app Hin Hk. unfold proper in Hp. cbn in Hp.
  apply elem_of_app in Hin as [Hin|[[= -> ->]|Hin]%elem_of_cons].
  - assert (before (a, i) (b, j)) as Hb by (apply Hbl; [done|set_solver]). unfold before in Hb. cbn in Hb.
    destruct (Z.ltb_spec key (i_start j)); [by apply IHl|lia].
  - destruct (Z.ltb_spec key (i_start j)); [lia|]. destruct (Z.ltb_spec (i_end j) key); [lia|done].
  - assert (before (b, j) (a, i)) as Hb by by apply Hbr. unfold before in Hb. cbn in Hb.
    destruct (Z.ltb_spec key (i_start j)); [lia|]. destruct (Z.ltb_spec (i_end j) key); [by apply IHr|lia].
Qed.

(** ** Validation *)

Lemma child_in_elems t a i c l r : t = Node a c i l r -> (a, i) ∈ elems t.
Proof. intros ->. simpl. set_solver. Qed.

Lemma node_validate_run s k t n :
  rb_state s (plug k t) -> ordered (elems t) -> bal t n ->
  node_validate (rootp t) s = Ret (tt, s).
Proof.
  intros Hs Ho Hb. destruct t as [|a c i l r]; [done|]. unfold node_validate. cbn [rootp]. rewrite is_null_Some.
  rewrite (M_bind_run _ _ _ _ _ (rd_node _ _ _ _ _ _ _ Hs)). cbn [cell left right start end_].
  pose proof Hs as Hl. rewrite plug_left in Hl. pose proof Hs as Hr. rewrite plug_right in Hr.
  cbn [elems] in Ho. apply ordered_app in Ho as (Hol & (Hp & Hor & Hbr)%ordered_cons & Hbl).
  rewrite (M_bind_run _ _ s s tt).
  2:{ destruct l as [|la lc li ll lr]; [done|]. cbn [rootp]. rewrite is_null_Some.
      rewrite (M_bind_run _ _ _ _ _ (rd_node _ _ _ _ _ _ _ Hl)). cbn [cell end_ parent parp f_addr].
      assert (Hlt : before (la, li) (a, i)) by (apply Hbl; [by eapply child_in_elems|set_solver]).
      unfold before in Hlt. cbn in Hlt.
      rewrite (proj2 (Z.ltb_lt _ _)) by done. rewrite (M_bind_run _ _ s s tt) by done.
      by rewrite ptr_eq_true. }
  rewrite (M_bind_run _ _ s s tt).
  2:{ destruct r as [|ra rc ri rl rr]; [done|]. cbn [rootp]. rewrite is_null_Some.
      rewrite (M_bind_run _ _ _ _ _ (rd_node _ _ _ _ _ _ _ Hr)). cbn [cell start parent parp f_addr].
      assert (Hlt : before (a, i) (ra, ri)) by (apply Hbr; by eapply child_in_elems).
      unfold before in Hlt. cbn in Hlt.
      rewrite (proj2 (Z.ltb_lt _ _)) by done. rewrite (M_bind_run _ _ s s tt) by done.
      by rewrite ptr_eq_true. }
  assert (Hred : c = true -> red_root l = false /\ red_root r = false).
  { intros ->. destruct Hb as (_ & _ & ? & ?). done. }
  assert (Hand : forall u k', rb_state s (plug k' u) -> (c = true -> red_root u = false) ->
    andM (is_red (Some a)) (is_red (rootp u)) s = Ret (false, s)).
  { intros u k' Hu Hc. unfold andM. rewrite (M_bind_run _ _ _ _ _ (is_red_run s k (Node a c i l r) Hs)).
    cbn [red_root]. destruct c; [|done]. by rewrite (is_red_run _ _ _ Hu), Hc. }
  rewrite (M_bind_run _ _ _ _ _ (Hand l _ Hl ltac:(intros; by apply Hred))).
  rewrite (M_bind_run _ _ s s tt) by done.
  by rewrite (M_bind_run _ _ _ _ _ (Hand r _ Hr ltac:(intros; by apply Hred))).
Qed.

Lemma tree_validate_run fuel s k t n :
  rb_state s (plug k t) -> ordered (elems t) -> bal t n -> (length (addrs t) < fuel)%nat ->
  tree_validate fuel (rootp t) None s = Ret ((Z.of_nat n, None), s).
Proof.
  revert fuel k n. induction t as [|a c i l IHl r IHr]; intros fuel k n Hs Ho Hb Hf;
    (destruct fuel as [|fuel]; [lia|]); cbn [tree_validate rootp].
  - simpl in Hb. by subst n.
  - rewrite is_null_Some. cbn [is_null]. change (negb (is_null None)) with false. cbv iota.
    rewrite (M_bind_run _ _ _ _ _ (node_validate_run s k (Node a c i l r) n Hs Ho Hb)).
    rewrite (M_bind_run _ _ _ _ _ (rd_node _ _ _ _ _ _ _ Hs)). cbn [cell left right].
    cbn [addrs length] in Hf. rewrite length_app in Hf.
    cbn [elems] in Ho. apply ordered_app in Ho as (Hol & (Hp & Hor & Hbr)%ordered_cons & Hbl).
    pose proof Hs as Hl. rewrite plug_left in Hl. pose proof Hs as Hr. rewrite plug_right in Hr.
    assert (Hb' : exists m, bal l m /\ bal r m /\ n = if c then m else S m).
    { destruct c; [exists n; simpl in Hb; tauto|]. destruct n as [|m]; [done|]. exists m. simpl in Hb. tauto. }
    destruct Hb' as (m & Hbl' & Hbr' & ->).
    rewrite (M_bind_run _ _ _ _ _ (IHl fuel _ m Hl Hol Hbl' ltac:(lia))). cbv beta iota.
    rewrite (proj2 (Z.ltb_ge _ _)) by lia.
    rewrite (M_bind_run _ _ _ _ _ (IHr fuel _ m Hr Hor Hbr' ltac:(lia))). cbv beta iota.
    rewrite (proj2 (Z.ltb_ge _ _)) by lia. rewrite Z.eqb_refl. cbn [negb].
    pose proof (is_black_run s k (Node a c i l r) Hs) as Eb. cbn [rootp red_root] in Eb.
    rewrite (M_bind_run _ _ _ _ _ Eb).
    destruct c; cbn [negb]; unfold mret, M_ret; do 3 f_equal; lia.
Qed.

Lemma rb_tree_validate_run s T :
  rb_state s T -> rb_ok T -> ordered (elems T) -> rb_tree_validate s = Ret (tt, s).
Proof.
  intros Hs [Hr [n Hn]] Ho. unfold rb_tree_validate. rewrite (M_bind_run _ _ s s s) by done.
  rewrite (rs_root _ _ Hs). destruct (is_null (rootp T)); [done|].
  rewrite (M_bind_run _ _ _ _ _ (is_black_run s [] T Hs)), Hr. rewrite (M_bind_run _ _ s s tt) by done.
  rewrite (M_bind_run _ _ _ _ _ (tree_validate_run (fuel_of s) s [] T n Hs Ho Hn (proj2 (state_fuel s [] T Hs)))).
  cbv beta iota. by rewrite (proj2 (Z.ltb_ge _ _)) by lia.
Qed.

End Walk.

Abbreviation rb_state := (holds None).

(** ** The place of a new interval *)

Definition fits_at (k : list frame) (st en : Z) : Prop :=
  (forall e, e ∈ kpre k -> i_end e.2 < st) /\ (forall e, e ∈ kpost k -> en < i_start e.2).

Lemma insert_descend_run fuel s k t st en :
  rb_state s (plug k t) -> ordered (elems (plug k t)) -> st <= en -> fits_at k st en ->
  (length (addrs t) < fuel)%nat ->
  (insert_descend fuel (rootp t) (parp k) st en s = Ret (None, s) /\
   exists e, e ∈ elems t /\ st <= i_end e.2 /\ i_start e.2 <= en) \/
  (exists k', insert_descend fuel (rootp t) (parp k) st en s = Ret (Some (parp k'), s) /\
     plug k' Leaf = plug k t /\ fits_at k' st en).
Proof.
  revert fuel k. induction t as [|a c i l IHl r IHr]; intros fuel k Hs Ho Hse Hk Hf;
    (destruct fuel as [|fuel]; [lia|]); cbn [insert_descend rootp].
  - right. exists k. done.
  - rewrite is_null_Some, (M_bind_run _ _ _ _ _ (rd_node _ _ _ _ _ _ _ Hs)). cbn [cell left right start end_].
    cbn [addrs length] in Hf. rewrite length_app in Hf.
    assert (Hel : ordered (elems (Node a c i l r))).
    { rewrite elems_plug in Ho. apply ordered_app in Ho as (_ & Ho & _). by apply ordered_app in Ho as (Ho & _). }
    cbn [elems] in Hel. apply ordered_app in Hel as (Hol & (Hp & Hor & Hbr)%ordered_cons & Hbl).
    unfold proper in Hp. cbn in Hp.
    destruct (Z.ltb_spec (i_end i) st); [|destruct (Z.ltb_spec en (i_start i))].
    + pose proof Hs as Hr. rewrite plug_right in Hr.
      destruct (IHr fuel (Frame false a c i l :: k)) as [[E (e & He & ?)]|(k' & E & Ek & Hk')];
        [done|done|done| |lia| |].
      * destruct Hk as [Hk1 Hk2]. split; cbn [kpre kpost f_dir f_sib f_addr f_info]; [|done].
        intros e [He|[He| ->%list_elem_of_singleton]%elem_of_app]%elem_of_app; [by apply Hk1| |done].
        assert (before e (a, i)) as Hb by (apply Hbl; [done|set_solver]). unfold before in Hb. cbn in Hb. lia.
      * left. split; [done|]. exists e. split; [|done]. simpl. set_solver.
      * right. exists k'. done.
    + pose proof Hs as Hl. rewrite plug_left in Hl.
      destruct (IHl fuel (Frame true a c i r :: k)) as [[E (e & He & ?)]|(k' & E & Ek & Hk')];
        [done|done|done| |lia| |].
      * destruct Hk as [Hk1 Hk2]. split; cbn [kpre kpost f_dir f_sib f_addr f_info]; [done|].
        intros e [->|[He|He]%elem_of_app]%elem_of_cons; [done| |by apply Hk2].
        assert (before (a, i) e) as Hb by by apply Hbr. unfold before in Hb. cbn in Hb. lia.
      * left. split; [done|]. exists e. split; [|done]. simpl. set_solver.
      * right. exists k'. done.
    + left. split; [done|]. exists (a, i). split; [simpl; set_solver|]. cbn. lia.
Qed.

(** ** Linking a new node *)

Definition linked_state (k : list frame) (a : Z) (i : info) (tot : Z) (s : rb_tree) : rb_tree :=
  set_top k (Some a) (RbTree (<[a := cell i true (parp k) None None]> (nodes s)) (root s) tot).

Lemma link_state s k a i tot :
  rb_state s (plug k Leaf) -> nodes s !! a = None ->
  rb_state (linked_state k a i tot s) (plug k (Node a true i Leaf Leaf)).
Proof.
  intros Hs Ha. pose proof (state_nodup _ _ _ Hs) as Hnd. destruct Hs as [Hr Hrt Hn Hd _].
  cbn [addrs] in Hnd. rewrite app_nil_r in Hnd.
  apply rep_plug in Hr as [_ Hk]. cbn [rootp] in Hk.
  assert (Hak : a ∉ kaddrs k).
  { intros Hc. assert (is_Some (nodes s !! a)) as [n En]; [|congruence]. apply Hd. left. rewrite addrs_plug. set_solver. }
  set (s1 := RbTree (<[a := cell i true (parp k) None None]> (nodes s)) (root s) tot).
  assert (H1 : forall q, q <> a -> nodes s1 !! q = nodes s !! q).
  { intros q Hq. cbn [s1 nodes]. by rewrite lookup_insert_ne. }
  assert (Hother : forall q, q <> a -> parp k <> Some q -> nodes (linked_state k a i tot s) !! q = nodes s !! q).
  { intros q Hq Hp. unfold linked_state. fold s1. rewrite set_top_lookup. destruct k as [|f k]; [by apply H1|].
    cbn [parp] in Hp. rewrite decide_False by congruence. by apply H1. }
  assert (Hself : nodes (linked_state k a i tot s) !! a = Some (cell i true (parp k) None None)).
  { unfold linked_state. fold s1. rewrite set_top_lookup. destruct k as [|f k]; [apply lookup_insert_eq|].
    rewrite decide_False; [apply lookup_insert_eq|]. intros Hc. apply Hak. cbn [kaddrs]. set_solver. }
  split.
  - apply rep_plug. split; [done|]. cbn [rootp]. destruct k as [|f k]; [done|].
    cbn [kaddrs] in *. apply list.NoDup_cons in Hnd as [Hf Hnd].
    eapply repk_sethole; [exact Hk|done| |].
    + unfold linked_state. fold s1. rewrite set_top_lookup, decide_True by done. rewrite H1; [done|set_solver].
    + intros q Hq. apply Hother; [set_solver|]. cbn [parp]. intros [= <-]. done.
  - destruct k as [|f k]; [done|]. unfold linked_state. cbn [set_top]. rewrite upd_root. cbn [root].
    rewrite Hrt. apply root_plug_cons.
  - rewrite addrs_plug. cbn [addrs app]. apply NoDup_app. split_and!; [done| |apply NoDup_singleton].
    intros q Hq ->%list_elem_of_singleton. done.
  - intros q. rewrite addrs_plug. cbn [addrs app]. rewrite elem_of_app, list_elem_of_singleton.
    destruct (decide (q = a)) as [->|Hq]; [rewrite Hself; naive_solver|].
    assert (Ed : is_Some (nodes (linked_state k a i tot s) !! q) <-> is_Some (nodes s !! q)).
    { unfold linked_state. fold s1. rewrite set_top_lookup. destruct k as [|f k]; [by rewrite H1|].
      case_decide; rewrite ?fmap_is_Some; by rewrite H1. }
    rewrite Ed, <- Hd, addrs_plug. cbn [addrs]. rewrite app_nil_r. naive_solver.
  - done.
Qed.

(** The code that links the new node picks the side of the hole. *)
Lemma link_run s k a tot st en val :
  rb_state s (plug k Leaf) -> nodes s !! a = None -> ordered (elems (plug k Leaf)) ->
  st <= en -> fits_at k st en ->
  let i := Info tot st en val in
  let s1 := RbTree (<[a := RbNode tot st en val true (parp k) None None]> (nodes s)) (root s) (u32 (tot + 1)) in
  (if is_null (parp k) then _ ← set_root (Some a); mret true
   else
     n ← rd (Some a); p ← rd (parp k);
     if end_ n <? start p then _ ← wr (parp k) (with_left (Some a)); mret true
     else if end_ p <? start n then _ ← wr (parp k) (with_right (Some a)); mret true
     else mret false) s1 = Ret (true, linked_state k a i (u32 (tot + 1)) s).
Proof.
  intros Hs Ha Ho Hse Hk i s1. destruct k as [|f k]; [done|]. cbn [parp]. rewrite is_null_Some.
  pose proof (state_frame_cell _ _ _ _ Hs) as Ef.
  assert (Hfa : f_addr f <> a) by (intros Hc; rewrite Hc in Ef; congruence).
  assert (E1a : nodes s1 !! a = Some (RbNode tot st en val true (Some (f_addr f)) None None)) by apply lookup_insert_eq.
  assert (E1f : nodes s1 !! f_addr f = nodes s !! f_addr f) by (cbn [s1 nodes]; by rewrite lookup_insert_ne).
  rewrite <- E1f in Ef. rewrite (M_bind_run _ _ _ _ _ (rd_run _ _ _ E1a)), (M_bind_run _ _ _ _ _ (rd_run _ _ _ Ef)).
  assert (Hpr : i_start (f_info f) <= i_end (f_info f)).
  { cbn [plug] in Ho. rewrite elems_plug in Ho. apply ordered_app in Ho as (_ & Ho & _).
    apply ordered_app in Ho as (Ho & _). unfold plug1 in Ho. destruct (f_dir f); cbn [nodeD elems] in Ho.
    - by apply ordered_app in Ho as (_ & (Hp & _)%ordered_cons & _).
    - by apply ordered_app in Ho as (_ & (Hp & _)%ordered_cons & _). }
  cbn [end_ start]. destruct Hk as [Hk1 Hk2]. cbn [kpre kpost] in Hk1, Hk2. unfold linked_state.
  destruct (f_dir f) eqn:Ed; cbn [cellD cell start end_] in *.
  - specialize (Hk2 (f_addr f, f_info f) ltac:(set_solver)). cbn in Hk2.
    rewrite (proj2 (Z.ltb_lt en _)) by done. rewrite (M_bind_run _ _ _ _ _ (wr_run _ _ _ _ Ef)).
    cbn [set_top]. by rewrite Ed.
  - specialize (Hk1 (f_addr f, f_info f) ltac:(set_solver)). cbn in Hk1.
    rewrite (proj2 (Z.ltb_ge en _)) by lia. rewrite (proj2 (Z.ltb_lt _ st)) by done.
    rewrite (M_bind_run _ _ _ _ _ (wr_run _ _ _ _ Ef)). cbn [set_top]. by rewrite Ed.
Qed.

Lemma ordered_insert k e :
  ordered (kpre k ++ kpost k) -> proper e -> fits_at k (i_start e.2) (i_end e.2) ->
  ordered (kpre k ++ e :: kpost k).
Proof.
  intros (H1 & H2 & H3)%ordered_app Hp [Hk1 Hk2]. apply ordered_app. split_and!; [done| |].
  - apply ordered_cons. split_and!; [done..|]. intros e2 He2. by apply Hk2.
  - intros e1 e2 He1 [->|He2]%elem_of_cons; [by apply Hk1|by apply H3].
Qed.

Definition rb_inv (s : rb_tree) (T : tree) : Prop := rb_state s T /\ rb_ok T /\ ordered (elems T).

(** What [rb_tree_insert] promises. *)
Definition insert_post (s : rb_tree) (T : tree) (st en val : Z) (r : ptr) (s' : rb_tree) : Prop :=
  match r with
  | None => s' = s
  | Some a => exists T' pre post, rb_inv s' T' /\
      elems T = pre ++ post /\ elems T' = pre ++ (a, Info (total s) st en val) :: post
  end.

Section InsertOk.
Context `{NodeAlloc}.

Lemma rb_tree_insert_run s T tree st en val :
  rb_inv s T ->
  exists r s', rb_tree_insert tree st en val s = Ret (r, s') /\ insert_post s T st en val r s' /\
    (r = None <-> tree = None \/ en < st \/ alloc (nodes s) = None \/
       exists e, e ∈ elems T /\ st <= i_end e.2 /\ i_start e.2 <= en).
Proof.
  intros (Hs & Hok & Ho). unfold rb_tree_insert. destruct tree as [tp|].
  2:{ exists None, s. split_and!; [done..|]. split; [by left|done]. }
  rewrite is_null_Some. cbn [orb]. destruct (Z.ltb_spec en st) as [Hse|Hse].
  { exists None, s. split_and!; [done..|]. split; [by right; left|done]. }
  rewrite (M_bind_run _ _ s s s) by done.
  pose proof (insert_descend_run (fuel_of s) s [] T st en Hs Ho Hse) as Hd. rewrite <- (rs_root _ _ Hs) in Hd.
  destruct Hd as [[E He]|(k & E & Ek & Hk)].
  { split; intros e He; by apply elem_of_nil in He. }
  { apply (proj2 (state_fuel s [] T Hs)). }
  { exists None, s. rewrite (M_bind_run _ _ _ _ _ E). split_and!; [done..|]. split; [by right; right; right|done]. }
  rewrite (M_bind_run _ _ _ _ _ E). cbn [plug] in Ek. subst T.
  destruct (alloc (nodes s)) as [a|] eqn:Ea.
  2:{ exists None, s. split_and!; [done..|]. split; [by right; right; left|done]. }
  apply alloc_fresh in Ea.
  set (i := Info (total s) st en val).
  pose proof (link_state s k a i (u32 (total s + 1)) Hs Ea) as Hs2.
  set (s2 := linked_state k a i (u32 (total s + 1)) s) in *.
  destruct (plug_bal _ _ Hok) as (n & Hn & Hkn & _). simpl in Hn. subst n.
  destruct (insert_fixup_run s2 k a i Leaf Leaf 0 Hs2) as (s3 & T3 & E3 & Hs3 & Hok3 & He3); [done|done| |].
  { apply (proj1 (state_fuel s2 k _ Hs2)). }
  rewrite elems_plug in He3, Ho. cbn [elems app] in He3, Ho.
  assert (Ho3 : ordered (elems T3)) by (rewrite He3; by apply ordered_insert).
  exists (Some a), s3. split_and!.
  - rewrite (M_bind_run _ _ s (RbTree (<[a:=RbNode (total s) st en val true (parp k) None None]> (nodes s))
      (root s) (u32 (total s + 1))) tt) by done.
    rewrite (M_bind_run _ _ _ _ _ (link_run s k a (total s) st en val Hs Ea ltac:(by rewrite elems_plug) Hse Hk)).
    fold i s2. rewrite (M_bind_run _ _ _ _ _ E3).
    by rewrite (M_bind_run _ _ _ _ _ (rb_tree_validate_run _ _ Hs3 Hok3 Ho3)).
  - exists T3, (kpre k), (kpost k). split_and!; [done..| |done]. by rewrite elems_plug.
  - split; [done|]. intros [?|[?|[?|(e & He & H1 & H2)]]]; [done|lia|congruence|]. exfalso.
    rewrite elems_plug in He. cbn [elems app] in He. destruct Hk as [Hk1 Hk2].
    apply elem_of_app in He as [He|He]; [apply Hk1 in He|apply Hk2 in He]; lia.
Qed.
End InsertOk.
