(* ===== verification/RbTreeRemove.v ===== *)
(** * Red-black trees: removal

    The fix-up loop of [rb_tree_remove] and the unlinking of a node: the
    loop restores the balance around a hole that is one black node short,
    and the unlinking moves the in-order successor into the place of a node
    with two children, pointer by pointer as the code does. *)

From stdpp Require Import base numbers list gmap.
From Stdlib Require Import ZArith Lia.
From S2P Require Import Prelude RbTree RbTreeRep RbTreeOk.

Open Scope Z_scope.

Section RemoveFixup.
Context {X : ptr}.
Local Abbreviation rb_state := (holds X).

(** ** The loop body, both mirror images at once *)

Definition childD (d : bool) (n : rb_node) : ptr := if d then left n else right n.

Definition rem_sib (d : bool) (par nodey : ptr) : M rb_tree ptr :=
  yred ← is_red nodey;
  if yred : bool then
    _ ← set_black nodey; _ ← set_red par; _ ← rotate d par;
    p ← rd par; mret (childD (negb d) p)
  else mret nodey.

Definition rem_both (nodey : ptr) : M rb_tree bool :=
  if is_null nodey then mret true
  else y ← rd nodey; andM (is_black (left y)) (is_black (right y)).

Definition rem_near (d : bool) (par nodey : ptr) (y : rb_node) : M rb_tree ptr :=
  inner ← andM (is_red (childD d y)) (is_black (childD (negb d) y));
  if inner : bool then
    _ ← set_red nodey; y ← rd nodey; _ ← set_black (childD d y);
    _ ← rotate (negb d) nodey;
    p ← rd par; mret (childD (negb d) p)
  else mret nodey.

Definition rem_far (d : bool) (par nodey : ptr) : M rb_tree ptr :=
  p ← rd par; _ ← wr nodey (with_red (red p));
  _ ← set_black par;
  y ← rd nodey; _ ← set_black (childD (negb d) y);
  _ ← rotate d par;
  get_root.

Definition rem_rest (d : bool) (par nodey : ptr) : M rb_tree ptr :=
  both ← rem_both nodey;
  if both : bool then _ ← set_red nodey; mret par
  else
    y ← rd nodey;
    nodey ← rem_near d par nodey y;
    rem_far d par nodey.

(** The body by its mirror image, glued along [rem_near]. *)
Definition rem_body (d : bool) (par : ptr) (p : rb_node) : M rb_tree ptr :=
  nodey ← rem_sib d par (childD (negb d) p);
  rem_rest d par nodey.

Lemma andM_run a b s x y :
  a s = Ret (x, s) -> b s = Ret (y, s) -> andM a b s = Ret (x && y, s).
Proof. intros Ea Eb. unfold andM. rewrite (M_bind_run _ _ _ _ _ Ea). by destruct x. Qed.

(** Both children of the node in the hole. *)
Lemma near_state s k d a c i l r :
  rb_state s (plug k (nodeD d a c i l r)) -> rb_state s (plug (Frame d a c i r :: k) l).
Proof. done. Qed.
Lemma far_state s k d a c i l r :
  rb_state s (plug k (nodeD d a c i l r)) <-> rb_state s (plug (Frame (negb d) a c i l :: k) r).
Proof. by rewrite <- plug_swap. Qed.

Lemma childD_near d i c par s t : childD d (cellD d i c par s t) = s.
Proof. by destruct d. Qed.
Lemma childD_far d i c par s t : childD (negb d) (cellD d i c par s t) = t.
Proof. by destruct d. Qed.

Lemma set_red_node s k d a c i l r :
  rb_state s (plug k (nodeD d a c i l r)) ->
  exists s', set_red (Some a) s = Ret (tt, s') /\ rb_state s' (plug k (nodeD d a true i l r)).
Proof.
  intros (s' & E & Hs')%set_red_run. rewrite rootp_nodeD in E. rewrite redden_nodeD in Hs'. eauto.
Qed.
Lemma set_black_node s k d a c i l r :
  rb_state s (plug k (nodeD d a c i l r)) ->
  exists s', set_black (Some a) s = Ret (tt, s') /\ rb_state s' (plug k (nodeD d a false i l r)).
Proof.
  intros (s' & E & Hs')%set_black_run. rewrite rootp_nodeD in E. rewrite blacken_nodeD in Hs'. eauto.
Qed.

(** ** The cases *)

(** A red sibling: rotate it above the parent. *)
Lemma rem_sib_red s k d p ip t w iw Wn Wf :
  rb_state s (plug k (nodeD d p false ip t (nodeD d w true iw Wn Wf))) ->
  exists s1, rem_sib d (Some p) (Some w) s = Ret (rootp Wn, s1) /\
    rb_state s1 (plug (Frame d w false iw Wf :: k) (nodeD d p true ip t Wn)).
Proof.
  intros Hs. pose proof Hs as Hw. apply far_state in Hw.
  pose proof (is_red_run _ _ _ Hw) as Er. rewrite rootp_nodeD, red_root_nodeD in Er.
  apply set_black_node in Hw as (s1 & E1 & H1). apply far_state in H1.
  apply set_red_node in H1 as (s2 & E2 & H2).
  apply rotate_run in H2 as (s3 & E3 & H3 & _). exists s3. split; [|done].
  unfold rem_sib. rewrite (M_bind_run _ _ _ _ _ Er), (M_bind_run _ _ _ _ _ E1).
  rewrite (M_bind_run _ _ _ _ _ E2), (M_bind_run _ _ _ _ _ E3).
  apply near_state in H3. rewrite (M_bind_run _ _ _ _ _ (rd_hole _ _ _ _ _ _ _ _ H3)).
  by rewrite childD_far.
Qed.

Lemma rem_sib_black s k d p cp ip t W :
  rb_state s (plug k (nodeD d p cp ip t W)) -> red_root W = false ->
  rem_sib d (Some p) (rootp W) s = Ret (rootp W, s).
Proof.
  intros Hs Hr. apply far_state, is_red_run in Hs. unfold rem_sib.
  by rewrite (M_bind_run _ _ _ _ _ Hs), Hr.
Qed.

Lemma rem_both_run s k d w c iw Wn Wf :
  rb_state s (plug k (nodeD d w c iw Wn Wf)) ->
  rem_both (Some w) s = Ret (negb (red_root Wn) && negb (red_root Wf), s).
Proof.
  intros Hs. unfold rem_both. rewrite is_null_Some, (M_bind_run _ _ _ _ _ (rd_hole _ _ _ _ _ _ _ _ Hs)).
  pose proof (is_black_run _ _ _ (near_state _ _ _ _ _ _ _ _ Hs)) as En.
  pose proof (is_black_run _ _ _ (proj1 (far_state _ _ _ _ _ _ _ _) Hs)) as Ef.
  destruct d; cbn [cellD cell left right]; [apply (andM_run _ _ _ _ _ En Ef)|].
  rewrite andb_comm. apply (andM_run _ _ _ _ _ Ef En).
Qed.

(** The near nephew red, the far one black: rotate at the sibling. *)
Lemma rem_near_run s k d p cp ip t w iw v iv Va Vb Wf :
  rb_state s (plug k (nodeD d p cp ip t (nodeD d w false iw (nodeD d v true iv Va Vb) Wf))) ->
  red_root Wf = false ->
  exists s1, (y ← rd (Some w); rem_near d (Some p) (Some w) y) s = Ret (Some v, s1) /\
    rb_state s1 (plug k (nodeD d p cp ip t (nodeD d v false iv Va (nodeD d w true iw Vb Wf)))).
Proof.
  intros Hs Hf. pose proof Hs as Hw. apply far_state in Hw.
  pose proof (rd_hole _ _ _ _ _ _ _ _ Hw) as Ew. rewrite rootp_nodeD in Ew.
  pose proof (is_red_run _ _ _ (near_state _ _ _ _ _ _ _ _ Hw)) as Er. rewrite rootp_nodeD, red_root_nodeD in Er.
  pose proof (is_black_run _ _ _ (proj1 (far_state _ _ _ _ _ _ _ _) Hw)) as Eb. rewrite Hf in Eb.
  apply set_red_node in Hw as (s1 & E1 & H1). pose proof (rd_hole _ _ _ _ _ _ _ _ H1) as E1w. rewrite rootp_nodeD in E1w.
  apply near_state, set_black_node in H1 as (s2 & E2 & H2).
  change (rb_state s2 (plug (Frame (negb d) p cp ip t :: k) (nodeD d w true iw (nodeD d v false iv Va Vb) Wf))) in H2.
  rewrite (nodeD_swap d w), (nodeD_swap d v) in H2. apply rotate_run in H2 as (s3 & E3 & H3 & _).
  rewrite <- (nodeD_swap d w), <- (nodeD_swap d v) in H3. apply far_state in H3. exists s3. split; [|done].
  rewrite (M_bind_run _ _ _ _ _ Ew). unfold rem_near. rewrite childD_near, childD_far.
  rewrite (M_bind_run _ _ _ _ _ (andM_run _ _ _ _ _ Er Eb)). cbn [andb negb].
  rewrite (M_bind_run _ _ _ _ _ E1), (M_bind_run _ _ _ _ _ E1w), childD_near.
  rewrite (M_bind_run _ _ _ _ _ E2), (M_bind_run _ _ _ _ _ E3).
  rewrite (M_bind_run _ _ _ _ _ (rd_hole _ _ _ _ _ _ _ _ H3)), childD_far. by rewrite rootp_nodeD.
Qed.

(** The far nephew red: nothing to do before the last rotation. *)
Lemma rem_near_skip s k d w c iw Wn Wf par :
  rb_state s (plug k (nodeD d w c iw Wn Wf)) -> red_root Wf = true ->
  (y ← rd (Some w); rem_near d par (Some w) y) s = Ret (Some w, s).
Proof.
  intros Hs Hf. rewrite (M_bind_run _ _ _ _ _ (rd_hole _ _ _ _ _ _ _ _ Hs)).
  pose proof (is_red_run _ _ _ (near_state _ _ _ _ _ _ _ _ Hs)) as Er.
  pose proof (is_black_run _ _ _ (proj1 (far_state _ _ _ _ _ _ _ _) Hs)) as Eb. rewrite Hf in Eb.
  unfold rem_near. rewrite childD_near, childD_far, (M_bind_run _ _ _ _ _ (andM_run _ _ _ _ _ Er Eb)).
  by rewrite andb_false_r.
Qed.

Lemma rem_far_run s k d p cp ip t w iw Wn Wf :
  rb_state s (plug k (nodeD d p cp ip t (nodeD d w false iw Wn Wf))) ->
  exists s1 T1, rem_far d (Some p) (Some w) s = Ret (rootp T1, s1) /\ rb_state s1 T1 /\
    T1 = plug k (nodeD d w cp iw (nodeD d p false ip t Wn) (blacken Wf)).
Proof.
  intros Hs. pose proof (rd_hole _ _ _ _ _ _ _ _ Hs) as Ep.
  assert (Ec : red (cellD d ip cp (parp k) (rootp t) (rootp (nodeD d w false iw Wn Wf))) = cp) by by destruct d.
  apply far_state in Hs. destruct (recolor _ _ _ _ _ cp _ _ _ Hs) as [E1 H1].
  set (s1 := upd (with_red cp) w s) in *. apply far_state in H1.
  apply set_black_node in H1 as (s2 & E2 & H2). pose proof H2 as H2w. apply far_state in H2w.
  pose proof (rd_hole _ _ _ _ _ _ _ _ H2w) as E2w.
  apply (proj1 (far_state _ _ _ _ _ _ _ _)), set_black_run in H2w as (s3 & E3 & H3).
  apply (proj2 (far_state _ _ _ _ _ _ _ _)), (proj2 (far_state _ _ _ _ _ _ _ _)) in H3. apply rotate_run in H3 as (s4 & E4 & H4 & _).
  exists s4. eexists. split_and!; [|exact H4|done].
  unfold rem_far. rewrite (M_bind_run _ _ _ _ _ Ep), Ec, (M_bind_run _ _ _ _ _ E1).
  rewrite (M_bind_run _ _ _ _ _ E2), (M_bind_run _ _ _ _ _ E2w), childD_far.
  rewrite (M_bind_run _ _ _ _ _ E3), (M_bind_run _ _ _ _ _ E4). unfold get_root. by rewrite (rs_root _ _ H4).
Qed.


(** ** One pass through the loop *)

Lemma remove_guard s k t :
  rb_state s (plug k t) ->
  andM (mret (negb (ptr_eq (rootp t) (root s)))) (is_black (rootp t)) s
    = Ret (match k with [] => false | _ => negb (red_root t) end, s).
Proof.
  intros Hs. erewrite andM_run; [|done|by eapply is_black_run].
  destruct k as [|f k]; [by rewrite (rs_root _ _ Hs), ptr_eq_true|].
  rewrite ptr_eq_false; [done|]. destruct (rootp t) as [x|] eqn:Ex.
  - intros Hc. symmetry in Hc. by apply (hole_is_root _ _ _ _ Hs Ex) in Hc.
  - rewrite (rs_root _ _ Hs). by destruct (root_plug_in f k t) as (a & -> & _).
Qed.

Lemma remove_exit fuel s k t par :
  rb_state s (plug k t) -> k = [] \/ red_root t = true ->
  remove_fixup_loop (S fuel) par (rootp t) s = Ret (rootp t, s).
Proof.
  intros Hs Hk. cbn [remove_fixup_loop]. rewrite (M_bind_run _ _ s s (root s)) by done.
  rewrite (M_bind_run _ _ _ _ _ (remove_guard _ _ _ Hs)). destruct k; [done|].
  destruct Hk as [?| ->]; done.
Qed.

Lemma remove_enter fuel s d p cp ip W k t :
  rb_state s (plug (Frame d p cp ip W :: k) t) -> red_root t = false -> W <> Leaf ->
  remove_fixup_loop (S fuel) (Some p) (rootp t) s =
    (nodex ← rem_body d (Some p) (cellD d ip cp (parp k) (rootp t) (rootp W));
     par ← parent_of nodex; remove_fixup_loop fuel par nodex) s.
Proof.
  intros Hs Hr HW. cbn [remove_fixup_loop]. rewrite (M_bind_run _ _ s s (root s)) by done.
  rewrite (M_bind_run _ _ _ _ _ (remove_guard _ _ _ Hs)), Hr. cbn [negb].
  rewrite is_null_Some, andb_false_r. rewrite (M_bind_run _ _ s s tt) by done.
  rewrite (M_bind_run _ _ _ _ _ (rd_frame _ _ _ _ Hs)). cbn [f_dir f_info f_red f_sib].
  assert (Hne : rootp t <> rootp W).
  { destruct (rootp t) as [x|] eqn:Ex; [|by destruct W]. intros Hc. symmetry in Hc.
    by apply (hole_ne_sib _ _ _ _ _ Hs Ex). }
  assert (Ed : ptr_eq (rootp t) (left (cellD d ip cp (parp k) (rootp t) (rootp W))) = d).
  { destruct d; [by apply ptr_eq_true|by apply ptr_eq_false]. }
  rewrite Ed. apply M_bind_eq. unfold rem_body, rem_sib.
  destruct d; rewrite M_bind_assoc; apply M_bind_ext; intros yred s1; apply M_bind_ext; intros nodey s2;
    (apply M_bind_ext; intros [|] s3; [done|]); (apply M_bind_ext; intros y s4);
    unfold rem_near; rewrite M_bind_assoc; apply M_bind_ext; done.
Qed.

(** The hole is one black node short, unless its root is red. *)
Definition short (t : tree) (n : nat) : Prop := bal (blacken t) (if red_root t then S n else n).

(** What a pass leaves: a hole further up, or one where the loop stops. *)
Definition rem_post (T : tree) (m : option nat) (nodex : ptr) (s : rb_tree) : Prop :=
  exists k t n, nodex = rootp t /\ t <> Leaf /\ rb_state s (plug k t) /\ elems (plug k t) = elems T /\
    short t n /\ kbal k (S n) /\ (k = [] \/ red_root t = true \/ m = Some (length k)).

Lemma rem_post_root s T T0 m : rb_state s T -> T <> Leaf -> elems T = elems T0 -> rb_ok T -> rem_post T0 m (rootp T) s.
Proof.
  intros Hs HT He [Hr [n Hn]]. exists [], T, n. split_and!; try done; [|by left].
  unfold short. by rewrite blacken_black, Hr.
Qed.

Lemma plug_not_leaf k d a c i l r : plug k (nodeD d a c i l r) <> Leaf.
Proof.
  revert d a c i l r. induction k as [|f k IH]; intros d a c i l r; [by destruct d|]. cbn [plug]. apply IH.
Qed.

Lemma black_sibling d W n : bal W (S n) -> red_root W = false ->
  exists w iw Wn Wf, W = nodeD d w false iw Wn Wf /\ bal Wn n /\ bal Wf n.
Proof.
  destruct W as [|w [] iw l r]; [done|done|]. intros [Hl Hr] _.
  destruct d; [exists w, iw, l, r|exists w, iw, r, l]; done.
Qed.

Lemma elems_nodeD_ext d a c a' c' i s t t' :
  elems t = elems t' -> a = a' -> elems (nodeD d a c i s t) = elems (nodeD d a' c' i s t').
Proof. intros E ->. destruct d; simpl; by rewrite E. Qed.

(** The last case, once the far nephew is red. *)
Lemma rem_far_post s k d p cp ip t w iw Wn Wf n T m :
  rb_state s (plug k (nodeD d p cp ip t (nodeD d w false iw Wn Wf))) ->
  elems (plug k (nodeD d p cp ip t (nodeD d w false iw Wn Wf))) = elems T ->
  bal t n -> bal Wn n -> bal Wf n -> red_root Wf = true ->
  (if cp then kred k = false /\ kbal k (S n) else kbal k (S (S n))) ->
  exists x s1, rem_far d (Some p) (Some w) s = Ret (x, s1) /\ rem_post T m x s1.
Proof.
  intros Hs HT Ht Hn Hf Hfr Hk. destruct (rem_far_run _ _ _ _ _ _ _ _ _ _ _ Hs) as (s1 & T1 & E1 & H1 & ET).
  exists (rootp T1), s1. split; [done|]. apply bal_blacken in Hf. rewrite Hfr in Hf.
  apply rem_post_root; [done| | |].
  - rewrite ET. apply plug_not_leaf.
  - rewrite <- HT, ET. apply elems_plug_ext. destruct d; simpl; rewrite elems_blacken; elems_eq.
  - rewrite ET. destruct cp.
    + destruct Hk as [Hkr Hk]. apply (bal_plug _ _ (S n)); [|done|done]. apply bal_nodeD.
      split_and!; [by apply bal_nodeD|done|apply red_root_nodeD|by destruct Wf].
    + apply (bal_plug _ _ (S (S n))); [|done|by rewrite red_root_nodeD]. apply bal_nodeD.
      split; [by apply bal_nodeD|done].
Qed.

(** Everything but the red sibling. *)
Lemma rem_rest_run s k d p cp ip t W n :
  rb_state s (plug k (nodeD d p cp ip t W)) -> bal t n -> bal W (S n) -> red_root W = false ->
  red_root t = false ->
  (if cp then kred k = false /\ kbal k (S n) else kbal k (S (S n))) ->
  exists x s1, rem_rest d (Some p) (rootp W) s = Ret (x, s1) /\
    rem_post (plug k (nodeD d p cp ip t W)) (if cp then None else Some (length k)) x s1.
Proof.
  intros Hs Ht HW Hr Htr Hk. destruct (black_sibling d W n HW Hr) as (w & iw & Wn & Wf & -> & Hn & Hf).
  rewrite rootp_nodeD. unfold rem_rest. pose proof (proj1 (far_state _ _ _ _ _ _ _ _) Hs) as Hsw.
  rewrite (M_bind_run _ _ _ _ _ (rem_both_run _ _ _ _ _ _ _ _ Hsw)).
  destruct (red_root Wf) eqn:Ef; [|destruct (red_root Wn) eqn:En].
  - rewrite andb_false_r, <- M_bind_assoc.
    rewrite (M_bind_run _ _ _ _ _ (rem_near_skip _ _ _ _ _ _ _ _ _ Hsw Ef)).
    by eapply rem_far_post.
  - cbn [negb andb]. rewrite <- M_bind_assoc.
    assert (EW : exists v iv Va Vb, Wn = nodeD d v true iv Va Vb).
    { destruct Wn as [|v [] iv a b]; [done| |done].
      destruct d; [exists v, iv, a, b|exists v, iv, b, a]; done. }
    destruct EW as (v & iv & Va & Vb & ->). apply bal_nodeD in Hn as (Ha & Hb & _ & Hbr).
    destruct (rem_near_run _ _ _ _ _ _ _ _ _ _ _ _ _ _ Hs Ef) as (s1 & E1 & H1).
    rewrite (M_bind_run _ _ _ _ _ E1). eapply rem_far_post; [exact H1| |done|exact Ha| | |exact Hk].
    + apply elems_plug_ext. destruct d; elems_eq.
    + by apply bal_nodeD.
    + apply red_root_nodeD.
  - cbn [negb andb]. destruct (set_red_node _ _ _ _ _ _ _ _ Hsw) as (s1 & E1 & H1).
    exists (Some p), s1. rewrite (M_bind_run _ _ _ _ _ E1). split; [done|]. apply far_state in H1.
    exists k, (nodeD d p cp ip t (nodeD d w true iw Wn Wf)), (if cp then n else S n).
    split_and!; [by rewrite rootp_nodeD|by destruct d|done| | | |].
    + apply elems_plug_ext, elems_nodeD_ext; [apply elems_recolor|done].
    + unfold short. rewrite blacken_nodeD, red_root_nodeD. destruct cp; (apply bal_nodeD; split; [done|by apply bal_nodeD]).
    + by destruct cp; [destruct Hk|].
    + right. destruct cp; [left; apply red_root_nodeD|by right].
Qed.

Lemma rem_body_run s d p cp ip W k t n :
  rb_state s (plug (Frame d p cp ip W :: k) t) -> bal t n -> red_root t = false ->
  kbal (Frame d p cp ip W :: k) (S n) ->
  exists x s1, rem_body d (Some p) (cellD d ip cp (parp k) (rootp t) (rootp W)) s = Ret (x, s1) /\
    rem_post (plug (Frame d p cp ip W :: k) t) (Some (length k)) x s1.
Proof.
  intros Hs Ht Htr (HW & Hk). cbn [f_sib f_red] in HW, Hk. unfold rem_body. rewrite childD_far.
  destruct (red_root W) eqn:EW.
  - destruct W as [|w [] iw l r]; [done| |done]. destruct cp; [by destruct Hk|].
    set (Wn := if d then l else r). set (Wf := if d then r else l).
    assert (E : Node w true iw l r = nodeD d w true iw Wn Wf) by by destruct d.
    rewrite E in *. apply bal_nodeD in HW as (Hn & Hf & Hnr & Hfr). rewrite rootp_nodeD.
    destruct (rem_sib_red _ _ _ _ _ _ _ _ _ _ Hs) as (s1 & E1 & H1). rewrite (M_bind_run _ _ _ _ _ E1).
    destruct (rem_rest_run _ _ _ _ _ _ _ _ n H1 Ht Hn Hnr Htr ltac:(done)) as (x & s2 & E2 & k' & t' & n' & Hx & Hl & H2 & He & Hsh & Hk' & Hstop).
    exists x, s2. split; [done|]. exists k', t', n'. split_and!; try done.
    + rewrite He. cbn [plug]. apply elems_plug_ext. unfold plug1. cbn [f_dir f_addr f_red f_info f_sib].
      destruct d; elems_eq.
    + destruct Hstop as [?|[?|?]]; [by left|by right; left|done].
  - rewrite (M_bind_run _ _ _ _ _ (rem_sib_black _ _ _ _ _ _ _ _ Hs EW)).
    destruct (rem_rest_run _ _ _ _ _ _ _ _ n Hs Ht HW EW Htr) as (x & s2 & E2 & Hp).
    { by destruct cp; [destruct Hk as (_ & ? & ?)|]. }
    exists x, s2. split; [done|]. destruct Hp as (k' & t' & n' & Hx & Hl & H2 & He & Hsh & Hk' & Hstop).
    exists k', t', n'. split_and!; try done. destruct Hstop as [?|[?|?]]; [by left|by right; left|right; right].
    by destruct cp.
Qed.

(** ** The loop *)

Lemma short_stop k t n :
  short t n -> kbal k (S n) -> k = [] \/ red_root t = true -> rb_ok (plug k (blacken t)).
Proof.
  intros Ht Hk Hs. assert (Hb : red_root (blacken t) = false) by by destruct t. unfold short in Ht.
  destruct Hs as [->|Hr].
  - split; [done|]. by eexists.
  - rewrite Hr in Ht. eapply bal_plug; [done|done|congruence].
Qed.

Lemma remove_loop_run fuel s k t n :
  rb_state s (plug k t) -> short t n -> kbal k (S n) -> (length k < fuel)%nat ->
  exists k' t' s', remove_fixup_loop fuel (parp k) (rootp t) s = Ret (rootp t', s') /\
    rb_state s' (plug k' t') /\ elems (plug k' t') = elems (plug k t) /\ rb_ok (plug k' (blacken t')).
Proof.
  revert s k t n. induction fuel as [|fuel IH]; intros s k t n Hs Ht Hk Hf; [lia|].
  assert (Hstop : (k = [] \/ red_root t = true) \/ (k <> [] /\ red_root t = false)).
  { destruct k; [by left; left|]. destruct (red_root t); [by left; right|by right]. }
  destruct Hstop as [Hstop|[Hne Hr]].
  { exists k, t, s. split_and!; [by eapply remove_exit|done|done|by eapply short_stop]. }
  destruct k as [|[d p cp ip W] k]; [done|]. cbn [parp f_addr length] in *.
  assert (Hb : bal t n) by (unfold short in Ht; by rewrite blacken_black, Hr in Ht).
  rewrite (remove_enter fuel _ _ _ _ _ _ _ _ Hs Hr).
  2:{ intros ->. destruct Hk as [Hk _]. done. }
  destruct (rem_body_run _ _ _ _ _ _ _ _ _ Hs Hb Hr Hk)
    as (x & s1 & E1 & k1 & t1 & n1 & -> & Hl & H1 & He & Ht1 & Hk1 & Hst).
  rewrite (M_bind_run _ _ _ _ _ E1). destruct (rootp t1) as [a|] eqn:Ea; [|by destruct t1].
  rewrite (M_bind_run _ _ _ _ _ (parent_of_run _ _ _ _ H1 Ea)), <- Ea.
  assert (Hlt : exists k' t' s', remove_fixup_loop fuel (parp k1) (rootp t1) s1 = Ret (rootp t', s') /\
    rb_state s' (plug k' t') /\ elems (plug k' t') = elems (plug k1 t1) /\ rb_ok (plug k' (blacken t'))).
  { destruct Hst as [Hst|[Hst|[= Hst]]]; [| |apply (IH s1 k1 t1 n1); [done..|lia]];
      (destruct fuel as [|fuel]; [lia|]; exists k1, t1, s1; split_and!;
       [eapply remove_exit; [done|tauto]|done|done|eapply short_stop; [done|done|tauto]]). }
  destruct Hlt as (k' & t' & s' & E & H' & He' & Hok). exists k', t', s'. rewrite He', He. done.
Qed.

Lemma remove_fixup_run s k t n :
  rb_state s (plug k t) -> short t n -> kbal k (S n) ->
  exists s' T', remove_fixup (parp k) (rootp t) s = Ret (tt, s') /\ rb_state s' T' /\ rb_ok T' /\
    elems T' = elems (plug k t).
Proof.
  intros Hs Ht Hk.
  destruct (remove_loop_run (fuel_of s) s k t n Hs Ht Hk (proj1 (state_fuel _ _ _ Hs)))
    as (k1 & t1 & s1 & E1 & H1 & He & Hok).
  destruct (set_black_run _ _ _ H1) as (s2 & E2 & H2). exists s2, (plug k1 (blacken t1)).
  split_and!; [|done|done|].
  - unfold remove_fixup. rewrite (M_bind_run _ _ s s s) by done. by rewrite (M_bind_run _ _ _ _ _ E1).
  - rewrite <- He. apply elems_plug_ext, elems_blacken.
Qed.
End RemoveFixup.

(** ** Replacing the tree in a hole *)

Lemma replace_hole X X' s s' k t t' :
  holds X s (plug k t) ->
  rep (nodes s') (parp k) t' ->
  (forall f k', k = f :: k' -> nodes s' !! f_addr f = with_child (f_dir f) (rootp t') <$> nodes s !! f_addr f) ->
  (forall a, a ∈ kaddrs k -> parp k <> Some a -> nodes s' !! a = nodes s !! a) ->
  root s' = match k with [] => rootp t' | _ => root s end ->
  NoDup (addrs t') ->
  (forall a, a ∈ addrs t' -> a ∉ kaddrs k) ->
  (forall a, is_Some (nodes s' !! a) <-> is_Some (nodes s !! a)) ->
  (forall a, a ∈ addrs t' \/ X' = Some a <-> a ∈ addrs t \/ X = Some a) ->
  (forall a, X' = Some a -> a ∉ addrs t' /\ a ∉ kaddrs k) ->
  holds X' s' (plug k t').
Proof.
  intros Hs Ht Htop Hfr Hroot Hnt Htk Hdom Hsame HX.
  pose proof (state_nodup _ _ _ Hs) as Hnd. destruct Hs as [Hr Hrt Hn Hd Hex].
  apply rep_plug in Hr as [_ Hk]. apply NoDup_app in Hnd as (Hnk & _ & _). split.
  - apply rep_plug. split; [done|]. destruct k as [|f k]; [done|].
    cbn [kaddrs] in *. apply list.NoDup_cons in Hnk as [Hf Hnk].
    eapply repk_sethole; [exact Hk|done|by eapply Htop|].
    intros q Hq. apply Hfr; [set_solver|]. cbn [parp]. intros [= <-]. done.
  - rewrite Hroot. destruct k as [|f k]; [done|]. rewrite Hrt. apply root_plug_cons.
  - rewrite addrs_plug. apply NoDup_app. split_and!; [done| |done]. intros a Ha Hc. by apply (Htk a).
  - intros a. rewrite Hdom, <- Hd, !addrs_plug, !elem_of_app. specialize (Hsame a). tauto.
  - intros a Ha. rewrite addrs_plug, elem_of_app. destruct (HX a Ha). tauto.
Qed.

(** Redirecting the pointer to the hole, as [rb_tree_remove] does it. *)
Definition set_link (node par q : ptr) : M rb_tree unit :=
  if is_null par then set_root q
  else
    p ← rd par;
    if ptr_eq node (left p) then wr par (with_left q) else wr par (with_right q).

Lemma set_link_run s k a q :
  (forall f k', k = f :: k' -> exists c i par, nodes s !! f_addr f =
     Some (cellD (f_dir f) i c par (Some a) (rootp (f_sib f))) /\ rootp (f_sib f) <> Some a) ->
  set_link (Some a) (parp k) q s = Ret (tt, set_top k q s).
Proof.
  intros Hf. destruct k as [|f k]; [done|]. unfold set_link. cbn [parp]. rewrite is_null_Some.
  destruct (Hf f k eq_refl) as (c & i & par & Ef & Hsib).
  rewrite (M_bind_run _ _ _ _ _ (rd_run s _ _ Ef)). cbn [set_top].
  destruct (f_dir f) eqn:Ed; cbn [cellD cell left].
  - rewrite ptr_eq_true by done. by eapply wr_run.
  - rewrite ptr_eq_false by congruence. by eapply wr_run.
Qed.

Lemma reparent_run s q par : (forall a, q = Some a -> is_Some (nodes s !! a)) ->
  (if is_null q then mret tt else wr q (with_parent par)) s = Ret (tt, reparent q par s).
Proof.
  intros Hq. destruct q as [a|]; [|done]. rewrite is_null_Some.
  destruct (Hq a eq_refl) as [n En]. by eapply wr_run.
Qed.

Lemma reparent_root q par s : root (reparent q par s) = root s.
Proof. by destruct q. Qed.
Lemma reparent_dom q par s a : is_Some (nodes (reparent q par s) !! a) <-> is_Some (nodes s !! a).
Proof. destruct q; [apply upd_dom|done]. Qed.
Lemma set_top_dom k q s a : is_Some (nodes (set_top k q s) !! a) <-> is_Some (nodes s !! a).
Proof. destruct k; [done|apply upd_dom]. Qed.
Lemma set_top_root k q s : root (set_top k q s) = match k with [] => q | _ => root s end.
Proof. by destruct k. Qed.
Lemma set_top_other k q s a : parp k <> Some a -> nodes (set_top k q s) !! a = nodes s !! a.
Proof. intros Hp. rewrite set_top_lookup. destruct k; [done|]. cbn in Hp. by rewrite decide_False by congruence. Qed.
Lemma reparent_other q par s a : q <> Some a -> nodes (reparent q par s) !! a = nodes s !! a.
Proof. intros Hq. by rewrite reparent_lookup, decide_False. Qed.
Lemma upd_other f b s a : b <> a -> nodes (upd f b s) !! a = nodes s !! a.
Proof. intros Hq. by rewrite upd_lookup, decide_False. Qed.

(** ** Unlinking a node with at most one child *)

Definition unlinked (k : list frame) (x : ptr) (s : rb_tree) : rb_tree :=
  set_top k x (reparent x (parp k) s).

Lemma unlink_state s k d y c i x :
  holds None s (plug k (nodeD d y c i Leaf x)) ->
  holds (Some y) (unlinked k (rootp x) s) (plug k x) /\
  nodes (unlinked k (rootp x) s) !! y = nodes s !! y.
Proof.
  intros Hs. pose proof (state_nodup _ _ _ Hs) as Hnd. rewrite addrs_nodeD in Hnd. cbn [addrs app] in Hnd.
  apply NoDup_app in Hnd as (Nk & Nkt & Nt). apply list.NoDup_cons in Nt as [Nx Nt].
  assert (Hxk : forall a, rootp x = Some a -> parp k <> Some a).
  { intros a Ha%rootp_in Hp%parp_in. apply (Nkt a Hp). set_solver. }
  assert (Hyk : y ∉ kaddrs k) by (intros Hc; apply (Nkt y Hc); set_solver).
  assert (Ey : nodes (unlinked k (rootp x) s) !! y = nodes s !! y).
  { unfold unlinked. rewrite set_top_other, reparent_other; [done| |].
    - intros Hc%rootp_in. done.
    - intros Hc%parp_in. done. }
  split; [|done]. pose proof (rs_rep _ _ Hs) as Hr. apply rep_plug in Hr as [Hr _]. apply rep_nodeD in Hr as (_ & _ & Hr).
  eapply replace_hole; [exact Hs| | | | |done| | | |].
  - eapply rep_reparent; [exact Hr|done| |].
    + intros a Ha Hne. unfold unlinked. rewrite set_top_other, reparent_other; [done|congruence|].
      intros Hp%parp_in. apply (Nkt a Hp). set_solver.
    + intros a Ha. unfold unlinked. rewrite set_top_other, reparent_lookup, decide_True by auto. done.
  - intros f k' ->. unfold unlinked. cbn [set_top parp] in *. rewrite upd_lookup, decide_True by done.
    rewrite reparent_other; [done|]. intros Hc. by apply (Hxk _ Hc).
  - intros a Ha Hp. unfold unlinked. rewrite set_top_other by done. apply reparent_other.
    intros Hc%rootp_in. apply (Nkt a Ha). set_solver.
  - unfold unlinked. rewrite set_top_root, reparent_root. done.
  - intros a Ha Hc. apply (Nkt a Hc). set_solver.
  - intros a. unfold unlinked. by rewrite set_top_dom, reparent_dom.
  - intros a. rewrite addrs_nodeD. cbn [addrs app]. set_solver.
  - intros a [= <-]. done.
Qed.

Lemma unlink_run s k d y c i x nodey :
  holds None s (plug k (nodeD d y c i Leaf x)) -> nodey = cellD d i c (parp k) None (rootp x) ->
  let nodex := if is_null (left nodey) then right nodey else left nodey in
  nodex = rootp x /\
  (_ ← (if is_null nodex then mret tt else y ← rd (Some y); wr nodex (with_parent (parent y)));
   y' ← rd (Some y); set_link (Some y) (parent y') nodex) s = Ret (tt, unlinked k (rootp x) s).
Proof.
  intros Hs -> nodex. assert (Ex : nodex = rootp x) by (unfold nodex; destruct d, x; done).
  split; [done|]. rewrite Ex. clear nodex Ex.
  pose proof (state_cell _ _ _ _ _ _ _ _ Hs) as Ey. cbn [rootp] in Ey.
  assert (Hp : parent (cellD d i c (parp k) None (rootp x)) = parp k) by by destruct d.
  assert (Hx : forall a, rootp x = Some a -> is_Some (nodes s !! a)).
  { intros a Ha%rootp_in. apply (rs_dom _ _ Hs). left. rewrite addrs_plug, addrs_nodeD. set_solver. }
  assert (E1 : (if is_null (rootp x) then mret tt else y ← rd (Some y); wr (rootp x) (with_parent (parent y))) s
     = Ret (tt, reparent (rootp x) (parp k) s)).
  { rewrite <- (reparent_run _ _ _ Hx). destruct (is_null (rootp x)); [done|].
    by rewrite (M_bind_run _ _ _ _ _ (rd_run _ _ _ Ey)), Hp. }
  pose proof (state_nodup _ _ _ Hs) as Hnd. rewrite addrs_nodeD in Hnd. cbn [addrs app] in Hnd.
  apply NoDup_app in Hnd as (Nk & Nkt & Nt). apply list.NoDup_cons in Nt as [Nx Nt].
  rewrite (M_bind_run _ _ _ _ _ E1).
  assert (E2 : nodes (reparent (rootp x) (parp k) s) !! y = nodes s !! y).
  { apply reparent_other. intros Hc%rootp_in. done. }
  rewrite Ey in E2. rewrite (M_bind_run _ _ _ _ _ (rd_run _ _ _ E2)), Hp. apply set_link_run.
  intros f k' ->. do 3 eexists. rewrite reparent_other.
  2:{ intros Hc%rootp_in. apply (Nkt (f_addr f)); [cbn [kaddrs]|]; set_solver. }
  rewrite (state_frame_cell _ _ _ _ Hs), rootp_nodeD. split; [done|].
  intros Hc%rootp_in. apply (Nkt y); [cbn [kaddrs]|]; set_solver.
Qed.

(** ** Moving the successor into the place of the removed node *)

Definition substituted (k : list frame) (y : Z) (cz : bool) (l r : ptr) (s : rb_tree) : rb_tree :=
  reparent r (Some y) (reparent l (Some y)
    (upd (with_right r) y (upd (with_left l) y (upd (with_red cz) y
      (set_top k (Some y) (upd (with_parent (parp k)) y s)))))).

Section Substitute.
Context (s : rb_tree) (k : list frame) (z : Z) (cz : bool) (iz : info) (l r : tree).
Context (y : Z) (iy : info) (cy : bool) (py ly ry : ptr).
Context (Hs : holds (Some y) s (plug k (Node z cz iz l r))).
Context (Ey : nodes s !! y = Some (cell iy cy py ly ry)).
Let s' := substituted k y cz (rootp l) (rootp r) s.

Lemma subst_facts :
  z ∉ kaddrs k /\ y ∉ kaddrs k /\ y <> z /\ y ∉ addrs l /\ y ∉ addrs r /\ z ∉ addrs l /\ z ∉ addrs r /\
  NoDup (addrs l) /\ NoDup (addrs r) /\ (forall a, a ∈ addrs l -> a ∉ addrs r) /\
  (forall a, a ∈ kaddrs k -> a ∉ addrs l /\ a ∉ addrs r) /\
  rootp l <> Some y /\ rootp r <> Some y /\ parp k <> Some y /\ parp k <> Some z /\
  rootp l <> Some z /\ rootp r <> Some z.
Proof using Hs.
  clear s' Ey.
  pose proof (state_nodup _ _ _ Hs) as Hnd. pose proof (rs_extra _ _ Hs y eq_refl) as Hy.
  rewrite addrs_plug in Hy. cbn [addrs] in Hy, Hnd.
  apply NoDup_app in Hnd as (Nk & Nkt & Nt). apply list.NoDup_cons in Nt as [Nz Nt].
  apply NoDup_app in Nt as (Nl & Nlr & Nr).
  apply not_elem_of_app in Hy as [Hyk Hy]. apply not_elem_of_cons in Hy as [Hyz Hy].
  apply not_elem_of_app in Hy as [Hyl Hyr]. apply not_elem_of_app in Nz as [Nzl Nzr].
  assert (Hzk : z ∉ kaddrs k) by (intros Hc; apply (Nkt z Hc), elem_of_cons; by left).
  split_and!; try done; try (intros Hc%rootp_in; done); try (intros Hc%parp_in; done).
  intros a Ha. specialize (Nkt a Ha). apply not_elem_of_cons in Nkt as [_ Nkt]. by apply not_elem_of_app in Nkt.
Qed.

Lemma subst_y : nodes s' !! y = Some (cell iy cz (parp k) (rootp l) (rootp r)).
Proof using Hs Ey.
  destruct subst_facts as (_ & _ & _ & _ & _ & _ & _ & _ & _ & _ & _ & H1 & H2 & H3 & _).
  unfold s', substituted. rewrite !reparent_other by done.
  rewrite !upd_lookup, !decide_True, set_top_other, upd_lookup, decide_True, Ey by done. done.
Qed.

Lemma subst_other a : a <> y -> rootp l <> Some a -> rootp r <> Some a -> parp k <> Some a ->
  nodes s' !! a = nodes s !! a.
Proof using.
  clear. intros. unfold s', substituted. rewrite !reparent_other by done.
  rewrite !upd_other by done. rewrite set_top_other by done. by apply upd_other.
Qed.

Lemma subst_child t a : t = l \/ t = r -> rootp t = Some a ->
  nodes s' !! a = with_parent (Some y) <$> nodes s !! a.
Proof using Hs.
  clear Ey. destruct subst_facts as (_ & _ & _ & Hyl & Hyr & _ & _ & _ & _ & Hlr & Hk & _).
  intros Ht Ha. pose proof (rootp_in _ _ Ha) as Hin.
  assert (Hya : y <> a) by (destruct Ht as [->| ->]; intros ->; done).
  assert (Hpa : parp k <> Some a).
  { intros Hc%parp_in. destruct (Hk a Hc). destruct Ht as [->| ->]; done. }
  unfold s', substituted. rewrite !reparent_lookup.
  assert (E : nodes (upd (with_right (rootp r)) y (upd (with_left (rootp l)) y (upd (with_red cz) y
      (set_top k (Some y) (upd (with_parent (parp k)) y s))))) !! a = nodes s !! a).
  { rewrite !upd_other by done. rewrite set_top_other by done. by apply upd_other. }
  rewrite E. destruct Ht as [->| ->].
  - rewrite (decide_False (P := rootp r = Some a)), decide_True; [done|done|].
    intros Hc%rootp_in. by apply (Hlr a).
  - rewrite decide_True, decide_False; [done| |done]. intros Hc%rootp_in. by apply (Hlr a).
Qed.

Lemma subst_top f k' : k = f :: k' ->
  nodes s' !! f_addr f = with_child (f_dir f) (Some y) <$> nodes s !! f_addr f.
Proof using Hs.
  clear Ey. destruct subst_facts as (_ & Hy & _ & _ & _ & _ & _ & _ & _ & _ & Hk & _). intros Ek. rewrite Ek in Hy, Hk.
  cbn [kaddrs] in Hy, Hk.
  assert (Hya : y <> f_addr f) by set_solver.
  destruct (Hk (f_addr f) ltac:(set_solver)) as [Hl Hr].
  unfold s', substituted. rewrite !reparent_other by (intros ?%rootp_in; done).
  rewrite !upd_other by done. rewrite Ek. cbn [set_top]. rewrite upd_lookup, decide_True by done.
  by rewrite upd_other.
Qed.

Lemma subst_state : holds (Some z) s' (plug k (Node y cz iy l r)).
Proof using Hs Ey.
  destruct subst_facts as (Hzk & Hyk & Hyz & Hyl & Hyr & Hzl & Hzr & Nl & Nr & Hlr & Hk & Hly & Hry & Hpy & Hpz & _).
  pose proof (rs_rep _ _ Hs) as Hrep. apply rep_plug in Hrep as [(_ & Hrl & Hrr) _].
  eapply replace_hole; [exact Hs| | | | | | | | |].
  - split; [apply subst_y|]. split.
    + eapply rep_reparent; [exact Hrl|done| |].
      * intros a Ha Hne. apply subst_other; [intros ->; done|congruence| |].
        -- intros Hc%rootp_in. by apply (Hlr a).
        -- intros Hc%parp_in. by destruct (Hk a Hc).
      * intros a Ha. apply (subst_child l); [by left|done].
    + eapply rep_reparent; [exact Hrr|done| |].
      * intros a Ha Hne. apply subst_other; [intros ->; done| |congruence|].
        -- intros Hc%rootp_in. by apply (Hlr a).
        -- intros Hc%parp_in. by destruct (Hk a Hc).
      * intros a Ha. apply (subst_child r); [by right|done].
  - intros f k' Ek. by eapply subst_top.
  - intros a Ha Hp. apply subst_other; [intros ->; done| | |done]; intros Hc%rootp_in; by destruct (Hk a Ha).
  - unfold s', substituted. rewrite !reparent_root, !upd_root. cbn [rootp]. by destruct k.
  - cbn [addrs]. apply list.NoDup_cons. split; [set_solver|]. apply NoDup_app. done.
  - cbn [addrs]. intros a Ha Hc. destruct (Hk a Hc). set_solver.
  - intros a. unfold s', substituted. by rewrite !reparent_dom, !upd_dom, set_top_dom, upd_dom.
  - intros a. cbn [addrs]. set_solver.
  - intros a [= <-]. cbn [addrs]. split; [set_solver|done].
Qed.

(** The code that does it. *)
Definition substitute (nodey nodez : ptr) : M rb_tree unit :=
  z ← rd nodez;
  _ ← wr nodey (with_parent (parent z));
  z ← rd nodez;
  _ ← set_link nodez (parent z) nodey;
  z ← rd nodez; _ ← wr nodey (with_red (red z));
  z ← rd nodez; _ ← wr nodey (with_left (left z));
  z ← rd nodez; _ ← wr nodey (with_right (right z));
  z ← rd nodez;
  _ ← (if is_null (left z) then mret tt else wr (left z) (with_parent nodey));
  z ← rd nodez;
  if is_null (right z) then mret tt else wr (right z) (with_parent nodey).

Lemma substitute_run : substitute (Some y) (Some z) s = Ret (tt, s').
Proof using Hs Ey.
  destruct subst_facts as (Hzk & Hyk & Hyz & Hyl & Hyr & Hzl & Hzr & Nl & Nr & Hlr & Hk & Hly & Hry & Hpy & Hpz & Hlz & Hrz).
  pose proof (state_cell s k true z cz iz l r Hs) as Ez. cbn [cellD] in Ez.
  assert (Hz : forall t, nodes t !! z = nodes s !! z -> rd (Some z) t = Ret (cell iz cz (parp k) (rootp l) (rootp r), t)).
  { intros t E. apply rd_run. by rewrite E. }
  set (s1 := upd (with_parent (parp k)) y s).
  set (s2 := set_top k (Some y) s1). set (s3 := upd (with_red cz) y s2).
  set (s4 := upd (with_left (rootp l)) y s3). set (s5 := upd (with_right (rootp r)) y s4).
  set (s6 := reparent (rootp l) (Some y) s5).
  assert (D : forall a, (is_Some (nodes s1 !! a) <-> is_Some (nodes s !! a)) /\ (is_Some (nodes s2 !! a) <-> is_Some (nodes s !! a)) /\
     (is_Some (nodes s3 !! a) <-> is_Some (nodes s !! a)) /\ (is_Some (nodes s4 !! a) <-> is_Some (nodes s !! a)) /\
     (is_Some (nodes s5 !! a) <-> is_Some (nodes s !! a)) /\ (is_Some (nodes s6 !! a) <-> is_Some (nodes s !! a))).
  { intros a. unfold s6, s5, s4, s3, s2, s1. by rewrite reparent_dom, !upd_dom, set_top_dom, upd_dom. }
  assert (Hw : forall t f, (is_Some (nodes t !! y) <-> is_Some (nodes s !! y)) -> wr (Some y) f t = Ret (tt, upd f y t)).
  { intros t f E. rewrite Ey in E. destruct (proj2 E ltac:(done)) as [n En]. by eapply wr_run. }
  assert (Z1 : nodes s1 !! z = nodes s !! z) by by apply upd_other.
  assert (Z2 : nodes s2 !! z = nodes s !! z) by (unfold s2; by rewrite set_top_other).
  assert (Z3 : nodes s3 !! z = nodes s !! z) by (unfold s3; by rewrite upd_other).
  assert (Z4 : nodes s4 !! z = nodes s !! z) by (unfold s4; by rewrite upd_other).
  assert (Z5 : nodes s5 !! z = nodes s !! z) by (unfold s5; by rewrite upd_other).
  assert (Z6 : nodes s6 !! z = nodes s !! z) by (unfold s6; by rewrite reparent_other).
  unfold substitute. rewrite (M_bind_run _ _ _ _ _ (Hz s eq_refl)). cbn [cell parent].
  rewrite (M_bind_run _ _ _ _ _ (Hw s _ ltac:(done))). fold s1.
  rewrite (M_bind_run _ _ _ _ _ (Hz s1 Z1)). cbn [cell parent].
  assert (E2 : set_link (Some z) (parp k) (Some y) s1 = Ret (tt, s2)).
  { apply set_link_run. intros f k' Ek. rewrite Ek in Hs, Hyk, Hzk. do 3 eexists. unfold s1. rewrite upd_other.
    2:{ intros ->. cbn [kaddrs] in Hyk. set_solver. }
    rewrite (state_frame_cell _ _ _ _ Hs). split; [done|].
    intros Hc%rootp_in. cbn [kaddrs] in Hzk. set_solver. }
  rewrite (M_bind_run _ _ _ _ _ E2), (M_bind_run _ _ _ _ _ (Hz s2 Z2)). cbn [cell red].
  rewrite (M_bind_run _ _ _ _ _ (Hw s2 _ (proj1 (proj2 (D y))))). fold s3.
  rewrite (M_bind_run _ _ _ _ _ (Hz s3 Z3)). cbn [cell left].
  rewrite (M_bind_run _ _ _ _ _ (Hw s3 _ ltac:(apply D))). fold s4.
  rewrite (M_bind_run _ _ _ _ _ (Hz s4 Z4)). cbn [cell right].
  rewrite (M_bind_run _ _ _ _ _ (Hw s4 _ ltac:(apply D))). fold s5.
  rewrite (M_bind_run _ _ _ _ _ (Hz s5 Z5)). cbn [cell left].
  assert (Hc : forall t a, t = l \/ t = r -> rootp t = Some a -> is_Some (nodes s !! a)).
  { intros t a Ht Ha%rootp_in. apply (rs_dom _ _ Hs). left. rewrite addrs_plug. cbn [addrs].
    destruct Ht as [->| ->]; set_solver. }
  rewrite (M_bind_run _ _ _ _ _ (reparent_run s5 (rootp l) (Some y) ltac:(intros a Ha; apply D, (Hc l); [by left|done]))).
  fold s6. rewrite (M_bind_run _ _ _ _ _ (Hz s6 Z6)). cbn [cell right].
  apply reparent_run. intros a Ha. apply D, (Hc r); [by right|done].
Qed.
End Substitute.

(** ** Freeing the unlinked node *)

Lemma kfree_node_run s T z :
  holds (Some z) s T ->
  exists s', kfree_node (Some z) s = Ret (tt, s') /\ holds None s' T.
Proof.
  intros [Hr Hrt Hn Hd Hex]. destruct (proj1 (Hd z)) as [n En]; [by right|].
  exists (RbTree (delete z (nodes s)) (root s) (total s)). split; [unfold kfree_node; by rewrite En|].
  assert (Hz : z ∉ addrs T) by by apply Hex.
  split; cbn [nodes root]; [|done|done| |done].
  - eapply rep_frame; [|exact Hr]. intros a Ha. rewrite lookup_delete_ne; [done|]. by intros ->.
  - intros a. destruct (decide (a = z)) as [->|Hne].
    + rewrite lookup_delete_eq. split; [|by intros [? ?]]. intros [?|?]; done.
    + rewrite lookup_delete_ne, <- Hd by congruence. split; [by intros [?|?]; [left|]|].
      intros [?|[= ?]]; [by left|congruence].
Qed.

(** The balance that the removal of a node of colour [c] leaves. *)
Definition spliced (c : bool) (k : list frame) (x : tree) : Prop :=
  if c then rb_ok (plug k x) else exists n, short x n /\ kbal k (S n).

Lemma bal_spliced k d y c i x n :
  bal (nodeD d y c i Leaf x) n -> kbal k n -> (c = true -> kred k = false) -> spliced c k x.
Proof.
  intros Hb%bal_nodeD Hk Hr. unfold spliced. destruct c.
  - destruct Hb as (_ & Hb & _ & Hrx). eapply bal_plug; [exact Hb|done|congruence].
  - destruct n as [|n]; [done|]. exists n. split; [|done]. destruct Hb as [_ Hb]. by apply bal_blacken.
Qed.

(** What the code does once the node is unlinked. *)
Definition remove_finish (fixup : bool) (par nodex nodez : ptr) : M rb_tree Z :=
  _ ← (if fixup then remove_fixup par nodex else mret tt);
  _ ← kfree_node nodez;
  _ ← rb_tree_validate;
  mret 0.

Lemma remove_finish_run s k x z c :
  holds (Some z) s (plug k x) -> spliced c k x -> ordered (elems (plug k x)) ->
  exists s' T', remove_finish (negb c) (parp k) (rootp x) (Some z) s = Ret (0, s') /\ rb_inv s' T' /\ elems T' = elems (plug k x).
Proof.
  intros Hs Hb Ho.
  assert (Hf : exists s1 T1, (if negb c then remove_fixup (parp k) (rootp x) else mret tt) s = Ret (tt, s1) /\ holds (Some z) s1 T1 /\ rb_ok T1 /\ elems T1 = elems (plug k x)).
  { destruct c; [by exists s, (plug k x)|]. destruct Hb as (n & Hb & Hk). by eapply remove_fixup_run. }
  destruct Hf as (s1 & T1 & E1 & H1 & Hok & He). destruct (kfree_node_run _ _ _ H1) as (s2 & E2 & H2).
  exists s2, T1. rewrite <- He in Ho. split; [|done]. unfold remove_finish.
  rewrite (M_bind_run _ _ _ _ _ E1), (M_bind_run _ _ _ _ _ E2).
  by rewrite (M_bind_run _ _ _ _ _ (rb_tree_validate_run _ _ H2 Hok Ho)).
Qed.

(** ** The node that leaves the tree *)

Lemma leftmost_run fuel s k t :
  holds None s (plug k t) -> t <> Leaf -> (length (addrs t) <= fuel)%nat ->
  exists kr y c i r, leftmost_loop fuel (rootp t) s = Ret (Some y, s) /\ t = plug kr (Node y c i Leaf r) /\ kpre kr = [].
Proof.
  revert fuel k. induction t as [|a c i l IHl r IHr]; intros fuel k Hs Ht Hf; [done|].
  cbn [addrs length] in Hf. rewrite length_app in Hf. destruct fuel as [|fuel]; [lia|].
  cbn [leftmost_loop rootp]. rewrite (M_bind_run _ _ _ _ _ (rd_node _ _ _ _ _ _ _ Hs)). cbn [cell left].
  destruct l as [|la lc li ll lr].
  - exists [], a, c, i, r. done.
  - rewrite plug_left in Hs. destruct (IHl fuel _ Hs ltac:(done) ltac:(lia)) as (kr & y & cy & iy & ry & E & Et & Hp).
    exists (kr ++ [Frame true a c i r]), y, cy, iy, ry. split; [exact E|]. rewrite Et. clear -Hp. split.
    + generalize (Node y cy iy Leaf ry) as u. clear. induction kr as [|f kr IH]; intros u; [done|]. simpl. apply IH.
    + induction kr as [|f kr IH]; [done|]. cbn [kpre app] in *. destruct (f_dir f); [by apply IH|].
      by destruct (kpre kr), (elems (f_sib f)).
Qed.

Lemma plug_app k1 k2 t : plug (k1 ++ k2) t = plug k2 (plug k1 t).
Proof. revert t. induction k1 as [|f k1 IH]; intros t; [done|]. apply IH. Qed.

(** Changing the identity of a frame does not change the balance. *)
Lemma kred_readdr kr d a a' c i i' u k :
  kred (kr ++ Frame d a c i u :: k) = kred (kr ++ Frame d a' c i' u :: k).
Proof. by destruct kr. Qed.
Lemma kbal_readdr kr d a a' c i i' u k n :
  kbal (kr ++ Frame d a c i u :: k) n <-> kbal (kr ++ Frame d a' c i' u :: k) n.
Proof.
  revert n. induction kr as [|f kr IH]; intros n; [done|]. cbn [app kbal].
  pose proof (IH n). pose proof (IH (S n)). rewrite (kred_readdr kr d a a' c i i').
  destruct (f_red f); tauto.
Qed.

(** Replaying a known run of a sequence inside a longer one. *)
Ltac replay H :=
  repeat (let E := fresh "E" in apply M_bind_ret in H as (? & ? & E & H); rewrite (M_bind_run _ _ _ _ _ E); clear E).

(** The element that goes. *)
Definition remove_post (T : tree) (key : Z) (s' : rb_tree) : Prop :=
  exists T' pre post z i, rb_inv s' T' /\ elems T = pre ++ (z, i) :: post /\ elems T' = pre ++ post /\ i_start i <= key <= i_end i.

Lemma tree_search_at t key z :
  tree_search t key = Some z ->
  exists k c i l r, t = plug k (Node z c i l r) /\ i_start i <= key <= i_end i.
Proof.
  assert (Hg : forall k, tree_search t key = Some z ->
    exists k' c i l r, plug k t = plug k' (Node z c i l r) /\ i_start i <= key <= i_end i).
  { induction t as [|a c i l IHl r IHr]; intros k; cbn [tree_search]; [done|].
    destruct (Z.ltb_spec key (i_start i)); [|destruct (Z.ltb_spec (i_end i) key)].
    - intros E. rewrite plug_left. by apply IHl.
    - intros E. rewrite plug_right. by apply IHr.
    - intros [= <-]. exists k, c, i, l, r. split; [done|lia]. }
  intros E. exact (Hg [] E).
Qed.

(** [rb_tree_remove] from the choice of [nodey] on. *)
Definition remove_tail (nodey nodez : ptr) : M rb_tree Z :=
  y ← rd nodey;
  let nodex := if is_null (left y) then right y else left y in
  _ ← (if is_null nodex then mret tt
       else y ← rd nodey; wr nodex (with_parent (parent y)));
  y ← rd nodey;
  _ ← set_link nodey (parent y) nodex;
  fixup ← is_black nodey;
  y ← rd nodey;
  let nodex_parent := parent y in
  nodex_parent ←
    (if ptr_eq nodey nodez then mret nodex_parent
     else
       z ← rd nodez;
       _ ← wr nodey (with_parent (parent z));
       z ← rd nodez;
       _ ← set_link nodez (parent z) nodey;
       z ← rd nodez; _ ← wr nodey (with_red (red z));
       z ← rd nodez; _ ← wr nodey (with_left (left z));
       z ← rd nodez; _ ← wr nodey (with_right (right z));
       z ← rd nodez;
       _ ← (if is_null (left z) then mret tt else wr (left z) (with_parent nodey));
       z ← rd nodez;
       _ ← (if is_null (right z) then mret tt else wr (right z) (with_parent nodey));
       mret (if ptr_eq nodex_parent nodez then nodey else nodex_parent));
  remove_finish fixup nodex_parent nodex nodez.

Lemma remove_tail_eq tp key :
  rb_tree_remove (Some tp) key =
    (nodez ← rb_tree_search key;
     if is_null nodez then mret (- EINVAL)
     else
       s ← mget; z ← rd nodez;
       nodey ← (if is_null (left z) || is_null (right z) then mret nodez
                else leftmost_loop (fuel_of s) (right z));
       remove_tail nodey nodez).
Proof. reflexivity. Qed.

(** Up to and including the unlinking of [nodey]. *)
Lemma remove_tail_unlink s k d y c i x nodez :
  holds None s (plug k (nodeD d y c i Leaf x)) ->
  let s1 := unlinked k (rootp x) s in
  remove_tail (Some y) nodez s =
    (nodex_parent ← (if ptr_eq (Some y) nodez then mret (parp k)
       else _ ← substitute (Some y) nodez;
            mret (if ptr_eq (parp k) nodez then Some y else parp k));
     remove_finish (negb c) nodex_parent (rootp x) nodez) s1.
Proof.
  intros Hs s1. unfold remove_tail. rewrite (M_bind_run _ _ _ _ _ (rd_hole _ _ _ _ _ _ _ _ Hs)). cbn [rootp].
  destruct (unlink_run _ _ _ _ _ _ _ _ Hs eq_refl) as [Ex E]. rewrite Ex in E |- *.
  replay E. rewrite (M_bind_run _ _ _ _ _ E). fold s1.
  destruct (unlink_state _ _ _ _ _ _ _ Hs) as [_ Ey]. fold s1 in Ey. rewrite (state_cell _ _ _ _ _ _ _ _ Hs) in Ey.
  cbn [rootp] in Ey. pose proof (rd_run _ _ _ Ey) as Er.
  assert (Eb : is_black (Some y) s1 = Ret (negb c, s1)).
  { unfold is_black, is_red. rewrite is_null_Some, M_bind_assoc, (M_bind_run _ _ _ _ _ Er). by destruct d. }
  rewrite (M_bind_run _ _ _ _ _ Eb), (M_bind_run _ _ _ _ _ Er).
  assert (Hp : parent (cellD d i c (parp k) None (rootp x)) = parp k) by by destruct d. rewrite Hp.
  apply M_bind_eq. destruct (ptr_eq (Some y) nodez); [done|]. unfold substitute.
  repeat (rewrite M_bind_assoc; apply M_bind_ext; intros ? ?). done.
Qed.

(** The node that is removed has at most one child. *)
Lemma remove_tail_one s k d z c i x :
  holds None s (plug k (nodeD d z c i Leaf x)) -> rb_ok (plug k (nodeD d z c i Leaf x)) ->
  ordered (elems (plug k x)) ->
  exists s' T', remove_tail (Some z) (Some z) s = Ret (0, s') /\ rb_inv s' T' /\ elems T' = elems (plug k x).
Proof.
  intros Hs (n & Hb & Hk & Hr)%plug_bal Ho. rewrite (remove_tail_unlink _ _ _ _ _ _ _ _ Hs).
  rewrite ptr_eq_true by done. rewrite red_root_nodeD in Hr.
  apply remove_finish_run; [by apply unlink_state in Hs as [? _]| |done].
  by eapply bal_spliced.
Qed.

(** It has two: its successor [y] takes its place. *)
Lemma remove_tail_two s k z cz iz l kr y cy iy ry :
  let T := plug k (Node z cz iz l (plug kr (Node y cy iy Leaf ry))) in
  let T' := plug (kr ++ Frame false y cz iy l :: k) ry in
  holds None s T -> rb_ok T -> ordered (elems T') ->
  exists s' T'', remove_tail (Some y) (Some z) s = Ret (0, s') /\ rb_inv s' T'' /\ elems T'' = elems T'.
Proof.
  intros T T' Hs Hok Ho. set (k1 := kr ++ Frame false z cz iz l :: k).
  assert (ET : T = plug k1 (nodeD true y cy iy Leaf ry)) by (unfold k1; by rewrite plug_app).
  rewrite ET in Hs, Hok. destruct (plug_bal _ _ Hok) as (n & Hb & Hk & Hr). rewrite red_root_nodeD in Hr.
  rewrite (remove_tail_unlink _ _ _ _ _ _ _ _ Hs). destruct (unlink_state _ _ _ _ _ _ _ Hs) as [Hs1 Ey].
  rewrite (state_cell _ _ _ _ _ _ _ _ Hs) in Ey. cbn [cellD rootp] in Ey.
  set (s1 := unlinked k1 (rootp ry) s) in *. assert (Hs1' := Hs1).
  unfold k1 in Hs1. rewrite plug_app in Hs1. cbn [plug] in Hs1. unfold plug1 in Hs1. cbn [f_dir f_addr f_red f_info f_sib nodeD] in Hs1.
  assert (Hyz : y <> z) by (destruct (subst_facts _ _ _ _ _ _ _ _ Hs1) as (_ & _ & ? & _); done).
  rewrite ptr_eq_false by congruence.
  pose proof (substitute_run _ _ _ _ _ _ _ _ _ _ _ _ _ Hs1 Ey) as E2.
  pose proof (subst_state _ _ _ _ _ _ _ _ _ _ _ _ _ Hs1 Ey) as Hs2. cbn [f_addr] in *.
  set (s2 := substituted k y cz (rootp l) (rootp (plug kr ry)) s1) in *.
  rewrite M_bind_assoc, (M_bind_run _ _ _ _ _ E2). set (k2 := kr ++ Frame false y cz iy l :: k) in *.
  assert (Hp : (if ptr_eq (parp k1) (Some z) then Some y else parp k1) = parp k2).
  { unfold k1, k2. destruct kr as [|f kr]; cbn [app parp f_addr]; [by rewrite ptr_eq_true|].
    rewrite ptr_eq_false; [done|]. intros [= Hc].
    pose proof (state_nodup _ _ _ Hs1') as Hnd. unfold k1 in Hnd. rewrite <- app_comm_cons in Hnd. cbn [kaddrs] in Hnd.
    apply NoDup_app in Hnd as (Hnd & _). apply list.NoDup_cons in Hnd as [Hnd _]. apply Hnd.
    rewrite Hc. apply elem_of_app. right. clear. induction kr; cbn [app kaddrs]; set_solver. }
  rewrite (M_bind_run _ _ s2 s2 (parp k2)) by (by rewrite Hp).
  apply remove_finish_run; [| |exact Ho].
  - unfold k2. rewrite plug_app. exact Hs2.
  - eapply (bal_spliced k2 true y cy iy); [exact Hb| |].
    + unfold k2. by rewrite (kbal_readdr kr false y z cz iy iz l k).
    + unfold k2. by rewrite (kred_readdr kr false y z cz iy iz l k).
Qed.

Lemma ordered_remove pre e post : ordered (pre ++ e :: post) -> ordered (pre ++ post).
Proof.
  intros (H1 & (_ & H2 & _)%ordered_cons & H3)%ordered_app. apply ordered_app. split_and!; [done..|].
  intros e1 e2 He1 He2. apply H3; [done|]. set_solver.
Qed.

(** Removal of the node in the hole, whatever its children. *)
Lemma remove_node_run s k z c i l r :
  rb_inv s (plug k (Node z c i l r)) ->
  exists s' T', (z' ← rd (Some z);
     nodey ← (if is_null (left z') || is_null (right z') then mret (Some z)
              else leftmost_loop (fuel_of s) (right z'));
     remove_tail nodey (Some z)) s = Ret (0, s') /\ rb_inv s' T' /\
    elems T' = kpre k ++ elems l ++ elems r ++ kpost k.
Proof.
  intros (Hs & Hok & Ho). rewrite elems_plug in Ho. cbn [elems] in Ho.
  rewrite <- app_assoc, <- app_comm_cons, (app_assoc (kpre k)) in Ho.
  pose proof (ordered_remove _ _ _ Ho) as Ho'. rewrite <- !app_assoc in Ho'.
  rewrite (M_bind_run _ _ _ _ _ (rd_node _ _ _ _ _ _ _ Hs)). cbn [cell left right].
  destruct l as [|la lc li ll lr]; [|destruct r as [|ra rc ri rl rr]].
  - cbn [rootp orb is_null]. rewrite (M_bind_run _ _ s s (Some z)) by done.
    cbn [elems app] in *. rewrite <- elems_plug.
    apply (remove_tail_one _ _ true _ c i); [done|done|]. by rewrite elems_plug.
  - rewrite (M_bind_run _ _ s s (Some z)) by done. set (x := Node la lc li ll lr) in *.
    change (elems Leaf ++ kpost k) with (kpost k) in *. rewrite <- elems_plug.
    apply (remove_tail_one _ _ false _ c i); [done|done|]. by rewrite elems_plug.
  - set (r := Node ra rc ri rl rr) in *. set (l := Node la lc li ll lr) in *.
    pose proof Hs as Hr. rewrite plug_right in Hr.
    destruct (leftmost_run (fuel_of s) s _ r Hr ltac:(done)) as (kr & y & cy & iy & ry & E & Er & Hp).
    { apply state_fuel in Hr as [_ Hr]. lia. }
    cbn [l rootp is_null orb]. rewrite (M_bind_run _ _ _ _ _ E). rewrite Er in Hs, Hok, Ho' |- *.
    assert (Ee : elems (plug (kr ++ Frame false y c iy l :: k) ry)
       = kpre k ++ elems l ++ elems (plug kr (Node y cy iy Leaf ry)) ++ kpost k).
    { rewrite plug_app. cbn [plug]. unfold plug1. cbn [f_dir f_addr f_red f_info f_sib nodeD].
      clearbody l. rewrite elems_plug. cbn [elems]. rewrite !elems_plug, Hp. elems_eq. }
    rewrite <- Ee in Ho' |- *. by apply (remove_tail_two s k z c i l kr y cy iy ry).
Qed.

Lemma rb_tree_search_run s T key : rb_state s T -> rb_tree_search key s = Ret (tree_search T key, s).
Proof.
  intros Hs. unfold rb_tree_search. rewrite (M_bind_run _ _ s s s) by done. rewrite (rs_root _ _ Hs).
  apply (search_loop_run _ _ [] _ _ Hs), (proj2 (state_fuel _ [] _ Hs)).
Qed.

Lemma rb_tree_remove_run s T tp key :
  rb_inv s T ->
  (rb_tree_remove (Some tp) key s = Ret (- EINVAL, s) /\
     forall e, e ∈ elems T -> ~ i_start e.2 <= key <= i_end e.2) \/
  exists s', rb_tree_remove (Some tp) key s = Ret (0, s') /\ remove_post T key s'.
Proof.
  intros (Hs & Hok & Ho). rewrite remove_tail_eq, (M_bind_run _ _ _ _ _ (rb_tree_search_run _ _ key Hs)).
  destruct (tree_search T key) as [z|] eqn:Ez.
  2:{ left. split; [done|]. intros [a i] He Hk. by rewrite (tree_search_complete T key a i Ho He Hk) in Ez. }
  right. destruct (tree_search_at _ _ _ Ez) as (k & c & i & l & r & -> & Hk).
  rewrite is_null_Some, (M_bind_run _ _ s s s) by done.
  destruct (remove_node_run s k z c i l r ltac:(done)) as (s' & T' & E & Hi & He).
  exists s'. split; [exact E|]. exists T', (kpre k ++ elems l), (elems r ++ kpost k), z, i.
  split_and!; [done| |by rewrite He, <- app_assoc|lia|lia].
  rewrite elems_plug. cbn [elems]. by rewrite <- !app_assoc.
Qed.
