(* ===== verification/RbTreeSpec.v ===== *)
(** * Red-black trees: the interval map they implement

    The contract of libs/rb_tree.c for its clients: what each operation does
    to the ascending list of disjoint intervals, deletion and iteration
    included, and that a sequence of operations from an empty tree never
    trips an assertion of [rb_tree_validate], never dereferences a bad
    pointer and never loops. *)

From stdpp Require Import base numbers list gmap.
From Stdlib Require Import ZArith Lia.
From S2P Require Import Prelude RbTree RbTreeRep RbTreeOk RbTreeRemove.

Open Scope Z_scope.

(** ** Deletion of a whole tree *)

Lemma tree_delete_run fuel s par t :
  rep (nodes s) par t -> NoDup (addrs t) -> (length (addrs t) < fuel)%nat ->
  exists s', tree_delete fuel (rootp t) s = Ret (tt, s') /\
    forall a, (a ∈ addrs t -> nodes s' !! a = None) /\ (a ∉ addrs t -> nodes s' !! a = nodes s !! a).
Proof.
  revert fuel s par. induction t as [|a c i l IHl r IHr]; intros fuel s par Hr Hn Hf;
    (destruct fuel as [|fuel]; [lia|]); cbn [tree_delete rootp].
  { exists s. split; [done|]. intros a. split; [by intros ?%elem_of_nil|done]. }
  destruct Hr as (Ea & Hl & Hr). cbn [addrs length] in Hn, Hf. rewrite length_app in Hf.
  apply list.NoDup_cons in Hn as [Ha Hn]. apply NoDup_app in Hn as (Nl & Nlr & Nr).
  apply not_elem_of_app in Ha as [Hal Har].
  rewrite is_null_Some, (M_bind_run _ _ _ _ _ (rd_run _ _ _ Ea)). cbn [cell left right].
  destruct (IHl fuel s (Some a) Hl Nl ltac:(lia)) as (s1 & E1 & F1). rewrite (M_bind_run _ _ _ _ _ E1).
  assert (Ea1 : nodes s1 !! a = nodes s !! a) by by apply F1. rewrite Ea in Ea1.
  rewrite (M_bind_run _ _ _ _ _ (rd_run _ _ _ Ea1)). cbn [cell left right].
  assert (Hr1 : rep (nodes s1) (Some a) r).
  { eapply rep_frame; [|exact Hr]. intros b Hb. apply F1. intros Hc. by apply (Nlr b). }
  destruct (IHr fuel s1 (Some a) Hr1 Nr ltac:(lia)) as (s2 & E2 & F2). rewrite (M_bind_run _ _ _ _ _ E2).
  assert (Ea2 : nodes s2 !! a = nodes s1 !! a) by by apply F2. rewrite Ea1 in Ea2.
  exists (RbTree (delete a (nodes s2)) (root s2) (total s2)). split; [unfold kfree_node; by rewrite Ea2|].
  intros b. cbn [addrs nodes]. destruct (decide (b = a)) as [->|Hba].
  { split; [by rewrite lookup_delete_eq|]. intros Hc. by destruct Hc; left. }
  rewrite lookup_delete_ne by congruence. rewrite elem_of_cons, elem_of_app. split.
  - intros [->|[Hb|Hb]]; [done| |by apply F2].
    destruct (decide (b ∈ addrs r)) as [Hbr|Hbr]; [by apply F2|]. rewrite (proj2 (F2 b) Hbr). by apply F1.
  - intros Hb. rewrite (proj2 (F2 b)) by tauto. apply F1. tauto.
Qed.

Lemma rb_tree_delete_run s T tp :
  rb_state s T -> exists s', rb_tree_delete (Some tp) s = Ret (tt, s') /\ nodes s' = ∅.
Proof.
  intros Hs. destruct (tree_delete_run (fuel_of s) s None T (rs_rep _ _ Hs) (rs_nodup _ _ Hs)
    (proj2 (state_fuel s [] T Hs))) as (s' & E & F).
  exists s'. split; [unfold rb_tree_delete; rewrite is_null_Some, (M_bind_run _ _ s s s) by done|].
  - by rewrite (rs_root _ _ Hs).
  - apply map_eq. intros a. rewrite lookup_empty. destruct (decide (a ∈ addrs T)) as [Ha|Ha]; [by apply F|].
    rewrite (proj2 (F a) Ha). destruct (nodes s !! a) eqn:En; [|done].
    destruct (proj2 (rs_dom _ _ Hs a)) as [?|?]; [by rewrite En|done|done].
Qed.

(** ** Iteration *)

(** The nodes of a tree in ascending order, as they are in memory. *)
Fixpoint cells (par : ptr) (t : tree) : list rb_node :=
  match t with
  | Leaf => []
  | Node a c i l r => cells (Some a) l ++ cell i c par (rootp l) (rootp r) :: cells (Some a) r
  end.

Definition node_info (n : rb_node) : info := Info (id n) (start n) (end_ n) (value n).

Lemma cells_elems par t : map node_info (cells par t) = map snd (elems t).
Proof.
  revert par. induction t as [|a c i l IHl r IHr]; intros par; [done|]. cbn [cells elems].
  rewrite !map_app. cbn [map]. rewrite IHl, IHr. by destruct i.
Qed.

(** A loop over a list that stops at the first non-zero answer. *)
Fixpoint iter_list {P} (cb : rb_node -> P -> Z * P) (l : list rb_node) (priv : P) : Z * P :=
  match l with
  | [] => (0, priv)
  | n :: l => let '(ret, priv) := cb n priv in if ret =? 0 then iter_list cb l priv else (ret, priv)
  end.

Lemma iter_list_app {P} (cb : rb_node -> P -> Z * P) l1 l2 priv :
  iter_list cb (l1 ++ l2) priv =
    let '(ret, priv') := iter_list cb l1 priv in if ret =? 0 then iter_list cb l2 priv' else (ret, priv').
Proof.
  revert priv. induction l1 as [|n l1 IH]; intros priv; [done|]. cbn [app iter_list].
  destruct (cb n priv) as [ret p]. destruct (ret =? 0) eqn:E; [apply IH|]. by rewrite E.
Qed.

Lemma tree_iterate_run {P} (cb : rb_node -> P -> Z * P) fuel s k t priv :
  rb_state s (plug k t) -> (length (addrs t) < fuel)%nat ->
  tree_iterate fuel (rootp t) cb priv s = Ret (iter_list cb (cells (parp k) t) priv, s).
Proof.
  revert fuel k priv. induction t as [|a c i l IHl r IHr]; intros fuel k priv Hs Hf;
    (destruct fuel as [|fuel]; [lia|]); cbn [tree_iterate rootp]; [done|].
  rewrite is_null_Some. pose proof (rd_node _ _ _ _ _ _ _ Hs) as Er.
  rewrite (M_bind_run _ _ _ _ _ Er). cbn [cell left right cells].
  cbn [addrs length] in Hf. rewrite length_app in Hf.
  pose proof (IHl fuel (Frame true a c i r :: k) priv Hs ltac:(lia)) as El. cbn [parp f_addr] in El.
  rewrite (M_bind_run _ _ _ _ _ El), iter_list_app.
  destruct (iter_list cb (cells (Some a) l) priv) as [ret p]. destruct (ret =? 0) eqn:E; cbn [negb]; [|done].
  rewrite (M_bind_run _ _ _ _ _ Er). cbn [iter_list].
  set (n := cell i c (parp k) (rootp l) (rootp r)). destruct (cb n p) as [ret2 p2].
  destruct (ret2 =? 0) eqn:E2; cbn [negb]; [|done].
  pose proof (IHr fuel (Frame false a c i l :: k) p2 Hs ltac:(lia)) as Erm. cbn [parp f_addr] in Erm.
  unfold n. cbn [cell left right]. rewrite (M_bind_run _ _ _ _ _ Erm).
  by destruct (iter_list cb (cells (Some a) r) p2).
Qed.

(** ** The abstract interval map *)

Inductive op := Insert (st en val : Z) | Remove (key : Z) | Search (key : Z).

(** The answer of an operation: whether it succeeded, and what it found. *)
Inductive answer := Done (ok : bool) | Found (i : option info).

Definition contains (i : info) (key : Z) : Prop := i_start i <= key <= i_end i.
Definition overlaps (i : info) (st en : Z) : Prop := st <= i_end i /\ i_start i <= en.

(** [nomem]: the allocator has no room left. *)
Inductive spec_step (nomem : Prop) (l : list info) : op -> answer -> list info -> Prop :=
  | spec_insert st en val pre post tag :
      st <= en -> ~ nomem -> l = pre ++ post -> (forall i, i ∈ l -> ~ overlaps i st en) ->
      (forall i, i ∈ pre -> i_end i < st) -> (forall i, i ∈ post -> en < i_start i) ->
      spec_step nomem l (Insert st en val) (Done true) (pre ++ Info tag st en val :: post)
  | spec_insert_fail st en val :
      en < st \/ nomem \/ (exists i, i ∈ l /\ overlaps i st en) ->
      spec_step nomem l (Insert st en val) (Done false) l
  | spec_remove key pre post i :
      l = pre ++ i :: post -> contains i key ->
      spec_step nomem l (Remove key) (Done true) (pre ++ post)
  | spec_remove_fail key :
      (forall i, i ∈ l -> ~ contains i key) -> spec_step nomem l (Remove key) (Done false) l
  | spec_search key i :
      i ∈ l -> contains i key -> spec_step nomem l (Search key) (Found (Some i)) l
  | spec_search_fail key :
      (forall i, i ∈ l -> ~ contains i key) -> spec_step nomem l (Search key) (Found None) l.

Section Contract.
Context `{NodeAlloc}.

(** An operation as a client calls it; a search result is read through the
    accessors [rb_node_key_start], [rb_node_key_end] and [rb_node_value]. *)
Definition run_op (o : op) : M rb_tree answer :=
  match o with
  | Insert st en val => r ← rb_tree_insert (Some 0) st en val; mret (Done (negb (is_null r)))
  | Remove key => r ← rb_tree_remove (Some 0) key; mret (Done (r =? 0))
  | Search key =>
      p ← rb_tree_search key;
      if is_null p then mret (Found None)
      else
        n ← rd p; st ← rb_node_key_start p; en ← rb_node_key_end p; v ← rb_node_value p;
        mret (Found (Some (Info (id n) st en v)))
  end.

Fixpoint run_ops (l : list op) : M rb_tree (list answer) :=
  match l with
  | [] => mret []
  | o :: l => a ← run_op o; r ← run_ops l; mret (a :: r)
  end.

Definition intervals (T : tree) : list info := map snd (elems T).

Lemma intervals_in T i : i ∈ intervals T <-> exists a, (a, i) ∈ elems T.
Proof.
  unfold intervals. rewrite list_elem_of_fmap. split.
  - intros ([a j] & -> & Ha). by exists a.
  - intros [a Ha]. by exists (a, i).
Qed.

Lemma search_node s T key z :
  rb_inv s T -> tree_search T key = Some z ->
  exists n, nodes s !! z = Some n /\ node_info n ∈ intervals T /\ contains (node_info n) key.
Proof.
  intros (Hs & _ & _) Ez. destruct (tree_search_at _ _ _ Ez) as (k & c & i & l & r & -> & Hk).
  pose proof (state_cell s k true _ _ _ _ _ Hs) as E. eexists. split; [exact E|].
  assert (Ei : node_info (cellD true i c (parp k) (rootp l) (rootp r)) = i) by by destruct i.
  rewrite Ei. split; [|done]. apply intervals_in. exists z. rewrite elems_plug. cbn [elems]. set_solver.
Qed.

Lemma run_search s T key :
  rb_inv s T -> exists a, run_op (Search key) s = Ret (a, s) /\ spec_step (alloc (nodes s) = None) (intervals T) (Search key) a (intervals T).
Proof.
  intros Hi. pose proof Hi as (Hs & _ & Ho). cbn [run_op].
  rewrite (M_bind_run _ _ _ _ _ (rb_tree_search_run _ _ key Hs)).
  destruct (tree_search T key) as [z|] eqn:Ez.
  - destruct (search_node _ _ _ _ Hi Ez) as (n & En & Hin & Hc). pose proof (rd_run _ _ _ En) as Er.
    exists (Found (Some (node_info n))). split; [|by constructor]. rewrite is_null_Some.
    assert (E : rb_node_key_start (Some z) s = Ret (start n, s) /\ rb_node_key_end (Some z) s = Ret (end_ n, s) /\
      rb_node_value (Some z) s = Ret (value n, s)).
    { unfold rb_node_key_start, rb_node_key_end, rb_node_value. by rewrite !(M_bind_run _ _ _ _ _ Er). }
    destruct E as (E1 & E2 & E3).
    by rewrite (M_bind_run _ _ _ _ _ Er), (M_bind_run _ _ _ _ _ E1), (M_bind_run _ _ _ _ _ E2), (M_bind_run _ _ _ _ _ E3).
  - exists (Found None). split; [done|]. constructor. intros i [a Ha]%intervals_in Hc.
    by rewrite (tree_search_complete T key a i Ho Ha Hc) in Ez.
Qed.

Lemma run_insert s T st en val :
  rb_inv s T -> exists a s' T', run_op (Insert st en val) s = Ret (a, s') /\ rb_inv s' T' /\
    spec_step (alloc (nodes s) = None) (intervals T) (Insert st en val) a (intervals T').
Proof.
  intros Hi. destruct (rb_tree_insert_run s T (Some 0) st en val Hi) as (r & s' & E & Hp & Hr).
  cbn [run_op]. rewrite (M_bind_run _ _ _ _ _ E). destruct r as [a|]; cbn [insert_post] in Hp.
  - destruct Hp as (T' & pre & post & Hi' & He & He').
    assert (Hn : ~ (en < st \/ alloc (nodes s) = None \/ exists e, e ∈ elems T /\ st <= i_end e.2 /\ i_start e.2 <= en)).
    { intros Hc. discriminate (proj2 Hr (or_intror Hc)). }
    exists (Done true), s', T'. split_and!; [done|done|]. unfold intervals. rewrite He, He', !map_app. cbn [map snd].
    destruct Hi' as (_ & _ & Ho). rewrite He' in Ho. apply ordered_app in Ho as (_ & (_ & _ & Hb2)%ordered_cons & Hb1).
    constructor; [lia|tauto|done| | |].
    + intros i. rewrite <- map_app, <- He. intros [b Hb]%intervals_in [H1 H2]. apply Hn. right. right. by exists (b, i).
    + intros i ([b j] & -> & Hb)%list_elem_of_fmap. apply (Hb1 _ (a, Info (total s) st en val) Hb). set_solver.
    + intros i ([b j] & -> & Hb)%list_elem_of_fmap. by apply (Hb2 (b, j)).
  - subst s'. exists (Done false), s, T. split_and!; [done|done|]. constructor.
    destruct (proj1 Hr eq_refl) as [?|[?|[?|([b j] & He & ?)]]]; [done|by left|by right; left|].
    right. right. exists j. split; [|done]. apply intervals_in. by exists b.
Qed.

Lemma run_remove s T key :
  rb_inv s T -> exists a s' T', run_op (Remove key) s = Ret (a, s') /\ rb_inv s' T' /\
    spec_step (alloc (nodes s) = None) (intervals T) (Remove key) a (intervals T').
Proof.
  intros Hi. cbn [run_op].
  destruct (rb_tree_remove_run s T 0 key Hi) as [[E Hn]|(s' & E & T' & pre & post & z & i & Hi' & He & He' & Hk)];
    rewrite (M_bind_run _ _ _ _ _ E).
  - exists (Done false), s, T. split_and!; [done|done|]. constructor.
    intros i [a Ha]%intervals_in Hc. by apply (Hn _ Ha).
  - exists (Done true), s', T'. split_and!; [done|done|]. unfold intervals. rewrite He, He', !map_app. cbn [map snd].
    by econstructor.
Qed.

Lemma run_op_ok o s T :
  rb_inv s T -> exists a s' T', run_op o s = Ret (a, s') /\ rb_inv s' T' /\
    spec_step (alloc (nodes s) = None) (intervals T) o a (intervals T').
Proof.
  intros Hi. destruct o as [st en val|key|key]; [by apply run_insert|by apply run_remove|].
  destruct (run_search s T key Hi) as (a & E & Ha). by exists a, s, T.
Qed.

(** Whether the allocator has no node to give, at each operation of a run. *)
Fixpoint refusals (ol : list op) (s : rb_tree) : list bool :=
  match ol with
  | [] => []
  | o :: ol => bool_decide (alloc (nodes s) = None) ::
      match run_op o s with Ret (_, s') => refusals ol s' | _ => [] end
  end.

(** Runs of the abstract map, given at which operations there is no memory. *)
Inductive spec_run : list bool -> list info -> list op -> list answer -> list info -> Prop :=
  | spec_nil l : spec_run [] l [] [] l
  | spec_cons b bl l o a l1 ol al l2 :
      spec_step (b = true) l o a l1 -> spec_run bl l1 ol al l2 -> spec_run (b :: bl) l (o :: ol) (a :: al) l2.

Lemma spec_step_iff P Q l o a l' : (P <-> Q) -> spec_step P l o a l' -> spec_step Q l o a l'.
Proof. intros HPQ Hs. destruct Hs; econstructor; naive_solver. Qed.

Lemma run_ops_ok ol s T :
  rb_inv s T -> exists al s' T', run_ops ol s = Ret (al, s') /\ rb_inv s' T' /\
    spec_run (refusals ol s) (intervals T) ol al (intervals T').
Proof.
  revert s T. induction ol as [|o ol IH]; intros s T Hi.
  - exists [], s, T. split_and!; [done|done|constructor].
  - destruct (run_op_ok o s T Hi) as (a & s1 & T1 & E1 & Hi1 & Ha).
    destruct (IH s1 T1 Hi1) as (al & s2 & T2 & E2 & Hi2 & Hal).
    exists (a :: al), s2, T2. split_and!; [|done|].
    + cbn [run_ops]. by rewrite (M_bind_run _ _ _ _ _ E1), (M_bind_run _ _ _ _ _ E2).
    + cbn [refusals]. rewrite E1. econstructor; [|done].
      eapply spec_step_iff; [|exact Ha]. symmetry. apply bool_decide_eq_true.
Qed.

(** With memory at hand no operation of a run is refused one. *)
Lemma refusals_none ol s : (forall m, alloc m <> None) -> Forall (fun b => b = false) (refusals ol s).
Proof.
  intros Ha. revert s. induction ol as [|o ol IH]; intros s; cbn [refusals]; constructor.
  - by apply bool_decide_eq_false.
  - destruct (run_op o s) as [[? ?]| | |]; [apply IH|constructor..].
Qed.

Lemma rb_inv_create : rb_inv rb_tree_create Leaf.
Proof.
  split_and!; [|by split; [|exists O]|done]. split; cbn [nodes root rb_tree_create rep rootp addrs]; [done|done|constructor| |done].
  intros a. rewrite lookup_empty. split; [by intros [?%elem_of_nil|?]|by intros [? ?]].
Qed.
End Contract.

(** ** The contract *)

(** C3. Any sequence of insertions, removals and searches, started on the
    tree [rb_tree_create] returns, runs to its end (no assertion of
    [rb_tree_validate] fires, no bad pointer is followed, no loop spins),
    leaves a red-black tree of disjoint ascending intervals, and answers as
    the abstract interval map does: an insertion is refused exactly when the
    interval is empty, overlaps one of the map, or the allocator has no node
    at that moment, which never happens when it always has one. *)
Theorem rb_tree_refines `{NodeAlloc} (ol : list op) :
  exists al s' T', run_ops ol rb_tree_create = Ret (al, s') /\ rb_inv s' T' /\
    spec_run (refusals ol rb_tree_create) [] ol al (intervals T') /\
    ((forall m, alloc m <> None) -> Forall (fun b => b = false) (refusals ol rb_tree_create)).
Proof.
  destruct (run_ops_ok ol rb_tree_create Leaf rb_inv_create) as (al & s' & T' & E & Hi & Hr).
  exists al, s', T'. split_and!; [done|done|done|apply refusals_none].
Qed.

(** [rb_tree_insert] always returns.  It answers NULL, changing nothing,
    exactly when the tree pointer is NULL, the interval is empty, memory is
    exhausted or the interval overlaps one of the tree; otherwise the tree
    is again a red-black tree and has exactly the new interval more, at its
    place in the order. *)
Theorem rb_tree_insert_ok `{NodeAlloc} s T tree st en val :
  rb_inv s T ->
  exists r s', rb_tree_insert tree st en val s = Ret (r, s') /\ insert_post s T st en val r s' /\
    (r = None <-> tree = None \/ en < st \/ alloc (nodes s) = None \/
       exists e, e ∈ elems T /\ st <= i_end e.2 /\ i_start e.2 <= en).
Proof. apply rb_tree_insert_run. Qed.

(** [rb_tree_remove] always returns.  It answers [-EINVAL], changing
    nothing, when no interval holds the key; otherwise it answers 0, frees
    the node of the interval that holds the key and nothing else, and the
    rest is again a red-black tree. *)
Theorem rb_tree_remove_ok s T tp key :
  rb_inv s T ->
  (rb_tree_remove (Some tp) key s = Ret (- EINVAL, s) /\
     forall e, e ∈ elems T -> ~ i_start e.2 <= key <= i_end e.2) \/
  exists s', rb_tree_remove (Some tp) key s = Ret (0, s') /\ remove_post T key s'.
Proof. apply rb_tree_remove_run. Qed.

(** [rb_tree_iterate] calls the callback on the nodes in ascending order
    of their intervals, each once, and stops at the first non-zero answer,
    which it returns. *)
Theorem rb_tree_iterate_ok {P} (cb : rb_node -> P -> Z * P) (priv : P) s T :
  rb_inv s T ->
  exists l, rb_tree_iterate cb priv s = Ret (iter_list cb l priv, s) /\ map node_info l = intervals T.
Proof.
  intros (Hs & _ & _). exists (cells None T). split; [|apply cells_elems].
  unfold rb_tree_iterate. rewrite (M_bind_run _ _ s s s) by done. rewrite (rs_root _ _ Hs).
  apply (tree_iterate_run cb _ s [] T priv Hs), (proj2 (state_fuel s [] T Hs)).
Qed.

(** [rb_tree_delete] frees every node of the tree: it returns and leaves
    no node in memory, freeing none twice. *)
Theorem rb_tree_delete_ok s T tp :
  rb_inv s T -> exists s', rb_tree_delete (Some tp) s = Ret (tt, s') /\ nodes s' = ∅.
Proof. intros (Hs & _). by eapply rb_tree_delete_run. Qed.

(** *** A tree of three nodes *)

#[local] Instance fresh_alloc : NodeAlloc := {
  alloc m := Some (fresh (dom m));
  alloc_fresh m a E := ltac:(injection E as <-; apply not_elem_of_dom, is_fresh)
}.

Definition tree3 : tree :=
  Node 1 false (Info 0 10 19 7) (Node 2 true (Info 1 0 5 8) Leaf Leaf) (Node 3 true (Info 2 30 39 9) Leaf Leaf).
Definition state3 : rb_tree :=
  RbTree (<[1 := RbNode 0 10 19 7 false None (Some 2) (Some 3)]>
          (<[2 := RbNode 1 0 5 8 true (Some 1) None None]>
           (<[3 := RbNode 2 30 39 9 true (Some 1) None None]> ∅))) (Some 1) 3.

Lemma rb_inv3 : rb_inv state3 tree3.
Proof.
  split_and!.
  - split; [done|done| | |done].
    + apply (bool_decide_unpack _). vm_compute. exact I.
    + intros a. cbn [state3 nodes]. rewrite !lookup_insert_is_Some, lookup_empty. simpl. split.
      * intros [Ha|?]; [|done]. rewrite !elem_of_cons in Ha. destruct Ha as [->|[->|[->|Ha%elem_of_nil]]]; [..|done].
        -- by left.
        -- right. split; [done|]. by left.
        -- right. split; [done|]. right. split; [done|]. by left.
      * intros Ha. left. rewrite !elem_of_cons. destruct Ha as [->|[_ [->|[_ [->|[_ [? ?]]]]]]]; tauto || done.
  - split; [done|]. exists 1%nat. simpl. done.
  - simpl. unfold proper, before. split_and!; cbn; try lia; try done; intros e2; rewrite ?elem_of_cons, ?elem_of_nil;
      naive_solver lia.
Qed.

(** The second interval meets the first and is refused; the third touches
    it and is not. *)
Lemma rb_tree_refines_witness :
  exists al s' T', run_ops [Insert 1 2 3; Insert 2 4 5; Insert 3 4 5; Search 1; Remove 2] rb_tree_create = Ret (al, s') /\
    rb_inv s' T' /\ spec_run [false; false; false; false; false] []
      [Insert 1 2 3; Insert 2 4 5; Insert 3 4 5; Search 1; Remove 2] al (intervals T').
Proof.
  destruct (rb_tree_refines [Insert 1 2 3; Insert 2 4 5; Insert 3 4 5; Search 1; Remove 2])
    as (al & s' & T' & E & Hi & Hr & _).
  exists al, s', T'. split; [exact E|]. split; [exact Hi|exact Hr].
Defined.

Lemma rb_tree_insert_ok_witness :
  exists r s', rb_tree_insert (Some 0) 20 25 1 state3 = Ret (r, s') /\ insert_post state3 tree3 20 25 1 r s' /\
    (r = None <-> Some 0 = @None Z \/ 25 < 20 \/ alloc (nodes state3) = None \/
       exists e, e ∈ elems tree3 /\ 20 <= i_end e.2 /\ i_start e.2 <= 25).
Proof. apply (rb_tree_insert_ok state3 tree3 (Some 0) 20 25 1 rb_inv3). Defined.

Lemma rb_tree_remove_ok_witness :
  (rb_tree_remove (Some 0) 15 state3 = Ret (- EINVAL, state3) /\
     forall e, e ∈ elems tree3 -> ~ i_start e.2 <= 15 <= i_end e.2) \/
  exists s', rb_tree_remove (Some 0) 15 state3 = Ret (0, s') /\ remove_post tree3 15 s'.
Proof. apply (rb_tree_remove_ok state3 tree3 0 15 rb_inv3). Defined.

Lemma rb_tree_iterate_ok_witness :
  exists l, rb_tree_iterate (fun n acc => (0, acc + value n)) 0 state3
    = Ret (iter_list (fun n acc => (0, acc + value n)) l 0, state3) /\ map node_info l = intervals tree3.
Proof. apply (rb_tree_iterate_ok _ 0 state3 tree3 rb_inv3). Defined.

Lemma rb_tree_delete_ok_witness :
  exists s', rb_tree_delete (Some 0) state3 = Ret (tt, s') /\ nodes s' = ∅.
Proof. apply (rb_tree_delete_ok state3 tree3 0 rb_inv3). Defined.
