(* ===== verification/CMem.v ===== *)
(** * Byte memory (the memory routines of libs/string.c and include/x86.h)

    Memory for the routines that work on bytes: an address is mapped or it
    is not, and an access to an address that is not mapped faults.
    [blocks] records the live heap blocks with their sizes, so that writing
    past the end of one is a fault as well.

    The routines are the ones the kernel is built with: include/x86.h defines
    the [__HAVE_ARCH_*] macros, so memcpy moves double words and then the
    remaining bytes, and memmove runs backwards unless [dst < src]. *)

From stdpp Require Import base numbers list gmap.
From Stdlib Require Import ZArith Lia ZifyBool ZifyNat.
From S2P Require Import Prelude.

Open Scope Z_scope.

#[local] Coercion Z.of_nat : nat >-> Z.

Record cmem := CMem {
  bytes : gmap Z Z;
  blocks : gmap Z Z
}.

(** What the containers use of [kmalloc]: NULL, or a range that is not
    mapped yet; the contents of a new block are arbitrary. *)
Class KHeap := {
  kalloc : cmem -> Z -> option Z;
  junk : Z -> Z;
  junk_byte : forall a, 0 <= junk a < 256;
  kalloc_fresh : forall m n a i, kalloc m n = Some a -> 0 <= i < n -> bytes m !! (a + i) = None;
  kalloc_block : forall m n a, kalloc m n = Some a -> blocks m !! a = None;
  kalloc_pos : forall m n a, kalloc m n = Some a -> 0 < a
}.

Definition rdb (p : Z) : M cmem Z := fun s =>
  match bytes s !! p with Some b => Ret (b, s) | None => Fault end.
Definition wrb (p v : Z) : M cmem unit := fun s =>
  match bytes s !! p with
  | Some _ => Ret (tt, CMem (<[p := u8 v]> (bytes s)) (blocks s))
  | None => Fault
  end.

(** ** The copying instructions *)

(** [rep; movsb], upwards. *)
Fixpoint movsb_up (n : nat) (dst src : Z) : M cmem unit :=
  match n with
  | O => mret tt
  | S n => b ← rdb src; _ ← wrb dst b; movsb_up n (dst + 1) (src + 1)
  end.

(** [std; rep; movsb; cld]: [dst] and [src] are the last bytes. *)
Fixpoint movsb_down (n : nat) (dst src : Z) : M cmem unit :=
  match n with
  | O => mret tt
  | S n => b ← rdb src; _ ← wrb dst b; movsb_down n (dst - 1) (src - 1)
  end.

(** [rep; movsl]: four bytes are read, then written. *)
Fixpoint movsl_up (n : nat) (dst src : Z) : M cmem unit :=
  match n with
  | O => mret tt
  | S n =>
      b0 ← rdb src; b1 ← rdb (src + 1); b2 ← rdb (src + 2); b3 ← rdb (src + 3);
      _ ← wrb dst b0; _ ← wrb (dst + 1) b1; _ ← wrb (dst + 2) b2; _ ← wrb (dst + 3) b3;
      movsl_up n (dst + 4) (src + 4)
  end.

Definition memcpy (dst src n : Z) : M cmem Z :=
  _ ← movsl_up (Z.to_nat (n / 4)) dst src;
  _ ← movsb_up (Z.to_nat (Z.land n 3)) (dst + 4 * (n / 4)) (src + 4 * (n / 4));
  mret dst.

Definition memmove (dst src n : Z) : M cmem Z :=
  if dst <? src then memcpy dst src n
  else _ ← movsb_down (Z.to_nat n) (n - 1 + dst) (n - 1 + src); mret dst.

(** [rep; stosb] *)
Fixpoint stosb (n : nat) (p c : Z) : M cmem unit :=
  match n with O => mret tt | S n => _ ← wrb p c; stosb n (p + 1) c end.
Definition memset (s c n : Z) : M cmem Z := _ ← stosb (Z.to_nat n) s c; mret s.

Fixpoint memcmp_loop (n : nat) (s1 s2 : Z) : M cmem Z :=
  match n with
  | O => mret 0
  | S n =>
      a ← rdb s1; b ← rdb s2;
      if negb (a =? b) then mret (a - b) else memcmp_loop n (s1 + 1) (s2 + 1)
  end.
Definition memcmp (v1 v2 n : Z) : M cmem Z := memcmp_loop (Z.to_nat n) v1 v2.

(** ** Heap blocks *)

Definition zrange (a n : Z) : list Z := seqZ a n.

Section Heap.
Context `{KHeap}.

Definition map_block (a n : Z) (b : gmap Z Z) : gmap Z Z :=
  foldr (fun p b => <[p := junk p]> b) b (zrange a n).

Definition kmalloc_bytes (n : Z) : M cmem Z := fun s =>
  match kalloc s n with
  | None => Ret (0, s)
  | Some a => Ret (a, CMem (map_block a n (bytes s)) (<[a := n]> (blocks s)))
  end.

Definition unmap_block (a n : Z) (b : gmap Z Z) : gmap Z Z :=
  foldr (fun p b => delete p b) b (zrange a n).

(** [kfree] of anything but the start of a live block is a fault. *)
Definition kfree_bytes (a : Z) : M cmem unit := fun s =>
  match blocks s !! a with
  | Some n => Ret (tt, CMem (unmap_block a n (bytes s)) (delete a (blocks s)))
  | None => Fault
  end.
End Heap.

(** ** Ranges of bytes *)

(** The bytes [l] are at [p]. *)
Definition arr (b : gmap Z Z) (p : Z) (l : list Z) : Prop :=
  forall i x, l !! i = Some x -> b !! (p + Z.of_nat i) = Some x.

Definition mapped (b : gmap Z Z) (p n : Z) : Prop :=
  forall i, 0 <= i < n -> is_Some (b !! (p + i)).

Definition byte_list (l : list Z) : Prop := Forall (fun x => 0 <= x < 256) l.

Ltac byte_list_tac := unfold byte_list; repeat (apply Forall_cons; split; [lia|]); by apply Forall_nil.

(** Memory with [l] written at [p]. *)
Fixpoint blit (p : Z) (l : list Z) (b : gmap Z Z) : gmap Z Z :=
  match l with [] => b | x :: l => <[p := x]> (blit (p + 1) l b) end.

Lemma blit_lookup p l b a :
  blit p l b !! a = if (p <=? a) && (a <? p + Z.of_nat (length l)) then l !! Z.to_nat (a - p) else b !! a.
Proof.
  revert p. induction l as [|x l IH]; intros p; cbn [blit length].
  - change (Z.of_nat 0) with 0. by replace ((p <=? a) && (a <? p + 0)) with false by lia.
  - destruct (decide (a = p)) as [->|Hne].
    + rewrite lookup_insert_eq. replace ((p <=? p) && (p <? p + S (length l))) with true by lia.
      by rewrite Z.sub_diag.
    + rewrite lookup_insert_ne, IH by congruence.
      destruct (decide (p <= a < p + Z.of_nat (S (length l)))) as [Hin|Hout].
      * replace ((p + 1 <=? a) && (a <? p + 1 + length l)) with true by lia.
        replace ((p <=? a) && (a <? p + S (length l))) with true by lia.
        by replace (Z.to_nat (a - p)) with (S (Z.to_nat (a - (p + 1)))) by lia.
      * replace ((p + 1 <=? a) && (a <? p + 1 + length l)) with false by lia.
        by replace ((p <=? a) && (a <? p + S (length l))) with false by lia.
Qed.

Lemma blit_in p l b i x : l !! i = Some x -> blit p l b !! (p + Z.of_nat i) = Some x.
Proof.
  intros E. pose proof (lookup_lt_Some _ _ _ E). rewrite blit_lookup.
  replace ((p <=? p + i) && (p + i <? p + length l)) with true by lia.
  by replace (Z.to_nat (p + i - p)) with i by lia.
Qed.

Lemma blit_out p l b a : ~ p <= a < p + Z.of_nat (length l) -> blit p l b !! a = b !! a.
Proof.
  intros E. rewrite blit_lookup. by replace ((p <=? a) && (a <? p + length l)) with false by lia.
Qed.

Lemma arr_blit p l b : arr (blit p l b) p l.
Proof. intros i x. apply blit_in. Qed.

Lemma arr_app b p l1 l2 : arr b p (l1 ++ l2) <-> arr b p l1 /\ arr b (p + Z.of_nat (length l1)) l2.
Proof.
  split.
  - intros Hf. split; intros i x E.
    + apply Hf. by apply lookup_app_l_Some.
    + replace (p + length l1 + i) with (p + Z.of_nat (length l1 + i)) by lia. apply Hf.
      rewrite lookup_app_r by lia. by replace (length l1 + i - length l1)%nat with i by lia.
  - intros [H1 H2] i x E. apply lookup_app_Some in E as [E|[Hl E]]; [by apply H1|].
    replace (p + i) with (p + length l1 + Z.of_nat (i - length l1)) by lia. by apply H2.
Qed.

Lemma arr_cons b p x l : arr b p (x :: l) <-> b !! p = Some x /\ arr b (p + 1) l.
Proof.
  change (x :: l) with ([x] ++ l). rewrite arr_app. cbn [length].
  assert (arr b p [x] <-> b !! p = Some x) as ->; [|done]. split.
  - intros Hf. rewrite <- (Z.add_0_r p). by apply (Hf O).
  - intros E [|i] y Hy; [|done]. injection Hy as <-. by rewrite Z.add_0_r.
Qed.

Lemma arr_mapped b p l : arr b p l -> mapped b p (Z.of_nat (length l)).
Proof.
  intros Hf i Hi. destruct (lookup_lt_is_Some_2 l (Z.to_nat i)) as [x E]; [lia|]. exists x.
  replace i with (Z.of_nat (Z.to_nat i)) by lia. by apply Hf.
Qed.

Lemma arr_length_0 b p : arr b p [].
Proof. by intros [|i] x. Qed.

Lemma mapped_arr b p n : mapped b p n -> exists l, length l = Z.to_nat n /\ arr b p l.
Proof.
  remember (Z.to_nat n) as k eqn:Ek. revert p n Ek. induction k as [|k IH]; intros p n Ek Hm.
  - exists []. split; [done|apply arr_length_0].
  - destruct (Hm 0 ltac:(lia)) as [x Ex]. rewrite Z.add_0_r in Ex.
    destruct (IH (p + 1) (n - 1)) as (l & Hl & Ha); [lia| |].
    + intros i Hi. rewrite <- Z.add_assoc. apply Hm. lia.
    + exists (x :: l). split; [simpl; by rewrite Hl|]. by apply arr_cons.
Qed.

(** Writing elsewhere does not change a range. *)
Lemma arr_frame b b' p l :
  (forall a, p <= a < p + Z.of_nat (length l) -> b' !! a = b !! a) -> arr b p l -> arr b' p l.
Proof.
  intros Hf Ha i x E. pose proof (lookup_lt_Some _ _ _ E). rewrite Hf by lia. by apply Ha.
Qed.

Lemma arr_blit_other b p l q l' :
  q + Z.of_nat (length l') <= p \/ p + Z.of_nat (length l) <= q -> arr b p l -> arr (blit q l' b) p l.
Proof.
  intros Hd. apply arr_frame. intros a Ha. rewrite blit_lookup.
  by replace ((q <=? a) && (a <? q + Z.of_nat (length l'))) with false by lia.
Qed.

Lemma mapped_blit b p l q n : mapped b q n -> mapped (blit p l b) q n.
Proof.
  intros Hm i Hi. rewrite blit_lookup.
  destruct (decide (p <= q + i < p + Z.of_nat (length l))) as [Hin|Hout].
  - replace ((p <=? q + i) && (q + i <? p + length l)) with true by lia. apply lookup_lt_is_Some_2. lia.
  - replace ((p <=? q + i) && (q + i <? p + length l)) with false by lia. by apply Hm.
Qed.

Lemma mapped_sub b p n q m : mapped b p n -> p <= q -> q + m <= p + n -> mapped b q m.
Proof. intros Hm H1 H2 i Hi. replace (q + i) with (p + (q + i - p)) by lia. apply Hm. lia. Qed.

Lemma blit_app p l1 l2 b : blit p (l1 ++ l2) b = blit p l1 (blit (p + Z.of_nat (length l1)) l2 b).
Proof.
  revert p. induction l1 as [|x l1 IH]; intros p; cbn [app blit length].
  - by rewrite Z.add_0_r.
  - rewrite IH. by replace (p + 1 + length l1) with (p + S (length l1)) by lia.
Qed.

(** Two writes to disjoint ranges commute. *)
Lemma blit_comm p l q k b :
  p + Z.of_nat (length l) <= q \/ q + Z.of_nat (length k) <= p ->
  blit p l (blit q k b) = blit q k (blit p l b).
Proof.
  intros Hd. apply map_eq. intros a.
  destruct (decide (p <= a < p + Z.of_nat (length l))) as [Hp|Hp].
  - rewrite (blit_out q k) by lia. by rewrite !(blit_lookup p l), !(proj2 (andb_true_iff _ _)) by lia.
  - rewrite (blit_out p l) by done. destruct (decide (q <= a < q + Z.of_nat (length k))) as [Hq|Hq].
    + by rewrite !(blit_lookup q k), !(proj2 (andb_true_iff _ _)) by lia.
    + by rewrite !blit_out.
Qed.

(** ** Running the copies *)

Definition put_bytes (b : gmap Z Z) (s : cmem) : cmem := CMem b (blocks s).

Lemma rdb_run s p x : bytes s !! p = Some x -> rdb p s = Ret (x, s).
Proof. intros E. unfold rdb. by rewrite E. Qed.

(** Little-endian numbers. *)
Definition rd16 (p : Z) : M cmem Z := a ← rdb p; b ← rdb (p + 1); mret (a + 2 ^ 8 * b).
Definition rd32 (p : Z) : M cmem Z := a ← rd16 p; b ← rd16 (p + 2); mret (a + 2 ^ 16 * b).

Definition le16 (x : Z) : list Z := [x mod 2 ^ 8; x / 2 ^ 8].
Definition le32 (x : Z) : list Z := le16 (x mod 2 ^ 16) ++ le16 (x / 2 ^ 16).

Lemma rd16_run p x s : arr (bytes s) p (le16 x) -> rd16 p s = Ret (x, s).
Proof.
  intros Ha. apply arr_cons in Ha as [E0 Ha]. apply arr_cons in Ha as [E1 _]. unfold rd16.
  rewrite (M_bind_run _ _ _ _ _ (rdb_run _ _ _ E0)), (M_bind_run _ _ _ _ _ (rdb_run _ _ _ E1)).
  unfold mret, M_ret. do 2 f_equal. Z.div_mod_to_equations. lia.
Qed.

Lemma rd32_run p x s : arr (bytes s) p (le32 x) -> rd32 p s = Ret (x, s).
Proof.
  intros Ha. apply arr_app in Ha as [E0 E1]. unfold rd32.
  rewrite (M_bind_run _ _ _ _ _ (rd16_run _ _ _ E0)), (M_bind_run _ _ _ _ _ (rd16_run _ _ _ E1)).
  unfold mret, M_ret. do 2 f_equal. Z.div_mod_to_equations. lia.
Qed.

(** [memcmp] returns 0 on equal byte strings only. *)
Lemma memcmp_run s p q l1 l2 :
  arr (bytes s) p l1 -> arr (bytes s) q l2 -> length l1 = length l2 ->
  exists r, memcmp p q (Z.of_nat (length l1)) s = Ret (r, s) /\ (r = 0 <-> l1 = l2).
Proof.
  unfold memcmp. rewrite Nat2Z.id. revert l2 p q. induction l1 as [|x l1 IH]; intros [|y l2] p q H1 H2 Hl; try done.
  - by exists 0.
  - apply arr_cons in H1 as [E1 H1]. apply arr_cons in H2 as [E2 H2]. cbn [length memcmp_loop].
    rewrite (M_bind_run _ _ _ _ _ (rdb_run _ _ _ E1)), (M_bind_run _ _ _ _ _ (rdb_run _ _ _ E2)).
    destruct (Z.eqb_spec x y) as [->|Hne]; cbn [negb].
    + destruct (IH l2 (p + 1) (q + 1) H1 H2) as (r & E & Hr); [by injection Hl|].
      exists r. split; [exact E|]. rewrite Hr. split; [by intros ->|by intros [= ->]].
    + exists (x - y). split; [done|]. split; [lia|]. by intros [= ].
Qed.

Lemma wrb_run s p x :
  is_Some (bytes s !! p) -> 0 <= x < 256 -> wrb p x s = Ret (tt, put_bytes (<[p := x]> (bytes s)) s).
Proof. intros [y E] Hx. unfold wrb. by rewrite E, wrap_small. Qed.

Lemma blit_insert p x l b : blit (p + 1) l (<[p := x]> b) = blit p (x :: l) b.
Proof. change (<[p := x]> b) with (blit p [x] b). rewrite blit_comm; [done|]. cbn [length]. lia. Qed.

(** Two ranges do not overlap, or a copy upwards is safe. *)
Definition copy_safe (dst src n : Z) : Prop := dst <= src \/ src + n <= dst.

Lemma movsb_up_run l s dst src :
  arr (bytes s) src l -> byte_list l -> mapped (bytes s) dst (length l) -> copy_safe dst src (length l) ->
  movsb_up (length l) dst src s = Ret (tt, put_bytes (blit dst l (bytes s)) s).
Proof.
  unfold copy_safe. revert s dst src. induction l as [|x l IH]; intros s dst src Ha Hb Hm Hs; [by destruct s|].
  cbn [length movsb_up] in *. apply arr_cons in Ha as [Ex Ha]. apply Forall_cons in Hb as [Hx Hb].
  rewrite (M_bind_run _ _ _ _ _ (rdb_run _ _ _ Ex)).
  assert (Hd : is_Some (bytes s !! dst)) by (rewrite <- (Z.add_0_r dst); apply Hm; lia).
  rewrite (M_bind_run _ _ _ _ _ (wrb_run _ _ _ Hd Hx)).
  rewrite IH; cbn [bytes put_bytes]; [by rewrite blit_insert| |done| |lia].
  - eapply arr_frame; [|exact Ha]. intros a Hin. rewrite lookup_insert_ne; [done|lia].
  - change (<[dst := x]> (bytes s)) with (blit dst [x] (bytes s)). apply mapped_blit.
    eapply mapped_sub; [exact Hm|lia|lia].
Qed.

Lemma movsb_down_run l s dst src :
  arr (bytes s) src l -> byte_list l -> mapped (bytes s) dst (length l) -> src <= dst ->
  movsb_down (length l) (dst + length l - 1) (src + length l - 1) s = Ret (tt, put_bytes (blit dst l (bytes s)) s).
Proof.
  revert s dst src. induction l as [|x l IH] using rev_ind; intros s dst src Ha Hb Hm Hs; [by destruct s|].
  rewrite length_app, Nat.add_comm in *. cbn [length Nat.add movsb_down] in *.
  apply arr_app in Ha as [Ha Ex]. apply arr_cons in Ex as [Ex _].
  apply Forall_app in Hb as [Hb Hx]. apply Forall_cons in Hx as [Hx _].
  replace (src + S (length l) - 1) with (src + length l) by lia.
  replace (dst + S (length l) - 1) with (dst + length l) by lia.
  rewrite (M_bind_run _ _ _ _ _ (rdb_run _ _ _ Ex)).
  assert (Hd : is_Some (bytes s !! (dst + length l))) by (apply Hm; lia).
  rewrite (M_bind_run _ _ _ _ _ (wrb_run _ _ _ Hd Hx)).
  rewrite (IH _ dst src); cbn [bytes put_bytes]; [by rewrite blit_app| |done| |done].
  - eapply arr_frame; [|exact Ha]. intros a Hin. rewrite lookup_insert_ne; [done|lia].
  - change (<[dst + length l := x]> (bytes s)) with (blit (dst + length l) [x] (bytes s)). apply mapped_blit.
    eapply mapped_sub; [exact Hm|lia|lia].
Qed.

Lemma movsl_up_run n l s dst src :
  length l = (4 * n)%nat ->
  arr (bytes s) src l -> byte_list l -> mapped (bytes s) dst (length l) -> copy_safe dst src (length l) ->
  movsl_up n dst src s = Ret (tt, put_bytes (blit dst l (bytes s)) s).
Proof.
  unfold copy_safe. revert l s dst src. induction n as [|n IH]; intros l s dst src Hl Ha Hb Hm Hs.
  - apply nil_length_inv in Hl. subst l. by destruct s.
  - destruct l as [|x0 [|x1 [|x2 [|x3 l]]]]; cbn [length] in *; try lia.
    assert (Hrd : forall (i : nat) x, [x0; x1; x2; x3] !! i = Some x -> bytes s !! (src + i) = Some x).
    { intros i x E. apply Ha. change (x0 :: x1 :: x2 :: x3 :: l) with ([x0; x1; x2; x3] ++ l). by apply lookup_app_l_Some. }
    assert (Hbs : byte_list [x0; x1; x2; x3]) by (apply (Forall_app _ [x0; x1; x2; x3] l) in Hb as [? _]; done).
    assert (Ha4 : arr (bytes s) (src + 4) l) by (apply (arr_app _ _ [x0; x1; x2; x3] l) in Ha as [_ ?]; done).
    assert (Hb4 : byte_list l) by (apply (Forall_app _ [x0; x1; x2; x3] l) in Hb as [_ ?]; done).
    unfold byte_list in Hbs. rewrite !Forall_cons in Hbs. destruct Hbs as (B0 & B1 & B2 & B3 & _).
    pose proof (Hrd 0%nat x0 eq_refl) as E0. change (Z.of_nat 0) with 0 in E0. rewrite Z.add_0_r in E0.
    pose proof (Hrd 1%nat x1 eq_refl) as E1. pose proof (Hrd 2%nat x2 eq_refl) as E2. pose proof (Hrd 3%nat x3 eq_refl) as E3.
    assert (Hd : forall b k, (0 <= k < 4) -> is_Some (blit dst b (bytes s) !! (dst + k))).
    { intros b k Hk. apply mapped_blit with (n := 4 * S n); [|lia]. eapply mapped_sub; [exact Hm|lia|lia]. }
    cbn [movsl_up]. rewrite (M_bind_run _ _ _ _ _ (rdb_run _ _ _ E0)), (M_bind_run _ _ _ _ _ (rdb_run _ _ _ E1)).
    rewrite (M_bind_run _ _ _ _ _ (rdb_run _ _ _ E2)), (M_bind_run _ _ _ _ _ (rdb_run _ _ _ E3)).
    assert (M0 : forall s1, bytes s1 = bytes s \/ (exists b, bytes s1 = blit dst b (bytes s)) ->
      forall k, 0 <= k < 4 -> is_Some (bytes s1 !! (dst + k))).
    { intros s1 [->|[b ->]] k Hk; [apply (Hd [] k Hk)|by apply Hd]. }
    assert (W0 : wrb dst x0 s = Ret (tt, put_bytes (blit dst [x0] (bytes s)) s)).
    { apply wrb_run; [|done]. rewrite <- (Z.add_0_r dst). apply (Hd [] 0). lia. }
    assert (W1 : forall x bs k, 0 <= x < 256 -> 0 <= k < 4 -> Z.of_nat (length bs) = k ->
       wrb (dst + k) x (put_bytes (blit dst bs (bytes s)) s) = Ret (tt, put_bytes (blit dst (bs ++ [x]) (bytes s)) s)).
    { intros x bs k Hx Hk Hlen. rewrite wrb_run; [|by apply Hd|done]. unfold put_bytes. cbn [bytes blocks]. do 3 f_equal.
      rewrite blit_app, Hlen. change (<[dst + k := x]> (blit dst bs (bytes s))) with (blit (dst + k) [x] (blit dst bs (bytes s))).
      apply blit_comm. cbn [length]. lia. }
    rewrite (M_bind_run _ _ _ _ _ W0).
    rewrite (M_bind_run _ _ _ _ _ (W1 x1 [x0] 1 B1 ltac:(lia) eq_refl)).
    rewrite (M_bind_run _ _ _ _ _ (W1 x2 [x0; x1] 2 B2 ltac:(lia) eq_refl)).
    rewrite (M_bind_run _ _ _ _ _ (W1 x3 [x0; x1; x2] 3 B3 ltac:(lia) eq_refl)).
    cbn [app]. clear W0 W1 M0 E0 E1 E2 E3 Hrd.
    rewrite (IH l); cbn [bytes put_bytes blocks]; [|lia| |done| |lia].
    + unfold put_bytes. cbn [blocks]. do 3 f_equal. rewrite (blit_comm (dst + 4) l dst) by (cbn [length]; lia).
      change (x0 :: x1 :: x2 :: x3 :: l) with ([x0; x1; x2; x3] ++ l). by rewrite (blit_app dst [x0; x1; x2; x3] l).
    + eapply arr_frame; [|exact Ha4]. intros a Hin. apply blit_out. cbn [length]. lia.
    + apply mapped_blit. eapply mapped_sub; [exact Hm|lia|lia].
Qed.

(** [memcpy] copies when the ranges do not overlap or it runs downwards in
    memory. *)
Lemma memcpy_run l s dst src n :
  n = Z.of_nat (length l) -> arr (bytes s) src l -> byte_list l -> mapped (bytes s) dst n -> copy_safe dst src n ->
  memcpy dst src n s = Ret (dst, put_bytes (blit dst l (bytes s)) s).
Proof.
  intros -> Ha Hb Hm Hs. set (n := Z.of_nat (length l)) in *. set (k := 4 * (n / 4)).
  assert (Hk : k = n - n mod 4) by (unfold k; pose proof (Z.div_mod n 4); lia).
  assert (Hland : Z.land n 3 = n mod 4) by (change 3 with (Z.ones 2); by rewrite Z.land_ones by lia).
  pose proof (Z.mod_pos_bound n 4 ltac:(lia)).
  set (l1 := take (Z.to_nat k) l). set (l2 := drop (Z.to_nat k) l).
  assert (El : l = l1 ++ l2) by (symmetry; apply take_drop).
  assert (Hl1 : length l1 = Z.to_nat k) by (unfold l1; rewrite length_take; lia).
  assert (Hl2 : length l2 = Z.to_nat (n mod 4)) by (unfold l2; rewrite length_drop; lia).
  rewrite El in Ha, Hb |- *. apply arr_app in Ha as [Ha1 Ha2]. apply Forall_app in Hb as [Hb1 Hb2].
  replace (src + length l1) with (src + k) in Ha2 by lia. unfold copy_safe in *.
  unfold memcpy. fold k. rewrite Hland.
  rewrite (M_bind_run _ _ _ _ _ (movsl_up_run (Z.to_nat (n / 4)) l1 s dst src ltac:(lia) Ha1 Hb1
    ltac:(eapply mapped_sub; [exact Hm|lia|lia]) ltac:(unfold copy_safe; lia))).
  replace (Z.to_nat (n mod 4)) with (length l2) by lia.
  rewrite (M_bind_run _ _ _ _ _ (movsb_up_run l2 (put_bytes (blit dst l1 (bytes s)) s) (dst + k) (src + k)
    ltac:(eapply arr_frame; [|exact Ha2]; intros a Hin; apply blit_out; lia) Hb2
    ltac:(apply mapped_blit; eapply mapped_sub; [exact Hm|lia|lia]) ltac:(unfold copy_safe; lia))).
  cbn [bytes put_bytes blocks]. unfold mret, M_ret, put_bytes. cbn [blocks]. do 3 f_equal.
  rewrite blit_app. replace (dst + length l1) with (dst + k) by lia. symmetry. apply blit_comm. lia.
Qed.

Lemma memmove_run l s dst src n :
  n = Z.of_nat (length l) -> arr (bytes s) src l -> byte_list l -> mapped (bytes s) dst n ->
  memmove dst src n s = Ret (dst, put_bytes (blit dst l (bytes s)) s).
Proof.
  intros -> Ha Hb Hm. unfold memmove. destruct (Z.ltb_spec dst src) as [Hlt|Hge].
  - apply (memcpy_run l); [done..|left; lia].
  - rewrite Nat2Z.id. replace (length l - 1 + dst) with (dst + length l - 1) by lia.
    replace (length l - 1 + src) with (src + length l - 1) by lia.
    by rewrite (M_bind_run _ _ _ _ _ (movsb_down_run l s dst src Ha Hb Hm Hge)).
Qed.

Lemma stosb_run (n : nat) s p c :
  mapped (bytes s) p n -> 0 <= c < 256 ->
  stosb n p c s = Ret (tt, put_bytes (blit p (replicate n c) (bytes s)) s).
Proof.
  revert s p. induction n as [|n IH]; intros s p Hm Hc; [by destruct s|]. cbn [stosb replicate].
  assert (Hd : is_Some (bytes s !! p)) by (rewrite <- (Z.add_0_r p); apply Hm; lia).
  rewrite (M_bind_run _ _ _ _ _ (wrb_run _ _ _ Hd Hc)). rewrite IH; [|cbn [bytes put_bytes]|done].
  - cbn [bytes put_bytes]. by rewrite blit_insert.
  - change (<[p := c]> (bytes s)) with (blit p [c] (bytes s)). apply mapped_blit.
    eapply mapped_sub; [exact Hm|lia|lia].
Qed.

Lemma memset_run n s p c :
  0 <= n -> mapped (bytes s) p n -> 0 <= c < 256 ->
  memset p c n s = Ret (p, put_bytes (blit p (replicate (Z.to_nat n) c) (bytes s)) s).
Proof.
  intros Hn Hm Hc. unfold memset. rewrite (M_bind_run _ _ _ _ _ (stosb_run (Z.to_nat n) s p c ltac:(by replace (Z.of_nat (Z.to_nat n)) with n by lia) Hc)). done.
Qed.

(** ** The heap *)

(** Live blocks are mapped and do not overlap. *)
Record heap_ok (s : cmem) : Prop := HeapOk {
  ho_mapped : forall a n, blocks s !! a = Some n -> 0 < n /\ mapped (bytes s) a n;
  ho_disjoint : forall a n b m, blocks s !! a = Some n -> blocks s !! b = Some m -> a <> b ->
    a + n <= b \/ b + m <= a
}.

Lemma unmap_block_lookup a n b p :
  unmap_block a n b !! p = if (a <=? p) && (p <? a + n) then None else b !! p.
Proof.
  unfold unmap_block, zrange. assert (Hin : ((a <=? p) && (p <? a + n) = true) <-> p ∈ seqZ a n) by (rewrite elem_of_seqZ; lia).
  destruct ((a <=? p) && (p <? a + n)) eqn:E.
  - apply proj1 in Hin. specialize (Hin eq_refl). clear E. induction (seqZ a n) as [|q l IH]; [by apply elem_of_nil in Hin|].
    cbn [foldr]. destruct (decide (p = q)) as [->|Hne]; [apply lookup_delete_eq|].
    rewrite lookup_delete_ne by congruence. apply IH. by apply elem_of_cons in Hin as [?|?].
  - assert (Hn : p ∉ seqZ a n) by (intros Hc; by apply Hin in Hc). clear E Hin.
    induction (seqZ a n) as [|q l IH]; [done|]. cbn [foldr]. apply not_elem_of_cons in Hn as [Hn1 Hn2].
    rewrite lookup_delete_ne by congruence. by apply IH.
Qed.

Section HeapLemmas.
Context `{KHeap}.

Lemma map_block_lookup a n b p :
  map_block a n b !! p = if (a <=? p) && (p <? a + n) then Some (junk p) else b !! p.
Proof.
  unfold map_block, zrange. assert (Hin : ((a <=? p) && (p <? a + n) = true) <-> p ∈ seqZ a n) by (rewrite elem_of_seqZ; lia).
  destruct ((a <=? p) && (p <? a + n)) eqn:E.
  - apply proj1 in Hin. specialize (Hin eq_refl). clear E. induction (seqZ a n) as [|q l IH]; [by apply elem_of_nil in Hin|].
    cbn [foldr]. destruct (decide (p = q)) as [->|Hne]; [apply lookup_insert_eq|].
    rewrite lookup_insert_ne by congruence. apply IH. by apply elem_of_cons in Hin as [?|?].
  - assert (Hn : p ∉ seqZ a n) by (intros Hc; by apply Hin in Hc). clear E Hin.
    induction (seqZ a n) as [|q l IH]; [done|]. cbn [foldr]. apply not_elem_of_cons in Hn as [Hn1 Hn2].
    rewrite lookup_insert_ne by congruence. by apply IH.
Qed.

(** A new block: nothing that was mapped moves. *)
Lemma kmalloc_run s n :
  0 < n -> heap_ok s ->
  (kalloc s n = None /\ kmalloc_bytes n s = Ret (0, s)) \/
  exists a s', kmalloc_bytes n s = Ret (a, s') /\ 0 < a /\ heap_ok s' /\
    blocks s !! a = None /\ blocks s' = <[a := n]> (blocks s) /\ mapped (bytes s') a n /\
    (forall p, a <= p < a + n -> bytes s !! p = None) /\
    (forall p, ~ a <= p < a + n -> bytes s' !! p = bytes s !! p) /\
    (forall p x, bytes s !! p = Some x -> bytes s' !! p = Some x).
Proof.
  intros Hn [Hm Hd]. unfold kmalloc_bytes. destruct (kalloc s n) as [a|] eqn:E; [right|by left].
  pose proof (fun i => kalloc_fresh s n a i E) as Hf. pose proof (kalloc_block _ _ _ E) as Hb.
  set (s' := CMem (map_block a n (bytes s)) (<[a := n]> (blocks s))).
  assert (Hfresh : forall p, a <= p < a + n -> bytes s !! p = None).
  { intros p Hp. replace p with (a + (p - a)) by lia. apply Hf. lia. }
  assert (Hout : forall p, ~ a <= p < a + n -> bytes s' !! p = bytes s !! p).
  { intros p Hp. cbn [s' bytes]. rewrite map_block_lookup. by replace ((a <=? p) && (p <? a + n)) with false by lia. }
  assert (Hkeep : forall p x, bytes s !! p = Some x -> bytes s' !! p = Some x).
  { intros p x Hp. rewrite Hout; [done|]. intros Hc. by rewrite Hfresh in Hp. }
  assert (Hmap : mapped (bytes s') a n).
  { intros i Hi. cbn [s' bytes]. rewrite map_block_lookup. by replace ((a <=? a + i) && (a + i <? a + n)) with true by lia. }
  assert (Hsep : forall b m, blocks s !! b = Some m -> a + n <= b \/ b + m <= a).
  { intros b m Hbm. destruct (Hm b m Hbm) as [Hm0 Hbm'].
    destruct (decide (a + n <= b \/ b + m <= a)) as [?|Hov]; [done|]. exfalso.
    assert (Hp : exists p, a <= p < a + n /\ b <= p < b + m).
    { exists (Z.max a b). lia. }
    destruct Hp as (p & Hp1 & Hp2). destruct (Hbm' (p - b) ltac:(lia)) as [x Hx].
    replace (b + (p - b)) with p in Hx by lia. by rewrite Hfresh in Hx. }
  exists a, s'. split_and!; try done; [by eapply kalloc_pos|].
  split; cbn [s' blocks].
  - intros b m [[<- <-]|[Hne Hbm]]%lookup_insert_Some; [done|]. destruct (Hm _ _ Hbm) as [? Hbm']. split; [done|].
    intros i Hi. destruct (Hbm' i Hi) as [x Hx]. exists x. by apply Hkeep.
  - intros b m c k [[<- <-]|[Hne1 Hbm]]%lookup_insert_Some [[<- <-]|[Hne2 Hck]]%lookup_insert_Some Hbc; [done| | |by eapply Hd].
    + by apply Hsep.
    + destruct (Hsep _ _ Hbm); tauto.
Qed.

(** Freeing a block unmaps it and nothing else. *)
Lemma kfree_run s a n :
  heap_ok s -> blocks s !! a = Some n ->
  exists s', kfree_bytes a s = Ret (tt, s') /\ heap_ok s' /\ blocks s' = delete a (blocks s) /\
    (forall p, ~ a <= p < a + n -> bytes s' !! p = bytes s !! p).
Proof.
  intros [Hm Hd] Ha. exists (CMem (unmap_block a n (bytes s)) (delete a (blocks s))).
  assert (Hout : forall p, ~ a <= p < a + n -> unmap_block a n (bytes s) !! p = bytes s !! p).
  { intros p Hp. rewrite unmap_block_lookup. by replace ((a <=? p) && (p <? a + n)) with false by lia. }
  split_and!; [unfold kfree_bytes; by rewrite Ha| |done|done]. split; cbn [bytes blocks].
  - intros b m [Hne Hbm]%lookup_delete_Some. destruct (Hm _ _ Hbm) as [? Hbm']. split; [done|].
    intros i Hi. rewrite Hout; [by apply Hbm'|]. destruct (Hd _ _ _ _ Ha Hbm Hne); lia.
  - intros b m c k [_ Hbm]%lookup_delete_Some [_ Hck]%lookup_delete_Some. by apply Hd.
Qed.
End HeapLemmas.

(** Writes inside mapped memory keep the heap well formed. *)
Lemma heap_ok_put s b : heap_ok s -> (forall p, is_Some (bytes s !! p) -> is_Some (b !! p)) -> heap_ok (put_bytes b s).
Proof.
  intros [Hm Hd] Hb. split; cbn [put_bytes bytes blocks]; [|done]. intros a n Ha. destruct (Hm _ _ Ha) as [? Hmap].
  split; [done|]. intros i Hi. apply Hb. by apply Hmap.
Qed.
Lemma heap_ok_blit s p l : heap_ok s -> heap_ok (put_bytes (blit p l (bytes s)) s).
Proof.
  intros Hs. apply heap_ok_put; [done|]. intros q Hq. rewrite <- (Z.add_0_r q). apply (mapped_blit _ _ _ _ 1); [|lia].
  intros i Hi. by replace (q + i) with q by lia.
Qed.

(** ** Correctness of the memory routines *)

(** C32. [memmove] copies [n] bytes however source and destination overlap:
    afterwards the destination holds what the source held before, and no
    other byte has changed. *)
Theorem memmove_ok (s : cmem) (dst src n : Z) (l : list Z) :
  n = Z.of_nat (length l) -> arr (bytes s) src l -> byte_list l -> mapped (bytes s) dst n ->
  exists s', memmove dst src n s = Ret (dst, s') /\ arr (bytes s') dst l /\ blocks s' = blocks s /\
    forall a, ~ dst <= a < dst + n -> bytes s' !! a = bytes s !! a.
Proof.
  intros Hn Ha Hb Hm. exists (put_bytes (blit dst l (bytes s)) s). split; [by apply memmove_run|].
  split; [apply arr_blit|]. split; [done|]. intros a Hout. cbn [bytes put_bytes]. apply blit_out. by rewrite <- Hn.
Qed.

(** [memcpy], which moves double words and then the remaining bytes,
    does the same as [memmove] for every size when the ranges do not overlap,
    or when the destination starts below the source. *)
Theorem memcpy_ok (s : cmem) (dst src n : Z) (l : list Z) :
  n = Z.of_nat (length l) -> arr (bytes s) src l -> byte_list l -> mapped (bytes s) dst n -> copy_safe dst src n ->
  memcpy dst src n s = memmove dst src n s /\
  exists s', memcpy dst src n s = Ret (dst, s') /\ arr (bytes s') dst l /\
    forall a, ~ dst <= a < dst + n -> bytes s' !! a = bytes s !! a.
Proof.
  intros Hn Ha Hb Hm Hs. rewrite (memmove_run l), (memcpy_run l) by done. split; [done|].
  eexists. split; [done|]. split; [apply arr_blit|].
  intros a Hout. cbn [bytes put_bytes]. apply blit_out. by rewrite <- Hn.
Qed.

Definition mem8 : cmem :=
  CMem (blit 100 [1; 2; 3; 4; 5; 6; 7; 8] ∅) (<[100 := 8]> ∅).

Lemma mem8_arr : arr (bytes mem8) 100 [1; 2; 3; 4; 5].
Proof.
  change (bytes mem8) with (blit 100 ([1; 2; 3; 4; 5] ++ [6; 7; 8]) ∅).
  pose proof (arr_blit 100 ([1; 2; 3; 4; 5] ++ [6; 7; 8]) ∅) as H. by apply arr_app in H as [H _].
Qed.

Lemma mem8_mapped p n : 100 <= p -> p + n <= 108 -> mapped (bytes mem8) p n.
Proof.
  intros H1 H2. apply (mapped_sub _ 100 8); [|done|done].
  apply (arr_mapped _ 100 [1; 2; 3; 4; 5; 6; 7; 8]), arr_blit.
Qed.

Lemma byte_list_5 : byte_list [1; 2; 3; 4; 5].
Proof. byte_list_tac. Qed.

Lemma memmove_ok_witness :
  exists s', memmove 102 100 5 mem8 = Ret (102, s') /\ arr (bytes s') 102 [1; 2; 3; 4; 5] /\ blocks s' = blocks mem8 /\
    forall a, ~ 102 <= a < 102 + 5 -> bytes s' !! a = bytes mem8 !! a.
Proof.
  apply (memmove_ok mem8 102 100 5 [1; 2; 3; 4; 5]); [done|apply mem8_arr|apply byte_list_5|apply mem8_mapped; lia].
Defined.

Lemma mem8_arr3 : arr (bytes mem8) 100 [1; 2; 3].
Proof. pose proof mem8_arr as H. by apply (arr_app _ _ [1; 2; 3] [4; 5]) in H as [H _]. Qed.

Lemma memcpy_ok_witness :
  memcpy 104 100 3 mem8 = memmove 104 100 3 mem8 /\
  exists s', memcpy 104 100 3 mem8 = Ret (104, s') /\ arr (bytes s') 104 [1; 2; 3] /\
    forall a, ~ 104 <= a < 104 + 3 -> bytes s' !! a = bytes mem8 !! a.
Proof.
  apply (memcpy_ok mem8 104 100 3 [1; 2; 3]); [done|apply mem8_arr3|byte_list_tac|apply mem8_mapped; lia|right; lia].
Defined.

(** *** A heap that never reuses addresses *)

Definition top (m : gmap Z Z) : Z := map_fold (fun k _ acc => Z.max k acc) 0 m.

Lemma top_spec m k x : m !! k = Some x -> k <= top m.
Proof.
  unfold top. revert k x. apply (map_fold_weak_ind (fun r m => forall k x, m !! k = Some x -> k <= r)).
  - intros k x E. by rewrite lookup_empty in E.
  - intros i y m' r Hi IH k x [[-> _]|[_ E]]%lookup_insert_Some; [lia|]. apply IH in E. lia.
Qed.

Lemma top_above m k : top m < k -> m !! k = None.
Proof. intros Hk. destruct (m !! k) eqn:E; [|done]. apply top_spec in E. lia. Qed.

Lemma top_nonneg m : 0 <= top m.
Proof.
  unfold top. apply (map_fold_weak_ind (fun r _ => 0 <= r)); [done|]. intros. lia.
Qed.

Definition bump (m : cmem) : Z := 1 + Z.max (top (bytes m)) (top (blocks m)).

Definition bump_heap : KHeap.
Proof.
  refine {| kalloc m n := Some (bump m); junk _ := 0 |}.
  - lia.
  - intros m n a i [= <-] Hi. apply top_above. unfold bump. lia.
  - intros m n a [= <-]. apply top_above. unfold bump. lia.
  - intros m n a [= <-]. unfold bump. pose proof (top_nonneg (bytes m)). lia.
Defined.
