(* ===== verification/CString.v ===== *)
(** * C strings (first half of libs/string.c)

    The routines on NUL-terminated strings and the conversions between
    integers and text, over the byte memory of CMem.v.  [strcmp] and [strcpy]
    are the instruction sequences of include/x86.h, which replace the C
    loops.  A [char] is signed on this target, so a byte is sign-extended
    where the code compares it with a constant. *)

From stdpp Require Import base numbers list gmap.
From Stdlib Require Import ZArith Lia ZifyBool ZifyNat.
From S2P Require Import Prelude CMem.

Open Scope Z_scope.

#[local] Coercion Z.of_nat : nat >-> Z.

(** No scan visits more bytes than are mapped. *)
Definition scan_fuel (s : cmem) : nat := S (size (bytes s)).

Fixpoint strlen_loop (fuel : nat) (s cnt : Z) : M cmem Z :=
  match fuel with
  | O => fun _ => Spin
  | S fuel => b ← rdb s; if b =? 0 then mret cnt else strlen_loop fuel (s + 1) (u32 (cnt + 1))
  end.
Definition strlen (s : Z) : M cmem Z := m ← mget; strlen_loop (scan_fuel m) s 0.

Fixpoint strnlen_loop (len : nat) (s cnt : Z) : M cmem Z :=
  match len with
  | O => mret cnt
  | S len => b ← rdb s; if b =? 0 then mret cnt else strnlen_loop len (s + 1) (u32 (cnt + 1))
  end.
Definition strnlen (s len : Z) : M cmem Z := strnlen_loop (Z.to_nat len) s 0.

(** [lodsb; stosb; testb %al, %al; jne] *)
Fixpoint strcpy_loop (fuel : nat) (dst src : Z) : M cmem unit :=
  match fuel with
  | O => fun _ => Spin
  | S fuel =>
      b ← rdb src; _ ← wrb dst b;
      if b =? 0 then mret tt else strcpy_loop fuel (dst + 1) (src + 1)
  end.
Definition strcpy (dst src : Z) : M cmem Z :=
  m ← mget; _ ← strcpy_loop (scan_fuel m) dst src; mret dst.

Fixpoint strncpy_loop (len : nat) (p src : Z) : M cmem unit :=
  match len with
  | O => mret tt
  | S len =>
      b ← rdb src; _ ← wrb p b;
      strncpy_loop len (p + 1) (if b =? 0 then src else src + 1)
  end.
Definition strncpy (dst src len : Z) : M cmem Z :=
  _ ← strncpy_loop (Z.to_nat len) dst src; mret dst.

(** [lodsb; scasb]; a difference gives [sbbl %eax, %eax; orb $1, %al]. *)
Fixpoint strcmp_loop (fuel : nat) (s1 s2 : Z) : M cmem Z :=
  match fuel with
  | O => fun _ => Spin
  | S fuel =>
      a ← rdb s1; b ← rdb s2;
      if negb (a =? b) then mret (if a <? b then -1 else 1)
      else if a =? 0 then mret 0 else strcmp_loop fuel (s1 + 1) (s2 + 1)
  end.
Definition strcmp (s1 s2 : Z) : M cmem Z := m ← mget; strcmp_loop (scan_fuel m) s1 s2.

Fixpoint strncmp_loop (n : nat) (s1 s2 : Z) : M cmem Z :=
  match n with
  | O => mret 0
  | S n =>
      a ← rdb s1;
      if a =? 0 then b ← rdb s2; mret (a - b)
      else
        b ← rdb s2;
        if a =? b then strncmp_loop n (s1 + 1) (s2 + 1) else mret (a - b)
  end.
Definition strncmp (s1 s2 n : Z) : M cmem Z := strncmp_loop (Z.to_nat n) s1 s2.

Fixpoint strfind_loop (fuel : nat) (s c : Z) : M cmem Z :=
  match fuel with
  | O => fun _ => Spin
  | S fuel =>
      b ← rdb s;
      if b =? 0 then mret s else if b =? c then mret s else strfind_loop fuel (s + 1) c
  end.
Definition strfind (s c : Z) : M cmem Z := m ← mget; strfind_loop (scan_fuel m) s c.

Fixpoint strchr_loop (fuel : nat) (s c : Z) : M cmem Z :=
  match fuel with
  | O => fun _ => Spin
  | S fuel =>
      b ← rdb s;
      if b =? 0 then mret 0 else if b =? c then mret s else strchr_loop fuel (s + 1) c
  end.
Definition strchr (s c : Z) : M cmem Z := m ← mget; strchr_loop (scan_fuel m) s c.

(** ** Numbers *)

(** Character codes. *)
Definition ch_tab : Z := 9.
Definition ch_space : Z := 32.
Definition ch_plus : Z := 43.
Definition ch_minus : Z := 45.
Definition ch_0 : Z := 48.
Definition ch_9 : Z := 57.
Definition ch_A : Z := 65.
Definition ch_Z : Z := 90.
Definition ch_a : Z := 97.
Definition ch_f : Z := 102.
Definition ch_x : Z := 120.
Definition ch_z : Z := 122.

(** The value of a digit in [strtol], if the character is one. *)
Definition digit_value (b : Z) : option Z :=
  let c := s8 b in
  if (ch_0 <=? c) && (c <=? ch_9) then Some (c - ch_0)
  else if (ch_a <=? c) && (c <=? ch_z) then Some (c - ch_a + 10)
  else if (ch_A <=? c) && (c <=? ch_Z) then Some (c - ch_A + 10)
  else None.

Fixpoint skip_blank (fuel : nat) (s : Z) : M cmem Z :=
  match fuel with
  | O => fun _ => Spin
  | S fuel =>
      b ← rdb s;
      if (b =? ch_space) || (b =? ch_tab) then skip_blank fuel (s + 1) else mret s
  end.

Fixpoint strtol_digits (fuel : nat) (s val base : Z) : M cmem (Z * Z) :=
  match fuel with
  | O => fun _ => Spin
  | S fuel =>
      b ← rdb s;
      match digit_value b with
      | None => mret (val, s)
      | Some dig =>
          if base <=? dig then mret (val, s)
          else strtol_digits fuel (s + 1) (s32 (s32 (val * base) + dig)) base
      end
  end.

(** The value and the pointer stored through [endptr]. *)
Definition strtol (s base : Z) : M cmem (Z * Z) :=
  m ← mget;
  s ← skip_blank (scan_fuel m) s;
  b ← rdb s;
  let '(s, neg) := if b =? ch_plus then (s + 1, false) else if b =? ch_minus then (s + 1, true) else (s, false) in
  '(s, base) ←
    (if (base =? 0) || (base =? 16) then
       b0 ← rdb s;
       if b0 =? ch_0 then
         b1 ← rdb (s + 1);
         if b1 =? ch_x then mret (s + 2, 16)
         else if base =? 0 then mret (s + 1, 8) else mret (s, base)
       else if base =? 0 then mret (s, 10) else mret (s, base)
     else mret (s, base));
  '(val, s) ← strtol_digits (scan_fuel m) s 0 base;
  mret (if neg : bool then s32 (- val) else val, s).

Fixpoint reverse_loop (fuel : nat) (buf i j : Z) : M cmem unit :=
  match fuel with
  | O => fun _ => Spin
  | S fuel =>
      if i <? j then
        c ← rdb (buf + i);
        b ← rdb (buf + j);
        _ ← wrb (buf + i) b;
        _ ← wrb (buf + j) c;
        reverse_loop fuel buf (i + 1) (j - 1)
      else mret tt
  end.
Definition reverse_str (buf i j : Z) : M cmem unit := reverse_loop (S (Z.to_nat (j - i))) buf i j.

(** A 32-bit number has at most 10 decimal and 8 hexadecimal digits. *)
Definition digits_fuel : nat := 11.

Fixpoint put_decimal (fuel : nat) (buf i val : Z) : M cmem Z :=
  match fuel with
  | O => fun _ => Spin
  | S fuel =>
      if 0 <? val then
        _ ← wrb (buf + i) (ch_0 + Z.rem val 10);
        put_decimal fuel buf (i + 1) (Z.quot val 10)
      else mret i
  end.

Definition to_str (val buf len : Z) : M cmem Z :=
  if val =? 0 then _ ← wrb buf ch_0; mret 1
  else
    '(i, val, flag) ←
      (if val <? 0 then _ ← wrb buf ch_minus; mret (1, s32 (- val), -1) else mret (0, val, 0));
    i ← put_decimal digits_fuel buf i val;
    _ ← reverse_str buf (if flag <? 0 then 1 else 0) (i - 1);
    mret i.

(** [__str_hex] *)
Definition str_hex : list Z := [48; 49; 50; 51; 52; 53; 54; 55; 56; 57; 97; 98; 99; 100; 101; 102].
Definition hex_char (d : Z) : Z := default 0 (str_hex !! Z.to_nat d).

Fixpoint put_hex (fuel : nat) (buf i val : Z) : M cmem Z :=
  match fuel with
  | O => fun _ => Spin
  | S fuel =>
      if 0 <? val then
        _ ← wrb (buf + i) (hex_char (val mod 16));
        put_hex fuel buf (i + 1) (val / 16)
      else mret i
  end.

Fixpoint pad_zero (fuel : nat) (buf i : Z) : M cmem Z :=
  match fuel with
  | O => fun _ => Spin
  | S fuel => if i <? 10 then _ ← wrb (buf + i) ch_0; pad_zero fuel buf (i + 1) else mret i
  end.

Definition to_hex (val buf len : Z) : M cmem Z :=
  _ ← wrb buf ch_0;
  _ ← wrb (buf + 1) ch_x;
  i ← put_hex digits_fuel buf 2 val;
  i ← pad_zero digits_fuel buf i;
  _ ← reverse_str buf 2 (i - 1);
  mret i.

Definition is_num (c : Z) : bool := (ch_0 <=? s8 c) && (s8 c <=? ch_9).
Definition is_digit (c : Z) : bool := is_num c || ((ch_a <=? s8 c) && (s8 c <=? ch_f)).

(** ** Strings in memory *)

Definition char_list (l : list Z) : Prop := Forall (fun c => 0 < c < 256) l.

(** A NUL-terminated string. *)
Definition cstr (b : gmap Z Z) (p : Z) (l : list Z) : Prop := arr b p (l ++ [0]) /\ char_list l.

Lemma arr_size b p l : arr b p l -> (length l <= size b)%nat.
Proof.
  intros Ha. rewrite <- (size_dom b). set (k := (fun i : nat => p + i) <$> seq 0 (length l)).
  assert (Hk : length k = length l) by (unfold k; by rewrite length_fmap, length_seq).
  rewrite <- Hk. assert (Hn : NoDup k).
  { unfold k. apply NoDup_fmap; [intros i j E; lia|apply NoDup_seq]. }
  rewrite <- (size_list_to_set (C := gset Z) k Hn). apply subseteq_size.
  intros a Hin%elem_of_list_to_set. unfold k in Hin. apply list_elem_of_fmap in Hin as (i & -> & Hi%elem_of_seq).
  apply elem_of_dom, (arr_mapped _ _ _ Ha). lia.
Qed.

Lemma cstr_fuel b p l : cstr b p l -> (length l < size b)%nat.
Proof. intros [Ha%arr_size _]. rewrite length_app in Ha. cbn in Ha. lia. Qed.

Lemma char_neq0 c : 0 < c < 256 -> (c =? 0) = false.
Proof. lia. Qed.

Lemma cstr_cons b p c l : cstr b p (c :: l) <-> b !! p = Some c /\ 0 < c < 256 /\ cstr b (p + 1) l.
Proof. unfold cstr, char_list. rewrite <- app_comm_cons, arr_cons, Forall_cons. tauto. Qed.
Lemma cstr_nil b p : cstr b p [] <-> b !! p = Some 0.
Proof.
  unfold cstr, char_list. rewrite app_nil_l, arr_cons. split; [by intros [[? _] _]|].
  intros ?. split; [split; [done|apply arr_length_0]|constructor].
Qed.

Lemma strlen_loop_run l fuel s p cnt :
  cstr (bytes s) p l -> (length l < fuel)%nat -> 0 <= cnt -> cnt + length l < 2 ^ 32 ->
  strlen_loop fuel p cnt s = Ret (cnt + length l, s).
Proof.
  revert fuel p cnt. induction l as [|c l IH]; intros fuel p cnt Hc Hf H1 H2;
    (destruct fuel as [|fuel]; [cbn [length] in Hf; lia|]); cbn [strlen_loop length] in *.
  - apply cstr_nil in Hc. rewrite (M_bind_run _ _ _ _ _ (rdb_run _ _ _ Hc)). cbn [Z.eqb]. by rewrite Z.add_0_r.
  - apply cstr_cons in Hc as (E & Hr & Hc). rewrite (M_bind_run _ _ _ _ _ (rdb_run _ _ _ E)), char_neq0 by done.
    rewrite wrap_small by (unfold fits; lia). rewrite (IH fuel) by (done || lia). do 2 f_equal. lia.
Qed.

Lemma strlen_run l s p :
  cstr (bytes s) p l -> length l < 2 ^ 32 -> strlen p s = Ret (Z.of_nat (length l), s).
Proof.
  intros Hc Hl. unfold strlen. rewrite (M_bind_run _ _ s s s) by done.
  apply (strlen_loop_run l _ s p 0 Hc); [|lia|lia]. unfold scan_fuel. pose proof (cstr_fuel _ _ _ Hc). lia.
Qed.

(** [strncpy] writes exactly [n] bytes: the string, cut or padded with NULs. *)
Definition padded (n : nat) (l : list Z) : list Z := take n (l ++ replicate n 0).

Lemma padded_cons n c l : padded (S n) (c :: l) = c :: padded n l.
Proof.
  unfold padded. rewrite <- app_comm_cons. cbn [take]. f_equal.
  destruct (decide (n <= length l)%nat).
  - rewrite !take_app_le by done. done.
  - rewrite !take_app_ge by lia. f_equal. rewrite !take_replicate. f_equal. lia.
Qed.
Lemma padded_length n l : length (padded n l) = n.
Proof. unfold padded. rewrite length_take, length_app, length_replicate. lia. Qed.

Lemma strncpy_loop_run (n : nat) l s dst src :
  cstr (bytes s) src l -> mapped (bytes s) dst n ->
  src + length l + 1 <= dst \/ dst + n <= src ->
  strncpy_loop n dst src s = Ret (tt, put_bytes (blit dst (padded n l) (bytes s)) s).
Proof.
  revert l s dst src. induction n as [|n IH]; intros l s dst src Hc Hm Hd; [by destruct s|].
  cbn [strncpy_loop].
  assert (Hw : is_Some (bytes s !! dst)) by (rewrite <- (Z.add_0_r dst); apply Hm; lia).
  assert (Hm' : forall x, mapped (<[dst := x]> (bytes s)) (dst + 1) n).
  { intros x. change (<[dst := x]> (bytes s)) with (blit dst [x] (bytes s)). apply mapped_blit.
    eapply mapped_sub; [exact Hm|lia|lia]. }
  assert (Hf : forall x k, cstr (bytes s) k [] \/ True -> forall l', cstr (bytes s) k l' ->
     k + length l' + 1 <= dst \/ dst + 1 <= k -> cstr (<[dst := x]> (bytes s)) k l').
  { intros x k _ l' [Ha Hl] Hk. split; [|done]. eapply arr_frame; [|exact Ha]. intros a Hin.
    rewrite length_app in Hin. cbn [length] in Hin. rewrite lookup_insert_ne; [done|lia]. }
  destruct l as [|c l].
  - apply cstr_nil in Hc as Hb. rewrite (M_bind_run _ _ _ _ _ (rdb_run _ _ _ Hb)).
    rewrite (M_bind_run _ _ _ _ _ (wrb_run s dst 0 Hw ltac:(lia))). cbn [Z.eqb].
    rewrite (IH []); cbn [bytes put_bytes]; [| |done|cbn [length] in *; lia].
    + rewrite blit_insert. unfold padded. by rewrite !app_nil_l.
    + apply Hf; [by right|done|cbn [length] in *; lia].
  - apply cstr_cons in Hc as (E & Hr & Hc). rewrite (M_bind_run _ _ _ _ _ (rdb_run _ _ _ E)).
    rewrite (M_bind_run _ _ _ _ _ (wrb_run s dst c Hw ltac:(lia))), char_neq0 by done.
    cbn [length] in Hd. rewrite (IH l); cbn [bytes put_bytes]; [| |done|lia].
    + by rewrite blit_insert, padded_cons.
    + apply Hf; [by right|done|lia].
Qed.

(** ** Comparison *)

(** The sign of the first difference. *)
Fixpoint lex (l1 l2 : list Z) : Z :=
  match l1, l2 with
  | [], [] => 0
  | [], _ :: _ => -1
  | _ :: _, [] => 1
  | a :: l1, b :: l2 => if a =? b then lex l1 l2 else if a <? b then -1 else 1
  end.

Lemma lex_eq l1 l2 : lex l1 l2 = 0 <-> l1 = l2.
Proof.
  revert l2. induction l1 as [|a l1 IH]; intros [|b l2]; try done. cbn [lex].
  destruct (Z.eqb_spec a b) as [->|Hne]; [rewrite IH; naive_solver|].
  destruct (a <? b); split; [done|congruence|done|congruence].
Qed.

Lemma lex_lt l1 l2 : lex l1 l2 = -1 <->
  exists pre r1 r2, l1 = pre ++ r1 /\ l2 = pre ++ r2 /\
    match r1, r2 with [], _ :: _ => True | a :: _, b :: _ => a < b | _, _ => False end.
Proof.
  revert l2. induction l1 as [|a l1 IH]; intros [|b l2]; cbn [lex].
  - split; [done|]. intros (pre & [|] & [|] & E1 & E2 & H); destruct pre; done.
  - split; [|done]. intros _. exists [], [], (b :: l2). done.
  - split; [done|]. intros (pre & [|] & [|] & E1 & E2 & H); destruct pre; done.
  - destruct (Z.eqb_spec a b) as [->|Hne].
    + rewrite IH. split.
      * intros (pre & r1 & r2 & -> & -> & H). by exists (b :: pre), r1, r2.
      * intros ([|c pre] & r1 & r2 & E1 & E2 & H); [cbn in E1, E2; subst; cbn in H; lia|]. injection E1 as <- ->. injection E2 as ->.
        by exists pre, r1, r2.
    + destruct (Z.ltb_spec a b) as [Hlt|Hge]; (split; [|]).
      * intros _. by exists [], (a :: l1), (b :: l2).
      * done.
      * done.
      * intros ([|c pre] & r1 & r2 & E1 & E2 & H); [cbn in E1, E2; subst; cbn in H; lia|]. cbn in E1, E2. congruence.
Qed.

Lemma strcmp_loop_run l1 l2 fuel s p1 p2 :
  cstr (bytes s) p1 l1 -> cstr (bytes s) p2 l2 -> (length l1 < fuel)%nat ->
  strcmp_loop fuel p1 p2 s = Ret (lex l1 l2, s).
Proof.
  revert l2 fuel p1 p2. induction l1 as [|a l1 IH]; intros l2 fuel p1 p2 H1 H2 Hf;
    (destruct fuel as [|fuel]; [cbn [length] in Hf; lia|]); cbn [strcmp_loop length] in *.
  - apply cstr_nil in H1. rewrite (M_bind_run _ _ _ _ _ (rdb_run _ _ _ H1)). destruct l2 as [|b l2].
    + apply cstr_nil in H2. by rewrite (M_bind_run _ _ _ _ _ (rdb_run _ _ _ H2)).
    + apply cstr_cons in H2 as (E & Hb & _). rewrite (M_bind_run _ _ _ _ _ (rdb_run _ _ _ E)).
      replace (0 =? b) with false by lia. cbn [negb]. by replace (0 <? b) with true by lia.
  - apply cstr_cons in H1 as (E1 & Ha & H1). rewrite (M_bind_run _ _ _ _ _ (rdb_run _ _ _ E1)). destruct l2 as [|b l2].
    + apply cstr_nil in H2. rewrite (M_bind_run _ _ _ _ _ (rdb_run _ _ _ H2)), char_neq0 by done.
      cbn [negb]. by replace (a <? 0) with false by lia.
    + apply cstr_cons in H2 as (E2 & Hb & H2). rewrite (M_bind_run _ _ _ _ _ (rdb_run _ _ _ E2)). cbn [lex].
      destruct (Z.eqb_spec a b) as [->|Hne]; cbn [negb]; [|done]. rewrite char_neq0 by done.
      apply IH; [done|done|lia].
Qed.

(** [strcmp] compares two strings of any length: it always returns,
    answers 0 exactly when they are equal, and a negative number exactly
    when the first one comes first in the byte order. *)
Theorem strcmp_ok (s : cmem) (p1 p2 : Z) (l1 l2 : list Z) :
  cstr (bytes s) p1 l1 -> cstr (bytes s) p2 l2 ->
  exists r, strcmp p1 p2 s = Ret (r, s) /\ (r = 0 <-> l1 = l2) /\
    (r < 0 <-> exists pre r1 r2, l1 = pre ++ r1 /\ l2 = pre ++ r2 /\
       match r1, r2 with [], _ :: _ => True | a :: _, b :: _ => a < b | _, _ => False end).
Proof.
  intros H1 H2. exists (lex l1 l2). split_and!.
  - unfold strcmp. rewrite (M_bind_run _ _ s s s) by done. apply strcmp_loop_run; [done|done|].
    unfold scan_fuel. pose proof (cstr_fuel _ _ _ H1). lia.
  - apply lex_eq.
  - rewrite <- lex_lt. split; [|lia]. assert (Hr : lex l1 l2 = 0 \/ lex l1 l2 = 1 \/ lex l1 l2 = -1); [|lia].
    clear. revert l2. induction l1 as [|a l1 IH]; intros [|b l2]; cbn [lex]; [tauto..|].
    destruct (a =? b); [apply IH|]. destruct (a <? b); tauto.
Qed.

(** ** Digits *)

(** The digits of [v], the lowest first; none for 0. *)
Fixpoint le_digits (fuel : nat) (base v : Z) : list Z :=
  match fuel with
  | O => []
  | S fuel => if 0 <? v then v mod base :: le_digits fuel base (v / base) else []
  end.

Definition eval (base val : Z) (ds : list Z) : Z := foldl (fun a d => a * base + d) val ds.

Lemma eval_snoc base val ds d : eval base val (ds ++ [d]) = eval base val ds * base + d.
Proof. unfold eval. by rewrite foldl_app. Qed.

Lemma le_digits_bound fuel base v : 1 < base -> Forall (fun d => 0 <= d < base) (le_digits fuel base v).
Proof.
  intros Hb. revert v. induction fuel as [|fuel IH]; intros v; [constructor|]. cbn [le_digits].
  destruct (0 <? v); [|constructor]. constructor; [apply Z.mod_pos_bound; lia|apply IH].
Qed.

Lemma le_digits_length fuel base v : (length (le_digits fuel base v) <= fuel)%nat.
Proof.
  revert v. induction fuel as [|fuel IH]; intros v; [done|]. cbn [le_digits].
  destruct (0 <? v); cbn [length]; [|lia]. specialize (IH (v / base)). lia.
Qed.

(** A number below [base ^ n] has at most [n] digits. *)
Lemma le_digits_short n fuel base v :
  1 < base -> v < base ^ Z.of_nat n -> (length (le_digits fuel base v) <= n)%nat.
Proof.
  intros Hb. revert fuel v. induction n as [|n IH]; intros fuel v Hv.
  - rewrite Z.pow_0_r in Hv. destruct fuel; [done|]. cbn [le_digits]. by replace (0 <? v) with false by lia.
  - destruct fuel as [|fuel]; cbn [le_digits length]; [lia|]. destruct (0 <? v); cbn [length]; [|lia].
    apply le_n_S, IH. apply Z.div_lt_upper_bound; [lia|].
    replace (S n : Z) with (n + 1) in Hv by lia. rewrite Z.pow_add_r, Z.pow_1_r in Hv by lia. lia.
Qed.

Lemma eval_le_digits fuel base v :
  1 < base -> 0 <= v < base ^ Z.of_nat fuel -> eval base 0 (rev (le_digits fuel base v)) = v.
Proof.
  intros Hb. revert v. induction fuel as [|fuel IH]; intros v Hv.
  - rewrite Z.pow_0_r in Hv. cbn. lia.
  - cbn [le_digits]. destruct (Z.ltb_spec 0 v) as [Hp|Hp]; [|cbn; lia]. cbn [rev]. rewrite eval_snoc, IH.
    + pose proof (Z.div_mod v base). lia.
    + split; [apply Z.div_pos; lia|]. apply Z.div_lt_upper_bound; [lia|].
      replace (S fuel : Z) with (fuel + 1) in Hv by lia. rewrite Z.pow_add_r, Z.pow_1_r in Hv by lia. lia.
Qed.

(** The loops that write digits. *)
Lemma write_then_blit s q x l : 
  is_Some (bytes s !! q) -> 0 <= x < 256 ->
  wrb q x s = Ret (tt, put_bytes (blit q [x] (bytes s)) s) /\
  put_bytes (blit (q + 1) l (bytes (put_bytes (blit q [x] (bytes s)) s))) (put_bytes (blit q [x] (bytes s)) s)
    = put_bytes (blit q (x :: l) (bytes s)) s.
Proof.
  intros Hq Hx. split; [by apply wrb_run|]. unfold put_bytes. cbn [bytes blocks]. f_equal.
  change (blit q [x] (bytes s)) with (<[q := x]> (bytes s)). apply blit_insert.
Qed.

Lemma put_decimal_run fuel n s buf i v :
  0 <= v < 10 ^ Z.of_nat n -> (n < fuel)%nat ->
  let ds := le_digits fuel 10 v in
  mapped (bytes s) (buf + i) (length ds) ->
  put_decimal fuel buf i v s
    = Ret (i + length ds, put_bytes (blit (buf + i) ((fun d => ch_0 + d) <$> ds) (bytes s)) s).
Proof.
  revert n s i v. induction fuel as [|fuel IH]; intros n s i v Hv Hn ds Hm; [lia|].
  unfold ds in *. clear ds. cbn [put_decimal le_digits] in *. destruct (Z.ltb_spec 0 v) as [Hp|Hp].
  2:{ cbn [length fmap list_fmap blit]. rewrite Z.add_0_r. by destruct s. }
  destruct n as [|n]; [rewrite Z.pow_0_r in Hv; lia|].
  rewrite Z.rem_mod_nonneg, Z.quot_div_nonneg by lia. cbn [length] in Hm.
  pose proof (Z.mod_pos_bound v 10 ltac:(lia)).
  assert (Hq : is_Some (bytes s !! (buf + i))) by (rewrite <- (Z.add_0_r (buf + i)); apply Hm; lia).
  destruct (write_then_blit s (buf + i) (ch_0 + v mod 10) ((fun d => ch_0 + d) <$> le_digits fuel 10 (v / 10)) Hq)
    as [Ew El]; [unfold ch_0; lia|].
  rewrite (M_bind_run _ _ _ _ _ Ew), (IH n); [| |lia|].
  - cbn [fmap list_fmap length]. rewrite Z.add_assoc, El. do 2 f_equal. lia.
  - split; [apply Z.div_pos; lia|]. apply Z.div_lt_upper_bound; [lia|].
    replace (S n : Z) with (n + 1) in Hv by lia. rewrite Z.pow_add_r, Z.pow_1_r in Hv by lia. lia.
  - cbn [bytes put_bytes]. apply mapped_blit. eapply mapped_sub; [exact Hm|lia|lia].
Qed.

Lemma hex_char_byte d : 0 <= hex_char d < 256.
Proof.
  unfold hex_char. destruct (str_hex !! Z.to_nat d) as [c|] eqn:E; cbn [default]; [|lia].
  assert (Hf : byte_list str_hex) by byte_list_tac. eapply Forall_lookup in Hf; [|exact E]. done.
Qed.

Lemma put_hex_run fuel n s buf i v :
  0 <= v < 16 ^ Z.of_nat n -> (n < fuel)%nat ->
  let ds := le_digits fuel 16 v in
  mapped (bytes s) (buf + i) (length ds) ->
  put_hex fuel buf i v s
    = Ret (i + length ds, put_bytes (blit (buf + i) (hex_char <$> ds) (bytes s)) s).
Proof.
  revert n s i v. induction fuel as [|fuel IH]; intros n s i v Hv Hn ds Hm; [lia|].
  unfold ds in *. clear ds. cbn [put_hex le_digits] in *. destruct (Z.ltb_spec 0 v) as [Hp|Hp].
  2:{ cbn [length fmap list_fmap blit]. rewrite Z.add_0_r. by destruct s. }
  destruct n as [|n]; [rewrite Z.pow_0_r in Hv; lia|]. cbn [length] in Hm.
  assert (Hq : is_Some (bytes s !! (buf + i))) by (rewrite <- (Z.add_0_r (buf + i)); apply Hm; lia).
  destruct (write_then_blit s (buf + i) (hex_char (v mod 16)) (hex_char <$> le_digits fuel 16 (v / 16)) Hq (hex_char_byte _))
    as [Ew El].
  rewrite (M_bind_run _ _ _ _ _ Ew), (IH n); [| |lia|].
  - cbn [fmap list_fmap length]. rewrite Z.add_assoc, El. do 2 f_equal. lia.
  - split; [apply Z.div_pos; lia|]. apply Z.div_lt_upper_bound; [lia|].
    replace (S n : Z) with (n + 1) in Hv by lia. rewrite Z.pow_add_r, Z.pow_1_r in Hv by lia. lia.
  - cbn [bytes put_bytes]. apply mapped_blit. eapply mapped_sub; [exact Hm|lia|lia].
Qed.

Lemma pad_zero_run (k fuel : nat) s buf i :
  i + k = 10 -> (k < fuel)%nat -> mapped (bytes s) (buf + i) k ->
  pad_zero fuel buf i s = Ret (10, put_bytes (blit (buf + i) (replicate k ch_0) (bytes s)) s).
Proof.
  revert fuel s i. induction k as [|k IH]; intros fuel s i Hi Hf Hm; (destruct fuel as [|fuel]; [lia|]); cbn [pad_zero].
  - replace (i <? 10) with false by lia. replace i with 10 by lia. by destruct s.
  - replace (i <? 10) with true by lia.
    assert (Hq : is_Some (bytes s !! (buf + i))) by (rewrite <- (Z.add_0_r (buf + i)); apply Hm; lia).
    destruct (write_then_blit s (buf + i) ch_0 (replicate k ch_0) Hq) as [Ew El]; [unfold ch_0; lia|].
    rewrite (M_bind_run _ _ _ _ _ Ew), IH; [|lia|lia|].
    + cbn [replicate]. by rewrite Z.add_assoc, El.
    + cbn [bytes put_bytes]. apply mapped_blit. eapply mapped_sub; [exact Hm|lia|lia].
Qed.

(** ** Reversal *)

Lemma blit_twice p l1 l2 b : length l1 = length l2 -> blit p l1 (blit p l2 b) = blit p l1 b.
Proof.
  intros Hl. apply map_eq. intros a. rewrite !(blit_lookup p l1).
  destruct (decide (p <= a < p + Z.of_nat (length l1))) as [Hin|Hout].
  - by rewrite !(proj2 (andb_true_iff _ _)) by lia.
  - replace ((p <=? a) && (a <? p + length l1)) with false by lia. apply blit_out. lia.
Qed.

Lemma two_ends {A} (l : list A) : (2 <= length l)%nat -> exists x m y, l = x :: m ++ [y].
Proof.
  destruct l as [|x l]; cbn [length]; [lia|]. destruct l as [|y m _] using rev_ind; cbn [length]; [lia|].
  intros _. by exists x, m, y.
Qed.

Lemma reverse_loop_run fuel l s buf i j :
  arr (bytes s) (buf + i) l -> byte_list l -> j - i + 1 = length l -> (length l < 2 * fuel)%nat ->
  reverse_loop fuel buf i j s = Ret (tt, put_bytes (blit (buf + i) (rev l) (bytes s)) s).
Proof.
  revert l s i j. induction fuel as [|fuel IH]; intros l s i j Ha Hb Hl Hf; [lia|]. cbn [reverse_loop].
  destruct (Z.ltb_spec i j) as [Hlt|Hge].
  2:{ assert (Hs : blit (buf + i) (rev l) (bytes s) = bytes s); [|by rewrite Hs; destruct s].
      destruct l as [|x [|y l]]; cbn [length] in Hl; [done| |lia]. cbn [rev app blit].
      apply arr_cons in Ha as [Ha _]. by apply insert_id. }
  destruct (two_ends l) as (x & m & y & ->); [lia|]. cbn [length] in *. rewrite length_app in *. cbn [length] in *.
  apply arr_cons in Ha as [Ex Ha]. apply arr_app in Ha as [Ha Ey]. apply arr_cons in Ey as [Ey _].
  unfold byte_list in Hb. rewrite Forall_cons, Forall_app, Forall_singleton in Hb. destruct Hb as (Hx & Hb & Hy).
  replace (buf + i + 1 + length m) with (buf + j) in Ey by lia.
  rewrite (M_bind_run _ _ _ _ _ (rdb_run _ _ _ Ex)), (M_bind_run _ _ _ _ _ (rdb_run _ _ _ Ey)).
  rewrite (M_bind_run _ _ _ _ _ (wrb_run s (buf + i) y ltac:(by rewrite Ex) Hy)).
  set (s1 := put_bytes (<[buf + i := y]> (bytes s)) s).
  assert (Hj : is_Some (bytes s1 !! (buf + j))).
  { cbn [bytes s1 put_bytes]. rewrite lookup_insert_ne by lia. by rewrite Ey. }
  rewrite (M_bind_run _ _ _ _ _ (wrb_run s1 (buf + j) x Hj Hx)). cbn [bytes s1 put_bytes blocks].
  rewrite (IH m); cbn [bytes put_bytes]; [| |done|lia|lia].
  2:{ eapply arr_frame; [|replace (buf + (i + 1)) with (buf + i + 1) by lia; exact Ha].
      intros a Hin. rewrite !lookup_insert_ne by lia. done. }
  unfold put_bytes. cbn [blocks]. do 3 f_equal.
  change (rev (x :: m ++ [y])) with (rev (m ++ [y]) ++ [x]). rewrite rev_app_distr. cbn [rev app blit].
  rewrite blit_app, length_rev.
  replace (buf + i + 1 + length m) with (buf + j) by lia. replace (buf + (i + 1)) with (buf + i + 1) by lia.
  cbn [blit]. change (<[buf + j := x]> (<[buf + i := y]> (bytes s))) with (blit (buf + j) [x] (blit (buf + i) [y] (bytes s))).
  rewrite (blit_comm (buf + j) [x]) by (cbn [length]; lia).
  by rewrite (blit_comm (buf + i + 1) (rev m) (buf + i)) by (cbn [length]; lia).
Qed.

Lemma reverse_str_run l s buf i j :
  arr (bytes s) (buf + i) l -> byte_list l -> j - i + 1 = length l ->
  reverse_str buf i j s = Ret (tt, put_bytes (blit (buf + i) (rev l) (bytes s)) s).
Proof. intros Ha Hb Hl. apply reverse_loop_run; [done|done|done|]. lia. Qed.

(** ** [to_hex] *)

(** Eight hexadecimal digits, the highest first. *)
Definition hex8 (v : Z) : list Z := rev (le_digits digits_fuel 16 v ++ replicate (8 - length (le_digits digits_fuel 16 v)) 0).
Definition hex_text (v : Z) : list Z := [ch_0; ch_x] ++ (hex_char <$> hex8 v).

Lemma hex_digits_le v : 0 <= v < 2 ^ 32 -> (length (le_digits digits_fuel 16 v) <= 8)%nat.
Proof. intros Hv. apply (le_digits_short 8); [lia|]. by apply Hv. Qed.

Lemma hex8_length v : 0 <= v < 2 ^ 32 -> length (hex8 v) = 8%nat.
Proof. intros Hv%hex_digits_le. unfold hex8. rewrite length_rev, length_app, length_replicate. lia. Qed.

Lemma hex_text_bytes v : byte_list (hex_text v).
Proof.
  unfold hex_text, byte_list. apply Forall_app. split; [unfold ch_0, ch_x; byte_list_tac|]. apply Forall_fmap, Forall_true.
  intros d. apply hex_char_byte.
Qed.

Lemma fmap_rev' {A B} (f : A -> B) l : f <$> rev l = rev (f <$> l).
Proof. induction l as [|x l IH]; [done|]. cbn [rev fmap list_fmap]. by rewrite fmap_app, IH. Qed.

Lemma to_hex_run s v buf len :
  0 <= v < 2 ^ 32 -> mapped (bytes s) buf 10 ->
  to_hex v buf len s = Ret (10, put_bytes (blit buf (hex_text v) (bytes s)) s).
Proof.
  intros Hv Hm. unfold to_hex. pose proof (hex_digits_le v Hv) as Hl. set (ds := le_digits digits_fuel 16 v) in *.
  assert (H0 : is_Some (bytes s !! buf)) by (rewrite <- (Z.add_0_r buf); apply Hm; lia).
  rewrite (M_bind_run _ _ _ _ _ (wrb_run s buf ch_0 H0 ltac:(unfold ch_0; lia))).
  set (s1 := put_bytes (<[buf := ch_0]> (bytes s)) s).
  assert (H1 : is_Some (bytes s1 !! (buf + 1))).
  { cbn [bytes s1 put_bytes]. rewrite lookup_insert_ne by lia. apply Hm. lia. }
  rewrite (M_bind_run _ _ _ _ _ (wrb_run s1 (buf + 1) ch_x H1 ltac:(unfold ch_x; lia))).
  assert (E2 : put_bytes (<[buf + 1 := ch_x]> (bytes s1)) s1 = put_bytes (blit buf [ch_0; ch_x] (bytes s)) s).
  { unfold s1, put_bytes. cbn [bytes blocks blit]. f_equal. apply insert_insert_ne. lia. }
  rewrite E2. set (s2 := put_bytes (blit buf [ch_0; ch_x] (bytes s)) s).
  assert (Hm2 : mapped (bytes s2) buf 10) by by apply mapped_blit.
  rewrite (M_bind_run _ _ _ _ _ (put_hex_run digits_fuel 8 s2 buf 2 v ltac:(exact Hv) ltac:(unfold digits_fuel; lia)
    ltac:(fold ds; eapply mapped_sub; [exact Hm2|lia|lia]))). fold ds.
  set (s3 := put_bytes (blit (buf + 2) (hex_char <$> ds) (bytes s2)) s2).
  assert (Hm3 : mapped (bytes s3) buf 10) by by apply mapped_blit.
  rewrite (M_bind_run _ _ _ _ _ (pad_zero_run (8 - length ds) digits_fuel s3 buf (2 + length ds) ltac:(lia)
    ltac:(unfold digits_fuel; lia) ltac:(eapply mapped_sub; [exact Hm3|lia|lia]))).
  set (body := hex_char <$> (ds ++ replicate (8 - length ds) 0)).
  assert (E4 : put_bytes (blit (buf + (2 + length ds)) (replicate (8 - length ds) ch_0) (bytes s3)) s3
     = put_bytes (blit (buf + 2) body (bytes s2)) s2).
  { unfold s3, put_bytes. cbn [bytes blocks]. f_equal. unfold body. rewrite fmap_app, fmap_replicate, blit_app, length_fmap.
    replace (buf + (2 + length ds)) with (buf + 2 + length ds) by lia. apply blit_comm. rewrite length_fmap. lia. }
  rewrite E4. set (s4 := put_bytes (blit (buf + 2) body (bytes s2)) s2).
  assert (Hbl : length body = 8%nat) by (unfold body; rewrite length_fmap, length_app, length_replicate; lia).
  assert (Hbb : byte_list body) by (apply Forall_fmap, Forall_true; intros; apply hex_char_byte).
  rewrite (M_bind_run _ _ _ _ _ (reverse_str_run body s4 buf 2 (10 - 1) (arr_blit _ _ _) Hbb ltac:(lia))).
  unfold mret, M_ret. do 2 f_equal. unfold s4, s2, put_bytes. cbn [bytes blocks]. f_equal.
  rewrite blit_twice by apply length_rev. unfold hex_text. rewrite blit_app. cbn [length].
  replace (rev body) with (hex_char <$> hex8 v).
  2:{ unfold body, hex8. fold ds. by rewrite <- fmap_rev'. }
  apply blit_comm. cbn [length]. lia.
Qed.

(** ** [to_str] *)

Definition dec_text (v : Z) : list Z := (fun d => ch_0 + d) <$> rev (le_digits digits_fuel 10 v).
Definition decimal (v : Z) : list Z :=
  if v =? 0 then [ch_0] else if v <? 0 then ch_minus :: dec_text (- v) else dec_text v.

Lemma dec_text_bytes v : byte_list (dec_text v).
Proof.
  apply Forall_fmap, Forall_rev. eapply Forall_impl; [apply (le_digits_bound _ 10); lia|].
  unfold compose, ch_0. intros d Hd. cbn in Hd |- *. lia.
Qed.

Lemma dec_text_length v : v < 2 ^ 31 -> (length (dec_text v) <= 10)%nat.
Proof.
  intros Hv. unfold dec_text. rewrite length_fmap, length_rev. apply (le_digits_short 10); [lia|].
  assert (2 ^ 31 < 10 ^ Z.of_nat 10) by done. lia.
Qed.

Lemma put_reverse_run s buf i v :
  0 < v < 2 ^ 31 -> mapped (bytes s) (buf + i) (length (dec_text v)) ->
  (n ← put_decimal digits_fuel buf i v; _ ← reverse_str buf i (n - 1); mret n) s
    = Ret (i + length (dec_text v), put_bytes (blit (buf + i) (dec_text v) (bytes s)) s).
Proof.
  intros Hv Hm. unfold dec_text in *. set (ds := le_digits digits_fuel 10 v) in *.
  rewrite length_fmap, length_rev in *.
  assert (Hv' : 0 <= v < 10 ^ Z.of_nat 10) by (assert (2 ^ 31 < 10 ^ Z.of_nat 10) by done; lia).
  rewrite (M_bind_run _ _ _ _ _ (put_decimal_run digits_fuel 10 s buf i v Hv' ltac:(unfold digits_fuel; lia) Hm)).
  fold ds. set (l := (fun d => ch_0 + d) <$> ds). set (s1 := put_bytes (blit (buf + i) l (bytes s)) s).
  assert (Hb : byte_list l).
  { apply Forall_fmap. eapply Forall_impl; [apply (le_digits_bound _ 10); lia|].
    unfold compose, ch_0. intros d Hd. cbn in Hd |- *. lia. }
  assert (Hl : length l = length ds) by apply length_fmap.
  rewrite (M_bind_run _ _ _ _ _ (reverse_str_run l s1 buf i (i + length ds - 1) (arr_blit _ _ _) Hb ltac:(lia))).
  unfold mret, M_ret. do 2 f_equal. unfold s1, put_bytes. cbn [bytes blocks]. f_equal.
  rewrite blit_twice by apply length_rev. unfold l. by rewrite fmap_rev'.
Qed.

Lemma to_str_run s v buf len :
  - 2 ^ 31 < v < 2 ^ 31 -> mapped (bytes s) buf (length (decimal v)) ->
  to_str v buf len s = Ret (Z.of_nat (length (decimal v)), put_bytes (blit buf (decimal v) (bytes s)) s).
Proof.
  intros Hv Hm. unfold to_str, decimal in *. destruct (Z.eqb_spec v 0) as [->|Hz].
  { assert (H0 : is_Some (bytes s !! buf)) by (rewrite <- (Z.add_0_r buf); apply Hm; cbn; lia).
    by rewrite (M_bind_run _ _ _ _ _ (wrb_run s buf ch_0 H0 ltac:(unfold ch_0; lia))). }
  destruct (Z.ltb_spec v 0) as [Hn|Hn].
  - cbn [length] in Hm.
    assert (H0 : is_Some (bytes s !! buf)) by (rewrite <- (Z.add_0_r buf); apply Hm; lia).
    destruct (write_then_blit s buf ch_minus (dec_text (- v)) H0) as [Ew El]; [unfold ch_minus; lia|].
    rewrite M_bind_assoc, (M_bind_run _ _ _ _ _ Ew).
    set (s1 := put_bytes (blit buf [ch_minus] (bytes s)) s) in *.
    assert (E : s32 (- v) = - v).
    { unfold sext. rewrite wrap_small by (unfold fits; lia). by replace (- v <? 2 ^ (32 - 1)) with true by lia. }
    rewrite E, (M_bind_run _ _ s1 s1 (1, - v, -1)) by done. change (-1 <? 0) with true. cbv beta iota.
    rewrite put_reverse_run; [|lia|].
    + rewrite El. do 2 f_equal. cbn [length]. lia.
    + unfold s1. cbn [bytes put_bytes]. apply mapped_blit. eapply mapped_sub; [exact Hm|lia|lia].
  - rewrite (M_bind_run _ _ s s (0, v, 0)) by done. change (0 <? 0) with false. cbv beta iota.
    rewrite put_reverse_run; [by rewrite !Z.add_0_r|lia|by rewrite Z.add_0_r].
Qed.

(** ** [strtol] reads back what [to_str] writes *)

Lemma s8_small c : 0 <= c < 128 -> s8 c = c.
Proof.
  intros H. unfold sext. rewrite wrap_small by (unfold fits; lia). by replace (c <? 2 ^ (8 - 1)) with true by lia.
Qed.

Lemma digit_value_dec d : 0 <= d < 10 -> digit_value (ch_0 + d) = Some d.
Proof.
  intros H. unfold digit_value, ch_0, ch_9. rewrite s8_small by lia.
  replace ((48 <=? 48 + d) && (48 + d <=? 57)) with true by lia. f_equal. lia.
Qed.

Lemma s32_small v : 0 <= v < 2 ^ 31 -> s32 v = v.
Proof.
  intros H. unfold sext. rewrite wrap_small by (unfold fits; lia). by replace (v <? 2 ^ (32 - 1)) with true by lia.
Qed.

Lemma eval_mono base val ds : 1 < base -> 0 <= val -> Forall (fun d => 0 <= d < base) ds -> val <= eval base val ds.
Proof.
  intros Hb. revert val. induction ds as [|d ds IH]; intros val Hv Hd; [done|].
  apply Forall_cons in Hd as [Hd Hds]. cbn [eval foldl]. specialize (IH (val * base + d) ltac:(nia) Hds).
  unfold eval in IH |- *. nia.
Qed.

Lemma strtol_digits_run ds fuel s p val t :
  arr (bytes s) p ((fun d => ch_0 + d) <$> ds) -> bytes s !! (p + length ds) = Some t -> digit_value t = None ->
  Forall (fun d => 0 <= d < 10) ds -> 0 <= val -> eval 10 val ds < 2 ^ 31 -> (length ds < fuel)%nat ->
  strtol_digits fuel p val 10 s = Ret ((eval 10 val ds, p + length ds), s).
Proof.
  revert fuel p val. induction ds as [|d ds IH]; intros fuel p val Ha Ht Hn Hd Hv He Hf;
    (destruct fuel as [|fuel]; [cbn [length] in Hf; lia|]); cbn [strtol_digits length] in *.
  - rewrite Z.add_0_r in *. rewrite (M_bind_run _ _ _ _ _ (rdb_run _ _ _ Ht)), Hn. done.
  - cbn [fmap list_fmap] in Ha. apply arr_cons in Ha as [E Ha]. apply Forall_cons in Hd as [Hd Hds].
    rewrite (M_bind_run _ _ _ _ _ (rdb_run _ _ _ E)), digit_value_dec by done.
    replace (10 <=? d) with false by lia.
    pose proof (eval_mono 10 (val * 10 + d) ds ltac:(lia) ltac:(lia) Hds) as Hm.
    change (eval 10 val (d :: ds)) with (eval 10 (val * 10 + d) ds) in *.
    rewrite (s32_small (val * 10)), s32_small by lia.
    replace (p + S (length ds)) with (p + 1 + length ds) in * by lia.
    rewrite (IH fuel); [done|done|done|done|done|lia|lia|lia].
Qed.

(** The text has a digit first, after its sign. *)
Lemma dec_text_head v : 0 < v < 2 ^ 31 -> exists d ds, dec_text v = ch_0 + d :: ((fun d => ch_0 + d) <$> ds) /\
  rev (le_digits digits_fuel 10 v) = d :: ds /\ 0 <= d < 10.
Proof.
  intros Hv. unfold dec_text. pose proof (le_digits_bound digits_fuel 10 v ltac:(lia)) as Hb.
  apply Forall_rev in Hb. destruct (rev (le_digits digits_fuel 10 v)) as [|d ds] eqn:E.
  - apply (f_equal length) in E. rewrite length_rev in E. cbn [digits_fuel le_digits] in E.
    replace (0 <? v) with true in E by lia. done.
  - exists d, ds. apply Forall_cons in Hb as [? _]. done.
Qed.

Lemma skip_blank_stop s p b :
  bytes s !! p = Some b -> (b =? ch_space) || (b =? ch_tab) = false -> skip_blank (scan_fuel s) p s = Ret (p, s).
Proof. intros E Hb. unfold scan_fuel. cbn [skip_blank]. by rewrite (M_bind_run _ _ _ _ _ (rdb_run _ _ _ E)), Hb. Qed.

Lemma strtol_dec_text s p v t :
  0 < v < 2 ^ 31 -> arr (bytes s) p (dec_text v) -> bytes s !! (p + length (dec_text v)) = Some t -> digit_value t = None ->
  strtol_digits (scan_fuel s) p 0 10 s = Ret ((v, p + length (dec_text v)), s).
Proof.
  intros Hv Ha Ht Hn. pose proof (arr_size _ _ _ Ha) as Hsz. unfold dec_text in *. rewrite length_fmap in *.
  set (ds := rev (le_digits digits_fuel 10 v)) in *.
  assert (Hv' : 0 <= v < 10 ^ Z.of_nat digits_fuel) by (assert (2 ^ 31 < 10 ^ Z.of_nat digits_fuel) by done; lia).
  assert (He : eval 10 0 ds = v) by (apply eval_le_digits; [lia|done]).
  rewrite (strtol_digits_run ds _ s p 0 t); [by rewrite He|done|done|done| |lia|lia|].
  - apply Forall_rev, le_digits_bound. lia.
  - unfold scan_fuel. lia.
Qed.

Lemma strtol_decimal s p v t :
  - 2 ^ 31 < v < 2 ^ 31 -> arr (bytes s) p (decimal v) -> bytes s !! (p + length (decimal v)) = Some t ->
  digit_value t = None -> strtol p 10 s = Ret ((v, p + length (decimal v)), s).
Proof.
  intros Hv Ha Ht Hn. unfold strtol. rewrite (M_bind_run _ _ s s s) by done. unfold decimal in *.
  destruct (Z.eqb_spec v 0) as [->|Hz]; [|destruct (Z.ltb_spec v 0) as [Hneg|Hpos]].
  - pose proof (arr_size _ _ _ Ha) as Hsz. apply arr_cons in Ha as [E _]. cbn [length] in *.
    rewrite (M_bind_run _ _ _ _ _ (skip_blank_stop s p _ E eq_refl)).
    rewrite (M_bind_run _ _ _ _ _ (rdb_run _ _ _ E)). cbn [ch_0 ch_plus ch_minus Z.eqb Pos.eqb].
    rewrite (M_bind_run _ _ s s (p, 10)) by done.
    assert (Hd : strtol_digits (scan_fuel s) p 0 10 s = Ret ((0, p + 1), s)).
    { apply (strtol_digits_run [0] _ s p 0 t); [|done|done|byte_list_tac|lia|done|unfold scan_fuel; cbn; lia].
      cbn. apply arr_cons. split; [done|apply arr_length_0]. }
    by rewrite (M_bind_run _ _ _ _ _ Hd).
  - cbn [length] in *. apply arr_cons in Ha as [E Ha]. replace (p + S (length (dec_text (- v)))) with (p + 1 + length (dec_text (- v))) in * by lia.
    rewrite (M_bind_run _ _ _ _ _ (skip_blank_stop s p _ E eq_refl)).
    rewrite (M_bind_run _ _ _ _ _ (rdb_run _ _ _ E)). cbn [ch_plus ch_minus Z.eqb Pos.eqb].
    rewrite (M_bind_run _ _ s s (p + 1, 10)) by done.
    rewrite (M_bind_run _ _ _ _ _ (strtol_dec_text s (p + 1) (- v) t ltac:(lia) Ha Ht Hn)). cbv beta iota.
    unfold mret, M_ret. do 3 f_equal. rewrite Z.opp_involutive. unfold sext, wrap.
    rewrite <- (Z_mod_plus_full v 1), Z.mod_small by lia.
    replace (v + 1 * 2 ^ 32 <? 2 ^ (32 - 1)) with false by lia. lia.
  - destruct (dec_text_head v ltac:(lia)) as (d & ds & Ed & _ & Hd).
    assert (E : bytes s !! p = Some (ch_0 + d)) by (rewrite Ed in Ha; by apply arr_cons in Ha as [? _]).
    assert (Hb : (ch_0 + d =? ch_space) || (ch_0 + d =? ch_tab) = false) by (unfold ch_0, ch_space, ch_tab; lia).
    rewrite (M_bind_run _ _ _ _ _ (skip_blank_stop s p _ E Hb)).
    rewrite (M_bind_run _ _ _ _ _ (rdb_run _ _ _ E)).
    replace (ch_0 + d =? ch_plus) with false by (unfold ch_0, ch_plus; lia).
    replace (ch_0 + d =? ch_minus) with false by (unfold ch_0, ch_minus; lia).
    rewrite (M_bind_run _ _ s s (p, 10)) by done.
    by rewrite (M_bind_run _ _ _ _ _ (strtol_dec_text s p v t ltac:(lia) Ha Ht Hn)).
Qed.

(** C36. Text and back: for every [int] but the smallest, [to_str] writes at
    most 11 characters, returns their number and changes nothing else, and
    [strtol] with base 10 reads the number back from them, stopping at the
    character that follows. *)
Theorem to_str_strtol (s : cmem) (v buf len t : Z) :
  - 2 ^ 31 < v < 2 ^ 31 -> mapped (bytes s) buf 12 -> 0 <= t < 256 -> digit_value t = None ->
  exists n s1, to_str v buf len s = Ret (n, s1) /\ 1 <= n <= 11 /\
    (forall a, ~ buf <= a < buf + n -> bytes s1 !! a = bytes s !! a) /\
    exists s2, wrb (buf + n) t s1 = Ret (tt, s2) /\ strtol buf 10 s2 = Ret ((v, buf + n), s2).
Proof.
  intros Hv Hm Ht Hn.
  assert (Hl : 1 <= length (decimal v) <= 11).
  { unfold decimal. destruct (Z.eqb_spec v 0); [cbn; lia|]. destruct (Z.ltb_spec v 0).
    - pose proof (dec_text_length (- v) ltac:(lia)). cbn [length]. lia.
    - pose proof (dec_text_length v ltac:(lia)) as H10.
      destruct (dec_text_head v ltac:(lia)) as (? & ? & E & _). rewrite E in H10 |- *. cbn [length] in *. lia. }
  exists (Z.of_nat (length (decimal v))), (put_bytes (blit buf (decimal v) (bytes s)) s). split_and!; [|lia|lia| |].
  - apply to_str_run; [done|]. eapply mapped_sub; [exact Hm|lia|lia].
  - intros a Ha. cbn [bytes put_bytes]. by apply blit_out.
  - eexists. split; [apply wrb_run; [|done]|].
    + cbn [bytes put_bytes]. apply (mapped_blit _ _ _ _ 12 Hm). lia.
    + apply (strtol_decimal _ _ _ t); cbn [bytes put_bytes]; [done| |apply lookup_insert_eq|done].
      eapply arr_frame; [|apply arr_blit]. intros a Ha. rewrite lookup_insert_ne; [done|lia].
Qed.

(** [to_str] of the smallest [int] does not print it: negating it
    overflows back to itself, the digit loop does not run and the text is a
    lone minus sign. *)
Theorem to_str_int_min (s : cmem) (buf len : Z) :
  is_Some (bytes s !! buf) ->
  to_str (- 2 ^ 31) buf len s = Ret (1, put_bytes (<[buf := ch_minus]> (bytes s)) s).
Proof.
  intros H0. unfold to_str. change (- 2 ^ 31 =? 0) with false. change (- 2 ^ 31 <? 0) with true. cbv iota.
  rewrite M_bind_assoc.
  by rewrite (M_bind_run _ _ _ _ _ (wrb_run s buf ch_minus H0 ltac:(unfold ch_minus; lia))).
Qed.

(** *** Examples *)

Definition mem_text : cmem := CMem (blit 100 [104; 105; 0; 104; 111; 0; 0; 0; 0; 0; 0; 0] ∅) ∅.

Lemma mem_text_mapped : mapped (bytes mem_text) 100 12.
Proof. apply (arr_mapped _ 100 [104; 105; 0; 104; 111; 0; 0; 0; 0; 0; 0; 0]), arr_blit. Qed.

Lemma mem_text_cstr1 : cstr (bytes mem_text) 100 [104; 105].
Proof. rewrite !cstr_cons, cstr_nil. split_and!; try lia; done. Qed.
Lemma mem_text_cstr2 : cstr (bytes mem_text) 103 [104; 111].
Proof. rewrite !cstr_cons, cstr_nil. split_and!; try lia; done. Qed.

Lemma strcmp_ok_witness :
  exists r, strcmp 100 103 mem_text = Ret (r, mem_text) /\ (r = 0 <-> [104; 105] = [104; 111]) /\
    (r < 0 <-> exists pre r1 r2, [104; 105] = pre ++ r1 /\ [104; 111] = pre ++ r2 /\
       match r1, r2 with [], _ :: _ => True | a :: _, b :: _ => a < b | _, _ => False end).
Proof. apply (strcmp_ok mem_text 100 103 [104; 105] [104; 111] mem_text_cstr1 mem_text_cstr2). Defined.

Lemma to_str_strtol_witness :
  exists n s1, to_str (-1234567890) 100 32 mem_text = Ret (n, s1) /\ 1 <= n <= 11 /\
    (forall a, ~ 100 <= a < 100 + n -> bytes s1 !! a = bytes mem_text !! a) /\
    exists s2, wrb (100 + n) 0 s1 = Ret (tt, s2) /\ strtol 100 10 s2 = Ret ((-1234567890, 100 + n), s2).
Proof. apply (to_str_strtol mem_text (-1234567890) 100 32 0); [lia|apply mem_text_mapped|lia|reflexivity]. Defined.

Lemma to_str_int_min_witness :
  to_str (- 2 ^ 31) 100 32 mem_text = Ret (1, put_bytes (<[100 := ch_minus]> (bytes mem_text)) mem_text).
Proof. apply (to_str_int_min mem_text 100 32). by eexists. Defined.
