(* ===== verification/Fifo.v ===== *)
(** * Byte fifos (libs/fifo.c, include/fifo.h)

    A ring buffer of bytes in memory the caller provides.  [fifo_rep] relates
    the ring to the list of bytes that were put in and not yet taken out; the
    operations implement append, take and drop on that list, with the
    capacity [size - 1].  Index arithmetic is 32 bits wide. *)

From stdpp Require Import base numbers list gmap.
From Stdlib Require Import ZArith Lia ZifyBool ZifyNat.
From S2P Require Import Prelude CMem.

Open Scope Z_scope.

#[local] Coercion Z.of_nat : nat >-> Z.

Record fifo := Fifo { f_in : Z; f_out : Z; f_data : Z; f_size : Z }.

Definition fifo_init (data size : Z) : fifo := Fifo 0 0 data size.

(** [a % b] on unsigned numbers; the processor faults on a zero divisor. *)
Definition umod (a b : Z) : outcome Z := if b =? 0 then Fault else Ret (a mod b).

Definition fifo_len (f : fifo) : outcome Z := umod (u32 (f_in f + f_size f - f_out f)) (f_size f).
Definition fifo_avail (f : fifo) : outcome Z := len ← fifo_len f; Ret (u32 (f_size f - 1 - len)).
Definition fifo_is_empty (f : fifo) : bool := f_in f =? f_out f.
Definition fifo_is_full (f : fifo) : outcome bool :=
  r ← umod (u32 (f_in f + 1)) (f_size f); Ret (r =? f_out f).

Definition fifo_copy_in (f : fifo) (src len off : Z) : M cmem unit :=
  let l := Z.min len (u32 (f_size f - off)) in
  _ ← memcpy (f_data f + off) src l;
  _ ← memcpy (f_data f) (src + l) (len - l);
  mret tt.

Definition fifo_in (f : fifo) (data size : Z) : M cmem (Z * fifo) :=
  avail ← mlift (fifo_avail f);
  if avail <? size then mret (- ENOSPC, f)
  else
    _ ← fifo_copy_in f data size (f_in f);
    i ← mlift (umod (u32 (f_in f + size)) (f_size f));
    mret (0, Fifo i (f_out f) (f_data f) (f_size f)).

Definition fifo_copy_out (f : fifo) (dst len off : Z) : M cmem unit :=
  let l := Z.min len (u32 (f_size f - off)) in
  _ ← memcpy dst (f_data f + off) l;
  _ ← memcpy (dst + l) (f_data f) (len - l);
  mret tt.

Definition fifo_out (f : fifo) (data size : Z) : M cmem (Z * fifo) :=
  len ← mlift (fifo_len f);
  if len <? size then mret (- ENOENT, f)
  else
    _ ← fifo_copy_out f data size (f_out f);
    o ← mlift (umod (u32 (f_out f + size)) (f_size f));
    mret (0, Fifo (f_in f) o (f_data f) (f_size f)).

Definition fifo_out_peek (f : fifo) (data size : Z) : M cmem Z :=
  len ← mlift (fifo_len f);
  if len <? size then mret (- ENOENT)
  else _ ← fifo_copy_out f data size (f_out f); mret 0.

Definition fifo_skip (f : fifo) (size : Z) : outcome (Z * fifo) :=
  len ← fifo_len f;
  if len <? size then Ret (- ENOENT, f)
  else
    o ← umod (u32 (f_out f + size)) (f_size f);
    Ret (0, Fifo (f_in f) o (f_data f) (f_size f)).

(** ** Representation *)

(** The address of the byte at distance [i] from the read index. *)
Definition ring (f : fifo) (i : Z) : Z := f_data f + (f_out f + i) mod f_size f.

Record fifo_rep (b : gmap Z Z) (f : fifo) (q : list Z) : Prop := FifoRep {
  fr_size : 0 < f_size f <= 2 ^ 31;
  fr_in : 0 <= f_in f < f_size f;
  fr_out : 0 <= f_out f < f_size f;
  fr_len : length q < f_size f;
  fr_index : f_in f = (f_out f + length q) mod f_size f;
  fr_bytes : byte_list q;
  fr_mapped : mapped b (f_data f) (f_size f);
  fr_data : forall (i : nat) x, q !! i = Some x -> b !! ring f i = Some x
}.

(** [p .. p + n) lies outside the ring. *)
Definition apart (f : fifo) (p n : Z) : Prop := p + n <= f_data f \/ f_data f + f_size f <= p.

Lemma mod_wrap a n : 0 < n -> 0 <= a < 2 * n -> a mod n = if a <? n then a else a - n.
Proof.
  intros Hn Ha. destruct (Z.ltb_spec a n); [by apply Z.mod_small; lia|].
  replace a with (a - n + 1 * n) at 1 by lia. rewrite Z_mod_plus_full. apply Z.mod_small. lia.
Qed.

Section Rep.
Context (b : gmap Z Z) (f : fifo) (q : list Z) (Hr : fifo_rep b f q).

Lemma fifo_len_run : fifo_len f = Ret (Z.of_nat (length q)).
Proof using Hr.
  destruct Hr as [Hs Hi Ho Hl Hx _ _ _]. unfold fifo_len, umod. replace (f_size f =? 0) with false by lia.
  rewrite wrap_small by (unfold fits; lia). f_equal.
  rewrite mod_wrap in Hx by lia. rewrite mod_wrap by lia.
  destruct (Z.ltb_spec (f_out f + length q) (f_size f)).
  - replace (f_in f + f_size f - f_out f <? f_size f) with false by lia. lia.
  - replace (f_in f + f_size f - f_out f <? f_size f) with true by lia. lia.
Qed.

Lemma fifo_avail_run : fifo_avail f = Ret (f_size f - 1 - length q).
Proof using Hr.
  unfold fifo_avail. rewrite fifo_len_run. cbn. destruct Hr as [Hs Hi Ho Hl Hx _ _ _].
  rewrite wrap_small by (unfold fits; lia). done.
Qed.

Lemma step_index i n : 0 <= i < f_size f -> 0 <= n < f_size f ->
  umod (u32 (i + n)) (f_size f) = Ret ((i + n) mod f_size f).
Proof using Hr.
  destruct Hr as [Hs _ _ _ _ _ _ _]. intros. unfold umod. replace (f_size f =? 0) with false by lia.
  by rewrite wrap_small by (unfold fits; lia).
Qed.
End Rep.

(** ** Putting bytes in *)

(** The ring after [l] has been copied in at offset [off]. *)
Definition wrapped (data size off : Z) (l : list Z) (b : gmap Z Z) : gmap Z Z :=
  let n := Z.to_nat (size - off) in
  blit data (drop n l) (blit (data + off) (take n l) b).

Lemma wrapped_ring data size off l b (i : nat) x :
  0 <= off < size -> length l <= size -> l !! i = Some x ->
  wrapped data size off l b !! (data + (off + i) mod size) = Some x.
Proof.
  intros Ho Hl Hx. pose proof (lookup_lt_Some _ _ _ Hx). unfold wrapped. rewrite mod_wrap by lia.
  destruct (Z.ltb_spec (off + i) size) as [Hlt|Hge].
  - rewrite blit_out. 2:{ rewrite length_drop. lia. }
    replace (data + (off + i)) with (data + off + i) by lia. apply blit_in. by rewrite lookup_take_lt by lia.
  - replace (off + i - size) with (Z.of_nat (i - Z.to_nat (size - off))) by lia. apply blit_in.
    rewrite lookup_drop. by replace (Z.to_nat (size - off) + (i - Z.to_nat (size - off)))%nat with i by lia.
Qed.

Lemma wrapped_other data size off l b j :
  0 <= off < size -> length l <= size -> length l <= j < size ->
  wrapped data size off l b !! (data + (off + j) mod size) = b !! (data + (off + j) mod size).
Proof.
  intros Ho Hl Hj. unfold wrapped. rewrite mod_wrap by lia. destruct (Z.ltb_spec (off + j) size).
  - rewrite blit_out, blit_out; [done| |]; rewrite ?length_drop, ?length_take; lia.
  - rewrite blit_out, blit_out; [done| |]; rewrite ?length_drop, ?length_take; lia.
Qed.

Lemma wrapped_outside data size off l b a :
  0 <= off < size -> length l <= size -> ~ data <= a < data + size ->
  wrapped data size off l b !! a = b !! a.
Proof.
  intros Ho Hl Ha. unfold wrapped. rewrite blit_out, blit_out; [done| |]; rewrite ?length_drop, ?length_take; lia.
Qed.

Lemma arr_take_drop b p l (n : nat) :
  arr b p l -> (n <= length l)%nat -> arr b p (take n l) /\ arr b (p + n) (drop n l).
Proof.
  intros Ha Hn. rewrite <- (take_drop n l) in Ha. apply arr_app in Ha as [H1 H2]. rewrite length_take in H2.
  by replace (n `min` length l)%nat with n in H2 by lia.
Qed.

Lemma copy_in_run b f q s src l :
  fifo_rep b f q -> bytes s = b -> arr b src l -> byte_list l -> apart f src (length l) ->
  length l < f_size f ->
  fifo_copy_in f src (length l) (f_in f) s
    = Ret (tt, put_bytes (wrapped (f_data f) (f_size f) (f_in f) l b) s).
Proof.
  intros Hr <- Ha Hb Hap Hl. unfold apart in Hap. destruct Hr as [Hs Hi Ho _ _ _ Hm _]. unfold fifo_copy_in.
  rewrite wrap_small by (unfold fits; lia).
  set (k := Z.min (length l) (f_size f - f_in f)). set (n := Z.to_nat k).
  destruct (arr_take_drop _ _ _ n Ha ltac:(lia)) as [Ha1 Ha2].
  assert (Hb1 : byte_list (take n l)) by by apply Forall_take.
  assert (Hb2 : byte_list (drop n l)) by by apply Forall_drop.
  assert (Hl1 : k = length (take n l)) by (rewrite length_take; lia).
  assert (Hl2 : length l - k = length (drop n l)) by (rewrite length_drop; lia).
  rewrite (M_bind_run _ _ _ _ _ (memcpy_run (take n l) s (f_data f + f_in f) src k Hl1 Ha1 Hb1
    ltac:(eapply mapped_sub; [exact Hm|lia|lia]) ltac:(unfold copy_safe; lia))).
  replace (Z.of_nat n) with k in Ha2 by lia.
  rewrite (M_bind_run _ _ _ _ _ (memcpy_run (drop n l) (put_bytes (blit (f_data f + f_in f) (take n l) (bytes s)) s) (f_data f) (src + k) (length l - k) Hl2
    ltac:(eapply arr_frame; [|exact Ha2]; intros a Hin; apply blit_out; rewrite length_drop in Hin; rewrite <- Hl1; lia) Hb2
    ltac:(apply mapped_blit; eapply mapped_sub; [exact Hm|lia|lia]) ltac:(unfold copy_safe; lia))).
  unfold mret, M_ret, wrapped, put_bytes. cbn [bytes blocks]. do 4 f_equal.
  - destruct (decide (length l <= f_size f - f_in f)).
    + rewrite !drop_ge by lia. done.
    + f_equal. lia.
  - destruct (decide (length l <= f_size f - f_in f)).
    + rewrite !take_ge by lia. done.
    + do 2 f_equal. lia.
Qed.

Lemma fifo_in_run b f q s src l :
  fifo_rep b f q -> bytes s = b -> arr b src l -> byte_list l -> apart f src (length l) ->
  length q + length l < f_size f ->
  exists f' s', fifo_in f src (length l) s = Ret ((0, f'), s') /\ fifo_rep (bytes s') f' (q ++ l) /\
    f_data f' = f_data f /\ f_size f' = f_size f /\
    (forall a, ~ f_data f <= a < f_data f + f_size f -> bytes s' !! a = b !! a).
Proof.
  intros Hr Eb Ha Hb Hap Hl. pose proof Hr as [Hs Hi Ho Hq Hx Hqb Hm Hd].
  exists (Fifo ((f_in f + length l) mod f_size f) (f_out f) (f_data f) (f_size f)).
  exists (put_bytes (wrapped (f_data f) (f_size f) (f_in f) l b) s). split_and!; [|split|done|done|].
  - unfold fifo_in. rewrite (M_bind_run _ _ s s (f_size f - 1 - length q)) by (by rewrite (fifo_avail_run _ _ _ Hr)).
    replace (f_size f - 1 - length q <? length l) with false by lia.
    rewrite (M_bind_run _ _ _ _ _ (copy_in_run b f q s src l Hr Eb Ha Hb Hap ltac:(lia))).
    unfold mlift. rewrite (M_bind_run _ _ _ (put_bytes (wrapped (f_data f) (f_size f) (f_in f) l b) s) ((f_in f + length l) mod f_size f)).
    + done.
    + by rewrite (step_index _ _ _ Hr) by lia.
  - done.
  - cbn [f_in f_size]. apply Z.mod_pos_bound. lia.
  - done.
  - cbn [f_size]. rewrite length_app. lia.
  - cbn [f_in f_out f_size]. rewrite Hx, length_app, Nat2Z.inj_add, Zplus_mod_idemp_l. f_equal. lia.
  - by apply Forall_app.
  - cbn [f_data f_size bytes put_bytes]. unfold wrapped. by apply mapped_blit, mapped_blit.
  - intros i x Hix. unfold ring. cbn [f_data f_out f_size bytes put_bytes].
    apply lookup_app_Some in Hix as [Hix|[Hge Hix]].
    + pose proof (lookup_lt_Some _ _ _ Hix).
      replace ((f_out f + i) mod f_size f) with ((f_in f + (f_size f - length q + i)) mod f_size f).
      2:{ rewrite Hx, Zplus_mod_idemp_l. replace (f_out f + length q + (f_size f - length q + i)) with (f_out f + i + 1 * f_size f) by lia.
          apply Z_mod_plus_full. }
      rewrite wrapped_other by lia. rewrite Hx, Zplus_mod_idemp_l.
      replace (f_out f + length q + (f_size f - length q + i)) with (f_out f + i + 1 * f_size f) by lia.
      rewrite Z_mod_plus_full. by apply Hd.
    + replace ((f_out f + i) mod f_size f) with ((f_in f + Z.of_nat (i - length q)) mod f_size f).
      2:{ rewrite Hx, Zplus_mod_idemp_l. f_equal. lia. }
      apply wrapped_ring; [lia|lia|done].
  - intros a Hout. cbn [bytes put_bytes]. apply wrapped_outside; lia.
Qed.

(** ** Taking bytes out *)

Lemma copy_out_run b f q s dst (n : nat) :
  fifo_rep b f q -> bytes s = b -> mapped b dst n -> apart f dst n -> (n <= length q)%nat ->
  fifo_copy_out f dst n (f_out f) s = Ret (tt, put_bytes (blit dst (take n q) b) s).
Proof.
  intros Hr <- Hmd Hap Hn. unfold apart in Hap. destruct Hr as [Hs Hi Ho Hq Hx Hqb Hm Hd].
  unfold fifo_copy_out. rewrite wrap_small by (unfold fits; lia).
  set (k := Z.min n (f_size f - f_out f)). set (t := take n q). set (j := Z.to_nat k).
  assert (Ht : length t = n) by (unfold t; rewrite length_take; lia).
  assert (Hl1 : k = length (take j t)) by (rewrite length_take; lia).
  assert (Hl2 : n - k = length (drop j t)) by (rewrite length_drop; lia).
  assert (Htb : byte_list t) by by apply Forall_take.
  assert (Hl : forall (i : nat) x, t !! i = Some x -> q !! i = Some x /\ (i < n)%nat).
  { intros i x E. unfold t in E. by apply lookup_take_Some in E. }
  assert (Ha1 : arr (bytes s) (f_data f + f_out f) (take j t)).
  { intros i x [E Hij]%lookup_take_Some. apply Hl in E as [E Hi']. apply Hd in E. unfold ring in E.
    rewrite Z.mod_small in E by lia. by rewrite Z.add_assoc in E. }
  assert (Ha2 : arr (bytes s) (f_data f) (drop j t)).
  { intros i x E. rewrite lookup_drop in E. apply Hl in E as [E Hi']. apply Hd in E. unfold ring in E.
    rewrite mod_wrap in E by lia. destruct (Z.ltb_spec (f_out f + (j + i)%nat) (f_size f)); [lia|].
    rewrite <- E. f_equal. lia. }
  rewrite (M_bind_run _ _ _ _ _ (memcpy_run (take j t) s dst (f_data f + f_out f) k Hl1 Ha1 ltac:(by apply Forall_take)
    ltac:(eapply mapped_sub; [exact Hmd|lia|lia]) ltac:(unfold copy_safe; lia))).
  rewrite (M_bind_run _ _ _ _ _ (memcpy_run (drop j t) (put_bytes (blit dst (take j t) (bytes s)) s) (dst + k) (f_data f) (n - k) Hl2
    ltac:(eapply arr_frame; [|exact Ha2]; intros a Hin; apply blit_out; rewrite <- Hl1; lia) ltac:(by apply Forall_drop)
    ltac:(apply mapped_blit; eapply mapped_sub; [exact Hmd|lia|lia]) ltac:(unfold copy_safe; lia))).
  unfold mret, M_ret, put_bytes. cbn [bytes blocks]. do 3 f_equal.
  rewrite <- (take_drop j t) at 3. rewrite blit_app, <- Hl1. apply blit_comm. lia.
Qed.

(** Moving the read index past [n] bytes. *)
Lemma rep_skip b f q (n : nat) :
  fifo_rep b f q -> (n <= length q)%nat ->
  fifo_rep b (Fifo (f_in f) ((f_out f + n) mod f_size f) (f_data f) (f_size f)) (drop n q).
Proof.
  intros [Hs Hi Ho Hq Hx Hqb Hm Hd] Hn. split; cbn [f_in f_out f_data f_size]; try done.
  - apply Z.mod_pos_bound. lia.
  - rewrite length_drop. lia.
  - rewrite Hx, length_drop, Zplus_mod_idemp_l. f_equal. lia.
  - by apply Forall_drop.
  - intros i x E. rewrite lookup_drop in E. apply Hd in E. unfold ring in *. cbn [f_out f_data f_size].
    rewrite Zplus_mod_idemp_l. rewrite <- E. do 3 f_equal. lia.
Qed.

Lemma ring_frame b b' f q :
  (forall a, f_data f <= a < f_data f + f_size f -> b' !! a = b !! a) -> fifo_rep b f q -> fifo_rep b' f q.
Proof.
  intros Hf [Hs Hi Ho Hq Hx Hqb Hm Hd]. split; try done.
  - intros i Hii. rewrite Hf by lia. by apply Hm.
  - intros i x E. apply Hd in E. rewrite Hf; [done|]. unfold ring.
    pose proof (Z.mod_pos_bound (f_out f + i) (f_size f)). lia.
Qed.

Lemma umod_ok b f q i (n : nat) :
  fifo_rep b f q -> 0 <= i < f_size f -> (n <= length q)%nat ->
  umod (u32 (i + n)) (f_size f) = Ret ((i + n) mod f_size f).
Proof. intros Hr Hi Hn. apply (step_index _ _ _ Hr); [done|]. pose proof (fr_len _ _ _ Hr). lia. Qed.

Lemma fifo_out_run b f q s dst (n : nat) :
  fifo_rep b f q -> bytes s = b -> mapped b dst n -> apart f dst n -> (n <= length q)%nat ->
  exists f' s', fifo_out f dst n s = Ret ((0, f'), s') /\ fifo_rep (bytes s') f' (drop n q) /\
    bytes s' = blit dst (take n q) b /\ f_data f' = f_data f /\ f_size f' = f_size f.
Proof.
  intros Hr Eb Hm Hap Hn. exists (Fifo (f_in f) ((f_out f + n) mod f_size f) (f_data f) (f_size f)).
  exists (put_bytes (blit dst (take n q) b) s). split_and!; [| | |done|done].
  - unfold fifo_out. rewrite (M_bind_run _ _ s s (Z.of_nat (length q))) by (by rewrite (fifo_len_run _ _ _ Hr)).
    replace (length q <? n) with false by lia.
    rewrite (M_bind_run _ _ _ _ _ (copy_out_run b f q s dst n Hr Eb Hm Hap Hn)).
    rewrite (M_bind_run _ _ _ (put_bytes (blit dst (take n q) b) s) ((f_out f + n) mod f_size f)); [reflexivity|].
    by rewrite (umod_ok _ _ _ _ _ Hr (fr_out _ _ _ Hr) Hn).
  - apply rep_skip; [|done]. cbn [bytes put_bytes]. eapply ring_frame; [|exact Hr].
    intros a Ha. apply blit_out. rewrite length_take. unfold apart in Hap. lia.
  - done.
Qed.

(** ** The contract *)

(** [fifo_in] appends: when the bytes fit into the space that is left,
    the ring holds them after those it held, wrapped around the end of the
    buffer as needed, and no byte outside the buffer changes; otherwise it
    answers [-ENOSPC] and nothing changes. *)
Theorem fifo_in_ok (s : cmem) (f : fifo) (q l : list Z) (src : Z) :
  fifo_rep (bytes s) f q -> arr (bytes s) src l -> byte_list l -> apart f src (length l) ->
  (length q + length l < f_size f /\
   exists f' s', fifo_in f src (length l) s = Ret ((0, f'), s') /\ fifo_rep (bytes s') f' (q ++ l) /\
     forall a, ~ f_data f <= a < f_data f + f_size f -> bytes s' !! a = bytes s !! a) \/
  (f_size f <= length q + length l /\ fifo_in f src (length l) s = Ret ((- ENOSPC, f), s)).
Proof.
  intros Hr Ha Hb Hap. destruct (decide (length q + length l < f_size f)) as [Hlt|Hge].
  - left. split; [done|]. destruct (fifo_in_run _ f q s src l Hr eq_refl Ha Hb Hap Hlt) as (f' & s' & E & Hr' & _ & _ & Ho).
    by exists f', s'.
  - right. split; [lia|]. unfold fifo_in.
    rewrite (M_bind_run _ _ s s (f_size f - 1 - length q)) by (by rewrite (fifo_avail_run _ _ _ Hr)).
    by replace (f_size f - 1 - length q <? length l) with true by lia.
Qed.

(** [fifo_out] takes the oldest bytes: when [n] of them are there, the
    destination receives them in order, the rest stay, and it does the same
    as [fifo_out_peek] followed by [fifo_skip]; otherwise it answers
    [-ENOENT] and nothing changes. *)
Theorem fifo_out_ok (s : cmem) (f : fifo) (q : list Z) (dst : Z) (n : nat) :
  fifo_rep (bytes s) f q -> mapped (bytes s) dst n -> apart f dst n ->
  ((n <= length q)%nat /\
   exists f' s', fifo_out f dst n s = Ret ((0, f'), s') /\ fifo_rep (bytes s') f' (drop n q) /\
     arr (bytes s') dst (take n q) /\ fifo_out_peek f dst n s = Ret (0, s') /\ fifo_skip f n = Ret (0, f')) \/
  ((length q < n)%nat /\ fifo_out f dst n s = Ret ((- ENOENT, f), s)).
Proof.
  intros Hr Hm Hap.
  assert (El : (mlift (fifo_len f) : M cmem Z) s = Ret (Z.of_nat (length q), s)) by (by rewrite (fifo_len_run _ _ _ Hr)).
  destruct (decide (n <= length q)%nat) as [Hle|Hgt].
  - left. split; [done|]. pose proof (copy_out_run _ f q s dst n Hr eq_refl Hm Hap Hle) as Ec.
    pose proof (umod_ok _ _ _ _ _ Hr (fr_out _ _ _ Hr) Hle) as Eu.
    destruct (fifo_out_run _ f q s dst n Hr eq_refl Hm Hap Hle) as (f' & s' & E & Hr' & Eb & _).
    exists f', s'. pose proof E as E'. unfold fifo_out in E'. rewrite (M_bind_run _ _ _ _ _ El) in E'.
    replace (length q <? n) with false in E' by lia. rewrite (M_bind_run _ _ _ _ _ Ec) in E'.
    rewrite Eu in E'. cbn in E'. injection E' as Ef Es.
    split_and!; [done|done| | |].
    + rewrite Eb. apply arr_blit.
    + unfold fifo_out_peek. rewrite (M_bind_run _ _ _ _ _ El). replace (length q <? n) with false by lia.
      rewrite (M_bind_run _ _ _ _ _ Ec). by rewrite <- Es.
    + unfold fifo_skip. rewrite (fifo_len_run _ _ _ Hr). cbn. replace (length q <? n) with false by lia.
      rewrite Eu. cbn. by rewrite <- Ef.
  - right. split; [lia|]. unfold fifo_out. rewrite (M_bind_run _ _ _ _ _ El).
    by replace (length q <? n) with true by lia.
Qed.

(** *** A ring that wraps *)

Definition ring4 : fifo := Fifo 1 3 100 4.
Definition mem_ring : cmem := CMem (blit 100 [22; 0; 0; 11] (blit 200 [33; 44] ∅)) ∅.

Lemma ring4_rep : fifo_rep (bytes mem_ring) ring4 [11; 22].
Proof.
  split; cbn [ring4 f_in f_out f_data f_size]; try done; try lia.
  - byte_list_tac.
  - apply (arr_mapped _ 100 [22; 0; 0; 11]), arr_blit.
  - intros [|[|i]] x E; [by injection E as <-|by injection E as <-|done].
Qed.

Lemma fifo_in_ok_witness :
  (2 + 1 < 4 /\
   exists f' s', fifo_in ring4 200 1 mem_ring = Ret ((0, f'), s') /\ fifo_rep (bytes s') f' [11; 22; 33] /\
     forall a, ~ 100 <= a < 104 -> bytes s' !! a = bytes mem_ring !! a) \/
  (4 <= 2 + 1 /\ fifo_in ring4 200 1 mem_ring = Ret ((- ENOSPC, ring4), mem_ring)).
Proof.
  apply (fifo_in_ok mem_ring ring4 [11; 22] [33] 200 ring4_rep); [|byte_list_tac|right; cbn; lia].
  apply arr_cons. split; [done|apply arr_length_0].
Defined.

Lemma fifo_out_ok_witness :
  ((2 <= 2)%nat /\
   exists f' s', fifo_out ring4 200 2 mem_ring = Ret ((0, f'), s') /\ fifo_rep (bytes s') f' [] /\
     arr (bytes s') 200 [11; 22] /\ fifo_out_peek ring4 200 2 mem_ring = Ret (0, s') /\ fifo_skip ring4 2 = Ret (0, f')) \/
  ((2 < 2)%nat /\ fifo_out ring4 200 2 mem_ring = Ret ((- ENOENT, ring4), mem_ring)).
Proof.
  apply (fifo_out_ok mem_ring ring4 [11; 22] 200 2 ring4_rep); [|right; cbn; lia].
  apply (arr_mapped _ 200 [33; 44]). rewrite !arr_cons. split_and!; [done|done|apply arr_length_0].
Defined.
