(* ===== verification/Vector.v ===== *)
(** * Growing arrays (libs/vector.c, include/vector.h)

    A vector keeps its elements, blocks of [element_size] bytes, one after
    the other in a heap block that doubles when it is full.  [vec_rep]
    relates it to the list of its elements; the heap is the interface
    [KHeap] of CMem.v. *)

From stdpp Require Import base numbers list gmap.
From Stdlib Require Import ZArith Lia ZifyBool ZifyNat.
From S2P Require Import Prelude CMem.

Open Scope Z_scope.

#[local] Coercion Z.of_nat : nat >-> Z.

Definition VEC_MIN_CAPACITY : Z := 8.
(** [sizeof(vector)] *)
Definition VECTOR_SIZE : Z := 16.

Record vector := Vector { v_base : Z; v_element_size : Z; v_size : Z; v_capacity : Z }.

Section Code.
Context `{KHeap}.

(** The address of the structure and its fields, or NULL. *)
Definition vector_create (element_size : Z) : M cmem (option (Z * vector)) :=
  vec ← kmalloc_bytes VECTOR_SIZE;
  if vec =? 0 then mret None
  else
    base ← kmalloc_bytes (u32 (VEC_MIN_CAPACITY * element_size));
    if base =? 0 then _ ← kfree_bytes vec; mret None
    else mret (Some (vec, Vector base element_size 0 VEC_MIN_CAPACITY)).

Definition vector_destroy (addr : Z) (vec : vector) : M cmem unit :=
  _ ← kfree_bytes (v_base vec); kfree_bytes addr.

Definition vec_ele (vec : vector) (index : Z) : Z := v_base vec + u32 (v_element_size vec * index).

Definition vector_at (vec : vector) (index ele : Z) : M cmem unit :=
  _ ← mlift (assert (index <? v_size vec));
  _ ← memcpy ele (vec_ele vec index) (v_element_size vec);
  mret tt.

Definition vector_expand (vec : vector) : M cmem (Z * vector) :=
  new_base ← kmalloc_bytes (u32 (u32 (v_element_size vec * v_capacity vec) * 2));
  if new_base =? 0 then mret (- ENOMEM, vec)
  else
    _ ← memcpy new_base (v_base vec) (u32 (v_element_size vec * v_size vec));
    _ ← kfree_bytes (v_base vec);
    mret (0, Vector new_base (v_element_size vec) (v_size vec) (u32 (Z.shiftl (v_capacity vec) 1))).

Definition vector_push (vec : vector) (ele : Z) : M cmem (Z * vector) :=
  '(ret, vec) ← (if v_size vec =? v_capacity vec then vector_expand vec else mret (0, vec));
  if negb (ret =? 0) then mret (- ENOMEM, vec)
  else
    _ ← memcpy (vec_ele vec (v_size vec)) ele (v_element_size vec);
    mret (0, Vector (v_base vec) (v_element_size vec) (u32 (v_size vec + 1)) (v_capacity vec)).

Definition vector_pop (vec : vector) (ele : Z) : M cmem (Z * vector) :=
  if v_size vec =? 0 then mret (- ENOENT, vec)
  else
    _ ← memcpy ele (vec_ele vec (v_size vec - 1)) (v_element_size vec);
    mret (0, Vector (v_base vec) (v_element_size vec) (v_size vec - 1) (v_capacity vec)).

Definition vector_size (vec : vector) : Z := v_size vec.
Definition vector_empty (vec : vector) : bool := v_size vec =? 0.
End Code.

(** ** Representation *)

Record vec_rep (s : cmem) (v : vector) (els : list (list Z)) : Prop := VecRep {
  vr_heap : heap_ok s;
  vr_block : blocks s !! v_base v = Some (v_element_size v * v_capacity v);
  vr_pos : 0 < v_element_size v /\ 0 < v_capacity v /\ 0 < v_base v;
  vr_fits : v_element_size v * v_capacity v < 2 ^ 31;
  vr_size : v_size v = length els /\ v_size v <= v_capacity v;
  vr_els : Forall (fun e => Z.of_nat (length e) = v_element_size v /\ byte_list e) els;
  vr_data : arr (bytes s) (v_base v) (concat els)
}.

(** The bytes [p .. p + n) are not part of the vector's block. *)
Definition vec_apart (v : vector) (p n : Z) : Prop :=
  p + n <= v_base v \/ v_base v + v_element_size v * v_capacity v <= p.

Lemma concat_length es (els : list (list Z)) :
  Forall (fun e => Z.of_nat (length e) = es /\ byte_list e) els -> Z.of_nat (length (concat els)) = es * length els.
Proof.
  induction 1 as [|e els [He _] _ IH]; cbn [concat length]; [lia|]. rewrite length_app. lia.
Qed.

Lemma concat_bytes es (els : list (list Z)) :
  Forall (fun e => Z.of_nat (length e) = es /\ byte_list e) els -> byte_list (concat els).
Proof.
  induction 1 as [|e els [_ He] _ IH]; cbn [concat]; [by apply Forall_nil|]. by apply Forall_app.
Qed.

Lemma concat_lookup es (els : list (list Z)) (i : nat) e b p :
  Forall (fun e => Z.of_nat (length e) = es /\ byte_list e) els -> els !! i = Some e ->
  arr b p (concat els) -> arr b (p + es * i) e.
Proof.
  intros Hf Hi Ha. apply list_elem_of_split_length in Hi as (l1 & l2 & -> & ->).
  apply Forall_app in Hf as [Hf1 Hf2]. rewrite concat_app in Ha. cbn [concat] in Ha.
  apply arr_app in Ha as [_ Ha]. apply arr_app in Ha as [Ha _]. by rewrite (concat_length es) in Ha by done.
Qed.

Lemma vec_mapped s v els : vec_rep s v els -> mapped (bytes s) (v_base v) (v_element_size v * v_capacity v).
Proof. intros Hr. by apply (ho_mapped _ (vr_heap _ _ _ Hr) _ _ (vr_block _ _ _ Hr)). Qed.

(** Every block of [s'] is one of [s] or lies where nothing was mapped. *)
Definition grown (s s' : cmem) : Prop :=
  forall q n, blocks s' !! q = Some n -> blocks s !! q = Some n \/ forall p, q <= p < q + n -> bytes s !! p = None.

Section Correct.
Context `{KHeap}.

(** Writing one more element behind the last. *)
Lemma vec_append s v els p e :
  vec_rep s v els -> v_size v < v_capacity v -> arr (bytes s) p e -> Z.of_nat (length e) = v_element_size v ->
  byte_list e -> vec_apart v p (v_element_size v) ->
  exists s', memcpy (vec_ele v (v_size v)) p (v_element_size v) s = Ret (vec_ele v (v_size v), s') /\
    vec_rep s' (Vector (v_base v) (v_element_size v) (u32 (v_size v + 1)) (v_capacity v)) (els ++ [e]) /\
    blocks s' = blocks s /\
    (forall a, ~ v_base v <= a < v_base v + v_element_size v * v_capacity v -> bytes s' !! a = bytes s !! a).
Proof.
  intros Hr Hlt Ha He Hb Hap. pose proof (vec_mapped _ _ _ Hr) as Hm.
  destruct Hr as [Hh Hbl (Hes & Hcap & Hbase) Hfit [Hsz Hle] Hels Hd]. unfold vec_apart in Hap.
  assert (Hmul : 0 <= v_element_size v * v_size v /\ v_element_size v * v_size v + v_element_size v <= v_element_size v * v_capacity v) by nia.
  assert (Eele : vec_ele v (v_size v) = v_base v + v_element_size v * v_size v).
  { unfold vec_ele. rewrite wrap_small by (unfold fits; lia). done. }
  rewrite Eele.
  rewrite (memcpy_run e s (v_base v + v_element_size v * v_size v) p (v_element_size v) ltac:(lia) Ha Hb
    ltac:(eapply mapped_sub; [exact Hm|lia|lia]) ltac:(unfold copy_safe; lia)).
  eexists. split; [reflexivity|]. split_and!; [|done|].
  - split; cbn [v_base v_element_size v_size v_capacity]; try done.
    + by apply heap_ok_blit.
    + rewrite length_app, wrap_small; [cbn [length]; lia|]. unfold fits. nia.
    + apply Forall_app. split; [done|]. by apply Forall_singleton.
    + rewrite concat_app. cbn [concat]. rewrite app_nil_r. pose proof (concat_length _ _ Hels) as Hcl.
      rewrite <- Hsz in Hcl. cbn [bytes put_bytes].
      apply arr_app. rewrite Hcl. split; [|apply arr_blit].
      eapply arr_frame; [|exact Hd]. intros a Hin. apply blit_out. lia.
  - intros a Hout. cbn [bytes put_bytes]. apply blit_out. lia.
Qed.

(** Moving to a block of twice the size. *)
Lemma vec_grow s v els p n :
  vec_rep s v els -> v_size v = v_capacity v -> v_element_size v * v_capacity v * 2 < 2 ^ 31 ->
  0 < n -> mapped (bytes s) p n -> vec_apart v p n ->
  ((exists n, kalloc s n = None) /\ vector_expand v s = Ret ((- ENOMEM, v), s)) \/
  exists v' s', vector_expand v s = Ret ((0, v'), s') /\ vec_rep s' v' els /\ v_size v' = v_size v /\
    v_element_size v' = v_element_size v /\ v_capacity v' = 2 * v_capacity v /\ vec_apart v' p n /\
    blocks s' !! v_base v = None /\ grown s s' /\ blocks s !! v_base v' = None /\
    (forall q n, blocks s !! q = Some n -> q <> v_base v -> blocks s' !! q = Some n) /\
    (forall a x, bytes s !! a = Some x -> ~ v_base v <= a < v_base v + v_element_size v * v_capacity v ->
       bytes s' !! a = Some x /\ ~ v_base v' <= a < v_base v' + v_element_size v' * v_capacity v').
Proof.
  intros Hr Hfull Hfit2 Hn Hpm Hap. pose proof (vec_mapped _ _ _ Hr) as Hm.
  destruct Hr as [Hh Hbl (Hes & Hcap & Hbase) Hfit [Hsz Hle] Hels Hd]. unfold vec_apart in Hap.
  set (es := v_element_size v) in *. set (cap := v_capacity v) in *.
  unfold vector_expand. fold es cap. rewrite (wrap_small 32 (es * cap)) by (unfold fits; nia).
  rewrite (wrap_small 32 (es * cap * 2)) by (unfold fits; nia).
  destruct (kmalloc_run s (es * cap * 2) ltac:(nia) Hh) as [[Hno E]|(a & s1 & E & Ha0 & Hh1 & Hna & Hb1 & Hm1 & Hfr & Hout & Hkeep)];
    rewrite (M_bind_run _ _ _ _ _ E); [left; eauto|]. right.
  replace (a =? 0) with false by lia.
  pose proof (concat_length _ _ Hels) as Hcl. fold es in Hcl.
  rewrite (wrap_small 32 (es * v_size v)) by (unfold fits; nia).
  assert (Hsep : a + es * cap * 2 <= v_base v \/ v_base v + es * cap <= a).
  { apply (ho_disjoint _ Hh1 a (es * cap * 2) (v_base v) (es * cap)).
    - rewrite Hb1. apply lookup_insert_eq.
    - rewrite Hb1, lookup_insert_ne; [done|congruence].
    - congruence. }
  assert (Hd1 : arr (bytes s1) (v_base v) (concat els)) by (intros i x Hi; apply Hkeep, Hd, Hi).
  rewrite (M_bind_run _ _ _ _ _ (memcpy_run (concat els) s1 a (v_base v) (es * v_size v) ltac:(lia) Hd1
    (concat_bytes _ _ Hels) ltac:(eapply mapped_sub; [exact Hm1|lia|nia]) ltac:(unfold copy_safe; nia))).
  set (s2 := put_bytes (blit a (concat els) (bytes s1)) s1).
  assert (Hh2 : heap_ok s2) by by apply heap_ok_blit.
  destruct (kfree_run s2 (v_base v) (es * cap) Hh2) as (s3 & E3 & Hh3 & Hb3 & Hout3).
  { cbn [s2 put_bytes blocks]. rewrite Hb1, lookup_insert_ne; [done|congruence]. }
  rewrite (M_bind_run _ _ _ _ _ E3).
  exists (Vector a es (v_size v) (2 * cap)), s3. cbn [v_base v_element_size v_size v_capacity].
  assert (Hout2 : forall q, ~ a <= q < a + es * cap * 2 -> bytes s2 !! q = bytes s1 !! q).
  { intros q Hq. cbn [s2 bytes put_bytes]. apply blit_out. nia. }
  assert (Hpout : ~ (exists i, 0 <= i < n /\ a <= p + i < a + es * cap * 2)).
  { intros (i & Hi & Hin). destruct (Hpm i Hi) as [x Hx]. by rewrite Hfr in Hx. }
  split_and!; try done.
  - unfold mret, M_ret. do 4 f_equal. rewrite Z.shiftl_mul_pow2 by lia. rewrite wrap_small; [lia|]. unfold fits. nia.
  - split; cbn [v_base v_element_size v_size v_capacity]; try done.
    + rewrite Hb3, lookup_delete_ne by congruence. cbn [s2 put_bytes blocks]. rewrite Hb1.
      rewrite lookup_insert_eq. f_equal. lia.
    + lia.
    + lia.
    + lia.
    + eapply arr_frame; [|apply (arr_blit a (concat els) (bytes s1))]. intros q Hq.
      rewrite Hout3 by nia. done.
  - unfold vec_apart. cbn [v_base v_element_size v_capacity].
    destruct (decide (p + n <= a \/ a + es * (2 * cap) <= p)) as [?|Hov]; [done|].
    exfalso. apply Hpout.
    exists (Z.max p a - p). lia.
  - rewrite Hb3. apply lookup_delete_eq.
  - intros q k. rewrite Hb3, lookup_delete_Some. cbn [s2 put_bytes blocks]. rewrite Hb1, lookup_insert_Some.
    intros [_ [[<- <-]|[_ Hq]]]; [by right|by left].
  - intros q k Hq Hne. rewrite Hb3, lookup_delete_ne by congruence. cbn [s2 put_bytes blocks].
    rewrite Hb1, lookup_insert_ne; [done|congruence].
  - intros q x Hx Hq. assert (Hqa : ~ a <= q < a + es * cap * 2) by (intros Hc; by rewrite Hfr in Hx).
    split; [|lia]. rewrite Hout3, Hout2 by done. by apply Hkeep.
Qed.

Lemma vector_push_run s v els p e :
  vec_rep s v els -> v_element_size v * v_capacity v * 2 < 2 ^ 31 ->
  arr (bytes s) p e -> Z.of_nat (length e) = v_element_size v -> byte_list e ->
  vec_apart v p (v_element_size v) ->
  (v_size v = v_capacity v /\ (exists n, kalloc s n = None) /\ vector_push v p s = Ret ((- ENOMEM, v), s)) \/
  exists v' s', vector_push v p s = Ret ((0, v'), s') /\ vec_rep s' v' (els ++ [e]) /\
    v_element_size v' = v_element_size v /\ v_capacity v' <= Z.max (v_capacity v) (2 * v_size v) /\ grown s s' /\
    (v_base v' = v_base v \/ blocks s !! v_base v' = None) /\
    (forall q n, blocks s !! q = Some n -> q <> v_base v -> blocks s' !! q = Some n) /\
    (forall a x, bytes s !! a = Some x -> ~ v_base v <= a < v_base v + v_element_size v * v_capacity v ->
       bytes s' !! a = Some x).
Proof.
  intros Hr Hfit2 Ha He Hb Hap. pose proof (vr_pos _ _ _ Hr) as (Hes & Hcap & Hbase). pose proof (vr_size _ _ _ Hr) as [Hsz Hle].
  unfold vector_push. destruct (Z.eqb_spec (v_size v) (v_capacity v)) as [Hfull|Hroom].
  - pose proof (arr_mapped _ _ _ Ha) as Hpm. rewrite He in Hpm.
    destruct (vec_grow s v els p (v_element_size v) Hr Hfull Hfit2 Hes Hpm Hap)
      as [[Hno E]|(v1 & s1 & E & Hr1 & Hs1 & He1 & Hc1 & Hap1 & _ & Hg1 & Hn1 & Hbl1 & Hk1)]; rewrite (M_bind_run _ _ _ _ _ E); [by left|right].
    assert (Ha1 : arr (bytes s1) p e).
    { intros i x Hi. pose proof (lookup_lt_Some _ _ _ Hi). apply Hk1; [by apply Ha|]. unfold vec_apart in Hap. lia. }
    destruct (vec_append s1 v1 els p e Hr1 ltac:(lia) Ha1 ltac:(lia) Hb ltac:(by rewrite He1)) as (s2 & E2 & Hr2 & Hb2 & Hout).
    exists (Vector (v_base v1) (v_element_size v1) (u32 (v_size v1 + 1)) (v_capacity v1)), s2. cbv beta iota. change (negb (0 =? 0)) with false. cbv iota.
    rewrite (M_bind_run _ _ _ _ _ E2). unfold grown. rewrite Hb2. split_and!; [done|done|done|cbn; lia|exact Hg1|by right|exact Hbl1|].
    intros q x Hx Hq. destruct (Hk1 q x Hx Hq) as [Hx1 Hq1]. by rewrite Hout.
  - right. rewrite (M_bind_run _ _ s s (0, v)) by done. cbv beta iota. change (negb (0 =? 0)) with false. cbv iota.
    destruct (vec_append s v els p e Hr ltac:(lia) Ha He Hb Hap) as (s2 & E2 & Hr2 & Hb2 & Hout).
    exists (Vector (v_base v) (v_element_size v) (u32 (v_size v + 1)) (v_capacity v)), s2.
    rewrite (M_bind_run _ _ _ _ _ E2). unfold grown. rewrite Hb2. split_and!; [done|done|done|cbn; lia|by left|by left|done|].
    intros q x Hx Hq. by rewrite Hout.
Qed.
End Correct.

Lemma vec_read s v els (i : nat) e dst :
  vec_rep s v els -> els !! i = Some e -> mapped (bytes s) dst (v_element_size v) -> vec_apart v dst (v_element_size v) ->
  memcpy dst (vec_ele v i) (v_element_size v) s = Ret (dst, put_bytes (blit dst e (bytes s)) s).
Proof.
  intros [Hh Hbl (Hes & Hcap & Hbase) Hfit [Hsz Hle] Hels Hd] Hi Hm Hap. unfold vec_apart in Hap.
  pose proof (lookup_lt_Some _ _ _ Hi). pose proof (concat_lookup _ _ _ _ _ _ Hels Hi Hd) as Ha.
  destruct (proj1 (Forall_lookup _ _) Hels i e Hi) as [He Hb].
  assert (Hle2 : v_element_size v * i + v_element_size v <= v_element_size v * v_capacity v) by nia.
  assert (Hge : 0 <= v_element_size v * i) by nia.
  unfold vec_ele. rewrite wrap_small by (unfold fits; lia).
  apply memcpy_run; [lia|done|done|done|]. unfold copy_safe. lia.
Qed.

Lemma vec_rep_write s v els dst l :
  vec_rep s v els -> vec_apart v dst (length l) -> vec_rep (put_bytes (blit dst l (bytes s)) s) v els.
Proof.
  intros [Hh Hbl (Hes & Hcap & Hbase) Hfit [Hsz Hle] Hels Hd] Hap. unfold vec_apart in Hap. split; try done.
  - by apply heap_ok_blit.
  - cbn [bytes put_bytes]. eapply arr_frame; [|exact Hd]. intros a Ha. rewrite (concat_length _ _ Hels) in Ha.
    apply blit_out. nia.
Qed.

(** ** The contract *)

(** A vector is a list: [__vector_push] answers 0 and appends the
    element, in place or in a block twice as large with the old one freed,
    and keeps every byte outside the old block; or, only when the vector is
    full and memory is exhausted, it answers [-ENOMEM] and nothing changes.
    The element may be anywhere outside the vector's own block. *)
Theorem vector_push_ok `{KHeap} (s : cmem) (v : vector) (els : list (list Z)) (p : Z) (e : list Z) :
  vec_rep s v els -> v_element_size v * v_capacity v * 2 < 2 ^ 31 ->
  arr (bytes s) p e -> Z.of_nat (length e) = v_element_size v -> byte_list e ->
  vec_apart v p (v_element_size v) ->
  (v_size v = v_capacity v /\ vector_push v p s = Ret ((- ENOMEM, v), s)) \/
  exists v' s', vector_push v p s = Ret ((0, v'), s') /\ vec_rep s' v' (els ++ [e]) /\
    v_element_size v' = v_element_size v /\
    (forall a x, bytes s !! a = Some x -> ~ v_base v <= a < v_base v + v_element_size v * v_capacity v ->
       bytes s' !! a = Some x).
Proof.
  intros. destruct (vector_push_run s v els p e) as [(? & _ & ?)|(v' & s' & E & Hr & He & _ & _ & _ & _ & Hk)]; try done; [by left|].
  right. by exists v', s'.
Qed.

(** [__vector_pop] hands out the last element and removes it, and
    [__vector_at] hands out the element at an index below the size and
    stops the machine at any other index. *)
Theorem vector_pop_at_ok (s : cmem) (v : vector) (els : list (list Z)) (dst : Z) (i : nat) :
  vec_rep s v els -> mapped (bytes s) dst (v_element_size v) -> vec_apart v dst (v_element_size v) ->
  match els !! i with
  | Some e => exists s', vector_at v i dst s = Ret (tt, s') /\ vec_rep s' v els /\ arr (bytes s') dst e
  | None => vector_at v i dst s = Bug
  end /\
  match last els with
  | Some e => exists v' s', vector_pop v dst s = Ret ((0, v'), s') /\ vec_rep s' v' (take (length els - 1) els) /\
                arr (bytes s') dst e
  | None => vector_pop v dst s = Ret ((- ENOENT, v), s)
  end.
Proof.
  intros Hr Hm Hap. pose proof (vr_size _ _ _ Hr) as [Hsz Hle]. split.
  - unfold vector_at. destruct (els !! i) as [e|] eqn:Ei.
    + pose proof (lookup_lt_Some _ _ _ Ei). replace (i <? v_size v) with true by lia.
      rewrite (M_bind_run _ _ s s tt) by done. rewrite (M_bind_run _ _ _ _ _ (vec_read _ _ _ _ _ _ Hr Ei Hm Hap)).
      destruct (proj1 (Forall_lookup _ _) (vr_els _ _ _ Hr) i e Ei) as [He _].
      eexists. split; [done|]. split; [apply vec_rep_write; [done|by rewrite He]|apply arr_blit].
    + apply lookup_ge_None in Ei. by replace (i <? v_size v) with false by lia.
  - unfold vector_pop. destruct els as [|e els _] using rev_ind.
    { cbn [last length] in *. by replace (v_size v =? 0) with true by lia. }
    rewrite last_snoc, length_app in *. cbn [length] in *. replace (v_size v =? 0) with false by lia.
    assert (Ei : (els ++ [e]) !! length els = Some e) by by apply list_lookup_middle.
    destruct (proj1 (Forall_lookup _ _) (vr_els _ _ _ Hr) (length els) e Ei) as [He _].
    replace (v_size v - 1) with (Z.of_nat (length els)) by lia.
    rewrite (M_bind_run _ _ _ _ _ (vec_read _ _ _ _ _ _ Hr Ei Hm Hap)).
    exists (Vector (v_base v) (v_element_size v) (length els) (v_capacity v)). eexists.
    split; [done|]. split; [|apply arr_blit].
    replace (length els + 1 - 1)%nat with (length els) by lia. rewrite take_app_length.
    apply (vec_rep_write _ _ _ dst e) in Hr; [|by rewrite He].
    destruct Hr as [Hh Hbl Hpos Hfit _ Hels Hd]. split; try done; cbn [v_base v_element_size v_size v_capacity].
    + split; [done|lia].
    + by apply Forall_app in Hels as [? _].
    + rewrite concat_app in Hd. by apply arr_app in Hd as [? _].
Qed.

(** *** A full vector of two-byte elements *)

Definition vec2 : vector := Vector 100 2 1 1.
Definition mem_vec : cmem := CMem (blit 100 [7; 8] (blit 200 [1; 2] ∅)) (<[100 := 2]> ∅).

Lemma vec2_rep : vec_rep mem_vec vec2 [[7; 8]].
Proof.
  split; cbn [vec2 v_base v_element_size v_size v_capacity]; [|done|done|done|done| |].
  - split; cbn [mem_vec bytes blocks].
    + intros a n [[<- <-]|[_ E]]%lookup_insert_Some; [|by rewrite lookup_empty in E]. split; [lia|].
      apply (arr_mapped _ 100 [7; 8]), arr_blit.
    + intros a n b m [[<- <-]|[_ E]]%lookup_insert_Some; [|by rewrite lookup_empty in E].
      intros [[<- <-]|[_ E]]%lookup_insert_Some; [done|by rewrite lookup_empty in E].
  - apply Forall_singleton. split; [done|byte_list_tac].
  - apply (arr_blit 100 [7; 8]).
Qed.

Lemma mem_vec_200 : arr (bytes mem_vec) 200 [1; 2].
Proof. rewrite !arr_cons. split_and!; [done|done|apply arr_length_0]. Qed.

Lemma vector_push_ok_witness :
  (1 = 1 /\ @vector_push bump_heap vec2 200 mem_vec = Ret ((- ENOMEM, vec2), mem_vec)) \/
  exists v' s', @vector_push bump_heap vec2 200 mem_vec = Ret ((0, v'), s') /\ vec_rep s' v' [[7; 8]; [1; 2]] /\
    v_element_size v' = 2 /\
    (forall a x, bytes mem_vec !! a = Some x -> ~ 100 <= a < 100 + 2 * 1 -> bytes s' !! a = Some x).
Proof.
  apply (@vector_push_ok bump_heap mem_vec vec2 [[7; 8]] 200 [1; 2] vec2_rep); [done|apply mem_vec_200|done|byte_list_tac|].
  right. cbn. lia.
Defined.

Lemma vector_pop_at_ok_witness :
  (exists s', vector_at vec2 0 200 mem_vec = Ret (tt, s') /\ vec_rep s' vec2 [[7; 8]] /\ arr (bytes s') 200 [7; 8]) /\
  (exists v' s', vector_pop vec2 200 mem_vec = Ret ((0, v'), s') /\ vec_rep s' v' [] /\ arr (bytes s') 200 [7; 8]).
Proof.
  apply (vector_pop_at_ok mem_vec vec2 [[7; 8]] 200 0 vec2_rep); [|right; cbn; lia].
  apply (arr_mapped _ 200 [1; 2]), mem_vec_200.
Defined.
