(* ===== verification/Queue.v ===== *)
(** * Growing queues (libs/queue.c, include/queue.h)

    A ring of elements of [element_size] bytes in a heap block that doubles
    when the ring is full.  [que_rep] relates the ring to the list of its
    elements, the oldest first.  The block the ring outgrows is not freed:
    [enqueue_ok] says so. *)

From stdpp Require Import base numbers list gmap.
From Stdlib Require Import ZArith Lia ZifyBool ZifyNat.
From S2P Require Import Prelude CMem Fifo Vector.

Open Scope Z_scope.

#[local] Coercion Z.of_nat : nat >-> Z.

Definition QUE_MIN_CAPACITY : Z := 8.
(** [sizeof(queue)] *)
Definition QUEUE_SIZE : Z := 20.

Record queue := Queue { q_base : Z; q_element_size : Z; q_front : Z; q_rear : Z; q_capacity : Z }.

Definition queue_empty (que : queue) : bool := q_front que =? q_rear que.
Definition queue_full (que : queue) : outcome bool :=
  r ← umod (u32 (q_rear que + 1)) (q_capacity que); Ret (r =? q_front que).
Definition queue_size (que : queue) : outcome Z :=
  umod (u32 (q_rear que + q_capacity que - q_front que)) (q_capacity que).

Definition que_ele (que : queue) (index : Z) : Z := q_base que + u32 (q_element_size que * index).

Definition queue_front (que : queue) (ele : Z) : M cmem unit :=
  _ ← mlift (assert (q_front que <? q_capacity que));
  _ ← memcpy ele (que_ele que (q_front que)) (q_element_size que);
  mret tt.

Definition queue_rear (que : queue) (ele : Z) : M cmem unit :=
  _ ← mlift (assert (q_rear que <? q_capacity que));
  i ← mlift (umod (u32 (q_rear que + q_capacity que - 1)) (q_capacity que));
  _ ← memcpy ele (que_ele que i) (q_element_size que);
  mret tt.

Section Code.
Context `{KHeap}.

Definition queue_create (element_size : Z) : M cmem (option (Z * queue)) :=
  que ← kmalloc_bytes QUEUE_SIZE;
  if que =? 0 then mret None
  else
    base ← kmalloc_bytes (u32 (QUE_MIN_CAPACITY * element_size));
    if base =? 0 then _ ← kfree_bytes que; mret None
    else mret (Some (que, Queue base element_size 0 0 QUE_MIN_CAPACITY)).

Definition queue_expand (que : queue) : M cmem (Z * queue) :=
  let es := q_element_size que in
  new_base ← kmalloc_bytes (u32 (u32 (es * q_capacity que) * 2));
  if new_base =? 0 then mret (- ENOMEM, que)
  else
    _ ← (if q_front que <? q_rear que then
           n ← mlift (queue_size que);
           _ ← memcpy new_base (que_ele que (q_front que)) (u32 (n * es));
           mret tt
         else
           _ ← memcpy new_base (que_ele que (q_front que)) (u32 ((q_capacity que - q_front que) * es));
           _ ← memcpy (new_base + u32 ((q_capacity que - q_front que) * es)) (q_base que) (u32 (q_rear que * es));
           mret tt);
    rear ← mlift (queue_size que);
    mret (0, Queue new_base es 0 rear (u32 (Z.shiftl (q_capacity que) 1))).

Definition enqueue (que : queue) (ele : Z) : M cmem (Z * queue) :=
  full ← mlift (queue_full que);
  '(ret, que) ← (if full : bool then queue_expand que else mret (0, que));
  if negb (ret =? 0) then mret (ret, que)
  else
    _ ← memcpy (que_ele que (q_rear que)) ele (q_element_size que);
    rear ← mlift (umod (u32 (q_rear que + 1)) (q_capacity que));
    mret (0, Queue (q_base que) (q_element_size que) (q_front que) rear (q_capacity que)).

Definition dequeue (que : queue) (ele : Z) : M cmem (Z * queue) :=
  if queue_empty que then mret (- ENOENT, que)
  else
    _ ← memcpy ele (que_ele que (q_front que)) (q_element_size que);
    front ← mlift (umod (u32 (q_front que + 1)) (q_capacity que));
    mret (0, Queue (q_base que) (q_element_size que) front (q_rear que) (q_capacity que)).
End Code.

(** ** Representation *)

Definition slot (q : queue) (i : Z) : Z := q_base q + q_element_size q * ((q_front q + i) mod q_capacity q).

Record que_rep (s : cmem) (q : queue) (els : list (list Z)) : Prop := QueRep {
  qr_heap : heap_ok s;
  qr_block : blocks s !! q_base q = Some (q_element_size q * q_capacity q);
  qr_pos : 0 < q_element_size q /\ 1 < q_capacity q /\ 0 < q_base q;
  qr_fits : q_element_size q * q_capacity q < 2 ^ 30;
  qr_front : 0 <= q_front q < q_capacity q;
  qr_rear : q_rear q = (q_front q + length els) mod q_capacity q;
  qr_len : length els < q_capacity q;
  qr_els : Forall (fun e => Z.of_nat (length e) = q_element_size q /\ byte_list e) els;
  qr_data : forall (i : nat) e, els !! i = Some e -> arr (bytes s) (slot q i) e
}.

Definition que_apart (q : queue) (p n : Z) : Prop :=
  p + n <= q_base q \/ q_base q + q_element_size q * q_capacity q <= p.

Lemma slot_bounds q i : 0 < q_element_size q -> 0 < q_capacity q ->
  q_base q <= slot q i /\ slot q i + q_element_size q <= q_base q + q_element_size q * q_capacity q.
Proof. intros He Hc. unfold slot. pose proof (Z.mod_pos_bound (q_front q + i) (q_capacity q) Hc). nia. Qed.

(** Different positions of the ring do not overlap. *)
Lemma slot_disjoint q i j :
  0 < q_element_size q -> 0 < q_capacity q -> 0 <= i < q_capacity q -> 0 <= j < q_capacity q -> i <> j ->
  slot q i + q_element_size q <= slot q j \/ slot q j + q_element_size q <= slot q i.
Proof.
  intros He Hc Hi Hj Hne. unfold slot. set (a := (q_front q + i) mod q_capacity q). set (b := (q_front q + j) mod q_capacity q).
  assert (Hab : a <> b).
  { intros E. unfold a, b in E. apply Hne.
    assert (Hd : (i - j) mod q_capacity q = 0).
    { replace (i - j) with ((q_front q + i) - (q_front q + j)) by lia. rewrite Zminus_mod, E, Z.sub_diag. apply Zmod_0_l. }
    apply Z.mod_divide in Hd as [k Hk]; [|lia]. assert (k = 0 \/ 1 <= k \/ k <= -1) as [->|[Hk1|Hk1]] by lia; nia. }
  assert (a < b \/ b < a) as [?|?] by lia; [left|right]; nia.
Qed.

Lemma que_mapped s q els : que_rep s q els -> mapped (bytes s) (q_base q) (q_element_size q * q_capacity q).
Proof. intros Hr. by apply (ho_mapped _ (qr_heap _ _ _ Hr) _ _ (qr_block _ _ _ Hr)). Qed.

Lemma que_ele_eq s q els i : que_rep s q els -> 0 <= i < q_capacity q ->
  que_ele q i = q_base q + q_element_size q * i.
Proof.
  intros [_ _ (? & ? & ?) Hf _ _ _ _ _] Hi. unfold que_ele. rewrite wrap_small; [done|]. unfold fits.
  assert (q_element_size q * i <= q_element_size q * q_capacity q) by nia. nia.
Qed.

Lemma rear_range s q els : que_rep s q els -> 0 <= q_rear q < q_capacity q.
Proof. intros [_ _ (? & ? & ?) _ _ -> _ _ _]. apply Z.mod_pos_bound. lia. Qed.

Lemma cap_small s q els : que_rep s q els -> q_capacity q < 2 ^ 30.
Proof. intros [_ _ (? & ? & ?) Hf _ _ _ _ _]. nia. Qed.

Lemma queue_size_run s q els : que_rep s q els -> queue_size q = Ret (Z.of_nat (length els)).
Proof.
  intros Hr. pose proof (cap_small _ _ _ Hr). pose proof (rear_range _ _ _ Hr). destruct Hr as [_ _ (? & ? & ?) _ Hfr Hre Hl _ _].
  unfold queue_size, umod. replace (q_capacity q =? 0) with false by lia.
  rewrite wrap_small by (unfold fits; lia). f_equal. rewrite mod_wrap in Hre |- * by lia.
  destruct (Z.ltb_spec (q_front q + length els) (q_capacity q)).
  - replace (q_rear q + q_capacity q - q_front q <? q_capacity q) with false by lia. lia.
  - replace (q_rear q + q_capacity q - q_front q <? q_capacity q) with true by lia. lia.
Qed.

Lemma queue_full_run s q els : que_rep s q els -> queue_full q = Ret (length els + 1 =? q_capacity q).
Proof.
  intros Hr. pose proof (cap_small _ _ _ Hr). pose proof (rear_range _ _ _ Hr). destruct Hr as [_ _ (? & ? & ?) _ Hfr Hre Hl _ _].
  unfold queue_full, umod. replace (q_capacity q =? 0) with false by lia.
  rewrite wrap_small by (unfold fits; lia). cbn. f_equal. rewrite mod_wrap in Hre |- * by lia.
  destruct (Z.ltb_spec (q_front q + length els) (q_capacity q)), (Z.ltb_spec (q_rear q + 1) (q_capacity q)); lia.
Qed.

Lemma queue_empty_run s q els : que_rep s q els -> queue_empty q = bool_decide (els = []).
Proof.
  intros Hr. destruct Hr as [_ _ (? & ? & ?) _ Hfr Hre Hl _ _]. unfold queue_empty. rewrite mod_wrap in Hre by lia.
  destruct els as [|e els]; cbn [length] in *.
  - rewrite bool_decide_true by done. destruct (Z.ltb_spec (q_front q + 0%nat) (q_capacity q)); lia.
  - rewrite bool_decide_false by done. destruct (Z.ltb_spec (q_front q + S (length els)) (q_capacity q)); lia.
Qed.

(** Reading the element at a position of the ring. *)
Lemma que_read s q els (i : nat) e dst :
  que_rep s q els -> els !! i = Some e -> mapped (bytes s) dst (q_element_size q) -> que_apart q dst (q_element_size q) ->
  memcpy dst (slot q i) (q_element_size q) s = Ret (dst, put_bytes (blit dst e (bytes s)) s).
Proof.
  intros [_ _ (? & ? & ?) _ _ _ _ Hels Hd] Hi Hm Hap. unfold que_apart in Hap.
  destruct (proj1 (Forall_lookup _ _) Hels i e Hi) as [He Hb]. pose proof (slot_bounds q i ltac:(lia) ltac:(lia)).
  apply memcpy_run; [lia|by apply Hd|done|done|]. unfold copy_safe. lia.
Qed.

Lemma que_rep_write s q els dst l :
  que_rep s q els -> que_apart q dst (length l) -> que_rep (put_bytes (blit dst l (bytes s)) s) q els.
Proof.
  intros [Hh Hbl Hpos Hf Hfr Hre Hl Hels Hd] Hap. unfold que_apart in Hap. split; try done; [by apply heap_ok_blit|].
  intros i e Hi. destruct (proj1 (Forall_lookup _ _) Hels i e Hi) as [He _].
  pose proof (slot_bounds q i ltac:(lia) ltac:(lia)).
  cbn [bytes put_bytes]. eapply arr_frame; [|by apply Hd]. intros a Ha. apply blit_out. lia.
Qed.

(** ** Dequeue *)

Lemma que_rep_tail s q e els :
  que_rep s q (e :: els) ->
  que_rep s (Queue (q_base q) (q_element_size q) ((q_front q + 1) mod q_capacity q) (q_rear q) (q_capacity q)) els.
Proof.
  intros [Hh Hbl Hpos Hf Hfr Hre Hl Hels Hd]. cbn [length] in *.
  split; cbn [q_base q_element_size q_front q_rear q_capacity]; try done.
  - apply Z.mod_pos_bound. lia.
  - rewrite Hre, Zplus_mod_idemp_l. f_equal. lia.
  - lia.
  - by apply Forall_cons in Hels as [_ ?].
  - intros i x Hi. specialize (Hd (S i) x Hi). unfold slot in *. cbn [q_base q_element_size q_front q_rear q_capacity].
    rewrite Zplus_mod_idemp_l. by replace (q_front q + 1 + i) with (q_front q + S i) by lia.
Qed.

Lemma umod_step s q els i : que_rep s q els -> 0 <= i < q_capacity q ->
  umod (u32 (i + 1)) (q_capacity q) = Ret ((i + 1) mod q_capacity q).
Proof.
  intros Hr Hi. pose proof (cap_small _ _ _ Hr). unfold umod. replace (q_capacity q =? 0) with false by lia.
  by rewrite wrap_small by (unfold fits; lia).
Qed.

Lemma slot_0 q : 0 <= q_front q < q_capacity q -> slot q 0%nat = q_base q + q_element_size q * q_front q.
Proof. intros Hf. unfold slot. rewrite Z.add_0_r, Z.mod_small by lia. done. Qed.

(** ** Enqueue *)

Section Enqueue.
Context `{KHeap}.

Lemma que_append s q els p e :
  que_rep s q els -> length els + 1 < q_capacity q -> arr (bytes s) p e -> Z.of_nat (length e) = q_element_size q ->
  byte_list e -> que_apart q p (q_element_size q) ->
  exists s', (_ ← memcpy (que_ele q (q_rear q)) p (q_element_size q);
      rear ← mlift (umod (u32 (q_rear q + 1)) (q_capacity q));
      mret (0, Queue (q_base q) (q_element_size q) (q_front q) rear (q_capacity q))) s
    = Ret ((0, Queue (q_base q) (q_element_size q) (q_front q) ((q_rear q + 1) mod q_capacity q) (q_capacity q)), s') /\
    que_rep s' (Queue (q_base q) (q_element_size q) (q_front q) ((q_rear q + 1) mod q_capacity q) (q_capacity q)) (els ++ [e]) /\
    blocks s' = blocks s /\
    (forall a, ~ q_base q <= a < q_base q + q_element_size q * q_capacity q -> bytes s' !! a = bytes s !! a).
Proof.
  intros Hr Hroom Ha He Hb Hap. pose proof (que_mapped _ _ _ Hr) as Hm. pose proof (rear_range _ _ _ Hr) as Hrr.
  pose proof (umod_step _ _ _ _ Hr Hrr) as Eu. rewrite (que_ele_eq _ _ _ _ Hr Hrr).
  pose proof Hr as [Hh Hbl (Hes & Hcap & Hbase) Hf Hfr Hre Hl Hels Hd].
  set (n := length els) in *. assert (Eslot : q_base q + q_element_size q * q_rear q = slot q n) by (unfold slot; by rewrite Hre).
  rewrite Eslot. pose proof (slot_bounds q n Hes ltac:(lia)) as Hsb. unfold que_apart in Hap.
  rewrite (M_bind_run _ _ _ _ _ (memcpy_run e s (slot q n) p (q_element_size q) ltac:(lia) Ha Hb
    ltac:(eapply mapped_sub; [exact Hm|lia|lia]) ltac:(unfold copy_safe; lia))).
  exists (put_bytes (blit (slot q n) e (bytes s)) s). split_and!; [by rewrite Eu| |done|].
  - split; cbn [q_base q_element_size q_front q_rear q_capacity]; try done.
    + by apply heap_ok_blit.
    + rewrite Hre, Zplus_mod_idemp_l, length_app. f_equal. cbn [length]. lia.
    + rewrite length_app. cbn [length]. lia.
    + apply Forall_app. split; [done|]. by apply Forall_singleton.
    + change (slot (Queue (q_base q) (q_element_size q) (q_front q) ((q_rear q + 1) mod q_capacity q) (q_capacity q))) with (slot q).
      intros i x Hi. cbn [bytes put_bytes]. apply lookup_app_Some in Hi as [Hi|[Hge Hi]].
      * pose proof (lookup_lt_Some _ _ _ Hi). destruct (proj1 (Forall_lookup _ _) Hels i x Hi) as [Hx _].
        pose proof (slot_disjoint q i n Hes ltac:(lia) ltac:(lia) ltac:(lia) ltac:(lia)).
        eapply arr_frame; [|by apply Hd]. intros a Hin. apply blit_out. lia.
      * destruct (i - length els)%nat as [|k] eqn:Ek; [|done]. injection Hi as <-.
        replace i with n by lia. apply arr_blit.
  - intros a Hout. cbn [bytes put_bytes]. apply blit_out. lia.
Qed.

(** Elements one after the other are one range of bytes. *)
Lemma slots_arr es b p (els : list (list Z)) :
  Forall (fun e => Z.of_nat (length e) = es /\ byte_list e) els ->
  (forall (j : nat) e, els !! j = Some e -> arr b (p + es * j) e) -> arr b p (concat els).
Proof.
  intros Hf. revert p. induction Hf as [|e els [He _] _ IH]; intros p Hd; cbn [concat]; [apply arr_length_0|].
  apply arr_app. split.
  - specialize (Hd 0%nat e eq_refl). change (Z.of_nat 0) with 0 in Hd. by rewrite Z.mul_0_r, Z.add_0_r in Hd.
  - apply IH. intros j x Hj. specialize (Hd (S j) x Hj). by replace (p + es * S j) with (p + length e + es * j) in Hd by lia.
Qed.

Lemma ring_split s q els (k : nat) :
  que_rep s q els -> (k <= length els)%nat -> q_front q + k <= q_capacity q ->
  arr (bytes s) (q_base q + q_element_size q * q_front q) (concat (take k els)).
Proof.
  intros [_ _ (? & ? & ?) _ Hfr _ _ Hels Hd] Hk Hc. apply (slots_arr (q_element_size q)); [by apply Forall_take|].
  intros j e [Hj Hlt]%lookup_take_Some. apply Hd in Hj. unfold slot in Hj. rewrite Z.mod_small in Hj by lia.
  by replace (q_base q + q_element_size q * q_front q + q_element_size q * j) with (q_base q + q_element_size q * (q_front q + j)) by lia.
Qed.

Lemma ring_wrap s q els :
  que_rep s q els -> q_capacity q - q_front q <= length els ->
  arr (bytes s) (q_base q) (concat (drop (Z.to_nat (q_capacity q - q_front q)) els)).
Proof.
  intros [_ _ (? & ? & ?) _ Hfr _ Hl Hels Hd] Hc. apply (slots_arr (q_element_size q)); [by apply Forall_drop|].
  intros j e Hj. rewrite lookup_drop in Hj. pose proof (lookup_lt_Some _ _ _ Hj). apply Hd in Hj. unfold slot in Hj.
  rewrite mod_wrap in Hj by lia.
  destruct (Z.ltb_spec (q_front q + (Z.to_nat (q_capacity q - q_front q) + j)%nat) (q_capacity q)); [lia|].
  by replace (q_front q + (Z.to_nat (q_capacity q - q_front q) + j)%nat - q_capacity q) with (Z.of_nat j) in Hj by lia.
Qed.

(** The copy of the ring to [a], in order. *)
Definition copy_ring (que : queue) (new_base : Z) : M cmem unit :=
  let es := q_element_size que in
  if q_front que <? q_rear que then
    n ← mlift (queue_size que);
    _ ← memcpy new_base (que_ele que (q_front que)) (u32 (n * es));
    mret tt
  else
    _ ← memcpy new_base (que_ele que (q_front que)) (u32 ((q_capacity que - q_front que) * es));
    _ ← memcpy (new_base + u32 ((q_capacity que - q_front que) * es)) (q_base que) (u32 (q_rear que * es));
    mret tt.

Lemma copy_ring_run s q els a :
  que_rep s q els -> els <> [] -> mapped (bytes s) a (q_element_size q * q_capacity q) ->
  que_apart q a (q_element_size q * q_capacity q) ->
  copy_ring q a s = Ret (tt, put_bytes (blit a (concat els) (bytes s)) s).
Proof.
  intros Hr Hne Hm Hap. pose proof (cap_small _ _ _ Hr) as Hcs. pose proof (queue_size_run _ _ _ Hr) as Eq.
  pose proof Hr as [Hh Hbl (Hes & Hcap & Hbase) Hf Hfr Hre Hl Hels Hd]. unfold que_apart in Hap.
  pose proof (concat_length _ _ Hels) as Hcl. pose proof (concat_bytes _ _ Hels) as Hcb.
  assert (Hpos : (0 < length els)%nat) by (destruct els; [done|cbn; lia]).
  unfold copy_ring. rewrite (que_ele_eq _ _ _ _ Hr Hfr). rewrite mod_wrap in Hre by lia.
  set (es := q_element_size q) in *. set (cap := q_capacity q) in *.
  assert (Hmul : forall k, 0 <= k <= cap -> 0 <= es * k <= es * cap /\ wrap 32 (k * es) = es * k).
  { intros k Hk. assert (0 <= es * k <= es * cap) by nia. split; [done|]. rewrite Z.mul_comm. apply wrap_small. unfold fits. lia. }
  destruct (Z.ltb_spec (q_front q + length els) cap) as [Hlin|Hwrap].
  - replace (q_front q <? q_rear q) with true by lia.
    rewrite (M_bind_run _ _ s s (Z.of_nat (length els))) by (by rewrite Eq).
    destruct (Hmul (length els) ltac:(lia)) as [Hm1 ->]. destruct (Hmul (q_front q) ltac:(lia)) as [Hm2 _].
    assert (Hm3 : es * q_front q + es * length els <= es * cap) by nia.
    pose proof (ring_split s q els (length els) Hr ltac:(lia) ltac:(fold cap; lia)) as Ha. rewrite take_ge in Ha by lia. fold es in Ha.
    rewrite (M_bind_run _ _ _ _ _ (memcpy_run (concat els) s a (q_base q + es * q_front q) (es * length els) ltac:(lia) Ha Hcb
      ltac:(eapply mapped_sub; [exact Hm|lia|lia]) ltac:(unfold copy_safe; lia))). done.
  - replace (q_front q <? q_rear q) with false by lia. set (k := Z.to_nat (cap - q_front q)).
    destruct (Hmul (cap - q_front q) ltac:(lia)) as [Hm1 ->]. destruct (Hmul (q_rear q) ltac:(lia)) as [Hm2 ->].
    pose proof (ring_split s q els k Hr ltac:(lia) ltac:(fold cap; lia)) as Ha1. fold es in Ha1.
    pose proof (ring_wrap s q els Hr ltac:(fold cap; lia)) as Ha2. fold cap in Ha2. fold k in Ha2.
    pose proof (concat_length es (take k els) ltac:(by apply Forall_take)) as Hl1. rewrite length_take in Hl1.
    pose proof (concat_length es (drop k els) ltac:(by apply Forall_drop)) as Hl2. rewrite length_drop in Hl2.
    pose proof (concat_bytes es (take k els) ltac:(by apply Forall_take)) as Hb1.
    pose proof (concat_bytes es (drop k els) ltac:(by apply Forall_drop)) as Hb2.
    replace (Z.of_nat (k `min` length els)) with (cap - q_front q) in Hl1 by lia.
    replace (Z.of_nat (length els - k)) with (q_rear q) in Hl2 by lia.
    assert (Hm4 : es * (cap - q_front q) + es * q_rear q <= es * cap) by nia.
    assert (Hm5 : es * q_front q + es * (cap - q_front q) = es * cap) by lia.
    assert (Hm6 : 0 <= es * q_front q) by nia.
    rewrite (M_bind_run _ _ _ _ _ (memcpy_run (concat (take k els)) s a (q_base q + es * q_front q) (es * (cap - q_front q)) ltac:(lia) Ha1 Hb1
      ltac:(eapply mapped_sub; [exact Hm|lia|lia]) ltac:(unfold copy_safe; lia))).
    rewrite (M_bind_run _ _ _ _ _ (memcpy_run (concat (drop k els)) (put_bytes (blit a (concat (take k els)) (bytes s)) s)
      (a + es * (cap - q_front q)) (q_base q) (es * q_rear q) ltac:(lia)
      ltac:(eapply arr_frame; [|exact Ha2]; intros x Hin; apply blit_out; lia) Hb2
      ltac:(apply mapped_blit; eapply mapped_sub; [exact Hm|lia|lia]) ltac:(unfold copy_safe; lia))).
    unfold mret, M_ret, put_bytes. cbn [bytes blocks]. do 3 f_equal.
    rewrite <- (take_drop k els) at 3. rewrite concat_app, blit_app, Hl1. apply blit_comm. lia.
Qed.

(** Moving a full ring to a block of twice the size. *)
Lemma que_grow s q els p n :
  que_rep s q els -> length els + 1 = q_capacity q -> q_element_size q * q_capacity q * 2 < 2 ^ 30 ->
  0 < n -> mapped (bytes s) p n ->
  queue_expand q s = Ret ((- ENOMEM, q), s) \/
  exists q' s', queue_expand q s = Ret ((0, q'), s') /\ que_rep s' q' els /\ q_base q' <> q_base q /\
    q_element_size q' = q_element_size q /\ q_capacity q' = 2 * q_capacity q /\ que_apart q' p n /\
    blocks s' !! q_base q = blocks s !! q_base q /\
    (forall a x, bytes s !! a = Some x ->
       bytes s' !! a = Some x /\ ~ q_base q' <= a < q_base q' + q_element_size q' * q_capacity q').
Proof.
  intros Hr Hfull Hfit2 Hn Hpm. pose proof (cap_small _ _ _ Hr) as Hcs. pose proof (queue_size_run _ _ _ Hr) as Eq.
  pose proof Hr as [Hh Hbl (Hes & Hcap & Hbase) Hf Hfr Hre Hl Hels Hd].
  pose proof (concat_length _ _ Hels) as Hcl.
  set (es := q_element_size q) in *. set (cap := q_capacity q) in *.
  unfold queue_expand. fold es cap. rewrite (wrap_small 32 (es * cap)) by (unfold fits; nia).
  rewrite (wrap_small 32 (es * cap * 2)) by (unfold fits; nia).
  destruct (kmalloc_run s (es * cap * 2) ltac:(nia) Hh) as [[_ E]|(a & s1 & E & Ha0 & Hh1 & Hna & Hb1 & Hm1 & Hnew & Hout & Hkeep)];
    rewrite (M_bind_run _ _ _ _ _ E); [by left|]. right. replace (a =? 0) with false by lia.
  assert (Hba : blocks s1 !! q_base q = blocks s !! q_base q) by (rewrite Hb1; apply lookup_insert_ne; congruence).
  assert (Hsep : a + es * cap * 2 <= q_base q \/ q_base q + es * cap <= a).
  { apply (ho_disjoint _ Hh1 a (es * cap * 2) (q_base q) (es * cap)); [|by rewrite Hba|congruence].
    rewrite Hb1. apply lookup_insert_eq. }
  assert (Hr1 : que_rep s1 q els).
  { split; try done; [by rewrite Hba|]. intros i e Hi j x Hj. apply Hkeep. by eapply Hd. }
  fold (copy_ring q a).
  rewrite (M_bind_run _ _ _ _ _ (copy_ring_run s1 q els a Hr1 ltac:(by intros ->; cbn in *; lia)
    ltac:(eapply mapped_sub; [exact Hm1|lia|fold es cap; nia]) ltac:(unfold que_apart; fold es cap; nia))).
  set (s2 := put_bytes (blit a (concat els) (bytes s1)) s1).
  rewrite (M_bind_run _ _ s2 s2 (Z.of_nat (length els))) by (by rewrite Eq).
  exists (Queue a es 0 (length els) (2 * cap)), s2. cbn [q_base q_element_size q_front q_rear q_capacity].
  split_and!; try done.
  - unfold mret, M_ret. do 4 f_equal. rewrite Z.shiftl_mul_pow2 by lia. rewrite wrap_small; [lia|]. unfold fits. lia.
  - split; cbn [q_base q_element_size q_front q_rear q_capacity]; try done; try lia.
    + by apply heap_ok_blit.
    + cbn [s2 put_bytes blocks]. rewrite Hb1, lookup_insert_eq. f_equal. lia.
    + rewrite Z.mod_small; lia.
    + intros i e Hi. pose proof (lookup_lt_Some _ _ _ Hi). unfold slot. cbn [q_base q_element_size q_front q_capacity].
      rewrite Z.mod_small by lia. apply (concat_lookup es els); [done|done|]. apply arr_blit.
  - intros Hc. rewrite <- Hc in Hbl. congruence.
  - unfold que_apart. cbn [q_base q_element_size q_capacity].
    destruct (decide (p + n <= a \/ a + es * (2 * cap) <= p)) as [?|Hov]; [done|]. exfalso.
    destruct (Hpm (Z.max p a - p) ltac:(lia)) as [x Hx]. rewrite Hnew in Hx; [done|lia].
  - intros x v Hx. assert (Hq : ~ a <= x < a + es * cap * 2) by (intros Hc; by rewrite Hnew in Hx).
    split; [|lia]. cbn [s2 bytes put_bytes]. rewrite blit_out by nia. by apply Hkeep.
Qed.

Lemma enqueue_run s q els p e :
  que_rep s q els -> q_element_size q * q_capacity q * 2 < 2 ^ 30 ->
  arr (bytes s) p e -> Z.of_nat (length e) = q_element_size q -> byte_list e -> que_apart q p (q_element_size q) ->
  (length els + 1 = q_capacity q /\ enqueue q p s = Ret ((- ENOMEM, q), s)) \/
  exists q' s', enqueue q p s = Ret ((0, q'), s') /\ que_rep s' q' (els ++ [e]) /\
    blocks s' !! q_base q = blocks s !! q_base q /\
    (length els + 1 = q_capacity q -> q_base q' <> q_base q) /\
    (forall a x, bytes s !! a = Some x -> ~ q_base q <= a < q_base q + q_element_size q * q_capacity q ->
       bytes s' !! a = Some x) /\
    q_element_size q' = q_element_size q /\ q_capacity q' <= Z.max (q_capacity q) (2 * (length els + 1)) /\
    que_apart q' p (q_element_size q) /\ (length els + 1 < q_capacity q -> q_capacity q' = q_capacity q).
Proof.
  intros Hr Hfit2 Ha He Hb Hap. pose proof (qr_pos _ _ _ Hr) as (Hes & Hcap & Hbase). pose proof (qr_len _ _ _ Hr) as Hl.
  unfold enqueue. rewrite (M_bind_run _ _ s s (length els + 1 =? q_capacity q)) by (by rewrite (queue_full_run _ _ _ Hr)).
  destruct (Z.eqb_spec (length els + 1) (q_capacity q)) as [Hfull|Hroom].
  - pose proof (arr_mapped _ _ _ Ha) as Hpm. rewrite He in Hpm.
    destruct (que_grow s q els p (q_element_size q) Hr Hfull Hfit2 Hes Hpm)
      as [E|(q1 & s1 & E & Hr1 & Hne & He1 & Hc1 & Hap1 & Hbk & Hk1)]; rewrite (M_bind_run _ _ _ _ _ E); [by left|right].
    assert (Ha1 : arr (bytes s1) p e) by (intros i x Hi; by apply Hk1, Ha).
    destruct (que_append s1 q1 els p e Hr1 ltac:(lia) Ha1 ltac:(lia) Hb ltac:(by rewrite He1)) as (s2 & E2 & Hr2 & Hb2 & Hout).
    cbv beta iota. change (negb (0 =? 0)) with false. cbv iota.
    eexists _, s2. split; [exact E2|]. cbn [q_base q_element_size q_capacity].
    split_and!; [done|by rewrite Hb2|by intros _| |done|lia|done|lia].
    intros a x Hx _. destruct (Hk1 a x Hx) as [Hx1 Hq1]. by rewrite Hout.
  - right. rewrite (M_bind_run _ _ s s (0, q)) by done. cbv beta iota. change (negb (0 =? 0)) with false. cbv iota.
    destruct (que_append s q els p e Hr ltac:(lia) Ha He Hb Hap) as (s2 & E2 & Hr2 & Hb2 & Hout).
    eexists _, s2. split; [exact E2|]. cbn [q_base q_element_size q_capacity].
    split_and!; [done|by rewrite Hb2|done| |done|lia|done|done]. intros a x Hx Hq. by rewrite Hout.
Qed.
End Enqueue.

(** ** The contract *)

(** C38. A queue is a list: [__enqueue] answers 0 and appends the element,
    moving the ring in order to a block twice as large when it is full, and
    keeps every byte outside the ring; or, only when the ring is full and
    memory is exhausted, it answers [-ENOMEM] and nothing changes.  The
    block that was outgrown stays allocated although the queue no longer
    points to it: [__queue_expand] does not free it. *)
Theorem enqueue_ok `{KHeap} (s : cmem) (q : queue) (els : list (list Z)) (p : Z) (e : list Z) :
  que_rep s q els -> q_element_size q * q_capacity q * 2 < 2 ^ 30 ->
  arr (bytes s) p e -> Z.of_nat (length e) = q_element_size q -> byte_list e -> que_apart q p (q_element_size q) ->
  (length els + 1 = q_capacity q /\ enqueue q p s = Ret ((- ENOMEM, q), s)) \/
  exists q' s', enqueue q p s = Ret ((0, q'), s') /\ que_rep s' q' (els ++ [e]) /\
    blocks s' !! q_base q = blocks s !! q_base q /\
    (length els + 1 = q_capacity q -> q_base q' <> q_base q) /\
    (forall a x, bytes s !! a = Some x -> ~ q_base q <= a < q_base q + q_element_size q * q_capacity q ->
       bytes s' !! a = Some x).
Proof.
  intros Hr Hf Ha Hl Hb Hap. destruct (enqueue_run s q els p e Hr Hf Ha Hl Hb Hap)
    as [?|(q' & s' & E & Hr' & Hk & Hn & Hfr & _)]; [by left|right]. by exists q', s'.
Qed.

Lemma dequeue_tail (s : cmem) (q : queue) (e : list Z) (els : list (list Z)) (dst : Z) :
  que_rep s q (e :: els) -> mapped (bytes s) dst (q_element_size q) -> que_apart q dst (q_element_size q) ->
  exists q', dequeue q dst s = Ret ((0, q'), put_bytes (blit dst e (bytes s)) s) /\
    que_rep (put_bytes (blit dst e (bytes s)) s) q' els /\
    (q_base q' = q_base q /\ q_element_size q' = q_element_size q /\ q_capacity q' = q_capacity q).
Proof.
  intros Hr Hm Hap. unfold dequeue. rewrite (queue_empty_run _ _ _ Hr).
  rewrite bool_decide_false by done. pose proof (qr_front _ _ _ Hr) as Hf.
  rewrite (que_ele_eq _ _ _ _ Hr Hf), <- slot_0 by done.
  destruct (proj1 (Forall_lookup _ _) (qr_els _ _ _ Hr) 0%nat e eq_refl) as [He _].
  rewrite (M_bind_run _ _ _ _ _ (que_read s q (e :: els) 0 e dst Hr eq_refl Hm Hap)).
  rewrite (umod_step _ _ _ _ Hr Hf). eexists. split; [reflexivity|]. split; [|done].
  apply (que_rep_tail _ _ e). apply que_rep_write; [done|]. by rewrite He.
Qed.

(** [__dequeue] hands out the oldest element and removes it, and
    answers [-ENOENT] exactly when the queue is empty. *)
Theorem dequeue_ok (s : cmem) (q : queue) (els : list (list Z)) (dst : Z) :
  que_rep s q els -> mapped (bytes s) dst (q_element_size q) -> que_apart q dst (q_element_size q) ->
  match els with
  | [] => dequeue q dst s = Ret ((- ENOENT, q), s)
  | e :: els' => exists q' s', dequeue q dst s = Ret ((0, q'), s') /\ que_rep s' q' els' /\ arr (bytes s') dst e
  end.
Proof.
  intros Hr Hm Hap. destruct els as [|e els].
  - unfold dequeue. by rewrite (queue_empty_run _ _ _ Hr).
  - destruct (dequeue_tail s q e els dst Hr Hm Hap) as (q' & E & Hr' & _). eexists q', _. split; [exact E|].
    split; [exact Hr'|apply arr_blit].
Qed.

(** *** A full ring of one-byte elements that wraps *)

Definition que3 : queue := Queue 100 1 2 1 3.
Definition mem_que : cmem := CMem (blit 100 [8; 0; 7] (blit 200 [9] ∅)) (<[100 := 3]> ∅).

Lemma que3_rep : que_rep mem_que que3 [[7]; [8]].
Proof.
  split; cbn [que3 q_base q_element_size q_front q_rear q_capacity]; try done; try lia.
  - split; cbn [mem_que bytes blocks].
    + intros a n [[<- <-]|[_ E]]%lookup_insert_Some; [|by rewrite lookup_empty in E]. split; [lia|].
      apply (arr_mapped _ 100 [8; 0; 7]), arr_blit.
    + intros a n b m [[<- <-]|[_ E]]%lookup_insert_Some; [|by rewrite lookup_empty in E].
      intros [[<- <-]|[_ E]]%lookup_insert_Some; [done|by rewrite lookup_empty in E].
  - repeat (apply Forall_cons; split; [split; [done|byte_list_tac]|]). by apply Forall_nil.
  - intros [|[|i]] e E; [injection E as <-|injection E as <-|done]; apply arr_cons; (split; [done|apply arr_length_0]).
Qed.

Lemma mem_que_200 : arr (bytes mem_que) 200 [9].
Proof. apply arr_cons. split; [done|apply arr_length_0]. Qed.

Lemma enqueue_ok_witness :
  (2 + 1 = 3 /\ @enqueue bump_heap que3 200 mem_que = Ret ((- ENOMEM, que3), mem_que)) \/
  exists q' s', @enqueue bump_heap que3 200 mem_que = Ret ((0, q'), s') /\ que_rep s' q' [[7]; [8]; [9]] /\
    blocks s' !! 100 = blocks mem_que !! 100 /\ (2 + 1 = 3 -> q_base q' <> 100) /\
    (forall a x, bytes mem_que !! a = Some x -> ~ 100 <= a < 100 + 1 * 3 -> bytes s' !! a = Some x).
Proof.
  apply (@enqueue_ok bump_heap mem_que que3 [[7]; [8]] 200 [9] que3_rep); [done|apply mem_que_200|done|byte_list_tac|].
  right. cbn. lia.
Defined.

Lemma dequeue_ok_witness :
  exists q' s', dequeue que3 200 mem_que = Ret ((0, q'), s') /\ que_rep s' q' [[8]] /\ arr (bytes s') 200 [7].
Proof.
  apply (dequeue_ok mem_que que3 [[7]; [8]] 200 que3_rep); [|right; cbn; lia].
  apply (arr_mapped _ 200 [9]), mem_que_200.
Defined.
