(* ===== verification/KString.v ===== *)
(** * Growing strings (second half of libs/string.c)

    A [string] is a heap buffer with a length and a capacity, kept
    NUL-terminated by every operation.  [ks_rep] relates it to its text.
    [string_try_expand] leaves room for the terminator only when it
    reallocates: an operation that fills the buffer exactly writes the
    terminator one byte past its end ([ksappend_char_overflow]); away from
    that boundary appending is correct ([ksappend_strn_ok]). *)

From stdpp Require Import base numbers list gmap.
From Stdlib Require Import ZArith Lia ZifyBool ZifyNat.
From S2P Require Import Prelude Bitops CMem CString Vector.

Open Scope Z_scope.

#[local] Coercion Z.of_nat : nat >-> Z.

Definition STRING_MIN_SIZE : Z := 32.
(** [sizeof(string)] *)
Definition STRING_SIZE : Z := 12.

Record string := Str { str : Z; str_length : Z; str_capacity : Z }.

Definition string_empty (s : string) : bool := str_length s =? 0.

Definition ksinit (buf size : Z) : string := Str buf 0 size.

Section Code.
Context `{KHeap}.

(** The address of the structure and its fields, or NULL. *)
Definition ksalloc : M cmem (option (Z * string)) :=
  s ← kmalloc_bytes STRING_SIZE;
  if s =? 0 then mret None
  else
    buf ← kmalloc_bytes STRING_MIN_SIZE;
    if buf =? 0 then _ ← kfree_bytes s; mret None
    else
      _ ← wrb buf 0;
      mret (Some (s, Str buf 0 STRING_MIN_SIZE)).

Definition ksfree (s : option (Z * string)) : M cmem unit :=
  match s with
  | None => mret tt
  | Some (a, s) =>
      _ ← (if str s =? 0 then mret tt else kfree_bytes (str s));
      kfree_bytes a
  end.

Definition string_try_expand (s : string) (size : Z) : M cmem (Z * string) :=
  if size <=? str_capacity s then mret (0, s)
  else
    let size := roundup_pow_of_two (u32 (size + 1)) in
    _ ← mlift (assert (str_capacity s <? size));
    buf ← kmalloc_bytes size;
    if buf =? 0 then mret (- ENOMEM, s)
    else
      _ ← (if str s =? 0 then mret tt
           else
             _ ← strncpy buf (str s) (str_length s);
             _ ← wrb (str s + str_length s) 0;
             kfree_bytes (str s));
      mret (0, Str buf (str_length s) size).

Definition ksappend_char (s : string) (c : Z) : M cmem (Z * string) :=
  '(ret, s) ← string_try_expand s (u32 (str_length s + 1));
  if negb (ret =? 0) then mret (ret, s)
  else
    _ ← wrb (str s + str_length s) c;
    let s := Str (str s) (u32 (str_length s + 1)) (str_capacity s) in
    _ ← wrb (str s + str_length s) 0;
    mret (0, s).

Definition kspop_char (s : string) : M cmem (Z * string) :=
  if str_length s =? 0 then mret (0, s)
  else
    c ← rdb (str s + (str_length s - 1));
    let s := Str (str s) (str_length s - 1) (str_capacity s) in
    _ ← wrb (str s + str_length s) 0;
    mret (c, s).

Definition ksappend_strn (s : string) (p length : Z) : M cmem (Z * string) :=
  if p =? 0 then mret (0, s)
  else
    n ← strlen p;
    length ← (if n <? length then strlen p else mret length);
    '(ret, s) ← string_try_expand s (u32 (str_length s + length));
    if negb (ret =? 0) then mret (ret, s)
    else
      _ ← strncpy (str s + str_length s) p length;
      let s := Str (str s) (u32 (str_length s + length)) (str_capacity s) in
      _ ← wrb (str s + str_length s) 0;
      mret (0, s).

Definition ksappend_str (s : string) (p : Z) : M cmem (Z * string) :=
  n ← strlen p; ksappend_strn s p n.

(** The arguments up to the end marker, in order; what [ksappend_str]
    answers is ignored. *)
Fixpoint ksappend_args (s : string) (args : list Z) : M cmem (Z * string) :=
  match args with
  | [] => mret (0, s)
  | p :: args => '(_, s) ← ksappend_str s p; ksappend_args s args
  end.

(** [buf] is the local array of 32 characters. *)
Definition ksappend_int (s : string) (val buf : Z) : M cmem (Z * string) :=
  n ← to_str val buf 32; ksappend_strn s buf n.
Definition ksappend_hex (s : string) (val buf : Z) : M cmem (Z * string) :=
  n ← to_hex (u32 val) buf 32; ksappend_strn s buf n.

(** A new string with the digits of a number: how [create_thread_procfs] of
    schedule/schedule.c makes the name of a thread's directory. *)
Definition int_string (val buf : Z) : M cmem (option (Z * string)) :=
  s ← ksalloc;
  match s with
  | None => mret None
  | Some (a, s) => '(_, s) ← ksappend_int s (s32 val) buf; mret (Some (a, s))
  end.

Definition ksappend_kv (s : string) (key val buf : Z) : M cmem (Z * string) :=
  '(_, s) ← ksappend_str s key; '(_, s) ← ksappend_int s val buf; mret (0, s).
Definition ksappend_kvx (s : string) (key val buf : Z) : M cmem (Z * string) :=
  '(_, s) ← ksappend_str s key; '(_, s) ← ksappend_hex s val buf; mret (0, s).

(** [while (s->length < n)]: unsigned comparison. *)
Fixpoint ksfit_loop (k : nat) (p c : Z) : M cmem unit :=
  match k with O => mret tt | S k => _ ← wrb p c; ksfit_loop k (p + 1) c end.

Definition ksfit (s : string) (c n : Z) : M cmem (Z * string) :=
  let n := u32 n in
  '(ret, s) ← string_try_expand s n;
  if negb (ret =? 0) then mret (ret, s)
  else
    _ ← ksfit_loop (Z.to_nat (n - str_length s)) (str s + str_length s) c;
    _ ← wrb (str s + s32 n) 0;
    mret (0, Str (str s) n (str_capacity s)).
End Code.

Fixpoint hex_loop (n : nat) (p v : Z) : M cmem (option Z) :=
  match n with
  | O => mret (Some v)
  | S n =>
      c ← rdb p;
      if negb (is_digit c) then mret None
      else hex_loop n (p + 1) (s32 (s32 (v * 16) + (if is_num c then s8 c - ch_0 else 10 + s8 c - ch_a)))
  end.

(** The answer, and the value if it is 0. *)
Definition hex_to_value (s : string) : M cmem (Z * Z) :=
  b0 ← rdb (str s);
  if negb (b0 =? ch_0) then mret (-1, 0)
  else
    b1 ← rdb (str s + 1);
    if negb (b1 =? ch_x) then mret (-1, 0)
    else
      r ← hex_loop (Z.to_nat (Z.min 10 (str_length s) - 2)) (str s + 2) 0;
      mret (match r with None => (-1, 0) | Some v => (0, v) end).

(** ** Representation *)

Record ks_rep (m : cmem) (s : string) (l : list Z) : Prop := KsRep {
  kr_heap : heap_ok m;
  kr_block : blocks m !! str s = Some (str_capacity s);
  kr_pos : 0 < str s /\ str_capacity s < 2 ^ 30;
  kr_len : str_length s = length l /\ length l < str_capacity s;
  kr_text : cstr (bytes m) (str s) l
}.

Definition str_apart (s : string) (p n : Z) : Prop := p + n <= str s \/ str s + str_capacity s <= p.

Lemma ks_mapped m s l : ks_rep m s l -> mapped (bytes m) (str s) (str_capacity s).
Proof. intros Hr. by apply (ho_mapped _ (kr_heap _ _ _ Hr) _ _ (kr_block _ _ _ Hr)). Qed.

Lemma padded_take n l : (n <= length l)%nat -> padded n l = take n l.
Proof. intros Hn. unfold padded. by rewrite take_app_le. Qed.

Lemma strncpy_run l m dst src (n : nat) :
  cstr (bytes m) src l -> mapped (bytes m) dst n -> src + length l + 1 <= dst \/ dst + n <= src ->
  strncpy dst src n m = Ret (dst, put_bytes (blit dst (padded n l) (bytes m)) m).
Proof.
  intros Hc Hm Hd. unfold strncpy. rewrite Nat2Z.id.
  by rewrite (M_bind_run _ _ _ _ _ (strncpy_loop_run n l m dst src Hc Hm Hd)).
Qed.

Lemma cstr_frame b b' p l :
  (forall a, p <= a <= p + length l -> b' !! a = b !! a) -> cstr b p l -> cstr b' p l.
Proof.
  intros Hf [Ha Hc]. split; [|done]. eapply arr_frame; [|exact Ha]. intros a Hin. apply Hf.
  rewrite length_app in Hin. cbn [length] in Hin. lia.
Qed.

(** Writing [t] and a terminator behind the text [l] at [q]. *)
Lemma cstr_extend b q l t :
  arr b q l -> char_list l -> char_list t ->
  cstr (<[q + length (l ++ t) := 0]> (blit (q + length l) t b)) q (l ++ t).
Proof.
  intros Ha Hl Ht. split; [|by apply Forall_app]. apply arr_app. split.
  - eapply arr_frame; [intros a Hin; rewrite lookup_insert_ne by lia; reflexivity|]. apply arr_app. split.
    + eapply arr_frame; [|exact Ha]. intros a Hin. apply blit_out. lia.
    + apply arr_blit.
  - apply arr_cons. split; [apply lookup_insert_eq|apply arr_length_0].
Qed.

(** The last steps of [ksappend_strn], when there is room. *)
Lemma append_in_place m s l p t (k : nat) :
  heap_ok m -> blocks m !! str s = Some (str_capacity s) -> 0 < str s /\ str_capacity s < 2 ^ 30 ->
  arr (bytes m) (str s) l -> char_list l -> str_length s = length l ->
  cstr (bytes m) p t -> (k <= length t)%nat -> str_apart s p (length t + 1) ->
  length l + k < str_capacity s ->
  let s' := Str (str s) (u32 (str_length s + k)) (str_capacity s) in
  exists m', (_ ← strncpy (str s + str_length s) p k;
      _ ← wrb (str s' + str_length s') 0; mret (0, s')) m = Ret ((0, s'), m') /\
    ks_rep m' s' (l ++ take k t) /\ blocks m' = blocks m /\
    (forall a, ~ str s <= a < str s + str_capacity s -> bytes m' !! a = bytes m !! a).
Proof.
  intros Hh Hbl [Hpos Hcap] Ha Hl Hlen Hp Hk Hap Hroom s'. unfold str_apart in Hap.
  assert (Hmap : mapped (bytes m) (str s) (str_capacity s)) by (by apply (ho_mapped _ Hh _ _ Hbl)).
  assert (Els : str_length s' = length (l ++ take k t)).
  { cbn [s' str_length]. rewrite wrap_small by (unfold fits; lia). rewrite length_app, length_take. lia. }
  assert (Htk : length (take k t) = k) by (rewrite length_take; lia).
  rewrite (M_bind_run _ _ _ _ _ (strncpy_run t m (str s + str_length s) p k Hp
    ltac:(eapply mapped_sub; [exact Hmap|lia|lia]) ltac:(lia))).
  rewrite padded_take by done. set (m1 := put_bytes (blit (str s + str_length s) (take k t) (bytes m)) m).
  rewrite length_app in Els.
  assert (Hw : is_Some (bytes m1 !! (str s' + str_length s'))).
  { cbn [m1 bytes put_bytes s' str]. apply (mapped_blit _ _ _ _ (str_capacity s) Hmap). lia. }
  rewrite (M_bind_run _ _ _ _ _ (wrb_run m1 _ 0 Hw ltac:(lia))).
  eexists. split; [reflexivity|]. split_and!; [|done|].
  - split; cbn [put_bytes bytes blocks m1].
    + apply (heap_ok_blit m1 _ [0]). by apply heap_ok_blit.
    + done.
    + done.
    + rewrite length_app. split; [done|]. cbn [s' str_capacity]. lia.
    + rewrite Els. cbn [s' str]. rewrite Hlen. rewrite <- length_app. apply cstr_extend; [done|done|].
      apply Forall_take, Hp.
  - intros a Hout. cbn [put_bytes bytes m1]. rewrite lookup_insert_ne by (cbn [s' str]; lia). apply blit_out. lia.
Qed.

Lemma s32_signed v : - 2 ^ 31 <= v < 2 ^ 31 -> s32 v = v.
Proof.
  intros Hv. unfold sext. destruct (Z.ltb_spec v 0).
  - assert (wrap 32 v = v + 2 ^ 32) as ->.
    { unfold wrap. symmetry. apply (Z.mod_unique_pos _ _ (-1)); lia. }
    replace (v + 2 ^ 32 <? 2 ^ (32 - 1)) with false by lia. lia.
  - rewrite wrap_small by (unfold fits; lia). by replace (v <? 2 ^ (32 - 1)) with true by lia.
Qed.

(** The first terminator in an array that ends with one. *)
Lemma first_nul b g : forall p, arr b p (g ++ [0]) -> byte_list g -> exists t, cstr b p t /\ (length t <= length g)%nat.
Proof.
  induction g as [|x g IH]; intros p Ha Hb.
  - exists []. split; [by split; [|apply Forall_nil]|done].
  - apply Forall_cons in Hb as [Hx Hb]. apply arr_cons in Ha as [E Ha]. destruct (decide (x = 0)) as [->|Hne].
    + exists []. split; [|cbn; lia]. split; [|by apply Forall_nil]. apply arr_cons. split; [done|apply arr_length_0].
    + destruct (IH (p + 1) Ha Hb) as (t & [Ht Hc] & Hl). exists (x :: t). split; [|cbn; lia].
      split; [by apply arr_cons|]. apply Forall_cons. split; [lia|done].
Qed.

Lemma decimal_chars v : - 2 ^ 31 < v < 2 ^ 31 -> char_list (decimal v) /\ (length (decimal v) <= 11)%nat.
Proof.
  intros Hv. assert (Hd : forall w, char_list (dec_text w)).
  { intros w. apply Forall_fmap, Forall_rev. eapply Forall_impl; [apply (le_digits_bound _ 10); lia|].
    unfold compose, ch_0. intros d Hd. cbn in Hd |- *. lia. }
  unfold decimal. destruct (Z.eqb_spec v 0); [split; [by repeat constructor|cbn; lia]|].
  pose proof (dec_text_length (- v) ltac:(lia)). pose proof (dec_text_length v ltac:(lia)). destruct (Z.ltb_spec v 0).
  - split; [apply Forall_cons; split; [done|apply Hd]|cbn [length]; lia].
  - split; [apply Hd|lia].
Qed.

Section Append.
Context `{KHeap}.

(** A reallocation moves the text and frees the old buffer. *)
Lemma expand_run m s l size p n :
  ks_rep m s l -> str_capacity s < size -> size < 2 ^ 29 -> 0 < n -> mapped (bytes m) p n -> str_apart s p n ->
  (string_try_expand s size m = Ret ((- ENOMEM, s), m)) \/
  exists s' m', string_try_expand s size m = Ret ((0, s'), m') /\
    heap_ok m' /\ blocks m' !! str s' = Some (str_capacity s') /\ (0 < str s' /\ str_capacity s' < 2 ^ 30) /\
    arr (bytes m') (str s') l /\ str_length s' = length l /\ size < str_capacity s' /\ str_apart s' p n /\
    (forall a x, bytes m !! a = Some x -> ~ str s <= a < str s + str_capacity s ->
       bytes m' !! a = Some x /\ ~ str s' <= a < str s' + str_capacity s').
Proof.
  intros Hr Hsz Hlim Hn Hpm Hap. pose proof (ks_mapped _ _ _ Hr) as Hmap.
  destruct Hr as [Hh Hbl [Hpos Hcap] [Hlen Hlt] Ht]. unfold str_apart in Hap.
  unfold string_try_expand. replace (size <=? str_capacity s) with false by lia.
  rewrite (wrap_small 32 (size + 1)) by (unfold fits; lia).
  destruct (roundup_pow_of_two_spec (size + 1) ltac:(lia)) as [Hru _]. set (new := roundup_pow_of_two (size + 1)) in *.
  replace (str_capacity s <? new) with true by lia. rewrite (M_bind_run _ _ m m tt) by done.
  destruct (kmalloc_run m new ltac:(lia) Hh) as [[_ E]|(a & m1 & E & Ha0 & Hh1 & Hna & Hb1 & Hm1 & Hnew & Hout & Hkeep)];
    rewrite (M_bind_run _ _ _ _ _ E); [by left|]. right. replace (a =? 0) with false by lia.
  replace (str s =? 0) with false by lia.
  assert (Hba : blocks m1 !! str s = Some (str_capacity s)) by (rewrite Hb1, lookup_insert_ne; [done|congruence]).
  assert (Hsep : a + new <= str s \/ str s + str_capacity s <= a).
  { apply (ho_disjoint _ Hh1 a new (str s) (str_capacity s)); [|done|congruence]. rewrite Hb1. apply lookup_insert_eq. }
  assert (Ht1 : cstr (bytes m1) (str s) l).
  { destruct Ht as [Ht Hc]. split; [|done]. intros i x Hi. by apply Hkeep, Ht. }
  rewrite Hlen. set (m2 := put_bytes (blit a l (bytes m1)) m1).
  assert (E2 : strncpy a (str s) (length l) m1 = Ret (a, m2)).
  { rewrite (strncpy_run l m1 a (str s) (length l) Ht1); [|eapply mapped_sub; [exact Hm1|lia|lia]|lia].
    by rewrite padded_take, take_ge by lia. }
  assert (Hh2 : heap_ok m2) by by apply heap_ok_blit.
  assert (Hw : is_Some (bytes m2 !! (str s + length l))).
  { apply (ho_mapped _ Hh2 (str s) (str_capacity s)); [done|lia]. }
  set (m3 := put_bytes (<[str s + length l := 0]> (bytes m2)) m2).
  assert (Hh3 : heap_ok m3) by (apply (heap_ok_blit m2 _ [0]); done).
  destruct (kfree_run m3 (str s) (str_capacity s) Hh3 ltac:(done)) as (m4 & E4 & Hh4 & Hb4 & Hout4).
  assert (Efree : (_ ← strncpy a (str s) (length l); _ ← wrb (str s + length l) 0; kfree_bytes (str s)) m1 = Ret (tt, m4)).
  { rewrite (M_bind_run _ _ _ _ _ E2), (M_bind_run _ _ _ _ _ (wrb_run m2 _ 0 Hw ltac:(lia))). exact E4. }
  rewrite (M_bind_run _ _ _ _ _ Efree).
  assert (Hout3 : forall q, q <> str s + length l -> ~ a <= q < a + length l -> bytes m3 !! q = bytes m1 !! q).
  { intros q Hq1 Hq2. cbn [m3 m2 bytes put_bytes]. rewrite lookup_insert_ne by congruence. apply blit_out. lia. }
  exists (Str a (length l) new), m4. cbn [str str_length str_capacity]. split_and!; try done; try lia.
  - rewrite Hb4. cbn [m3 m2 put_bytes blocks]. rewrite lookup_delete_ne by congruence. rewrite Hb1. apply lookup_insert_eq.
  - intros i x Hi. pose proof (lookup_lt_Some _ _ _ Hi). rewrite Hout4 by lia. cbn [m3 m2 bytes put_bytes].
    rewrite lookup_insert_ne by lia. by apply blit_in.
  - unfold str_apart. cbn [str str_capacity]. destruct (decide (p + n <= a \/ a + new <= p)) as [?|Hov]; [done|]. exfalso.
    destruct (Hpm (Z.max p a - p) ltac:(lia)) as [x Hx]. rewrite Hnew in Hx; [done|lia].
  - intros q x Hx Hq. assert (Hqa : ~ a <= q < a + new) by (intros Hc; by rewrite Hnew in Hx).
    split; [|done]. rewrite Hout4, Hout3 by lia. by apply Hkeep.
Qed.

Lemma ksappend_strn_run m s l p t n :
  ks_rep m s l -> cstr (bytes m) p t -> 0 < p -> 0 <= n -> length t < 2 ^ 28 -> length l < 2 ^ 28 ->
  str_apart s p (length t + 1) ->
  let k := Z.to_nat (Z.min n (length t)) in
  length l + k <> str_capacity s ->
  (ksappend_strn s p n m = Ret ((- ENOMEM, s), m) /\ str_capacity s < length l + k) \/
  exists s' m', ksappend_strn s p n m = Ret ((0, s'), m') /\ ks_rep m' s' (l ++ take k t) /\
    (forall a x, bytes m !! a = Some x -> ~ str s <= a < str s + str_capacity s -> bytes m' !! a = Some x).
Proof.
  intros Hr Hp Hp0 Hn Htl Hll Hap k Hne. pose proof Hr as [Hh Hbl [Hpos Hcap] [Hlen Hlt] Ht].
  pose proof (strlen_run t m p Hp ltac:(lia)) as Es. unfold ksappend_strn. replace (p =? 0) with false by lia.
  rewrite (M_bind_run _ _ _ _ _ Es).
  assert (Ek : (if length t <? n then strlen p else mret n) m = Ret (Z.of_nat k, m)).
  { destruct (Z.ltb_spec (length t) n); [rewrite Es|unfold mret, M_ret]; do 2 f_equal; lia. }
  rewrite (M_bind_run _ _ _ _ _ Ek), (wrap_small 32 (str_length s + k)) by (unfold fits; lia).
  assert (Htm : mapped (bytes m) p (length t + 1)).
  { destruct Hp as [Hp _]. apply arr_mapped in Hp. rewrite length_app in Hp. cbn [length] in Hp.
    by replace (length t + 1) with (Z.of_nat (length t + 1)) by lia. }
  destruct (decide (str_length s + k <= str_capacity s)) as [Hin|Hgrow].
  - right. unfold string_try_expand. replace (str_length s + k <=? str_capacity s) with true by lia.
    rewrite (M_bind_run _ _ m m (0, s)) by done. cbv beta iota. change (negb (0 =? 0)) with false. cbv iota.
    destruct (append_in_place m s l p t k Hh Hbl ltac:(done)) as (m' & E & Hr' & _ & Hout); try done; try lia.
    + destruct Ht as [Ht _]. by apply arr_app in Ht as [? _].
    + apply Ht.
    + eexists _, m'. split; [exact E|]. split; [done|]. intros a x Hx Ha. by rewrite Hout.
  - destruct (expand_run m s l (str_length s + k) p (length t + 1) Hr ltac:(lia) ltac:(lia) ltac:(lia) Htm Hap)
      as [E|(s1 & m1 & E & Hh1 & Hb1 & Hp1 & Ha1 & Hl1 & Hc1 & Hap1 & Hk1)]; rewrite (M_bind_run _ _ _ _ _ E).
    + left. split; [done|lia].
    + right. cbv beta iota. change (negb (0 =? 0)) with false. cbv iota.
      assert (Hp' : cstr (bytes m1) p t).
      { destruct Hp as [Hp Hc]. split; [|done]. intros i x Hi. pose proof (lookup_lt_Some _ _ _ Hi) as Hil.
        rewrite length_app in Hil. cbn [length] in Hil. apply Hk1; [by apply Hp|]. unfold str_apart in Hap. lia. }
      destruct (append_in_place m1 s1 l p t k Hh1 Hb1 Hp1 Ha1) as (m' & E' & Hr' & _ & Hout); try done; try lia.
      { apply Ht. }
      eexists _, m'. split; [exact E'|]. split; [done|].
      intros a x Hx Ha. destruct (Hk1 a x Hx Ha) as [Hx1 Hq1]. by rewrite Hout.
Qed.
(** Appending a character in place. *)
Lemma append_char_run m st (l : list Z) c :
  str_length st = length l -> length l + 1 < str_capacity st -> str_capacity st < 2 ^ 30 -> 0 <= c < 256 ->
  mapped (bytes m) (str st) (str_capacity st) ->
  ksappend_char st c m = Ret ((0, Str (str st) (length l + 1) (str_capacity st)),
    put_bytes (blit (str st + length l) [c; 0] (bytes m)) m).
Proof.
  intros Hl Hr Hc Hb Hm. unfold ksappend_char, string_try_expand. rewrite Hl, wrap_small by (unfold fits; lia).
  replace (length l + 1 <=? str_capacity st) with true by lia. rewrite (M_bind_run _ _ m m (0, st)) by done. cbv beta iota.
  change (negb (0 =? 0)) with false. cbv iota. rewrite Hl. cbn [str str_length str_capacity].
  rewrite (wrap_small 32 (length l + 1)) by (unfold fits; lia).
  rewrite (M_bind_run _ _ _ _ _ (wrb_run m (str st + length l) c ltac:(apply Hm; lia) Hb)). set (m1 := put_bytes _ m).
  assert (H1 : is_Some (bytes m1 !! (str st + (length l + 1)))).
  { cbn [m1 put_bytes bytes]. rewrite lookup_insert_ne by lia. apply Hm. lia. }
  rewrite (M_bind_run _ _ _ _ _ (wrb_run m1 _ 0 H1 ltac:(lia))). unfold m1. cbn [put_bytes bytes blocks blit].
  unfold mret, M_ret. apply (f_equal (fun b => Ret ((0, Str (str st) (length l + 1) (str_capacity st)), CMem b (blocks m)))).
  replace (str st + length l + 1) with (str st + (length l + 1)) by lia. apply insert_insert_ne. lia.
Qed.

(** [ksalloc]: an empty string of 32 bytes, in a block where nothing was. *)
Lemma ksalloc_run m : heap_ok m ->
  (exists m', ksalloc m = Ret (None, m') /\
     (kalloc m STRING_SIZE = None \/ exists a m1, kmalloc_bytes STRING_SIZE m = Ret (a, m1) /\ kalloc m1 STRING_MIN_SIZE = None)) \/
  exists a st m', ksalloc m = Ret (Some (a, st), m') /\ ks_rep m' st [] /\ str_capacity st = STRING_MIN_SIZE /\
    (forall q x, bytes m !! q = Some x -> bytes m' !! q = Some x /\ ~ str st <= q < str st + STRING_MIN_SIZE).
Proof.
  intros Hh. unfold ksalloc.
  destruct (kmalloc_run m STRING_SIZE ltac:(done) Hh) as [[En E]|(a & m1 & E & Ha0 & Hh1 & _ & Hb1 & _ & _ & _ & Hk1)];
    rewrite (M_bind_run _ _ _ _ _ E); [left; exists m; split; [done|by left]|]. replace (a =? 0) with false by lia.
  destruct (kmalloc_run m1 STRING_MIN_SIZE ltac:(done) Hh1) as [[En2 E2]|(b & m2 & E2 & Hb0 & Hh2 & _ & Hb2 & Hm2 & Hn2 & _ & Hk2)];
    rewrite (M_bind_run _ _ _ _ _ E2).
  - left. change (0 =? 0) with true. cbv iota.
    destruct (kfree_run m1 a STRING_SIZE Hh1) as (m' & Ef & _); [rewrite Hb1; apply lookup_insert_eq|].
    exists m'. rewrite (M_bind_run _ _ _ _ _ Ef). split; [done|]. right. by exists a, m1.
  - right. replace (b =? 0) with false by lia. assert (Hw : is_Some (bytes m2 !! b)).
    { rewrite <- (Z.add_0_r b). apply Hm2. unfold STRING_MIN_SIZE. lia. }
    rewrite (M_bind_run _ _ _ _ _ (wrb_run m2 b 0 Hw ltac:(lia))).
    exists a, (Str b 0 STRING_MIN_SIZE), (put_bytes (<[b := 0]> (bytes m2)) m2). split_and!; [done| |done|].
    + split; cbn [str str_length str_capacity put_bytes blocks bytes length]; unfold STRING_MIN_SIZE in *; try (done || lia).
      * apply (heap_ok_blit m2 b [0]). done.
      * rewrite Hb2. apply lookup_insert_eq.
      * by apply cstr_nil, lookup_insert_eq.
    + intros q x Hq. assert (Hq1 := Hk1 _ _ Hq). assert (~ b <= q < b + STRING_MIN_SIZE).
      { intros Hc. by rewrite (Hn2 q Hc) in Hq1. }
      split; [|done]. cbn [put_bytes bytes]. rewrite lookup_insert_ne; [by apply Hk2|]. unfold STRING_MIN_SIZE in *. lia.
Qed.

(** [buf] is a local array of 32 characters with a zero byte behind it. *)
Lemma int_string_run m v buf g :
  heap_ok m -> - 2 ^ 31 < v < 2 ^ 31 -> 0 < buf -> arr (bytes m) buf (g ++ [0]) -> length g = 32%nat -> byte_list g ->
  exists r m', int_string v buf m = Ret (r, m') /\
    match r with
    | Some (_, st) => ks_rep m' st (decimal v)
    | None => kalloc m STRING_SIZE = None \/
        exists a m1, kmalloc_bytes STRING_SIZE m = Ret (a, m1) /\ kalloc m1 STRING_MIN_SIZE = None
    end.
Proof.
  intros Hh Hv Hb0 Ha Hg Hbl. unfold int_string.
  destruct (ksalloc_run m Hh) as [(m' & E & Hn)|(a & st & m1 & E & Hr & Hcap & Hk)]; rewrite (M_bind_run _ _ _ _ _ E).
  { by exists None, m'. }
  destruct (decimal_chars v Hv) as [Hc Hl]. rewrite (s32_signed v) by lia.
  assert (Ha1 : arr (bytes m1) buf (g ++ [0])) by (intros i x Hi; by apply Hk, Ha).
  pose proof (arr_mapped _ _ _ Ha1) as Hm. rewrite length_app, Hg in Hm. cbn [length Nat.add] in Hm.
  set (n := length (decimal v)) in *. assert (Hn : length (decimal v) = n) by done. unfold STRING_MIN_SIZE in *.
  set (m2 := put_bytes (blit buf (decimal v) (bytes m1)) m1).
  assert (E2 : to_str v buf 32 m1 = Ret (Z.of_nat n, m2)) by (apply to_str_run; [done|]; eapply mapped_sub; [exact Hm|lia|cbn; lia]).
  assert (Hap : forall q, buf <= q < buf + 33 -> ~ str st <= q < str st + 32).
  { intros q Hq. destruct (lookup_lt_is_Some_2 (g ++ [0]) (Z.to_nat (q - buf))) as [x Hx].
    { rewrite length_app, Hg. cbn. lia. }
    apply (Hk q x). rewrite <- (Ha _ _ Hx). f_equal. lia. }
  assert (Hsep : str st + 32 <= buf \/ buf + 33 <= str st).
  { destruct (decide (str st + 32 <= buf \/ buf + 33 <= str st)) as [?|Hno]; [done|]. exfalso.
    apply (Hap (Z.max buf (str st))); lia. }
  assert (Ht : exists t, cstr (bytes m2) buf (decimal v ++ t) /\ (length (decimal v ++ t) <= 32)%nat).
  { apply arr_app in Ha1 as [Ha1 Hz]. rewrite <- (take_drop n g) in Ha1. apply arr_app in Ha1 as [_ Ha1].
    rewrite length_take, Hg, Nat.min_l in Ha1 by lia.
    destruct (first_nul (bytes m2) (drop n g) (buf + n)) as (t & [Ht Hct] & Hlt).
    - apply arr_blit_other; [lia|]. apply arr_app. split; [done|]. rewrite length_drop, Hg. rewrite Hg in Hz.
      by replace (buf + n + (32 - n)%nat) with (buf + 32%nat) by lia.
    - by apply Forall_drop.
    - exists t. rewrite length_drop in Hlt. split; [|rewrite length_app; fold n; lia].
      split; [|by apply Forall_app]. rewrite <- app_assoc. apply arr_app. split; [apply arr_blit|done]. }
  destruct Ht as (t & Ht & Htl).
  assert (Hr2 : ks_rep m2 st []).
  { destruct Hr as [R1 R2 R3 R4 R5]. split; try done; [by apply heap_ok_blit|].
    apply cstr_nil. apply cstr_nil in R5. cbn [m2 put_bytes bytes]. rewrite blit_out; [done|]. fold n. lia. }
  destruct (ksappend_strn_run m2 st [] buf (decimal v ++ t) n Hr2 Ht Hb0) as [[_ Hf]|(st' & m3 & E3 & Hr3 & _)];
    cbn [length] in *; rewrite ?length_app in *; try lia.
  { unfold str_apart. rewrite Hcap. lia. }
  exists (Some (a, st')), m3. split.
  - assert (E4 : ksappend_int st v buf m1 = Ret ((0, st'), m3)) by (unfold ksappend_int; by rewrite (M_bind_run _ _ _ _ _ E2)).
    by rewrite (M_bind_run _ _ _ _ _ E4).
  - cbn [app] in Hr3. replace (Z.to_nat _) with (length (decimal v)) in Hr3 by (fold n; lia). by rewrite take_app_length in Hr3.
Qed.

End Append.

(** ** The contract *)

(** [ksappend_strn] appends at most [n] characters of a C string, cut at
    its terminator: unless the result would fill the buffer to the last
    byte, it answers 0 and the string holds the old text followed by the new
    characters, terminated, in the old buffer or in a new one with the old
    one freed; or, only when it has to grow and memory is exhausted, it
    answers [-ENOMEM] and nothing changes.  No byte outside the buffer
    changes. *)
Theorem ksappend_strn_ok `{KHeap} (m : cmem) (s : string) (l t : list Z) (p n : Z) :
  ks_rep m s l -> cstr (bytes m) p t -> 0 < p -> 0 <= n -> length t < 2 ^ 28 -> length l < 2 ^ 28 ->
  str_apart s p (length t + 1) ->
  let k := Z.to_nat (Z.min n (length t)) in
  length l + k <> str_capacity s ->
  (ksappend_strn s p n m = Ret ((- ENOMEM, s), m) /\ str_capacity s < length l + k) \/
  exists s' m', ksappend_strn s p n m = Ret ((0, s'), m') /\ ks_rep m' s' (l ++ take k t) /\
    (forall a x, bytes m !! a = Some x -> ~ str s <= a < str s + str_capacity s -> bytes m' !! a = Some x).
Proof. apply ksappend_strn_run. Qed.

(** [ksappend_char] on a string with one byte left writes past its
    buffer: no reallocation happens, the character takes the last byte and
    the terminator goes to the first byte after the block, which is set to
    0 if it is mapped and faults otherwise.  The same boundary is excluded
    in [ksappend_strn_ok]. *)
Theorem ksappend_char_overflow `{KHeap} (m : cmem) (s : string) (l : list Z) (c : Z) :
  ks_rep m s l -> 0 < c < 256 -> length l + 1 = str_capacity s ->
  match bytes m !! (str s + str_capacity s) with
  | Some _ => exists m', ksappend_char s c m = Ret ((0, Str (str s) (str_capacity s) (str_capacity s)), m') /\
                bytes m' !! (str s + str_capacity s) = Some 0
  | None => ksappend_char s c m = Fault
  end.
Proof.
  intros Hr Hc Hfull. pose proof (ks_mapped _ _ _ Hr) as Hmap. destruct Hr as [Hh Hbl [Hpos Hcap] [Hlen Hlt] Ht].
  unfold ksappend_char. rewrite wrap_small by (unfold fits; lia). unfold string_try_expand.
  replace (str_length s + 1 <=? str_capacity s) with true by lia.
  rewrite (M_bind_run _ _ m m (0, s)) by done. cbv beta iota. change (negb (0 =? 0)) with false. cbv iota.
  assert (Hw : is_Some (bytes m !! (str s + str_length s))) by (apply Hmap; lia).
  assert (Ew : wrb (str s + str_length s) c m = Ret (tt, put_bytes (<[str s + str_length s := c]> (bytes m)) m)).
  { apply wrb_run; [done|lia]. }
  set (m1 := put_bytes (<[str s + str_length s := c]> (bytes m)) m) in *. cbn [str str_length str_capacity].
  rewrite (wrap_small 32 (str_length s + 1)) by (unfold fits; lia).
  replace (str_length s + 1) with (str_capacity s) by lia.
  assert (E1 : bytes m1 !! (str s + str_capacity s) = bytes m !! (str s + str_capacity s)).
  { cbn [m1 bytes put_bytes]. apply lookup_insert_ne. lia. }
  rewrite (M_bind_run _ _ _ _ _ Ew).
  destruct (bytes m !! (str s + str_capacity s)) as [x|] eqn:E.
  - rewrite (M_bind_run _ _ _ _ _ (wrb_run m1 (str s + str_capacity s) 0 ltac:(by rewrite E1) ltac:(lia))).
    eexists. split; [reflexivity|]. cbn [bytes put_bytes]. apply lookup_insert_eq.
  - unfold mbind, M_bind at 1, wrb. by rewrite E1.
Qed.

(** ** Hexadecimal round trip *)

Lemma s32_mod x : (s32 x) mod 2 ^ 32 = x mod 2 ^ 32.
Proof.
  unfold sext, wrap. destruct (_ <? _); [apply Z.mod_mod; lia|].
  rewrite <- (Z_mod_plus_full _ 1). replace (x mod 2 ^ 32 - 2 ^ 32 + 1 * 2 ^ 32) with (x mod 2 ^ 32) by lia. apply Z.mod_mod. lia.
Qed.

Lemma s32_ext x y : x mod 2 ^ 32 = y mod 2 ^ 32 -> s32 x = s32 y.
Proof. intros E. unfold sext, wrap. by rewrite E. Qed.

(** A step of the loop, up to overflow. *)
Lemma s32_step a d : s32 (s32 (s32 a * 16) + d) = s32 (a * 16 + d).
Proof.
  apply s32_ext. rewrite Zplus_mod, s32_mod, <- Zplus_mod. rewrite Zplus_mod, Zmult_mod, s32_mod, <- Zmult_mod, <- Zplus_mod. done.
Qed.

Lemma hex_char_value d : 0 <= d < 16 ->
  is_digit (hex_char d) = true /\
  (if is_num (hex_char d) then s8 (hex_char d) - ch_0 else 10 + s8 (hex_char d) - ch_a) = d.
Proof.
  intros Hd.
  assert (Hall : forallb (fun d => is_digit (hex_char d) &&
    ((if is_num (hex_char d) then s8 (hex_char d) - ch_0 else 10 + s8 (hex_char d) - ch_a) =? d)) (seqZ 0 16) = true) by reflexivity.
  rewrite forallb_forall in Hall. specialize (Hall d). rewrite andb_true_iff, Z.eqb_eq in Hall. apply Hall.
  apply list_elem_of_In, elem_of_seqZ. lia.
Qed.

Lemma hex_loop_run ds m p a :
  arr (bytes m) p (hex_char <$> ds) -> Forall (fun d => 0 <= d < 16) ds ->
  hex_loop (length ds) p (s32 a) m = Ret (Some (s32 (eval 16 a ds)), m).
Proof.
  revert p a. induction ds as [|d ds IH]; intros p a Ha Hd; [done|]. cbn [length hex_loop fmap list_fmap] in *.
  apply arr_cons in Ha as [E Ha]. apply Forall_cons in Hd as [Hd Hds]. destruct (hex_char_value d Hd) as [E1 E2].
  rewrite (M_bind_run _ _ _ _ _ (rdb_run _ _ _ E)), E1, E2. cbn [negb]. rewrite s32_step.
  change (eval 16 a (d :: ds)) with (eval 16 (a * 16 + d) ds). by apply IH.
Qed.

Lemma rev_zeros n : rev (replicate n 0) = replicate n 0.
Proof. induction n as [|n IH]; [done|]. cbn [replicate rev]. by rewrite IH, <- replicate_cons_app. Qed.

Lemma hex8_eval v : 0 <= v < 2 ^ 32 -> eval 16 0 (hex8 v) = v.
Proof.
  intros Hv. unfold hex8. rewrite rev_app_distr, rev_zeros. unfold eval. rewrite foldl_app.
  assert (Hz : forall n, foldl (fun a d => a * 16 + d) 0 (replicate n 0) = 0) by (induction n; done).
  rewrite Hz. apply eval_le_digits; [lia|]. unfold digits_fuel.
  assert (2 ^ 32 < 16 ^ Z.of_nat 11) by done. lia.
Qed.

Lemma hex8_digits v : Forall (fun d => 0 <= d < 16) (hex8 v).
Proof.
  unfold hex8. apply Forall_rev, Forall_app. split; [apply le_digits_bound; lia|]. apply Forall_replicate. lia.
Qed.

Lemma hex_to_value_run m v buf cap : 0 <= v < 2 ^ 32 -> arr (bytes m) buf (hex_text v) ->
  hex_to_value (Str buf 10 cap) m = Ret ((0, s32 v), m).
Proof.
  intros Hv Ha. pose proof (hex8_length v Hv) as Hl. unfold hex_text in Ha.
  apply arr_cons in Ha as [E0 Ha]. apply arr_cons in Ha as [E1 Ha]. replace (buf + 1 + 1) with (buf + 2) in Ha by lia.
  unfold hex_to_value. cbn [str str_length]. rewrite (M_bind_run _ _ _ _ _ (rdb_run _ _ _ E0)). cbn [ch_0 Z.eqb Pos.eqb negb].
  rewrite (M_bind_run _ _ _ _ _ (rdb_run _ _ _ E1)). cbn [ch_x Z.eqb Pos.eqb negb].
  pose proof (hex_loop_run (hex8 v) m (buf + 2) 0 Ha (hex8_digits v)) as Eh. rewrite Hl, hex8_eval in Eh by done.
  change (Z.to_nat (Z.min 10 10 - 2)) with 8%nat. by rewrite (M_bind_run _ _ _ _ _ Eh).
Qed.

(** [to_hex] of any 32-bit number writes [0x] and eight digits, exactly
    ten characters, and [hex_to_value] reads the same 32 bits back. *)
Theorem to_hex_roundtrip (m : cmem) (v buf len cap : Z) :
  0 <= v < 2 ^ 32 -> mapped (bytes m) buf 10 ->
  exists m', to_hex v buf len m = Ret (10, m') /\ (forall a, ~ buf <= a < buf + 10 -> bytes m' !! a = bytes m !! a) /\
    hex_to_value (Str buf 10 cap) m' = Ret ((0, s32 v), m').
Proof.
  intros Hv Hm. pose proof (hex8_length v Hv) as Hl.
  exists (put_bytes (blit buf (hex_text v) (bytes m)) m). split_and!; [by apply to_hex_run| |].
  - intros a Ha. cbn [bytes put_bytes]. apply blit_out. unfold hex_text. rewrite length_app, length_fmap, Hl. done.
  - apply hex_to_value_run; [done|]. apply arr_blit.
Qed.

(** *** Examples *)

Definition str4 : string := Str 100 2 4.
Definition mem_str : cmem := CMem (blit 100 [104; 105; 0; 0] (blit 200 [33; 34; 35; 0; 0; 0; 0; 0; 0; 0] ∅)) (<[100 := 4]> ∅).

Lemma str4_rep : ks_rep mem_str str4 [104; 105].
Proof.
  split; cbn [str4 str str_length str_capacity]; try done.
  - split; cbn [mem_str bytes blocks].
    + intros a n [[<- <-]|[_ E]]%lookup_insert_Some; [|by rewrite lookup_empty in E]. split; [lia|].
      apply (arr_mapped _ 100 [104; 105; 0; 0]), arr_blit.
    + intros a n b k [[<- <-]|[_ E]]%lookup_insert_Some; [|by rewrite lookup_empty in E].
      intros [[<- <-]|[_ E]]%lookup_insert_Some; [done|by rewrite lookup_empty in E].
  - rewrite !cstr_cons, cstr_nil. split_and!; try lia; done.
Qed.

Lemma mem_str_200 : cstr (bytes mem_str) 200 [33; 34; 35].
Proof. rewrite !cstr_cons, cstr_nil. split_and!; try lia; done. Qed.

Lemma ksappend_strn_ok_witness :
  (@ksappend_strn bump_heap str4 200 3 mem_str = Ret ((- ENOMEM, str4), mem_str) /\ 4 < 2 + 3) \/
  exists s' m', @ksappend_strn bump_heap str4 200 3 mem_str = Ret ((0, s'), m') /\ ks_rep m' s' [104; 105; 33; 34; 35] /\
    (forall a x, bytes mem_str !! a = Some x -> ~ 100 <= a < 100 + 4 -> bytes m' !! a = Some x).
Proof.
  apply (@ksappend_strn_ok bump_heap mem_str str4 [104; 105] [33; 34; 35] 200 3 str4_rep mem_str_200);
    [lia|lia|done|done|right; cbn; lia|done].
Defined.

Definition str3 : string := Str 100 2 3.
Definition mem_str3 : cmem := CMem (blit 100 [104; 105; 0] ∅) (<[100 := 3]> ∅).

Lemma str3_rep : ks_rep mem_str3 str3 [104; 105].
Proof.
  split; cbn [str3 str str_length str_capacity]; try done.
  - split; cbn [mem_str3 bytes blocks].
    + intros a n [[<- <-]|[_ E]]%lookup_insert_Some; [|by rewrite lookup_empty in E]. split; [lia|].
      apply (arr_mapped _ 100 [104; 105; 0]), arr_blit.
    + intros a n b k [[<- <-]|[_ E]]%lookup_insert_Some; [|by rewrite lookup_empty in E].
      intros [[<- <-]|[_ E]]%lookup_insert_Some; [done|by rewrite lookup_empty in E].
  - rewrite !cstr_cons, cstr_nil. split_and!; try lia; done.
Qed.

Lemma ksappend_char_overflow_witness : @ksappend_char bump_heap str3 33 mem_str3 = Fault.
Proof. apply (@ksappend_char_overflow bump_heap mem_str3 str3 [104; 105] 33 str3_rep); [lia|done]. Defined.

Lemma to_hex_roundtrip_witness :
  exists m', to_hex 3735928559 200 32 mem_str = Ret (10, m') /\
    (forall a, ~ 200 <= a < 200 + 10 -> bytes m' !! a = bytes mem_str !! a) /\
    hex_to_value (Str 200 10 32) m' = Ret ((0, s32 3735928559), m').
Proof.
  apply (to_hex_roundtrip mem_str 3735928559 200 32 32); [lia|].
  apply (arr_mapped _ 200 [33; 34; 35; 0; 0; 0; 0; 0; 0; 0]). unfold mem_str. cbn [bytes].
  eapply arr_frame; [|apply (arr_blit 200)]. intros a Ha. apply blit_out. cbn in Ha |- *. lia.
Defined.
