(* ===== verification/KSplit.v ===== *)
(** * Splitting a line into words ([kssplit] of libs/string.c)

    The shell cuts the line it has read at the blanks.  [split] is the list
    of words; [split_join] says what it is: no word contains the separator
    and the words, each followed by it, make up the line (a missing separator
    at the end added).  [kssplit] allocates a growing string for every word
    and pushes the pointer to it into a vector (Vector.v); the invariant of
    its loop keeps the strings with their structures, the one being built,
    the vector and the line in separate live blocks of the heap. *)

From stdpp Require Import base numbers list gmap.
From Stdlib Require Import ZArith Lia.
From S2P Require Import Prelude CMem CString Vector KString.

Open Scope Z_scope.

#[local] Coercion Z.of_nat : nat >-> Z.

(** ** Words *)

(** [cur] is the part of the current word that has been read. *)
Fixpoint split (c : Z) (cur l : list Z) : list (list Z) :=
  match l with
  | [] => match cur with [] => [] | _ => [cur] end
  | x :: l => if x =? c then cur :: split c [] l else split c (cur ++ [x]) l
  end.

(** The line with a separator at the end unless it is empty or has one. *)
Definition closed (c : Z) (l : list Z) : list Z :=
  match last l with None => [] | Some x => if x =? c then l else l ++ [c] end.

Lemma closed_separator c k l : closed c (k ++ c :: l) = k ++ c :: closed c l.
Proof.
  unfold closed. rewrite last_app, last_cons. destruct (last l) as [y|] eqn:E.
  - destruct (y =? c); [done|]. by rewrite <- app_assoc.
  - apply last_None in E as ->. by rewrite Z.eqb_refl.
Qed.

Lemma split_words c l : forall cur, c ∉ cur ->
  concat ((fun w => w ++ [c]) <$> split c cur l) = closed c (cur ++ l) /\ Forall (fun w => c ∉ w) (split c cur l).
Proof.
  induction l as [|x l IH]; intros cur Hc; cbn [split].
  - rewrite app_nil_r. destruct cur as [|y cur]; [done|]. split; [|by apply Forall_singleton].
    cbn [fmap list_fmap concat]. rewrite app_nil_r. unfold closed. destruct (last (y :: cur)) as [z|] eqn:E; [|by apply last_None in E].
    apply last_Some_elem_of in E. destruct (Z.eqb_spec z c); [by subst|done].
  - destruct (Z.eqb_spec x c) as [->|Hx].
    + destruct (IH [] ltac:(apply not_elem_of_nil)) as [E F]. split; [|by constructor].
      cbn [fmap list_fmap concat]. change (list_fmap _ _ _ (split c [] l)) with ((fun w => w ++ [c]) <$> split c [] l).
      rewrite E, closed_separator. by rewrite <- app_assoc.
    + destruct (IH (cur ++ [x])) as [E F]; [|by rewrite <- app_assoc in E].
      rewrite not_elem_of_app, list_elem_of_singleton. by split.
Qed.

Lemma split_short c l : forall cur, Forall (fun x => Z.of_nat (length x) < STRING_MIN_SIZE) (split c cur l) ->
  Z.of_nat (length cur) < STRING_MIN_SIZE.
Proof.
  induction l as [|x l IH]; intros cur Hf; cbn [split] in Hf.
  - destruct cur; [done|]. by apply Forall_cons in Hf as [? _].
  - destruct (x =? c); [by apply Forall_cons in Hf as [? _]|]. apply IH in Hf. rewrite length_app in Hf. cbn in Hf. lia.
Qed.

(** ** The code *)

(** A 32-bit store. *)
Definition wr32 (p v : Z) : M cmem unit :=
  _ ← wrb p v; _ ← wrb (p + 1) (Z.shiftr v 8); _ ← wrb (p + 2) (Z.shiftr v 16); wrb (p + 3) (Z.shiftr v 24).

Section Code.
Context `{KHeap}.

(** The macro [vector_push(vec, string *, sub)]: [slot] is the address of its
    local variable [__a]; the answer of [__vector_push] is ignored. *)
Definition vector_push_ptr (slot : Z) (vec : vector) (p : Z) : M cmem vector :=
  _ ← wr32 slot p;
  '(_, vec) ← vector_push vec slot;
  mret vec.

(** The pointer to a string, and the structures with one more string: the
    byte memory holds the blocks of the structures, [objs] their fields. *)
Definition ptr (sub : option (Z * string)) : Z := match sub with Some (a, _) => a | None => 0 end.
Definition keep (sub : option (Z * string)) (objs : gmap Z string) : gmap Z string :=
  match sub with Some (a, st) => <[a := st]> objs | None => objs end.

Fixpoint kssplit_loop (slot : Z) (n : nat) (p c : Z) (sub : option (Z * string)) (vec : vector) (objs : gmap Z string)
    : M cmem (option (Z * string) * vector * gmap Z string) :=
  match n with
  | O => mret (sub, vec, objs)
  | S n =>
      b ← rdb p;
      if b =? c then
        vec ← vector_push_ptr slot vec (ptr sub);
        new ← ksalloc;
        kssplit_loop slot n (p + 1) c new vec (keep sub objs)
      else
        match sub with
        | None => fun _ => Fault
        | Some (a, st) =>
            b ← rdb p;
            '(_, st) ← ksappend_char st b;
            kssplit_loop slot n (p + 1) c (Some (a, st)) vec objs
        end
  end.

Definition kssplit (slot : Z) (s : string) (c : Z) (vec : vector) : M cmem (Z * vector * gmap Z string) :=
  sub ← ksalloc;
  '(sub, vec, objs) ← kssplit_loop slot (Z.to_nat (str_length s)) (str s) c sub vec ∅;
  match sub with
  | None => fun _ => Fault
  | Some (a, st) =>
      if negb (string_empty st) then
        vec ← vector_push_ptr slot vec a;
        mret (0, vec, keep sub objs)
      else
        _ ← ksfree sub;
        mret (0, vec, objs)
  end.
End Code.

(** ** Blocks that stay *)

(** The block at [q], if there is one, is still there with its contents. *)
Definition kept (m m' : cmem) (q : Z) : Prop :=
  forall n, blocks m !! q = Some n -> blocks m' !! q = Some n /\
    forall a y, q <= a < q + n -> bytes m !! a = Some y -> bytes m' !! a = Some y.

Lemma kept_trans m1 m2 m3 q : kept m1 m2 q -> kept m2 m3 q -> kept m1 m3 q.
Proof.
  intros H1 H2 n Hq. destruct (H1 _ Hq) as [Hq2 B1]. destruct (H2 _ Hq2) as [Hq3 B2]. split; [done|].
  intros a y Ha Hy. apply B2; [done|]. by apply B1.
Qed.

Lemma ks_rep_kept m m' s l : heap_ok m' -> kept m m' (str s) -> ks_rep m s l -> ks_rep m' s l.
Proof.
  intros Hh Hk [_ Hbl Hp [Hl Hlt] [Ha Hc]]. destruct (Hk _ Hbl) as [Hbl' Hb]. split; [done|done|done|done|]. split; [|done].
  intros i y Hi. pose proof (lookup_lt_Some _ _ _ Hi) as Hil. rewrite length_app in Hil. cbn [length] in Hil.
  apply Hb; [lia|]. by apply Ha.
Qed.

Lemma vec_rep_kept m m' v els : heap_ok m' -> kept m m' (v_base v) -> vec_rep m v els -> vec_rep m' v els.
Proof.
  intros Hh Hk [_ Hbl Hp Hf [Hs Hle] Hels Hd]. destruct (Hk _ Hbl) as [Hbl' Hb]. split; try done.
  intros i y Hi. pose proof (lookup_lt_Some _ _ _ Hi) as Hil. pose proof (concat_length _ _ Hels).
  apply Hb; [nia|]. by apply Hd.
Qed.

(** A string of the smallest size with its structure. *)
Record srep (m : cmem) (x : Z * string) (w : list Z) : Prop := SRep {
  sr_rep : ks_rep m x.2 w;
  sr_struct : blocks m !! x.1 = Some STRING_SIZE;
  sr_cap : str_capacity x.2 = STRING_MIN_SIZE
}.

Lemma srep_kept m m' x w : heap_ok m' -> kept m m' x.1 -> kept m m' (str x.2) -> srep m x w -> srep m' x w.
Proof. intros Hh K1 K2 [Hr Hs Hc]. split; [by eapply ks_rep_kept|by apply K1|done]. Qed.

(** The local variable at [slot] is mapped and not part of any block. *)
Definition off_heap (m : cmem) (slot : Z) : Prop :=
  mapped (bytes m) slot 4 /\ forall q n p, blocks m !! q = Some n -> q <= p < q + n -> ~ slot <= p < slot + 4.

Lemma off_heap_grown m m' slot :
  off_heap m slot -> grown m m' -> (forall p x, slot <= p < slot + 4 -> bytes m !! p = Some x -> is_Some (bytes m' !! p)) ->
  off_heap m' slot.
Proof.
  intros [Hm Ho] Hg Hk. assert (Hs : forall p, slot <= p < slot + 4 -> is_Some (bytes m !! p)).
  { intros p Hp. replace p with (slot + (p - slot)) by lia. apply Hm. lia. }
  split.
  - intros i Hi. destruct (Hs (slot + i) ltac:(lia)) as [x Hx]. apply (Hk _ x); [lia|done].
  - intros q n p Hq Hp Hc. destruct (Hg _ _ Hq) as [Hq'|Hn]; [by apply (Ho _ _ _ Hq' Hp)|].
    destruct (Hs p Hc) as [x Hx]. by rewrite Hn in Hx.
Qed.

Lemma kept_outside m m' q b k :
  heap_ok m -> blocks m !! b = Some k -> q <> b -> (forall n, blocks m !! q = Some n -> blocks m' !! q = Some n) ->
  (forall a y, bytes m !! a = Some y -> ~ b <= a < b + k -> bytes m' !! a = Some y) -> kept m m' q.
Proof.
  intros Hh Hb Hne Hbl Hby n Hq. split; [by apply Hbl|]. intros a y Ha Hy. apply Hby; [done|].
  pose proof (ho_disjoint _ Hh _ _ _ _ Hq Hb Hne). lia.
Qed.

Lemma wr32_run m p v :
  mapped (bytes m) p 4 -> wr32 p v m = Ret (tt, put_bytes (blit p (le32 (u32 v)) (bytes m)) m).
Proof.
  intros Hm. unfold wr32.
  assert (W : forall k l, 0 <= k < 4 -> Z.of_nat (length l) = k ->
    wrb (p + k) (Z.shiftr v (8 * k)) (put_bytes (blit p l (bytes m)) m) =
    Ret (tt, put_bytes (blit p (l ++ [u8 (Z.shiftr v (8 * k))]) (bytes m)) m)).
  { intros k l Hk Hl. unfold wrb, put_bytes. cbn [bytes blocks].
    destruct (mapped_blit (bytes m) p l p 4 Hm k Hk) as [x Hx]. rewrite Hx. do 3 f_equal.
    rewrite blit_app, Hl. change (<[p + k := ?z]> ?b) with (blit (p + k) [z] b). apply blit_comm. cbn [length]. lia. }
  pose proof (W 0 [] ltac:(lia) eq_refl) as W0. rewrite Z.add_0_r, Z.shiftr_0_r in W0.
  change (put_bytes (blit p [] (bytes m)) m) with (put_bytes (bytes m) m) in W0.
  replace (put_bytes (bytes m) m) with m in W0 by (by destruct m). rewrite (M_bind_run _ _ _ _ _ W0).
  rewrite (M_bind_run _ _ _ _ _ (W 1 [u8 v] ltac:(lia) eq_refl)).
  rewrite (M_bind_run _ _ _ _ _ (W 2 [u8 v; u8 (Z.shiftr v 8)] ltac:(lia) eq_refl)).
  pose proof (W 3 [u8 v; u8 (Z.shiftr v 8); u8 (Z.shiftr v 16)] ltac:(lia) eq_refl) as W3. etransitivity; [exact W3|]. do 4 f_equal. cbn [app]. unfold le32, le16, wrap. rewrite !Z.shiftr_div_pow2 by lia.
  cbn [app]. f_equal; [|f_equal; [|f_equal; [|f_equal]]]; Z.div_mod_to_equations; lia.
Qed.

Lemma le32_bytes x : 0 <= x < 2 ^ 32 -> byte_list (le32 x).
Proof. intros Hx. unfold le32, le16. repeat (apply Forall_cons; split; [Z.div_mod_to_equations; lia|]). by apply Forall_nil. Qed.

(** ** The operations of the loop *)

Section Split.
Context `{KHeap}.
Hypothesis memory : forall m n, kalloc m n <> None.
Variables (slot : Z) (s : string) (text : list Z) (cap : Z) (els : list (list Z)).
Hypothesis cap_small : 0 <= cap /\ 3 * cap + 2 * length text < 2 ^ 27.

(** The addresses of the blocks in use. *)
Definition owned (v : vector) (all : list (Z * string)) : list Z :=
  str s :: v_base v :: (all ≫= fun x => [x.1; str x.2]).

(** The words [ws] are in the strings [all], those of [pushed] are in the
    vector; [cap] was the capacity of the vector at the start. *)
Record sinv (m : cmem) (v : vector) (pushed all : list (Z * string)) (ws : list (list Z)) : Prop := SInv {
  sv_heap : heap_ok m;
  sv_line : ks_rep m s text;
  sv_vec : vec_rep m v (els ++ ((fun x => le32 (u32 x.1)) <$> pushed));
  sv_size : v_element_size v = 4 /\ v_capacity v <= cap + 2 * v_size v;
  sv_words : Forall2 (srep m) all ws;
  sv_own : NoDup (owned v all);
  sv_slot : off_heap m slot
}.

Lemma owned_struct v all x : x ∈ all -> x.1 ∈ owned v all.
Proof. intros Hx. right. right. apply list_elem_of_bind. exists x. split; [by left|done]. Qed.
Lemma owned_buffer v all x : x ∈ all -> str x.2 ∈ owned v all.
Proof. intros Hx. right. right. apply list_elem_of_bind. exists x. split; [right; by left|done]. Qed.

Lemma owned_app v all x : owned v (all ++ [x]) = owned v all ++ [x.1; str x.2].
Proof. unfold owned. by rewrite bind_app. Qed.

Lemma words_kept m m' all ws :
  heap_ok m' -> (forall x, x ∈ all -> kept m m' x.1 /\ kept m m' (str x.2)) ->
  Forall2 (srep m) all ws -> Forall2 (srep m') all ws.
Proof.
  intros Hh Hk Hw. apply Forall2_same_length_lookup_2; [by eapply Forall2_length|]. intros i x l Hx Hl.
  pose proof (Forall2_lookup_lr _ _ _ _ _ _ Hw Hx Hl). apply list_elem_of_lookup_2, Hk in Hx as [? ?]. by apply (srep_kept m).
Qed.

(** A step that leaves every block in use alone. *)
Lemma sinv_frame m m' v pushed all ws :
  sinv m v pushed all ws -> heap_ok m' -> off_heap m' slot -> (forall q, q ∈ owned v all -> kept m m' q) ->
  sinv m' v pushed all ws.
Proof.
  intros [Hh Hl Hv Hs Hw Ho Hsl] Hh' Hsl' Hk. split; try done.
  - apply (ks_rep_kept m); [done| |done]. apply Hk. by left.
  - apply (vec_rep_kept m); [done| |done]. apply Hk. right. by left.
  - apply (words_kept m); [done| |done]. intros x Hx. split; apply Hk; [by apply owned_struct|by apply owned_buffer].
Qed.

Lemma owned_live m v pushed all ws q : sinv m v pushed all ws -> q ∈ owned v all -> is_Some (blocks m !! q).
Proof.
  intros [Hh Hl Hv Hs Hw Ho Hsl] Hq. apply elem_of_cons in Hq as [->|Hq]; [by rewrite (kr_block _ _ _ Hl)|].
  apply elem_of_cons in Hq as [->|Hq]; [by rewrite (vr_block _ _ _ Hv)|].
  apply list_elem_of_bind in Hq as (x & Hq & [i Hx]%list_elem_of_lookup).
  destruct (Forall2_lookup_l _ _ _ _ _ Hw Hx) as (w & _ & [Hr Hst _]).
  apply elem_of_cons in Hq as [->|Hq]; [by rewrite Hst|]. apply list_elem_of_singleton in Hq as ->. by rewrite (kr_block _ _ _ Hr).
Qed.

(** Pushing a pointer. *)
Lemma sinv_push m v pushed all ws x :
  sinv m v pushed all ws -> v_size v <= cap + length text ->
  exists v' m', vector_push_ptr slot v x.1 m = Ret (v', m') /\ sinv m' v' (pushed ++ [x]) all ws /\ v_size v' = v_size v + 1.
Proof.
  intros K Hsz. unfold vector_push_ptr. pose proof K as [Hh _ _ _ _ _ [Hm Ho]].
  rewrite (M_bind_run _ _ _ _ _ (wr32_run m slot x.1 Hm)). set (m1 := put_bytes _ m).
  assert (K1 : sinv m1 v pushed all ws).
  { apply (sinv_frame m); [done|by apply heap_ok_blit|split; [by apply mapped_blit|exact Ho]|]. intros q _ n Hq. split; [done|].
    intros a y Ha Hy. cbn [m1 put_bytes bytes]. rewrite blit_out; [done|]. by apply (Ho q n). }
  destruct K1 as [Hh1 Hl1 Hv1 [He Hc] Hw1 Hn1 Hsl1]. pose proof (vr_size _ _ _ Hv1) as [Hsz1 _].
  pose proof (vr_pos _ _ _ Hv1) as (_ & Hcp & Hbp). pose proof (vr_block _ _ _ Hv1) as Hb1.
  assert (Hap : vec_apart v slot (v_element_size v)).
  { unfold vec_apart. pose proof (Ho _ _ (Z.max slot (v_base v)) Hb1). rewrite He in *. lia. }
  destruct (vector_push_run m1 v _ slot (le32 (u32 x.1)) Hv1) as [(_ & [n Hno] & _)|(v' & m' & E & Hv' & He' & Hc' & Hg & Hnew & Hkb & Hky)];
    [rewrite He; lia|apply arr_blit|by rewrite He|apply le32_bytes; apply (wrap_fits 32); lia|exact Hap|by apply memory in Hno|].
  rewrite (M_bind_run _ _ _ _ _ E). exists v', m'. split; [done|]. pose proof (vr_size _ _ _ Hv') as [Hsz' _].
  rewrite length_app in Hsz'. cbn [length] in Hsz'. split; [|lia].
  assert (Hkept : forall q, q <> v_base v -> kept m1 m' q).
  { intros q Hq. eapply kept_outside; [exact Hh1|exact Hb1|exact Hq| |exact Hky]. intros k Hk. by apply Hkb. }
  unfold owned in Hn1. rewrite !NoDup_cons, !elem_of_cons in Hn1. destruct Hn1 as (Hn1 & Hn2 & Hn3).
  split.
  - apply Hv'.
  - apply (ks_rep_kept m1); [apply Hv'|apply Hkept; naive_solver|done].
  - rewrite fmap_app, app_assoc. exact Hv'.
  - split; [congruence|lia].
  - apply (words_kept m1); [apply Hv'| |done]. intros y Hy.
    split; apply Hkept; intros Heq; apply Hn2; rewrite <- Heq; apply list_elem_of_bind; exists y; (split; [|done]); [by left|right; by left].
  - destruct Hnew as [Hb|Hb]; [by unfold owned; rewrite Hb, !NoDup_cons, !elem_of_cons|].
    assert (K1 : sinv m1 v pushed all ws) by (split; try done; unfold owned; by rewrite !NoDup_cons, !elem_of_cons).
    assert (Hnot : v_base v' ∉ owned v all) by (intros Hin; apply (owned_live _ _ _ _ _ _ K1) in Hin as [? Hin]; by rewrite Hb in Hin).
    unfold owned in *. rewrite !elem_of_cons in Hnot. rewrite !NoDup_cons, !elem_of_cons. naive_solver.
  - apply (off_heap_grown m1); [exact Hsl1|exact Hg|]. intros p y Hp Hy. exists y. apply Hky; [done|]. rewrite He.
    unfold vec_apart in Hap. rewrite He in Hap. lia.
Qed.

(** A new, empty string. *)
Lemma sinv_new m v pushed all ws :
  sinv m v pushed all ws ->
  exists y m', ksalloc m = Ret (Some y, m') /\ sinv m' v pushed (all ++ [y]) (ws ++ [[]]).
Proof.
  intros K. pose proof K as [Hh _ _ _ _ Hown Hsl]. unfold ksalloc.
  destruct (kmalloc_run m STRING_SIZE ltac:(done) Hh) as [[Hn _]|(a & m1 & E1 & Ha & Hh1 & Hna & Hb1 & _ & Hfr1 & _ & Hk1)];
    [by apply memory in Hn|]. rewrite (M_bind_run _ _ _ _ _ E1). rewrite (proj2 (Z.eqb_neq a 0)) by lia.
  destruct (kmalloc_run m1 STRING_MIN_SIZE ltac:(done) Hh1) as [[Hn _]|(b & m2 & E2 & Hb & Hh2 & Hnb & Hb2 & Hm2 & Hnew & _ & Hk2)];
    [by apply memory in Hn|]. rewrite (M_bind_run _ _ _ _ _ E2). rewrite (proj2 (Z.eqb_neq b 0)) by lia.
  assert (Hw : is_Some (bytes m2 !! b)) by (rewrite <- (Z.add_0_r b); apply Hm2; unfold STRING_MIN_SIZE; lia).
  rewrite (M_bind_run _ _ _ _ _ (wrb_run m2 b 0 Hw ltac:(lia))). rewrite Hb1 in Hnb.
  assert (Hab : a <> b) by (intros ->; by rewrite lookup_insert_eq in Hnb). rewrite lookup_insert_ne in Hnb by done.
  set (m' := put_bytes (<[b := 0]> (bytes m2)) m2). set (y := (a, Str b 0 STRING_MIN_SIZE)). exists y, m'. split; [done|].
  assert (Hh' : heap_ok m') by (exact (heap_ok_blit m2 b [0] Hh2)).
  assert (Hby : forall q z, bytes m !! q = Some z -> bytes m' !! q = Some z).
  { intros q z Hq. pose proof (Hk1 _ _ Hq) as Hq1. cbn [m' put_bytes bytes]. rewrite lookup_insert_ne; [by apply Hk2|].
    intros <-. by rewrite Hnew in Hq1 by (unfold STRING_MIN_SIZE; lia). }
  assert (K' : sinv m' v pushed all ws).
  { apply (sinv_frame m); [done|done| |].
    - apply (off_heap_grown m); [done| |by eauto]. intros q n. cbn [m' put_bytes blocks]. rewrite Hb2, lookup_insert_Some, Hb1, lookup_insert_Some.
      intros [[<- <-]|[_ [[<- <-]|[_ Hq]]]]; [right|by right|by left]. intros p Hp. destruct (bytes m !! p) eqn:Ep; [|done].
      apply Hk1 in Ep. by rewrite Hnew in Ep.
    - intros q _ n Hq. split; [|by eauto]. cbn [m' put_bytes blocks]. rewrite Hb2, lookup_insert_ne, Hb1, lookup_insert_ne; [done|congruence|congruence]. }
  destruct K' as [_ Hl' Hv' Hs' Hw' _ Hsl']. split; try done.
  - apply Forall2_app; [done|]. constructor; [|constructor].
    split; cbn [y fst snd str_capacity m' put_bytes blocks]; [|by rewrite Hb2, lookup_insert_ne, Hb1, lookup_insert_eq|done].
    split; cbn [str str_length str_capacity m' put_bytes blocks bytes]; [done|rewrite Hb2; apply lookup_insert_eq|done|done|].
    split; [|by apply Forall_nil]. apply arr_cons. split; [apply lookup_insert_eq|apply arr_length_0].
  - rewrite owned_app. apply NoDup_app. split; [done|]. cbn [y fst snd str].
    split; [|apply NoDup_cons; rewrite list_elem_of_singleton; split; [done|apply NoDup_singleton]].
    intros q Hq. destruct (owned_live _ _ _ _ _ _ K Hq) as [k Hqk].
    rewrite elem_of_cons, list_elem_of_singleton. intros [->| ->]; congruence.
Qed.

Lemma sinv_last m v pushed all ws cur w :
  sinv m v pushed (all ++ [cur]) (ws ++ [w]) -> Forall2 (srep m) all ws /\ srep m cur w.
Proof.
  intros K. pose proof (sv_words _ _ _ _ _ K) as Hw.
  apply Forall2_app_inv in Hw as [Hw Hcur]; [by apply Forall2_cons in Hcur as [? _]|].
  apply Forall2_length in Hw. rewrite !length_app in Hw. cbn in Hw. lia.
Qed.

(** One more character for the last string. *)
Lemma sinv_append m v pushed all ws cur w c :
  sinv m v pushed (all ++ [cur]) (ws ++ [w]) -> 0 < c < 256 -> length w + 1 < STRING_MIN_SIZE ->
  exists st m', ksappend_char cur.2 c m = Ret ((0, st), m') /\ sinv m' v pushed (all ++ [(cur.1, st)]) (ws ++ [w ++ [c]]).
Proof.
  intros K Hc Hlen. destruct (sinv_last _ _ _ _ _ _ _ K) as [Hws Hcur]. pose proof K as [Hh Hl Hv Hs _ Hown Hsl].
  pose proof Hcur as [Hr Hst Hcap]. pose proof Hr as [_ Hbl [Hpos Hlim] [Hll Hlt] [Ha Hch]].
  pose proof (append_char_run m cur.2 w c Hll ltac:(rewrite Hcap; lia) Hlim ltac:(lia) (ks_mapped _ _ _ Hr)) as E.
  set (m' := put_bytes _ m) in E. set (st := Str _ _ _) in E. exists st, m'. split; [done|].
  assert (Hh' : heap_ok m') by (by apply heap_ok_blit).
  assert (Hk : forall q, q <> str cur.2 -> kept m m' q).
  { intros q Hq. eapply kept_outside; [exact Hh|exact Hbl|exact Hq|done|]. intros a y Hy Hout. cbn [m' put_bytes bytes].
    rewrite blit_out; [done|]. cbn [length]. lia. }
  rewrite owned_app in Hown. pose proof Hown as Hown0. apply NoDup_app in Hown0 as (_ & Hne & Hne2).
  assert (Hk' : forall q, q ∈ owned v all -> kept m m' q).
  { intros q Hq. apply Hk. intros ->. apply (Hne _ Hq). right. by left. }
  split; try done.
  - apply (ks_rep_kept m); [done|apply Hk'; by left|done].
  - apply (vec_rep_kept m); [done|apply Hk'; right; by left|done].
  - apply Forall2_app; [|constructor; [|constructor]].
    + apply (words_kept m); [done| |done]. intros x Hx. split; apply Hk'; [by apply owned_struct|by apply owned_buffer].
    + split; cbn [fst snd]; [|exact Hst|exact Hcap]. split; cbn [st str str_length str_capacity]; [done|done|done| |].
      * rewrite length_app. cbn [length]. split; [lia|]. rewrite Hcap. lia.
      * split; [|apply Forall_app; split; [done|by apply Forall_singleton]]. rewrite <- app_assoc. apply arr_app. split.
        -- apply arr_app in Ha as [Ha _]. eapply arr_frame; [|exact Ha]. intros a Hin. cbn [m' put_bytes bytes].
           apply blit_out. lia.
        -- cbn [m' put_bytes bytes]. apply (arr_blit _ [c; 0]).
  - rewrite owned_app. exact Hown.
  - split; [|apply Hsl]. cbn [m' put_bytes bytes]. apply mapped_blit, Hsl.
Qed.

(** Giving the last string back. *)
Lemma sinv_free m v pushed all ws cur w :
  sinv m v pushed (all ++ [cur]) (ws ++ [w]) ->
  exists m', ksfree (Some cur) m = Ret (tt, m') /\ sinv m' v pushed all ws.
Proof.
  intros K. destruct (sinv_last _ _ _ _ _ _ _ K) as [Hws [[_ Hbl [Hpos _] _ _] Hst Hcap]]. pose proof K as [Hh Hl Hv Hs _ Hown Hsl].
  destruct cur as [a st]. cbn [fst snd] in *. unfold ksfree. rewrite (proj2 (Z.eqb_neq (str st) 0)) by lia.
  destruct (kfree_run m (str st) _ Hh Hbl) as (m1 & E1 & Hh1 & B1 & O1). rewrite (M_bind_run _ _ _ _ _ E1).
  assert (Hne : a <> str st) by (intros Heq; rewrite Heq, Hbl, Hcap in Hst; done).
  assert (Hst1 : blocks m1 !! a = Some STRING_SIZE) by (by rewrite B1, lookup_delete_ne).
  destruct (kfree_run m1 a _ Hh1 Hst1) as (m2 & E2 & Hh2 & B2 & O2). exists m2. split; [done|].
  rewrite owned_app in Hown. apply NoDup_app in Hown as (Hown & Hout & _). cbn [fst snd] in Hout.
  assert (K0 : sinv m v pushed all ws) by (split; done). apply (sinv_frame m); [done|done| |].
  - apply (off_heap_grown m); [done| |].
    + intros q n. rewrite B2, lookup_delete_Some, B1, lookup_delete_Some. by left; naive_solver.
    + intros p x Hp Hx. exists x. rewrite O2, O1; [done|..]; intros Hc; [by apply (proj2 Hsl _ _ _ Hbl Hc)|by apply (proj2 Hsl _ _ _ Hst Hc)].
  - intros q Hq. specialize (Hout q Hq). rewrite elem_of_cons, list_elem_of_singleton in Hout. eapply kept_trans.
    + eapply kept_outside; [exact Hh|exact Hbl|tauto| |]; [intros n Hn; rewrite B1, lookup_delete_ne; [done|naive_solver]|].
      intros x y Hy Hx. by rewrite O1.
    + eapply kept_outside; [exact Hh1|exact Hst1|tauto| |]; [intros n Hn; rewrite B2, lookup_delete_ne; [done|naive_solver]|].
      intros x y Hy Hx. by rewrite O2.
Qed.

(** ** The loop *)

(** The structures of the strings that have been pushed are known. *)
Definition known_in (objs : gmap Z string) (strs : list (Z * string)) : Prop := forall x, x ∈ strs -> objs !! x.1 = Some x.2.

Lemma known_keep m v pushed strs ws cur objs :
  sinv m v pushed (strs ++ [cur]) ws -> known_in objs strs -> known_in (keep (Some cur) objs) (strs ++ [cur]).
Proof.
  intros K Hk x Hx. destruct cur as [a st]. cbn [keep]. apply elem_of_app in Hx as [Hx| ->%list_elem_of_singleton]; [|apply lookup_insert_eq].
  rewrite lookup_insert_ne; [by apply Hk|]. pose proof (sv_own _ _ _ _ _ K) as Ho. rewrite owned_app in Ho.
  apply NoDup_app in Ho as (_ & Ho & _). intros ->. apply (Ho x.1); [by apply owned_struct|by left].
Qed.

Lemma split_loop_run c rest : forall pre m v strs ws cur w objs,
  text = pre ++ rest -> sinv m v strs (strs ++ [cur]) (ws ++ [w]) -> v_size v <= cap + length pre -> known_in objs strs ->
  Forall (fun x => length x < STRING_MIN_SIZE) (split c w rest) ->
  exists m' v' strs' ws' cur' w' objs',
    kssplit_loop slot (length rest) (str s + length pre) c (Some cur) v objs m = Ret ((Some cur', v', objs'), m') /\
    sinv m' v' strs' (strs' ++ [cur']) (ws' ++ [w']) /\ v_size v' <= cap + length text /\ known_in objs' strs' /\
    ws' ++ split c w' [] = ws ++ split c w rest.
Proof.
  induction rest as [|x rest IH]; intros pre m v strs ws cur w objs Ht K Hsz Hko Hsh.
  { exists m, v, strs, ws, cur, w, objs. split_and!; try done. rewrite Ht, app_nil_r. lia. }
  assert (Hx : bytes m !! (str s + length pre) = Some x /\ 0 < x < 256).
  { destruct (kr_text _ _ _ (sv_line _ _ _ _ _ K)) as [Ha Hc]. split.
    - apply Ha. rewrite Ht, <- app_assoc. by apply list_lookup_middle.
    - unfold char_list in Hc. rewrite Forall_forall in Hc. apply Hc. rewrite Ht. apply elem_of_app. right. by left. }
  destruct Hx as [Hx Hb]. cbn [kssplit_loop length split] in *. rewrite (M_bind_run _ _ _ _ _ (rdb_run _ _ _ Hx)).
  assert (Ht' : text = (pre ++ [x]) ++ rest) by (by rewrite <- app_assoc).
  assert (Hlen : length (pre ++ [x]) = S (length pre)) by (rewrite length_app; cbn; lia).
  assert (Epos : str s + length pre + 1 = str s + length (pre ++ [x])) by lia.
  assert (Htl : length text = (S (length pre) + length rest)%nat) by (rewrite Ht', length_app; lia).
  destruct (Z.eqb_spec x c) as [->|Hne].
  - destruct (sinv_push _ _ _ _ _ cur K) as (v1 & m1 & E1 & K1 & Hs1); [lia|].
    replace (ptr (Some cur)) with cur.1 by (by destruct cur). rewrite (M_bind_run _ _ _ _ _ E1).
    destruct (sinv_new _ _ _ _ _ K1) as (y & m2 & E2 & K2). rewrite (M_bind_run _ _ _ _ _ E2), Epos.
    apply Forall_cons in Hsh as [_ Hsh].
    destruct (IH _ _ _ _ _ _ _ _ Ht' K2 ltac:(lia) (known_keep _ _ _ _ _ _ _ K Hko) Hsh)
      as (m' & v' & strs' & ws' & cur' & w' & objs' & E & K' & Hs' & Hk' & Hw).
    exists m', v', strs', ws', cur', w', objs'. split_and!; try done. by rewrite Hw, <- app_assoc.
  - destruct cur as [a st]. rewrite (M_bind_run _ _ _ _ _ (rdb_run _ _ _ Hx)).
    assert (Hlw : length w + 1 < STRING_MIN_SIZE).
    { apply (split_short c rest (w ++ [x])) in Hsh. rewrite length_app in Hsh. cbn in Hsh. lia. }
    destruct (sinv_append _ _ _ _ _ _ _ x K Hb Hlw) as (st' & m1 & E1 & K1). cbn [snd fst] in *.
    rewrite (M_bind_run _ _ _ _ _ E1). cbv beta iota. rewrite Epos. apply (IH _ _ _ _ _ _ _ _ Ht' K1); [lia|done|done].
Qed.

Lemma kssplit_run c m v :
  sinv m v [] [] [] -> v_size v <= cap -> Forall (fun x => length x < STRING_MIN_SIZE) (split c [] text) ->
  exists m' v' strs objs, kssplit slot s c v m = Ret ((0, v', objs), m') /\
    sinv m' v' strs strs (split c [] text) /\ known_in objs strs.
Proof.
  intros K Hsz Hsh. unfold kssplit. destruct (sinv_new _ _ _ _ _ K) as (x & m1 & E1 & K1). rewrite (M_bind_run _ _ _ _ _ E1).
  destruct (kr_len _ _ _ (sv_line _ _ _ _ _ K)) as [-> _]. rewrite Nat2Z.id.
  destruct (split_loop_run c text [] m1 v [] [] x [] ∅ eq_refl K1 ltac:(cbn; lia)) as
    (m2 & v2 & strs & ws & cur & w & objs & E2 & K2 & Hs2 & Hk2 & Hw); [by intros ? ?%not_elem_of_nil|done|].
  cbn [length] in E2. rewrite Z.add_0_r in E2. rewrite (M_bind_run _ _ _ _ _ E2). cbn [app] in Hw. destruct cur as [a st].
  destruct (sinv_last _ _ _ _ _ _ _ K2) as [_ Hcur]. unfold string_empty.
  destruct (kr_len _ _ _ (sr_rep _ _ _ Hcur)) as [Hl _]. cbn [snd] in Hl. rewrite Hl. rewrite <- Hw.
  destruct w as [|z w]; cbn [length split].
  - change (negb (Z.of_nat 0 =? 0)) with false. cbv iota. rewrite app_nil_r.
    destruct (sinv_free _ _ _ _ _ _ _ K2) as (m' & E & K'). rewrite (M_bind_run _ _ _ _ _ E). by exists m', v2, strs, objs.
  - rewrite (proj2 (Z.eqb_neq (S (length w)) 0)) by lia. cbn [negb].
    destruct (sinv_push _ _ _ _ _ (a, st) K2 Hs2) as (v' & m' & E & K' & _). cbn [fst] in E. rewrite (M_bind_run _ _ _ _ _ E).
    exists m', v', (strs ++ [(a, st)]), (keep (Some (a, st)) objs). split_and!; [done|done|by eapply known_keep].
Qed.
End Split.

(** C26. Splitting a line into words.  Hypotheses: memory is not exhausted,
    every word is shorter than the 32 bytes of a new string, the vector has
    elements of 4 bytes and its block is not the line's, and the numbers of
    elements stay below 2^25.  Then [kssplit] answers 0 and appends to the
    vector, growing it as needed, one pointer for every word, in order; each
    points to a string with a structure and a buffer of its own that holds
    the word; the line and the old elements are as they were.  The words do
    not contain the separator; each followed by it, they make up the line,
    with a separator added at its end when it has none there. *)
Theorem kssplit_ok `{KHeap} (slot c : Z) (s : string) (text : list Z) (v : vector) (els : list (list Z)) (m : cmem) :
  (forall m n, kalloc m n <> None) -> ks_rep m s text -> vec_rep m v els ->
  v_element_size v = 4 -> v_base v <> str s -> v_capacity v + length text < 2 ^ 25 -> off_heap m slot ->
  Forall (fun x => length x < STRING_MIN_SIZE) (split c [] text) ->
  exists m' v' strs objs words,
    kssplit slot s c v m = Ret ((0, v', objs), m') /\ ks_rep m' s text /\
    vec_rep m' v' (els ++ ((fun x => le32 (u32 x.1)) <$> strs)) /\
    known_in objs strs /\ Forall2 (srep m') strs words /\ NoDup (owned s v' strs) /\
    Forall (fun w => c ∉ w) words /\ concat ((fun w => w ++ [c]) <$> words) = closed c text.
Proof.
  intros Hal Hs Hv He Hne Hcap Hsl Hsh. pose proof (vr_size _ _ _ Hv) as [Hsz Hle]. pose proof (vr_pos _ _ _ Hv) as (_ & Hcp & _).
  destruct (kssplit_run Hal slot s text (v_capacity v) els ltac:(lia) c m v) as (m' & v' & strs & objs & E & K & Hk); [|done|done|].
  - split; [apply Hs|done|by rewrite app_nil_r|split; [done|lia]|constructor| |done].
    unfold owned. cbn. rewrite !NoDup_cons, list_elem_of_singleton. split_and!; [congruence|apply not_elem_of_nil|by apply NoDup_nil].
  - destruct (split_words c text [] ltac:(apply not_elem_of_nil)) as [Hj Hc]. destruct K.
    exists m', v', strs, objs, (split c [] text). by split_and!.
Qed.

(** *** Example *)

(** The line "a bc" in a buffer of 32 bytes at 100, a vector with room for
    one pointer at 200, and a stack at 300. *)
Definition line_text : list Z := [97; 32; 98; 99].
Definition line_mem : cmem :=
  CMem (blit 100 (line_text ++ replicate 28 0) (blit 200 (replicate 4 0) (blit 300 (replicate 4 0) ∅))) {[100 := 32; 200 := 4]}.
Definition line : string := Str 100 4 32.
Definition words_vec : vector := Vector 200 4 0 1.

Lemma line_heap : heap_ok line_mem.
Proof.
  assert (H1 : mapped (bytes line_mem) 100 32) by (apply (arr_mapped _ 100 (line_text ++ replicate 28 0)), arr_blit).
  assert (H2 : mapped (bytes line_mem) 200 4)
    by (apply mapped_blit, (arr_mapped _ 200 (replicate 4 0)), arr_blit).
  split; cbn [line_mem blocks].
  - intros a n [[<- <-]|[_ [<- <-]%lookup_singleton_Some]]%lookup_insert_Some; (split; [lia|done]).
  - intros a n b k [[<- <-]|[_ [<- <-]%lookup_singleton_Some]]%lookup_insert_Some
      [[<- <-]|[_ [<- <-]%lookup_singleton_Some]]%lookup_insert_Some; lia.
Qed.

Lemma line_rep : ks_rep line_mem line line_text.
Proof.
  assert (Ha : arr (bytes line_mem) 100 (line_text ++ replicate 28 0)) by apply arr_blit.
  split; cbn [line str str_length str_capacity]; [exact line_heap|done|done|done|].
  split; [|unfold line_text; repeat (apply Forall_cons; split; [lia|]); by apply Forall_nil].
  apply (proj1 (arr_app _ _ (line_text ++ [0]) (replicate 27 0))). by rewrite <- app_assoc.
Qed.

Lemma line_vec : vec_rep line_mem words_vec [].
Proof. split; cbn [words_vec v_base v_element_size v_size v_capacity]; [exact line_heap|done|done|done|done|done|apply arr_length_0]. Qed.

Lemma line_slot : off_heap line_mem 300.
Proof.
  split; [do 2 apply mapped_blit; apply (arr_mapped _ 300 (replicate 4 0)), arr_blit|].
  intros q n p Hq. cbn [line_mem blocks] in Hq.
  apply lookup_insert_Some in Hq as [[<- <-]|[_ [<- <-]%lookup_singleton_Some]]; lia.
Qed.

Lemma kssplit_ok_witness :
  Forall (fun x => Z.of_nat (length x) < STRING_MIN_SIZE) (split 32 [] line_text) /\
  exists m' v' strs objs words, @kssplit bump_heap 300 line 32 words_vec line_mem = Ret ((0, v', objs), m') /\
    vec_rep m' v' ((fun x => le32 (u32 x.1)) <$> strs) /\
    Forall2 (srep m') strs words /\ concat ((fun w => w ++ [32]) <$> words) = [97; 32; 98; 99; 32].
Proof.
  assert (Hs : Forall (fun x => Z.of_nat (length x) < STRING_MIN_SIZE) (split 32 [] line_text)) by (by repeat constructor).
  split; [exact Hs|].
  destruct (@kssplit_ok bump_heap 300 32 line line_text words_vec [] line_mem)
    as (m' & v' & strs & objs & words & E & _ & Hv & _ & Hw & _ & _ & Hc);
    [done|exact line_rep|exact line_vec|done|done|done|exact line_slot|exact Hs|].
  exists m', v', strs, objs, words. split; [exact E|]. split; [exact Hv|]. split; [exact Hw|exact Hc].
Defined.
