(* ===== verification/Vmalloc.v ===== *)
(** * Virtual memory areas (mm/vmalloc.c)

    The range below the kernel is cut into areas, kept in address order in
    [vma_list]; the free ones are also in a list per order, the others in a
    tree that maps their addresses to them.  [vinv] is the representation
    invariant.  The components below are reached through interfaces: the
    tree ([AreaTree], with the red-black tree of libs/rb_tree.c as an
    instance), the heap for the descriptors ([VHeap]), the page tables and
    the page allocator (PageTable.v and Page.v themselves). *)

From stdpp Require Import base numbers list gmap sets.
From Stdlib Require Import ZArith Lia ZifyBool ZifyNat.
From S2P Require Import Prelude Bitops Lock ListNode Buddy Page PageTable.

Open Scope Z_scope.

Definition MAX_VMA_ORDER : Z := 20.

(** [struct vm_area] of include/mm.h without its two list nodes; [vm_pages]
    is the address of the array of page pointers. *)
Record vm_area := VmArea {
  vm_start : Z;
  vm_end : Z;
  vm_free : bool;
  vm_pages : option Z;
  nr_pages : Z
}.

(** Node addresses: the heads, and the two nodes of an area. *)
Inductive vloc : Type :=
  | VmaList
  | FreeVmaLists (order : Z)
  | VNode (vma : Z)
  | VFreeNode (vma : Z).

#[export] Instance vloc_eq_dec : EqDecision vloc.
Proof. solve_decision. Defined.
#[export] Instance vloc_countable : Countable vloc.
Proof.
  refine (inj_countable'
    (fun l => match l with
      | VmaList => (0, 0) | FreeVmaLists o => (1, o) | VNode a => (2, a) | VFreeNode a => (3, a) end)
    (fun t => match t.1 with
      | 0 => VmaList | 1 => FreeVmaLists t.2 | 2 => VNode t.2 | _ => VFreeNode t.2 end) _).
  by intros [].
Defined.

(** What the areas need from the tree: [at_inv t X] says that [X] is the set
    of (start, end, value) it holds, [at_room t] that there is memory for one
    more node. *)
Class AreaTree := {
  at_tree : Type;
  at_empty : at_tree;
  at_insert : Z -> Z -> Z -> M at_tree (option Z);
  at_search : Z -> M at_tree (option Z);
  at_value : Z -> M at_tree Z;
  at_remove : Z -> M at_tree Z;
  at_inv : at_tree -> gset (Z * Z * Z) -> Prop;
  at_room : at_tree -> bool;
  at_empty_ok : at_inv at_empty ∅;
  at_insert_ok : forall t X st en v, at_inv t X -> st <= en ->
    (forall a b w, (a, b, w) ∈ X -> b < st \/ en < a) ->
    exists r t', at_insert st en v t = Ret (r, t') /\
      at_inv t' (if at_room t then {[(st, en, v)]} ∪ X else X);
  at_search_ok : forall t X k, at_inv t X -> exists r, at_search k t = Ret (r, t) /\
      match r with
      | Some n => exists a b v, (a, b, v) ∈ X /\ a <= k <= b /\ at_value n t = Ret (v, t)
      | None => forall a b v, (a, b, v) ∈ X -> ~ a <= k <= b
      end;
  at_remove_ok : forall t X k st en v, at_inv t X -> (st, en, v) ∈ X -> st <= k <= en ->
    exists t', at_remove k t = Ret (0, t') /\ at_inv t' (X ∖ {[(st, en, v)]})
}.

(** What [kmalloc] gives for a [struct vm_area] and for an array of page
    pointers, as a function of what is in use; [junk] is what the fields of
    a new area hold, [junk_vma] what an uninitialised pointer holds. *)
Class VHeap := {
  new_vma : gmap Z vm_area -> option Z;
  new_array : gmap Z (list Z) -> Z -> option Z;
  junk : vm_area;
  junk_vma : option Z;
  new_vma_fresh : forall m a, new_vma m = Some a -> m !! a = None;
  new_array_fresh : forall m n a, new_array m n = Some a -> m !! a = None
}.

#[export, refine] Instance vloc_shape : FreeListShape vloc unit := {|
  fl_head := fun _ o => FreeVmaLists o;
  fl_node := VFreeNode;
  fl_zone := fun _ => tt
|}.
Proof.
  - by intros [] o [] o' [= ->].
  - by intros i j [= ->].
  - by intros [] o i.
Defined.

Section Vmalloc.
Context `{AT : AreaTree} `{VH : VHeap}.

(** [kpgdir] is [current->proc->mm->pgdir]; [vpt] holds the page tables and,
    in them, the page allocator. *)
Record vmem := VMem {
  vmas : gmap Z vm_area;
  vnodes : gmap vloc (list_node vloc);
  vma_tree : at_tree;
  vma_lock : Z;
  arrays : gmap Z (list Z);
  vpt : ptm;
  kpgdir : Z
}.

Definition with_vmas (x : gmap Z vm_area) (s : vmem) : vmem :=
  VMem x (vnodes s) (vma_tree s) (vma_lock s) (arrays s) (vpt s) (kpgdir s).
Definition with_vnodes (x : gmap vloc (list_node vloc)) (s : vmem) : vmem :=
  VMem (vmas s) x (vma_tree s) (vma_lock s) (arrays s) (vpt s) (kpgdir s).
Definition with_vtree (x : at_tree) (s : vmem) : vmem :=
  VMem (vmas s) (vnodes s) x (vma_lock s) (arrays s) (vpt s) (kpgdir s).
Definition with_vlock (x : Z) (s : vmem) : vmem :=
  VMem (vmas s) (vnodes s) (vma_tree s) x (arrays s) (vpt s) (kpgdir s).
Definition with_arrays (x : gmap Z (list Z)) (s : vmem) : vmem :=
  VMem (vmas s) (vnodes s) (vma_tree s) (vma_lock s) x (vpt s) (kpgdir s).
Definition with_vpt (x : ptm) (s : vmem) : vmem :=
  VMem (vmas s) (vnodes s) (vma_tree s) (vma_lock s) (arrays s) x (kpgdir s).

(** Running a step of a part of the state. *)
Definition on_part {P A} (get : vmem -> P) (put : P -> vmem -> vmem) (m : M P A) : M vmem A := fun s =>
  match m (get s) with
  | Ret (a, p) => Ret (a, put p s) | Bug => Bug | Fault => Fault | Spin => Spin
  end.
Definition on_vnodes (f : gmap vloc (list_node vloc) -> outcome (gmap vloc (list_node vloc))) : M vmem unit :=
  on_part vnodes with_vnodes (fun n => m ← f n; Ret (tt, m)).
Definition on_vtree {A} (m : M at_tree A) : M vmem A := on_part vma_tree with_vtree m.
Definition on_vpt {A} (m : M ptm A) : M vmem A := on_part vpt with_vpt m.
Definition lock_vma : M vmem unit :=
  on_part vma_lock with_vlock (fun v => v' ← spin_lock v; Ret (tt, v')).
Definition unlock_vma : M vmem unit :=
  on_part vma_lock with_vlock (fun v => Ret (tt, spin_unlock v)).

(** The page allocator inside the page tables' state. *)
Definition on_pages {A} (m : M pmem A) : M vmem A := on_vpt (fun s =>
  match m (falloc s) with
  | Ret (a, f) => Ret (a, PTM (words s) f (cr0 s) (cr3 s) (tlb s))
  | Bug => Bug | Fault => Fault | Spin => Spin
  end).

Definition get_vma (a : Z) : M vmem vm_area := fun s =>
  match vmas s !! a with Some v => Ret (v, s) | None => Fault end.
Definition put_vma (a : Z) (v : vm_area) : M vmem unit := fun s =>
  match vmas s !! a with Some _ => Ret (tt, with_vmas (<[a := v]> (vmas s)) s) | None => Fault end.
Definition upd_vma (a : Z) (f : vm_area -> vm_area) : M vmem unit :=
  v ← get_vma a; put_vma a (f v).

Definition with_start (x : Z) (v : vm_area) := VmArea x (vm_end v) (vm_free v) (vm_pages v) (nr_pages v).
Definition with_end (x : Z) (v : vm_area) := VmArea (vm_start v) x (vm_free v) (vm_pages v) (nr_pages v).
Definition with_free (x : bool) (v : vm_area) := VmArea (vm_start v) (vm_end v) x (vm_pages v) (nr_pages v).
Definition with_pages (p : option Z) (n : Z) (v : vm_area) := VmArea (vm_start v) (vm_end v) (vm_free v) p n.

Definition kmalloc_vma : M vmem (option Z) := fun s =>
  match new_vma (vmas s) with
  | Some a => Ret (Some a, with_vmas (<[a := junk]> (vmas s)) s)
  | None => Ret (None, s)
  end.
Definition kfree_vma (a : Z) : M vmem unit := fun s =>
  match vmas s !! a with Some _ => Ret (tt, with_vmas (delete a (vmas s)) s) | None => Fault end.
Definition kmalloc_array (n : Z) : M vmem (option Z) := fun s =>
  match new_array (arrays s) n with
  | Some a => Ret (Some a, with_arrays (<[a := replicate (Z.to_nat n) 0]> (arrays s)) s)
  | None => Ret (None, s)
  end.
(** [kfree(NULL)] and a pointer that is not a block are faults. *)
Definition kfree_array (p : option Z) : M vmem unit := fun s =>
  match p with
  | Some a => match arrays s !! a with
              | Some _ => Ret (tt, with_arrays (delete a (arrays s)) s) | None => Fault end
  | None => Fault
  end.
(** [pages[i]], and the assignment to it. *)
Definition get_entry (p : option Z) (i : Z) : M vmem Z := fun s =>
  match p with
  | Some a =>
      match arrays s !! a with
      | Some l => match l !! Z.to_nat i with Some x => Ret (x, s) | None => Fault end
      | None => Fault
      end
  | None => Fault
  end.
Definition set_entry (a i x : Z) : M vmem unit := fun s =>
  match arrays s !! a with
  | Some l => if i <? Z.of_nat (length l) then
      Ret (tt, with_arrays (<[a := <[Z.to_nat i := x]> l]> (arrays s)) s) else Fault
  | None => Fault
  end.

(** ** mm/vmalloc.c *)

Definition vma_length (v : vm_area) : Z := u32 (vm_end v - vm_start v).

(** [container_of(node, struct vm_area, node)], with the head as NULL. *)
Definition vma_of_node (p : option vloc) : outcome (option Z) :=
  match p with Some VmaList => Ret None | Some (VNode b) => Ret (Some b) | _ => Fault end.
Definition vma_of_free_node (p : option vloc) : outcome Z :=
  match p with Some (VFreeNode b) => Ret b | _ => Fault end.

Definition vma_prev (a : Z) : M vmem (option Z) :=
  s ← mget; mlift (vma_of_node (prev (nd (vnodes s) (VNode a)))).
Definition vma_next (a : Z) : M vmem (option Z) :=
  s ← mget; mlift (vma_of_node (next (nd (vnodes s) (VNode a)))).

Definition find_vma (va : Z) : M vmem (option Z) :=
  _ ← mlift (assert ((VMALLOC_START <=? va) && (va <? VMALLOC_END)));
  _ ← lock_vma;
  node ← on_vtree (at_search va);
  _ ← mlift (assert (if node is Some _ then true else false));
  node ← mlift (deref node);
  vma ← on_vtree (at_value node);
  _ ← lock_vma;
  mret (Some vma).

Fixpoint merge_prev (fuel : nat) (a : Z) : M vmem unit :=
  match fuel with
  | O => fun _ => Spin
  | S fuel =>
      p ← vma_prev a;
      match p with
      | None => mret tt
      | Some p =>
          pv ← get_vma p;
          if vm_free pv then
            v ← get_vma a;
            _ ← mlift (assert (vm_end pv =? vm_start v));
            _ ← upd_vma a (with_start (vm_start pv));
            _ ← on_vnodes (list_remove (VNode p));
            _ ← on_vnodes (list_remove (VFreeNode p));
            _ ← kfree_vma p;
            merge_prev fuel a
          else mret tt
      end
  end.

Fixpoint merge_next (fuel : nat) (a : Z) : M vmem unit :=
  match fuel with
  | O => fun _ => Spin
  | S fuel =>
      n ← vma_next a;
      match n with
      | None => mret tt
      | Some n =>
          nv ← get_vma n;
          if vm_free nv then
            v ← get_vma a;
            _ ← mlift (assert (vm_end v =? vm_start nv));
            _ ← upd_vma a (with_end (vm_end nv));
            _ ← on_vnodes (list_remove (VNode n));
            _ ← on_vnodes (list_remove (VFreeNode n));
            _ ← kfree_vma n;
            merge_next fuel a
          else mret tt
      end
  end.

(** Each iteration frees an area, so their number bounds the loops. *)
Definition free_vma (a : Z) : M vmem unit :=
  v ← get_vma a;
  _ ← mlift (assert ((VMALLOC_START <=? vm_start v) && (vm_end v <? VMALLOC_END)));
  _ ← lock_vma;
  _ ← on_vtree (at_remove (vm_start v));
  s ← mget;
  _ ← merge_prev (S (size (vmas s))) a;
  s ← mget;
  _ ← merge_next (S (size (vmas s))) a;
  _ ← upd_vma a (with_free true);
  unlock_vma.

(** Cutting the area [a] down to [len] bytes: a new area takes the rest.
    The boolean tells that the code jumps to [not_found]. *)
Definition split_vma (len a : Z) : M vmem bool :=
  b ← kmalloc_vma;
  match b with
  | None => mret true
  | Some b =>
      v ← get_vma a;
      _ ← upd_vma b (with_end (vm_end v));
      _ ← upd_vma a (with_end (u32 (vm_start v + len)));
      v ← get_vma a;
      _ ← upd_vma b (with_start (vm_end v));
      _ ← upd_vma b (with_free true);
      bv ← get_vma b;
      let buddy_order := ilog2 (Z.shiftr (vma_length bv) PAGE_SHIFT) in
      _ ← mlift (assert (buddy_order <=? MAX_VMA_ORDER));
      _ ← on_vnodes (list_insert (VNode a) (VNode b));
      _ ← on_vnodes (list_insert (FreeVmaLists buddy_order) (VFreeNode b));
      mret false
  end.

(** The body of the search loop once a list is found not to be empty. *)
Definition take_vma (len a : Z) : M vmem bool :=
  v ← get_vma a;
  _ ← mlift (assert (vm_free v && (len <=? u32 (vm_end v - vm_start v))));
  failed ← (if u32 (len + PAGE_SIZE) <=? vma_length v then split_vma len a else mret false);
  if (failed : bool) then mret true
  else
    _ ← on_vnodes (list_remove (VFreeNode a));
    _ ← upd_vma a (with_free false);
    v ← get_vma a;
    _ ← on_vtree (at_insert (vm_start v) (u32 (vm_end v - 1)) a);
    mret false.

(** The loop over orders.  When no list has an area, the loop ends at [out]
    with [vma] never assigned. *)
Fixpoint alloc_vma_loop (fuel : nat) (i len : Z) : M vmem (option Z) :=
  match fuel with
  | O => fun _ => Spin
  | S fuel =>
      if i <=? MAX_VMA_ORDER then
        s ← mget;
        if list_empty (FreeVmaLists i) (vnodes s) then alloc_vma_loop fuel (u32 (i + 1)) len
        else
          a ← mlift (vma_of_free_node (list_next (FreeVmaLists i) (vnodes s)));
          failed ← take_vma len a;
          _ ← unlock_vma;
          mret (if (failed : bool) then None else Some a)
      else
        _ ← unlock_vma;
        mret junk_vma
  end.

Definition alloc_vma (len : Z) : M vmem (option Z) :=
  let order := ilog2_roundup (Z.shiftr len PAGE_SHIFT) in
  _ ← lock_vma;
  alloc_vma_loop 22 order len.

Definition kernel_map (va pa sz flag : Z) : M vmem unit :=
  s ← mget; on_vpt (page_map (kpgdir s) va pa sz flag).
Definition kernel_unmap (va sz : Z) : M vmem unit :=
  s ← mget; on_vpt (page_unmap (kpgdir s) va sz).

Fixpoint map_pages (n : nat) (i va : Z) (pages : option Z) : M vmem unit :=
  match n with
  | O => mret tt
  | S n =>
      p ← get_entry pages i;
      _ ← kernel_map va (page_to_phys p) PAGE_SIZE PTE_W;
      map_pages n (i + 1) (u32 (va + PAGE_SIZE)) pages
  end.
Definition map_vm_area (a : Z) (pages : option Z) (nr : Z) : M vmem Z :=
  v ← get_vma a;
  _ ← map_pages (Z.to_nat nr) 0 (vm_start v) pages;
  _ ← upd_vma a (with_pages pages nr);
  mret 0.

Definition vmap (pages : option Z) (nr : Z) : M vmem (option Z) :=
  vma ← alloc_vma (u32 (nr * PAGE_SIZE));
  match vma with
  | None => mret None
  | Some a =>
      _ ← map_vm_area a pages nr;
      v ← get_vma a;
      mret (Some (vm_start v))
  end.

Definition vunmap (va : Z) : M vmem unit :=
  vma ← find_vma va;
  match vma with
  | None => mret tt
  | Some a =>
      v ← get_vma a;
      _ ← kernel_unmap (vm_start v) (vma_length v);
      free_vma a
  end.

(** The allocation loop of [__vmalloc]: the number of pages allocated, which
    is less than [n] when [alloc_page] fails. *)
Fixpoint alloc_entries (n : nat) (gfp_mask pages i : Z) : M vmem Z :=
  match n with
  | O => mret i
  | S n =>
      p ← on_pages (alloc_page gfp_mask);
      match p with
      | None => mret i
      | Some p => _ ← set_entry pages i p; alloc_entries n gfp_mask pages (i + 1)
      end
  end.

(** [while (i--) free_pages(vma->pages[i])]: through the pointer in the
    area, which has not been assigned yet. *)
Fixpoint free_entries_down (n : nat) (pages : option Z) : M vmem unit :=
  match n with
  | O => mret tt
  | S n =>
      p ← get_entry pages (Z.of_nat n);
      _ ← on_pages (free_pages p);
      free_entries_down n pages
  end.

Definition vmalloc_pages (gfp_mask size : Z) : M vmem (option Z) :=
  _ ← mlift (WARN_ON (size <? PAGE_SIZE));
  let size := round_up_page size in
  vma ← alloc_vma size;
  match vma with
  | None => mret None
  | Some a =>
      let nr := Z.shiftr size PAGE_SHIFT in
      pages ← kmalloc_array nr;
      match pages with
      | None => _ ← free_vma a; mret None
      | Some pages =>
          i ← alloc_entries (Z.to_nat nr) gfp_mask pages 0;
          if i <? nr then
            v ← get_vma a;
            _ ← free_entries_down (Z.to_nat i) (vm_pages v);
            _ ← kfree_array (vm_pages v);
            _ ← free_vma a;
            mret None
          else
            _ ← map_vm_area a (Some pages) nr;
            v ← get_vma a;
            mret (Some (vm_start v))
      end
  end.

Definition vmalloc (size : Z) : M vmem (option Z) :=
  ptr ← vmalloc_pages GFP_HIGHMEM size;
  match ptr with
  | Some _ => mret ptr
  | None => vmalloc_pages GFP_NORMAL size
  end.

Fixpoint free_entries (n : nat) (i : Z) (pages : option Z) : M vmem unit :=
  match n with
  | O => mret tt
  | S n =>
      p ← get_entry pages i;
      _ ← on_pages (free_pages p);
      free_entries n (i + 1) pages
  end.

Definition vfree (va : Z) : M vmem unit :=
  if va =? 0 then mret tt
  else
    vma ← find_vma va;
    match vma with
    | None => mret tt
    | Some a =>
        v ← get_vma a;
        _ ← kernel_unmap (vm_start v) (vma_length v);
        v ← get_vma a;
        _ ← free_entries (Z.to_nat (nr_pages v)) 0 (vm_pages v);
        v ← get_vma a;
        _ ← kfree_array (vm_pages v);
        free_vma a
    end.

(** The heads of the free lists [0 .. n - 1]. *)
Fixpoint init_vma_lists (n : nat) (m : gmap vloc (list_node vloc)) : gmap vloc (list_node vloc) :=
  match n with
  | O => m
  | S n => list_init (FreeVmaLists (Z.of_nat n)) (init_vma_lists n m)
  end.

Definition vmalloc_init : M vmem Z :=
  _ ← mmod (fun s => with_vnodes (init_vma_lists (Z.to_nat (MAX_VMA_ORDER + 1)) (vnodes s)) s);
  _ ← mmod (fun s => with_vnodes (list_init VmaList (vnodes s)) s);
  vma ← kmalloc_vma;
  _ ← mlift (assert (if vma is Some _ then true else false));
  a ← mlift (deref vma);
  _ ← upd_vma a (with_start VMALLOC_START);
  _ ← upd_vma a (with_end VMALLOC_END);
  _ ← upd_vma a (with_free true);
  v ← get_vma a;
  let order := ilog2 (Z.shiftr (vma_length v) PAGE_SHIFT) in
  _ ← on_vnodes (list_insert VmaList (VNode a));
  _ ← on_vnodes (list_insert (FreeVmaLists order) (VFreeNode a));
  _ ← mmod (with_vtree at_empty);
  _ ← mmod (with_vlock (counter spinlock_init));
  mret 0.

(** The dumps, as the ranges they print. *)
Fixpoint dump_areas (nodes : list Z) : M vmem (list (bool * Z * Z)) :=
  match nodes with
  | [] => mret []
  | a :: nodes =>
      v ← get_vma a;
      r ← dump_areas nodes;
      mret ((vm_free v, vm_start v, vm_end v) :: r)
  end.
Definition areas_of (l : list vloc) : list Z :=
  omap (fun c => match c with VNode a | VFreeNode a => Some a | _ => None end) l.
Definition dump_vma_list : M vmem (list (bool * Z * Z)) :=
  s ← mget;
  l ← mlift (list_visit (S (size (vnodes s))) VmaList (next (nd (vnodes s) VmaList)) (vnodes s));
  dump_areas (areas_of l).
Fixpoint dump_orders (n : nat) (i : Z) : M vmem (list (Z * list (bool * Z * Z))) :=
  match n with
  | O => mret []
  | S n =>
      s ← mget;
      if list_empty (FreeVmaLists i) (vnodes s) then dump_orders n (i + 1)
      else
        l ← mlift (list_visit (S (size (vnodes s))) (FreeVmaLists i)
                     (next (nd (vnodes s) (FreeVmaLists i))) (vnodes s));
        r ← dump_areas (areas_of l);
        rest ← dump_orders n (i + 1);
        mret ((i, r) :: rest)
  end.
Definition dump_free_vma_lists : M vmem (list (Z * list (bool * Z * Z))) :=
  dump_orders (Z.to_nat (MAX_VMA_ORDER + 1)) 0.

(** ** Representation *)

Definition vma_pages (v : vm_area) : Z := (vm_end v - vm_start v) / 4096.

(** The areas as blocks: order, and whether free. *)
Definition ord_map (m : gmap Z vm_area) : blockmap :=
  (fun v => (Z.log2 (vma_pages v), vm_free v)) <$> m.

(** The areas [xs] fill the range from [lo] to the end, in whole pages. *)
Fixpoint tiles (m : gmap Z vm_area) (lo : Z) (xs : list Z) : Prop :=
  match xs with
  | [] => lo = VMALLOC_END
  | a :: xs => exists v, m !! a = Some v /\ vm_start v = lo /\ lo < vm_end v /\ vm_end v mod 4096 = 0 /\
                         tiles m (vm_end v) xs
  end.

(** [xs]: the areas in address order; [X]: what the tree holds, areas in use
    (not all of them if a tree node could not be allocated). *)
Record vinv (s : vmem) (xs : list Z) (X : gset (Z * Z * Z)) : Prop := VInv {
  vi_list : dll (vnodes s) VmaList (VNode <$> xs);
  vi_dom : forall a, is_Some (vmas s !! a) -> a ∈ xs;
  vi_tiles : tiles (vmas s) VMALLOC_START xs;
  vi_free : lists_ok MAX_VMA_ORDER (vnodes s) (ord_map (vmas s));
  vi_tree : at_inv (vma_tree s) X;
  vi_used : forall st en a, (st, en, a) ∈ X ->
    exists v, vmas s !! a = Some v /\ vm_free v = false /\ st = vm_start v /\ en = vm_end v - 1
}.

Lemma tiles_app m lo pre xs :
  tiles m lo (pre ++ xs) <-> exists mid, lo <= mid /\ (lo mod 4096 = 0 -> mid mod 4096 = 0) /\
    tiles m mid xs /\ forall m' ys, (forall a, a ∈ pre -> m' !! a = m !! a) -> tiles m' mid ys -> tiles m' lo (pre ++ ys).
Proof.
  split.
  - revert lo. induction pre as [|a pre IH]; intros lo Ht.
    { exists lo. split_and!; [lia|done|done|]. by intros m' ys _. }
    destruct Ht as (v & E & E1 & E2 & E3 & Ht). destruct (IH _ Ht) as (mid & H1 & H2 & H3 & H4).
    exists mid. split_and!; [lia|by intros; apply H2|done|]. intros m' ys Hm Hys. cbn [app tiles].
    exists v. rewrite (Hm a) by (by left). split_and!; [done..|]. apply H4; [|done].
    intros x Hx. apply Hm. by right.
  - intros (mid & _ & _ & H3 & H4). by apply H4.
Qed.

(** Every area lies in the range, is page aligned and not empty. *)
Definition area_wf (v : vm_area) : Prop :=
  VMALLOC_START <= vm_start v /\ vm_start v < vm_end v /\ vm_end v <= VMALLOC_END /\
  vm_start v mod 4096 = 0 /\ vm_end v mod 4096 = 0.

Lemma tiles_end m lo xs : tiles m lo xs -> lo <= VMALLOC_END.
Proof.
  revert lo. induction xs as [|a xs IH]; intros lo; cbn [tiles]; [lia|].
  intros (v & _ & _ & ? & _ & Ht). apply IH in Ht. lia.
Qed.

Lemma tiles_wf m xs a v :
  tiles m VMALLOC_START xs -> a ∈ xs -> m !! a = Some v -> area_wf v.
Proof.
  intros Ht Ha E. apply list_elem_of_split in Ha as (pre & post & ->).
  apply tiles_app in Ht as (mid & H1 & H2 & H3 & _). destruct H3 as (v' & E' & E1 & E2 & E3 & Ht).
  rewrite E in E'. injection E' as <-. apply tiles_end in Ht.
  split_and!; [lia|lia|done|rewrite E1; by apply H2|done].
Qed.

Lemma vinv_wf s xs X a v : vinv s xs X -> vmas s !! a = Some v -> area_wf v.
Proof. intros K E. eapply tiles_wf; [apply K| |done]. apply K. eauto. Qed.

Lemma area_pages v : area_wf v ->
  1 <= vma_pages v /\ vm_end v - vm_start v = 4096 * vma_pages v /\ vma_length v = 4096 * vma_pages v /\
  0 <= Z.log2 (vma_pages v) <= MAX_VMA_ORDER.
Proof.
  intros (H1 & H2 & H3 & H4 & H5). unfold vma_pages, vma_length, VMALLOC_START, VMALLOC_END in *.
  change PAGE_SIZE with 4096 in *. change KERNEL_VIRT_BASE with 0xC0000000 in *.
  assert (Hm : (vm_end v - vm_start v) mod 4096 = 0) by (rewrite Zminus_mod, H4, H5; done).
  pose proof (Z.div_mod (vm_end v - vm_start v) 4096 ltac:(lia)) as Hd. rewrite Hm in Hd.
  set (n := (vm_end v - vm_start v) / 4096) in *.
  split_and!; [lia|lia| |apply Z.log2_nonneg|].
  - rewrite wrap_small; [lia|unfold fits; lia].
  - apply Z.lt_succ_r, Z.log2_lt_pow2; unfold MAX_VMA_ORDER; lia.
Qed.

(** Distinct areas do not overlap. *)
Lemma tiles_ge m lo xs a v : tiles m lo xs -> a ∈ xs -> m !! a = Some v -> lo <= vm_start v.
Proof.
  revert lo. induction xs as [|b xs IH]; intros lo Ht Ha E; [by apply elem_of_nil in Ha|].
  destruct Ht as (w & Eb & E1 & E2 & _ & Ht). apply elem_of_cons in Ha as [->|Ha].
  - rewrite E in Eb. injection Eb as <-. lia.
  - specialize (IH _ Ht Ha E). lia.
Qed.

Lemma tiles_disjoint m lo xs a b v w :
  tiles m lo xs -> a ∈ xs -> b ∈ xs -> a <> b -> m !! a = Some v -> m !! b = Some w ->
  vm_end v <= vm_start w \/ vm_end w <= vm_start v.
Proof.
  revert lo. induction xs as [|c xs IH]; intros lo Ht Ha Hb Hne Ea Eb; [by apply elem_of_nil in Ha|].
  destruct Ht as (u & Ec & E1 & E2 & _ & Ht).
  apply elem_of_cons in Ha as [->|Ha]; apply elem_of_cons in Hb as [->|Hb].
  - done.
  - rewrite Ea in Ec. injection Ec as <-. left. by eapply tiles_ge.
  - rewrite Eb in Ec. injection Ec as <-. right. by eapply tiles_ge.
  - by eapply IH.
Qed.

(** ** Running the steps *)

Lemma get_vma_run a v s : vmas s !! a = Some v -> get_vma a s = Ret (v, s).
Proof. intros E. unfold get_vma. by rewrite E. Qed.

Lemma upd_vma_run a v f s : vmas s !! a = Some v ->
  upd_vma a f s = Ret (tt, with_vmas (<[a := f v]> (vmas s)) s).
Proof.
  intros E. unfold upd_vma. rewrite (M_bind_run _ _ _ _ _ (get_vma_run _ _ _ E)).
  unfold put_vma. by rewrite E.
Qed.

(** The same, on a state whose areas have just been replaced. *)
Lemma upd_vma_on a v f m s : m !! a = Some v ->
  upd_vma a f (with_vmas m s) = Ret (tt, with_vmas (<[a := f v]> m) s).
Proof. intros E. by rewrite (upd_vma_run a v). Qed.

Lemma on_vnodes_run f n s : f (vnodes s) = Ret n -> on_vnodes f s = Ret (tt, with_vnodes n s).
Proof. intros E. unfold on_vnodes, on_part. by rewrite E. Qed.

(** What the list operations do not touch. *)
Definition same_rest (s s' : vmem) : Prop :=
  vma_lock s' = vma_lock s /\ arrays s' = arrays s /\ vpt s' = vpt s /\ kpgdir s' = kpgdir s.

(** The two halves of a split. *)
Definition low_part (len : Z) (v : vm_area) : vm_area := with_end (vm_start v + len) v.
Definition high_part (len : Z) (v : vm_area) : vm_area :=
  with_free true (with_start (vm_start v + len) (with_end (vm_end v) junk)).

Lemma ord_map_lookup m a v : m !! a = Some v ->
  ord_map m !! a = Some (Z.log2 (vma_pages v), vm_free v).
Proof. intros E. unfold ord_map. by rewrite lookup_fmap, E. Qed.

Lemma dll_vma_frame (g : blockmap) h n n' xs :
  lists_frame g h n n' -> dll n VmaList (VNode <$> xs) -> dll n' VmaList (VNode <$> xs).
Proof.
  intros Hf. apply dll_frame. intros c Hc. apply Hf.
  - intros z o ->. apply elem_of_cons in Hc as [?|Hc]; [done|]. by apply list_elem_of_fmap in Hc as (? & ? & _).
  - intros ->. apply elem_of_cons in Hc as [?|Hc]; [done|]. by apply list_elem_of_fmap in Hc as (? & ? & _).
  - intros x o _ ->. apply elem_of_cons in Hc as [?|Hc]; [done|]. by apply list_elem_of_fmap in Hc as (? & ? & _).
Qed.

(** A change of the nodes in [vma_list] keeps the free lists. *)
Lemma lists_ok_vnodes n n' g :
  (forall c, (forall a, c <> VNode a) -> c <> VmaList -> nd n' c = nd n c) ->
  lists_ok MAX_VMA_ORDER n g -> lists_ok MAX_VMA_ORDER n' g.
Proof.
  intros Hf [fl Hfl]. exists fl. intros z o Ho. destruct (Hfl z o Ho) as [Hd Hm].
  split; [|done]. apply (dll_frame n); [|done]. intros c Hc. apply Hf.
  - intros a ->. apply elem_of_cons in Hc as [?|Hc]; [done|]. by apply list_elem_of_fmap in Hc as (? & ? & _).
  - intros ->. apply elem_of_cons in Hc as [?|Hc]; [done|]. by apply list_elem_of_fmap in Hc as (? & ? & _).
Qed.

Lemma high_part_wf len v : area_wf v -> len mod 4096 = 0 -> 0 < len < vm_end v - vm_start v ->
  area_wf (low_part len v) /\ area_wf (high_part len v).
Proof.
  intros (H1 & H2 & H3 & H4 & H5) Hm Hl.
  assert ((vm_start v + len) mod 4096 = 0) by (rewrite Zplus_mod, H4, Hm; done).
  unfold area_wf, low_part, high_part, with_end, with_start, with_free. cbn. split_and!; (done || lia).
Qed.

Lemma split_vma_run s pre post X a v b len :
  vinv s (pre ++ a :: post) X -> vmas s !! a = Some v -> len mod 4096 = 0 ->
  0 < len < vm_end v - vm_start v -> new_vma (vmas s) = Some b ->
  exists s', split_vma len a s = Ret (false, s') /\ same_rest s s' /\ vma_tree s' = vma_tree s /\
    (forall x, vmas s' !! x = if decide (x = b) then Some (high_part len v)
                              else if decide (x = a) then Some (low_part len v) else vmas s !! x) /\
    dll (vnodes s') VmaList (VNode <$> pre ++ a :: b :: post) /\
    lists_ok MAX_VMA_ORDER (vnodes s')
      (<[b := (Z.log2 (vma_pages (high_part len v)), true)]> (ord_map (vmas s))).
Proof.
  intros K E Hm Hl Hb. pose proof (vinv_wf _ _ _ _ _ K E) as Hwf.
  destruct (high_part_wf len v Hwf Hm Hl) as [WA WB].
  pose proof (new_vma_fresh _ _ Hb) as Hfresh.
  assert (Hne : a <> b) by congruence.
  assert (Eu : u32 (vm_start v + len) = vm_start v + len).
  { destruct Hwf as (H1 & H2 & H3 & _). unfold VMALLOC_START, VMALLOC_END in *.
    change KERNEL_VIRT_BASE with 0xC0000000 in *. change PAGE_SIZE with 4096 in *.
    apply wrap_small. unfold fits. lia. }
  destruct (area_pages _ WB) as (P1 & P2 & P3 & P4). set (o := Z.log2 (vma_pages (high_part len v))) in *.
  assert (Eo : ilog2 (Z.shiftr (vma_length (high_part len v)) PAGE_SHIFT) = o).
  { rewrite P3. unfold PAGE_SHIFT. rewrite Z.shiftr_div_pow2 by lia. change (2 ^ 12) with 4096.
    rewrite (Z.mul_comm 4096), Z.div_mul by lia. apply ilog2_spec. split; [done|].
    assert (4096 * vma_pages (high_part len v) <= VMALLOC_END); [|unfold VMALLOC_END in *; change KERNEL_VIRT_BASE with 0xC0000000 in *; lia].
    destruct WB as (Q1 & Q2 & Q3 & _). unfold VMALLOC_START in *. change PAGE_SIZE with 4096 in *. lia. }
  (* the two list insertions *)
  pose proof (vi_list _ _ _ K) as Hd. rewrite fmap_app, fmap_cons in Hd.
  assert (Hnb : VNode b ∉ VmaList :: (VNode <$> pre) ++ VNode a :: (VNode <$> post)).
  { rewrite <- fmap_cons, <- fmap_app, not_elem_of_cons. split; [done|].
    intros (x & [= <-] & Hx)%list_elem_of_fmap.
    assert (is_Some (vmas s !! b)) as [? ?]; [|congruence].
    apply list_elem_of_split in Hx as (l1 & l2 & El). pose proof (vi_tiles _ _ _ K) as Ht. rewrite El in Ht.
    apply tiles_app in Ht as (mid & _ & _ & (w & Ew & _) & _). eauto. }
  destruct (list_insert_dll (vnodes s) VmaList ((VNode <$> pre) ++ [VNode a]) (VNode <$> post)
     (VmaList :: (VNode <$> pre)) (VNode a) (VNode b)) as (n1 & E1 & D1 & F1);
    [by rewrite <- app_assoc|by rewrite <- app_assoc|done|].
  rewrite <- app_assoc in D1, F1.
  assert (L1 : lists_ok MAX_VMA_ORDER n1 (ord_map (vmas s))).
  { apply (lists_ok_vnodes (vnodes s)); [|apply K]. intros c Hc Hc'. apply F1. cbn [app].
    rewrite <- fmap_cons, <- fmap_app, !not_elem_of_cons. split_and!; [apply Hc|done|].
    intros (x & -> & _)%list_elem_of_fmap. by eapply Hc. }
  destruct (lists_ok_push MAX_VMA_ORDER n1 (ord_map (vmas s)) b o L1 P4) as (n2 & E2 & L2 & F2).
  { intros o'. unfold ord_map. by rewrite lookup_fmap, Hfresh. }
  set (B1 := with_end (vm_end v) junk). set (A := low_part len v).
  set (B2 := with_start (vm_start v + len) B1). set (B3 := with_free true B2).
  set (m5 := <[b := B3]> (<[b := B2]> (<[a := A]> (<[b := B1]> (<[b := junk]> (vmas s)))))).
  exists (with_vnodes n2 (with_vnodes n1 (with_vmas m5 s))). split.
  { unfold split_vma, kmalloc_vma. unfold mbind at 1, M_bind at 1. rewrite Hb.
    rewrite (M_bind_run _ _ _ _ v) by (apply get_vma_run; cbn; by rewrite lookup_insert_ne).
    erewrite (M_bind_run _ _ _ _ tt); [|apply (upd_vma_run b junk); cbn; by rewrite lookup_insert_eq]. cbn [with_vmas vmas].
    erewrite (M_bind_run _ _ _ _ tt); [|apply (upd_vma_run a v); cbn; by rewrite !lookup_insert_ne]. cbn [with_vmas vmas].
    rewrite Eu. fold (low_part len v). fold A.
    rewrite (M_bind_run _ _ _ _ A) by (apply get_vma_run; cbn; by rewrite lookup_insert_eq).
    erewrite (M_bind_run _ _ _ _ tt); [|apply (upd_vma_run b B1); cbn; by rewrite lookup_insert_ne, lookup_insert_eq]. cbn [with_vmas vmas].
    erewrite (M_bind_run _ _ _ _ tt); [|apply (upd_vma_run b B2); cbn; by rewrite lookup_insert_eq]. cbn [with_vmas vmas].
    rewrite (M_bind_run _ _ _ _ B3) by (apply get_vma_run; cbn; by rewrite lookup_insert_eq).
    change B3 with (high_part len v). rewrite Eo. unfold assert. replace (o <=? MAX_VMA_ORDER) with true by lia.
    unfold mlift at 1. unfold mbind at 1, M_bind at 1.
    erewrite (M_bind_run _ _ _ _ tt); [|apply on_vnodes_run; exact E1].
    erewrite (M_bind_run _ _ _ _ tt); [|apply on_vnodes_run; exact E2]. done. }
  split_and!; try done.
  - intros x. cbn [vmas with_vnodes with_vmas]. unfold m5. rewrite !lookup_insert.
    repeat case_decide; subst; done.
  - cbn [vnodes with_vnodes]. eapply dll_vma_frame; [exact F2|].
    rewrite fmap_app, !fmap_cons. exact D1.
Qed.

Lemma tiles_in m lo xs a : tiles m lo xs -> a ∈ xs -> is_Some (m !! a).
Proof.
  intros Ht (l1 & l2 & ->)%list_elem_of_split.
  apply tiles_app in Ht as (mid & _ & _ & (w & Ew & _) & _). eauto.
Qed.

Lemma tiles_mono m m' lo xs :
  (forall a, a ∈ xs -> exists v v', m !! a = Some v /\ m' !! a = Some v' /\
     vm_start v' = vm_start v /\ vm_end v' = vm_end v) ->
  tiles m lo xs -> tiles m' lo xs.
Proof.
  revert lo. induction xs as [|a xs IH]; intros lo Hm Ht; [done|].
  destruct Ht as (v & E & E1 & E2 & E3 & Ht). destruct (Hm a) as (w & w' & Ew & Ew' & S1 & S2); [by left|].
  rewrite E in Ew. injection Ew as <-. exists w'. rewrite S1, S2. split_and!; [done..|].
  apply IH; [|done]. intros b Hb. apply Hm. by right.
Qed.

(** The end of [take_vma]: [a] leaves its free list and enters the tree. *)
Lemma finish_vma s g xs X a v i :
  vmas s !! a = Some v -> a ∈ xs -> 0 <= i <= MAX_VMA_ORDER -> g !! a = Some (i, true) ->
  dll (vnodes s) VmaList (VNode <$> xs) -> (forall x, is_Some (vmas s !! x) -> x ∈ xs) ->
  tiles (vmas s) VMALLOC_START xs -> lists_ok MAX_VMA_ORDER (vnodes s) g ->
  (forall x o, x <> a -> (g !! x = Some (o, true) <-> ord_map (vmas s) !! x = Some (o, true))) ->
  at_inv (vma_tree s) X ->
  (forall st en x, (st, en, x) ∈ X -> x <> a /\
    exists w, vmas s !! x = Some w /\ vm_free w = false /\ st = vm_start w /\ en = vm_end w - 1) ->
  exists s',
    (_ ← on_vnodes (list_remove (VFreeNode a));
     _ ← upd_vma a (with_free false);
     v ← get_vma a;
     _ ← on_vtree (at_insert (vm_start v) (u32 (vm_end v - 1)) a);
     mret false) s = Ret (false, s') /\ same_rest s s' /\
    (forall x, vmas s' !! x = if decide (x = a) then Some (with_free false v) else vmas s !! x) /\
    vinv s' xs (if at_room (vma_tree s) then {[(vm_start v, vm_end v - 1, a)]} ∪ X else X).
Proof.
  intros E Ha Hi Eg Hd Hdom Ht Hl Hg Hat Hu.
  pose proof (tiles_wf _ _ _ _ Ht Ha E) as Hwf.
  destruct (lists_ok_remove _ _ _ a i Hl Hi Eg) as (n & En & Hl' & Hf).
  assert (Eu : u32 (vm_end v - 1) = vm_end v - 1).
  { destruct Hwf as (H1 & H2 & H3 & _). unfold VMALLOC_START, VMALLOC_END in *.
    change KERNEL_VIRT_BASE with 0xC0000000 in *. change PAGE_SIZE with 4096 in *.
    apply wrap_small. unfold fits. lia. }
  destruct (at_insert_ok (vma_tree s) X (vm_start v) (vm_end v - 1) a Hat) as (r & t & Er & Hat').
  { destruct Hwf. lia. }
  { intros st en x Hx. destruct (Hu _ _ _ Hx) as (Hne & w & Ew & _ & -> & ->).
    assert (Hxs : x ∈ xs) by (apply Hdom; eauto).
    destruct (tiles_disjoint _ _ _ _ _ _ _ Ht Hxs Ha Hne Ew E); lia. }
  set (m := <[a := with_free false v]> (vmas s)).
  exists (with_vtree t (with_vmas m (with_vnodes n s))).
  assert (Hm : forall x, m !! x = if decide (x = a) then Some (with_free false v) else vmas s !! x).
  { intros x. unfold m. rewrite lookup_insert. repeat case_decide; congruence. }
  split_and!; try done.
  - erewrite (M_bind_run _ _ _ _ tt); [|apply on_vnodes_run; exact En].
    erewrite (M_bind_run _ _ _ _ tt); [|apply (upd_vma_run a v); exact E].
    erewrite (M_bind_run _ _ _ _ (with_free false v)); [|apply get_vma_run; cbn; by rewrite lookup_insert_eq].
    cbn [vm_start vm_end with_free]. rewrite Eu.
    erewrite (M_bind_run _ _ _ _ r); [done|]. unfold on_vtree, on_part. cbn. by rewrite Er.
  - split; cbn [vnodes vmas vma_tree with_vtree with_vmas with_vnodes].
    + by eapply dll_vma_frame.
    + intros x. rewrite Hm. case_decide; [by subst|]. apply Hdom.
    + eapply tiles_mono; [|exact Ht]. intros x Hx.
      destruct (tiles_in _ _ _ _ Ht Hx) as [w Ew]. exists w. rewrite Hm.
      case_decide; [|by eauto]. subst x. rewrite E in Ew. injection Ew as <-. by eauto.
    + eapply lists_ok_ext; [|exact Hl']. intros x o. unfold ord_map. rewrite lookup_fmap, Hm, lookup_insert.
      destruct (decide (a = x)) as [->|Hne].
      * rewrite decide_True by done. cbn. naive_solver.
      * rewrite decide_False by congruence. rewrite Hg by congruence. unfold ord_map. by rewrite lookup_fmap.
    + exact Hat'.
    + assert (HX : forall st en x, (st, en, x) ∈ X ->
        exists w, m !! x = Some w /\ vm_free w = false /\ st = vm_start w /\ en = vm_end w - 1).
      { intros st en x Hx. destruct (Hu _ _ _ Hx) as (Hne & w & Hw). exists w. rewrite Hm. by rewrite decide_False. }
      intros st en x. destruct (at_room (vma_tree s)); [|apply HX]. rewrite elem_of_union, elem_of_singleton.
      intros [[= -> -> ->]|Hx]; [|by apply HX]. exists (with_free false v). rewrite Hm. by rewrite decide_True.
Qed.

(** The areas after allocating [len] bytes from the front of [a]: [a] is cut
    to [len] bytes and in use, a new free area right behind it has the rest
    if there is one, and the tree has exactly the interval of [a] more, unless
    there was no memory for its node, which [alloc_vma] does not check. *)
Definition alloc_post (s : vmem) (xs : list Z) (X : gset (Z * Z * Z)) (len a : Z) (s' : vmem) : Prop :=
  exists pre post v, xs = pre ++ a :: post /\ vmas s !! a = Some v /\ vm_free v = true /\
    len <= vm_end v - vm_start v /\
    exists ys,
      vinv s' (pre ++ a :: ys ++ post)
        (if at_room (vma_tree s) then {[(vm_start v, vm_start v + len - 1, a)]} ∪ X else X) /\
      vmas s' !! a = Some (with_free false (low_part len v)) /\
      (forall x, x <> a -> x ∉ ys -> vmas s' !! x = vmas s !! x) /\
      (if decide (len = vm_end v - vm_start v) then ys = []
       else exists b, ys = [b] /\ vmas s !! b = None /\ vmas s' !! b = Some (high_part len v)).

Lemma vinv_free_in s xs X a o :
  vinv s xs X -> ord_map (vmas s) !! a = Some (o, true) ->
  exists v, vmas s !! a = Some v /\ vm_free v = true /\ o = Z.log2 (vma_pages v) /\ a ∈ xs.
Proof.
  intros K E. unfold ord_map in E. rewrite lookup_fmap in E.
  destruct (vmas s !! a) as [v|] eqn:Ev; [|done]. injection E as <- Hf. exists v. split_and!; [done..|].
  apply K. eauto.
Qed.

Lemma tiles_NoDup m lo xs : tiles m lo xs -> NoDup xs.
Proof.
  revert lo. induction xs as [|a xs IH]; intros lo Ht; [constructor|].
  destruct Ht as (v & E & E1 & E2 & _ & Ht). apply list.NoDup_cons. split; [|by eapply IH].
  intros Ha. pose proof (tiles_ge _ _ _ _ _ Ht Ha E). lia.
Qed.

(** Cutting an area in two keeps the tiling. *)
Lemma tiles_split m m' pre post a b v len :
  tiles m VMALLOC_START (pre ++ a :: post) -> m !! a = Some v -> m !! b = None ->
  area_wf (low_part len v) -> area_wf (high_part len v) ->
  (forall x, m' !! x = if decide (x = b) then Some (high_part len v)
                       else if decide (x = a) then Some (low_part len v) else m !! x) ->
  tiles m' VMALLOC_START (pre ++ a :: b :: post).
Proof.
  intros Ht E Hb WA WB Hm'. pose proof (tiles_NoDup _ _ _ Ht) as Hnd.
  assert (Hinxs : forall x, x ∈ pre ++ a :: post -> x <> b).
  { intros x Hx ->. destruct (tiles_in _ _ _ _ Ht Hx). congruence. }
  apply tiles_app in Ht as (mid & T1 & T2 & (w & Ew & W1 & W2 & W3 & T3) & T4).
  rewrite E in Ew. injection Ew as <-.
  apply list.NoDup_app in Hnd as (_ & Hnd1 & Hnd2). apply list.NoDup_cons in Hnd2 as [Hnd2 _].
  assert (Hab : a <> b) by (apply Hinxs; set_solver).
  apply T4.
  - intros x Hx. rewrite Hm', !decide_False; [done| |apply Hinxs; set_solver].
    intros ->. apply (Hnd1 a Hx). by left.
  - exists (low_part len v). rewrite Hm', decide_False, decide_True by done.
    destruct WA as (_ & WA2 & _ & _ & WA5). split_and!; [done|done|cbn in *; lia|done|].
    exists (high_part len v). rewrite Hm', decide_True by done. split_and!; [done|done|apply WB|apply WB|].
    eapply tiles_mono; [|exact T3]. intros x Hx. destruct (tiles_in _ _ _ _ T3 Hx) as [w Ew]. exists w, w.
    rewrite Hm', !decide_False; [done|by intros ->|apply Hinxs; set_solver].
Qed.

Lemma take_vma_run s xs X a v len :
  vinv s xs X -> vmas s !! a = Some v -> vm_free v = true -> len mod 4096 = 0 ->
  0 < len <= vm_end v - vm_start v ->
  (take_vma len a s = Ret (true, s) /\ new_vma (vmas s) = None /\ len < vm_end v - vm_start v) \/
  exists s', take_vma len a s = Ret (false, s') /\ same_rest s s' /\ alloc_post s xs X len a s'.
Proof.
  intros K E Hf Hm Hl. pose proof (vinv_wf _ _ _ _ _ K E) as Hwf.
  destruct (area_pages _ Hwf) as (P1 & P2 & P3 & P4).
  assert (Ha : a ∈ xs) by (apply K; eauto).
  apply list_elem_of_split in Ha as (pre & post & ->).
  assert (Hlen : len = 4096 * (len / 4096)) by (pose proof (Z.div_mod len 4096 ltac:(lia)); lia).
  assert (Hr : vm_end v - vm_start v < 2 ^ 32 - 4096).
  { destruct Hwf as (H1 & H2 & H3 & _). unfold VMALLOC_START, VMALLOC_END in *.
    change KERNEL_VIRT_BASE with 0xC0000000 in *. change PAGE_SIZE with 4096 in *. lia. }
  assert (E1 : u32 (vm_end v - vm_start v) = vm_end v - vm_start v) by (apply wrap_small; unfold fits; lia).
  assert (E2 : u32 (len + PAGE_SIZE) = len + 4096) by (change PAGE_SIZE with 4096; apply wrap_small; unfold fits; lia).
  unfold take_vma. rewrite (M_bind_run _ _ _ _ _ (get_vma_run _ _ _ E)).
  rewrite Hf, E1, E2. unfold assert. replace (len <=? vm_end v - vm_start v) with true by lia. cbn [andb].
  rewrite (M_bind_run _ _ s s tt eq_refl). rewrite P3.
  assert (Hused : forall st en x, (st, en, x) ∈ X -> x <> a /\
    exists w, vmas s !! x = Some w /\ vm_free w = false /\ st = vm_start w /\ en = vm_end w - 1).
  { intros st en x Hx. destruct (vi_used _ _ _ K _ _ _ Hx) as (w & Ew & Hw & ?). split; [|by eauto].
    intros ->. congruence. }
  destruct (Z.leb_spec (len + 4096) (4096 * vma_pages v)) as [Hlt|Hge].
  - destruct (new_vma (vmas s)) as [b|] eqn:Hb.
    2: { left. split; [|split; [done|lia]]. rewrite (M_bind_run _ _ s s true); [done|].
         unfold split_vma, kmalloc_vma. unfold mbind, M_bind. by rewrite Hb. }
    right. pose proof (new_vma_fresh _ _ Hb) as Hfresh. assert (Hab : a <> b) by congruence.
    destruct (split_vma_run s pre post X a v b len K E Hm ltac:(lia) Hb)
      as (s1 & Es & Hrest & Ht1 & Hv1 & Hd1 & Hl1).
    destruct (high_part_wf len v Hwf Hm ltac:(lia)) as [WA WB].
    destruct (finish_vma s1 (<[b := (Z.log2 (vma_pages (high_part len v)), true)]> (ord_map (vmas s)))
      (pre ++ a :: b :: post) X a (low_part len v) (Z.log2 (vma_pages v))) as (s2 & Ef & Hrest2 & Hv2 & K2).
    + rewrite Hv1. by rewrite decide_False, decide_True.
    + set_solver.
    + done.
    + rewrite lookup_insert_ne by done. rewrite (ord_map_lookup _ _ _ E). by rewrite Hf.
    + done.
    + intros x. rewrite Hv1. case_decide; [set_solver|]. case_decide; [set_solver|]. intros Hx.
      pose proof (vi_dom _ _ _ K x Hx). set_solver.
    + by eapply (tiles_split (vmas s)); [apply K|..].
    + done.
    + intros x o Hx. unfold ord_map. rewrite lookup_insert, !lookup_fmap, Hv1.
      destruct (decide (b = x)) as [->|Hbx]; [by rewrite decide_True|]. by rewrite !decide_False.
    + rewrite Ht1. apply K.
    + intros st en x Hx. destruct (Hused _ _ _ Hx) as (Hxa & w & Ew & ?). split; [done|]. exists w.
      rewrite Hv1, !decide_False; [done|done|congruence].
    + exists s2. split; [by rewrite (M_bind_run _ _ _ _ _ Es)|]. split.
      { destruct Hrest as (R1 & R2 & R3 & R4).
        destruct Hrest2 as (Q1 & Q2 & Q3 & Q4). unfold same_rest. split_and!; congruence. }
      exists pre, post, v. split_and!; [done..|lia|]. exists [b]. split_and!.
      * rewrite Ht1 in K2. exact K2.
      * rewrite Hv2. by rewrite decide_True.
      * intros x Hxa Hxb. rewrite Hv2, decide_False, Hv1, !decide_False; [done|done|set_solver|done].
      * rewrite decide_False by lia. exists b. split_and!; [done|done|].
        rewrite Hv2, decide_False, Hv1, decide_True by congruence. done.
  - right. assert (Hex : len = vm_end v - vm_start v) by lia.
    assert (Elp : low_part len v = v).
    { unfold low_part, with_end. destruct v; cbn in *. f_equal. lia. }
    rewrite (M_bind_run _ _ s s false eq_refl).
    destruct (finish_vma s (ord_map (vmas s)) (pre ++ a :: post) X a v (Z.log2 (vma_pages v)))
      as (s2 & Ef & Hrest2 & Hv2 & K2); try done; try apply K.
    + set_solver.
    + rewrite (ord_map_lookup _ _ _ E). by rewrite Hf.
    + exists s2. split; [done|]. split; [done|]. exists pre, post, v. split_and!; [done..|lia|].
      exists []. split_and!.
      * replace (vm_start v + len - 1) with (vm_end v - 1) by lia. exact K2.
      * rewrite Hv2, Elp. by rewrite decide_True.
      * intros x Hxa _. rewrite Hv2. by rewrite decide_False.
      * by rewrite decide_True.
Qed.

Lemma unlock_vma_run s : unlock_vma s = Ret (tt, with_vlock 0 s).
Proof. done. Qed.

Lemma lock_vma_run s : vma_lock s = 0 -> lock_vma s = Ret (tt, with_vlock 1 s).
Proof. intros E. unfold lock_vma, on_part, spin_lock. by rewrite E. Qed.

Lemma lock_vma_held s : vma_lock s <> 0 -> lock_vma s = Bug.
Proof. intros E. unfold lock_vma, on_part, spin_lock. by rewrite (proj2 (Z.eqb_neq _ _) E). Qed.

Lemma vinv_lock s xs X v : vinv s xs X <-> vinv (with_vlock v s) xs X.
Proof. split; intros K; split; apply K. Qed.

Lemma alloc_post_lock s xs X len a s' v w :
  alloc_post (with_vlock v s) xs X len a s' -> alloc_post s xs X len a (with_vlock w s').
Proof.
  intros (pre & post & u & E1 & E2 & E3 & E4 & ys & K & ?). exists pre, post, u. split_and!; [done..|].
  exists ys. split; [by apply vinv_lock|done].
Qed.

(** What a call of [alloc_vma] may answer, from order [i] on. *)
Definition alloc_result (s : vmem) xs X (i len : Z) (r : option Z) (s' : vmem) : Prop :=
  ((forall a v, vmas s !! a = Some v -> vm_free v = true -> Z.log2 (vma_pages v) < i) /\
     r = junk_vma /\ s' = with_vlock 0 s) \/
  (r = None /\ new_vma (vmas s) = None /\ s' = with_vlock 0 s) \/
  exists a, r = Some a /\ alloc_post s xs X len a s' /\ same_rest (with_vlock 0 s) s'.

Lemma alloc_vma_loop_run n fuel i len s xs X :
  vinv s xs X -> 0 <= i -> MAX_VMA_ORDER + 1 - i <= Z.of_nat n -> (n < fuel)%nat ->
  len mod 4096 = 0 -> 0 < len -> len <= 4096 * 2 ^ i ->
  exists r s', alloc_vma_loop fuel i len s = Ret (r, s') /\ alloc_result s xs X i len r s'.
Proof.
  revert fuel i. induction n as [|n IH]; intros fuel i K Hi Hn Hfuel Hm Hl Hp;
    (destruct fuel as [|fuel]; [lia|]); cbn [alloc_vma_loop]; unfold MAX_VMA_ORDER in *.
  - if_false. exists junk_vma, (with_vlock 0 s). split; [done|]. left. split_and!; [|done..].
    intros a v E _. pose proof (proj2 (proj2 (proj2 (area_pages _ (vinv_wf _ _ _ _ _ K E))))) as [_ ?].
    unfold MAX_VMA_ORDER in *. lia.
  - destruct (Z.leb_spec i 20) as [Hle|Hgt].
    2: { exists junk_vma, (with_vlock 0 s). split; [done|]. left. split_and!; [|done..].
         intros a v E _. pose proof (proj2 (proj2 (proj2 (area_pages _ (vinv_wf _ _ _ _ _ K E))))) as [_ ?].
         unfold MAX_VMA_ORDER in *. lia. }
    rewrite (M_bind_run _ _ s s s eq_refl).
    destruct (list_empty (FreeVmaLists i) (vnodes s)) eqn:He.
    + rewrite wrap_small by (unfold fits; lia).
      destruct (IH fuel (i + 1) K) as (r & s' & E & Hr); [lia|lia|lia|done|done| |].
      { rewrite Z.pow_add_r by lia. lia. }
      exists r, s'. split; [done|]. destruct Hr as [(Hno & Hr)|Hr]; [|by right]. left. split; [|done].
      intros a v Ea Hf. specialize (Hno a v Ea Hf).
      assert (Z.log2 (vma_pages v) <> i); [|lia]. intros Eo.
      apply (lists_ok_empty MAX_VMA_ORDER _ _ tt i (vi_free _ _ _ K) ltac:(unfold MAX_VMA_ORDER; lia) He a); [|done].
      rewrite (ord_map_lookup _ _ _ Ea), Hf. by subst i.
    + destruct (lists_ok_first MAX_VMA_ORDER _ _ tt i (vi_free _ _ _ K) ltac:(unfold MAX_VMA_ORDER; lia) He)
        as (a & En & Ea & _). change (fl_head tt i) with (FreeVmaLists i) in En. rewrite En.
      cbn [vma_of_free_node fl_node]. rewrite (M_bind_run _ _ s s a eq_refl).
      destruct (vinv_free_in _ _ _ _ _ K Ea) as (v & Ev & Hf & Eo & _).
      destruct (area_pages _ (vinv_wf _ _ _ _ _ K Ev)) as (P1 & P2 & _).
      assert (2 ^ i <= vma_pages v) by (rewrite Eo; apply Z.log2_spec; lia).
      destruct (take_vma_run s xs X a v len K Ev Hf Hm ltac:(lia)) as [(Et & Hb & _)|(s' & Et & Hr & Hpost)].
      * exists None, (with_vlock 0 s). split; [by rewrite (M_bind_run _ _ _ _ _ Et)|]. right. by left.
      * exists (Some a), (with_vlock 0 s'). split; [by rewrite (M_bind_run _ _ _ _ _ Et)|]. right. right.
        exists a. split_and!; [done| |].
        -- eapply (alloc_post_lock _ _ _ _ _ _ (vma_lock s)). by destruct s.
        -- destruct Hr as (R1 & R2 & R3 & R4). unfold same_rest. cbn. split_and!; congruence.
Qed.

Lemma alloc_vma_run s xs X len :
  vinv s xs X -> vma_lock s = 0 -> len mod 4096 = 0 -> 0 < len < 2 ^ 32 ->
  exists r s', alloc_vma len s = Ret (r, s') /\ alloc_result s xs X (Z.log2_up (len / 4096)) len r s'.
Proof.
  intros K L Hm Hl. assert (Hlen : len = 4096 * (len / 4096)) by (pose proof (Z.div_mod len 4096 ltac:(lia)); lia).
  unfold alloc_vma. rewrite (M_bind_run _ _ _ _ _ (lock_vma_run s L)).
  unfold PAGE_SHIFT. rewrite Z.shiftr_div_pow2 by lia. change (2 ^ 12) with 4096.
  rewrite ilog2_roundup_spec by lia.
  destruct (alloc_vma_loop_run 21 22 (Z.log2_up (len / 4096)) len (with_vlock 1 s) xs X) as (r & s' & E & Hr).
  - by apply vinv_lock.
  - apply Z.log2_up_nonneg.
  - pose proof (Z.log2_up_nonneg (len / 4096)). unfold MAX_VMA_ORDER. lia.
  - lia.
  - done.
  - lia.
  - assert (len / 4096 <= 2 ^ Z.log2_up (len / 4096)); [|lia].
    apply Z.log2_up_le_pow2; lia.
  - exists r, s'. split; [done|]. destruct Hr as [Hr|[Hr|(a & Er & Hp & Hr)]]; [by left|by right; left|].
    right. right. exists a. split_and!; [done| |done].
    replace s' with (with_vlock 0 s'); [by eapply alloc_post_lock|].
    destruct s', Hr as (R1 & _). cbn in *. by subst.
Qed.
End Vmalloc.
