(* ===== verification/VmallocOk.v ===== *)
(** * Properties of the virtual memory areas

    The red-black tree as the tree of areas, and what mm/vmalloc.c promises:
    allocation of areas ([alloc_vma]), mapping of pages into them ([vmap]),
    and what freeing them really does. *)

From stdpp Require Import base numbers list gmap sets.
From Stdlib Require Import ZArith Lia ZifyBool ZifyNat.
From S2P Require Import Prelude RbTree RbTreeRep RbTreeOk RbTreeRemove RbTreeSpec.
From S2P Require Import Bitops Lock ListNode Buddy Page PageTable Vmalloc.

Open Scope Z_scope.

(** ** The red-black tree as the tree of areas *)

Section RbAreas.
Context `{NodeAlloc}.

Definition rb_areas (t : rb_tree) (X : gset (Z * Z * Z)) : Prop :=
  exists T, rb_inv t T /\ forall a b v, (a, b, v) ∈ X <->
    exists e, e ∈ elems T /\ i_start e.2 = a /\ i_end e.2 = b /\ i_value e.2 = v.

Lemma rb_areas_insert t X st en v :
  rb_areas t X -> st <= en -> (forall a b w, (a, b, w) ∈ X -> b < st \/ en < a) ->
  exists r t', rb_tree_insert (Some 0) st en v t = Ret (r, t') /\
    rb_areas t' (if alloc (nodes t) is Some _ then {[(st, en, v)]} ∪ X else X).
Proof.
  intros (T & Hi & HX) Hle Hd. destruct (rb_tree_insert_run t T (Some 0) st en v Hi) as (r & t' & E & Hp & Hr).
  exists r, t'. split; [done|]. destruct r as [n|]; cbn [insert_post] in Hp.
  2: { destruct (proj1 Hr eq_refl) as [?|[?|[->|(e & He & ?)]]]; [done|lia|subst; by exists T|].
       exfalso. assert (Hin : (i_start e.2, i_end e.2, i_value e.2) ∈ X) by (apply HX; by exists e).
       destruct (Hd _ _ _ Hin); lia. }
  destruct (alloc (nodes t)) as [x|] eqn:Ex; [|exfalso; discriminate (proj2 Hr); auto].
  destruct Hp as (T' & pre & post & Hi' & He & He'). exists T'. split; [done|]. intros a b w.
  rewrite elem_of_union, elem_of_singleton, HX, He, He'. split.
  - intros [[= -> -> ->]|(e & Hin & ?)].
    + exists (n, Info (RbTree.total t) st en v). split; [set_solver|done].
    + exists e. split; [set_solver|done].
  - intros (e & [Hin|[->|Hin]%elem_of_cons]%elem_of_app & <- & <- & <-).
    + right. exists e. split; [set_solver|done].
    + by left.
    + right. exists e. split; [set_solver|done].
Qed.

Lemma rb_areas_search t X k :
  rb_areas t X -> exists r, rb_tree_search k t = Ret (r, t) /\
    match r with
    | Some n => exists a b v, (a, b, v) ∈ X /\ a <= k <= b /\ rb_node_value (Some n) t = Ret (v, t)
    | None => forall a b v, (a, b, v) ∈ X -> ~ a <= k <= b
    end.
Proof.
  intros (T & Hi & HX). pose proof Hi as (Hs & _ & Ho). exists (tree_search T k).
  split; [by apply rb_tree_search_run|]. destruct (tree_search T k) as [z|] eqn:Ez.
  - destruct (search_node _ _ _ _ Hi Ez) as (n & En & Hin & Hc). apply intervals_in in Hin as [a Ha].
    exists (RbTree.start n), (RbTree.end_ n), (RbTree.value n). split_and!.
    + apply HX. exists (a, node_info n). by destruct n.
    + by destruct n, Hc.
    + by destruct n, Hc.
    + unfold rb_node_value. by rewrite (M_bind_run _ _ _ _ _ (rd_run _ _ _ En)).
  - intros a b v ([z i] & Hin & <- & <- & <-)%HX Hk.
    by rewrite (tree_search_complete T k z i Ho Hin Hk) in Ez.
Qed.

Lemma rb_areas_remove t X k st en v :
  rb_areas t X -> (st, en, v) ∈ X -> st <= k <= en ->
  exists t', rb_tree_remove (Some 0) k t = Ret (0, t') /\ rb_areas t' (X ∖ {[(st, en, v)]}).
Proof.
  intros (T & Hi & HX) Hin Hk. pose proof Hi as (Hs & _ & Ho). apply HX in Hin as (e & He & E1 & E2 & E3).
  destruct (rb_tree_remove_run t T 0 k Hi) as [[_ Hn]|(t' & E & T' & pre & post & z & i & Hi' & Hel & Hel' & Hki)].
  { exfalso. apply (Hn e He). lia. }
  exists t'. split; [done|]. exists T'. split; [done|].
  pose proof Hi' as (_ & _ & Ho'). rewrite Hel in Ho. rewrite Hel' in Ho'.
  apply ordered_app in Ho as (_ & (Hp & _ & Hbp)%ordered_cons & Hb).
  assert (Hbefore : forall x, x ∈ pre ++ post -> ~ i_start x.2 <= k <= i_end x.2).
  { intros x [Hx|Hx]%elem_of_app Hxk.
    - assert (before x (z, i)) as Hbx by (apply Hb; [done|set_solver]). unfold before in Hbx. cbn in Hbx. lia.
    - assert (before (z, i) x) as Hbx by by apply Hbp. unfold before in Hbx. cbn in Hbx. lia. }
  assert (Ei : st = i_start i /\ en = i_end i /\ v = i_value i).
  { rewrite Hel in He. apply elem_of_app in He as [He|[->|He]%elem_of_cons]; [|cbn in *; lia|];
      exfalso; apply (Hbefore e); (set_solver || lia). }
  destruct Ei as (Est & Een & Ev).
  intros a b w. rewrite elem_of_difference, elem_of_singleton, HX, Hel, Hel'. split.
  - intros [(x & [Hx|[->|Hx]%elem_of_cons]%elem_of_app & F1 & F2 & F3) Hne].
    + exists x. split; [set_solver|done].
    + cbn in *. exfalso. apply Hne. congruence.
    + exists x. split; [set_solver|done].
  - intros (x & Hx & F1 & F2 & F3). split; [exists x; split; [set_solver|done]|].
    intros [= -> -> ->]. apply (Hbefore x Hx). lia.
Qed.

#[export, refine] Instance rb_area_tree : AreaTree := {|
  at_tree := rb_tree;
  at_empty := rb_tree_create;
  at_insert := rb_tree_insert (Some 0);
  at_search := rb_tree_search;
  at_value := fun n => rb_node_value (Some n);
  at_remove := rb_tree_remove (Some 0);
  at_inv := rb_areas;
  at_room := fun t => if alloc (nodes t) is Some _ then true else false
|}.
Proof.
  - exists Leaf. split; [apply rb_inv_create|]. intros a b v. split; [by intros ?%elem_of_empty|].
    by intros (e & ?%elem_of_nil & _).
  - intros t X st en v Hi Hle Hd. destruct (rb_areas_insert t X st en v Hi Hle Hd) as (r & t' & E & Hi').
    exists r, t'. split; [done|]. by destruct (alloc (nodes t)).
  - apply rb_areas_search.
  - apply rb_areas_remove.
Defined.
End RbAreas.

(** ** Mapping pages into an area *)

Section Claims.
Context `{AT : AreaTree} `{VH : VHeap}.

(** The entry that maps page frame [p] for the kernel. *)
Definition kpte (p : Z) : Z := Z.lor (Z.lor (4096 * p) PTE_W) PTE_P.

Definition pages_ok (ps : list Z) : Prop := forall p, p ∈ ps -> 0 <= p < TOTAL_PAGES.

Lemma below_kernel_outside u : 0 <= u < 0xC0000 -> outside_vpt u.
Proof.
  intros Hu. split; [lia|]. intros E. pose proof (Z.div_mod u 1024 ltac:(lia)).
  pose proof (Z.mod_pos_bound u 1024 ltac:(lia)). unfold vpt_idx in E. lia.
Qed.

Lemma kernel_map_run s d F v p :
  pt_ok (vpt s) d F -> kpgdir s = page_to_virt d -> 0 <= v < 0xC0000 -> 0 <= p < TOTAL_PAGES ->
  (1 <= size F)%nat ->
  exists t F', kernel_map (4096 * v) (page_to_phys p) PAGE_SIZE PTE_W s = Ret (tt, with_vpt t s) /\
    edited d v 1 (fun _ => Some (kpte p)) (vpt s) t F F'.
Proof.
  intros K Ek Hv Hp HF. unfold TOTAL_PAGES in Hp.
  assert (Ev : 4096 * v / 4096 = v) by (rewrite Z.mul_comm; by apply Z.div_mul).
  assert (Ep : page_to_phys p = 4096 * p).
  { unfold page_to_phys. change PAGE_SIZE with 4096. apply wrap_small. unfold fits. lia. }
  destruct (page_map_run (vpt s) d (4096 * v) (4096 * p) PAGE_SIZE PTE_W F K) as (t & F' & E & D).
  - unfold fits. lia.
  - unfold fits. lia.
  - done.
  - unfold editable. rewrite Ev. change (npages PAGE_SIZE) with 1. split.
    + intros u Hu. apply below_kernel_outside. lia.
    + exists {[v / 1024]}. split; [|by rewrite size_singleton]. intros u Hu. right.
      apply elem_of_singleton. f_equal. lia.
  - exists t, F'. split.
    + unfold kernel_map. rewrite (M_bind_run _ _ s s s eq_refl). rewrite Ek, Ep. unfold on_vpt, on_part. by rewrite E.
    + rewrite Ev in D. change (npages PAGE_SIZE) with 1 in D. eapply edited_ext; [|exact D].
      intros u Hu. cbn beta. assert (u = v) as -> by lia.
      rewrite (Z.mul_comm 4096 p), Z.div_mul by lia. unfold kpte.
      replace (p + (v - v)) with p by lia. by rewrite wrap_small by (unfold fits; lia).
Qed.

(** The entry for the page at position [u - v + i] of the array. *)
Definition entry_at (ps : list Z) (i v u : Z) : option Z := kpte <$> ps !! Z.to_nat (i + (u - v)).

Lemma map_pages_run n i v pages ps s d F :
  pt_ok (vpt s) d F -> kpgdir s = page_to_virt d -> arrays s !! pages = Some ps -> pages_ok ps ->
  0 <= i -> Z.of_nat (length ps) = i + Z.of_nat n -> 0 <= v -> v + Z.of_nat n <= 0xC0000 ->
  (n <= size F)%nat ->
  exists t F', map_pages n i (u32 (4096 * v)) (Some pages) s = Ret (tt, with_vpt t s) /\
    edited d v (Z.of_nat n) (entry_at ps i v) (vpt s) t F F'.
Proof.
  revert i v s F. induction n as [|n IH]; intros i v s F K Ek Ea Hps Hi Hlen Hv Hvn HF.
  { exists (vpt s), F. split; [by destruct s|]. by apply edited_refl. }
  cbn [map_pages]. rewrite (wrap_small 32 (4096 * v)) by (unfold fits; lia).
  destruct (lookup_lt_is_Some_2 ps (Z.to_nat i)) as [p Ep]; [lia|].
  rewrite (M_bind_run _ _ s s p) by (unfold get_entry; by rewrite Ea, Ep).
  destruct (kernel_map_run s d F v p K Ek) as (t1 & F1 & E1 & D1);
    [lia|apply Hps; by eapply list_elem_of_lookup_2|lia|].
  rewrite (M_bind_run _ _ _ _ _ E1). change PAGE_SIZE with 4096.
  replace (4096 * v + 4096) with (4096 * (v + 1)) by lia.
  pose proof (ed_size _ _ _ _ _ _ _ _ D1).
  destruct (IH (i + 1) (v + 1) (with_vpt t1 s) F1) as (t2 & F2 & E2 & D2); try done; try lia.
  { apply D1. }
  exists t2, F2. split; [by rewrite E2|]. replace (Z.of_nat (S n)) with (1 + Z.of_nat n) by lia.
  eapply edited_trans; [lia|lia| |].
  - eapply edited_ext; [|exact D1]. intros u Hu. cbn beta. assert (u = v) as -> by lia.
    unfold entry_at. replace (i + (v - v)) with i by lia. by rewrite Ep.
  - eapply edited_ext; [|exact D2]. intros u Hu. unfold entry_at. do 2 f_equal. lia.
Qed.

(** The pages recorded in a descriptor are not part of the invariant. *)
Lemma vinv_pages s xs X a v p n :
  vinv s xs X -> vmas s !! a = Some v -> vinv (with_vmas (<[a := with_pages p n v]> (vmas s)) s) xs X.
Proof.
  intros K E. assert (Hm : forall x, <[a := with_pages p n v]> (vmas s) !! x =
      if decide (x = a) then Some (with_pages p n v) else vmas s !! x).
  { intros x. rewrite lookup_insert. repeat case_decide; congruence. }
  split; cbn [vmas vnodes vma_tree with_vmas].
  - apply K.
  - intros x. rewrite Hm. case_decide; [subst; intros _|]; apply K; eauto.
  - eapply tiles_mono; [|apply K]. intros x Hx. destruct (tiles_in _ _ _ _ (vi_tiles _ _ _ K) Hx) as [w Ew].
    exists w. rewrite Hm. case_decide; [|by eauto]. subst. rewrite E in Ew. injection Ew as <-. by eauto.
  - eapply lists_ok_ext; [|apply K]. intros x o. unfold ord_map. rewrite !lookup_fmap, Hm.
    case_decide; [|done]. subst. by rewrite E.
  - apply K.
  - intros st en x Hx. destruct (vi_used _ _ _ K _ _ _ Hx) as (w & Ew & ?). rewrite Hm.
    case_decide; [|by eauto]. subst. rewrite E in Ew. injection Ew as <-. by eexists.
Qed.
(** ** [vmap] *)

(** From [s] to [s'], the front of the free area [a], at address [p], became
    an area in use with the pages of the array; no other area changed. *)
Record mapped (s s' : vmem) (xs : list Z) (a pages : Z) (ps : list Z) (p : Z) : Prop := Mapped {
  mp_inv : exists ys X, vinv s' ys X;
  mp_lock : vma_lock s' = 0;
  mp_was : exists w, vmas s !! a = Some w /\ vm_free w = true /\ vm_start w = p /\
             p + 4096 * Z.of_nat (length ps) <= vm_end w;
  mp_now : vmas s' !! a =
             Some (VmArea p (p + 4096 * Z.of_nat (length ps)) false (Some pages) (Z.of_nat (length ps)));
  mp_others : forall x, x ∈ xs -> x <> a -> vmas s' !! x = vmas s !! x
}.

Lemma map_vm_area_run s a v pages ps d F :
  vmas s !! a = Some v -> area_wf v -> vm_end v = vm_start v + 4096 * Z.of_nat (length ps) ->
  pt_ok (vpt s) d F -> kpgdir s = page_to_virt d -> arrays s !! pages = Some ps -> pages_ok ps ->
  (length ps <= size F)%nat ->
  exists t F', map_vm_area a (Some pages) (Z.of_nat (length ps)) s =
      Ret (0, with_vmas (<[a := with_pages (Some pages) (Z.of_nat (length ps)) v]> (vmas s)) (with_vpt t s)) /\
    edited d (vm_start v / 4096) (Z.of_nat (length ps)) (entry_at ps 0 (vm_start v / 4096)) (vpt s) t F F'.
Proof.
  intros E (W1 & W2 & W3 & W4 & _) Hlen K Ek Ea Hps HF.
  unfold VMALLOC_START, VMALLOC_END in *. change KERNEL_VIRT_BASE with 0xC0000000 in *. change PAGE_SIZE with 4096 in *.
  assert (Es : vm_start v = 4096 * (vm_start v / 4096)) by (pose proof (Z.div_mod (vm_start v) 4096 ltac:(lia)); lia).
  destruct (map_pages_run (length ps) 0 (vm_start v / 4096) pages ps s d F K Ek Ea Hps) as (t & F' & E1 & D); try lia.
  exists t, F'. split; [|done]. unfold map_vm_area. rewrite (M_bind_run _ _ _ _ _ (get_vma_run _ _ _ E)).
  rewrite Nat2Z.id. rewrite <- Es, wrap_small in E1 by (unfold fits; lia).
  rewrite (M_bind_run _ _ _ _ _ E1). rewrite (M_bind_run _ _ _ _ tt (upd_vma_run a v _ (with_vpt t s) E)). done.
Qed.

Lemma with_vlock_id s : vma_lock s = 0 -> with_vlock 0 s = s.
Proof. destruct s. cbn. by intros ->. Qed.

Lemma alloc_post_area s xs X len a s1 : vinv s xs X -> alloc_post s xs X len a s1 ->
  exists v ys X1, vmas s !! a = Some v /\ vm_free v = true /\ vm_start v + len <= vm_end v /\ vinv s1 ys X1 /\
    vmas s1 !! a = Some (with_free false (low_part len v)) /\
    (forall x, x ∈ xs -> x <> a -> vmas s1 !! x = vmas s !! x).
Proof.
  intros K0 (pre & post & v & Exs & Ev & Hf & Hl & ys & K & Ea & Ho & Hys). subst xs.
  exists v, (pre ++ a :: ys ++ post), (if at_room (vma_tree s) then {[(vm_start v, vm_start v + len - 1, a)]} ∪ X else X).
  split_and!; [done|done|lia|exact K|done|]. intros x Hx Hxa. apply Ho; [done|].
  destruct (decide _) in Hys; [subst; by intros ?%elem_of_nil|].
  destruct Hys as (b & -> & Hb & _). intros ->%list_elem_of_singleton.
  destruct (tiles_in _ _ _ _ (vi_tiles _ _ _ K0) Hx). congruence.
Qed.

(** Mapping the area that [alloc_vma] has just returned. *)
Lemma map_new_area s xs X a s1 s2 pages ps d F :
  vinv s xs X -> alloc_post s xs X (4096 * Z.of_nat (length ps)) a s1 -> vma_lock s1 = 0 ->
  (vmas s2 = vmas s1 /\ vnodes s2 = vnodes s1 /\ vma_tree s2 = vma_tree s1 /\ vma_lock s2 = vma_lock s1) ->
  pt_ok (vpt s2) d F -> kpgdir s2 = page_to_virt d -> arrays s2 !! pages = Some ps -> pages_ok ps ->
  (length ps <= size F)%nat ->
  exists p s3 F',
    (_ ← map_vm_area a (Some pages) (Z.of_nat (length ps)); v ← get_vma a; mret (Some (vm_start v))) s2
      = Ret (Some p, s3) /\
    mapped s s3 xs a pages ps p /\
    edited d (p / 4096) (Z.of_nat (length ps)) (entry_at ps 0 (p / 4096)) (vpt s2) (vpt s3) F F'.
Proof.
  intros K0 Hpost L1 (Q1 & Q2 & Q3 & Q4) Kp Ek Ea Hps HF.
  destruct (alloc_post_area _ _ _ _ _ _ K0 Hpost) as (v & ys & X1 & Ev & Hf & Hl & K1 & Ea1 & Ho).
  set (v1 := with_free false (low_part (4096 * Z.of_nat (length ps)) v)) in *.
  assert (K2 : vinv s2 ys X1).
  { split; rewrite ?Q1, ?Q2, ?Q3; apply K1. }
  assert (Ea2 : vmas s2 !! a = Some v1) by by rewrite Q1.
  destruct (map_vm_area_run s2 a v1 pages ps d F Ea2 (vinv_wf _ _ _ _ _ K2 Ea2)) as (t & F' & E & D); try done.
  exists (vm_start v), (with_vmas (<[a := with_pages (Some pages) (Z.of_nat (length ps)) v1]> (vmas s2)) (with_vpt t s2)), F'.
  split_and!; [| |done].
  { rewrite (M_bind_run _ _ _ _ _ E).
    by rewrite (M_bind_run _ _ _ _ _ (get_vma_run a _ _ (lookup_insert_eq _ _ _))). }
  split.
  - exists ys, X1. apply (vinv_pages (with_vpt t s2)); [|done]. split; apply K2.
  - cbn. congruence.
  - by exists v.
  - cbn. by rewrite lookup_insert_eq.
  - intros x Hx Hxa. cbn. rewrite lookup_insert_ne, Q1 by done. by apply Ho.
Qed.

(** Some free area is sure to be found for [nr] pages. *)
Definition has_area (s : vmem) (nr : Z) : Prop :=
  exists a v, vmas s !! a = Some v /\ vm_free v = true /\ Z.log2_up nr <= Z.log2 (vma_pages v).

Lemma alloc_vma_found s xs X nr :
  vinv s xs X -> vma_lock s = 0 -> 0 < nr < 2 ^ 20 -> has_area s nr ->
  exists r s', alloc_vma (4096 * nr) s = Ret (r, s') /\
    match r with
    | None => new_vma (vmas s) = None /\ s' = s
    | Some a => alloc_post s xs X (4096 * nr) a s' /\ same_rest s s'
    end.
Proof.
  intros K L Hnr (b & w & Eb & Hf & Ho).
  destruct (alloc_vma_run s xs X (4096 * nr) K L) as (r & s' & E & Hr).
  { rewrite Z.mul_comm. by apply Z.mod_mul. }
  { lia. }
  rewrite (Z.mul_comm 4096 nr), Z.div_mul in Hr by lia. rewrite (Z.mul_comm nr) in Hr.
  exists r, s'. split; [done|]. destruct Hr as [(Hno & _)|[(-> & Hn & ->)|(a & -> & Hp & Hr)]].
  - specialize (Hno b w Eb Hf). lia.
  - split; [done|]. by apply with_vlock_id.
  - split; [done|]. by rewrite with_vlock_id in Hr.
Qed.

(** [vmap] returns NULL, changing nothing, only when the descriptor for
    the rest of the area cannot be allocated; otherwise the returned address
    is the page-aligned start of a formerly free part of the vmalloc range,
    and from there on the pages of the array are mapped writable, in order;
    every other page translates as before, no other area changes, and areas,
    lists, tree and page tables stay well formed.  It presupposes that a
    free area of sufficient order exists (the code returns an uninitialised
    pointer otherwise) and a free frame per page for page tables. *)
Theorem vmap_ok (s : vmem) xs X d F pages ps :
  vinv s xs X -> vma_lock s = 0 -> pt_ok (vpt s) d F -> kpgdir s = page_to_virt d ->
  arrays s !! pages = Some ps -> pages_ok ps -> (0 < length ps <= size F)%nat ->
  Z.of_nat (length ps) < 2 ^ 20 -> has_area s (Z.of_nat (length ps)) ->
  exists r s', vmap (Some pages) (Z.of_nat (length ps)) s = Ret (r, s') /\
    match r with
    | None => new_vma (vmas s) = None /\ s' = s
    | Some p => exists a F', mapped s s' xs a pages ps p /\
        edited d (p / 4096) (Z.of_nat (length ps)) (entry_at ps 0 (p / 4096)) (vpt s) (vpt s') F F'
    end.
Proof.
  intros K L Kp Ek Ea Hps HF Hlt Ha.
  destruct (alloc_vma_found s xs X (Z.of_nat (length ps)) K L ltac:(lia) Ha) as (r & s1 & E1 & H1).
  unfold vmap. change PAGE_SIZE with 4096. rewrite (Z.mul_comm _ 4096), wrap_small by (unfold fits; lia).
  rewrite (M_bind_run _ _ _ _ _ E1). destruct r as [a|]; [|by exists None, s1].
  destruct H1 as (Hp & R1 & R2 & R3 & R4).
  destruct (map_new_area s xs X a s1 s1 pages ps d F K Hp) as (p & s3 & F' & E3 & H3 & D3);
    rewrite ?R1, ?R2, ?R3, ?R4; try done; try lia.
  exists (Some p), s3. split; [exact E3|]. exists a, F'. split; [done|]. by rewrite R3 in D3.
Qed.

(** C30. [alloc_vma] for a whole number of pages, with the lock free, returns
    with the lock free again and one of three results.  An area: it was free
    and large enough, is now in use with exactly the length asked for, the
    rest of it is a new free area behind it, the areas still tile the whole
    range in address order, the free lists hold exactly the free areas, and
    the tree has exactly the interval of the area more ([alloc_post]; the
    insertion is lost only when the tree has no memory for its node).  NULL,
    with nothing changed, when the descriptor of the rest cannot be allocated.
    The pointer [vma] that was never assigned, with nothing changed, when no
    free area has an order that guarantees the length; with such an area the
    third result is impossible. *)
Theorem alloc_vma_ok (s : vmem) xs X len :
  vinv s xs X -> vma_lock s = 0 -> len mod 4096 = 0 -> 0 < len < 2 ^ 32 ->
  exists r s', alloc_vma len s = Ret (r, s') /\ vma_lock s' = 0 /\
    ((exists a, r = Some a /\ alloc_post s xs X len a s' /\ same_rest s s') \/
     (r = None /\ new_vma (vmas s) = None /\ s' = s) \/
     (r = junk_vma /\ s' = s /\
      forall a v, vmas s !! a = Some v -> vm_free v = true ->
        Z.log2 (vma_pages v) < Z.log2_up (len / 4096))).
Proof.
  intros K L Hm Hl. destruct (alloc_vma_run s xs X len K L Hm Hl) as (r & s' & E & Hr).
  exists r, s'. split; [done|]. unfold alloc_result in Hr. rewrite with_vlock_id in Hr by done.
  destruct Hr as [(Hno & -> & ->)|[(-> & Hn & ->)|(a & -> & Hp & Hr)]].
  - split; [done|]. by right; right.
  - split; [done|]. by right; left.
  - split; [by destruct Hr as (-> & _)|]. left. by exists a.
Qed.

(** A second [spin_lock] where [spin_unlock] is meant: *)
Lemma find_vma_stops va s r : find_vma va s <> Ret r.
Proof.
  destruct r as [r s']. unfold find_vma. intros H.
  apply M_bind_ret in H as (? & s1 & _ & H). apply M_bind_ret in H as ([] & s2 & L & H).
  assert (L2 : vma_lock s2 = 1).
  { unfold lock_vma, on_part, spin_lock in L. destruct (vma_lock s1 =? 0); [|done]. by injection L as <-. }
  apply M_bind_ret in H as (node & s3 & E3 & H). apply M_bind_ret in H as (? & s4 & E4 & H).
  apply M_bind_ret in H as (? & s5 & E5 & H). apply M_bind_ret in H as (? & s6 & E6 & H).
  apply M_bind_ret in H as (? & s7 & E7 & _).
  assert (Hpart : forall A (m : M at_tree A) t t' x, on_vtree m t = Ret (x, t') -> vma_lock t' = vma_lock t).
  { intros A m t t' ? Hm. unfold on_vtree, on_part in Hm. destruct (m _) as [[y u]| | |]; [|done..].
    by injection Hm as _ <-. }
  assert (Hlift : forall A (o : outcome A) (t t' : vmem) x, mlift o t = Ret (x, t') -> t' = t).
  { intros A o t t' ? Hm. unfold mlift in Hm. destruct o; [|done..]. by injection Hm. }
  apply Hpart in E3, E6. apply Hlift in E4, E5. subst.
  rewrite lock_vma_held in E7; [done|]. congruence.
Qed.

(** C40. Memory obtained from [vmalloc] or [vmap] cannot be given back:
    [find_vma] takes [vma_lock] twice instead of releasing it, so [vunmap]
    never returns, and [vfree] returns only for NULL. *)
Theorem vfree_never_returns (va : Z) (s : vmem) (r : unit * vmem) :
  vunmap va s <> Ret r /\ (va = 0 \/ vfree va s <> Ret r).
Proof.
  destruct r as [r s']. unfold vunmap, vfree. split; [|destruct (Z.eqb_spec va 0); [by left|right]];
    intros (? & ? & E & _)%M_bind_ret; by apply find_vma_stops in E.
Qed.

(** ** [vmalloc] *)

(** The free frames of both zones. *)
Definition free_frames (s : pmem) (F G : gset Z) : Prop :=
  exists a, pinv s a /\
    (forall p, p ∈ F <-> valid s p /\ ~ live_page a p /\ p < highmem_start_pfn) /\
    (forall p, p ∈ G <-> valid s p /\ ~ live_page a p /\ highmem_start_pfn <= p).

Lemma free_frames_low s F G : free_frames s F G -> free_low s F.
Proof. intros (a & K & HF & _). by exists a. Qed.

(** No block straddles the boundary of the zones. *)
Lemma block_zone h o p : 0 <= o <= PAGE_MAX_ORDER -> aligned h o -> inside p h o ->
  highmem_start_pfn <= p -> highmem_start_pfn <= h.
Proof.
  intros Ho Ha Hi Hp. change highmem_start_pfn with (2 ^ 10 * 224) in *. unfold inside, PAGE_MAX_ORDER in *.
  apply aligned_quot in Ha; [|lia]. set (q := h / 2 ^ o) in *.
  replace (2 ^ 10) with (2 ^ o * 2 ^ (10 - o)) in * by (rewrite <- Z.pow_add_r by lia; f_equal; lia).
  pose proof (pow2_pos o ltac:(lia)). pose proof (pow2_pos (10 - o) ltac:(lia)).
  assert (2 ^ (10 - o) * 224 <= q); [|nia]. apply Z.lt_succ_r. nia.
Qed.

Lemma alloc_high s F G : free_frames s F G -> G <> ∅ ->
  exists p s', alloc_page GFP_HIGHMEM s = Ret (Some p, s') /\ p ∈ G /\ free_frames s' F (G ∖ {[p]}).
Proof.
  intros (a & K & HF & HG) Hne. pose proof (pi_tile _ _ _ _ (proj1 K)) as T.
  destruct (alloc_pages_run s a GFP_HIGHMEM 0 K ltac:(done)) as (r & s' & a' & E & Hs & K' & V & _).
  pose proof (alloc_spec_live _ _ _ _ _ _ _ T ltac:(done) Hs) as L.
  destruct Hs as [Hn|h k Eh Hw _ _].
  - exfalso. apply set_choose_L in Hne as [p Hp]. apply HG in Hp as (Hv & Hl & Hhigh).
    destruct (proj1 (tl_cover _ _ _ T p) Hv) as (h & o & f & Eh & Hi).
    destruct f; [|apply Hl; by exists h, o]. destruct (tl_wf _ _ _ T _ _ _ Eh) as (W1 & W2 & W3).
    assert (o < 0); [|lia]. apply (Hn h o Eh). unfold wanted, in_highmem.
    change (Z.land GFP_HIGHMEM GFP_HIGHMEM =? 0) with false. cbn [negb].
    pose proof (block_zone _ _ _ W2 W3 Hi Hhigh). lia.
  - match type of K' with pinv _ ?x => set (a' := x) in * end.
    assert (Hlive : forall p, live_page a' p <-> live_page a p \/ p = h) by by apply live_page_one.
    assert (Hnl : ~ live_page a h).
    { intros (h' & o & E' & Hi). pose proof (tiling_inside_head _ _ _ _ _ _ _ T E' Hi Eh). congruence. }
    assert (Hhigh : highmem_start_pfn <= h).
    { unfold wanted, in_highmem in Hw. change (Z.land GFP_HIGHMEM GFP_HIGHMEM =? 0) with false in Hw. cbn [negb] in Hw. lia. }
    exists h, s'. split_and!; [done| |].
    + apply HG. split_and!; [by eapply tiling_head_managed|done|done].
    + exists a'. split_and!; [done| |]; intros p.
      * rewrite V, HF, Hlive. intuition lia.
      * rewrite elem_of_difference, elem_of_singleton, V, HG, Hlive. tauto.
Qed.

Definition with_falloc (f : pmem) (t : ptm) : ptm := PTM (words t) f (cr0 t) (cr3 t) (tlb t).

Lemma vm_pages_run {A} (m : M pmem A) s r f :
  m (falloc (vpt s)) = Ret (r, f) -> on_pages m s = Ret (r, with_vpt (with_falloc f (vpt s)) s).
Proof. intros E. unfold on_pages, on_vpt, on_part. by rewrite E. Qed.

Lemma alloc_entries_run n pages i s ps F G :
  free_frames (falloc (vpt s)) F G -> (n <= size G)%nat -> arrays s !! pages = Some ps ->
  0 <= i -> Z.of_nat (length ps) = i + Z.of_nat n ->
  exists qs f, alloc_entries n GFP_HIGHMEM pages i s =
      Ret (i + Z.of_nat n, with_arrays (<[pages := take (Z.to_nat i) ps ++ qs]> (arrays s))
                             (with_vpt (with_falloc f (vpt s)) s)) /\
    length qs = n /\ NoDup qs /\ (forall q, q ∈ qs -> q ∈ G) /\ free_low f F.
Proof.
  revert i s ps G. induction n as [|n IH]; intros i s ps G K Hn Ea Hi Hlen.
  { exists [], (falloc (vpt s)). split_and!; [|done|constructor|by intros q ?%elem_of_nil|by eapply free_frames_low].
    rewrite app_nil_r, take_ge, Z.add_0_r by lia. rewrite insert_id by done. by destruct s as [? ? ? ? ? []]. }
  destruct (alloc_high _ F G K) as (p & f & E & HpG & K').
  { intros ->. rewrite size_empty in Hn. lia. }
  cbn [alloc_entries]. rewrite (M_bind_run _ _ _ _ _ (vm_pages_run _ _ _ _ E)).
  set (s1 := with_vpt (with_falloc f (vpt s)) s).
  set (s2 := with_arrays (<[pages := <[Z.to_nat i := p]> ps]> (arrays s1)) s1).
  rewrite (M_bind_run _ _ s1 s2 tt).
  2: { unfold set_entry. cbn [arrays s1 with_vpt]. rewrite Ea. by if_true. }
  destruct (IH (i + 1) s2 (<[Z.to_nat i := p]> ps) (G ∖ {[p]})) as (qs & f' & E2 & Hl & Hnd & HG & K2).
  - exact K'.
  - rewrite size_difference by (by apply singleton_subseteq_l). rewrite size_singleton. lia.
  - cbn. by rewrite lookup_insert_eq.
  - lia.
  - rewrite length_insert. lia.
  - exists (p :: qs), f'. split_and!.
    + rewrite E2. f_equal. f_equal; [lia|]. unfold s2, s1. cbn. unfold with_arrays, with_vpt. cbn. f_equal.
      rewrite insert_insert_eq. f_equal.
      replace (Z.to_nat (i + 1)) with (S (Z.to_nat i)) by lia.
      rewrite (take_S_r _ _ p) by (apply list_lookup_insert_eq; lia).
      rewrite take_insert_ge by lia. by rewrite <- app_assoc.
    + cbn. lia.
    + apply list.NoDup_cons. split; [|done]. intros Hp. apply HG in Hp. set_solver.
    + intros q [->|Hq]%elem_of_cons; [done|]. apply HG in Hq. set_solver.
    + done.
Qed.

Lemma edited_from d v n g s s0 s' F F' :
  words s = words s0 -> cr3 s = cr3 s0 -> cr0 s = cr0 s0 ->
  edited d v n g s s' F F' -> edited d v n g s0 s' F F'.
Proof.
  intros Ew E3 E0 D. split; [apply D|apply D|apply D| | | |].
  - rewrite <- Ew. apply D.
  - rewrite <- E3, <- E0. apply D.
  - rewrite <- Ew. apply D.
  - rewrite <- Ew. apply D.
Qed.

Lemma round_up_page_spec sz : 0 < sz <= 2 ^ 32 - 4096 -> round_up_page sz = 4096 * ((sz + 4095) / 4096).
Proof.
  intros Hs. unfold round_up_page. change PAGE_SIZE with 4096. rewrite round_up_spec by lia.
  replace (sz + 4096 - 1) with (sz + 4095) by lia. lia.
Qed.

(** From a page on, [__vmalloc] does not warn. *)
Lemma vmalloc_pages_large gfp sz s : 4096 <= sz -> vmalloc_pages gfp sz s =
  (vma ← alloc_vma (round_up_page sz);
   match vma with
   | None => mret None
   | Some a =>
       let nr := Z.shiftr (round_up_page sz) PAGE_SHIFT in
       pages ← kmalloc_array nr;
       match pages with
       | None => _ ← free_vma a; mret None
       | Some pages =>
           i ← alloc_entries (Z.to_nat nr) gfp pages 0;
           if i <? nr then
             v ← get_vma a;
             _ ← free_entries_down (Z.to_nat i) (vm_pages v);
             _ ← kfree_array (vm_pages v);
             _ ← free_vma a;
             mret None
           else
             _ ← map_vm_area a (Some pages) nr;
             v ← get_vma a;
             mret (Some (vm_start v))
       end
   end) s.
Proof.
  intros Hs. unfold vmalloc_pages, WARN_ON. change PAGE_SIZE with 4096. by replace (sz <? 4096) with false by lia.
Qed.

(** Below a page it does, and the warning itself is the fault: the line
    number of the macro is taken for a string. *)
Theorem vmalloc_small_faults sz s : 0 <= sz < 4096 -> vmalloc sz s = Fault.
Proof.
  intros Hs. unfold vmalloc, vmalloc_pages, WARN_ON. change PAGE_SIZE with 4096.
  by replace (sz <? 4096) with true by lia.
Qed.

(** One attempt of [__vmalloc] in high memory. *)
Lemma vmalloc_pages_run s xs X d F G pages sz :
  let nr := (sz + 4095) / 4096 in
  vinv s xs X -> vma_lock s = 0 -> pt_ok (vpt s) d F -> kpgdir s = page_to_virt d ->
  free_frames (falloc (vpt s)) F G -> 4096 <= sz <= 2 ^ 32 - 4096 ->
  nr <= Z.of_nat (size G) -> nr <= Z.of_nat (size F) -> has_area s nr -> new_array (arrays s) nr = Some pages ->
  exists r s', vmalloc_pages GFP_HIGHMEM sz s = Ret (r, s') /\
    match r with
    | None => new_vma (vmas s) = None /\ s' = s /\ alloc_vma (4096 * nr) s = Ret (None, s)
    | Some p => exists a qs F', Z.of_nat (length qs) = nr /\ NoDup qs /\ (forall q, q ∈ qs -> q ∈ G) /\
        mapped s s' xs a pages qs p /\
        edited d (p / 4096) nr (entry_at qs 0 (p / 4096)) (vpt s) (vpt s') F F'
    end.
Proof.
  intros nr K L Kp Ek Kf Hsz HG HF Ha Hna.
  assert (Hnr : 0 < nr < 2 ^ 20).
  { unfold nr. split; [apply Z.div_str_pos; lia|]. apply Z.div_lt_upper_bound; lia. }
  destruct (alloc_vma_found s xs X nr K L Hnr Ha) as (r & s1 & E1 & H1).
  rewrite vmalloc_pages_large by lia. rewrite round_up_page_spec by lia. fold nr.
  rewrite (M_bind_run _ _ _ _ _ E1). destruct r as [a|].
  2: { destruct H1 as [? ->]. by exists None, s. }
  destruct H1 as (Hp & R1 & R2 & R3 & R4).
  unfold PAGE_SHIFT. rewrite Z.shiftr_div_pow2 by lia. change (2 ^ 12) with 4096.
  rewrite (Z.mul_comm 4096 nr), Z.div_mul by lia.
  set (s2 := with_arrays (<[pages := replicate (Z.to_nat nr) 0]> (arrays s1)) s1).
  rewrite (M_bind_run _ _ s1 s2 (Some pages)) by (unfold kmalloc_array, s2; by rewrite R2, Hna).
  destruct (alloc_entries_run (Z.to_nat nr) pages 0 s2 (replicate (Z.to_nat nr) 0) F G) as (qs & f & E2 & Hl & Hnd & HqG & Kf2).
  - cbn. by rewrite R3.
  - lia.
  - cbn. by rewrite lookup_insert_eq.
  - lia.
  - rewrite length_replicate. lia.
  - set (s3 := with_arrays _ _) in E2. rewrite (M_bind_run _ _ _ _ _ E2). if_false.
    assert (Eq : Z.of_nat (length qs) = nr) by lia.
    destruct (map_new_area s xs X a s1 s3 pages qs d F K) as (p & s4 & F' & E4 & M4 & D4).
    + rewrite Eq. exact Hp.
    + congruence.
    + done.
    + change (vpt s3) with (with_falloc f (vpt s1)). rewrite R3. split; [apply Kp|exact Kf2|apply Kp|apply Kp|apply Kp].
    + cbn. congruence.
    + cbn. by rewrite lookup_insert_eq.
    + intros q Hq. apply HqG in Hq. destruct Kf as (? & _ & _ & HG'). apply HG' in Hq as ([? _] & _). done.
    + lia.
    + rewrite Eq in *. exists (Some p), s4. split; [exact E4|].
      exists a, qs, F'. split_and!; [done..|].
      eapply edited_from; [| | |exact D4]; cbn; by rewrite R3.
Qed.

(** C9. [vmalloc] of a page or more, on a machine with enough free high
    memory, free frames for the page tables, an area of sufficient order and
    an array for the pages: it answers NULL, changing nothing, only when no
    descriptor can be allocated; otherwise it returns the start of a formerly
    free part of the vmalloc range where the size rounded up to whole pages is
    mapped, writable, to distinct frames of high memory that were free; every
    other page translates as before and no other area changes.  (Sizes below a
    page fault in [WARN_ON]: [vmalloc_small_faults].) *)
Theorem vmalloc_ok (s : vmem) xs X d F G pages sz :
  let nr := (sz + 4095) / 4096 in
  vinv s xs X -> vma_lock s = 0 -> pt_ok (vpt s) d F -> kpgdir s = page_to_virt d ->
  free_frames (falloc (vpt s)) F G -> 4096 <= sz <= 2 ^ 32 - 4096 ->
  nr <= Z.of_nat (size G) -> nr <= Z.of_nat (size F) -> has_area s nr -> new_array (arrays s) nr = Some pages ->
  exists r s', vmalloc sz s = Ret (r, s') /\
    match r with
    | None => new_vma (vmas s) = None /\ s' = s
    | Some p => exists a qs F', Z.of_nat (length qs) = nr /\ NoDup qs /\ (forall q, q ∈ qs -> q ∈ G) /\
        mapped s s' xs a pages qs p /\
        edited d (p / 4096) nr (entry_at qs 0 (p / 4096)) (vpt s) (vpt s') F F'
    end.
Proof.
  intros nr K L Kp Ek Kf Hsz HG HF Ha Hna.
  destruct (vmalloc_pages_run s xs X d F G pages sz K L Kp Ek Kf Hsz HG HF Ha Hna) as (r & s1 & E & H).
  unfold vmalloc. rewrite (M_bind_run _ _ _ _ _ E). destruct r as [p|]; [by exists (Some p), s1|].
  destruct H as (Hn & -> & E2). exists None, s. split; [|done].
  rewrite vmalloc_pages_large by lia. rewrite round_up_page_spec by lia. fold nr. by rewrite (M_bind_run _ _ _ _ _ E2).
Qed.

(** ** [vmalloc_init] *)

Lemma init_vma_lists_dll n m o :
  0 <= o < Z.of_nat n -> dll (init_vma_lists n m) (FreeVmaLists o) [].
Proof.
  induction n as [|n IH]; intros Ho; [lia|]. cbn [init_vma_lists].
  destruct (decide (o = Z.of_nat n)) as [->|Hne]; [apply list_init_dll|].
  apply (dll_frame (init_vma_lists n m)); [|apply IH; lia]. intros c Hc.
  apply list_elem_of_singleton in Hc as ->. apply list_init_frame. intros [= ?]. lia.
Qed.

Definition whole_range : vm_area := with_free true (with_end VMALLOC_END (with_start VMALLOC_START junk)).

Lemma init_lists_ok m :
  lists_ok MAX_VMA_ORDER (list_init VmaList (init_vma_lists (Z.to_nat (MAX_VMA_ORDER + 1)) m)) ∅.
Proof.
  exists (fun _ _ => []). intros z o Ho. split.
  - apply (dll_frame (init_vma_lists (Z.to_nat (MAX_VMA_ORDER + 1)) m)).
    + intros c Hc. apply list_elem_of_singleton in Hc as ->. by apply list_init_frame.
    + apply init_vma_lists_dll. unfold MAX_VMA_ORDER in *. lia.
  - intros h. rewrite lookup_empty. set_solver.
Qed.

Lemma vmalloc_init_run s a :
  vmas s = ∅ -> new_vma ∅ = Some a ->
  exists s', vmalloc_init s = Ret (0, s') /\ vinv s' [a] ∅ /\ vma_lock s' = 0 /\
    vmas s' = {[a := whole_range]} /\ vpt s' = vpt s /\ arrays s' = arrays s /\ kpgdir s' = kpgdir s.
Proof.
  intros Em Ha. set (n0 := list_init VmaList (init_vma_lists (Z.to_nat (MAX_VMA_ORDER + 1)) (vnodes s))).
  destruct (list_insert_head_dll n0 VmaList [] (VNode a)) as (n1 & E1 & D1 & F1); [apply list_init_dll|set_solver|].
  assert (L1 : lists_ok MAX_VMA_ORDER n1 ∅).
  { apply (lists_ok_vnodes n0); [|apply init_lists_ok]. intros c Hc Hc'. apply F1. set_solver. }
  destruct (lists_ok_push MAX_VMA_ORDER n1 ∅ a 19 L1) as (n2 & E2 & L2 & F2); [done|intros o'; by rewrite lookup_empty|].
  set (m1 := <[a := with_start VMALLOC_START junk]> (<[a := junk]> ∅ : gmap Z vm_area)).
  set (m2 := <[a := with_end VMALLOC_END (with_start VMALLOC_START junk)]> m1).
  set (m3 := <[a := whole_range]> m2).
  assert (E3 : m3 = {[a := whole_range]}) by (unfold m3, m2, m1; by rewrite !insert_insert_eq, insert_empty).
  exists (with_vlock 0 (with_vtree at_empty (with_vnodes n2 (with_vnodes n1 (with_vmas m3 (with_vnodes n0 s)))))).
  split_and!; [| |reflexivity|exact E3|reflexivity|reflexivity|reflexivity].
  - unfold vmalloc_init. rewrite (M_bind_run _ _ _ _ tt eq_refl), (M_bind_run _ _ _ _ tt eq_refl).
    cbn [vnodes with_vnodes]. fold n0. change (with_vnodes n0 (with_vnodes _ s)) with (with_vnodes n0 s).
    unfold kmalloc_vma. unfold mbind at 1, M_bind at 1. cbn [vmas with_vnodes]. rewrite Em, Ha.
    rewrite (M_bind_run _ _ _ _ tt eq_refl), (M_bind_run _ _ _ _ a eq_refl).
    rewrite (M_bind_run _ _ _ _ tt (upd_vma_on a junk _ _ _ (lookup_insert_eq _ _ _))). fold m1.
    rewrite (M_bind_run _ _ _ _ tt (upd_vma_on a _ _ m1 _ (lookup_insert_eq _ _ _))). fold m2.
    rewrite (M_bind_run _ _ _ _ tt (upd_vma_on a _ _ m2 _ (lookup_insert_eq _ _ _))).
    change (with_free true (with_end VMALLOC_END (with_start VMALLOC_START junk))) with whole_range. fold m3.
    erewrite (M_bind_run _ _ _ _ whole_range); [|apply get_vma_run; apply lookup_insert_eq].
    change (ilog2 (Z.shiftr (vma_length whole_range) PAGE_SHIFT)) with 19.
    erewrite (M_bind_run _ _ _ _ tt); [|apply on_vnodes_run; exact E1].
    erewrite (M_bind_run _ _ _ _ tt); [|apply on_vnodes_run; exact E2].
    rewrite (M_bind_run _ _ _ _ tt eq_refl), (M_bind_run _ _ _ _ tt eq_refl).
    reflexivity.
  - split; cbn [vmas vnodes vma_tree with_vlock with_vtree with_vnodes with_vmas].
    + by eapply dll_vma_frame.
    + intros x [v Hx]. rewrite E3 in Hx. apply lookup_singleton_Some in Hx as [-> _]. set_solver.
    + exists whole_range. rewrite E3, lookup_singleton_eq. by split_and!.
    + rewrite E3. eapply lists_ok_ext; [|exact L2]. intros x o. unfold ord_map. rewrite lookup_fmap, lookup_insert.
      destruct (decide (a = x)) as [->|Hne]; [by rewrite lookup_singleton_eq|].
      by rewrite lookup_singleton_ne, lookup_empty.
    + apply at_empty_ok.
    + by intros st en x Hx%elem_of_empty.
Qed.
End Claims.

(** ** Concrete runs *)

#[local] Instance tree_nodes : NodeAlloc := {
  alloc m := Some (fresh (dom m));
  alloc_fresh m a E := ltac:(injection E as <-; apply not_elem_of_dom, is_fresh)
}.

#[local] Instance vheap0 : VHeap := {
  new_vma m := Some (fresh (dom m));
  new_array m n := Some (fresh (dom m));
  junk := VmArea 0 0 false None 0;
  junk_vma := None;
  new_vma_fresh m a E := ltac:(injection E as <-; apply not_elem_of_dom, is_fresh);
  new_array_fresh m n a E := ltac:(injection E as <-; apply not_elem_of_dom, is_fresh)
}.

(** Before [vmalloc_init], with page tables [t] and an array of two pages. *)
Definition vm_boot (t : ptm) : vmem :=
  VMem ∅ ∅ rb_tree_create 0 {[7 := [0x38000; 0x38001]]} t (page_to_virt 256).

Definition area0 : Z := fresh (dom (∅ : gmap Z vm_area)).

Lemma vm_boot_init t : exists s', vmalloc_init (vm_boot t) = Ret (0, s') /\ vinv s' [area0] ∅ /\ vma_lock s' = 0 /\
  vmas s' = {[area0 := whole_range]} /\ vpt s' = t /\ arrays s' = {[7 := [0x38000; 0x38001]]} /\
  kpgdir s' = page_to_virt 256.
Proof. exact (vmalloc_init_run (vm_boot t) area0 eq_refl eq_refl). Qed.

Lemma whole_area (s : vmem) nr :
  vmas s = {[area0 := whole_range]} -> Z.log2_up nr <= 19 -> has_area s nr.
Proof.
  intros E Hn. exists area0, whole_range. rewrite E, lookup_singleton_eq. split_and!; [done|done|].
  by change (Z.log2 (vma_pages whole_range)) with 19.
Qed.

Lemma frames0_large : (2 <= base.size frames0)%nat.
Proof. unfold frames0. rewrite size_list_to_set by apply NoDup_seqZ. rewrite length_seqZ. lia. Qed.

Lemma alloc_vma_ok_witness :
  exists s xs r s', vinv s xs ∅ /\ alloc_vma 0x3000 s = Ret (r, s') /\ vma_lock s' = 0 /\
    ((exists a, r = Some a /\ alloc_post s xs ∅ 0x3000 a s' /\ same_rest s s') \/
     (r = None /\ new_vma (vmas s) = None /\ s' = s) \/
     (r = junk_vma /\ s' = s /\
      forall a v, vmas s !! a = Some v -> vm_free v = true ->
        Z.log2 (vma_pages v) < Z.log2_up (0x3000 / 4096))).
Proof.
  destruct (vm_boot_init ptm0) as (s & _ & K & L & _).
  destruct (alloc_vma_ok s [area0] ∅ 0x3000 K L eq_refl ltac:(lia)) as (r & s' & H).
  exists s, [area0], r, s'. exact (conj K H).
Defined.

Lemma vmap_ok_witness :
  exists s r s', vmap (Some 7) 2 s = Ret (r, s') /\
    match r with
    | None => new_vma (vmas s) = None /\ s' = s
    | Some p => exists a F', mapped s s' [area0] a 7 [0x38000; 0x38001] p /\
        edited 256 (p / 4096) 2 (entry_at [0x38000; 0x38001] 0 (p / 4096)) (vpt s) (vpt s') frames0 F'
    end.
Proof.
  destruct (vm_boot_init ptm0) as (s & _ & K & L & Ev & Et & Ea & Ek). exists s.
  apply (vmap_ok s [area0] ∅ 256 frames0 7 [0x38000; 0x38001] K L).
  - rewrite Et. apply ptm0_ok.
  - done.
  - by rewrite Ea.
  - intros p Hp. unfold TOTAL_PAGES. set_solver by lia.
  - split; [cbn; lia|]. apply frames0_large.
  - done.
  - by apply whole_area.
Defined.

Lemma mem1_frames : free_frames mem1 frames0 {[0x38000; 0x38001]}.
Proof.
  destruct mem1_inv as (a & K & L & V). exists a. split; [done|].
  assert (Hl : forall p, ~ live_page a p) by (intros p (h & o & E & _); by apply L in E).
  change highmem_start_pfn with 0x38000. split; intros p; rewrite V; unfold range.
  - rewrite frames0_spec. specialize (Hl p). intuition lia.
  - rewrite elem_of_union, !elem_of_singleton. specialize (Hl p). intuition lia.
Qed.

Lemma vmalloc_ok_witness :
  exists s pages r s', vmalloc 0x1800 s = Ret (r, s') /\
    match r with
    | None => new_vma (vmas s) = None /\ s' = s
    | Some p => exists a qs F', Z.of_nat (length qs) = 2 /\ NoDup qs /\
        (forall q, q ∈ qs -> q ∈ ({[0x38000; 0x38001]} : gset Z)) /\
        mapped s s' [area0] a pages qs p /\
        edited 256 (p / 4096) 2 (entry_at qs 0 (p / 4096)) (vpt s) (vpt s') frames0 F'
    end.
Proof.
  destruct (vm_boot_init ptm0) as (s & _ & K & L & Ev & Et & Ea & Ek).
  exists s, (fresh (dom (arrays s))).
  apply (vmalloc_ok s [area0] ∅ 256 frames0 {[0x38000; 0x38001]} (fresh (dom (arrays s))) 0x1800 K L).
  - rewrite Et. apply ptm0_ok.
  - done.
  - rewrite Et. apply mem1_frames.
  - lia.
  - rewrite size_union by set_solver. by rewrite !size_singleton.
  - change ((0x1800 + 4095) / 4096) with 2. pose proof frames0_large. lia.
  - by apply whole_area.
  - done.
Defined.

(** No memory at all below the areas. *)
Definition ptm_none : ptm := PTM ∅ pmem_bss 0 0 ∅.

Definition free_and_retry : M vmem (Z * option Z) :=
  _ ← vmalloc_init;
  r ← alloc_vma 0x1000;
  a ← mlift (deref r);
  _ ← free_vma a;
  r2 ← alloc_vma 0x1000;
  mret (a, r2).

(** [free_vma] gives nothing back: it joins the area with its free
    neighbours, takes those off the free lists and marks the result free,
    but never puts it on a list.  After allocating and freeing a single
    page, no area can be found any more, although one free area is the whole
    range again: [alloc_vma] returns its uninitialised pointer. *)
Theorem free_vma_loses_range :
  exists s a, free_and_retry (vm_boot ptm_none) = Ret ((a, junk_vma), s) /\
    vma_pages <$> vmas s = {[a := 0xBFFFF]} /\ vm_free <$> vmas s = {[a := true]}.
Proof.
  set (r := free_and_retry _).
  assert (H : match r with
    | Ret ((a, None), s) => bool_decide (vma_pages <$> vmas s = {[a := 0xBFFFF]}) &&
                            bool_decide (vm_free <$> vmas s = {[a := true]})
    | _ => false end = true) by (unfold r; vm_compute; reflexivity).
  destruct r as [[[a [b|]] s]| | |]; [done| |done..]. apply andb_prop in H as [H1 H2].
  exists s, a. split; [done|]. by split; eapply bool_decide_eq_true.
Qed.

(** One free page in each zone. *)
Definition pmem_two : pmem :=
  match (_ ← page_init; _ ← add_free_pages 0x100 0x101; add_free_pages 0x38000 0x38001) pmem_bss with
  | Ret (_, s) => s | _ => pmem_bss
  end.

Definition init_and_vmalloc (sz : Z) : M vmem (option Z) := _ ← vmalloc_init; vmalloc sz.

(** When pages run out, [__vmalloc] frees the pages of [vma->pages],
    which is assigned only on success: with one page of high memory left, a
    request for two pages dereferences the uninitialised field (here NULL). *)
Theorem vmalloc_oom_faults :
  init_and_vmalloc 0x2000 (vm_boot (PTM ∅ pmem_two 0 0 ∅)) = Fault.
Proof.
  set (r := init_and_vmalloc _ _).
  assert (H : match r with Fault => true | _ => false end = true) by (unfold r; vm_compute; reflexivity).
  by destruct r.
Qed.
