(* ===== verification/Fs.v ===== *)
(** * The in-memory file system (fs/fs.c)

    Directories hold two intrusive lists, of files and of directories.  The
    state keeps the blocks in use and, separately, the list nodes inside
    them: [kfree] leaves the contents of a block alone (as mm/slab.c does),
    so a node of a freed block still reads as it was.  [stale] records that
    the code has read one.

    [holds] relates a state to a tree of directories; [remove_directory] is
    shown to free exactly the blocks of the tree it is given. *)

From stdpp Require Import base numbers list gmap sets.
From Stdlib Require Import ZArith Lia ZifyBool ZifyNat.
From S2P Require Import Prelude ListNode.

Open Scope Z_scope.

(** Node addresses: the heads in a directory, the nodes of a file and of a
    directory. *)
Inductive floc : Type :=
  | FileList (dir : Z)
  | DirList (dir : Z)
  | FNode (file : Z)
  | DNode (dir : Z).

#[export] Instance floc_eq_dec : EqDecision floc.
Proof. solve_decision. Defined.
#[export] Instance floc_countable : Countable floc.
Proof.
  refine (inj_countable'
    (fun l => match l with
      | FileList d => (0, d) | DirList d => (1, d) | FNode f => (2, f) | DNode d => (3, d) end)
    (fun t => match t.1 with
      | 0 => FileList t.2 | 1 => DirList t.2 | 2 => FNode t.2 | _ => DNode t.2 end) _).
  by intros [].
Defined.

(** Names are the bytes of the string; [strcmp] finds two of them equal
    exactly when they are (CString.v). *)
Record file := File {
  f_name : list Z;
  f_priv : Z;
  f_parent : Z;
  f_fops : Z
}.

Record directory := Directory {
  d_name : list Z;
  d_parent : option Z
}.

(** [root], [bin], [proc] and [sys] are the global variables. *)
Record fs := Fs {
  files : gmap Z file;
  dirs : gmap Z directory;
  fnodes : gmap floc (list_node floc);
  stale : bool;
  root : option Z;
  bin : option Z;
  proc : option Z;
  sys : option Z
}.

(** [kmalloc] of the two kinds of block: fresh, or NULL. *)
Class FsHeap := {
  new_file : gmap Z file -> option Z;
  new_dir : gmap Z directory -> option Z;
  new_file_fresh : forall m a, new_file m = Some a -> m !! a = None;
  new_dir_fresh : forall m a, new_dir m = Some a -> m !! a = None
}.

Section Fs.
Context `{FH : FsHeap}.

Definition with_files (x : gmap Z file) (s : fs) : fs :=
  Fs x (dirs s) (fnodes s) (stale s) (root s) (bin s) (proc s) (sys s).
Definition with_dirs (x : gmap Z directory) (s : fs) : fs :=
  Fs (files s) x (fnodes s) (stale s) (root s) (bin s) (proc s) (sys s).
Definition with_fnodes (x : gmap floc (list_node floc)) (s : fs) : fs :=
  Fs (files s) (dirs s) x (stale s) (root s) (bin s) (proc s) (sys s).
Definition with_stale (x : bool) (s : fs) : fs :=
  Fs (files s) (dirs s) (fnodes s) x (root s) (bin s) (proc s) (sys s).

Definition on_fnodes (f : gmap floc (list_node floc) -> outcome (gmap floc (list_node floc))) : M fs unit :=
  fun s => match f (fnodes s) with
           | Ret n => Ret (tt, with_fnodes n s) | Bug => Bug | Fault => Fault | Spin => Spin
           end.

Definition get_file (f : Z) : M fs file := fun s =>
  match files s !! f with Some x => Ret (x, s) | None => Fault end.
Definition get_dir (d : Z) : M fs directory := fun s =>
  match dirs s !! d with Some x => Ret (x, s) | None => Fault end.
Definition kfree_file (f : Z) : M fs unit := fun s =>
  match files s !! f with Some _ => Ret (tt, with_files (delete f (files s)) s) | None => Fault end.
Definition kfree_dir (d : Z) : M fs unit := fun s =>
  match dirs s !! d with Some _ => Ret (tt, with_dirs (delete d (dirs s)) s) | None => Fault end.

(** The block a node lies in is in use. *)
Definition in_use (s : fs) (c : floc) : bool :=
  match c with
  | FNode f => bool_decide (is_Some (files s !! f))
  | FileList d | DirList d | DNode d => bool_decide (is_Some (dirs s !! d))
  end.

(** [node->next]. *)
Definition next_of (c : floc) : M fs (option floc) := fun s =>
  Ret (next (nd (fnodes s) c), with_stale (stale s || negb (in_use s c)) s).

(** [container_of(node, struct file, node)] and the same for directories. *)
Definition file_of (p : option floc) : outcome Z :=
  match p with Some (FNode f) => Ret f | _ => Fault end.
Definition dir_of (p : option floc) : outcome Z :=
  match p with Some (DNode d) => Ret d | _ => Fault end.

(** A bound for the loops over a list. *)
Definition list_fuel (s : fs) : nat := S (size (files s) + size (dirs s)).

Fixpoint find_file_loop (fuel : nat) (name : list Z) (head : floc) (node : option floc) : M fs (option Z) :=
  match fuel with
  | O => fun _ => Spin
  | S fuel =>
      if bool_decide (node = Some head) then mret None
      else
        f ← mlift (file_of node);
        x ← get_file f;
        if bool_decide (name = f_name x) then mret (Some f)
        else n ← next_of (FNode f); find_file_loop fuel name head n
  end.
Definition dir_find_file (dir : Z) (name : list Z) : M fs (option Z) :=
  s ← mget;
  n ← next_of (FileList dir);
  find_file_loop (list_fuel s) name (FileList dir) n.

Fixpoint find_dir_loop (fuel : nat) (name : list Z) (head : floc) (node : option floc) : M fs (option Z) :=
  match fuel with
  | O => fun _ => Spin
  | S fuel =>
      if bool_decide (node = Some head) then mret None
      else
        d ← mlift (dir_of node);
        x ← get_dir d;
        if bool_decide (name = d_name x) then mret (Some d)
        else n ← next_of (DNode d); find_dir_loop fuel name head n
  end.
Definition dir_find_dir (dir : Z) (name : list Z) : M fs (option Z) :=
  s ← mget;
  n ← next_of (DirList dir);
  find_dir_loop (list_fuel s) name (DirList dir) n.

(** The result code and the pointer stored through [file]. *)
Definition create_file (name : list Z) (fops parent priv : Z) : M fs (Z * option Z) := fun s =>
  match new_file (files s) with
  | None => Ret ((- ENOMEM, None), s)
  | Some f =>
      (_ ← mmod (fun s => with_files (<[f := File name priv parent fops]> (files s)) s);
       _ ← get_dir parent;
       _ ← on_fnodes (list_insert (FileList parent) (FNode f));
       mret (0, Some f)) s
  end.

Definition remove_file (f : Z) : M fs Z :=
  _ ← get_file f;
  _ ← on_fnodes (list_remove (FNode f));
  _ ← kfree_file f;
  mret 0.

Definition create_directory (name : list Z) (parent : option Z) : M fs (Z * option Z) := fun s =>
  match new_dir (dirs s) with
  | None => Ret ((- ENOMEM, None), s)
  | Some d =>
      (_ ← mmod (fun s => with_dirs (<[d := Directory name parent]> (dirs s)) s);
       _ ← mmod (fun s => with_fnodes (list_init (FileList d) (fnodes s)) s);
       _ ← mmod (fun s => with_fnodes (list_init (DirList d) (fnodes s)) s);
       _ ← match parent with
           | Some p => _ ← get_dir p; on_fnodes (list_insert (DirList p) (DNode d))
           | None => mret tt
           end;
       mret (0, Some d)) s
  end.

(** The two loops of [remove_directory]; the step [node = node->next] reads
    the node of the block that was freed in the body. *)
Fixpoint remove_files (fuel : nat) (head : floc) (node : option floc) : M fs unit :=
  match fuel with
  | O => fun _ => Spin
  | S fuel =>
      if bool_decide (node = Some head) then mret tt
      else
        f ← mlift (file_of node);
        _ ← remove_file f;
        n ← next_of (FNode f);
        remove_files fuel head n
  end.

Fixpoint remove_dirs (remove : Z -> M fs Z) (fuel : nat) (head : floc) (node : option floc) : M fs unit :=
  match fuel with
  | O => fun _ => Spin
  | S fuel =>
      if bool_decide (node = Some head) then mret tt
      else
        d ← mlift (dir_of node);
        _ ← remove d;
        n ← next_of (DNode d);
        remove_dirs remove fuel head n
  end.

(** [depth] bounds the recursion. *)
Fixpoint remove_dir_loop (depth : nat) (dir : Z) : M fs Z :=
  match depth with
  | O => fun _ => Spin
  | S depth =>
      s ← mget;
      _ ← get_dir dir;
      n ← next_of (FileList dir);
      _ ← remove_files (list_fuel s) (FileList dir) n;
      n ← next_of (DirList dir);
      _ ← remove_dirs (remove_dir_loop depth) (list_fuel s) (DirList dir) n;
      _ ← on_fnodes (list_remove (DNode dir));
      _ ← kfree_dir dir;
      mret 0
  end.
Definition remove_directory (dir : Z) : M fs Z :=
  s ← mget; remove_dir_loop (S (size (dirs s))) dir.

(** A global variable that is used as a pointer. *)
Definition global (get : fs -> option Z) : M fs Z := s ← mget; mlift (deref (get s)).

Definition binfs_find_file (name : list Z) : M fs (option Z) := d ← global bin; dir_find_file d name.
Definition binfs_create_file (name : list Z) (fops priv : Z) : M fs (Z * option Z) :=
  d ← global bin; create_file name fops d priv.
Definition binfs_remove_file (name : list Z) : M fs Z :=
  d ← global bin;
  f ← dir_find_file d name;
  match f with None => mret (- ENOENT) | Some f => remove_file f end.
Definition procfs_create_dir (name : list Z) : M fs (Z * option Z) :=
  d ← global proc; create_directory name (Some d).
Definition procfs_remove_dir (name : list Z) : M fs Z :=
  p ← global proc;
  d ← dir_find_dir p name;
  match d with None => mret (- ENOENT) | Some d => remove_directory d end.

(** The strings "/", "bin", "proc" and "sys". *)
Definition s_root : list Z := [47].
Definition s_bin : list Z := [98; 105; 110].
Definition s_proc : list Z := [112; 114; 111; 99].
Definition s_sys : list Z := [115; 121; 115].

Definition set_globals (r b p y : option Z) (s : fs) : fs :=
  Fs (files s) (dirs s) (fnodes s) (stale s) r b p y.

Definition fs_init : M fs Z :=
  '(ret, d) ← create_directory s_root None;
  if negb (ret =? 0) then mret ret else
  _ ← mmod (fun s => set_globals d (bin s) (proc s) (sys s) s);
  r ← global root;
  '(ret, d) ← create_directory s_bin (Some r);
  if negb (ret =? 0) then mret ret else
  _ ← mmod (fun s => set_globals (root s) d (proc s) (sys s) s);
  '(ret, d) ← create_directory s_proc (Some r);
  if negb (ret =? 0) then mret ret else
  _ ← mmod (fun s => set_globals (root s) (bin s) d (sys s) s);
  '(ret, d) ← create_directory s_sys (Some r);
  if negb (ret =? 0) then mret ret else
  _ ← mmod (fun s => set_globals (root s) (bin s) (proc s) d s);
  mret 0.

(** ** Trees of directories *)

#[warnings="-register-all"] Inductive dtree : Type := DTree (d : Z) (fl : list Z) (sub : list dtree).

Definition troot (t : dtree) : Z := let 'DTree d _ _ := t in d.
Fixpoint tdirs (t : dtree) : list Z := let 'DTree d _ sub := t in d :: concat (map tdirs sub).
Fixpoint tfiles (t : dtree) : list Z := let 'DTree _ fl sub := t in fl ++ concat (map tfiles sub).

(** The lists in the blocks of the tree are those the tree says, and the
    blocks are in use. *)
Fixpoint holds (s : fs) (t : dtree) : Prop :=
  let 'DTree d fl sub := t in
  is_Some (dirs s !! d) /\ (forall f, f ∈ fl -> is_Some (files s !! f)) /\
  dll (fnodes s) (FileList d) (FNode <$> fl) /\
  dll (fnodes s) (DirList d) (DNode <$> map troot sub) /\
  (fix all l := match l with [] => True | t :: l => holds s t /\ all l end) sub.

Definition distinct (t : dtree) : Prop := NoDup (tdirs t) /\ NoDup (tfiles t).

(** The nodes the lists of the tree go through; the node of its root belongs
    to the list of the parent. *)
Definition inner (t : dtree) (c : floc) : Prop :=
  match c with
  | FileList x | DirList x => x ∈ tdirs t
  | FNode f => f ∈ tfiles t
  | DNode x => x ∈ tdirs t /\ x <> troot t
  end.

Lemma tdirs_root t : troot t ∈ tdirs t.
Proof. destruct t. by left. Qed.

Lemma holds_all s sub :
  (fix all l := match l with [] => True | t :: l => holds s t /\ all l end) sub <->
  forall t, t ∈ sub -> holds s t.
Proof.
  induction sub as [|t sub IH]; [split; [by intros _ t ?%elem_of_nil|done]|]. rewrite IH. split.
  - intros [H1 H2] u [->|Hu]%elem_of_cons; [done|by apply H2].
  - intros H. split; [apply H; by left|]. intros u Hu. apply H. by right.
Qed.

Lemma elem_of_concat_map {A B} (f : A -> list B) (l : list A) x :
  x ∈ concat (map f l) <-> exists a, a ∈ l /\ x ∈ f a.
Proof.
  induction l as [|a l IH]; cbn; [split; [by intros ?%elem_of_nil|by intros (? & ?%elem_of_nil & _)]|].
  rewrite elem_of_app, IH. setoid_rewrite elem_of_cons. naive_solver.
Qed.

Lemma concat_map_inj {A B} (f : A -> list B) (l : list A) a b x :
  NoDup (concat (map f l)) -> a ∈ l -> b ∈ l -> x ∈ f a -> x ∈ f b -> a = b.
Proof.
  induction l as [|c l IH]; cbn; [by intros _ ?%elem_of_nil|].
  intros (N1 & N2 & N3)%list.NoDup_app [->|Ha]%elem_of_cons [->|Hb]%elem_of_cons Hx Hy; [done| | |by apply IH].
  - exfalso. apply (N2 x Hx). apply elem_of_concat_map. eauto.
  - exfalso. apply (N2 x Hy). apply elem_of_concat_map. eauto.
Qed.

(** Reading [holds] off a state that agrees on the inner nodes. *)
Lemma holds_frame n : forall s s' t, (length (tdirs t) <= n)%nat -> holds s t -> distinct t ->
  (forall c, inner t c -> nd (fnodes s') c = nd (fnodes s) c) ->
  (forall x, x ∈ tdirs t -> dirs s' !! x = dirs s !! x) ->
  (forall f, f ∈ tfiles t -> files s' !! f = files s !! f) ->
  holds s' t.
Proof.
  induction n as [|n IH]; intros s s' [d fl sub] Hn Ht Hd Hc Hdirs Hfiles; [cbn in Hn; lia|].
  destruct Ht as (H1 & H2 & H3 & H4 & H5). rewrite holds_all in H5. cbn [tdirs tfiles] in *.
  destruct Hd as [Nd Nf]. cbn [tdirs tfiles] in *. apply list.NoDup_cons in Nd as [Nd1 Nd2].
  cbn [holds]. split_and!.
  - rewrite Hdirs by (by left). done.
  - intros f Hf. rewrite Hfiles by set_solver. by apply H2.
  - apply (dll_frame (fnodes s)); [|done]. intros c [->|Hcm]%elem_of_cons; apply Hc; cbn; [by left|].
    apply list_elem_of_fmap in Hcm as (f & -> & Hf). cbn. set_solver.
  - apply (dll_frame (fnodes s)); [|done]. intros c [->|Hcm]%elem_of_cons; apply Hc; cbn; [by left|].
    apply list_elem_of_fmap in Hcm as (x & -> & Hx). apply list_elem_of_fmap in Hx as (t & -> & Ht).
    assert (troot t ∈ concat (map tdirs sub)) by (apply elem_of_concat_map; exists t; split; [done|apply tdirs_root]).
    cbn. split; [by right|]. intros E. by rewrite <- E in Nd1.
  - apply holds_all. intros t Ht.
    assert (Hin : forall x, x ∈ tdirs t -> x ∈ concat (map tdirs sub)) by (intros x Hx; apply elem_of_concat_map; eauto).
    assert (Hif : forall f, f ∈ tfiles t -> f ∈ concat (map tfiles sub)) by (intros x Hx; apply elem_of_concat_map; eauto).
    apply list_elem_of_split in Ht as (l1 & l2 & El).
    apply (IH s); [| | |intros [x|x|f|x] Hx; apply Hc; cbn in Hx |- *|intros; apply Hdirs|intros; apply Hfiles].
    + subst sub. cbn in Hn. rewrite map_app, concat_app, length_app in Hn. cbn in Hn. rewrite length_app in Hn. lia.
    + apply H5. subst sub. set_solver.
    + subst sub. rewrite map_app, concat_app in Nd2. cbn in Nd2. rewrite map_app, concat_app in Nf. cbn in Nf.
      split; [by apply list.NoDup_app in Nd2 as (_ & _ & [? _]%list.NoDup_app)|].
      by apply list.NoDup_app in Nf as (_ & _ & (_ & _ & [? _]%list.NoDup_app)%list.NoDup_app).
    + right. auto.
    + right. auto.
    + set_solver.
    + destruct Hx as [Hx _]. split; [right; auto|]. intros ->. auto.
    + right. auto.
    + set_solver.
Qed.

(** ** Removing the files of a directory *)

Lemma next_of_run c s : next_of c s = Ret (next (nd (fnodes s) c), with_stale (stale s || negb (in_use s c)) s).
Proof. done. Qed.

Lemma on_fnodes_run f n s : f (fnodes s) = Ret n -> on_fnodes f s = Ret (tt, with_fnodes n s).
Proof. intros E. unfold on_fnodes. by rewrite E. Qed.

(** The global variables of the two states agree. *)
Definition same_globals (s s' : fs) : Prop :=
  root s' = root s /\ bin s' = bin s /\ proc s' = proc s /\ sys s' = sys s.

Lemma remove_files_run d fl : forall fuel s,
  dll (fnodes s) (FileList d) (FNode <$> fl) -> (forall f, f ∈ fl -> is_Some (files s !! f)) ->
  (length fl < fuel)%nat ->
  exists s', remove_files fuel (FileList d) (next (nd (fnodes s) (FileList d))) s = Ret (tt, s') /\
    dirs s' = dirs s /\ same_globals s s' /\
    (forall f, files s' !! f = if decide (f ∈ fl) then None else files s !! f) /\
    (forall c, c <> FileList d -> (forall f, f ∈ fl -> c <> FNode f) -> nd (fnodes s') c = nd (fnodes s) c) /\
    stale s' = stale s || negb (bool_decide (fl = [])).
Proof.
  induction fl as [|f fl IH]; intros fuel s Hd Hl Hf; (destruct fuel as [|fuel]; [cbn in Hf; lia|]); cbn [remove_files].
  - rewrite (dll_next _ _ _ Hd). cbn [hd fmap list_fmap]. rewrite bool_decide_true by done.
    exists s. split_and!; [done..| |done|by rewrite orb_false_r]. intros f. by rewrite decide_False by (by intros ?%elem_of_nil).
  - rewrite (dll_next _ _ _ Hd). cbn [hd fmap list_fmap]. rewrite bool_decide_false by done.
    cbn [file_of]. rewrite (M_bind_run _ _ s s f eq_refl).
    destruct (Hl f) as [x Ex]; [by left|].
    cbn [fmap list_fmap] in Hd.
    destruct (list_remove_dll (fnodes s) (FileList d) [] (FNode f) (FNode <$> fl) Hd) as (n & En & Hd' & Hfr).
    assert (Hnd : f ∉ fl).
    { destruct Hd as [Hnd _]. apply list.NoDup_cons in Hnd as [_ Hnd]. apply list.NoDup_cons in Hnd as [Hnd _].
      intros Hin. apply Hnd. by apply list_elem_of_fmap_2. }
    assert (Enext : next (nd n (FNode f)) = next (nd n (FileList d))).
    { rewrite Hfr.
      - rewrite (dll_next _ _ _ Hd'). destruct Hd as [_ Hc].
        destruct fl as [|g fl]; cbn in Hc; [by destruct Hc as (_ & [-> _] & _)|by destruct Hc as (_ & [-> _] & _)].
      - rewrite not_elem_of_cons. split; [done|]. intros (y & [= <-] & Hy)%list_elem_of_fmap. done. }
    set (s1 := with_files (delete f (files s)) (with_fnodes n s)).
    rewrite (M_bind_run _ _ s s1 0).
    2: { unfold remove_file, get_file. unfold mbind at 1, M_bind at 1. rewrite Ex.
         rewrite (M_bind_run _ _ _ _ _ (on_fnodes_run _ n s En)).
         unfold kfree_file. unfold mbind, M_bind. cbn [files with_fnodes]. by rewrite Ex. }
    rewrite (M_bind_run _ _ _ _ _ (next_of_run (FNode f) s1)).
    change (fnodes s1) with n. rewrite Enext.
    assert (Eu : in_use s1 (FNode f) = false).
    { cbn. rewrite lookup_delete_eq. by apply bool_decide_false, is_Some_None. }
    rewrite Eu. set (s2 := with_stale _ s1).
    destruct (IH fuel s2) as (s' & E & Ed & Eg & Hfs & Hfr' & Est).
    + exact Hd'.
    + intros g Hg. cbn. rewrite lookup_delete_ne by (by intros ->). apply Hl. by right.
    + cbn in Hf. lia.
    + exists s'. split; [exact E|]. split_and!; [done|done| | |].
      * intros g. rewrite Hfs. cbn [files s2 s1 with_stale with_files]. rewrite lookup_delete.
        destruct (decide (f = g)) as [->|Hne].
        -- rewrite (decide_True (P := g ∈ g :: fl)) by (by left). by case_decide.
        -- destruct (decide (g ∈ fl)).
           ++ by rewrite decide_True by (by right).
           ++ by rewrite decide_False by (by intros [?|?]%elem_of_cons).
      * intros c Hc1 Hc2. rewrite Hfr'; [|done|intros g Hg; apply Hc2; by right].
        cbn [fnodes s2 s1 with_stale with_files with_fnodes]. apply Hfr. rewrite not_elem_of_cons.
        split; [done|]. intros (y & -> & Hy)%list_elem_of_fmap. by apply (Hc2 y); [right|].
      * rewrite Est. cbn. by rewrite !orb_true_r.
Qed.


(** ** Removing a tree *)

(** [s'] is [s] without the blocks of the trees [ts]. *)
Record removed (ts : list dtree) (s s' : fs) : Prop := Removed {
  rm_files : forall f, files s' !! f = if decide (f ∈ concat (map tfiles ts)) then None else files s !! f;
  rm_dirs : forall x, dirs s' !! x = if decide (x ∈ concat (map tdirs ts)) then None else dirs s !! x;
  rm_globals : same_globals s s'
}.

Definition is_leaf (t : dtree) : bool := let 'DTree _ fl sub := t in bool_decide (fl = []) && bool_decide (map troot sub = []).

(** The nodes that removing [t] from the list of its parent [p], where its
    siblings are [sibs], may write. *)
Definition touches (t : dtree) (p : Z) (sibs : list Z) (c : floc) : Prop :=
  inner t c \/ c = DirList p \/ exists x, x ∈ sibs /\ c = DNode x.

(** What one call of [remove_directory] promises. *)
Definition removes (rm : Z -> M fs Z) (t : dtree) (p : Z) (pre post : list Z) (s : fs) : Prop :=
  exists s', rm (troot t) s = Ret (0, s') /\ removed [t] s s' /\
    dll (fnodes s') (DirList p) (DNode <$> pre ++ post) /\
    (forall c, ~ touches t p (pre ++ post) c -> nd (fnodes s') c = nd (fnodes s) c) /\
    stale s' = stale s || negb (is_leaf t).

Lemma remove_dirs_run rm d sub : forall fuel s,
  (forall t s, t ∈ sub -> holds s t -> forall post, (forall x, x ∈ post -> x ∉ tdirs t) ->
     dll (fnodes s) (DirList d) (DNode <$> troot t :: post) -> removes rm t d [] post s) ->
  (forall t, t ∈ sub -> holds s t /\ distinct t) ->
  NoDup (concat (map tdirs sub)) -> NoDup (concat (map tfiles sub)) -> d ∉ concat (map tdirs sub) ->
  dll (fnodes s) (DirList d) (DNode <$> map troot sub) -> (length sub < fuel)%nat ->
  exists s', remove_dirs rm fuel (DirList d) (next (nd (fnodes s) (DirList d))) s = Ret (tt, s') /\
    removed sub s s' /\
    (forall c, c <> DirList d -> (forall t, t ∈ sub -> ~ inner t c /\ c <> DNode (troot t)) ->
       nd (fnodes s') c = nd (fnodes s) c) /\
    stale s' = stale s || negb (bool_decide (map troot sub = [])).
Proof.
  induction sub as [|t sub IH]; intros fuel s Hrm Hh Nd Nf Hdn Hd Hf;
    (destruct fuel as [|fuel]; [cbn in Hf; lia|]); cbn [remove_dirs].
  - rewrite (dll_next _ _ _ Hd). cbn [hd fmap list_fmap map]. rewrite bool_decide_true by done.
    exists s. split_and!; [done| |done|by rewrite orb_false_r]. split; [| |done]; intros x; cbn [map concat];
      by rewrite decide_False by (by intros ?%elem_of_nil).
  - rewrite (dll_next _ _ _ Hd). cbn [hd fmap list_fmap map]. rewrite bool_decide_false by done.
    cbn [dir_of]. rewrite (M_bind_run _ _ s s (troot t) eq_refl).
    cbn [map concat] in *. apply list.NoDup_app in Nd as (Nd1 & Nd2 & Nd3). apply list.NoDup_app in Nf as (Nf1 & Nf2 & Nf3).
    destruct (Hh t ltac:(by left)) as [Ht Hdist].
    assert (Hsib : forall x, x ∈ map troot sub -> x ∉ tdirs t).
    { intros x (u & -> & Hu)%list_elem_of_fmap Hx. apply (Nd2 _ Hx). apply elem_of_concat_map.
      exists u. split; [done|apply tdirs_root]. }
    destruct (Hrm t s ltac:(by left) Ht (map troot sub) Hsib Hd) as (s1 & E1 & R1 & D1 & F1 & St1).
    rewrite (M_bind_run _ _ _ _ _ E1), (M_bind_run _ _ _ _ _ (next_of_run (DNode (troot t)) s1)).
    assert (Hself : ~ touches t d ([] ++ map troot sub) (DNode (troot t))).
    { intros [[_ ?]|[?|(x & Hx & [= <-])]]; [done|done|]. by apply (Hsib _ Hx), tdirs_root. }
    assert (Enext : next (nd (fnodes s1) (DNode (troot t))) = next (nd (fnodes s1) (DirList d))).
    { rewrite (F1 _ Hself), (dll_next _ _ _ D1). destruct Hd as [_ Hc].
      destruct sub as [|u sub]; cbn in Hc; by destruct Hc as (_ & [-> _] & _). }
    rewrite Enext.
    assert (Eu : in_use s1 (DNode (troot t)) = false).
    { cbn. rewrite (rm_dirs _ _ _ R1), decide_True; [by apply bool_decide_false, is_Some_None|].
      cbn. rewrite app_nil_r. apply tdirs_root. }
    rewrite Eu. set (s2 := with_stale _ s1).
    assert (Hout : forall x, x ∈ concat (map tdirs sub) -> x ∉ tdirs t) by (intros x Hx Hx'; by apply (Nd2 x)).
    assert (Houtf : forall f, f ∈ concat (map tfiles sub) -> f ∉ tfiles t) by (intros x Hx Hx'; by apply (Nf2 x)).
    destruct (IH fuel s2) as (s' & E & R & F & St).
    + intros u v Hu. apply Hrm. by right.
    + intros u Hu. destruct (Hh u ltac:(by right)) as [Hhu Hdu]. split; [|done].
      assert (Hud : forall x, x ∈ tdirs u -> x ∈ concat (map tdirs sub)) by (intros; apply elem_of_concat_map; eauto).
      assert (Huf : forall x, x ∈ tfiles u -> x ∈ concat (map tfiles sub)) by (intros; apply elem_of_concat_map; eauto).
      apply (holds_frame _ s s2 u (le_n _) Hhu Hdu).
      * intros c Hc. apply F1. intros [Ht'|[->|(x & Hx & ->)]].
        -- destruct c as [x|x|f|x]; cbn in Hc, Ht'; [by apply (Hout x); auto..|by apply (Houtf f); auto|].
           destruct Hc, Ht'. by apply (Hout x); auto.
        -- cbn in Hc. apply Hdn. set_solver.
        -- cbn in Hc. destruct Hc as [Hxu Hxr]. apply list_elem_of_fmap in Hx as (w & -> & Hw).
           apply Hxr. f_equal. apply (concat_map_inj tdirs sub _ _ (troot w)); [done..|apply tdirs_root|done].
      * intros x Hx. cbn. rewrite (rm_dirs _ _ _ R1), decide_False; [done|]. cbn. rewrite app_nil_r. auto.
      * intros f Hfi. cbn. rewrite (rm_files _ _ _ R1), decide_False; [done|]. cbn. rewrite app_nil_r. auto.
    + done.
    + done.
    + set_solver.
    + exact D1.
    + cbn in Hf. lia.
    + exists s'. split; [exact E|]. split_and!.
      * split.
        -- intros f. rewrite (rm_files _ _ _ R). cbn [files s2 with_stale]. rewrite (rm_files _ _ _ R1). cbn [map concat].
           rewrite app_nil_r. repeat case_decide; set_solver.
        -- intros x. rewrite (rm_dirs _ _ _ R). cbn [dirs s2 with_stale]. rewrite (rm_dirs _ _ _ R1). cbn [map concat].
           rewrite app_nil_r. repeat case_decide; set_solver.
        -- destruct (rm_globals _ _ _ R1) as (G1 & G2 & G3 & G4), (rm_globals _ _ _ R) as (G5 & G6 & G7 & G8).
           unfold same_globals. cbn in *. split_and!; congruence.
      * intros c Hc Hin. rewrite F; [|done|intros u Hu; apply Hin; by right].
        apply F1. intros [Hx|[?|(x & (w & -> & Hw)%list_elem_of_fmap & ->)]]; [|done|].
        -- by destruct (Hin t ltac:(by left)).
        -- by destruct (Hin w ltac:(by right)).
      * rewrite St. cbn. by rewrite !orb_true_r.
Qed.

Lemma NoDup_size {A} (m : gmap Z A) (l : list Z) :
  NoDup l -> (forall x, x ∈ l -> is_Some (m !! x)) -> (length l <= size m)%nat.
Proof.
  intros Hn Hl. rewrite <- size_dom, <- (size_list_to_set (C := gset Z) l Hn).
  apply subseteq_size. intros x Hx. apply elem_of_dom, Hl. by apply elem_of_list_to_set in Hx.
Qed.

Lemma with_stale_id s : with_stale (stale s || negb true) s = s.
Proof. destruct s. unfold with_stale. cbn. by rewrite orb_false_r. Qed.

Lemma tfiles_inner d fl sub t c : t ∈ sub -> inner t c -> d ∉ concat (map tdirs sub) ->
  inner (DTree d fl sub) c.
Proof.
  intros Ht Hc Hd.
  assert (Hin : forall x, x ∈ tdirs t -> x ∈ concat (map tdirs sub)) by (intros; apply elem_of_concat_map; eauto).
  assert (Hif : forall x, x ∈ tfiles t -> x ∈ concat (map tfiles sub)) by (intros; apply elem_of_concat_map; eauto).
  destruct c as [x|x|f|x]; cbn in *.
  - right. auto.
  - right. auto.
  - apply elem_of_app. auto.
  - destruct Hc as [Hx _]. split; [right; auto|]. intros ->. auto.
Qed.

Lemma remove_dir_run depth : forall t p pre post s,
  (length (tdirs t) <= depth)%nat -> holds s t -> distinct t -> p ∉ tdirs t ->
  (forall x, x ∈ pre ++ post -> x ∉ tdirs t) ->
  dll (fnodes s) (DirList p) (DNode <$> pre ++ troot t :: post) ->
  removes (remove_dir_loop depth) t p pre post s.
Proof.
  induction depth as [|depth IH]; intros [d fl sub] p pre post s Hn Ht [Nd Nf] Hp Hsib Hpar; [cbn in Hn; lia|].
  destruct Ht as (Hd & Hfl & Lf & Ld & Hsub). rewrite holds_all in Hsub. cbn [tdirs tfiles troot] in *.
  apply list.NoDup_cons in Nd as [Nd1 Nd2]. apply list.NoDup_app in Nf as (Nf1 & Nf2 & Nf3).
  assert (Hdist : forall t, t ∈ sub -> distinct t /\ (length (tdirs t) <= depth)%nat).
  { intros t (l1 & l2 & ->)%list_elem_of_split. rewrite map_app, concat_app in *. cbn [map concat] in *.
    split; [split|]; [by apply list.NoDup_app in Nd2 as (_ & _ & [? _]%list.NoDup_app)
                     |by apply list.NoDup_app in Nf3 as (_ & _ & [? _]%list.NoDup_app)|].
    cbn in Hn. rewrite !length_app in Hn. lia. }
  assert (Hroots : forall x, x ∈ map troot sub -> x ∈ concat (map tdirs sub)).
  { intros x (t & -> & Ht)%list_elem_of_fmap. apply elem_of_concat_map. exists t. split; [done|apply tdirs_root]. }
  assert (Hlen : (length fl < list_fuel s)%nat /\ (length sub < list_fuel s)%nat).
  { pose proof (NoDup_size (files s) fl Nf1 Hfl). unfold list_fuel.
    assert (length (map troot sub) <= size (dirs s))%nat as Hl; [|rewrite length_map in Hl; lia].
    apply NoDup_size.
    - destruct Ld as [Hnd _]. apply list.NoDup_cons in Hnd as [_ Hnd]. by apply NoDup_fmap_1 in Hnd.
    - intros x (t & -> & Ht)%list_elem_of_fmap. specialize (Hsub t Ht). destruct t. apply Hsub. }
  destruct (remove_files_run d fl (list_fuel s) s Lf Hfl (proj1 Hlen)) as (s1 & E1 & Ed1 & G1 & Hf1 & F1 & St1).
  assert (Hk1 : forall t, t ∈ sub -> holds s1 t).
  { intros t Ht. destruct (Hdist t Ht) as [Hdt _].
    apply (holds_frame _ s s1 t (le_n _) (Hsub t Ht) Hdt).
    - intros c Hc. apply F1.
      + intros ->. apply Nd1, elem_of_concat_map. by exists t.
      + intros f Hf ->. apply (Nf2 f Hf), elem_of_concat_map. by exists t.
    - by rewrite Ed1.
    - intros f Hf. rewrite Hf1, decide_False; [done|]. intros Hin. apply (Nf2 f Hin), elem_of_concat_map. by exists t. }
  assert (Ld1 : dll (fnodes s1) (DirList d) (DNode <$> map troot sub)).
  { apply (dll_frame (fnodes s)); [|done]. intros c [->|(x & -> & _)%list_elem_of_fmap]%elem_of_cons; by apply F1. }
  destruct (remove_dirs_run (remove_dir_loop depth) d sub (list_fuel s) s1) as (s2 & E2 & R2 & F2 & St2); try done.
  { intros t u Ht Hu post' Hpost Hdl. destruct (Hdist t Ht). apply IH; try done.
    - intros Hin. apply Nd1, elem_of_concat_map. by exists t. }
  { intros t Ht. split; [by apply Hk1|by apply Hdist]. }
  { apply Hlen. }
  (* the list of the parent is not touched by the loops *)
  assert (Lp2 : dll (fnodes s2) (DirList p) (DNode <$> pre ++ d :: post)).
  { assert (Hpar1 : dll (fnodes s1) (DirList p) (DNode <$> pre ++ d :: post)).
    { apply (dll_frame (fnodes s)); [|done]. intros c [->|(x & -> & _)%list_elem_of_fmap]%elem_of_cons; by apply F1. }
    assert (Hx : forall x, x ∈ pre ++ d :: post -> x ∉ concat (map tdirs sub)).
    { intros x Hx Hin. rewrite elem_of_app, elem_of_cons in Hx. destruct Hx as [Hx|[->|Hx]]; [|done|];
        apply (Hsib x); set_solver. }
    apply (dll_frame (fnodes s1)); [|done]. intros c [->|(x & -> & Hxx)%list_elem_of_fmap]%elem_of_cons; apply F2.
    - intros [= ->]. apply Hp. by left.
    - intros t Ht. split; [|done]. cbn. intros Hin. apply Hp. right. apply elem_of_concat_map. by exists t.
    - done.
    - intros t Ht. split.
      + intros [Hin _]. apply (Hx x Hxx), elem_of_concat_map. by exists t.
      + intros [= ->]. apply (Hx _ Hxx), elem_of_concat_map. exists t. split; [done|apply tdirs_root]. }
  rewrite fmap_app, fmap_cons in Lp2. destruct (list_remove_dll _ _ _ _ _ Lp2) as (n & En & Dn & Fn).
  rewrite <- fmap_app in Dn, Fn.
  assert (Ed2 : dirs s2 !! d = dirs s !! d).
  { rewrite (rm_dirs _ _ _ R2), Ed1. by rewrite decide_False. }
  destruct Hd as [dd Hd].
  exists (with_dirs (delete d (dirs s2)) (with_fnodes n s2)). split_and!.
  - cbn [remove_dir_loop troot]. rewrite (M_bind_run _ _ s s s eq_refl).
    rewrite (M_bind_run _ _ s s dd) by (unfold get_dir; by rewrite Hd).
    rewrite (M_bind_run _ _ _ _ _ (next_of_run (FileList d) s)).
    assert (Eu : in_use s (FileList d) = true) by (cbn; by rewrite Hd, bool_decide_true).
    rewrite Eu, with_stale_id, (M_bind_run _ _ _ _ _ E1).
    rewrite (M_bind_run _ _ _ _ _ (next_of_run (DirList d) s1)).
    assert (Eu1 : in_use s1 (DirList d) = true) by (cbn; by rewrite Ed1, Hd, bool_decide_true).
    rewrite Eu1, with_stale_id, (M_bind_run _ _ _ _ _ E2).
    rewrite (M_bind_run _ _ _ _ _ (on_fnodes_run _ n s2 En)).
    unfold kfree_dir. unfold mbind, M_bind. cbn [dirs with_fnodes]. by rewrite Ed2, Hd.
  - split; cbn [files dirs with_dirs with_fnodes map concat tfiles tdirs].
    + intros f. rewrite (rm_files _ _ _ R2), Hf1, app_nil_r. repeat case_decide; set_solver.
    + intros x. rewrite lookup_delete, (rm_dirs _ _ _ R2), Ed1, app_nil_r. repeat case_decide; set_solver.
    + destruct G1 as (Q1 & Q2 & Q3 & Q4), (rm_globals _ _ _ R2) as (Q5 & Q6 & Q7 & Q8).
      unfold same_globals. cbn. split_and!; congruence.
  - exact Dn.
  - intros c Hc. cbn [fnodes with_dirs with_fnodes]. rewrite Fn.
    + rewrite F2, F1; [done| | | |].
      * intros ->. apply Hc. left. by left.
      * intros f Hf ->. apply Hc. left. cbn. set_solver.
      * intros ->. apply Hc. left. by left.
      * intros t Ht. split.
        -- intros Hin. apply Hc. left. by eapply tfiles_inner.
        -- intros ->. apply Hc. left. cbn. assert (troot t ∈ concat (map tdirs sub)) by (apply Hroots; by apply list_elem_of_fmap_2).
           split; [by right|]. intros E. by rewrite E in *.
    + rewrite not_elem_of_cons. split; [intros ->; apply Hc; by right; left|].
      intros (x & -> & Hx)%list_elem_of_fmap. apply Hc. right. right. by exists x.
  - cbn [stale with_dirs with_fnodes is_leaf]. rewrite St2, St1. by destruct (stale s), (bool_decide (fl = [])), (bool_decide (map troot sub = [])).
Qed.

Lemma holds_dirs n : forall s t x, (length (tdirs t) <= n)%nat -> holds s t -> x ∈ tdirs t -> is_Some (dirs s !! x).
Proof.
  induction n as [|n IH]; intros s [d fl sub] x Hn Ht Hx; [cbn in Hn; lia|].
  destruct Ht as (Hd & _ & _ & _ & Hsub). rewrite holds_all in Hsub. cbn in Hx.
  apply elem_of_cons in Hx as [->|Hx]; [done|]. apply elem_of_concat_map in Hx as (t & Ht & Hx).
  apply (IH s t); [|by apply Hsub|done]. apply list_elem_of_split in Ht as (l1 & l2 & ->).
  cbn in Hn. rewrite map_app, concat_app in Hn. cbn in Hn. rewrite !length_app in Hn. lia.
Qed.

(** ** Finding *)

(** The first file of the list with the name. *)
Fixpoint first_named (m : gmap Z file) (name : list Z) (fl : list Z) : option Z :=
  match fl with
  | [] => None
  | f :: fl =>
      if bool_decide (f_name <$> m !! f = Some name) then Some f else first_named m name fl
  end.

Lemma first_named_ext m m' name fl :
  (forall f, f ∈ fl -> m' !! f = m !! f) -> first_named m' name fl = first_named m name fl.
Proof.
  induction fl as [|f fl IH]; intros Hm; [done|]. cbn. rewrite Hm by (by left).
  rewrite IH; [done|]. intros g Hg. apply Hm. by right.
Qed.

Lemma find_file_loop_run d name s fl : forall fuel a,
  chain (fnodes s) (a :: (FNode <$> fl) ++ [FileList d]) -> (forall f, f ∈ fl -> is_Some (files s !! f)) ->
  (length fl < fuel)%nat ->
  find_file_loop fuel name (FileList d) (next (nd (fnodes s) a)) s = Ret (first_named (files s) name fl, s).
Proof.
  induction fl as [|f fl IH]; intros fuel a Hc Hl Hf; (destruct fuel as [|fuel]; [cbn in Hf; lia|]);
    cbn [find_file_loop fmap list_fmap app] in *; destruct Hc as [[-> _] Hc].
  - by rewrite bool_decide_true.
  - rewrite bool_decide_false by done. cbn [file_of]. rewrite (M_bind_run _ _ s s f eq_refl).
    destruct (Hl f) as [x Ex]; [by left|].
    rewrite (M_bind_run _ _ s s x) by (unfold get_file; by rewrite Ex). cbn [first_named]. rewrite Ex. cbn [fmap option_fmap option_map].
    destruct (decide (name = f_name x)) as [->|Hne].
    + by rewrite !bool_decide_true.
    + rewrite !bool_decide_false by congruence. rewrite (M_bind_run _ _ _ _ _ (next_of_run (FNode f) s)).
      assert (Eu : in_use s (FNode f) = true) by (cbn; by rewrite Ex, bool_decide_true).
      rewrite Eu, with_stale_id. apply IH; [done|intros g Hg; apply Hl; by right|cbn in Hf; lia].
Qed.

(** A directory and its files, in list order. *)
Definition dir_ok (s : fs) (d : Z) (fl : list Z) : Prop :=
  is_Some (dirs s !! d) /\ dll (fnodes s) (FileList d) (FNode <$> fl) /\
  forall f, f ∈ fl -> is_Some (files s !! f).

Lemma dir_find_file_run s d fl name :
  dir_ok s d fl -> dir_find_file d name s = Ret (first_named (files s) name fl, s).
Proof.
  intros ([dd Hd] & Hl & Hf). unfold dir_find_file. rewrite (M_bind_run _ _ s s s eq_refl).
  rewrite (M_bind_run _ _ _ _ _ (next_of_run (FileList d) s)).
  assert (Eu : in_use s (FileList d) = true) by (cbn; by rewrite Hd, bool_decide_true).
  rewrite Eu, with_stale_id. apply find_file_loop_run; [apply Hl|done|].
  assert (NoDup fl) as Hnd.
  { destruct Hl as [Hn _]. apply list.NoDup_cons in Hn as [_ Hn]. by apply NoDup_fmap_1 in Hn. }
  pose proof (NoDup_size (files s) fl Hnd Hf). unfold list_fuel. lia.
Qed.

(** [create_file] in a directory whose files are [fl]. *)
Lemma create_file_run s d fl name fops priv f :
  dir_ok s d fl -> new_file (files s) = Some f ->
  exists n, create_file name fops d priv s =
      Ret ((0, Some f), with_fnodes n (with_files (<[f := File name priv d fops]> (files s)) s)) /\
    dir_ok (with_fnodes n (with_files (<[f := File name priv d fops]> (files s)) s)) d (f :: fl) /\
    f ∉ fl /\ (forall c, c ∉ FNode f :: FileList d :: (FNode <$> fl) -> nd n c = nd (fnodes s) c).
Proof.
  intros ([dd Hd] & Hl & Hf) En. pose proof (new_file_fresh _ _ En) as Hfr.
  assert (Hnf : f ∉ fl) by (intros Hin; destruct (Hf f Hin); congruence).
  destruct (list_insert_head_dll (fnodes s) (FileList d) (FNode <$> fl) (FNode f) Hl) as (n & Ei & Hl' & Hn).
  { rewrite not_elem_of_cons. split; [done|]. by intros (x & [= <-] & Hx)%list_elem_of_fmap. }
  exists n. split_and!; [| |done|done].
  - unfold create_file. rewrite En. set (x := File name priv d fops). rewrite (M_bind_run _ _ _ _ tt eq_refl).
    rewrite (M_bind_run _ _ _ (with_files (<[f := x]> (files s)) s) dd) by (unfold get_dir; cbn; by rewrite Hd).
    by rewrite (M_bind_run _ _ _ _ _ (on_fnodes_run _ n (with_files (<[f := x]> (files s)) s) Ei)).
  - split_and!; [by exists dd|exact Hl'|]. intros g [->|Hg]%elem_of_cons; cbn.
    + rewrite lookup_insert_eq. by eexists.
    + rewrite lookup_insert_ne by (by intros ->). by apply Hf.
Qed.

(** [create_directory] in a directory whose directories are [ds]. *)
(** The nodes of the file lists other than that of [d]. *)
Definition file_loc (d : Z) (c : floc) : Prop := match c with FNode _ => True | FileList e => e <> d | _ => False end.

Lemma create_directory_run s name p ds d :
  is_Some (dirs s !! p) -> dll (fnodes s) (DirList p) (DNode <$> ds) ->
  (forall x, x ∈ ds -> is_Some (dirs s !! x)) -> new_dir (dirs s) = Some d ->
  exists n, let s' := with_fnodes n (with_dirs (<[d := Directory name (Some p)]> (dirs s)) s) in
    create_directory name (Some p) s = Ret ((0, Some d), s') /\
    dir_ok s' d [] /\ dll n (DirList d) [] /\ dll n (DirList p) (DNode <$> d :: ds) /\ d ∉ ds /\ d <> p /\
    forall c, file_loc d c -> nd n c = nd (fnodes s) c.
Proof.
  intros [pp Hp] Hl Hds En. pose proof (new_dir_fresh _ _ En) as Hfr.
  assert (Hdp : d <> p) by congruence.
  assert (Hdn : d ∉ ds) by (intros Hin; destruct (Hds d Hin); congruence).
  set (n0 := list_init (DirList d) (list_init (FileList d) (fnodes s))).
  assert (Hl0 : dll n0 (DirList p) (DNode <$> ds)).
  { apply (dll_frame (fnodes s)); [|done]. intros c Hc. unfold n0.
    rewrite !list_init_frame; [done|..]; intros ->; apply elem_of_cons in Hc as [?|(x & ? & _)%list_elem_of_fmap]; congruence. }
  destruct (list_insert_head_dll n0 (DirList p) (DNode <$> ds) (DNode d) Hl0) as (n & Ei & Hl' & Hn).
  { rewrite not_elem_of_cons. split; [done|]. by intros (x & [= <-] & Hx)%list_elem_of_fmap. }
  assert (Hkeep : forall c, c = FileList d \/ c = DirList d -> nd n c = nd n0 c).
  { intros c [->| ->]; apply Hn; rewrite !not_elem_of_cons; (split_and!; [done|congruence|]);
      by intros (x & ? & _)%list_elem_of_fmap. }
  assert (Hfiles : forall c, file_loc d c -> nd n c = nd (fnodes s) c).
  { intros c Hc. rewrite Hn.
    - unfold n0. rewrite !list_init_frame; [done|..]; intros ->; done.
    - rewrite !not_elem_of_cons. destruct c; try done; (split_and!; [done|done|]); by intros (x & ? & _)%list_elem_of_fmap. }
  exists n. cbn zeta. split_and!; [|split_and!| |done|done|done|done].
  - unfold create_directory. rewrite En. set (x := Directory name (Some p)).
    rewrite (M_bind_run _ _ _ _ tt eq_refl), (M_bind_run _ _ _ _ tt eq_refl), (M_bind_run _ _ _ _ tt eq_refl).
    set (s1 := with_fnodes n0 (with_dirs (<[d := x]> (dirs s)) s)).
    change (with_fnodes (list_init (DirList d) _) _) with s1.
    rewrite (M_bind_run _ _ s1 (with_fnodes n s1) tt); [done|].
    rewrite (M_bind_run _ _ s1 s1 pp) by (unfold get_dir; cbn; by rewrite lookup_insert_ne, Hp).
    by apply on_fnodes_run.
  - cbn. rewrite lookup_insert_eq. by eexists.
  - apply (dll_frame n0).
    + intros c ->%list_elem_of_singleton. apply Hkeep. by left.
    + apply (dll_frame (list_init (FileList d) (fnodes s))); [|apply list_init_dll].
      intros c ->%list_elem_of_singleton. by apply list_init_frame.
  - by intros f ?%elem_of_nil.
  - apply (dll_frame n0); [|apply list_init_dll]. intros c ->%list_elem_of_singleton. apply Hkeep. by right.
Qed.

(** Creating a file and looking names up agree: [create_file] fails only
    without memory, changing nothing; otherwise the new file is found under
    its name (hiding an older one of that name), and every other name is
    found, or not found, as before.  Looking up changes nothing. *)
Theorem create_file_find (s : fs) (d : Z) (fl : list Z) (name : list Z) (fops priv : Z) :
  dir_ok s d fl ->
  exists r s', create_file name fops d priv s = Ret (r, s') /\
    match r with
    | (ret, Some f) => ret = 0 /\ dir_ok s' d (f :: fl) /\ files s' !! f = Some (File name priv d fops) /\
        forall q, dir_find_file d q s' =
          Ret (if bool_decide (q = name) then Some f else first_named (files s) q fl, s')
    | (ret, None) => ret = - ENOMEM /\ new_file (files s) = None /\ s' = s
    end.
Proof.
  intros K. destruct (new_file (files s)) as [f|] eqn:En.
  2: { exists (- ENOMEM, None), s. unfold create_file. rewrite En. by split_and!. }
  destruct (create_file_run s d fl name fops priv f K En) as (n & E & K' & Hnf & _).
  set (s' := with_fnodes n _) in *. exists (0, Some f), s'. split; [done|].
  split_and!; [done|done|cbn; by rewrite lookup_insert_eq|]. intros q.
  rewrite (dir_find_file_run s' d (f :: fl) q K'). cbn [first_named files s' with_fnodes with_files].
  rewrite lookup_insert_eq. cbn [fmap option_fmap option_map f_name].
  destruct (decide (q = name)) as [->|Hne]; [by rewrite !bool_decide_true|].
  rewrite !bool_decide_false by congruence. do 2 f_equal. apply first_named_ext.
  intros g Hg. rewrite lookup_insert_ne; [done|]. by intros ->.
Qed.

Lemma remove_directory_run (s : fs) (t : dtree) (p : Z) (pre post : list Z) :
  holds s t -> distinct t -> p ∉ tdirs t -> (forall x, x ∈ pre ++ post -> x ∉ tdirs t) ->
  dll (fnodes s) (DirList p) (DNode <$> pre ++ troot t :: post) ->
  removes remove_directory t p pre post s.
Proof.
  intros Ht Hd Hp Hsib Hl. unfold removes, remove_directory.
  destruct (remove_dir_run (S (size (dirs s))) t p pre post s) as (s' & E & H); try done.
  - pose proof (NoDup_size (dirs s) (tdirs t) (proj1 Hd) (fun x => holds_dirs _ s t x (le_n _) Ht)). lia.
  - exists s'. split; [|done]. by rewrite (M_bind_run _ _ s s s eq_refl).
Qed.

(** C15. [remove_directory] frees a whole tree: called on a directory that is
    in the list of a parent outside the tree, it returns 0, and exactly the
    files and directories of the tree have been freed, each once; the
    parent's list has lost this one entry; nothing outside is written.  On
    the way it reads the [next] pointer of every file and directory it has
    just freed, which works only as long as [kfree] leaves them alone; only
    an empty directory is removed without doing so. *)
Theorem remove_directory_ok (s : fs) (t : dtree) (p : Z) (pre post : list Z) :
  holds s t -> distinct t -> p ∉ tdirs t -> (forall x, x ∈ pre ++ post -> x ∉ tdirs t) ->
  dll (fnodes s) (DirList p) (DNode <$> pre ++ troot t :: post) ->
  removes remove_directory t p pre post s.
Proof. apply remove_directory_run. Qed.
End Fs.

(** ** A thread's directory *)

#[local] Instance fsheap0 : FsHeap := {
  new_file m := Some (fresh (dom m));
  new_dir m := Some (fresh (dom m));
  new_file_fresh m a E := ltac:(injection E as <-; apply not_elem_of_dom, is_fresh);
  new_dir_fresh m a E := ltac:(injection E as <-; apply not_elem_of_dom, is_fresh)
}.

Definition fs_bss : fs := Fs ∅ ∅ ∅ false None None None None.

(** After [fs_init], "/proc/7" with one file in it. *)
Definition fs1 : fs :=
  match (_ ← fs_init; p ← global proc; '(_, d) ← create_directory [55] (Some p); d ← mlift (deref d);
         create_file [115] 0 d 0) fs_bss with
  | Ret (_, s) => s | _ => fs_bss
  end.
Definition proc1 : Z := default 0 (proc fs1).
Definition dir1 : Z := match next (nd (fnodes fs1) (DirList proc1)) with Some (DNode d) => d | _ => 0 end.
Definition file1 : Z := match next (nd (fnodes fs1) (FileList dir1)) with Some (FNode f) => f | _ => 0 end.

Lemma dir1_holds : holds fs1 (DTree dir1 [file1] []) /\ dll (fnodes fs1) (DirList proc1) [DNode dir1].
Proof.
  split; [split_and!|].
  - apply (bool_decide_unpack _). by vm_compute.
  - intros f ->%list_elem_of_singleton. apply (bool_decide_unpack _). by vm_compute.
  - split; [repeat constructor; set_solver|]. repeat split; by vm_compute.
  - split; [repeat constructor; set_solver|]. repeat split; by vm_compute.
  - done.
  - split; [repeat constructor; set_solver|]. repeat split; by vm_compute.
Qed.

Lemma remove_directory_ok_witness : removes remove_directory (DTree dir1 [file1] []) proc1 [] [] fs1.
Proof.
  destruct dir1_holds as [Hh Hl].
  apply (remove_directory_ok fs1 (DTree dir1 [file1] []) proc1 [] [] Hh).
  - split; repeat constructor; set_solver.
  - intros [E|?%elem_of_nil]%elem_of_cons; [|done]. vm_compute in E. discriminate E.
  - by intros x ?%elem_of_nil.
  - exact Hl.
Defined.

Lemma create_file_find_witness :
  exists r s', create_file [120] 0 dir1 0 fs1 = Ret (r, s') /\
    match r with
    | (ret, Some f) => ret = 0 /\ dir_ok s' dir1 [f; file1] /\ files s' !! f = Some (File [120] 0 dir1 0) /\
        forall q, dir_find_file dir1 q s' =
          Ret (if bool_decide (q = [120]) then Some f else first_named (files fs1) q [file1], s')
    | (ret, None) => ret = - ENOMEM /\ new_file (files fs1) = None /\ s' = fs1
    end.
Proof.
  destruct dir1_holds as [(H1 & H2 & H3 & _) _].
  apply (create_file_find fs1 dir1 [file1] [120] 0 0). split_and!; done.
Defined.
