(* ===== verification/Shell.v ===== *)
(** * The shell's file commands (usr/fs.c, usr/init.c)

    The commands are files of /bin whose operations have an [exec] entry;
    [usr_fs_init] creates "ls", "cd" and "cat", and a round of the shell's
    loop looks the first word of the line up in /bin and calls [exec] with
    all words.  The words of a line are a list of byte strings (Vector.v and
    KString.v show how they are stored); what is printed is a list of
    strings, the error messages left out.  The [read] operations that [cat] calls are those of other
    components, given here by a table [reads] from operations to what they
    answer and write. *)

From stdpp Require Import base numbers list gmap sets.
From Stdlib Require Import ZArith Lia ZifyBool ZifyNat.
From S2P Require Import Prelude ListNode Fs.

Open Scope Z_scope.

#[local] Coercion Z.of_nat : nat >-> Z.

Abbreviation word := (list Z).

(** The strings "ls", "cd", "cat", "..", "." and "~". *)
Definition s_ls : word := [108; 115].
Definition s_cd : word := [99; 100].
Definition s_cat : word := [99; 97; 116].
Definition s_dotdot : word := [46; 46].
Definition s_dot : word := [46].
Definition s_home : word := [126].

(** The addresses of the three [struct file_operations]. *)
Definition ls_fops : Z := 1.
Definition cd_fops : Z := 2.
Definition cat_fops : Z := 3.

(** The file system, the variable [current_dir], and what has been printed,
    the last string first. *)
Record shell := Shell { shfs : fs; current_dir : option Z; printed : list word }.

Definition with_shfs (x : fs) (s : shell) : shell := Shell x (current_dir s) (printed s).
Definition with_dir (x : option Z) (s : shell) : shell := Shell (shfs s) x (printed s).
Definition on_fs {A} (m : M fs A) : M shell A := zoom shfs with_shfs m.
Definition print (w : word) : M shell unit := mmod (fun s => Shell (shfs s) (current_dir s) (w :: printed s)).
Definition cwd : M shell Z := s ← mget; mlift (deref (current_dir s)).

(** The [read] operations by the address of their [struct file_operations]:
    the file to the result and the text. *)
Abbreviation read_table := (Z -> option (Z -> Z * word)).

Section Shell.
Context `{FH : FsHeap}.

(** The two loops of [do_ls]. *)
Fixpoint ls_dirs (fuel : nat) (head : floc) (node : option floc) : M shell unit :=
  match fuel with
  | O => fun _ => Spin
  | S fuel =>
      if bool_decide (node = Some head) then mret tt
      else
        d ← mlift (dir_of node);
        x ← on_fs (get_dir d);
        _ ← print (d_name x ++ [32]);
        n ← on_fs (next_of (DNode d));
        ls_dirs fuel head n
  end.
Fixpoint ls_files (fuel : nat) (head : floc) (node : option floc) : M shell unit :=
  match fuel with
  | O => fun _ => Spin
  | S fuel =>
      if bool_decide (node = Some head) then mret tt
      else
        f ← mlift (file_of node);
        x ← on_fs (get_file f);
        _ ← print (f_name x ++ [32]);
        n ← on_fs (next_of (FNode f));
        ls_files fuel head n
  end.

Definition do_ls : M shell Z :=
  d ← cwd;
  s ← mget;
  n ← on_fs (next_of (DirList d));
  _ ← ls_dirs (list_fuel (shfs s)) (DirList d) n;
  n ← on_fs (next_of (FileList d));
  _ ← ls_files (list_fuel (shfs s)) (FileList d) n;
  _ ← print [10];
  mret 0.

Definition go_root : M shell Z := s ← mget; _ ← mput (with_dir (root (shfs s)) s); mret 0.

Definition do_cd (vec : list word) : M shell Z :=
  if 2 <? length vec then mret (- EINVAL)
  else if (length vec =? 1) then go_root
  else
    match vec !! 1%nat with
    | None => fun _ => Fault
    | Some name =>
        if bool_decide (name = s_dotdot) then
          d ← cwd;
          x ← on_fs (get_dir d);
          match d_parent x with
          | Some p => _ ← mmod (with_dir (Some p)); mret 0
          | None => mret 0
          end
        else if bool_decide (name = s_dot) then mret 0
        else if bool_decide (name = s_home) then go_root
        else
          d ← cwd;
          dir ← on_fs (dir_find_dir d name);
          match dir with
          | None => mret (- ENOENT)
          | Some d => _ ← mmod (with_dir (Some d)); mret 0
          end
    end.

Definition do_cat (reads : read_table) (vec : list word) : M shell Z :=
  if negb (length vec =? 2) then mret (- EINVAL)
  else
    match vec !! 1%nat with
    | None => fun _ => Fault
    | Some name =>
        d ← cwd;
        f ← on_fs (dir_find_file d name);
        match f with
        | None => mret (- ENOENT)
        | Some f =>
            x ← on_fs (get_file f);
            match reads (f_fops x) with
            | None => mret (- EINVAL)
            | Some read =>
                let '(ret, content) := read f in
                if negb (ret =? 0) then mret ret else _ ← print (content ++ [10]); mret 0
            end
        end
    end.

(** [file->fops->exec(file, vec)] for the commands of this component. *)
Definition exec (reads : read_table) (fops : Z) (vec : list word) : option (M shell Z) :=
  if fops =? ls_fops then Some do_ls
  else if fops =? cd_fops then Some (do_cd vec)
  else if fops =? cat_fops then Some (do_cat reads vec)
  else None.

(** A round of [run_shell] on the words of a line: the result of the command,
    or [None] when there is no such command. *)
Definition run_command (reads : read_table) (vec : list word) : M shell (option Z) :=
  match vec with
  | [] => fun _ => Fault
  | cmd :: _ =>
      f ← on_fs (binfs_find_file cmd);
      match f with
      | None => mret None
      | Some f =>
          x ← on_fs (get_file f);
          match exec reads (f_fops x) vec with
          | Some m => ret ← m; mret (Some ret)
          | None => mret None
          end
      end
  end.

Definition usr_fs_init : M shell Z :=
  s ← mget;
  _ ← mput (with_dir (root (shfs s)) s);
  '(ret, _) ← on_fs (binfs_create_file s_ls ls_fops 0);
  if negb (ret =? 0) then mret ret else
  '(ret, _) ← on_fs (binfs_create_file s_cd cd_fops 0);
  if negb (ret =? 0) then mret ret else
  '(ret, _) ← on_fs (binfs_create_file s_cat cat_fops 0);
  if negb (ret =? 0) then mret ret else
  mret 0.

(** ** Directories of a tree *)

(** Every directory points to its parent; [par] is the parent of the top. *)
Fixpoint parents_ok (s : fs) (par : option Z) (t : dtree) : Prop :=
  let 'DTree d _ sub := t in
  (exists x, dirs s !! d = Some x /\ d_parent x = par) /\
  (fix all l := match l with [] => True | t :: l => parents_ok s (Some d) t /\ all l end) sub.

Lemma parents_all s d sub :
  (fix all l := match l with [] => True | t :: l => parents_ok s (Some d) t /\ all l end) sub <->
  forall t, t ∈ sub -> parents_ok s (Some d) t.
Proof.
  induction sub as [|t sub IH]; [split; [by intros _ t ?%elem_of_nil|done]|]. rewrite IH. split.
  - intros [H1 H2] x [->|Hx]%elem_of_cons; [done|by apply H2].
  - intros Hx. split; [apply Hx; by left|]. intros y Hy. apply Hx. by right.
Qed.

(** What is known of a directory of the tree. *)
Lemma subtree n s : forall par t x, (length (tdirs t) <= n)%nat -> holds s t -> parents_ok s par t -> x ∈ tdirs t ->
  exists fl sub par', holds s (DTree x fl sub) /\ parents_ok s par' (DTree x fl sub) /\
    (par' = par \/ exists p, par' = Some p /\ p ∈ tdirs t) /\ forall t', t' ∈ sub -> troot t' ∈ tdirs t.
Proof.
  induction n as [|n IH]; intros par [d fl sub] x Hn Hh Hp Hx; cbn [tdirs] in *; [cbn in Hn; lia|].
  apply elem_of_cons in Hx as [->|Hx].
  - exists fl, sub, par. split; [done|]. split; [done|]. split; [by left|]. intros t' Ht'. right.
    apply elem_of_concat_map. exists t'. split; [done|apply tdirs_root].
  - apply elem_of_concat_map in Hx as (t & Ht & Hx).
    assert (Hh' : holds s t) by (apply (proj1 (holds_all s sub)); [apply Hh|done]).
    assert (Hp' : parents_ok s (Some d) t) by (apply (proj1 (parents_all s d sub)); [apply Hp|done]).
    assert (Hin : forall y, y ∈ tdirs t -> y ∈ d :: concat (map tdirs sub)).
    { intros y Hy. right. apply elem_of_concat_map. by exists t. }
    destruct (IH (Some d) t x) as (fl' & sub' & par' & H1 & H2 & H3 & H4); [|done|done|done|].
    + cbn in Hn. enough (length (tdirs t) <= length (concat (map tdirs sub)))%nat by lia.
      apply list_elem_of_split in Ht as (l1 & l2 & ->). rewrite map_app, concat_app, length_app. cbn. rewrite length_app. lia.
    + exists fl', sub', par'. split; [done|]. split; [done|]. split; [|intros t' Ht'; by apply Hin, H4].
      right. destruct H3 as [->|(p & -> & Hq)]; [exists d; split; [done|by left]|exists p; split; [done|by apply Hin]].
Qed.

(** ** Running the commands *)

Fixpoint first_dir (m : gmap Z directory) (name : word) (ds : list Z) : option Z :=
  match ds with
  | [] => None
  | d :: ds => if bool_decide (d_name <$> m !! d = Some name) then Some d else first_dir m name ds
  end.

Lemma first_dir_in m name ds d : first_dir m name ds = Some d -> d ∈ ds.
Proof. induction ds as [|x ds IH]; [done|]. cbn. case_bool_decide; [intros [= ->]; by left|]. intros E. right. by apply IH. Qed.

Lemma find_dir_loop_run p name s ds : forall fuel a,
  chain (fnodes s) (a :: (DNode <$> ds) ++ [DirList p]) -> (forall d, d ∈ ds -> is_Some (dirs s !! d)) ->
  (length ds < fuel)%nat ->
  find_dir_loop fuel name (DirList p) (next (nd (fnodes s) a)) s = Ret (first_dir (dirs s) name ds, s).
Proof.
  induction ds as [|d ds IH]; intros fuel a Hc Hl Hf; (destruct fuel as [|fuel]; [cbn in Hf; lia|]);
    cbn [find_dir_loop fmap list_fmap app] in *; destruct Hc as [[-> _] Hc].
  - by rewrite bool_decide_true.
  - rewrite bool_decide_false by done. cbn [dir_of]. rewrite (M_bind_run _ _ s s d eq_refl).
    destruct (Hl d) as [x Ex]; [by left|].
    rewrite (M_bind_run _ _ s s x) by (unfold get_dir; by rewrite Ex). cbn [first_dir]. rewrite Ex. cbn [fmap option_fmap option_map].
    destruct (decide (name = d_name x)) as [->|Hne].
    + by rewrite !bool_decide_true.
    + rewrite !bool_decide_false by congruence. rewrite (M_bind_run _ _ _ _ _ (next_of_run (DNode d) s)).
      assert (Eu : in_use s (DNode d) = true) by (cbn; by rewrite Ex, bool_decide_true).
      rewrite Eu, with_stale_id. apply IH; [done|intros g Hg; apply Hl; by right|cbn in Hf; lia].
Qed.

(** The subdirectories of a directory of the tree are in use. *)
Lemma holds_sub s d fl sub x : holds s (DTree d fl sub) -> x ∈ map troot sub -> is_Some (dirs s !! x).
Proof.
  intros (_ & _ & _ & _ & Hs) (t & -> & Ht)%list_elem_of_fmap. pose proof (proj1 (holds_all s sub) Hs t Ht) as Hh.
  by destruct t, Hh.
Qed.

Lemma sub_fuel s d fl sub : holds s (DTree d fl sub) -> (length (map troot sub) < list_fuel s)%nat /\ (length fl < list_fuel s)%nat.
Proof.
  intros Hh. assert (Hs := Hh). destruct Hs as (_ & Hf & Hlf & Hld & _). unfold list_fuel. split.
  - assert (NoDup (map troot sub)) as Hnd.
    { destruct Hld as [Hn _]. apply list.NoDup_cons in Hn as [_ Hn]. by apply NoDup_fmap_1 in Hn. }
    pose proof (NoDup_size (dirs s) _ Hnd (fun x Hx => holds_sub s d fl sub x Hh Hx)). lia.
  - assert (NoDup fl) as Hnd.
    { destruct Hlf as [Hn _]. apply list.NoDup_cons in Hn as [_ Hn]. by apply NoDup_fmap_1 in Hn. }
    pose proof (NoDup_size (files s) _ Hnd Hf). lia.
Qed.

Lemma dir_find_dir_run s d fl sub name : holds s (DTree d fl sub) ->
  dir_find_dir d name s = Ret (first_dir (dirs s) name (map troot sub), s).
Proof.
  intros Hh. pose proof (sub_fuel _ _ _ _ Hh) as [Hfu _]. assert (Hs := Hh). destruct Hs as ([x Hd] & _ & _ & Hld & _).
  unfold dir_find_dir. rewrite (M_bind_run _ _ s s s eq_refl), (M_bind_run _ _ _ _ _ (next_of_run (DirList d) s)).
  assert (Eu : in_use s (DirList d) = true) by (cbn; by rewrite Hd, bool_decide_true).
  rewrite Eu, with_stale_id. apply find_dir_loop_run; [apply Hld|intros y Hy; by eapply holds_sub|done].
Qed.

(** The shell in a tree of directories: [current_dir] is one of them. *)
Record shell_ok (s : shell) (t : dtree) (c : Z) : Prop := ShellOk {
  so_holds : holds (shfs s) t;
  so_parents : parents_ok (shfs s) None t;
  so_root : root (shfs s) = Some (troot t);
  so_cwd : current_dir s = Some c;
  so_in : c ∈ tdirs t
}.

(** Where [cd] goes from directory [c] with children [sub] and parent [par]. *)
Definition cd_target (s : shell) (t : dtree) (c : Z) (sub : list dtree) (par : option Z) (vec : list word) : Z * Z :=
  match vec with
  | [_] => (0, troot t)
  | [_; name] =>
      if bool_decide (name = s_dotdot) then (0, default c par)
      else if bool_decide (name = s_dot) then (0, c)
      else if bool_decide (name = s_home) then (0, troot t)
      else match first_dir (dirs (shfs s)) name (map troot sub) with Some d => (0, d) | None => (- ENOENT, c) end
  | _ => (- EINVAL, c)
  end.

Lemma on_fs_run {A} (m : M fs A) s a : m (shfs s) = Ret (a, shfs s) -> on_fs m s = Ret (a, s).
Proof. intros E. unfold on_fs. rewrite (zoom_run shfs with_shfs _ s _ _ E). by destruct s. Qed.

Lemma do_cd_run s t c vec : shell_ok s t c -> vec <> [] ->
  exists fl sub par, holds (shfs s) (DTree c fl sub) /\ parents_ok (shfs s) par (DTree c fl sub) /\
    let '(ret, d) := cd_target s t c sub par vec in
    do_cd vec s = Ret (ret, with_dir (Some d) s) /\ shell_ok (with_dir (Some d) s) t d.
Proof.
  intros [Hh Hp Hr Hc Hin] Hv. destruct (subtree _ (shfs s) None t c (le_n _) Hh Hp Hin) as (fl & sub & par & H1 & H2 & H3 & H4).
  exists fl, sub, par. split; [done|]. split; [done|].
  assert (Hid : with_dir (Some c) s = s) by (destruct s; cbn in Hc; by subst).
  assert (Hok : forall d, d ∈ tdirs t -> shell_ok (with_dir (Some d) s) t d) by (intros d Hd; by split).
  assert (Hroot : go_root s = Ret (0, with_dir (Some (troot t)) s)).
  { unfold go_root. rewrite (M_bind_run _ _ s s s eq_refl), Hr. done. }
  assert (Hcwd : cwd s = Ret (c, s)) by (unfold cwd; rewrite (M_bind_run _ _ s s s eq_refl), Hc; done).
  destruct vec as [|cmd [|name [|w vec]]]; [done| | |].
  - cbn [cd_target]. split; [exact Hroot|apply Hok, tdirs_root].
  - cbn [cd_target]. unfold do_cd. change (2 <? length [cmd; name]) with false. change (length [cmd; name] =? 1) with false.
    cbv iota. cbn [lookup list_lookup].
    destruct (bool_decide (name = s_dotdot)); [|destruct (bool_decide (name = s_dot)); [|destruct (bool_decide (name = s_home))]].
    + destruct H2 as [(x & Hx & Hpx) _]. rewrite (M_bind_run _ _ _ _ _ Hcwd).
      rewrite (M_bind_run _ _ s s x) by (apply on_fs_run; unfold get_dir; by rewrite Hx). rewrite Hpx.
      destruct par as [p|]; [|cbn [default from_option]; rewrite Hid; split; [done|by split]].
      split; [done|]. apply Hok. destruct H3 as [?|(q & [= ->] & Hq)]; done.
    + rewrite Hid. split; [done|by split].
    + split; [exact Hroot|apply Hok, tdirs_root].
    + rewrite (M_bind_run _ _ _ _ _ Hcwd).
      rewrite (M_bind_run _ _ _ _ _ (on_fs_run _ _ _ (dir_find_dir_run _ _ _ _ name H1))).
      destruct (first_dir (dirs (shfs s)) name (map troot sub)) as [d|] eqn:Ed; [|rewrite Hid; split; [done|by split]].
      split; [done|]. apply Hok. apply first_dir_in, list_elem_of_fmap in Ed as (t' & -> & Ht'). by apply H4.
  - cbn [cd_target]. rewrite Hid. split; [|by split]. unfold do_cd.
    by replace (2 <? Z.of_nat (length (cmd :: name :: w :: vec))) with true by (cbn [length]; lia).
Qed.

Fixpoint cds (l : list (list word)) : M shell unit :=
  match l with [] => mret tt | vec :: l => _ ← do_cd vec; cds l end.

(** C33. The shell never leaves the tree: any sequence of "cd" commands runs to
    its end, and afterwards [current_dir] is a directory of the tree; each
    one goes to the root, the parent, the directory of that name or stays,
    with the error the command answers. *)
Theorem cds_ok (s : shell) (t : dtree) (c : Z) (l : list (list word)) :
  shell_ok s t c -> Forall (fun vec => vec <> []) l ->
  exists s' c', cds l s = Ret (tt, s') /\ shell_ok s' t c' /\ shfs s' = shfs s.
Proof.
  intros K Hl. revert s c K. induction Hl as [|vec l Hv _ IH]; intros s c K; [by exists s, c|].
  destruct (do_cd_run s t c vec K Hv) as (fl & sub & par & _ & _ & Hd). destruct (cd_target s t c sub par vec) as [ret d].
  destruct Hd as [E K1]. destruct (IH _ d K1) as (s' & c' & E' & K' & Hf). exists s', c'. cbn [cds].
  rewrite (M_bind_run _ _ _ _ _ E). by split_and!.
Qed.

(** "cd name" followed by "cd .." comes back: when the first succeeds, the
    second returns to the directory the shell was in. *)
Theorem cd_and_back (s : shell) (t : dtree) (c : Z) (cmd name : word) (s1 : shell) :
  shell_ok s t c -> name <> s_dotdot -> name <> s_dot -> name <> s_home ->
  do_cd [cmd; name] s = Ret (0, s1) ->
  do_cd [cmd; s_dotdot] s1 = Ret (0, s).
Proof.
  intros K N1 N2 N3 E. destruct (do_cd_run s t c [cmd; name] K ltac:(done)) as (fl & sub & par & Hh & Hp & Hd).
  cbn [cd_target] in Hd. rewrite !bool_decide_false in Hd by done.
  destruct (first_dir (dirs (shfs s)) name (map troot sub)) as [x|] eqn:Ex; destruct Hd as [E' K1]; rewrite E' in E; [|done].
  injection E as <-. apply first_dir_in, list_elem_of_fmap in Ex as (t' & -> & Ht').
  destruct Hp as [_ Hp]. pose proof (proj1 (parents_all _ _ _) Hp t' Ht') as Hp'. destruct t' as [x fl' sub'].
  destruct Hp' as [(y & Hy & Hpy) _]. cbn [troot] in *.
  destruct (do_cd_run _ t x [cmd; s_dotdot] K1 ltac:(done)) as (fl2 & sub2 & par2 & _ & Hp2 & Hd2).
  destruct Hp2 as [(z & Hz & Hpz) _]. cbn [shfs with_dir] in Hz. rewrite Hy in Hz. injection Hz as <-. rewrite Hpy in Hpz. subst par2.
  cbn [cd_target] in Hd2. rewrite bool_decide_true in Hd2 by done. destruct Hd2 as [-> _].
  pose proof (so_cwd _ _ _ K) as Hc. destruct s. cbn in *. by subst.
Qed.

(** ** Listing *)

(** A name and the space behind it. *)
Definition dir_name (s : fs) (d : Z) : word := default [] (d_name <$> dirs s !! d) ++ [32].
Definition file_name (s : fs) (f : Z) : word := default [] (f_name <$> files s !! f) ++ [32].

(** [s'] is [s] after the strings [l] have been printed. *)
Definition shown (l : list word) (s : shell) : shell := Shell (shfs s) (current_dir s) (rev l ++ printed s).

Lemma next_in_use s c : in_use (shfs s) c = true -> on_fs (next_of c) s = Ret (next (nd (fnodes (shfs s)) c), s).
Proof. intros E. apply on_fs_run. by rewrite next_of_run, E, with_stale_id. Qed.

Lemma ls_dirs_run p ds : forall fuel a s,
  chain (fnodes (shfs s)) (a :: (DNode <$> ds) ++ [DirList p]) -> (forall d, d ∈ ds -> is_Some (dirs (shfs s) !! d)) ->
  (length ds < fuel)%nat ->
  ls_dirs fuel (DirList p) (next (nd (fnodes (shfs s)) a)) s = Ret (tt, shown (map (dir_name (shfs s)) ds) s).
Proof.
  induction ds as [|d ds IH]; intros fuel a s Hc Hl Hf; (destruct fuel as [|fuel]; [cbn in Hf; lia|]);
    cbn [ls_dirs fmap list_fmap app] in *; destruct Hc as [[-> _] Hc].
  - rewrite bool_decide_true by done. by destruct s.
  - rewrite bool_decide_false by done. cbn [dir_of]. rewrite (M_bind_run _ _ s s d eq_refl).
    destruct (Hl d) as [x Ex]; [by left|].
    rewrite (M_bind_run _ _ s s x) by (apply on_fs_run; unfold get_dir; by rewrite Ex).
    set (s1 := Shell (shfs s) (current_dir s) ((d_name x ++ [32]) :: printed s)). rewrite (M_bind_run _ _ s s1 tt) by done.
    rewrite (M_bind_run _ _ _ _ _ (next_in_use s1 (DNode d) ltac:(cbn; by rewrite Ex, bool_decide_true))).
    rewrite (IH fuel (DNode d) s1 Hc); [|intros g Hg; apply Hl; by right|cbn in Hf; lia].
    unfold shown, dir_name. cbn. rewrite Ex. cbn. by rewrite <-app_assoc.
Qed.

Lemma ls_files_run p fl : forall fuel a s,
  chain (fnodes (shfs s)) (a :: (FNode <$> fl) ++ [FileList p]) -> (forall f, f ∈ fl -> is_Some (files (shfs s) !! f)) ->
  (length fl < fuel)%nat ->
  ls_files fuel (FileList p) (next (nd (fnodes (shfs s)) a)) s = Ret (tt, shown (map (file_name (shfs s)) fl) s).
Proof.
  induction fl as [|f fl IH]; intros fuel a s Hc Hl Hf; (destruct fuel as [|fuel]; [cbn in Hf; lia|]);
    cbn [ls_files fmap list_fmap app] in *; destruct Hc as [[-> _] Hc].
  - rewrite bool_decide_true by done. by destruct s.
  - rewrite bool_decide_false by done. cbn [file_of]. rewrite (M_bind_run _ _ s s f eq_refl).
    destruct (Hl f) as [x Ex]; [by left|].
    rewrite (M_bind_run _ _ s s x) by (apply on_fs_run; unfold get_file; by rewrite Ex).
    set (s1 := Shell (shfs s) (current_dir s) ((f_name x ++ [32]) :: printed s)). rewrite (M_bind_run _ _ s s1 tt) by done.
    rewrite (M_bind_run _ _ _ _ _ (next_in_use s1 (FNode f) ltac:(cbn; by rewrite Ex, bool_decide_true))).
    rewrite (IH fuel (FNode f) s1 Hc); [|intros g Hg; apply Hl; by right|cbn in Hf; lia].
    unfold shown, file_name. cbn. rewrite Ex. cbn. by rewrite <-app_assoc.
Qed.

(** "ls" prints the names of the directories and then of the files of the
    current directory, each once and in list order, with a newline
    at the end, and changes nothing. *)
Theorem do_ls_ok (s : shell) (c : Z) (fl : list Z) (sub : list dtree) :
  current_dir s = Some c -> holds (shfs s) (DTree c fl sub) ->
  do_ls s = Ret (0, shown (map (dir_name (shfs s)) (map troot sub) ++ map (file_name (shfs s)) fl ++ [[10]]) s).
Proof.
  intros Hc Hh. pose proof (sub_fuel _ _ _ _ Hh) as [F1 F2]. assert (Hs := Hh). destruct Hs as ([x Hx] & Hf & Hlf & Hld & _).
  unfold do_ls. rewrite (M_bind_run _ _ s s c) by (unfold cwd; rewrite (M_bind_run _ _ s s s eq_refl), Hc; done).
  rewrite (M_bind_run _ _ s s s eq_refl).
  rewrite (M_bind_run _ _ _ _ _ (next_in_use s (DirList c) ltac:(cbn; by rewrite Hx, bool_decide_true))).
  rewrite (M_bind_run _ _ _ _ _ (ls_dirs_run c (map troot sub) _ _ s (proj2 Hld) (fun y Hy => holds_sub _ _ _ _ y Hh Hy) F1)).
  set (s1 := shown _ s).
  rewrite (M_bind_run _ _ _ _ _ (next_in_use s1 (FileList c) ltac:(cbn; by rewrite Hx, bool_decide_true))).
  rewrite (M_bind_run _ _ _ _ _ (ls_files_run c fl _ _ s1 (proj2 Hlf) Hf F2)).
  set (s2 := shown _ s1). rewrite (M_bind_run _ _ s2 (Shell (shfs s2) (current_dir s2) ([10] :: printed s2)) tt) by done.
  unfold mret, M_ret, s2, shown, s1. cbn. by rewrite !rev_app_distr, app_assoc.
Qed.

(** ** Finding the commands *)

Lemma run_command_found reads s b fl f x cmd w m :
  bin (shfs s) = Some b -> dir_ok (shfs s) b fl -> first_named (files (shfs s)) cmd fl = Some f ->
  files (shfs s) !! f = Some x -> exec reads (f_fops x) (cmd :: w) = Some m ->
  run_command reads (cmd :: w) s = (ret ← m; mret (Some ret)) s.
Proof.
  intros Hb Hd Hf Hx Hm. unfold run_command, binfs_find_file.
  assert (E : on_fs (d ← global bin; dir_find_file d cmd) s = Ret (Some f, s)).
  { apply on_fs_run. unfold global. rewrite M_bind_assoc, (M_bind_run _ _ _ _ _ eq_refl), Hb.
    rewrite (M_bind_run _ _ _ (shfs s) b) by done. rewrite (dir_find_file_run _ _ _ _ Hd). by rewrite Hf. }
  rewrite (M_bind_run _ _ _ _ _ E), (M_bind_run _ _ s s x) by (apply on_fs_run; unfold get_file; by rewrite Hx).
  by rewrite Hm.
Qed.

Lemma binfs_create_run s b fl name fops f :
  bin (shfs s) = Some b -> dir_ok (shfs s) b fl -> new_file (files (shfs s)) = Some f ->
  exists n, let g := with_fnodes n (with_files (<[f := File name 0 b fops]> (files (shfs s))) (shfs s)) in
    on_fs (binfs_create_file name fops 0) s = Ret ((0, Some f), with_shfs g s) /\ dir_ok g b (f :: fl) /\ f ∉ fl.
Proof.
  intros Hb Hd Hn. destruct (create_file_run (shfs s) b fl name fops 0 f Hd Hn) as (n & E & Hd' & Hnin & _).
  exists n. cbn zeta. split; [|done]. unfold on_fs. apply zoom_run. unfold binfs_create_file, global.
  rewrite M_bind_assoc, (M_bind_run _ _ _ _ _ eq_refl), Hb. rewrite (M_bind_run _ _ _ (shfs s) b) by done. exact E.
Qed.

(** The commands are there: with memory for three files, [usr_fs_init]
    returns 0 with the shell in the root directory, and from then on the
    lines "ls ...", "cd ..." and "cat ..." run those commands, whatever was
    in /bin before. *)
Theorem usr_fs_init_ok (reads : read_table) (s : shell) (b r : Z) (fl : list Z) :
  (forall m, new_file m <> None) -> bin (shfs s) = Some b -> root (shfs s) = Some r -> dir_ok (shfs s) b fl ->
  exists s', usr_fs_init s = Ret (0, s') /\ current_dir s' = Some r /\
    forall w, run_command reads (s_ls :: w) s' = (ret ← do_ls; mret (Some ret)) s' /\
      run_command reads (s_cd :: w) s' = (ret ← do_cd (s_cd :: w); mret (Some ret)) s' /\
      run_command reads (s_cat :: w) s' = (ret ← do_cat reads (s_cat :: w); mret (Some ret)) s'.
Proof.
  intros Hal Hb Hr Hd. unfold usr_fs_init. rewrite (M_bind_run _ _ s s s eq_refl), Hr.
  set (s0 := with_dir (Some r) s). rewrite (M_bind_run _ _ s s0 tt) by done.
  destruct (new_file (files (shfs s0))) as [f1|] eqn:N1; [|by destruct (Hal (files (shfs s0)))].
  destruct (binfs_create_run s0 b fl s_ls ls_fops f1 Hb Hd N1) as (n1 & E1 & D1 & F1). rewrite (M_bind_run _ _ _ _ _ E1).
  set (s1 := with_shfs _ s0). cbv beta iota. change (negb (0 =? 0)) with false. cbv iota.
  destruct (new_file (files (shfs s1))) as [f2|] eqn:N2; [|by destruct (Hal (files (shfs s1)))].
  destruct (binfs_create_run s1 b (f1 :: fl) s_cd cd_fops f2 Hb D1 N2) as (n2 & E2 & D2 & F2). rewrite (M_bind_run _ _ _ _ _ E2).
  set (s2 := with_shfs _ s1). cbv beta iota. change (negb (0 =? 0)) with false. cbv iota.
  destruct (new_file (files (shfs s2))) as [f3|] eqn:N3; [|by destruct (Hal (files (shfs s2)))].
  destruct (binfs_create_run s2 b (f2 :: f1 :: fl) s_cat cat_fops f3 Hb D2 N3) as (n3 & E3 & D3 & F3). rewrite (M_bind_run _ _ _ _ _ E3).
  set (s3 := with_shfs _ s2). cbv beta iota. change (negb (0 =? 0)) with false. cbv iota.
  apply not_elem_of_cons in F2 as [F21 _]. apply not_elem_of_cons in F3 as [F32 F3]. apply not_elem_of_cons in F3 as [F31 _].
  assert (X1 : files (shfs s3) !! f1 = Some (File s_ls 0 b ls_fops)).
  { cbn. rewrite !lookup_insert_ne by congruence. apply lookup_insert_eq. }
  assert (X2 : files (shfs s3) !! f2 = Some (File s_cd 0 b cd_fops)).
  { cbn. rewrite lookup_insert_ne by congruence. apply lookup_insert_eq. }
  assert (X3 : files (shfs s3) !! f3 = Some (File s_cat 0 b cat_fops)) by (cbn; apply lookup_insert_eq).
  exists s3. split; [done|]. split; [done|]. intros w.
  split_and!; (eapply (run_command_found reads s3 b (f3 :: f2 :: f1 :: fl)); [exact Hb|exact D3| | |]).
  - cbn [first_named]. rewrite X3, X2, X1. cbn [fmap option_fmap option_map f_name].
    rewrite !bool_decide_false by done. by rewrite bool_decide_true.
  - exact X1.
  - done.
  - cbn [first_named]. rewrite X3, X2. cbn [fmap option_fmap option_map f_name].
    rewrite bool_decide_false by done. by rewrite bool_decide_true.
  - exact X2.
  - done.
  - cbn [first_named]. rewrite X3. cbn [fmap option_fmap option_map f_name]. by rewrite bool_decide_true.
  - exact X3.
  - done.
Qed.

(** A loop of "ls" never forgets that freed memory was read. *)
Lemma ls_dirs_stale fuel h : forall nx (x : shell) u y,
  stale (shfs x) = true -> ls_dirs fuel h nx x = Ret (u, y) -> stale (shfs y) = true.
Proof.
  induction fuel as [|fuel IH]; intros nx x u y Hx E; [done|]. cbn [ls_dirs] in E.
  case_bool_decide; [change (Ret (tt, x) = Ret (u, y)) in E; by injection E as _ <-|].
  apply M_bind_ret in E as (d & x1 & E1 & E). unfold mlift in E1. destruct (dir_of nx); try done. injection E1 as -> <-.
  apply M_bind_ret in E as (v & x2 & E2 & E). unfold on_fs, zoom, get_dir in E2. destruct (dirs (shfs x) !! d); [|done].
  injection E2 as -> <-. apply M_bind_ret in E as (? & x3 & E3 & E). injection E3 as <- <-.
  apply M_bind_ret in E as (? & x4 & E4 & E). unfold on_fs, zoom in E4. rewrite next_of_run in E4. injection E4 as <- <-.
  eapply IH; [|exact E]. cbn. by rewrite Hx.
Qed.

Lemma ls_files_stale fuel h : forall nx (x : shell) u y,
  stale (shfs x) = true -> ls_files fuel h nx x = Ret (u, y) -> stale (shfs y) = true.
Proof.
  induction fuel as [|fuel IH]; intros nx x u y Hx E; [done|]. cbn [ls_files] in E.
  case_bool_decide; [change (Ret (tt, x) = Ret (u, y)) in E; by injection E as _ <-|].
  apply M_bind_ret in E as (d & x1 & E1 & E). unfold mlift in E1. destruct (file_of nx); try done. injection E1 as -> <-.
  apply M_bind_ret in E as (v & x2 & E2 & E). unfold on_fs, zoom, get_file in E2. destruct (files (shfs x) !! d); [|done].
  injection E2 as -> <-. apply M_bind_ret in E as (? & x3 & E3 & E). injection E3 as <- <-.
  apply M_bind_ret in E as (? & x4 & E4 & E). unfold on_fs, zoom in E4. rewrite next_of_run in E4. injection E4 as <- <-.
  eapply IH; [|exact E]. cbn. by rewrite Hx.
Qed.

(** A directory that is removed while the shell is in it stays its current
    directory: [remove_directory] frees it, and "ls" reads freed memory. *)
Theorem ls_in_removed_directory (s : shell) (c : Z) r s' :
  current_dir s = Some c -> dirs (shfs s) !! c = None -> do_ls s = Ret (r, s') -> stale (shfs s') = true.
Proof.
  intros Hc Hn E. unfold do_ls in E.
  rewrite (M_bind_run _ _ s s c) in E by (unfold cwd; rewrite (M_bind_run _ _ s s s eq_refl), Hc; done).
  rewrite (M_bind_run _ _ s s s eq_refl) in E.
  apply M_bind_ret in E as (n & s1 & E1 & E). unfold on_fs, zoom in E1. rewrite next_of_run in E1. injection E1 as <- <-.
  apply M_bind_ret in E as (? & s2 & E2 & E). apply ls_dirs_stale in E2; [|cbn; rewrite Hn; by rewrite orb_true_r].
  apply M_bind_ret in E as (? & s3 & E3 & E). unfold on_fs, zoom in E3. rewrite next_of_run in E3. injection E3 as <- <-.
  apply M_bind_ret in E as (? & s4 & E4 & E). apply ls_files_stale in E4; [|cbn; by rewrite E2].
  apply M_bind_ret in E as (? & s5 & E5 & E). injection E5 as <- <-. change (Ret (0, Shell (shfs s4) (current_dir s4) ([10] :: printed s4)) = Ret (r, s')) in E.
  by injection E as _ <-.
Qed.

End Shell.

(** ** A shell in the file system of the kernel with one thread *)

#[local] Existing Instance fsheap0.

Definition root1 : Z := default 0 (root fs1).
Definition bin1 : Z := default 0 (bin fs1).
Definition sys1 : Z := default 0 (sys fs1).
Definition tree1 : dtree :=
  DTree root1 [] [DTree sys1 [] []; DTree proc1 [] [DTree dir1 [file1] []]; DTree bin1 [] []].
Definition sh1 : shell := Shell fs1 (Some root1) [].

Ltac concrete_list := split; [apply (bool_decide_unpack _); by vm_compute|repeat split; by vm_compute].
Ltac concrete_dir :=
  split; [apply (bool_decide_unpack _); by vm_compute|]; split; [by intros f ?%elem_of_nil|];
  split; [concrete_list|]; split; [concrete_list|].

Lemma sh1_ok : shell_ok sh1 tree1 root1.
Proof.
  split; [|cbn; split_and!; try done; eexists; split; by vm_compute|by vm_compute|done|by left].
  unfold tree1. cbn [holds]. concrete_dir. split; [concrete_dir; done|]. split; [|split; [concrete_dir; done|done]].
  concrete_dir. split; [exact (proj1 dir1_holds)|done].
Qed.

Lemma cds_ok_witness :
  exists s' c', cds [[s_cd; s_proc]; [s_cd; [55]]; [s_cd; s_dotdot]; [s_cd; [57]]; [s_cd]] sh1 = Ret (tt, s') /\
    shell_ok s' tree1 c' /\ shfs s' = shfs sh1.
Proof.
  apply (cds_ok sh1 tree1 root1 [[s_cd; s_proc]; [s_cd; [55]]; [s_cd; s_dotdot]; [s_cd; [57]]; [s_cd]] sh1_ok).
  repeat (apply Forall_cons; split; [done|]). by apply Forall_nil.
Defined.

Lemma cd_and_back_witness : do_cd [s_cd; s_dotdot] (with_dir (Some proc1) sh1) = Ret (0, sh1).
Proof.
  apply (cd_and_back sh1 tree1 root1 s_cd s_proc (with_dir (Some proc1) sh1) sh1_ok); [done|done|done|by vm_compute].
Defined.

Lemma do_ls_ok_witness : do_ls sh1 = Ret (0, shown [s_sys ++ [32]; s_proc ++ [32]; s_bin ++ [32]; [10]] sh1).
Proof.
  apply (do_ls_ok sh1 root1 [] [DTree sys1 [] []; DTree proc1 [] [DTree dir1 [file1] []]; DTree bin1 [] []]);
    [done|exact (so_holds _ _ _ sh1_ok)].
Defined.

Lemma usr_fs_init_ok_witness :
  exists s', usr_fs_init sh1 = Ret (0, s') /\ current_dir s' = Some root1 /\
    forall w, run_command (fun _ => None) (s_ls :: w) s' = (ret ← do_ls; mret (Some ret)) s' /\
      run_command (fun _ => None) (s_cd :: w) s' = (ret ← do_cd (s_cd :: w); mret (Some ret)) s' /\
      run_command (fun _ => None) (s_cat :: w) s' = (ret ← do_cat (fun _ => None) (s_cat :: w); mret (Some ret)) s'.
Proof.
  apply (usr_fs_init_ok (fun _ => None) sh1 bin1 root1 []); [done|by vm_compute|by vm_compute|].
  split_and!; [apply (bool_decide_unpack _); by vm_compute| |by intros f ?%elem_of_nil].
  split; [apply (bool_decide_unpack _); by vm_compute|repeat split; by vm_compute].
Defined.
