(* ===== verification/Schedule.v ===== *)
(** * Threads and the scheduler (schedule/schedule.c)

    Every processor has a run queue, an intrusive list through the threads'
    [sched_node]; the running thread is not on it.  [schedule] is round
    robin: it takes the first thread and puts the one it replaces at the
    end.  The state holds the threads, the kernel stacks that came from
    [kmalloc], the list nodes, the locks, the registers of each processor and
    the file system, in which every thread has a directory.  The model has the one process there is, [init_proc].
    The number of the processor ([cpu_id()]) is an argument. *)

From stdpp Require Import base numbers list gmap sets.
From Stdlib Require Import ZArith Lia ZifyBool ZifyNat.
From S2P Require Import Prelude Bitops Lock ListNode CMem CString KString Fs.

Open Scope Z_scope.

Definition MAX_CPU : Z := 8.
Definition FL_IF : Z := 0x200.
Definition KERNEL_CS : Z := 8.
Definition KERNEL_DS : Z := 16.

Inductive thread_state : Type :=
  | THREAD_INACTIVE | THREAD_SLEEPING | THREAD_RUNNABLE | THREAD_RUNNING | THREAD_EXIT.

#[export] Instance thread_state_eq_dec : EqDecision thread_state.
Proof. solve_decision. Defined.

(** [struct thread_context], the registers saved by [context_switch]. *)
Record thread_context := Context {
  eip : Z; esp : Z; ebx : Z; ecx : Z; edx : Z; esi : Z; edi : Z; ebp : Z
}.

(** The fields of [struct trapframe] that [thread_run] sets. *)
Record trapframe := Trapframe {
  tf_cs : Z; tf_ds : Z; tf_es : Z; tf_ss : Z; tf_ebp : Z; tf_ebx : Z; tf_edx : Z; tf_esp : Z; tf_eax : Z;
  tf_eip : Z; tf_eflags : Z
}.

(** [struct thread] without its list nodes; [tf] is the frame at the top of
    the kernel stack. *)
Record thread := Thread {
  tid : Z;
  state : thread_state;
  kstack : Z;
  tf : trapframe;
  context : thread_context;
  tdir : option Z;
  f_state : option Z
}.

Inductive sloc : Type :=
  | RqHead (cpu : Z)
  | ThreadGroup
  | TNode (t : Z)
  | SchedNode (t : Z).

#[export] Instance sloc_eq_dec : EqDecision sloc.
Proof. solve_decision. Defined.
#[export] Instance sloc_countable : Countable sloc.
Proof.
  refine (inj_countable'
    (fun l => match l with
      | RqHead c => (0, c) | ThreadGroup => (1, 0) | TNode t => (2, t) | SchedNode t => (3, t) end)
    (fun t => match t.1 with
      | 0 => RqHead t.2 | 1 => ThreadGroup | 2 => TNode t.2 | _ => SchedNode t.2 end) _).
  by intros [].
Defined.

(** [kmalloc] of threads and stacks, whether [ksalloc] finds memory for the
    string of thread number [i], what fresh memory holds, and the addresses
    of three symbols. *)
Class SchedHeap := {
  new_thread : gmap Z thread -> option Z;
  new_stack : gset Z -> option Z;
  string_room : Z -> bool;
  junk_thread : thread;
  thread_entry : Z;
  run_entry : Z;
  bootstack : Z;
  new_thread_fresh : forall m t, new_thread m = Some t -> m !! t = None;
  new_stack_fresh : forall m a, new_stack m = Some a -> a ∉ m
}.

Section Schedule.
Context `{FH : FsHeap} `{SH : SchedHeap}.

Record sched := Sched {
  threads : gmap Z thread;
  stacks : gset Z;             (** the stacks allocated with [kmalloc] *)
  snodes : gmap sloc (list_node sloc);
  current_threads : gmap Z Z;
  sched_lock : gmap Z Z;
  g_thread_id : Z;
  regs : gmap Z thread_context;
  sfs : fs
}.

Definition with_threads (x : gmap Z thread) (s : sched) : sched :=
  Sched x (stacks s) (snodes s) (current_threads s) (sched_lock s) (g_thread_id s) (regs s) (sfs s).
Definition with_stacks (x : gset Z) (s : sched) : sched :=
  Sched (threads s) x (snodes s) (current_threads s) (sched_lock s) (g_thread_id s) (regs s) (sfs s).
Definition with_snodes (x : gmap sloc (list_node sloc)) (s : sched) : sched :=
  Sched (threads s) (stacks s) x (current_threads s) (sched_lock s) (g_thread_id s) (regs s) (sfs s).
Definition with_current (c t : Z) (s : sched) : sched :=
  Sched (threads s) (stacks s) (snodes s) (<[c := t]> (current_threads s)) (sched_lock s) (g_thread_id s) (regs s) (sfs s).
Definition with_slock (c v : Z) (s : sched) : sched :=
  Sched (threads s) (stacks s) (snodes s) (current_threads s) (<[c := v]> (sched_lock s)) (g_thread_id s) (regs s) (sfs s).
Definition with_next_id (v : Z) (s : sched) : sched :=
  Sched (threads s) (stacks s) (snodes s) (current_threads s) (sched_lock s) v (regs s) (sfs s).
Definition with_regs (c : Z) (r : thread_context) (s : sched) : sched :=
  Sched (threads s) (stacks s) (snodes s) (current_threads s) (sched_lock s) (g_thread_id s) (<[c := r]> (regs s)) (sfs s).
Definition with_sfs (x : fs) (s : sched) : sched :=
  Sched (threads s) (stacks s) (snodes s) (current_threads s) (sched_lock s) (g_thread_id s) (regs s) x.

Definition with_state (x : thread_state) (t : thread) : thread :=
  Thread (tid t) x (kstack t) (tf t) (context t) (tdir t) (f_state t).
Definition with_context (x : thread_context) (t : thread) : thread :=
  Thread (tid t) (state t) (kstack t) (tf t) x (tdir t) (f_state t).
Definition with_dir (d f : option Z) (t : thread) : thread :=
  Thread (tid t) (state t) (kstack t) (tf t) (context t) d f.

Definition zero_context : thread_context := Context 0 0 0 0 0 0 0 0.
Definition lock_of (s : sched) (c : Z) : Z := default 0 (sched_lock s !! c).
Definition regs_of (s : sched) (c : Z) : thread_context := default zero_context (regs s !! c).

Definition on_snodes (f : gmap sloc (list_node sloc) -> outcome (gmap sloc (list_node sloc))) : M sched unit :=
  fun s => match f (snodes s) with
           | Ret n => Ret (tt, with_snodes n s) | Bug => Bug | Fault => Fault | Spin => Spin
           end.
Definition on_fs {A} (m : M fs A) : M sched A := fun s =>
  match m (sfs s) with
  | Ret (a, f) => Ret (a, with_sfs f s) | Bug => Bug | Fault => Fault | Spin => Spin
  end.
Definition lock_sched (c : Z) : M sched unit := fun s =>
  match spin_lock (lock_of s c) with Ret v => Ret (tt, with_slock c v s) | _ => Bug end.
Definition unlock_sched (c : Z) : M sched unit := fun s =>
  Ret (tt, with_slock c (spin_unlock (lock_of s c)) s).

Definition get_thread (t : Z) : M sched thread := fun s =>
  match threads s !! t with Some x => Ret (x, s) | None => Fault end.
Definition upd_thread (t : Z) (f : thread -> thread) : M sched unit := fun s =>
  match threads s !! t with
  | Some x => Ret (tt, with_threads (<[t := f x]> (threads s)) s) | None => Fault
  end.
Definition kfree_thread (t : Z) : M sched unit := fun s =>
  match threads s !! t with
  | Some _ => Ret (tt, with_threads (delete t (threads s)) s) | None => Fault
  end.

Definition kmalloc_thread : M sched (option Z) := fun s =>
  match new_thread (threads s) with
  | Some t => Ret (Some t, with_threads (<[t := junk_thread]> (threads s)) s)
  | None => Ret (None, s)
  end.
Definition kmalloc_stack : M sched (option Z) := fun s =>
  match new_stack (stacks s) with
  | Some a => Ret (Some a, with_stacks ({[a]} ∪ stacks s) s)
  | None => Ret (None, s)
  end.
(** [kfree] of an address [kmalloc] never returned is a fault. *)
Definition kfree_stack (a : Z) : M sched unit := fun s =>
  if decide (a ∈ stacks s) then Ret (tt, with_stacks (stacks s ∖ {[a]}) s) else Fault.

(** The macro [current]. *)
Definition current (c : Z) : M sched Z := s ← mget; mlift (deref (current_threads s !! c)).

(** [container_of(node, struct thread, sched_node)]. *)
Definition thread_of (p : option sloc) : outcome Z :=
  match p with Some (SchedNode t) => Ret t | _ => Fault end.

(** [context_switch(from, to)] on processor [c]: the registers are saved in
    [from] (a thread, or a local variable that is dropped) and loaded from
    the thread [to]. *)
Definition context_switch (c : Z) (from : option Z) (to : Z) : M sched unit :=
  s ← mget;
  _ ← match from with Some t => upd_thread t (with_context (regs_of s c)) | None => mret tt end;
  n ← get_thread to;
  mmod (with_regs c (context n)).

Definition schedule (c : Z) : M sched unit :=
  prev ← current c;
  s ← mget;
  if list_empty (RqHead c) (snodes s) then mret tt
  else
    next ← mlift (thread_of (list_next (RqHead c) (snodes s)));
    if prev =? next then mret tt
    else
      _ ← lock_sched c;
      _ ← on_snodes (list_remove (SchedNode next));
      _ ← unlock_sched c;
      _ ← mmod (with_current c next);
      p ← get_thread prev;
      if bool_decide (state p = THREAD_EXIT) then
        _ ← lock_sched c;
        _ ← on_snodes (list_remove (TNode prev));
        _ ← unlock_sched c;
        d ← mlift (deref (tdir p));
        _ ← on_fs (remove_directory d);
        _ ← kfree_stack (kstack p);
        _ ← kfree_thread prev;
        context_switch c None next
      else
        _ ← lock_sched c;
        _ ← on_snodes (list_insert_tail (RqHead c) (SchedNode prev));
        _ ← unlock_sched c;
        _ ← upd_thread prev (with_state THREAD_RUNNABLE);
        _ ← upd_thread next (with_state THREAD_RUNNING);
        context_switch c (Some prev) next.

Definition thread_exit (c : Z) : M sched unit :=
  t ← current c;
  _ ← upd_thread t (with_state THREAD_EXIT);
  schedule c.

(** The name "state". *)
Definition s_state : list Z := [115; 116; 97; 116; 101].

(** The string [ksalloc] and [ksappend_int] make: the digits of the number
    as an [int].  [tid_name_code] derives this from the code of the two. *)
Definition tid_name (i : Z) : option (list Z) := if string_room i then Some (decimal (s32 i)) else None.

Definition create_thread_procfs (t : Z) : M sched Z :=
  x ← get_thread t;
  match tid_name (tid x) with
  | None => mret (- ENOMEM)
  | Some name =>
      p ← on_fs (global proc);
      '(ret, d) ← on_fs (create_directory name (Some p));
      match d with
      | None => mret ret
      | Some d =>
          _ ← upd_thread t (with_dir (Some d) (f_state x));
          '(_, f) ← on_fs (create_file s_state 0 d t);
          _ ← upd_thread t (with_dir (Some d) f);
          mret 0
      end
  end.

(** The frame and the context of a new thread. *)
Definition new_frame (stack fn arg flags : Z) : trapframe :=
  Trapframe KERNEL_CS KERNEL_DS KERNEL_DS KERNEL_DS stack fn arg 0 0 thread_entry (Z.lor flags FL_IF).
Definition sizeof_trapframe : Z := 68.
Definition new_context (stack : Z) (x : thread_context) : thread_context :=
  Context run_entry (u32 (stack + KERNEL_STACK_SIZE - sizeof_trapframe)) (ebx x) (ecx x) (edx x) (esi x) (edi x) stack.

Definition thread_run (c fn arg cpu : Z) : M sched (option Z) :=
  let cpu := if (cpu <? 0) || (MAX_CPU <=? cpu) then c else cpu in
  t ← kmalloc_thread;
  match t with
  | None => mret None
  | Some t =>
      stack ← kmalloc_stack;
      match stack with
      | None => _ ← kfree_thread t; mret None
      | Some stack =>
          _ ← current c;
          s ← mget;
          _ ← upd_thread t (fun x => Thread (g_thread_id s) THREAD_RUNNABLE stack
                 (new_frame stack fn arg (tf_eflags (tf x))) (new_context stack (context x)) (tdir x) (f_state x));
          _ ← mmod (fun s => with_next_id (u32 (g_thread_id s + 1)) s);
          _ ← lock_sched cpu;
          _ ← current cpu;
          _ ← on_snodes (list_insert ThreadGroup (TNode t));
          _ ← on_snodes (list_insert (RqHead cpu) (SchedNode t));
          _ ← unlock_sched cpu;
          ret ← create_thread_procfs t;
          if ret =? 0 then mret (Some t)
          else
            x ← get_thread t;
            _ ← kfree_stack (kstack x);
            _ ← kfree_thread t;
            mret None
      end
  end.

Definition thread_sleep (t : Z) : M sched unit :=
  _ ← upd_thread t (with_state THREAD_SLEEPING);
  on_snodes (list_remove (SchedNode t)).

Definition thread_wakeup (c t : Z) : M sched unit :=
  _ ← upd_thread t (with_state THREAD_RUNNABLE);
  on_snodes (list_insert (SchedNode t) (RqHead c)).

Definition schedule_init (cpu : Z) : M sched Z :=
  _ ← mmod (with_slock cpu 0);
  _ ← mmod (fun s => if cpu =? 0 then with_snodes (list_init ThreadGroup (snodes s)) s else s);
  _ ← mmod (fun s => with_snodes (list_init (RqHead cpu) (snodes s)) s);
  t ← kmalloc_thread;
  match t with
  | None => mret (- ENOMEM)
  | Some t =>
      s ← mget;
      _ ← upd_thread t (fun x =>
            Thread (g_thread_id s) THREAD_RUNNING bootstack (tf x) (context x) (tdir x) (f_state x));
      _ ← mmod (fun s => with_next_id (u32 (g_thread_id s + 1)) s);
      _ ← mmod (with_current cpu t);
      _ ← on_snodes (list_insert ThreadGroup (TNode t));
      _ ← create_thread_procfs t;
      mret 0
  end.

(** ** The run queue of a processor *)

(** Processor [c] runs [cur] and its queue holds [q], in order. *)
Record cpu_ok (s : sched) (c : Z) (q : list Z) (cur : Z) : Prop := CpuOk {
  co_lock : lock_of s c = 0;
  co_cur : current_threads s !! c = Some cur;
  co_list : dll (snodes s) (RqHead c) (SchedNode <$> q);
  co_off : cur ∉ q;
  co_live : is_Some (threads s !! cur);
  co_queue : forall t, t ∈ q -> exists x, threads s !! t = Some x /\ state x = THREAD_RUNNABLE
}.

(** Nothing but the queue of [c], its current thread and registers, and the
    threads in [ts] changed. *)
Definition sched_frame (c : Z) (ts : list Z) (s s' : sched) : Prop :=
  (forall t, t ∉ ts -> threads s' !! t = threads s !! t) /\
  (forall x, x <> RqHead c -> (forall t, t ∈ ts -> x <> SchedNode t) -> nd (snodes s') x = nd (snodes s) x) /\
  (forall c', c' <> c -> current_threads s' !! c' = current_threads s !! c' /\ lock_of s' c' = lock_of s c' /\
     regs_of s' c' = regs_of s c') /\
  sfs s' = sfs s /\ g_thread_id s' = g_thread_id s /\ stacks s' = stacks s.

Lemma on_snodes_run f n s : f (snodes s) = Ret n -> on_snodes f s = Ret (tt, with_snodes n s).
Proof. intros E. unfold on_snodes. by rewrite E. Qed.

Lemma lock_sched_run c s : lock_of s c = 0 -> lock_sched c s = Ret (tt, with_slock c 1 s).
Proof. intros E. unfold lock_sched, spin_lock. by rewrite E. Qed.

Lemma current_run c t s : current_threads s !! c = Some t -> current c s = Ret (t, s).
Proof. intros E. unfold current. rewrite (M_bind_run _ _ s s s eq_refl). by rewrite E. Qed.

Lemma get_thread_run t x s : threads s !! t = Some x -> get_thread t s = Ret (x, s).
Proof. intros E. unfold get_thread. by rewrite E. Qed.

Lemma upd_thread_run t x f s : threads s !! t = Some x ->
  upd_thread t f s = Ret (tt, with_threads (<[t := f x]> (threads s)) s).
Proof. intros E. unfold upd_thread. by rewrite E. Qed.

Lemma lock_of_slock s c v c' : lock_of (with_slock c v s) c' = if decide (c = c') then v else lock_of s c'.
Proof. unfold lock_of, with_slock. cbn. rewrite lookup_insert. by case_decide. Qed.

(** A locked list operation: lock, operation, unlock. *)
Lemma locked_run {A} c f n (k : M sched A) s :
  lock_of s c = 0 -> f (snodes s) = Ret n ->
  (_ ← lock_sched c; _ ← on_snodes f; _ ← unlock_sched c; k) s =
  k (with_slock c 0 (with_snodes n (with_slock c 1 s))).
Proof.
  intros El En. rewrite (M_bind_run _ _ _ _ _ (lock_sched_run c s El)).
  rewrite (M_bind_run _ _ _ _ _ (on_snodes_run f n (with_slock c 1 s) En)). done.
Qed.

Lemma schedule_empty s c cur : cpu_ok s c [] cur -> schedule c s = Ret (tt, s).
Proof.
  intros K. unfold schedule. rewrite (M_bind_run _ _ _ _ _ (current_run _ _ _ (co_cur _ _ _ _ K))).
  rewrite (M_bind_run _ _ s s s eq_refl).
  by rewrite (proj2 (list_empty_dll _ _ _ (co_list _ _ _ _ K)) eq_refl).
Qed.

(** Up to the choice between the two branches. *)
Lemma schedule_pick s c n q cur :
  cpu_ok s c (n :: q) cur ->
  exists m, list_remove (SchedNode n) (snodes s) = Ret m /\
    dll m (RqHead c) (SchedNode <$> q) /\
    (forall x, x ∉ RqHead c :: (SchedNode <$> q) -> nd m x = nd (snodes s) x) /\
    schedule c s =
      (p ← get_thread cur;
       if bool_decide (state p = THREAD_EXIT) then
         _ ← lock_sched c;
         _ ← on_snodes (list_remove (TNode cur));
         _ ← unlock_sched c;
         d ← mlift (deref (tdir p));
         _ ← on_fs (remove_directory d);
         _ ← kfree_stack (kstack p);
         _ ← kfree_thread cur;
         context_switch c None n
       else
         _ ← lock_sched c;
         _ ← on_snodes (list_insert_tail (RqHead c) (SchedNode cur));
         _ ← unlock_sched c;
         _ ← upd_thread cur (with_state THREAD_RUNNABLE);
         _ ← upd_thread n (with_state THREAD_RUNNING);
         context_switch c (Some cur) n)
      (with_current c n (with_slock c 0 (with_snodes m (with_slock c 1 s)))).
Proof.
  intros K. pose proof (co_list _ _ _ _ K) as Hd. cbn [fmap list_fmap] in Hd.
  destruct (list_remove_dll _ _ [] _ _ Hd) as (m & Em & Hm & Fm). exists m. split_and!; [done..|].
  unfold schedule. rewrite (M_bind_run _ _ _ _ _ (current_run _ _ _ (co_cur _ _ _ _ K))).
  rewrite (M_bind_run _ _ s s s eq_refl).
  destruct (list_empty (RqHead c) (snodes s)) eqn:He; [by apply (list_empty_dll _ _ _ Hd) in He|].
  rewrite (list_next_dll _ _ _ _ Hd). cbn [thread_of]. rewrite (M_bind_run _ _ s s n eq_refl).
  assert (cur <> n) by (intros ->; apply (co_off _ _ _ _ K); by left). if_false.
  rewrite (locked_run c _ m _ s (co_lock _ _ _ _ K) Em). done.
Qed.

(** The threads after switching from [cur] to [n]. *)
Lemma schedule_switch s c n q cur x :
  cpu_ok s c (n :: q) cur -> threads s !! cur = Some x -> state x <> THREAD_EXIT ->
  exists s' y, schedule c s = Ret (tt, s') /\ cpu_ok s' c (q ++ [cur]) n /\
    threads s !! n = Some y /\
    threads s' !! cur = Some (with_context (regs_of s c) (with_state THREAD_RUNNABLE x)) /\
    threads s' !! n = Some (with_state THREAD_RUNNING y) /\
    regs_of s' c = context y /\ sched_frame c (cur :: n :: q) s s'.
Proof.
  intros K Ex Hx. destruct (schedule_pick s c n q cur K) as (m & Em & Dm & Fm & E).
  assert (Hne : cur <> n) by (intros ->; apply (co_off _ _ _ _ K); by left).
  assert (Hnq : n ∉ q).
  { destruct (co_list _ _ _ _ K) as [Hn _]. apply list.NoDup_cons in Hn as [_ Hn].
    cbn [fmap list_fmap] in Hn. apply list.NoDup_cons in Hn as [Hn _]. intros Hin. apply Hn. by apply list_elem_of_fmap_2. }
  assert (Hcq : cur ∉ q) by (intros Hin; apply (co_off _ _ _ _ K); by right).
  destruct (co_queue _ _ _ _ K n) as (y & Ey & Hy); [by left|].
  destruct (list_insert_tail_dll m (RqHead c) (SchedNode <$> q) (SchedNode cur) Dm) as (m2 & Em2 & Dm2 & Fm2).
  { rewrite not_elem_of_cons. split; [done|]. by intros (t & [= <-] & Ht)%list_elem_of_fmap. }
  set (s1 := with_current c n (with_slock c 0 (with_snodes m (with_slock c 1 s)))) in E.
  set (s2 := with_slock c 0 (with_snodes m2 (with_slock c 1 s1))).
  set (T := <[cur := with_context (regs_of s c) (with_state THREAD_RUNNABLE x)]>
              (<[n := with_state THREAD_RUNNING y]> (<[cur := with_state THREAD_RUNNABLE x]> (threads s)))).
  exists (with_regs c (context y) (with_threads T s2)), y.
  assert (Eq : schedule c s = Ret (tt, with_regs c (context y) (with_threads T s2))).
  { rewrite E, (M_bind_run _ _ _ _ _ (get_thread_run cur x s1 Ex)). rewrite bool_decide_false by done.
    assert (L1 : lock_of s1 c = 0).
    { change (lock_of s1 c) with (lock_of (with_slock c 0 (with_snodes m (with_slock c 1 s))) c).
      by rewrite lock_of_slock, decide_True. }
    rewrite (locked_run c _ m2 _ s1 L1 Em2). fold s2.
    rewrite (M_bind_run _ _ _ _ _ (upd_thread_run cur x (with_state THREAD_RUNNABLE) s2 Ex)).
    set (s3 := with_threads _ s2).
    assert (Ey3 : threads s3 !! n = Some y) by (cbn; by rewrite lookup_insert_ne).
    rewrite (M_bind_run _ _ _ _ _ (upd_thread_run n y (with_state THREAD_RUNNING) s3 Ey3)).
    set (s4 := with_threads _ s3). unfold context_switch. rewrite (M_bind_run _ _ s4 s4 s4 eq_refl).
    assert (Ec4 : threads s4 !! cur = Some (with_state THREAD_RUNNABLE x)) by (cbn; by rewrite lookup_insert_ne, lookup_insert_eq).
    rewrite (M_bind_run _ _ _ _ _ (upd_thread_run cur _ (with_context (regs_of s4 c)) s4 Ec4)).
    set (s5 := with_threads _ s4).
    assert (Ey5 : threads s5 !! n = Some (with_state THREAD_RUNNING y)).
    { cbn. by rewrite lookup_insert_ne, lookup_insert_eq. }
    by rewrite (M_bind_run _ _ _ _ _ (get_thread_run n _ s5 Ey5)). }
  split_and!; [exact Eq| |done| | | |].
  - split; cbn [lock_of current_threads snodes threads with_regs with_threads].
    + change (lock_of _ c) with (lock_of s2 c). unfold s2. by rewrite lock_of_slock, decide_True.
    + cbn. by rewrite lookup_insert_eq.
    + rewrite fmap_app. exact Dm2.
    + rewrite elem_of_app, list_elem_of_singleton. naive_solver.
    + unfold T. rewrite lookup_insert_ne, lookup_insert_eq by done. by eexists.
    + intros t [Ht|Ht]%elem_of_app.
      * destruct (co_queue _ _ _ _ K t) as (z & Ez & Hz); [by right|]. exists z. unfold T.
        rewrite !lookup_insert_ne by (by intros ->). done.
      * apply list_elem_of_singleton in Ht as ->. eexists. unfold T. by rewrite lookup_insert_eq.
  - cbn. unfold T. by rewrite lookup_insert_eq.
  - cbn. unfold T. by rewrite lookup_insert_ne, lookup_insert_eq.
  - unfold regs_of. cbn. by rewrite lookup_insert_eq.
  - split_and!.
    + intros t Ht. cbn. unfold T. rewrite !lookup_insert_ne; [done|set_solver..].
    + intros z Hz Hts. cbn. rewrite Fm2, Fm; [done| |].
      * rewrite not_elem_of_cons. split; [done|]. intros (t & -> & Ht)%list_elem_of_fmap. apply (Hts t); set_solver.
      * rewrite !not_elem_of_cons. split_and!; [apply Hts; set_solver|done|].
        intros (t & -> & Ht)%list_elem_of_fmap. apply (Hts t); set_solver.
    + intros c' Hc'. cbn. rewrite !lookup_insert_ne by done.
      unfold lock_of, regs_of. cbn. by rewrite !lookup_insert_ne by done.
    + done.
    + done.
    + done.
Qed.

(** ** Fairness *)

Fixpoint schedule_times (k : nat) (c : Z) : M sched unit :=
  match k with O => mret tt | S k => _ ← schedule c; schedule_times k c end.

(** C4. Round robin: the thread at position [k] of a run queue is running
    after [k + 1] calls of [schedule] on its processor, however long the
    queue, as long as the running thread does not exit and no thread is
    started in between; the threads that ran before it are behind it in the
    queue, in order, so no thread is lost or starves. *)
Theorem schedule_fair (s : sched) (c cur : Z) (q : list Z) (x : thread) (k : nat) (t : Z) :
  cpu_ok s c q cur -> threads s !! cur = Some x -> state x <> THREAD_EXIT -> q !! k = Some t ->
  exists s', schedule_times (S k) c s = Ret (tt, s') /\
    cpu_ok s' c (drop (S k) q ++ cur :: take k q) t.
Proof.
  revert s q cur x. induction k as [|k IH]; intros s q cur x K Ex Hx Ht;
    (destruct q as [|n q]; [done|]);
    destruct (schedule_switch s c n q cur x K Ex Hx) as (s1 & y & E1 & K1 & _ & _ & En & _ & _).
  - injection Ht as <-. exists s1. split; [by cbn [schedule_times]; rewrite (M_bind_run _ _ _ _ _ E1)|]. exact K1.
  - cbn in Ht. pose proof (lookup_lt_Some _ _ _ Ht).
    destruct (IH s1 (q ++ [cur]) n (with_state THREAD_RUNNING y)) as (s2 & E2 & K2); [done|done|done| |].
    { by rewrite lookup_app_l. }
    exists s2. split; [cbn [schedule_times]; by rewrite (M_bind_run _ _ _ _ _ E1)|].
    rewrite drop_app_le, take_app_le in K2 by lia. rewrite <- app_assoc in K2. exact K2.
Qed.

(** One call of [schedule] with a thread waiting: the first of the queue
    runs, marked running, with its saved registers; the thread it replaces
    is at the end of the queue, marked runnable whatever it was marked (in
    particular when it was marked sleeping), its registers saved; the lock
    is free, and no other thread, queue or processor changes. *)
Theorem schedule_ok (s : sched) (c n : Z) (q : list Z) (cur : Z) (x : thread) :
  cpu_ok s c (n :: q) cur -> threads s !! cur = Some x -> state x <> THREAD_EXIT ->
  exists s' y, schedule c s = Ret (tt, s') /\ cpu_ok s' c (q ++ [cur]) n /\
    threads s !! n = Some y /\
    threads s' !! cur = Some (with_context (regs_of s c) (with_state THREAD_RUNNABLE x)) /\
    threads s' !! n = Some (with_state THREAD_RUNNING y) /\
    regs_of s' c = context y /\ sched_frame c (cur :: n :: q) s s'.
Proof. apply schedule_switch. Qed.

(** ** Exit *)

(** The directory of the thread as a tree in "/proc". *)
Definition proc_dir (f : fs) (d : Z) (t : dtree) (p : Z) (pre post : list Z) : Prop :=
  troot t = d /\ holds f t /\ distinct t /\ p ∉ tdirs t /\ (forall x, x ∈ pre ++ post -> x ∉ tdirs t) /\
  dll (fnodes f) (DirList p) (DNode <$> pre ++ d :: post).

Lemma relock c n m m2 s :
  with_slock c 0 (with_snodes m2 (with_slock c 1 (with_current c n (with_slock c 0 (with_snodes m (with_slock c 1 s)))))) =
  with_slock c 0 (with_snodes m2 (with_slock c 1 (with_current c n s))).
Proof.
  destruct s as [T k N cu L g r f]. unfold with_slock, with_snodes, with_current.
  cbn [threads stacks snodes current_threads sched_lock g_thread_id regs sfs]. by rewrite !insert_insert_eq.
Qed.

(** [schedule] on an exited thread, up to the freeing of its stack. *)
Lemma schedule_exit_point s c n q cur x g1 g2 d t p pre post :
  cpu_ok s c (n :: q) cur -> threads s !! cur = Some x -> state x = THREAD_EXIT ->
  dll (snodes s) ThreadGroup (TNode <$> g1 ++ cur :: g2) ->
  tdir x = Some d -> proc_dir (sfs s) d t p pre post ->
  exists m f', dll m (RqHead c) (SchedNode <$> q) /\ dll m ThreadGroup (TNode <$> g1 ++ g2) /\
    removed [t] (sfs s) f' /\
    let s2 := with_slock c 0 (with_snodes m (with_slock c 1 (with_current c n s))) in
    schedule c s = (_ ← kfree_stack (kstack x); _ ← kfree_thread cur; context_switch c None n) (with_sfs f' s2).
Proof.
  intros K Ex Hx Hg Ed (Er & Hh & Hdist & Hp & Hsib & Hl).
  destruct (schedule_pick s c n q cur K) as (m & Em & Dm & Fm & E).
  set (s1 := with_current c n (with_slock c 0 (with_snodes m (with_slock c 1 s)))) in E.
  assert (Hg1 : dll m ThreadGroup ((TNode <$> g1) ++ TNode cur :: (TNode <$> g2))).
  { rewrite <- fmap_cons, <- fmap_app. apply (dll_frame (snodes s)); [|done].
    intros z Hz. apply Fm. rewrite not_elem_of_cons. apply elem_of_cons in Hz as [->|(u & -> & _)%list_elem_of_fmap];
      (split; [done|]); by intros (v & ? & _)%list_elem_of_fmap. }
  destruct (list_remove_dll _ _ _ _ _ Hg1) as (m2 & Em2 & Dm2 & Fm2). rewrite <- fmap_app in Dm2, Fm2.
  rewrite <- Er in Hl. destruct (remove_directory_run (sfs s) t p pre post Hh Hdist Hp Hsib Hl) as (f' & Ef & Rf & _).
  rewrite Er in Ef. exists m2, f'. split_and!; [|exact Dm2|exact Rf|].
  - apply (dll_frame m); [|done]. intros z Hz. apply Fm2. rewrite not_elem_of_cons.
    apply elem_of_cons in Hz as [->|(u & -> & _)%list_elem_of_fmap]; (split; [done|]); by intros (v & ? & _)%list_elem_of_fmap.
  - rewrite E, (M_bind_run _ _ _ _ _ (get_thread_run cur x s1 Ex)). rewrite bool_decide_true by done.
    assert (L1 : lock_of s1 c = 0).
    { change (lock_of s1 c) with (lock_of (with_slock c 0 (with_snodes m (with_slock c 1 s))) c).
      by rewrite lock_of_slock, decide_True. }
    rewrite (locked_run c _ m2 _ s1 L1 Em2). set (s2 := with_slock c 0 (with_snodes m2 (with_slock c 1 s1))).
    rewrite Ed. cbn [deref]. rewrite (M_bind_run _ _ s2 s2 d eq_refl).
    rewrite (M_bind_run _ _ s2 (with_sfs f' s2) 0) by (unfold on_fs; cbn; by rewrite Ef).
    cbv zeta. unfold s2, s1. by rewrite relock.
Qed.

Lemma schedule_exits s c n q cur x g1 g2 d t p pre post :
  cpu_ok s c (n :: q) cur -> threads s !! cur = Some x -> state x = THREAD_EXIT ->
  dll (snodes s) ThreadGroup (TNode <$> g1 ++ cur :: g2) ->
  kstack x ∈ stacks s -> tdir x = Some d -> proc_dir (sfs s) d t p pre post ->
  exists s' y, schedule c s = Ret (tt, s') /\ cpu_ok s' c q n /\
    dll (snodes s') ThreadGroup (TNode <$> g1 ++ g2) /\
    (forall u, threads s' !! u = if decide (u = cur) then None else threads s !! u) /\
    threads s !! n = Some y /\ regs_of s' c = context y /\
    removed [t] (sfs s) (sfs s') /\ stacks s' = stacks s ∖ {[kstack x]}.
Proof.
  intros K Ex Hx Hg Hk Ed Hp.
  destruct (schedule_exit_point s c n q cur x g1 g2 d t p pre post K Ex Hx Hg Ed Hp) as (m & f' & Dq & Dg & Rf & E).
  assert (Hne : cur <> n) by (intros ->; apply (co_off _ _ _ _ K); by left).
  destruct (co_queue _ _ _ _ K n) as (y & Ey & Hy); [by left|]. cbv zeta in E.
  set (s2 := with_sfs f' _) in E. set (s3 := with_threads (delete cur (threads s)) (with_stacks (stacks s ∖ {[kstack x]}) s2)).
  exists (with_regs c (context y) s3), y. split_and!; [| |exact Dg| |done| |exact Rf|done].
  - rewrite E, (M_bind_run _ _ _ (with_stacks (stacks s ∖ {[kstack x]}) s2) tt)
      by (unfold kfree_stack; by rewrite decide_True).
    rewrite (M_bind_run _ _ _ s3 tt) by (unfold kfree_thread; cbn; by rewrite Ex).
    unfold context_switch. rewrite (M_bind_run _ _ s3 s3 s3 eq_refl), (M_bind_run _ _ s3 s3 tt eq_refl).
    rewrite (M_bind_run _ _ s3 s3 y); [done|]. apply get_thread_run. cbn. by rewrite lookup_delete_ne.
  - assert (Hnq : n ∉ q).
    { destruct (co_list _ _ _ _ K) as [Hn _]. apply list.NoDup_cons in Hn as [_ Hn].
      cbn [fmap list_fmap] in Hn. apply list.NoDup_cons in Hn as [Hn _]. intros Hin. apply Hn. by apply list_elem_of_fmap_2. }
    split; cbn [snodes threads with_regs s3 with_threads with_stacks with_sfs s2 with_slock with_snodes].
    + change (lock_of _ c) with (lock_of s2 c). unfold lock_of. cbn. by rewrite lookup_insert_eq.
    + cbn. by rewrite lookup_insert_eq.
    + exact Dq.
    + done.
    + rewrite lookup_delete_ne by done. by eexists.
    + intros u Hu. rewrite lookup_delete_ne; [apply (co_queue _ _ _ _ K); by right|].
      intros ->. apply (co_off _ _ _ _ K). by right.
  - intros u. cbn. rewrite lookup_delete. repeat case_decide; congruence.
  - unfold regs_of. cbn. by rewrite lookup_insert_eq.
Qed.

(** Marking the running thread as exited. *)
Definition mark_exit (cur : Z) (x : thread) (s : sched) : sched :=
  with_threads (<[cur := with_state THREAD_EXIT x]> (threads s)) s.

Lemma thread_exit_mark s c q cur x : cpu_ok s c q cur -> threads s !! cur = Some x ->
  thread_exit c s = schedule c (mark_exit cur x s) /\ cpu_ok (mark_exit cur x s) c q cur /\
  (forall u, threads (mark_exit cur x s) !! u = if decide (u = cur) then Some (with_state THREAD_EXIT x) else threads s !! u).
Proof.
  intros K Ex. assert (Hu : forall u, threads (mark_exit cur x s) !! u =
      if decide (u = cur) then Some (with_state THREAD_EXIT x) else threads s !! u).
  { intros u. cbn. rewrite lookup_insert. repeat case_decide; congruence. }
  split_and!; [| |done].
  - unfold thread_exit. rewrite (M_bind_run _ _ _ _ _ (current_run _ _ _ (co_cur _ _ _ _ K))).
    by rewrite (M_bind_run _ _ _ _ _ (upd_thread_run cur x _ s Ex)).
  - split; [apply K|apply K|apply K|apply K| |].
    + rewrite Hu, decide_True by done. by eexists.
    + intros u Hin. rewrite Hu, decide_False; [by apply (co_queue _ _ _ _ K)|].
      intros ->. by apply (co_off _ _ _ _ K).
Qed.

Lemma thread_exit_run (s : sched) (c n : Z) (q : list Z) (cur : Z) (x : thread) g1 g2 d t p pre post :
  cpu_ok s c (n :: q) cur -> threads s !! cur = Some x ->
  dll (snodes s) ThreadGroup (TNode <$> g1 ++ cur :: g2) ->
  kstack x ∈ stacks s -> tdir x = Some d -> proc_dir (sfs s) d t p pre post ->
  exists s' y, thread_exit c s = Ret (tt, s') /\ cpu_ok s' c q n /\
    dll (snodes s') ThreadGroup (TNode <$> g1 ++ g2) /\
    (forall u, threads s' !! u = if decide (u = cur) then None else threads s !! u) /\
    threads s !! n = Some y /\ regs_of s' c = context y /\
    removed [t] (sfs s) (sfs s') /\ stacks s' = stacks s ∖ {[kstack x]}.
Proof.
  intros K Ex Hg Hk Ed Hp. destruct (thread_exit_mark s c _ cur x K Ex) as (Et & K1 & Hth).
  destruct (schedule_exits (mark_exit cur x s) c n q cur (with_state THREAD_EXIT x) g1 g2 d t p pre post K1)
    as (s' & y & E & K' & Hg' & Hth' & Ey & Er & Hr & Hst); try done.
  { by rewrite Hth, decide_True. }
  exists s', y. rewrite Et. split_and!; try done.
  - intros u. rewrite Hth'. case_decide; [done|]. by rewrite Hth, decide_False.
  - rewrite <- Ey, Hth, decide_False; [done|]. intros ->. apply (co_off _ _ _ _ K). by left.
Qed.

(** C16. [thread_exit] of a thread whose stack came from [kmalloc] (every
    thread but the idle ones), when another thread is waiting, never comes
    back to the thread: the first of the queue runs with its saved registers,
    and the thread has left the thread group, its directory tree in "/proc" is
    gone, its stack and its descriptor, and no other, have been freed, and it
    is on no list. *)
Theorem thread_exit_ok (s : sched) (c n : Z) (q : list Z) (cur : Z) (x : thread) g1 g2 d t p pre post :
  cpu_ok s c (n :: q) cur -> threads s !! cur = Some x ->
  dll (snodes s) ThreadGroup (TNode <$> g1 ++ cur :: g2) ->
  kstack x ∈ stacks s -> tdir x = Some d -> proc_dir (sfs s) d t p pre post ->
  exists s' y, thread_exit c s = Ret (tt, s') /\ cpu_ok s' c q n /\
    dll (snodes s') ThreadGroup (TNode <$> g1 ++ g2) /\
    (forall u, threads s' !! u = if decide (u = cur) then None else threads s !! u) /\
    threads s !! n = Some y /\ regs_of s' c = context y /\
    removed [t] (sfs s) (sfs s') /\ stacks s' = stacks s ∖ {[kstack x]}.
Proof. apply thread_exit_run. Qed.

(** For an idle thread the stack is the static [bootstack]: [schedule] hands
    [kfree] an address that is not from the heap. *)
Theorem thread_exit_static_stack (s : sched) (c n : Z) (q : list Z) (cur : Z) (x : thread) g1 g2 d t p pre post :
  cpu_ok s c (n :: q) cur -> threads s !! cur = Some x ->
  dll (snodes s) ThreadGroup (TNode <$> g1 ++ cur :: g2) ->
  kstack x ∉ stacks s -> tdir x = Some d -> proc_dir (sfs s) d t p pre post ->
  thread_exit c s = Fault.
Proof.
  intros K Ex Hg Hk Ed Hp. destruct (thread_exit_mark s c _ cur x K Ex) as (Et & K1 & Hth).
  destruct (schedule_exit_point (mark_exit cur x s) c n q cur (with_state THREAD_EXIT x) g1 g2 d t p pre post K1)
    as (m & f' & _ & _ & _ & E); try done.
  { by rewrite Hth, decide_True. }
  rewrite Et, E. unfold mbind, M_bind, kfree_stack. by rewrite decide_False.
Qed.

(** With an empty run queue, [thread_exit] returns to the thread that
    called it, which goes on running although it is marked as exited. *)
Theorem thread_exit_returns (s : sched) (c cur : Z) (x : thread) :
  cpu_ok s c [] cur -> threads s !! cur = Some x ->
  exists s', thread_exit c s = Ret (tt, s') /\ cpu_ok s' c [] cur /\
    threads s' !! cur = Some (with_state THREAD_EXIT x) /\ regs s' = regs s.
Proof.
  intros K Ex. destruct (thread_exit_mark s c _ cur x K Ex) as (Et & K1 & Hth).
  exists (mark_exit cur x s). split_and!; [|done| |done].
  - rewrite Et. by eapply schedule_empty.
  - by rewrite Hth, decide_True.
Qed.

(** [thread_wakeup] passes the arguments of [list_insert] in the wrong
    order: it hangs the head of the run queue behind the thread.  If the
    thread was the last of the queue when it was taken off, the head then
    points to itself: every thread waiting on this processor, and the one
    woken up, is lost. *)
Theorem thread_wakeup_empties_queue (s : sched) (c t : Z) (x : thread) (cur : Z) (q : list Z) :
  cpu_ok s c q cur -> threads s !! t = Some x -> t ∉ q ->
  next (nd (snodes s) (SchedNode t)) = Some (RqHead c) ->
  exists s', thread_wakeup c t s = Ret (tt, s') /\ list_empty (RqHead c) (snodes s') = true.
Proof.
  intros K Ex Ht Hn. unfold thread_wakeup. rewrite (M_bind_run _ _ _ _ _ (upd_thread_run t x _ s Ex)).
  set (s1 := with_threads _ s). unfold on_snodes, list_insert. change (snodes s1) with (snodes s).
  rewrite Hn. cbn [deref mbind outcome_bind]. eexists. split; [done|].
  unfold list_empty. apply bool_decide_eq_true. cbn [snodes with_snodes].
  rewrite next_set_next, decide_False, next_set_prev, next_set_next, decide_True, next_set_prev by done. done.
Qed.

(** ** Starting a thread *)

Definition the_cpu (c cpu : Z) : Z := if (cpu <? 0) || (MAX_CPU <=? cpu) then c else cpu.

Definition fresh_thread (s : sched) (stack fn arg : Z) : thread :=
  Thread (g_thread_id s) THREAD_RUNNABLE stack (new_frame stack fn arg (tf_eflags (tf junk_thread)))
    (new_context stack (context junk_thread)) (tdir junk_thread) (f_state junk_thread).

(** Up to the creation of the directory: the thread is on both lists. *)
Lemma thread_run_start s c fn arg cpu q cur g t stack :
  cpu_ok s (the_cpu c cpu) q cur -> is_Some (current_threads s !! c) ->
  dll (snodes s) ThreadGroup (TNode <$> g) -> (forall u, u ∈ g -> is_Some (threads s !! u)) ->
  new_thread (threads s) = Some t -> new_stack (stacks s) = Some stack ->
  exists s1, cpu_ok s1 (the_cpu c cpu) (t :: q) cur /\ dll (snodes s1) ThreadGroup (TNode <$> t :: g) /\
    threads s1 = <[t := fresh_thread s stack fn arg]> (threads s) /\ sfs s1 = sfs s /\
    g_thread_id s1 = u32 (g_thread_id s + 1) /\ stacks s1 = {[stack]} ∪ stacks s /\
    thread_run c fn arg cpu s =
      (ret ← create_thread_procfs t;
       if ret =? 0 then mret (Some t)
       else x ← get_thread t; _ ← kfree_stack (kstack x); _ ← kfree_thread t; mret None) s1.
Proof.
  intros K [cc Hc] Hg Hgl Ht Hst. set (cpu' := the_cpu c cpu) in *.
  pose proof (new_thread_fresh _ _ Ht) as Hfr.
  assert (Htq : t ∉ q) by (intros Hin; destruct (co_queue _ _ _ _ K t Hin) as (? & ? & _); congruence).
  assert (Htc : t <> cur) by (intros ->; destruct (co_live _ _ _ _ K); congruence).
  assert (Htg : t ∉ g) by (intros Hin; destruct (Hgl t Hin); congruence).
  destruct (list_insert_head_dll (snodes s) ThreadGroup (TNode <$> g) (TNode t) Hg) as (n1 & E1 & D1 & F1).
  { rewrite not_elem_of_cons. split; [done|]. by intros (u & [= <-] & Hu)%list_elem_of_fmap. }
  assert (Dq1 : dll n1 (RqHead cpu') (SchedNode <$> q)).
  { apply (dll_frame (snodes s)); [|apply K]. intros z Hz. apply F1. rewrite !not_elem_of_cons.
    apply elem_of_cons in Hz as [->|(u & -> & _)%list_elem_of_fmap]; (split_and!; [done|done|]); by intros (v & ? & _)%list_elem_of_fmap. }
  destruct (list_insert_head_dll n1 (RqHead cpu') (SchedNode <$> q) (SchedNode t) Dq1) as (n2 & E2 & D2 & F2).
  { rewrite not_elem_of_cons. split; [done|]. by intros (u & [= <-] & Hu)%list_elem_of_fmap. }
  set (sk := with_stacks ({[stack]} ∪ stacks s) (with_threads (<[t := junk_thread]> (threads s)) s)).
  set (s0 := with_next_id (u32 (g_thread_id s + 1)) (with_threads (<[t := fresh_thread s stack fn arg]> (threads s)) sk)).
  exists (with_slock cpu' 0 (with_snodes n2 (with_snodes n1 (with_slock cpu' 1 s0)))). split_and!; try done.
  - split; cbn [snodes threads current_threads with_slock with_snodes s0 sk with_next_id with_threads with_stacks].
    + by rewrite lock_of_slock, decide_True.
    + apply K.
    + exact D2.
    + intros [?|Hin]%elem_of_cons; [congruence|]. by apply (co_off _ _ _ _ K).
    + rewrite lookup_insert_ne by done. apply K.
    + intros u [->|Hu]%elem_of_cons.
      * eexists. by rewrite lookup_insert_eq.
      * rewrite lookup_insert_ne by (by intros ->). by apply (co_queue _ _ _ _ K).
  - cbn [snodes with_slock with_snodes]. apply (dll_frame n1); [|exact D1]. intros z Hz. apply F2.
    rewrite !not_elem_of_cons. apply elem_of_cons in Hz as [->|(u & -> & _)%list_elem_of_fmap];
      (split_and!; [done|done|]); by intros (v & ? & _)%list_elem_of_fmap.
  - unfold thread_run. fold (the_cpu c cpu). fold cpu'.
    rewrite (M_bind_run _ _ s (with_threads (<[t := junk_thread]> (threads s)) s) (Some t)) by (unfold kmalloc_thread; by rewrite Ht).
    rewrite (M_bind_run _ _ _ sk (Some stack)) by (unfold kmalloc_stack; cbn [stacks with_threads]; by rewrite Hst).
    rewrite (M_bind_run _ _ _ _ _ (current_run c cc sk Hc)), (M_bind_run _ _ sk sk sk eq_refl).
    rewrite (M_bind_run _ _ _ _ _ (upd_thread_run t junk_thread _ sk (lookup_insert_eq _ _ _))).
    rewrite (M_bind_run _ _ _ s0 tt).
    2: { unfold mmod, s0, sk, with_next_id, with_threads, with_stacks. cbn [threads stacks snodes current_threads
           sched_lock g_thread_id regs sfs]. by rewrite insert_insert_eq. } rewrite (M_bind_run _ _ _ _ _ (lock_sched_run cpu' s0 (co_lock _ _ _ _ K))).
    rewrite (M_bind_run _ _ _ _ _ (current_run cpu' cur (with_slock cpu' 1 s0) (co_cur _ _ _ _ K))).
    rewrite (M_bind_run _ _ _ _ _ (on_snodes_run _ n1 (with_slock cpu' 1 s0) E1)).
    by rewrite (M_bind_run _ _ _ _ _ (on_snodes_run _ n2 (with_snodes n1 (with_slock cpu' 1 s0)) E2)).
Qed.

(** When the directory of a new thread cannot be created (for want of
    memory), [thread_run] frees the thread and its stack and reports failure, but leaves
    it on the run queue and in the thread group: the first thread
    [schedule] will pick is freed memory. *)
Theorem thread_run_dangling (s : sched) (c fn arg cpu : Z) q cur g t stack :
  cpu_ok s (the_cpu c cpu) q cur -> is_Some (current_threads s !! c) ->
  dll (snodes s) ThreadGroup (TNode <$> g) -> (forall u, u ∈ g -> is_Some (threads s !! u)) ->
  new_thread (threads s) = Some t -> new_stack (stacks s) = Some stack ->
  is_Some (proc (sfs s)) -> new_dir (dirs (sfs s)) = None ->
  exists s', thread_run c fn arg cpu s = Ret (None, s') /\ threads s' !! t = None /\
    dll (snodes s') (RqHead (the_cpu c cpu)) (SchedNode <$> t :: q) /\
    dll (snodes s') ThreadGroup (TNode <$> t :: g).
Proof.
  intros K Hc Hg Hgl Ht Hst [p Hp] Hnd.
  destruct (thread_run_start s c fn arg cpu q cur g t stack K Hc Hg Hgl Ht Hst)
    as (s1 & K1 & Hg1 & Et & Ef & _ & Ek & E).
  exists (with_threads (delete t (threads s1)) (with_stacks (stacks s1 ∖ {[stack]}) s1)).
  split_and!; [|cbn; apply lookup_delete_eq|apply K1|done].
  assert (Etl : threads s1 !! t = Some (fresh_thread s stack fn arg)) by (by rewrite Et, lookup_insert_eq).
  assert (Ec : create_thread_procfs t s1 = Ret (- ENOMEM, s1)).
  { unfold create_thread_procfs. rewrite (M_bind_run _ _ _ _ _ (get_thread_run t _ s1 Etl)).
    destruct (tid_name _) as [name|]; [|done].
    assert (Hs : with_sfs (sfs s1) s1 = s1) by by destruct s1.
    rewrite (M_bind_run _ _ s1 s1 p).
    2: { unfold on_fs, global. rewrite (M_bind_run _ _ (sfs s1) (sfs s1) (sfs s1) eq_refl).
         rewrite Ef, Hp. cbn. by rewrite <- Ef, Hs. }
    rewrite (M_bind_run _ _ s1 s1 (- ENOMEM, None)); [done|].
    unfold on_fs, create_directory. rewrite Ef, Hnd. cbn. by rewrite <- Ef, Hs. }
  rewrite E, (M_bind_run _ _ _ _ _ Ec). change (- ENOMEM =? 0) with false. cbv iota.
  rewrite (M_bind_run _ _ _ _ _ (get_thread_run t _ s1 Etl)).
  rewrite (M_bind_run _ _ _ (with_stacks (stacks s1 ∖ {[stack]}) s1) tt).
  2: { unfold kfree_stack. rewrite decide_True; [done|]. rewrite Ek. set_solver. }
  rewrite (M_bind_run _ _ _ (with_threads (delete t (threads s1)) (with_stacks (stacks s1 ∖ {[stack]}) s1)) tt); [done|].
  unfold kfree_thread. cbn [threads with_stacks]. by rewrite Etl.
Qed.

(** Files and the lists they are in, as before. *)
Record files_kept (s s' : sched) : Prop := FilesKept {
  fk_globals : root (sfs s') = root (sfs s) /\ bin (sfs s') = bin (sfs s) /\ proc (sfs s') = proc (sfs s) /\ sys (sfs s') = sys (sfs s);
  fk_files : forall g x, files (sfs s) !! g = Some x -> files (sfs s') !! g = Some x;
  fk_dirs : forall e fl, dir_ok (sfs s) e fl -> dir_ok (sfs s') e fl
}.

Lemma thread_run_run (s : sched) (c fn arg cpu : Z) q cur g t stack name p ds d f :
  cpu_ok s (the_cpu c cpu) q cur -> is_Some (current_threads s !! c) ->
  dll (snodes s) ThreadGroup (TNode <$> g) -> (forall u, u ∈ g -> is_Some (threads s !! u)) ->
  new_thread (threads s) = Some t -> new_stack (stacks s) = Some stack ->
  tid_name (g_thread_id s) = Some name -> proc (sfs s) = Some p -> is_Some (dirs (sfs s) !! p) ->
  dll (fnodes (sfs s)) (DirList p) (DNode <$> ds) -> (forall x, x ∈ ds -> is_Some (dirs (sfs s) !! x)) ->
  new_dir (dirs (sfs s)) = Some d -> new_file (files (sfs s)) = Some f ->
  exists s', thread_run c fn arg cpu s = Ret (Some t, s') /\
    cpu_ok s' (the_cpu c cpu) (t :: q) cur /\ dll (snodes s') ThreadGroup (TNode <$> t :: g) /\
    threads s' !! t = Some (with_dir (Some d) (Some f) (fresh_thread s stack fn arg)) /\
    g_thread_id s' = u32 (g_thread_id s + 1) /\ stacks s' = {[stack]} ∪ stacks s /\
    dirs (sfs s') !! d = Some (Directory (decimal (s32 (g_thread_id s))) (Some p)) /\
    dir_ok (sfs s') d [f] /\ dll (fnodes (sfs s')) (DirList p) (DNode <$> d :: ds) /\
    files_kept s s'.
Proof.
  intros K Hc Hg Hgl Ht Hst Hname Hp Hpp Hpl Hds Hnd Hnf.
  destruct (thread_run_start s c fn arg cpu q cur g t stack K Hc Hg Hgl Ht Hst)
    as (s1 & K1 & Hg1 & Et & Ef & Eid & Ek & E).
  assert (name = decimal (s32 (g_thread_id s))) as ->.
  { unfold tid_name in Hname. destruct (string_room _); [|done]. by injection Hname as <-. }
  destruct (create_directory_run (sfs s) (decimal (s32 (g_thread_id s))) p ds d Hpp Hpl Hds Hnd)
    as (n & Ed & Kd & Hdd & Hpd & Hdn & Hdp & Fn1). set (f1 := with_fnodes n _) in *.
  destruct (create_file_run f1 d [] s_state 0 t f Kd Hnf) as (n2 & Ec & Kf & _ & Fn2). set (f2 := with_fnodes n2 _) in *.
  set (x := fresh_thread s stack fn arg). set (x1 := with_dir (Some d) (f_state x) x).
  assert (Etl : threads s1 !! t = Some x) by (by rewrite Et, lookup_insert_eq).
  set (s2 := with_threads (<[t := x1]> (threads s1)) (with_sfs f1 s1)).
  set (s3 := with_threads (<[t := with_dir (Some d) (Some f) x1]> (threads s2)) (with_sfs f2 s2)).
  exists s3. split_and!.
  - rewrite E. rewrite (M_bind_run _ _ s1 s3 0); [done|].
    unfold create_thread_procfs. rewrite (M_bind_run _ _ _ _ _ (get_thread_run t x s1 Etl)). cbn [tid x fresh_thread].
    rewrite Hname. assert (Hs : with_sfs (sfs s1) s1 = s1) by by destruct s1.
    rewrite (M_bind_run _ _ s1 s1 p).
    2: { unfold on_fs, global. rewrite (M_bind_run _ _ (sfs s1) (sfs s1) (sfs s1) eq_refl).
         rewrite Ef, Hp. cbn. by rewrite <- Ef, Hs. }
    rewrite (M_bind_run _ _ s1 (with_sfs f1 s1) (0, Some d)) by (unfold on_fs; by rewrite Ef, Ed).
    rewrite (M_bind_run _ _ _ _ _ (upd_thread_run t x _ (with_sfs f1 s1) Etl)).
    rewrite (M_bind_run _ _ s2 (with_sfs f2 s2) (0, Some f)) by (unfold on_fs; cbn [sfs s2 with_threads with_sfs]; by rewrite Ec).
    rewrite (M_bind_run _ _ _ _ _ (upd_thread_run t x1 _ (with_sfs f2 s2) (lookup_insert_eq _ _ _))). done.
  - split; [apply K1|apply K1|apply K1|apply K1| |].
    + cbn. rewrite !lookup_insert_ne by (intros ->; apply (co_off _ _ _ _ K1); by left). apply K1.
    + intros u Hu. cbn. rewrite !lookup_insert. destruct (decide (t = u)) as [<-|Hne]; [by eexists|].
      by apply (co_queue _ _ _ _ K1).
  - exact Hg1.
  - cbn. by rewrite lookup_insert_eq.
  - exact Eid.
  - exact Ek.
  - cbn. by rewrite lookup_insert_eq.
  - exact Kf.
  - cbn [sfs s3 with_threads with_sfs fnodes f2 with_fnodes]. apply (dll_frame n); [|done]. intros z Hz. apply Fn2. rewrite !not_elem_of_cons.
    apply elem_of_cons in Hz as [->|(u & -> & _)%list_elem_of_fmap]; (split_and!; [done|done|by intros ?%elem_of_nil]).
  - pose proof (new_dir_fresh _ _ Hnd) as Fd. pose proof (new_file_fresh _ _ Hnf) as Ff.
    assert (Hk : forall g y, files (sfs s) !! g = Some y -> files (sfs s3) !! g = Some y).
    { intros h y Hy. cbn. rewrite lookup_insert_ne; [done|]. intros <-. change (files f1) with (files (sfs s)) in Ff. congruence. }
    split; [done|done|]. intros e fl ([y Hy] & Hl & Hfl).
    assert (Hne : e <> d) by congruence. split_and!.
    + cbn. rewrite lookup_insert_ne by congruence. by eexists.
    + cbn [sfs s3 with_threads with_sfs fnodes f2 with_fnodes]. apply (dll_frame (fnodes (sfs s))); [|done].
      intros z Hz. rewrite Fn2.
      * apply Fn1. by apply elem_of_cons in Hz as [->|(u & -> & _)%list_elem_of_fmap].
      * rewrite !not_elem_of_cons. apply elem_of_cons in Hz as [->|(u & -> & Hu)%list_elem_of_fmap].
        -- split_and!; [done|congruence|by intros ?%elem_of_nil].
        -- split_and!; [|done|by intros ?%elem_of_nil]. intros [= ->]. destruct (Hfl f Hu) as [z Hz].
           change (files f1) with (files (sfs s)) in Ff. congruence.
    + intros h Hh. destruct (Hfl h Hh) as [z Hz]. exists z. by apply Hk.
Qed.

(** How a new thread starts: [context_switch] to it continues in [run_entry]
    on the frame at the top of its stack, which [run_entrys] pops;
    [thread_entry] then pushes [edx] and calls [ebx]. *)
Record starts_with (x : thread) (stack fn arg : Z) : Prop := StartsWith {
  sw_stack : kstack x = stack;
  sw_eip : eip (context x) = run_entry;
  sw_esp : esp (context x) = u32 (stack + 8192 - 68);
  sw_ebp : ebp (context x) = stack;
  sw_entry : tf_eip (tf x) = thread_entry;
  sw_fn : tf_ebx (tf x) = fn;
  sw_arg : tf_edx (tf x) = arg;
  sw_segs : tf_cs (tf x) = 8 /\ tf_ds (tf x) = 16 /\ tf_es (tf x) = 16 /\ tf_ss (tf x) = 16;
  sw_regs : tf_ebp (tf x) = stack /\ tf_eax (tf x) = 0 /\ tf_esp (tf x) = 0;
  sw_if : Z.testbit (tf_eflags (tf x)) 9 = true
}.

Lemma fresh_starts s stack fn arg d f : starts_with (with_dir d f (fresh_thread s stack fn arg)) stack fn arg.
Proof.
  split; try done. cbn [tf tf_eflags with_dir fresh_thread new_frame]. rewrite Z.lor_spec. apply orb_true_r.
Qed.

(** C17. [thread_run] with enough memory: the new thread is runnable at the
    front of the chosen processor's queue and of the thread group; it has the
    next thread number (below 2^31) and a new stack; its context resumes in
    [run_entry] with [esp] at the frame at the top of that stack, whose [eip]
    is [thread_entry], [ebx] the function, [edx] the argument, with kernel
    segments and interrupts enabled; and "/proc" has a directory with the
    decimal thread number as its name and a file in it. *)
Theorem thread_run_ok (s : sched) (c fn arg cpu : Z) q cur g t stack name p ds d f :
  cpu_ok s (the_cpu c cpu) q cur -> is_Some (current_threads s !! c) ->
  dll (snodes s) ThreadGroup (TNode <$> g) -> (forall u, u ∈ g -> is_Some (threads s !! u)) ->
  new_thread (threads s) = Some t -> new_stack (stacks s) = Some stack ->
  tid_name (g_thread_id s) = Some name -> 0 <= g_thread_id s < 2 ^ 31 -> proc (sfs s) = Some p -> is_Some (dirs (sfs s) !! p) ->
  dll (fnodes (sfs s)) (DirList p) (DNode <$> ds) -> (forall x, x ∈ ds -> is_Some (dirs (sfs s) !! x)) ->
  new_dir (dirs (sfs s)) = Some d -> new_file (files (sfs s)) = Some f ->
  exists s' x, thread_run c fn arg cpu s = Ret (Some t, s') /\
    cpu_ok s' (the_cpu c cpu) (t :: q) cur /\ dll (snodes s') ThreadGroup (TNode <$> t :: g) /\
    threads s' !! t = Some x /\ tid x = g_thread_id s /\ state x = THREAD_RUNNABLE /\ tdir x = Some d /\ f_state x = Some f /\
    starts_with x stack fn arg /\ stack ∉ stacks s /\ stacks s' = {[stack]} ∪ stacks s /\
    g_thread_id s' = g_thread_id s + 1 /\
    dirs (sfs s') !! d = Some (Directory (decimal (g_thread_id s)) (Some p)) /\
    dir_ok (sfs s') d [f] /\ dll (fnodes (sfs s')) (DirList p) (DNode <$> d :: ds).
Proof.
  intros K Hc Hg Hgl Ht Hst Hname Hid Hp Hpp Hpl Hds Hnd Hnf.
  destruct (thread_run_run s c fn arg cpu q cur g t stack name p ds d f K Hc Hg Hgl Ht Hst Hname Hp Hpp Hpl Hds Hnd Hnf)
    as (s' & H1 & H2 & H3 & H4 & H5 & H6 & H7 & H8 & H9 & _).
  exists s', (with_dir (Some d) (Some f) (fresh_thread s stack fn arg)). split_and!; try done.
  - apply fresh_starts.
  - by apply new_stack_fresh.
  - rewrite H5. apply wrap_small. unfold fits. lia.
  - by rewrite s32_signed in H7 by lia.
Qed.

(** The name is what the code of [ksalloc] and [ksappend_int] produces: on
    any heap, with a local array of 32 characters on the stack, they end with
    a string that holds exactly the text of [tid_name], or with NULL when
    [kmalloc] has nothing left. *)
Theorem tid_name_code `{KH : KHeap} (i : Z) (m : cmem) (buf : Z) (g : list Z) :
  0 <= i < 2 ^ 31 -> heap_ok m -> 0 < buf -> arr (bytes m) buf (g ++ [0]) -> length g = 32%nat -> byte_list g ->
  exists r m', int_string i buf m = Ret (r, m') /\
    match r with
    | Some (_, st) => exists l, ks_rep m' st l /\ (string_room i = true -> tid_name i = Some l)
    | None => kalloc m STRING_SIZE = None \/
        exists a m1, kmalloc_bytes STRING_SIZE m = Ret (a, m1) /\ kalloc m1 STRING_MIN_SIZE = None
    end.
Proof.
  intros Hi Hh Hb Ha Hg Hbl. destruct (int_string_run m i buf g Hh ltac:(lia) Hb Ha Hg Hbl) as (r & m' & E & Hr).
  exists r, m'. split; [done|]. destruct r as [[a st]|]; [|done]. exists (decimal i). split; [done|].
  intros Hs. unfold tid_name. by rewrite Hs, s32_signed by lia.
Qed.
End Schedule.

(** ** A processor with an idle thread and two others *)

#[local] Instance fsheap1 : FsHeap := {
  new_file m := Some (fresh (dom m));
  new_dir m := Some (fresh (dom m));
  new_file_fresh m a E := ltac:(injection E as <-; apply not_elem_of_dom, is_fresh);
  new_dir_fresh m a E := ltac:(injection E as <-; apply not_elem_of_dom, is_fresh)
}.

#[local] Instance schedheap1 : SchedHeap := {
  new_thread m := Some (fresh (dom m));
  new_stack m := Some (fresh m);
  string_room i := true;
  junk_thread := Thread 0 THREAD_INACTIVE 0 (Trapframe 0 0 0 0 0 0 0 0 0 0 0) (Context 0 0 0 0 0 0 0 0) None None;
  thread_entry := 0xC0100000;
  run_entry := 0xC0100100;
  bootstack := 0xC0008000;
  new_thread_fresh m a E := ltac:(injection E as <-; apply not_elem_of_dom, is_fresh);
  new_stack_fresh m a E := ltac:(injection E as <-; apply is_fresh)
}.

Definition sched_bss : sched := Sched ∅ ∅ ∅ ∅ ∅ 0 ∅ fs_bss.

(** Boot: the file system, the idle thread, and [n] threads started. *)
Fixpoint start_threads (n : nat) : M sched unit :=
  match n with O => mret tt | S n => _ ← thread_run 0 0xC0200000 (Z.of_nat n) 0; start_threads n end.
Definition boot (n : nat) : M sched unit :=
  _ ← on_fs fs_init; _ ← schedule_init 0; start_threads n.
Definition booted (n : nat) : sched := match boot n sched_bss with Ret (_, s) => s | _ => sched_bss end.

(** The threads, by their number. *)
Definition th (k : nat) : Z :=
  match k with
  | O => default 0 (current_threads (booted 2) !! 0)
  | S O => match prev (nd (snodes (booted 2)) (RqHead 0)) with Some (SchedNode t) => t | _ => 0 end
  | _ => match next (nd (snodes (booted 2)) (RqHead 0)) with Some (SchedNode t) => t | _ => 0 end
  end.

Lemma th_distinct : th 0 ∉ [th 2; th 1] /\ NoDup [RqHead 0; SchedNode (th 2); SchedNode (th 1)] /\
  NoDup [ThreadGroup; TNode (th 2); TNode (th 1); TNode (th 0)].
Proof. split_and!; apply (bool_decide_unpack _); by vm_compute. Qed.

Definition thread_at (s : sched) (t : Z) : thread := default junk_thread (threads s !! t).

Lemma thread_at_some s t : bool_decide (is_Some (threads s !! t)) = true -> threads s !! t = Some (thread_at s t).
Proof. intros [x E]%bool_decide_eq_true. unfold thread_at. by rewrite E. Qed.

Lemma booted2_ok : cpu_ok (booted 2) 0 [th 2; th 1] (th 0).
Proof.
  split.
  - by vm_compute.
  - by vm_compute.
  - split; [apply th_distinct|]. repeat split; by vm_compute.
  - apply th_distinct.
  - apply (bool_decide_unpack _). by vm_compute.
  - intros t Ht. exists (thread_at (booted 2) t).
    rewrite elem_of_cons, list_elem_of_singleton in Ht.
    destruct Ht as [->| ->]; (split; [apply thread_at_some|]); by vm_compute.
Qed.

Lemma th0_live : threads (booted 2) !! th 0 = Some (thread_at (booted 2) (th 0)).
Proof. apply thread_at_some. by vm_compute. Qed.

Lemma th0_running : state (thread_at (booted 2) (th 0)) <> THREAD_EXIT.
Proof. by vm_compute. Qed.

Lemma schedule_fair_witness :
  exists s', schedule_times 2 0 (booted 2) = Ret (tt, s') /\
    cpu_ok s' 0 (drop 2 [th 2; th 1] ++ th 0 :: take 1 [th 2; th 1]) (th 1).
Proof.
  exact (schedule_fair (booted 2) 0 (th 0) [th 2; th 1] _ 1 (th 1) booted2_ok th0_live th0_running eq_refl).
Defined.

Lemma schedule_ok_witness :
  exists s' y, schedule 0 (booted 2) = Ret (tt, s') /\ cpu_ok s' 0 [th 1; th 0] (th 2) /\
    threads (booted 2) !! th 2 = Some y /\
    threads s' !! th 0 = Some (with_context (regs_of (booted 2) 0)
                                (with_state THREAD_RUNNABLE (thread_at (booted 2) (th 0)))) /\
    threads s' !! th 2 = Some (with_state THREAD_RUNNING y) /\
    regs_of s' 0 = context y /\ sched_frame 0 [th 0; th 2; th 1] (booted 2) s'.
Proof. exact (schedule_ok (booted 2) 0 (th 2) [th 1] (th 0) _ booted2_ok th0_live th0_running). Defined.

Lemma group2 : dll (snodes (booted 2)) ThreadGroup (TNode <$> [th 2; th 1; th 0]).
Proof. split; [apply th_distinct|]. repeat split; by vm_compute. Qed.

(** The directory and the file of the idle thread. *)
Definition dir0 : Z := default 0 (tdir (thread_at (booted 2) (th 0))).
Definition file0 : Z := default 0 (f_state (thread_at (booted 2) (th 0))).
Definition proc2 : Z := default 0 (proc (sfs (booted 2))).
Definition dir2 : Z := default 0 (tdir (thread_at (booted 2) (th 2))).
Definition file2 : Z := default 0 (f_state (thread_at (booted 2) (th 2))).
Definition dir1 : Z := default 0 (tdir (thread_at (booted 2) (th 1))).

Lemma proc_dir0 : proc_dir (sfs (booted 2)) dir0 (DTree dir0 [file0] []) proc2 [dir2; dir1] [].
Proof.
  split_and!.
  - done.
  - split_and!.
    + apply (bool_decide_unpack _). by vm_compute.
    + intros f ->%list_elem_of_singleton. apply (bool_decide_unpack _). by vm_compute.
    + split; [apply (bool_decide_unpack _); by vm_compute|]. repeat split; by vm_compute.
    + split; [apply (bool_decide_unpack _); by vm_compute|]. repeat split; by vm_compute.
    + done.
  - split; apply (bool_decide_unpack _); by vm_compute.
  - apply (bool_decide_unpack _). by vm_compute.
  - apply Forall_forall, (bool_decide_unpack _). by vm_compute.
  - split; [apply (bool_decide_unpack _); by vm_compute|]. repeat split; by vm_compute.
Qed.

(** The idle thread cannot exit. *)
Lemma thread_exit_static_stack_witness : thread_exit 0 (booted 2) = Fault.
Proof.
  apply (thread_exit_static_stack (booted 2) 0 (th 2) [th 1] (th 0) (thread_at (booted 2) (th 0)) [th 2; th 1] [] dir0
    (DTree dir0 [file0] []) proc2 [dir2; dir1] [] booted2_ok th0_live group2).
  - apply (bool_decide_unpack _). by vm_compute.
  - by vm_compute.
  - exact proc_dir0.
Defined.

(** One switch later thread 2 runs, on a stack from the heap. *)
Definition switched : sched := match schedule 0 (booted 2) with Ret (_, s) => s | _ => booted 2 end.

Lemma switched_ok : cpu_ok switched 0 [th 1; th 0] (th 2).
Proof.
  destruct (schedule_switch (booted 2) 0 (th 2) [th 1] (th 0) _ booted2_ok th0_live th0_running) as (s' & y & E & K & _).
  unfold switched. by rewrite E.
Qed.

Lemma group_switched : dll (snodes switched) ThreadGroup (TNode <$> [th 2; th 1; th 0]).
Proof. split; [apply th_distinct|]. repeat split; by vm_compute. Qed.

Lemma proc_dir2 : proc_dir (sfs switched) dir2 (DTree dir2 [file2] []) proc2 [] [dir1; dir0].
Proof.
  split_and!.
  - done.
  - split_and!.
    + apply (bool_decide_unpack _). by vm_compute.
    + intros f ->%list_elem_of_singleton. apply (bool_decide_unpack _). by vm_compute.
    + split; [apply (bool_decide_unpack _); by vm_compute|]. repeat split; by vm_compute.
    + split; [apply (bool_decide_unpack _); by vm_compute|]. repeat split; by vm_compute.
    + done.
  - split; apply (bool_decide_unpack _); by vm_compute.
  - apply (bool_decide_unpack _). by vm_compute.
  - apply Forall_forall, (bool_decide_unpack _). by vm_compute.
  - split; [apply (bool_decide_unpack _); by vm_compute|]. repeat split; by vm_compute.
Qed.

Lemma th2_live : threads switched !! th 2 = Some (thread_at switched (th 2)).
Proof. apply thread_at_some. by vm_compute. Qed.

Lemma th2_stack : kstack (thread_at switched (th 2)) ∈ stacks switched.
Proof. apply (bool_decide_unpack _). by vm_compute. Qed.

Lemma th2_dir : tdir (thread_at switched (th 2)) = Some dir2.
Proof. by vm_compute. Qed.

Lemma thread_exit_ok_witness :
  exists s' y, thread_exit 0 switched = Ret (tt, s') /\ cpu_ok s' 0 [th 0] (th 1) /\
    dll (snodes s') ThreadGroup (TNode <$> [] ++ [th 1; th 0]) /\
    (forall u, threads s' !! u = if decide (u = th 2) then None else threads switched !! u) /\
    threads switched !! th 1 = Some y /\ regs_of s' 0 = context y /\
    removed [DTree dir2 [file2] []] (sfs switched) (sfs s') /\
    stacks s' = stacks switched ∖ {[kstack (thread_at switched (th 2))]}.
Proof.
  exact (thread_exit_ok switched 0 (th 1) [th 0] (th 2) (thread_at switched (th 2)) [] [th 1; th 0] dir2
    (DTree dir2 [file2] []) proc2 [] [dir1; dir0] switched_ok th2_live group_switched th2_stack th2_dir proc_dir2).
Defined.

(** The idle thread alone. *)
Definition idle : Z := default 0 (current_threads (booted 0) !! 0).

Lemma booted0_ok : cpu_ok (booted 0) 0 [] idle.
Proof.
  split.
  - by vm_compute.
  - by vm_compute.
  - split; [apply (bool_decide_unpack _); by vm_compute|]. repeat split; by vm_compute.
  - apply (bool_decide_unpack _). by vm_compute.
  - apply (bool_decide_unpack _). by vm_compute.
  - by intros t ?%elem_of_nil.
Qed.

Lemma thread_exit_returns_witness :
  exists s', thread_exit 0 (booted 0) = Ret (tt, s') /\ cpu_ok s' 0 [] idle /\
    threads s' !! idle = Some (with_state THREAD_EXIT (thread_at (booted 0) idle)) /\ regs s' = regs (booted 0).
Proof.
  apply (thread_exit_returns (booted 0) 0 idle (thread_at (booted 0) idle) booted0_ok).
  apply thread_at_some. by vm_compute.
Defined.

(** Thread 1 put to sleep: it was the last of the queue. *)
Definition asleep : sched := match thread_sleep (th 1) (booted 2) with Ret (_, s) => s | _ => booted 2 end.

Lemma asleep_ok : cpu_ok asleep 0 [th 2] (th 0).
Proof.
  split.
  - by vm_compute.
  - by vm_compute.
  - split; [apply (bool_decide_unpack _); by vm_compute|]. repeat split; by vm_compute.
  - apply (bool_decide_unpack _). by vm_compute.
  - apply (bool_decide_unpack _). by vm_compute.
  - intros t ->%list_elem_of_singleton. exists (thread_at asleep (th 2)). split; [apply thread_at_some|]; by vm_compute.
Qed.

Lemma thread_wakeup_empties_queue_witness :
  exists s', thread_wakeup 0 (th 1) asleep = Ret (tt, s') /\ list_empty (RqHead 0) (snodes s') = true.
Proof.
  apply (thread_wakeup_empties_queue asleep 0 (th 1) (thread_at asleep (th 1)) (th 0) [th 2] asleep_ok).
  - apply thread_at_some. by vm_compute.
  - apply (bool_decide_unpack _). by vm_compute.
  - by vm_compute.
Defined.

Lemma group0 : dll (snodes (booted 0)) ThreadGroup (TNode <$> [idle]).
Proof. split; [apply (bool_decide_unpack _); by vm_compute|]. repeat split; by vm_compute. Qed.

Lemma idle_live u : u ∈ [idle] -> is_Some (threads (booted 0) !! u).
Proof. intros ->%list_elem_of_singleton. apply (bool_decide_unpack _). by vm_compute. Qed.

Definition next_thread : Z := fresh (dom (threads (booted 0))).
Definition proc0 : Z := default 0 (proc (sfs (booted 0))).
Definition idle_dir : Z := default 0 (tdir (thread_at (booted 0) idle)).
Definition next_dir : Z := fresh (dom (dirs (sfs (booted 0)))).
Definition next_file : Z := fresh (dom (files (sfs (booted 0)))).

Lemma next_thread_new : new_thread (threads (booted 0)) = Some next_thread.
Proof. unfold next_thread. by generalize (threads (booted 0)). Qed.
Lemma next_dir_new : new_dir (dirs (sfs (booted 0))) = Some next_dir.
Proof. unfold next_dir. by generalize (dirs (sfs (booted 0))). Qed.
Lemma next_file_new : new_file (files (sfs (booted 0))) = Some next_file.
Proof. unfold next_file. by generalize (files (sfs (booted 0))). Qed.
Definition next_stack : Z := fresh (stacks (booted 0)).
Lemma next_stack_new : new_stack (stacks (booted 0)) = Some next_stack.
Proof. unfold next_stack. by generalize (stacks (booted 0)). Qed.
Lemma next_string_new : tid_name (g_thread_id (booted 0)) = Some (decimal (s32 (g_thread_id (booted 0)))).
Proof. by generalize (g_thread_id (booted 0)). Qed.

Lemma thread_run_ok_witness :
  exists s' x, thread_run 0 0xC0200000 7 (-1) (booted 0) = Ret (Some next_thread, s') /\
    threads s' !! next_thread = Some x /\ starts_with x next_stack 0xC0200000 7 /\ cpu_ok s' 0 [next_thread] idle /\
    dirs (sfs s') !! next_dir = Some (Directory (decimal (g_thread_id (booted 0))) (Some proc0)).
Proof.
  destruct (thread_run_ok (booted 0) 0 0xC0200000 7 (-1) [] idle [idle] next_thread next_stack
    (decimal (s32 (g_thread_id (booted 0)))) proc0 [idle_dir] next_dir next_file booted0_ok)
    as (s' & x & H1 & H2 & _ & H4 & _ & _ & _ & _ & H9 & _ & _ & _ & H13 & _).
  - apply (bool_decide_unpack _). by vm_compute.
  - exact group0.
  - exact idle_live.
  - exact next_thread_new.
  - exact next_stack_new.
  - exact next_string_new.
  - by vm_compute.
  - by vm_compute.
  - apply (bool_decide_unpack _). by vm_compute.
  - split; [apply (bool_decide_unpack _); by vm_compute|]. repeat split; by vm_compute.
  - intros x ->%list_elem_of_singleton. apply (bool_decide_unpack _). by vm_compute.
  - exact next_dir_new.
  - exact next_file_new.
  - exists s', x. exact (conj H1 (conj H4 (conj H9 (conj H2 H13)))).
Defined.

(** Memory for threads but not for directories. *)
Definition fsheap_full : FsHeap := {|
  new_file m := Some (fresh (dom m));
  new_dir m := None;
  new_file_fresh m a E := ltac:(injection E as <-; apply not_elem_of_dom, is_fresh);
  new_dir_fresh m a E := ltac:(discriminate E)
|}.

Lemma thread_run_dangling_witness :
  exists s', thread_run (FH := fsheap_full) 0 0xC0200000 7 0 (booted 0) = Ret (None, s') /\
    threads s' !! next_thread = None /\
    dll (snodes s') (RqHead 0) (SchedNode <$> [next_thread]) /\
    dll (snodes s') ThreadGroup (TNode <$> [next_thread; idle]).
Proof.
  apply (thread_run_dangling (FH := fsheap_full) (booted 0) 0 0xC0200000 7 0 [] idle [idle] next_thread next_stack booted0_ok).
  - apply (bool_decide_unpack _). by vm_compute.
  - exact group0.
  - exact idle_live.
  - exact next_thread_new.
  - exact next_stack_new.
  - apply (bool_decide_unpack _). by vm_compute.
  - reflexivity.
Defined.
