(* ===== verification/Timer.v ===== *)
(** * The clock and the timers (kernel/timer.c)

    Every processor counts the ticks of its timer, 100 in a second, and keeps
    the time of day since boot in hours, minutes, seconds and milliseconds.
    A list per processor holds the timers of sleeping threads.  The theorems
    show that the clock is right for the first 2^32 - 1 ticks, that
    comparing and adding times agree with arithmetic on milliseconds, and
    what the timer interrupt does, and does not do, for sleeping threads.

    [schedule] hands the processor to another thread: what [msleep] does
    after it happens when the thread is resumed, so [msleep] is two
    operations here, [msleep_enter] and [msleep_leave]. *)

From stdpp Require Import base numbers list gmap.
From Stdlib Require Import ZArith Lia.
From S2P Require Import Prelude Bitops ListNode Fs Schedule.

Open Scope Z_scope.

Definition TICK_NUM : Z := 100.

(** [struct time]; every field is a [uint32_t]. *)
Record time := Time { hours : Z; minutes : Z; seconds : Z; msecs : Z; ticks : Z }.

Definition zero_time : time := Time 0 0 0 0 0.

(** [struct timer] without its list node. *)
Record timer := Timer { expired : time; timer_thread : Z }.

Definition time_cmp (t1 t2 : time) : bool :=
  if hours t2 <? hours t1 then true
  else if hours t1 <? hours t2 then false
  else if minutes t2 <? minutes t1 then true
  else if minutes t1 <? minutes t2 then false
  else if u32 (u32 (seconds t2 * 1000) + msecs t2) <=? u32 (u32 (seconds t1 * 1000) + msecs t1) then true
  else false.

Definition time_add_ms (t : time) (ms : Z) : time :=
  let m := u32 (msecs t + ms) in
  let s := u32 (seconds t + m / 1000) in
  let m := m mod 1000 in
  let mi := u32 (minutes t + s / 60) in
  let s := s mod 60 in
  let h := u32 (hours t + mi / 60) in
  let mi := mi mod 60 in
  Time h mi s m (ticks t).

Definition time_add (t : time) (sec : Z) : time := time_add_ms t (s32 (sec * 1000)).

(** The statements of [timer_irq_handler] that advance the clock. *)
Definition tick (t : time) : time :=
  let n := u32 (ticks t + 1) in
  let t := Time (hours t) (minutes t) (seconds t) (n mod 100 * 10) n in
  if n mod TICK_NUM =? 0 then time_add t 1 else t.

(** The list nodes: the heads [timer_lists[cpu]] and the node of a timer. *)
Inductive tloc : Type :=
  | TimerHead (cpu : Z)
  | TimerNode (t : Z).

#[export] Instance tloc_eq_dec : EqDecision tloc.
Proof. solve_decision. Defined.
#[export] Instance tloc_countable : Countable tloc.
Proof.
  refine (inj_countable'
    (fun l => match l with TimerHead c => (0, c) | TimerNode t => (1, t) end)
    (fun p => if p.1 =? 0 then TimerHead p.2 else TimerNode p.2) _).
  by intros [].
Defined.

(** [kmalloc] of a timer, and what the memory around a list head reads as
    when it is taken for a timer. *)
Class TimerHeap := {
  new_timer : gmap Z timer -> option Z;
  stray_timer : Z -> timer;
  new_timer_fresh : forall m t, new_timer m = Some t -> m !! t = None
}.

Section Timers.
Context `{FH : FsHeap} `{SH : SchedHeap} `{TH : TimerHeap}.

Record tstate := TState {
  times : gmap Z time;
  timers : gmap Z timer;
  tnodes : gmap tloc (list_node tloc);
  tsched : sched
}.

Definition with_times (x : gmap Z time) (s : tstate) : tstate := TState x (timers s) (tnodes s) (tsched s).
Definition with_timers (x : gmap Z timer) (s : tstate) : tstate := TState (times s) x (tnodes s) (tsched s).
Definition with_tnodes (x : gmap tloc (list_node tloc)) (s : tstate) : tstate :=
  TState (times s) (timers s) x (tsched s).
Definition with_tsched (x : sched) (s : tstate) : tstate := TState (times s) (timers s) (tnodes s) x.

Definition on_sched {A} (m : M sched A) : M tstate A := zoom tsched with_tsched m.
Definition on_tnodes (f : gmap tloc (list_node tloc) -> outcome (gmap tloc (list_node tloc))) : M tstate unit :=
  fun s => match f (tnodes s) with
           | Ret n => Ret (tt, with_tnodes n s) | Bug => Bug | Fault => Fault | Spin => Spin
           end.

(** [times[cpu]], zero at first. *)
Definition time_of (s : tstate) (c : Z) : time := default zero_time (times s !! c).
Definition set_time (c : Z) (t : time) (s : tstate) : tstate := with_times (<[c := t]> (times s)) s.

(** [container_of(node, struct timer, node)], also when the node is the head. *)
Definition timer_at (p : tloc) : M tstate timer :=
  match p with
  | TimerHead c => mret (stray_timer c)
  | TimerNode k => s ← mget; mlift (deref (timers s !! k))
  end.

Definition time_now (c : Z) (s : tstate) : time := time_of s c.

(** The sum is computed in 32 bits and then converted to [uint64_t]. *)
Definition time_ms (c : Z) (s : tstate) : Z :=
  let t := time_of s c in
  u32 (u32 (u32 (u32 (u32 (u32 (hours t * 60) + minutes t) * 60) + seconds t) * 1000) + msecs t).

(** The loop over the timers of processor [c]. *)
Fixpoint wake_loop (fuel : nat) (c : Z) (node : option tloc) : M tstate unit :=
  match fuel with
  | O => fun _ => Spin
  | S fuel =>
      match node with
      | None => mret tt
      | Some p =>
          tm ← timer_at p;
          s ← mget;
          _ ← (if time_cmp (expired tm) (time_of s c) then on_sched (thread_wakeup c (timer_thread tm)) else mret tt);
          s ← mget;
          wake_loop fuel c (next (nd (tnodes s) p))
      end
  end.

(** [timer_irq_handler] on processor [c]. *)
Definition timer_irq_handler (fuel : nat) (c : Z) : M tstate unit :=
  _ ← mmod (fun s => set_time c (tick (time_of s c)) s);
  s ← mget;
  if ticks (time_of s c) =? 0 then
    _ ← wake_loop fuel c (list_next (TimerHead c) (tnodes s));
    on_sched (schedule c)
  else mret tt.

Definition timer_create (thread : Z) (time_expired : time) : M tstate (option Z) := fun s =>
  match new_timer (timers s) with
  | None => Ret (None, s)
  | Some t =>
      Ret (Some t, with_tnodes (list_init (TimerNode t) (tnodes s))
                     (with_timers (<[t := Timer time_expired thread]> (timers s)) s))
  end.

(** [msleep] up to the call of [schedule]; [k] is the address of the local
    variable [timer], whose list node nothing initialises. *)
Definition msleep_enter (c k ms : Z) : M tstate unit :=
  s ← mget;
  let e := time_add_ms (time_now c s) ms in
  t ← on_sched (current c);
  _ ← mmod (fun s => with_timers (<[k := Timer e t]> (timers s)) s);
  _ ← on_sched (upd_thread t (with_state THREAD_SLEEPING));
  _ ← on_tnodes (list_insert_before (TimerNode k) (TimerHead c));
  on_sched (schedule c).

(** The rest of it. *)
Definition msleep_leave (k : Z) : M tstate unit := on_tnodes (list_remove (TimerNode k)).

Definition sleep_enter (c k sec : Z) : M tstate unit := msleep_enter c k (s32 (sec * 1000)).

(** ** Arithmetic of times *)

(** The fields are in range. *)
Definition time_wf (t : time) : Prop :=
  0 <= hours t < 2 ^ 32 /\ 0 <= minutes t < 60 /\ 0 <= seconds t < 60 /\ 0 <= msecs t < 1000.

Definition total_ms (t : time) : Z := ((hours t * 60 + minutes t) * 60 + seconds t) * 1000 + msecs t.

(** Comparing times compares their milliseconds. *)
Theorem time_cmp_ok (t1 t2 : time) :
  time_wf t1 -> time_wf t2 -> time_cmp t1 t2 = true <-> total_ms t2 <= total_ms t1.
Proof.
  intros (A1 & A2 & A3 & A4) (B1 & B2 & B3 & B4). unfold time_cmp, total_ms.
  rewrite !(wrap_small 32 (_ * 1000)), !wrap_small by (unfold fits; lia).
  repeat case_if; split; intros; try done; lia.
Qed.

(** Adding milliseconds, which may be as many as an [int] holds. *)
Theorem time_add_ms_ok (t : time) (ms : Z) :
  time_wf t -> 0 <= ms < 2 ^ 31 -> hours t < 2 ^ 32 - 597 ->
  time_wf (time_add_ms t ms) /\ total_ms (time_add_ms t ms) = total_ms t + ms /\
  ticks (time_add_ms t ms) = ticks t.
Proof.
  intros (A1 & A2 & A3 & A4) Hm Hh. unfold time_add_ms, total_ms, time_wf; simpl.
  rewrite (wrap_small 32 (msecs t + ms)) by (unfold fits; lia).
  set (m := msecs t + ms).
  pose proof (Z.div_mod m 1000 ltac:(lia)) as D1. pose proof (Z.mod_pos_bound m 1000 ltac:(lia)) as R1.
  rewrite (wrap_small 32 (seconds t + m / 1000)) by (unfold fits; lia).
  set (s := seconds t + m / 1000).
  pose proof (Z.div_mod s 60 ltac:(lia)) as D2. pose proof (Z.mod_pos_bound s 60 ltac:(lia)) as R2.
  rewrite (wrap_small 32 (minutes t + s / 60)) by (unfold fits; lia).
  set (mi := minutes t + s / 60).
  pose proof (Z.div_mod mi 60 ltac:(lia)) as D3. pose proof (Z.mod_pos_bound mi 60 ltac:(lia)) as R3.
  rewrite (wrap_small 32 (hours t + mi / 60)) by (unfold fits; lia).
  lia.
Qed.

(** ** The clock *)

(** The time after [n] ticks. *)
Definition clock (n : Z) : time := Time (n / 360000) (n / 6000 mod 60) (n / 100 mod 60) (n mod 100 * 10) n.

Lemma clock_wf n : 0 <= n < 2 ^ 32 -> time_wf (clock n) /\ total_ms (clock n) = 10 * n.
Proof.
  intros Hn. unfold time_wf, total_ms, clock; simpl.
  pose proof (Z.div_mod n 100 ltac:(lia)). pose proof (Z.mod_pos_bound n 100 ltac:(lia)).
  assert (E1 : n / 6000 = n / 100 / 60) by (rewrite Z.div_div by lia; done).
  assert (E2 : n / 360000 = n / 6000 / 60) by (rewrite Z.div_div by lia; done).
  pose proof (Z.div_mod (n / 100) 60 ltac:(lia)). pose proof (Z.mod_pos_bound (n / 100) 60 ltac:(lia)).
  pose proof (Z.div_mod (n / 6000) 60 ltac:(lia)). pose proof (Z.mod_pos_bound (n / 6000) 60 ltac:(lia)).
  lia.
Qed.


Lemma tick_clock n : 0 <= n -> n + 1 < 2 ^ 32 -> tick (clock n) = clock (n + 1).
Proof.
  intros H0 H1. unfold tick, clock; simpl. rewrite wrap_small by (unfold fits; lia).
  destruct (Z.eq_dec ((n + 1) mod 100) 0) as [E|E].
  - unfold TICK_NUM. rewrite E. simpl. unfold time_add, time_add_ms; simpl.
    change (u32 (0 * 10 + s32 (1 * 1000))) with 1000. change (1000 / 1000) with 1. change (1000 mod 1000) with 0.
    rewrite (wrap_small 32 (n / 100 mod 60 + 1)) by (unfold fits; Z.div_mod_to_equations; lia).
    rewrite (wrap_small 32 (n / 6000 mod 60 + _)) by (unfold fits; Z.div_mod_to_equations; lia).
    rewrite (wrap_small 32 (n / 360000 + _)) by (unfold fits; Z.div_mod_to_equations; lia).
    f_equal; Z.div_mod_to_equations; lia.
  - rewrite (proj2 (Z.eqb_neq _ _)) by exact E. f_equal; Z.div_mod_to_equations; lia.
Qed.

(** [n] timer interrupts on processor [c]. *)
Fixpoint handle_ticks (n : nat) (fuel : nat) (c : Z) : M tstate unit :=
  match n with
  | O => mret tt
  | S n => _ ← handle_ticks n fuel c; timer_irq_handler fuel c
  end.

Lemma time_of_set c t s c' : time_of (set_time c t s) c' = if decide (c = c') then t else time_of s c'.
Proof. unfold time_of, set_time. simpl. rewrite lookup_insert. by case_decide. Qed.

Lemma handler_tick fuel c s :
  ticks (tick (time_of s c)) <> 0 ->
  timer_irq_handler fuel c s = Ret (tt, set_time c (tick (time_of s c)) s).
Proof.
  intros H. unfold timer_irq_handler. unfold mbind, M_bind, mmod, mget.
  rewrite time_of_set, decide_True by done.
  by rewrite (proj2 (Z.eqb_neq _ _)) by exact H.
Qed.

Lemma handle_ticks_run n fuel c s :
  Z.of_nat n < 2 ^ 32 -> time_of s c = zero_time ->
  exists t, handle_ticks n fuel c s = Ret (tt, with_times t s) /\
    time_of (with_times t s) c = clock (Z.of_nat n) /\
    (forall c', c' <> c -> time_of (with_times t s) c' = time_of s c').
Proof.
  intros Hn H0. induction n as [|n IH].
  - exists (times s). destruct s. split; [done|]. split; [exact H0|done].
  - destruct IH as (t & E & Ht & Ho); [lia|]. simpl handle_ticks. rewrite (M_bind_run _ _ _ _ _ E).
    assert (Hk : tick (clock (Z.of_nat n)) = clock (Z.of_nat (S n))).
    { rewrite tick_clock by lia. f_equal. lia. }
    rewrite handler_tick by (rewrite Ht, Hk; simpl; lia). rewrite Ht, Hk.
    exists (<[c := clock (Z.of_nat (S n))]> t). split; [done|].
    split; [unfold time_of; simpl; by rewrite lookup_insert_eq|].
    intros c' Hc. rewrite <-Ho by done. unfold time_of. simpl. by rewrite lookup_insert_ne by done.
Qed.

Lemma u32_mul_add x k b : u32 (u32 (u32 x * k) + b) = u32 (x * k + b).
Proof.
  unfold wrap. rewrite Zplus_mod_idemp_l, (Z.add_mod (_ * k)), Zmult_mod_idemp_l, <-Z.add_mod; lia.
Qed.

(** C35. The clock is right: after [n] timer interrupts, for any [n] below
    2^32, the time of the processor is [n] hundredths of a second in hours,
    minutes, seconds and milliseconds, all in range, and [time_ms] answers
    the milliseconds modulo 2^32 (it computes them in 32 bits, so it starts
    again from 0 after 49 days).  Until then no interrupt wakes a thread or
    calls [schedule]: nothing but the clock of this processor changes. *)
Theorem timer_clock (n fuel : nat) (c : Z) (s : tstate) :
  Z.of_nat n < 2 ^ 32 -> time_of s c = zero_time ->
  exists s', handle_ticks n fuel c s = Ret (tt, s') /\
    time_of s' c = clock (Z.of_nat n) /\ time_wf (time_of s' c) /\
    total_ms (time_of s' c) = 10 * Z.of_nat n /\
    time_ms c s' = (10 * Z.of_nat n) mod 2 ^ 32 /\
    tsched s' = tsched s /\ timers s' = timers s /\ tnodes s' = tnodes s /\
    (forall c', c' <> c -> time_of s' c' = time_of s c').
Proof.
  intros Hn H0. destruct (handle_ticks_run n fuel c s Hn H0) as (t & E & Ht & Ho).
  exists (with_times t s). destruct (clock_wf (Z.of_nat n)) as [Hw Htot]; [lia|].
  split; [done|]. split; [done|]. rewrite Ht. split; [done|]. split; [done|].
  split; [|done]. unfold time_ms. rewrite Ht, <-Htot.
  replace (u32 (u32 _ + minutes _)) with (u32 (hours (clock (Z.of_nat n)) * 60 + minutes (clock (Z.of_nat n))))
    by (unfold wrap; by rewrite Zplus_mod_idemp_l).
  by rewrite (u32_mul_add _ 60), (u32_mul_add _ 1000).
Qed.

(** ** The interrupt after 2^32 - 1 ticks *)

Lemma dll_closed h xs (m : gmap tloc (list_node tloc)) p :
  dll m h xs -> p ∈ h :: xs -> exists q, next (nd m p) = Some q /\ q ∈ h :: xs.
Proof.
  intros [_ Hc] Hp. apply list_elem_of_split in Hp as (l1 & l2 & E).
  assert (E' : h :: xs ++ [h] = l1 ++ p :: (l2 ++ [h])).
  { change (h :: xs ++ [h]) with ((h :: xs) ++ [h]). by rewrite E, <-app_assoc. }
  rewrite E' in Hc. apply chain_app in Hc as [_ Hc].
  destruct l2 as [|q l2]; simpl in Hc; destruct Hc as [[Hn _] _].
  - exists h. split; [done|]. left.
  - exists q. split; [done|]. rewrite E. apply elem_of_app. right. right. left.
Qed.

Lemma on_sched_nodes {A} (m : M sched A) s a s' :
  on_sched m s = Ret (a, s') -> tnodes s' = tnodes s.
Proof. unfold on_sched, zoom. destruct (m (tsched s)) as [[b t]| | |]; intros; run_inv; by subst. Qed.

Lemma wake_loop_never fuel c h xs p s r :
  dll (tnodes s) h xs -> p ∈ h :: xs -> wake_loop fuel c (Some p) s <> Ret r.
Proof.
  revert p s. induction fuel as [|fuel IH]; intros p s Hd Hp; [done|]. simpl wake_loop. intros E.
  destruct r as [[] s']. apply M_bind_ret in E as (tm & s1 & E1 & E).
  assert (H1 : s1 = s).
  { destruct p; simpl in E1; [unfold mret, M_ret in E1; run_inv; by subst|]. unfold mbind, M_bind, mget, mlift in E1.
    destruct (deref (timers s !! t)); run_inv; by subst. }
  subst s1. apply M_bind_ret in E as (s0 & s1 & E0 & E). unfold mget in E0. run_inv. subst s0 s1.
  apply M_bind_ret in E as ([] & s2 & E2 & E).
  assert (Hn : tnodes s2 = tnodes s) by (destruct (time_cmp _ _); [by eapply on_sched_nodes|by unfold mret, M_ret in E2; run_inv; subst]).
  apply M_bind_ret in E as (s0 & s1 & E0 & E). unfold mget in E0. run_inv. subst s0 s1.
  destruct (dll_closed _ _ _ _ Hd Hp) as (q & Hq & Hin). rewrite Hn, Hq in E.
  eapply (IH q s2); [by rewrite Hn|done|exact E].
Qed.

(** When the tick counter wraps around, the branch that looks for expired
    timers runs for the first time, and never ends: the list is circular,
    but the loop waits for a NULL pointer.  (It also takes the list head for
    a timer, and the test is the wrong way round: [time_cmp(expired, now)]
    holds for the timers that have not expired.) *)
Theorem timer_wrap_hangs (fuel : nat) (c : Z) (s : tstate) xs r :
  ticks (time_of s c) = 2 ^ 32 - 1 -> dll (tnodes s) (TimerHead c) xs ->
  timer_irq_handler fuel c s <> Ret r.
Proof.
  intros Ht Hd E. unfold timer_irq_handler in E. destruct r as [[] s'].
  apply M_bind_ret in E as ([] & s1 & E1 & E). unfold mmod in E1. run_inv. subst s1.
  apply M_bind_ret in E as (s0 & s1 & E0 & E). unfold mget in E0. run_inv. subst s0 s1.
  rewrite time_of_set, decide_True in E by done.
  assert (E0 : ticks (tick (time_of s c)) = 0).
  { unfold tick. rewrite Ht. reflexivity. }
  rewrite E0 in E. simpl in E. apply M_bind_ret in E as ([] & s1 & E1 & _).
  destruct (dll_closed _ _ _ (TimerHead c) Hd) as (q & Hq & Hin); [left|].
  unfold list_next in E1. rewrite Hq in E1. by eapply wake_loop_never in E1.
Qed.

(** [msleep] follows a pointer that nothing has set: the arguments of
    [list_insert_before] are exchanged, so the head of the timer list is
    inserted before the timer, through the [prev] pointer of a node on the
    stack.  Whatever node that pointer names gets its [next] overwritten. *)
Theorem msleep_wild (c k ms : Z) (s s' : tstate) :
  msleep_enter c k ms s = Ret (tt, s') ->
  exists p, prev (nd (tnodes s) (TimerNode k)) = Some p /\
    (p <> TimerHead c -> next (nd (tnodes s') p) = Some (TimerHead c)) /\
    prev (nd (tnodes s') (TimerHead c)) = Some p.
Proof.
  intros E. unfold msleep_enter in E.
  apply M_bind_ret in E as (s0 & s1 & E0 & E). unfold mget in E0. run_inv. subst s0 s1.
  apply M_bind_ret in E as (t & s1 & E1 & E). apply on_sched_nodes in E1.
  apply M_bind_ret in E as ([] & s2 & E2 & E). unfold mmod in E2. run_inv. subst s2.
  apply M_bind_ret in E as ([] & s3 & E3 & E). apply on_sched_nodes in E3. simpl in E3.
  apply M_bind_ret in E as ([] & s4 & E4 & E). apply on_sched_nodes in E. rewrite E.
  unfold on_tnodes, list_insert_before in E4. rewrite E3, E1 in E4.
  destruct (prev (nd (tnodes s) (TimerNode k))) as [p|] eqn:Ep; [|done]. simpl in E4. run_inv. subst s4. simpl.
  exists p. split; [done|].
  split; [intros Hp; rewrite !next_set_prev, next_set_next, decide_False, next_set_next, decide_True; congruence|].
  rewrite prev_set_prev, decide_False by done. rewrite prev_set_prev, decide_True by done.
  rewrite prev_set_next, prev_set_next. exact Ep.
Qed.
End Timers.

(** ** A concrete run *)

#[local] Existing Instance fsheap1.
#[local] Existing Instance schedheap1.
#[local] Instance timerheap0 : TimerHeap := {
  new_timer m := None;
  stray_timer _ := Timer zero_time 0;
  new_timer_fresh := ltac:(done)
}.

Definition tstate0 : tstate := TState ∅ ∅ ∅ sched_bss.

(** An hour, a minute, a second and 10 ms after boot. *)
Lemma timer_clock_witness :
  exists s', handle_ticks (Z.to_nat 366101) 0 0 tstate0 = Ret (tt, s') /\ time_of s' 0 = Time 1 1 1 10 366101.
Proof.
  destruct (timer_clock (Z.to_nat 366101) 0 0 tstate0) as (s' & E & Ht & _);
    [rewrite Z2Nat.id by lia; lia|reflexivity|].
  exists s'. split; [exact E|]. rewrite Ht, Z2Nat.id by lia. reflexivity.
Defined.
