(* ===== verification/Apic.v ===== *)
(** * The interrupt controllers (kernel/pic.c, kernel/ioapic.c, kernel/lapic.c)

    The drivers write sequences of values to device registers.  Each device
    is the part of its data sheet the driver relies on: the 8259A pair as the
    machine that takes four initialisation words and then mask words, the I/O
    APIC as an index register in front of a register file, the local APIC as
    a register file with a log of the writes and a delivery status that stays
    busy for some reads, the CMOS clock as registers that may change from one
    read to the next.  The theorems say in which state the drivers leave the
    devices. *)

From stdpp Require Import base numbers list gmap.
From Stdlib Require Import ZArith Lia.
From S2P Require Import Prelude Bitops Page PageTable.

Open Scope Z_scope.

Definition IRQ_OFFSET : Z := 32.
Definition IRQ_ERROR : Z := 19.
Definition IRQ_SPURIOUS : Z := 31.
Definition PIC_TIMER : Z := 0.
Definition PIC_KEYBD : Z := 1.
Definition PIC_SLAVE : Z := 2.
Definition IRQ_TIMER : Z := IRQ_OFFSET + PIC_TIMER.
Definition IRQ_KEYBD : Z := IRQ_OFFSET + PIC_KEYBD.

(** ** The 8259A pair *)

Module Pic.

(** A chip: its interrupt mask, the vector of its first line, its cascade
    word, its mode, and which initialisation word it expects next, if any. *)
Record chip := Chip { imr : Z; base : Z; cascade : Z; mode : Z; expects : option nat }.

(** A command with bit 4 set starts the initialisation (and clears the
    mask); a data word is the next initialisation word or the mask. *)
Definition chip_cmd (v : Z) (c : chip) : chip :=
  if Z.testbit v 4 then Chip 0 (base c) (cascade c) (mode c) (Some 2%nat) else c.
Definition chip_data (v : Z) (c : chip) : chip :=
  match expects c with
  | Some 2%nat => Chip (imr c) v (cascade c) (mode c) (Some 3%nat)
  | Some 3%nat => Chip (imr c) (base c) v (mode c) (Some 4%nat)
  | Some _ => Chip (imr c) (base c) (cascade c) v None
  | None => Chip v (base c) (cascade c) (mode c) None
  end.

Definition ICW1_ICW4 : Z := 0x01.
Definition ICW1_INIT : Z := 0x10.
Definition ICW4_8086 : Z := 0x01.
Definition ICW4_AUTO : Z := 0x02.
Definition IO_PIC1 : Z := 0x20.
Definition IO_PIC2 : Z := 0xA0.

Record pic := Pic { master : chip; slave : chip; pic_up : bool; irq_mask : Z }.

Definition with_master (c : chip) (s : pic) : pic := Pic c (slave s) (pic_up s) (irq_mask s).
Definition with_slave (c : chip) (s : pic) : pic := Pic (master s) c (pic_up s) (irq_mask s).
Definition with_up (b : bool) (s : pic) : pic := Pic (master s) (slave s) b (irq_mask s).
Definition with_mask (m : Z) (s : pic) : pic := Pic (master s) (slave s) (pic_up s) m.

(** [outb]: the two ports of each chip. *)
Definition pic_write (port v : Z) : M pic unit :=
  let v := u8 v in
  mmod (fun s =>
    if port =? IO_PIC1 then with_master (chip_cmd v (master s)) s
    else if port =? IO_PIC1 + 1 then with_master (chip_data v (master s)) s
    else if port =? IO_PIC2 then with_slave (chip_cmd v (slave s)) s
    else if port =? IO_PIC2 + 1 then with_slave (chip_data v (slave s)) s
    else s).

Definition pic_master_write_cmd (cmd : Z) : M pic unit := pic_write IO_PIC1 cmd.
Definition pic_master_write_data (data : Z) : M pic unit := pic_write (IO_PIC1 + 1) data.
Definition pic_slave_write_cmd (cmd : Z) : M pic unit := pic_write IO_PIC2 cmd.
Definition pic_slave_write_data (data : Z) : M pic unit := pic_write (IO_PIC2 + 1) data.

Definition pic_setmask (mask : Z) : M pic unit :=
  s ← mget;
  if negb (pic_up s) then mret tt
  else
    _ ← pic_master_write_data mask;
    pic_slave_write_data (Z.shiftr mask 8).

Definition pic_enable (irq : Z) : M pic unit :=
  _ ← mmod (fun s => with_mask (u16 (Z.land (irq_mask s) (Z.lnot (Z.shiftl 1 irq)))) s);
  s ← mget; pic_setmask (irq_mask s).

Definition pic_init (enable : bool) : M pic unit :=
  if negb enable then
    _ ← mmod (with_up false);
    _ ← pic_master_write_data 0xFF;
    pic_slave_write_data 0xFF
  else
    _ ← mmod (with_up true);
    _ ← pic_master_write_data 0xFF;
    _ ← pic_master_write_cmd (Z.lor ICW1_INIT ICW1_ICW4);
    _ ← pic_master_write_data IRQ_OFFSET;
    _ ← pic_master_write_data (Z.shiftl 1 PIC_SLAVE);
    _ ← pic_master_write_data (Z.lor ICW4_8086 ICW4_AUTO);
    _ ← pic_slave_write_data 0xFF;
    _ ← pic_slave_write_cmd (Z.lor ICW1_INIT ICW1_ICW4);
    _ ← pic_slave_write_data (IRQ_OFFSET + 8);
    _ ← pic_slave_write_data PIC_SLAVE;
    _ ← pic_slave_write_data (Z.lor ICW4_8086 ICW4_AUTO);
    s ← mget;
    if negb (irq_mask s =? 0xFFFF) then pic_setmask (irq_mask s) else mret tt.

(** The lines the pair lets through. *)
Definition pic_passes (s : pic) (irq : Z) : bool :=
  negb (Z.testbit (Z.lor (imr (master s)) (Z.shiftl (imr (slave s)) 8)) irq).

(** Both chips are past their initialisation. *)
Definition idle (s : pic) : Prop := expects (master s) = None /\ expects (slave s) = None.

Lemma split_mask m irq : 0 <= m < 2 ^ 16 -> 0 <= irq < 16 ->
  Z.testbit (Z.lor (u8 m) (Z.shiftl (u8 (Z.shiftr m 8)) 8)) irq = Z.testbit m irq.
Proof.
  intros Hm Hi. rewrite Z.lor_spec, Z.shiftl_spec by lia. unfold wrap.
  destruct (Z.ltb_spec irq 8).
  - rewrite Z.mod_pow2_bits_low by lia. rewrite (Z.testbit_neg_r _ (irq - 8)) by lia. apply orb_false_r.
  - rewrite Z.mod_pow2_bits_high by lia. rewrite Z.mod_pow2_bits_low by lia. rewrite Z.shiftr_spec by lia.
    rewrite orb_false_l. f_equal. lia.
Qed.

(** The driver keeps the device's mask equal to its own: initialised, the
    pair has the vectors 32 to 47, the cascade on line 2, automatic end of
    interrupt and lets through exactly the lines enabled in [irq_mask];
    switched off, it lets nothing through. *)
Theorem pic_init_ok (s : pic) (enable : bool) :
  idle s -> 0 <= irq_mask s < 0xFFFF ->
  exists s', pic_init enable s = Ret (tt, s') /\ idle s' /\ irq_mask s' = irq_mask s /\ pic_up s' = enable /\
    (forall irq, 0 <= irq < 16 -> pic_passes s' irq = enable && negb (Z.testbit (irq_mask s) irq)) /\
    (enable = true -> base (master s') = 32 /\ base (slave s') = 40 /\ cascade (master s') = 4 /\
       cascade (slave s') = 2 /\ mode (master s') = 3 /\ mode (slave s') = 3).
Proof.
  intros [Hm Hs] Hk. destruct s as [[i1 b1 c1 m1 e1] [i2 b2 c2 m2 e2] up mask]. simpl in *. subst e1 e2.
  destruct enable.
  - unfold pic_init, mbind, M_bind, mmod, mget. simpl. replace (mask =? 65535) with false by lia. simpl.
    eexists. split; [reflexivity|]. split_and!; try done.
    intros irq Hi. unfold pic_passes; simpl. rewrite split_mask by lia. done.
  - eexists. split; [reflexivity|]. split_and!; try done. intros irq Hi. unfold pic_passes; simpl.
    change (Z.lor _ _) with (Z.ones 16). by rewrite Z.ones_spec_low by lia.
Qed.

(** [pic_enable] lets its line through, and changes no other. *)
Theorem pic_enable_ok (s : pic) (irq : Z) :
  idle s -> pic_up s = true -> 0 <= irq_mask s < 2 ^ 16 -> 0 <= irq < 16 ->
  (forall i, 0 <= i < 16 -> pic_passes s i = negb (Z.testbit (irq_mask s) i)) ->
  exists s', pic_enable irq s = Ret (tt, s') /\ idle s' /\ 0 <= irq_mask s' < 2 ^ 16 /\
    forall i, 0 <= i < 16 -> pic_passes s' i = (i =? irq) || pic_passes s i.
Proof.
  intros [Hm Hs] Hup Hk Hi Hp. destruct s as [[i1 b1 c1 m1 e1] [i2 b2 c2 m2 e2] up mask]. simpl in *. subst e1 e2 up.
  unfold pic_enable, pic_setmask, mbind, M_bind, mmod, mget. simpl.
  set (k := u16 (Z.land mask (Z.lnot (Z.shiftl 1 irq)))).
  assert (Hk' : 0 <= k < 2 ^ 16) by (by apply (wrap_fits 16)).
  eexists. split; [reflexivity|]. split; [by split|]. split; [exact Hk'|].
  intros i Hi'. rewrite Hp by done. unfold pic_passes; simpl. rewrite split_mask by lia. unfold k, wrap.
  rewrite Z.mod_pow2_bits_low, Z.land_spec, Z.lnot_spec, Z.shiftl_spec by lia.
  destruct (Z.eqb_spec i irq) as [->|Hne].
  - rewrite Z.sub_diag. simpl. by rewrite andb_false_r.
  - destruct (Z.testbit 1 (i - irq)) eqn:E; [|by rewrite andb_true_r].
    destruct (decide (i - irq < 0)); [by rewrite Z.testbit_neg_r in E by lia|].
    rewrite Z.bits_above_log2 in E; [done|lia|simpl; lia].
Qed.

End Pic.

(** ** Memory-mapped controllers *)

(** The I/O APIC: the index register and the register file behind it.  The
    local APIC of this processor: [l_ptr] is the variable [lapic] (0 for
    NULL), [l_log] the writes to it, the last one first, [l_busy] how many
    reads will still find the delivery of an interrupt pending.  [warm]: the
    two words of the warm reset vector, [cmos] the port writes that set the
    shutdown code. *)
Record hw := Hw {
  hpt : ptm;
  io_sel : Z;
  io_regs : gmap Z Z;
  ioapic_id : Z;
  l_ptr : Z;
  l_regs : gmap Z Z;
  l_log : list (Z * Z);
  l_busy : nat;
  warm : Z * Z;
  cmos : list (Z * Z)
}.

Definition with_hpt (x : ptm) (s : hw) : hw :=
  Hw x (io_sel s) (io_regs s) (ioapic_id s) (l_ptr s) (l_regs s) (l_log s) (l_busy s) (warm s) (cmos s).
Definition with_io (i : Z) (r : gmap Z Z) (s : hw) : hw :=
  Hw (hpt s) i r (ioapic_id s) (l_ptr s) (l_regs s) (l_log s) (l_busy s) (warm s) (cmos s).
Definition with_lapic (r : gmap Z Z) (l : list (Z * Z)) (b : nat) (s : hw) : hw :=
  Hw (hpt s) (io_sel s) (io_regs s) (ioapic_id s) (l_ptr s) r l b (warm s) (cmos s).
Definition with_warm (w : Z * Z) (s : hw) : hw :=
  Hw (hpt s) (io_sel s) (io_regs s) (ioapic_id s) (l_ptr s) (l_regs s) (l_log s) (l_busy s) w (cmos s).
Definition with_cmos (l : list (Z * Z)) (s : hw) : hw :=
  Hw (hpt s) (io_sel s) (io_regs s) (ioapic_id s) (l_ptr s) (l_regs s) (l_log s) (l_busy s) (warm s) l.

(** The processor reaches the device at the physical address [a] through the
    virtual address [a] only if the tables in use map the page to itself. *)
Definition reaches (t : ptm) (a : Z) : bool :=
  match walk (words t) (frame_of (cr3 t)) (a / 4096) with
  | Some e => frame_of e =? a / 4096
  | None => false
  end.
Definition reach (a : Z) : M hw unit := fun s => if reaches (hpt s) a then Ret (tt, s) else Fault.

Lemma reach_run a s : reaches (hpt s) a = true -> reach a s = Ret (tt, s).
Proof. intros E. unfold reach. by rewrite E. Qed.

(** *** The I/O APIC *)

Definition IOAPIC : Z := 0xFEC00000.
Definition REG_ID : Z := 0x00.
Definition REG_VER : Z := 0x01.
Definition REG_TABLE : Z := 0x10.
Definition INT_DISABLED : Z := 0x00010000.

Definition io_reg (s : hw) (r : Z) : Z := default 0 (io_regs s !! r).

Definition ioapic_read (reg : Z) : M hw Z :=
  _ ← reach IOAPIC;
  _ ← mmod (fun s => with_io reg (io_regs s) s);
  s ← mget; mret (io_reg s (io_sel s)).

Definition ioapic_write (reg data : Z) : M hw unit :=
  _ ← reach IOAPIC;
  _ ← mmod (fun s => with_io reg (io_regs s) s);
  mmod (fun s => with_io (io_sel s) (<[io_sel s := u32 data]> (io_regs s)) s).

Fixpoint ioapic_mask_loop (n : nat) (i : Z) : M hw unit :=
  match n with
  | O => mret tt
  | S n =>
      _ ← ioapic_write (REG_TABLE + 2 * i) (Z.lor INT_DISABLED (IRQ_OFFSET + i));
      _ ← ioapic_write (REG_TABLE + 2 * i + 1) 0;
      ioapic_mask_loop n (i + 1)
  end.

(** [pgdir]: the kernel's page directory, which [kernel_map] edits.  The
    comparison of the identifiers only prints a message. *)
Definition ioapic_init (pgdir : Z) : M hw unit :=
  _ ← zoom hpt with_hpt (page_map pgdir IOAPIC IOAPIC PAGE_SIZE PTE_W);
  v ← ioapic_read REG_VER;
  let maxintr := Z.land (Z.shiftr v 16) 0xFF in
  _ ← ioapic_read REG_ID;
  ioapic_mask_loop (Z.to_nat (maxintr + 1)) 0.

Definition ioapic_enable (irq cpu : Z) : M hw unit :=
  _ ← ioapic_write (REG_TABLE + 2 * irq) (IRQ_OFFSET + irq);
  ioapic_write (REG_TABLE + 2 * irq + 1) (Z.shiftl cpu 24).

(** The redirection entry of pin [i]: the low and the high word. *)
Definition redirection (s : hw) (i : Z) : Z * Z := (io_reg s (REG_TABLE + 2 * i), io_reg s (REG_TABLE + 2 * i + 1)).
Definition masked (s : hw) (i : Z) : bool := Z.testbit (redirection s i).1 16.

(** Only registers of the I/O APIC change. *)
Definition io_only (s s' : hw) : Prop := exists i r, s' = with_io i r s.

Lemma io_only_refl s : io_only s s.
Proof. exists (io_sel s), (io_regs s). by destruct s. Qed.
Lemma io_only_trans s1 s2 s3 : io_only s1 s2 -> io_only s2 s3 -> io_only s1 s3.
Proof. intros (i & r & ->) (j & q & ->). by exists j, q. Qed.

Lemma ioapic_write_run reg data s :
  reaches (hpt s) IOAPIC = true ->
  ioapic_write reg data s = Ret (tt, with_io reg (<[reg := u32 data]> (io_regs s)) s).
Proof. intros R. unfold ioapic_write. by rewrite (M_bind_run _ _ _ _ _ (reach_run _ _ R)). Qed.

Lemma ioapic_read_run reg s :
  reaches (hpt s) IOAPIC = true -> ioapic_read reg s = Ret (io_reg s reg, with_io reg (io_regs s) s).
Proof. intros R. unfold ioapic_read. by rewrite (M_bind_run _ _ _ _ _ (reach_run _ _ R)). Qed.

Lemma io_reg_write i reg v s r : io_reg (with_io i (<[reg := v]> (io_regs s)) s) r = if decide (reg = r) then v else io_reg s r.
Proof. unfold io_reg; simpl. rewrite lookup_insert. by case_decide. Qed.

Lemma mask_loop_run n i s :
  reaches (hpt s) IOAPIC = true -> 0 <= i ->
  exists s', ioapic_mask_loop n i s = Ret (tt, s') /\ io_only s s' /\
    forall k, redirection s' k = if decide (i <= k < i + Z.of_nat n)
      then (u32 (Z.lor INT_DISABLED (IRQ_OFFSET + k)), 0) else redirection s k.
Proof.
  revert i s. induction n as [|n IH]; intros i s R Hi.
  - exists s. split; [done|]. split; [apply io_only_refl|]. intros k. by rewrite decide_False by lia.
  - cbn [ioapic_mask_loop]. rewrite (M_bind_run _ _ _ _ _ (ioapic_write_run _ _ _ R)).
    set (s1 := with_io _ _ s). rewrite (M_bind_run _ _ _ _ _ (ioapic_write_run _ _ s1 R)).
    set (s2 := with_io _ _ s1).
    destruct (IH (i + 1) s2 R ltac:(lia)) as (s' & E & Ho & Hk). exists s'. split; [exact E|].
    split; [eapply io_only_trans; [|exact Ho]; by eexists _, _|].
    intros k. rewrite Hk. unfold redirection, s2, s1. rewrite !io_reg_write.
    repeat case_decide; try lia; try done. by assert (k = i) as -> by lia.
Qed.

Lemma masked_entry k : 0 <= k < 256 ->
  Z.testbit (u32 (Z.lor INT_DISABLED (IRQ_OFFSET + k))) 16 = true.
Proof.
  intros Hk. unfold wrap. rewrite Z.mod_pow2_bits_low, Z.lor_spec by lia. done.
Qed.

(** The frame the page of a device translates to once it is mapped. *)
Lemma device_frame a : 0 <= a < 2 ^ 20 -> frame_of (Z.lor (Z.lor (u32 (4096 * (a + (a - a)))) PTE_W) PTE_P) = a.
Proof.
  intros Ha. replace (a + (a - a)) with a by lia. rewrite wrap_small by (unfold fits; lia).
  rewrite <-Z.lor_assoc. change (Z.lor PTE_W PTE_P) with 3. rewrite lor_flags by lia.
  unfold frame_of. Z.div_mod_to_equations. lia.
Qed.

(** Mapping the page of a device makes it reachable. *)
Lemma map_device (t : ptm) d a F :
  pt_ok t d F -> cr3 t = 4096 * d -> fits 32 a -> a mod 4096 = 0 -> editable t d a PAGE_SIZE F ->
  exists t' F', page_map (page_to_virt d) a a PAGE_SIZE PTE_W t = Ret (tt, t') /\ pt_ok t' d F' /\
    reaches t' a = true /\ cr3 t' = cr3 t /\
    (forall u, outside_vpt u -> u <> a / 4096 -> walk (words t') d u = walk (words t) d u) /\
    Z.of_nat (size F) <= Z.of_nat (size F') + 1.
Proof.
  intros K Hc Ha Hal He.
  destruct (page_map_run t d a a PAGE_SIZE PTE_W F K Ha Ha ltac:(change PAGE_SIZE with 4096; lia) He) as (t' & F' & E & [Ko _ Hs Hw [Hr _] _ _]).
  change (npages PAGE_SIZE) with 1 in *.
  exists t', F'. split; [exact E|]. split; [exact Ko|]. split; [|split; [exact Hr|split; [|exact Hs]]].
  - unfold reaches. rewrite Hr, Hc. unfold frame_of at 1. rewrite Z.mul_comm, Z.div_mul by lia.
    assert (Ho : outside_vpt (a / 4096)) by (apply (proj1 He); change (npages PAGE_SIZE) with 1; lia).
    rewrite Hw, decide_True by (done || lia). rewrite device_frame; [lia|]. apply Ho.
  - intros u Hu Hne. rewrite Hw, decide_False by (done || lia). done.
Qed.

Definition maxintr (s : hw) : Z := Z.land (Z.shiftr (io_reg s REG_VER) 16) 0xFF.

(** The device's registers, and the tables in use, are all that changes. *)
Lemma ioapic_init_run (s : hw) (d : Z) (F : gset Z) :
  pt_ok (hpt s) d F -> cr3 (hpt s) = 4096 * d -> editable (hpt s) d IOAPIC PAGE_SIZE F ->
  exists t i r F', let s' := with_io i r (with_hpt t s) in
    ioapic_init (page_to_virt d) s = Ret (tt, s') /\ pt_ok t d F' /\ cr3 t = cr3 (hpt s) /\ reaches t IOAPIC = true /\
    (forall i, 0 <= i <= maxintr s -> masked s' i = true /\ redirection s' i = (Z.lor INT_DISABLED (IRQ_OFFSET + i), 0)) /\
    (forall i, maxintr s < i -> redirection s' i = redirection s i) /\
    (forall u, outside_vpt u -> u <> IOAPIC / 4096 -> walk (words t) d u = walk (words (hpt s)) d u).
Proof.
  intros K Hc He. destruct (map_device (hpt s) d IOAPIC F K Hc ltac:(done) ltac:(done) He) as (t' & F' & E & K' & R & Hc' & Hw & _).
  assert (Hm : 0 <= maxintr s < 256).
  { unfold maxintr. change 0xFF with (Z.ones 8). rewrite Z.land_ones by lia. by apply Z.mod_pos_bound. }
  unfold ioapic_init. rewrite (M_bind_run _ _ _ _ _ (zoom_run hpt with_hpt _ _ _ _ E)).
  set (s1 := with_hpt t' s).
  rewrite (M_bind_run _ _ _ _ _ (ioapic_read_run REG_VER s1 R)).
  rewrite (M_bind_run _ _ _ _ _ (ioapic_read_run REG_ID (with_io REG_VER (io_regs s1) s1) R)).
  change (io_reg s1 REG_VER) with (io_reg s REG_VER).
  fold (maxintr s). set (s2 := with_io REG_ID _ _).
  destruct (mask_loop_run (Z.to_nat (maxintr s + 1)) 0 s2 R ltac:(lia)) as (s' & E' & (i & r & ->) & Hk).
  exists t', i, r, F'. cbv zeta. split; [exact E'|]. split; [exact K'|]. split; [exact Hc'|]. split; [exact R|]. split; [|split; [|exact Hw]].
  - intros k Hk'. unfold masked. rewrite Hk, decide_True by lia. simpl fst. split; [apply masked_entry; lia|].
    rewrite wrap_small; [done|]. pose proof (Z.add_lor_land INT_DISABLED (IRQ_OFFSET + k)).
    assert (0 <= Z.land INT_DISABLED (IRQ_OFFSET + k)) by (apply Z.land_nonneg; left; done).
    assert (0 <= Z.lor INT_DISABLED (IRQ_OFFSET + k)) by (apply Z.lor_nonneg; unfold IRQ_OFFSET; split; [done|lia]).
    unfold fits, INT_DISABLED, IRQ_OFFSET in *. lia.
  - intros k Hk'. rewrite Hk, decide_False by lia. done.
Qed.

(** [ioapic_init] makes the I/O APIC reachable and silent: it maps the
    page of the device, and afterwards every pin the device has is masked,
    with the vector 32 + pin and no destination; nothing else of the
    device's table or of the address space changes. *)
Theorem ioapic_init_ok (s : hw) (d : Z) (F : gset Z) :
  pt_ok (hpt s) d F -> cr3 (hpt s) = 4096 * d -> editable (hpt s) d IOAPIC PAGE_SIZE F ->
  exists s' F', ioapic_init (page_to_virt d) s = Ret (tt, s') /\ pt_ok (hpt s') d F' /\
    reaches (hpt s') IOAPIC = true /\
    (forall i, 0 <= i <= maxintr s -> masked s' i = true /\ redirection s' i = (Z.lor INT_DISABLED (IRQ_OFFSET + i), 0)) /\
    (forall i, maxintr s < i -> redirection s' i = redirection s i) /\
    (forall u, outside_vpt u -> u <> IOAPIC / 4096 -> walk (words (hpt s')) d u = walk (words (hpt s)) d u).
Proof.
  intros K Hc He. destruct (ioapic_init_run s d F K Hc He) as (t & i & r & F' & E & Ko & _ & R & H1 & H2 & H3).
  eexists _, F'. split; [exact E|]. done.
Qed.

(** [ioapic_enable] routes one pin to a processor and leaves the others
    alone: its argument is the number of the pin. *)
Theorem ioapic_enable_ok (s : hw) (irq cpu : Z) :
  reaches (hpt s) IOAPIC = true -> 0 <= irq < 120 -> 0 <= cpu < 256 ->
  exists s', ioapic_enable irq cpu s = Ret (tt, s') /\ redirection s' irq = (IRQ_OFFSET + irq, Z.shiftl cpu 24) /\
    (forall i, i <> irq -> redirection s' i = redirection s i) /\ hpt s' = hpt s.
Proof.
  intros R Hi Hc. unfold ioapic_enable. rewrite (M_bind_run _ _ _ _ _ (ioapic_write_run _ _ _ R)).
  rewrite ioapic_write_run by exact R. eexists. split; [reflexivity|].
  assert (E1 : u32 (IRQ_OFFSET + irq) = IRQ_OFFSET + irq) by (apply wrap_small; unfold fits, IRQ_OFFSET; lia).
  assert (E2 : u32 (Z.shiftl cpu 24) = Z.shiftl cpu 24) by (apply wrap_small; unfold fits; rewrite Z.shiftl_mul_pow2; lia).
  split; [|split; [|done]].
  - unfold redirection. rewrite !io_reg_write. repeat case_decide; try lia. by rewrite E1, E2.
  - intros i Hne. unfold redirection. rewrite !io_reg_write. repeat case_decide; try lia. done.
Qed.

(** [keyboard_init] passes the interrupt vector [IRQ_KEYBD] (33) where the
    pin is expected: after [ioapic_init] on a device with fewer than 34
    pins, the pin of the keyboard, and every other, is still masked. *)
Theorem keyboard_stays_masked (s s' : hw) (cpu i : Z) :
  reaches (hpt s) IOAPIC = true -> 0 <= cpu < 256 -> 0 <= i < IRQ_KEYBD -> masked s i = true ->
  ioapic_enable IRQ_KEYBD cpu s = Ret (tt, s') -> masked s' i = true.
Proof.
  intros R Hc Hi Hm E. destruct (ioapic_enable_ok s IRQ_KEYBD cpu R ltac:(done) Hc) as (s1 & E1 & _ & Ho & _).
  rewrite E1 in E. run_inv. subst s1. unfold masked. rewrite Ho; [exact Hm|lia].
Qed.

(** *** The local APIC *)

Definition ID : Z := 0x0020.
Definition VER : Z := 0x0030.
Definition TPR : Z := 0x0080.
Definition EOI : Z := 0x00B0.
Definition SVR : Z := 0x00F0.
Definition ENABLE : Z := 0x00000100.
Definition ESR : Z := 0x0280.
Definition ICRLO : Z := 0x0300.
Definition INIT : Z := 0x00000500.
Definition STARTUP : Z := 0x00000600.
Definition DELIVS : Z := 0x00001000.
Definition ASSERT : Z := 0x00004000.
Definition LEVEL : Z := 0x00008000.
Definition BCAST : Z := 0x00080000.
Definition ICRHI : Z := 0x0310.
Definition TIMER : Z := 0x0320.
Definition X1 : Z := 0x0000000B.
Definition PERIODIC : Z := 0x00020000.
Definition PCINT : Z := 0x0340.
Definition LINT0 : Z := 0x0350.
Definition LINT1 : Z := 0x0360.
Definition ERROR : Z := 0x0370.
Definition MASKED : Z := 0x00010000.
Definition TICR : Z := 0x0380.
Definition TDCR : Z := 0x03E0.
Definition CMOS_PORT : Z := 0x70.

Section Lapic.
(** How many reads of the command register find the last command pending. *)
Context (delay : nat).

Definition l_reg (s : hw) (r : Z) : Z := default 0 (l_regs s !! r).

Definition lapic_read (reg : Z) : M hw Z :=
  s ← mget;
  _ ← reach (u32 (l_ptr s + reg));
  match l_busy s with
  | S n => if reg =? ICRLO
           then _ ← mmod (with_lapic (l_regs s) (l_log s) n); mret (Z.lor (l_reg s reg) DELIVS)
           else mret (l_reg s reg)
  | O => mret (l_reg s reg)
  end.

Definition lapic_write (reg value : Z) : M hw unit :=
  s ← mget;
  _ ← reach (u32 (l_ptr s + reg));
  _ ← mmod (with_lapic (<[reg := value]> (l_regs s)) ((reg, value) :: l_log s)
              (if reg =? ICRLO then delay else l_busy s));
  _ ← lapic_read ID;
  mret tt.

Fixpoint wait_delivery (fuel : nat) : M hw unit :=
  match fuel with
  | O => fun _ => Spin
  | S fuel =>
      v ← lapic_read ICRLO;
      if negb (Z.land v DELIVS =? 0) then wait_delivery fuel else mret tt
  end.

Definition lapic_init : M hw unit :=
  s ← mget;
  if l_ptr s =? 0 then mret tt
  else
    _ ← lapic_write SVR (Z.lor ENABLE (IRQ_OFFSET + IRQ_SPURIOUS));
    _ ← lapic_write TDCR X1;
    _ ← lapic_write TIMER (Z.lor PERIODIC IRQ_TIMER);
    _ ← lapic_write TICR 10000000;
    _ ← lapic_write LINT0 MASKED;
    _ ← lapic_write LINT1 MASKED;
    v ← lapic_read VER;
    _ ← (if 4 <=? Z.land (Z.shiftr v 16) 0xFF then lapic_write PCINT MASKED else mret tt);
    _ ← lapic_write ERROR (IRQ_OFFSET + IRQ_ERROR);
    _ ← lapic_write ESR 0;
    _ ← lapic_write ESR 0;
    _ ← lapic_write EOI 0;
    _ ← lapic_write ICRHI 0;
    _ ← lapic_write ICRLO (Z.lor (Z.lor BCAST INIT) LEVEL);
    _ ← wait_delivery (S delay);
    lapic_write TPR 0.

Definition lapic_id : M hw Z :=
  s ← mget;
  if l_ptr s =? 0 then mret 0 else v ← lapic_read ID; mret (Z.shiftr v 24).

Definition lapic_eoi : M hw unit :=
  s ← mget; if l_ptr s =? 0 then mret tt else lapic_write EOI 0.

Fixpoint startup_loop (n : nat) (apic_id addr : Z) : M hw unit :=
  match n with
  | O => mret tt
  | S n =>
      _ ← lapic_write ICRHI (u32 (Z.shiftl apic_id 24));
      _ ← lapic_write ICRLO (Z.lor STARTUP (Z.shiftr addr 12));
      startup_loop n apic_id addr
  end.

Definition lapic_startap (apic_id addr : Z) : M hw unit :=
  _ ← mmod (fun s => with_cmos ((CMOS_PORT, 0xF) :: cmos s) s);
  _ ← mmod (fun s => with_cmos ((CMOS_PORT + 1, 0x0A) :: cmos s) s);
  _ ← mmod (fun s => with_warm (0, u16 (Z.shiftr addr 4)) s);
  _ ← lapic_write ICRHI (u32 (Z.shiftl apic_id 24));
  _ ← lapic_write ICRLO (Z.lor (Z.lor INIT LEVEL) ASSERT);
  _ ← lapic_write ICRLO (Z.lor INIT LEVEL);
  startup_loop 2 apic_id addr.

(** The device can be reached at every register. *)
Definition lapic_up (s : hw) : Prop :=
  0 < l_ptr s < 2 ^ 32 - 4096 /\ l_ptr s mod 4096 = 0 /\ reaches (hpt s) (l_ptr s) = true.

Lemma lapic_reach s reg : lapic_up s -> 0 <= reg < 4096 -> reach (u32 (l_ptr s + reg)) s = Ret (tt, s).
Proof.
  intros (Hp & Ha & R) Hr. apply reach_run. rewrite wrap_small by (unfold fits; lia).
  unfold reaches in *. replace ((l_ptr s + reg) / 4096) with (l_ptr s / 4096); [exact R|].
  Z.div_mod_to_equations. lia.
Qed.

Definition wrote (reg value : Z) (s : hw) : hw :=
  with_lapic (<[reg := value]> (l_regs s)) ((reg, value) :: l_log s) (if reg =? ICRLO then delay else l_busy s) s.

Lemma lapic_read_other reg s : lapic_up s -> 0 <= reg < 4096 -> reg <> ICRLO -> lapic_read reg s = Ret (l_reg s reg, s).
Proof.
  intros U Hr Hne. unfold lapic_read. rewrite (M_bind_run _ _ s s s) by done.
  rewrite (M_bind_run _ _ _ _ _ (lapic_reach _ _ U Hr)). rewrite (proj2 (Z.eqb_neq _ _)) by exact Hne. by destruct (l_busy s).
Qed.

Lemma lapic_write_run reg v s : lapic_up s -> 0 <= reg < 4096 -> lapic_write reg v s = Ret (tt, wrote reg v s).
Proof.
  intros U Hr. unfold lapic_write. rewrite (M_bind_run _ _ s s s) by done.
  rewrite (M_bind_run _ _ _ _ _ (lapic_reach _ _ U Hr)).
  rewrite (M_bind_run _ _ s (wrote reg v s) tt) by done.
  by rewrite (M_bind_run _ _ _ _ _ (lapic_read_other ID (wrote reg v s) U ltac:(done) ltac:(done))).
Qed.

Lemma lapic_read_icr s : lapic_up s -> lapic_read ICRLO s =
  match l_busy s with
  | S n => Ret (Z.lor (l_reg s ICRLO) DELIVS, with_lapic (l_regs s) (l_log s) n s)
  | O => Ret (l_reg s ICRLO, s)
  end.
Proof.
  intros U. unfold lapic_read. rewrite (M_bind_run _ _ s s s) by done.
  rewrite (M_bind_run _ _ _ _ _ (lapic_reach s ICRLO U ltac:(done))). by destruct (l_busy s).
Qed.

Lemma wait_delivery_S fuel : wait_delivery (S fuel) =
  (v ← lapic_read ICRLO; if negb (Z.land v DELIVS =? 0) then wait_delivery fuel else mret tt).
Proof. done. Qed.

Lemma wait_delivery_run n s : lapic_up s -> l_busy s = n -> Z.testbit (l_reg s ICRLO) 12 = false ->
  wait_delivery (S n) s = Ret (tt, with_lapic (l_regs s) (l_log s) 0 s).
Proof.
  revert s. induction n as [|n IH]; intros s U Hb Hd.
  - rewrite wait_delivery_S. pose proof (lapic_read_icr s U) as E. rewrite Hb in E. rewrite (M_bind_run _ _ _ _ _ E).
    replace (Z.land (l_reg s ICRLO) DELIVS) with 0; [destruct s; by simpl in Hb; subst|].
    symmetry. apply Z.bits_inj'. intros k Hk. rewrite Z.bits_0, Z.land_spec.
    change DELIVS with (2 ^ 12). rewrite Z.pow2_bits_eqb by lia.
    destruct (Z.eqb_spec 12 k) as [<-|]; [by rewrite Hd|by rewrite andb_false_r].
  - rewrite wait_delivery_S. pose proof (lapic_read_icr s U) as E0. rewrite Hb in E0. rewrite (M_bind_run _ _ _ _ _ E0).
    assert (E : Z.land (Z.lor (l_reg s ICRLO) DELIVS) DELIVS <> 0).
    { intros E. apply (f_equal (fun x => Z.testbit x 12)) in E. rewrite Z.land_spec, Z.lor_spec in E.
      change (Z.testbit DELIVS 12) with true in E. rewrite orb_true_r in E. done. }
    rewrite (proj2 (Z.eqb_neq _ _)) by exact E. cbn [negb].
    rewrite (IH (with_lapic (l_regs s) (l_log s) n s) U eq_refl Hd). done.
Qed.

Lemma wrote_up reg v s : lapic_up s -> lapic_up (wrote reg v s).
Proof. done. Qed.

Lemma l_reg_wrote reg v s r : l_reg (wrote reg v s) r = if decide (reg = r) then v else l_reg s r.
Proof. unfold l_reg; simpl. rewrite lookup_insert. by case_decide. Qed.

Ltac l_step U :=
  match goal with
  | |- context [(lapic_write ?r ?v ≫= _) ?s] =>
      rewrite (M_bind_run _ _ _ _ _ (lapic_write_run r v s U ltac:(done)))
  end.

(** [lapic_init] on a reachable local APIC returns: the unit is enabled with
    the spurious vector 63, the timer ticks periodically on vector 32, the
    external lines (and, where it exists, the performance counter) are
    masked, errors use vector 51, every priority is let through, and nothing
    is pending.  Without a local APIC nothing happens. *)
Theorem lapic_init_ok (s : hw) :
  lapic_up s ->
  exists s', lapic_init s = Ret (tt, s') /\ lapic_up s' /\ l_busy s' = O /\
    l_reg s' SVR = 0x13f /\ l_reg s' TIMER = Z.lor PERIODIC 32 /\ l_reg s' TICR = 10000000 /\ l_reg s' TDCR = X1 /\
    l_reg s' LINT0 = MASKED /\ l_reg s' LINT1 = MASKED /\ l_reg s' ERROR = 51 /\ l_reg s' TPR = 0 /\
    (4 <= Z.land (Z.shiftr (l_reg s VER) 16) 0xFF -> l_reg s' PCINT = MASKED) /\
    l_reg s' ID = l_reg s ID /\ hpt s' = hpt s /\ io_regs s' = io_regs s /\ l_ptr s' = l_ptr s.
Proof.
  intros U. unfold lapic_init. rewrite (M_bind_run _ _ s s s) by done.
  replace (l_ptr s =? 0) with false by (destruct U; lia).
  do 6 l_step U. set (s6 := wrote LINT1 MASKED _). assert (U6 : lapic_up s6) by exact U.
  rewrite (M_bind_run _ _ _ _ _ (lapic_read_other VER s6 U6 ltac:(done) ltac:(done))).
  assert (EV : l_reg s6 VER = l_reg s VER) by (unfold s6; by rewrite !l_reg_wrote). rewrite EV.
  set (pc := 4 <=? Z.land (Z.shiftr (l_reg s VER) 16) 0xFF).
  set (s7 := if pc then wrote PCINT MASKED s6 else s6).
  assert (U7 : lapic_up s7) by (unfold s7; by destruct pc).
  rewrite (M_bind_run _ _ s6 s7 tt) by (unfold s7; destruct pc; [by rewrite lapic_write_run|done]).
  do 6 l_step U7. set (s8 := wrote ICRLO _ _). assert (U8 : lapic_up s8) by exact U7.
  rewrite (M_bind_run _ _ _ _ _ (wait_delivery_run delay s8 U8 eq_refl ltac:(unfold s8; by rewrite l_reg_wrote))).
  rewrite lapic_write_run by (exact U8 || done). eexists. split; [reflexivity|]. split; [exact U8|].
  split; [done|].
  assert (Hr : forall r, l_reg (wrote TPR 0 (with_lapic (l_regs s8) (l_log s8) 0 s8)) r = l_reg (wrote TPR 0 s8) r) by done.
  rewrite !Hr. unfold s8. rewrite !l_reg_wrote.
  assert (H7 : forall r, r <> PCINT -> l_reg s7 r = l_reg s6 r).
  { intros r Hne. unfold s7. destruct pc; [|done]. rewrite l_reg_wrote, decide_False by congruence. done. }
  rewrite !decide_False by done. rewrite !H7 by done. unfold s6. rewrite !l_reg_wrote.
  split_and!; try done.
  - intros Hpc. rewrite !decide_False by done. unfold s7, pc. rewrite (proj2 (Z.leb_le _ _)) by exact Hpc. by rewrite l_reg_wrote.
  - rewrite !decide_False, H7 by done. unfold s6. by rewrite !l_reg_wrote, !decide_False by done.
  - unfold s7. by destruct pc.
  - unfold s7. by destruct pc.
  - unfold s7. by destruct pc.
Qed.

(** [lapic_startap] sends the commands of the universal start-up algorithm
    to the given processor, in order: INIT, the end of INIT, and twice
    STARTUP with the page of the entry code; the warm reset vector points to
    the code as well. *)
Theorem lapic_startap_ok (s : hw) (id addr : Z) :
  lapic_up s ->
  exists s', lapic_startap id addr s = Ret (tt, s') /\ lapic_up s' /\ warm s' = (0, u16 (Z.shiftr addr 4)) /\
    cmos s' = [(0x71, 0x0A); (0x70, 0xF)] ++ cmos s /\
    let dst := (ICRHI, u32 (Z.shiftl id 24)) in
    let sipi := (ICRLO, Z.lor STARTUP (Z.shiftr addr 12)) in
    rev (l_log s') = rev (l_log s) ++
      [dst; (ICRLO, Z.lor (Z.lor INIT LEVEL) ASSERT); (ICRLO, Z.lor INIT LEVEL); dst; sipi; dst; sipi].
Proof.
  intros U. unfold lapic_startap. cbn [startup_loop].
  rewrite (M_bind_run _ _ s (with_cmos ((CMOS_PORT, 0xF) :: cmos s) s) tt) by done.
  rewrite (M_bind_run _ _ _ (with_cmos ((CMOS_PORT + 1, 0x0A) :: (CMOS_PORT, 0xF) :: cmos s) s) tt) by done.
  rewrite (M_bind_run _ _ _ (with_warm (0, u16 (Z.shiftr addr 4)) (with_cmos ((CMOS_PORT + 1, 0x0A) :: (CMOS_PORT, 0xF) :: cmos s) s)) tt) by done.
  do 7 l_step U. eexists. split; [reflexivity|]. split_and!; try done.
  cbv zeta. simpl. by rewrite <-!app_assoc.
Qed.

Lemma lapic_startap_run (s : hw) (id addr : Z) :
  lapic_up s -> exists s', lapic_startap id addr s = Ret (tt, s') /\ lapic_up s' /\ hpt s' = hpt s /\
    let dst := (ICRHI, u32 (Z.shiftl id 24)) in
    let sipi := (ICRLO, Z.lor STARTUP (Z.shiftr addr 12)) in
    rev (l_log s') = rev (l_log s) ++
      [dst; (ICRLO, Z.lor (Z.lor INIT LEVEL) ASSERT); (ICRLO, Z.lor INIT LEVEL); dst; sipi; dst; sipi].
Proof.
  intros U. unfold lapic_startap. cbn [startup_loop].
  set (s1 := with_warm (0, u16 (Z.shiftr addr 4)) (with_cmos ((CMOS_PORT + 1, 0x0A) :: (CMOS_PORT, 0xF) :: cmos s) s)).
  rewrite (M_bind_run _ _ s (with_cmos ((CMOS_PORT, 0xF) :: cmos s) s) tt) by done.
  rewrite (M_bind_run _ _ _ (with_cmos ((CMOS_PORT + 1, 0x0A) :: (CMOS_PORT, 0xF) :: cmos s) s) tt) by done.
  rewrite (M_bind_run _ _ _ s1 tt) by done.
  do 7 l_step U. eexists. split_and!; try done. cbv zeta. simpl. by rewrite <-!app_assoc.
Qed.

(** [lapic_eoi] acknowledges, or does nothing without a local APIC. *)
Lemma lapic_eoi_run s : lapic_up s -> lapic_eoi s = Ret (tt, wrote EOI 0 s).
Proof.
  intros U. unfold lapic_eoi. rewrite (M_bind_run _ _ s s s) by done.
  replace (l_ptr s =? 0) with false by (destruct U; lia). by apply lapic_write_run.
Qed.
End Lapic.

(** *** The clock in the CMOS *)

Module Cmos.

Definition CMOS_STATA : Z := 0x0a.
Definition CMOS_STATB : Z := 0x0b.
Definition CMOS_UIP : Z := Z.shiftl 1 7.
Definition SECS : Z := 0x00.
Definition MINS : Z := 0x02.
Definition HOURS : Z := 0x04.
Definition DAY : Z := 0x07.
Definition MONTH : Z := 0x08.
Definition YEAR : Z := 0x09.

(** [struct rtc_date]. *)
Record rtc_date := RtcDate { second : Z; minute : Z; hour : Z; day : Z; month : Z; year : Z }.

#[export] Instance rtc_date_eq_dec : EqDecision rtc_date.
Proof. solve_decision. Defined.

Section Clock.
(** What the [n]-th read of a register returns. *)
Context (rtc : nat -> Z -> Z).

(** The state is the number of reads so far. *)
Definition cmos_read (reg : Z) : M nat Z := fun n => Ret (u8 (rtc n reg), S n).

Definition fill_rtcdate : M nat rtc_date :=
  s ← cmos_read SECS;
  mi ← cmos_read MINS;
  h ← cmos_read HOURS;
  d ← cmos_read DAY;
  mo ← cmos_read MONTH;
  y ← cmos_read YEAR;
  mret (RtcDate s mi h d mo y).

(** The endless loop, [fuel] rounds of it. *)
Fixpoint stable_date (fuel : nat) : M nat rtc_date :=
  match fuel with
  | O => fun _ => Spin
  | S fuel =>
      t1 ← fill_rtcdate;
      a ← cmos_read CMOS_STATA;
      if negb (Z.land a CMOS_UIP =? 0) then stable_date fuel
      else
        t2 ← fill_rtcdate;
        if bool_decide (t1 = t2) then mret t1 else stable_date fuel
  end.

(** The macro [CONV]. *)
Definition conv (x : Z) : Z := u32 (Z.shiftr x 4 * 10 + Z.land x 0xf).

Definition cmos_time (fuel : nat) : M nat rtc_date :=
  sb ← cmos_read CMOS_STATB;
  let bcd := Z.land sb (Z.shiftl 1 2) =? 0 in
  t1 ← stable_date fuel;
  let t1 := if bcd
            then RtcDate (conv (second t1)) (conv (minute t1)) (conv (hour t1)) (conv (day t1)) (conv (month t1)) (conv (year t1))
            else t1 in
  mret (RtcDate (second t1) (minute t1) (hour t1) (day t1) (month t1) (u32 (year t1 + 2000))).
End Clock.

(** Two decimal digits in a byte. *)
Definition to_bcd (x : Z) : Z := 16 * (x / 10) + x mod 10.

Lemma conv_bcd x : 0 <= x < 100 -> conv (to_bcd x) = x.
Proof.
  intros Hx. unfold conv, to_bcd. rewrite Z.shiftr_div_pow2 by lia. change 0xf with (Z.ones 4). rewrite Z.land_ones by lia.
  change (2 ^ 4) with 16. rewrite wrap_small; unfold fits; Z.div_mod_to_equations; lia.
Qed.

(** The registers of a clock that shows the date [t], in two digits or in
    binary, and is not being updated. *)
Definition shows (bcd : bool) (t : rtc_date) (reg : Z) : Z :=
  let enc := fun x => if bcd then to_bcd x else x in
  if reg =? SECS then enc (second t) else if reg =? MINS then enc (minute t) else if reg =? HOURS then enc (hour t)
  else if reg =? DAY then enc (day t) else if reg =? MONTH then enc (month t) else if reg =? YEAR then enc (year t)
  else if reg =? CMOS_STATB then (if bcd then 2 else 6) else 0x26.

Definition two_digits (t : rtc_date) : Prop :=
  Forall (fun x => 0 <= x < 100) [second t; minute t; hour t; day t; month t; year t].

(** The date survives the clock: from a clock that shows a date, in
    either encoding, [cmos_time] returns that date in the first round, the
    year counted from 2000. *)
Theorem cmos_time_roundtrip (bcd : bool) (t : rtc_date) (fuel n : nat) :
  two_digits t ->
  exists n', cmos_time (fun _ => shows bcd t) (S fuel) n =
    Ret (RtcDate (second t) (minute t) (hour t) (day t) (month t) (2000 + year t), n').
Proof.
  intros Ht. unfold two_digits in Ht. rewrite !Forall_cons in Ht. destruct Ht as (H1 & H2 & H3 & H4 & H5 & H6 & _).
  set (enc := fun x => if bcd then to_bcd x else x).
  set (t' := RtcDate (enc (second t)) (enc (minute t)) (enc (hour t)) (enc (day t)) (enc (month t)) (enc (year t))).
  assert (He : forall x, 0 <= x < 100 -> u8 (enc x) = enc x).
  { intros x Hx. apply wrap_small. unfold fits, enc, to_bcd. destruct bcd; Z.div_mod_to_equations; lia. }
  assert (Hf : forall k, fill_rtcdate (fun _ => shows bcd t) k = Ret (t', (6 + k)%nat)).
  { intros k. transitivity (Ret (RtcDate (u8 (enc (second t))) (u8 (enc (minute t))) (u8 (enc (hour t)))
      (u8 (enc (day t))) (u8 (enc (month t))) (u8 (enc (year t))), (6 + k)%nat)); [done|]. by rewrite !He. }
  assert (Hs : stable_date (fun _ => shows bcd t) (S fuel) (S n) = Ret (t', (6 + S (6 + S n))%nat)).
  { cbn [stable_date]. rewrite (M_bind_run _ _ _ _ _ (Hf _)).
    rewrite (M_bind_run _ _ _ (S (6 + S n)) 0x26) by done. change (negb (Z.land 0x26 CMOS_UIP =? 0)) with false. cbv iota.
    rewrite (M_bind_run _ _ _ _ _ (Hf _)). by rewrite bool_decide_true by done. }
  unfold cmos_time. rewrite (M_bind_run _ _ n (S n) (if bcd then 2 else 6)) by (by destruct bcd).
  rewrite (M_bind_run _ _ _ _ _ Hs). eexists. unfold mret, M_ret, t', enc. destruct bcd.
  - change (Z.land 2 (Z.shiftl 1 2) =? 0) with true. cbn [second minute hour day month year].
    rewrite !conv_bcd by done. do 3 f_equal. rewrite wrap_small by (unfold fits; lia). lia.
  - change (Z.land 6 (Z.shiftl 1 2) =? 0) with false. cbn [second minute hour day month year].
    do 3 f_equal. rewrite wrap_small by (unfold fits; lia). lia.
Qed.

(** A date is returned only after two readings in a row have agreed and the
    clock has said, between them, that it was not being updated. *)
Theorem stable_date_agrees (rtc : nat -> Z -> Z) (fuel n n' : nat) (t : rtc_date) :
  stable_date rtc fuel n = Ret (t, n') ->
  exists k, n' = (k + 13)%nat /\ Z.land (u8 (rtc (k + 6)%nat CMOS_STATA)) CMOS_UIP = 0 /\
    fill_rtcdate rtc k = Ret (t, (k + 6)%nat) /\ fill_rtcdate rtc (k + 7)%nat = Ret (t, (k + 13)%nat).
Proof.
  assert (Hf : forall k, exists t, fill_rtcdate rtc k = Ret (t, (k + 6)%nat)).
  { intros k. unfold fill_rtcdate, cmos_read, mbind, M_bind, mret, M_ret. eexists. do 2 f_equal. lia. }
  revert n. induction fuel as [|fuel IH]; intros n E; [done|]. cbn [stable_date] in E.
  destruct (Hf n) as [t1 E1]. rewrite (M_bind_run _ _ _ _ _ E1) in E.
  rewrite (M_bind_run _ _ (n + 6)%nat (n + 7)%nat (u8 (rtc (n + 6)%nat CMOS_STATA))) in E by (unfold cmos_read; do 2 f_equal; lia).
  destruct (Z.land _ _ =? 0) eqn:Eu; cbn [negb] in E; [|by apply IH in E].
  destruct (Hf (n + 7)%nat) as [t2 E2]. rewrite (M_bind_run _ _ _ _ _ E2) in E.
  case_bool_decide; [|by apply IH in E]. subst t2. unfold mret, M_ret in E. run_inv. subst.
  exists n. zify_bool. split_and!; [lia|done|done|rewrite E2; do 2 f_equal; lia].
Qed.

End Cmos.

(** *** Concrete devices *)

Lemma cmos_time_roundtrip_witness :
  exists n', Cmos.cmos_time (fun _ => Cmos.shows true (Cmos.RtcDate 59 30 23 31 12 24)) 1%nat 0%nat =
    Ret (Cmos.RtcDate 59 30 23 31 12 2024, n').
Proof.
  apply (Cmos.cmos_time_roundtrip true (Cmos.RtcDate 59 30 23 31 12 24) 0%nat 0%nat).
  unfold Cmos.two_digits. simpl. repeat (apply Forall_cons; split; [lia|]). by apply Forall_nil.
Defined.

(** A device with 24 pins, behind empty page tables. *)
Definition hw0 : hw := Hw ptm0 0 {[REG_VER := 0x00170011]} 0 0 ∅ [] 0%nat (0, 0) [].

Lemma hw0_editable : editable (hpt hw0) 256 IOAPIC PAGE_SIZE frames0.
Proof.
  change (hpt hw0) with ptm0. split.
  - change (npages PAGE_SIZE) with 1. change (IOAPIC / 4096) with 0xFEC00. intros u Hu.
    assert (u = 0xFEC00) as -> by lia. done.
  - exists {[1019]}. split.
    + change (npages PAGE_SIZE) with 1. change (IOAPIC / 4096) with 0xFEC00. intros u Hu.
      assert (u = 0xFEC00) as -> by lia. right. by apply elem_of_singleton.
    + rewrite size_singleton, <- (size_singleton (C := gset Z) 0x37c00).
      apply subseteq_size, singleton_subseteq_l, frames0_spec. lia.
Qed.

Lemma ioapic_init_ok_witness :
  exists s', ioapic_init (page_to_virt 256) hw0 = Ret (tt, s') /\ reaches (hpt s') IOAPIC = true /\
    redirection s' 1 = (0x10021, 0) /\ masked s' 23 = true.
Proof.
  destruct (ioapic_init_ok hw0 256 frames0 ptm0_ok eq_refl hw0_editable) as (s' & F' & E & _ & R & Hk & _).
  assert (Em : maxintr hw0 = 23) by reflexivity.
  exists s'. split; [exact E|]. split; [exact R|].
  split; [apply (proj2 (Hk 1 ltac:(rewrite Em; lia)))|apply (proj1 (Hk 23 ltac:(rewrite Em; lia)))].
Defined.
