(* ===== verification/Keyboard.v ===== *)
(** * The keyboard (kernel/keyboard.c)

    The controller delivers scan codes; the driver keeps the state of the
    modifier keys in [shift] and puts the characters into the queue
    [stdio_que].  [key_step] is what [keyboard_device_getc] does with one scan
    code.  The controller is the list of the codes waiting in it: the status
    port says whether there is one, reading the data port takes the first.

    The theorems show that the decoder stays within its tables, that letters
    come out in the case that Shift and Caps Lock ask for and modifier keys
    act as such, and that draining the controller appends exactly the
    characters of the codes to the queue of libs/queue.c. *)

From stdpp Require Import base numbers list gmap.
From Stdlib Require Import ZArith Lia Ascii String.
Import List (length).
From S2P Require Import Prelude CMem Vector Queue.

Open Scope Z_scope.

#[local] Coercion Z.of_nat : nat >-> Z.

Definition NO : Z := 0.
Definition SHIFT : Z := Z.shiftl 1 0.
Definition CTL : Z := Z.shiftl 1 1.
Definition ALT : Z := Z.shiftl 1 2.
Definition CAPSLOCK : Z := Z.shiftl 1 3.
Definition NUMLOCK : Z := Z.shiftl 1 4.
Definition SCROLLLOCK : Z := Z.shiftl 1 5.
Definition E0ESC : Z := Z.shiftl 1 6.

Definition KEY_HOME : Z := 0xE0.
Definition KEY_END : Z := 0xE1.
Definition KEY_UP : Z := 0xE2.
Definition KEY_DN : Z := 0xE3.
Definition KEY_LF : Z := 0xE4.
Definition KEY_RT : Z := 0xE5.
Definition KEY_PGUP : Z := 0xE6.
Definition KEY_PGDN : Z := 0xE7.
Definition KEY_INS : Z := 0xE8.
Definition KEY_DEL : Z := 0xE9.

(** ** The tables *)

(** An array of 256 bytes: the values given in order from index 0, those
    given with an index, and 0 elsewhere. *)
Record keymap := Keymap { in_order : list Z; at_index : list (Z * Z) }.

Fixpoint assoc (i : Z) (l : list (Z * Z)) : option Z :=
  match l with [] => None | (k, v) :: l => if k =? i then Some v else assoc i l end.
Definition map_at (m : keymap) (i : Z) : Z :=
  match assoc i (at_index m) with Some v => v | None => nth (Z.to_nat i) (in_order m) 0 end.

(** The character codes of a string. *)
Fixpoint chars (s : string) : list Z :=
  match s with EmptyString => [] | String c s => Z.of_N (N_of_ascii c) :: chars s end.

Definition shiftcode : keymap :=
  Keymap [] [(0x1D, CTL); (0x2A, SHIFT); (0x36, SHIFT); (0x38, ALT); (0x9D, CTL); (0xB8, ALT)].

Definition togglecode : keymap := Keymap [] [(0x3A, CAPSLOCK); (0x45, NUMLOCK); (0x46, SCROLLLOCK)].

Definition special_keys : list (Z * Z) :=
  [(0xC8, KEY_UP); (0xC9, KEY_PGUP); (0xCB, KEY_LF); (0xCD, KEY_RT); (0xCF, KEY_END); (0xD0, KEY_DN);
   (0xD1, KEY_PGDN); (0xD2, KEY_INS); (0xD3, KEY_DEL)].

Definition normalmap : keymap :=
  Keymap ([NO; 0x1B] ++ chars "1234567890-=" ++ [8; 9]
            ++ chars "qwertyuiop[]" ++ [10; NO]
            ++ chars "asdfghjkl;'`" ++ [NO] ++ chars "\zxcvbnm,./" ++ [NO] ++ chars "*"
            ++ [NO] ++ chars " " ++ [NO; NO; NO; NO; NO; NO;
                NO; NO; NO; NO; NO; NO; NO] ++ chars "789-456+1230." ++ [NO; NO; NO; NO])
         ([(0xC7, KEY_HOME); (0x9C, 10); (0xB5, 47)] ++ special_keys).

Definition shiftmap : keymap :=
  Keymap ([NO; 0x1B] ++ chars "!@#$%^&*()_+" ++ [8; 9]
            ++ chars "QWERTYUIOP{}" ++ [10; NO]
            ++ chars "ASDFGHJKL:" ++ [34] ++ chars "~" ++ [NO] ++ chars "|ZXCVBNM<>?" ++ [NO] ++ chars "*"
            ++ [NO] ++ chars " " ++ [NO; NO; NO; NO; NO; NO;
                NO; NO; NO; NO; NO; NO; NO] ++ chars "789-456+1230." ++ [NO; NO; NO; NO])
         ([(0xC7, KEY_HOME); (0x9C, 10); (0xB5, 47)] ++ special_keys).

(** The macro [C(x)], stored in a byte. *)
Definition ctl (l : list Z) : list Z := map (fun x => u8 (x - 64)) l.

Definition ctlmap : keymap :=
  Keymap (replicate 16 NO
            ++ ctl (chars "QWERTYUIOP") ++ [NO; NO; 13; NO] ++ ctl (chars "ASDFGHJKL")
            ++ [NO; NO; NO; NO] ++ ctl (chars "\ZXCVBNM") ++ [NO; NO] ++ ctl (chars "/") ++ [NO; NO])
         ([(0x97, KEY_HOME); (0xB5, u8 (47 - 64))] ++ special_keys).

Definition charcode (v : Z) : keymap :=
  if v =? 0 then normalmap else if v =? 1 then shiftmap else ctlmap.

(** ** Decoding a scan code *)

Definition clear (shift m : Z) : Z := Z.land shift (u32 (Z.lnot m)).
Definition on (shift m : Z) : bool := negb (Z.land shift m =? 0).

Definition capslock (c : Z) : Z :=
  if (97 <=? c) && (c <=? 122) then c + (65 - 97)
  else if (65 <=? c) && (c <=? 90) then c + (97 - 65)
  else c.

(** [keyboard_device_getc] behind the reading of the data port: the new
    [shift], the result, and whether [reboot] is called. *)
Definition key_step (shift data : Z) : Z * Z * bool :=
  if data =? 0xE0 then (Z.lor shift E0ESC, 0, false)
  else if on data 0x80 then
    let data := if on shift E0ESC then data else Z.land data 0x7F in
    (clear shift (Z.lor (map_at shiftcode data) E0ESC), 0, false)
  else
    let '(data, shift) :=
      if on shift E0ESC then (Z.lor data 0x80, clear shift E0ESC) else (data, shift) in
    let shift := Z.lor shift (map_at shiftcode data) in
    let shift := Z.lxor shift (map_at togglecode data) in
    let v := Z.land shift (Z.lor CTL SHIFT) in
    let c := map_at (charcode v) data in
    let c := if on shift CAPSLOCK then capslock c else c in
    (shift, c, (Z.land (u32 (Z.lnot shift)) (Z.lor CTL ALT) =? 0) && (c =? KEY_DEL)).

(** ** The driver *)

(** [kb_pending]: the scan codes in the controller; [kb_ports]: the port
    writes, the last one first; [stdio_que] and the memory it lives in. *)
Record kbd := Kbd {
  kb_pending : list Z;
  kb_shift : Z;
  kb_ports : list (Z * Z);
  kb_mem : cmem;
  stdio_que : queue
}.

Section Driver.
Context `{KHeap}.

Definition outb (port v : Z) : M kbd unit :=
  mmod (fun s => Kbd (kb_pending s) (kb_shift s) ((port, v) :: kb_ports s) (kb_mem s) (stdio_que s)).

Definition reboot : M kbd unit := outb 0x92 0x3.

Definition keyboard_device_getc : M kbd Z :=
  s ← mget;
  match kb_pending s with
  | [] => mret (-1)
  | data :: l =>
      let '(shift, c, rb) := key_step (kb_shift s) data in
      _ ← mput (Kbd l shift (kb_ports s) (kb_mem s) (stdio_que s));
      _ ← (if rb : bool then reboot else mret tt);
      mret c
  end.

(** [enqueue(stdio_que, char, c)]: [a] is the address of the local variable
    of the macro; the result is ignored. *)
Definition enqueue_char (a c : Z) : M kbd unit := fun s =>
  match (_ ← wrb a c; enqueue (stdio_que s) a) (kb_mem s) with
  | Ret (_, q, m) => Ret (tt, Kbd (kb_pending s) (kb_shift s) (kb_ports s) m q)
  | Bug => Bug | Fault => Fault | Spin => Spin
  end.

Fixpoint read_loop (fuel : nat) (a : Z) : M kbd unit :=
  match fuel with
  | O => fun _ => Spin
  | S fuel =>
      c ← keyboard_device_getc;
      if c =? -1 then mret tt
      else
        _ ← (if negb (c =? 0) then enqueue_char a c else mret tt);
        read_loop fuel a
  end.

(** Every round takes a code from the controller. *)
Definition keyboard_read_all_buffer (a : Z) : M kbd unit :=
  s ← mget; read_loop (S (length (kb_pending s))) a.

Definition keyboard_irq_handler (a : Z) : M kbd unit := keyboard_read_all_buffer a.

End Driver.

(** ** The decoder *)

(** All modifier states and all scan codes. *)
Definition all_shift (P : Z -> bool) : bool := forallb P (seqZ 0 128).
Definition all_data (P : Z -> bool) : bool := forallb P (seqZ 0 256).

Lemma all_shift_spec P : all_shift P = true -> forall x, 0 <= x < 128 -> P x = true.
Proof. intros E x Hx. eapply forallb_forall in E; [exact E|]. apply list_elem_of_In, elem_of_seqZ. lia. Qed.
Lemma all_data_spec P : all_data P = true -> forall x, 0 <= x < 256 -> P x = true.
Proof. intros E x Hx. eapply forallb_forall in E; [exact E|]. apply list_elem_of_In, elem_of_seqZ. lia. Qed.

Lemma all_keys (P : Z -> Z -> bool) :
  all_shift (fun sh => all_data (P sh)) = true ->
  forall sh d, 0 <= sh < 128 -> 0 <= d < 256 -> P sh d = true.
Proof. intros E sh d Hs Hd. apply all_data_spec; [|done]. by apply (all_shift_spec (fun sh => all_data (P sh))). Qed.

Lemma key_step_types sh d : 0 <= sh < 128 -> 0 <= d < 256 ->
  0 <= (key_step sh d).1.1 < 128 /\ 0 <= (key_step sh d).1.2 < 256.
Proof.
  intros Hs Hd.
  assert (E : let r := key_step sh d in
     (0 <=? r.1.1) && (r.1.1 <? 128) && (0 <=? r.1.2) && (r.1.2 <? 256) = true).
  { revert sh d Hs Hd. apply all_keys. vm_compute. reflexivity. }
  cbv zeta in E. zify_bool. lia.
Qed.

(** The state of a modifier as a number that is 0 or not, and letters. *)
Definition upper (l : Z) : Z := l - 32.
Definition lower_letter (c : Z) : bool := (97 <=? c) && (c <=? 122).

Definition letter_result (sh l : Z) : Z * Z * bool :=
  (sh, if on sh CTL then l - 96 else if xorb (on sh SHIFT) (on sh CAPSLOCK) then upper l else l, false).

Definition same_result (x y : Z * Z * bool) : bool :=
  (x.1.1 =? y.1.1) && (x.1.2 =? y.1.2) && Bool.eqb x.2 y.2.

Lemma same_result_eq x y : same_result x y = true -> x = y.
Proof.
  destruct x as [[a b] c], y as [[a' b'] c']. unfold same_result; simpl. intros E. zify_bool.
  apply Bool.eqb_prop in H0. by subst.
Qed.

Definition letter_check (sh d : Z) : bool :=
  (128 <=? d) || on sh E0ESC || negb (lower_letter (map_at normalmap d))
  || same_result (key_step sh d) (letter_result sh (map_at normalmap d)).

Lemma letter_checked : all_shift (fun sh => all_data (letter_check sh)) = true.
Proof. vm_compute. reflexivity. Qed.

(** Letters come out in the right case: when no escape is pending, the
    key of a letter gives the capital exactly when one of Shift and Caps
    Lock is on, whatever else is held; with Control held it gives the
    control character of the letter instead.  No modifier changes and the
    machine does not reboot. *)
Theorem key_letters (sh d : Z) :
  0 <= sh < 128 -> 0 <= d < 128 -> on sh E0ESC = false -> lower_letter (map_at normalmap d) = true ->
  key_step sh d = letter_result sh (map_at normalmap d).
Proof.
  intros Hs Hd He Hl. pose proof (all_keys letter_check letter_checked sh d Hs ltac:(lia)) as E.
  unfold letter_check in E. rewrite He, Hl in E. replace (128 <=? d) with false in E by lia.
  by apply same_result_eq.
Qed.

(** The keys that hold a modifier, with the modifier. *)
Definition held_keys : list (Z * Z) := [(0x1D, CTL); (0x2A, SHIFT); (0x36, SHIFT); (0x38, ALT)].
Definition toggle_keys : list (Z * Z) := [(0x3A, CAPSLOCK); (0x45, NUMLOCK); (0x46, SCROLLLOCK)].
(** The right-hand Control and Alt keys, sent behind an escape. *)
Definition escaped_keys : list (Z * Z) := [(0x1D, CTL); (0x38, ALT)].

Definition shift_after (sh : Z) (l : list Z) : Z := foldl (fun sh d => (key_step sh d).1.1) sh l.

Definition modifiers_check (sh : Z) : bool :=
  on sh E0ESC ||
  (forallb (fun '(d, m) => (shift_after sh [d] =? Z.lor sh m)
                           && (shift_after sh [d; d + 0x80] =? clear sh m)) held_keys
   && forallb (fun '(d, m) => (shift_after sh [0xE0; d] =? Z.lor sh m)
                              && (shift_after sh [0xE0; d; 0xE0; d + 0x80] =? clear sh m)) escaped_keys
   && forallb (fun '(d, m) => (shift_after sh [d; d + 0x80] =? Z.lxor sh m)
                              && (shift_after sh [d; d + 0x80; d; d + 0x80] =? sh)) toggle_keys).

Lemma modifiers_checked : all_shift modifiers_check = true.
Proof. vm_compute. reflexivity. Qed.

(** Pressing a modifier key sets its bit and nothing else, releasing it
    clears it and nothing else, on both sides of the keyboard; pressing and
    releasing a lock key toggles its bit, and doing so twice restores the
    state. *)
Theorem key_modifiers (sh : Z) :
  0 <= sh < 128 -> on sh E0ESC = false ->
  Forall (fun '(d, m) => shift_after sh [d] = Z.lor sh m /\ shift_after sh [d; d + 0x80] = clear sh m) held_keys /\
  Forall (fun '(d, m) => shift_after sh [0xE0; d] = Z.lor sh m /\
                         shift_after sh [0xE0; d; 0xE0; d + 0x80] = clear sh m) escaped_keys /\
  Forall (fun '(d, m) => shift_after sh [d; d + 0x80] = Z.lxor sh m /\
                         shift_after sh [d; d + 0x80; d; d + 0x80] = sh) toggle_keys.
Proof.
  intros Hs He. pose proof (all_shift_spec _ modifiers_checked sh Hs) as E. unfold modifiers_check in E.
  rewrite He in E. rewrite orb_false_l in E. apply andb_prop in E as [[E1 E2]%andb_prop E3].
  split_and!; apply Forall_forall; intros [d m] Hin%list_elem_of_In;
    [eapply forallb_forall in E1 as E|eapply forallb_forall in E2 as E|eapply forallb_forall in E3 as E];
    try exact Hin; cbv beta iota in E; zify_bool; done.
Qed.

Definition reboot_check (sh d : Z) : bool :=
  Bool.eqb (key_step sh d).2 (on sh E0ESC && on sh CTL && on sh ALT && (d =? 0x53)).

Lemma reboot_checked : all_shift (fun sh => all_data (reboot_check sh)) = true.
Proof. vm_compute. reflexivity. Qed.

(** The machine reboots exactly when Delete is pressed (the escaped key)
    while Control and Alt are held. *)
Theorem key_reboot (sh d : Z) :
  0 <= sh < 128 -> 0 <= d < 256 ->
  (key_step sh d).2 = true <-> on sh E0ESC = true /\ on sh CTL = true /\ on sh ALT = true /\ d = 0x53.
Proof.
  intros Hs Hd. pose proof (all_keys reboot_check reboot_checked sh d Hs Hd) as E. unfold reboot_check in E.
  apply Bool.eqb_prop in E. rewrite E. rewrite !andb_true_iff, Z.eqb_eq. tauto.
Qed.

(** ** Draining the controller *)

(** The characters of a sequence of scan codes, and the modifiers after it. *)
Fixpoint typed (sh : Z) (l : list Z) : list Z :=
  match l with
  | [] => []
  | d :: l => let '(sh, c, _) := key_step sh d in if c =? 0 then typed sh l else c :: typed sh l
  end.

Lemma typed_app sh l1 l2 : typed sh (l1 ++ l2) = typed sh l1 ++ typed (shift_after sh l1) l2.
Proof.
  revert sh. induction l1 as [|d l1 IH]; intros sh; [done|]. cbn [typed app shift_after foldl].
  fold (shift_after (key_step sh d).1.1 l1). destruct (key_step sh d) as [[sh' c] rb]. cbn [fst snd]. rewrite IH. by case_match.
Qed.

Lemma shift_after_app sh l1 l2 : shift_after sh (l1 ++ l2) = shift_after (shift_after sh l1) l2.
Proof. unfold shift_after. apply foldl_app. Qed.

(** ** What the keys mean

    The keyboard as its user sees it, without the driver's tables: a US
    keyboard whose keys have a scan code (of set 1), a plain and a shifted
    character, and a control character (0 for none); Shift and Control hold,
    Caps Lock toggles and acts on letters only. *)
Record key := Key { k_code : Z; k_plain : Z; k_shifted : Z; k_ctl : Z }.

#[export] Instance key_eq_dec : EqDecision key.
Proof. solve_decision. Defined.

(** Control gives the control character of a letter, and of backslash;
    with Enter it gives a carriage return and with slash the code 239. *)
Definition ctl_char (c : Z) : Z :=
  if lower_letter c then c - 96 else if c =? 92 then 28 else if c =? 10 then 13 else if c =? 47 then 239 else 0.

(** Keys with consecutive scan codes. *)
Fixpoint row (code : Z) (plain shifted : list Z) : list key :=
  match plain, shifted with
  | x :: plain, y :: shifted => Key code x y (ctl_char x) :: row (code + 1) plain shifted
  | _, _ => []
  end.

Definition us_keys : list key :=
  row 0x01 [27] [27]
  ++ row 0x02 (chars "1234567890-=") (chars "!@#$%^&*()_+") ++ row 0x0E [8; 9] [8; 9]
  ++ row 0x10 (chars "qwertyuiop[]") (chars "QWERTYUIOP{}") ++ row 0x1C [10] [10]
  ++ row 0x1E (chars "asdfghjkl;'`") (chars "ASDFGHJKL:" ++ [34] ++ chars "~")
  ++ row 0x2B (chars "\zxcvbnm,./") (chars "|ZXCVBNM<>?")
  ++ row 0x37 (chars "*") (chars "*") ++ row 0x39 (chars " ") (chars " ")
  ++ row 0x47 (chars "789-456+1230.") (chars "789-456+1230.").

(** The keys sent behind an escape: Enter and slash of the keypad, Home,
    and the keys that have one code in all states. *)
Definition ext_keys : list key :=
  [Key 0x1C 10 10 0; Key 0x35 47 47 239; Key 0x47 0xE0 0xE0 0]
  ++ map (fun '(code, c) => Key code c c c)
       [(0x48, 0xE2); (0x49, 0xE6); (0x4B, 0xE4); (0x4D, 0xE5); (0x4F, 0xE1); (0x50, 0xE3); (0x51, 0xE7); (0x52, 0xE8);
        (0x53, 0xE9)].

(** What the user does; [r] tells that it is the right one of two keys. *)
Inductive event : Type :=
  | KeyDown (k : key) | KeyUp (k : key) | ExtDown (k : key) | ExtUp (k : key)
  | ShiftDown (r : bool) | ShiftUp (r : bool)
  | CtlDown (r : bool) | CtlUp (r : bool) | AltDown (r : bool) | AltUp (r : bool)
  | CapsDown | CapsUp.

#[export] Instance event_eq_dec : EqDecision event.
Proof. solve_decision. Defined.

(** The scan codes the keyboard sends. *)
Definition scan (e : event) : list Z :=
  match e with
  | KeyDown k => [k_code k] | KeyUp k => [k_code k + 0x80]
  | ExtDown k => [0xE0; k_code k] | ExtUp k => [0xE0; k_code k + 0x80]
  | ShiftDown r => [if r then 0x36 else 0x2A] | ShiftUp r => [if r then 0xB6 else 0xAA]
  | CtlDown r => if r then [0xE0; 0x1D] else [0x1D] | CtlUp r => if r then [0xE0; 0x9D] else [0x9D]
  | AltDown r => if r then [0xE0; 0x38] else [0x38] | AltUp r => if r then [0xE0; 0xB8] else [0xB8]
  | CapsDown => [0x3A] | CapsUp => [0xBA]
  end.

Record mods := Mods { m_shift : bool; m_ctl : bool; m_caps : bool }.

#[export] Instance mods_eq_dec : EqDecision mods.
Proof. solve_decision. Defined.

Definition mods_after (m : mods) (e : event) : mods :=
  match e with
  | ShiftDown _ => Mods true (m_ctl m) (m_caps m) | ShiftUp _ => Mods false (m_ctl m) (m_caps m)
  | CtlDown _ => Mods (m_shift m) true (m_caps m) | CtlUp _ => Mods (m_shift m) false (m_caps m)
  | CapsDown => Mods (m_shift m) (m_ctl m) (negb (m_caps m))
  | _ => m
  end.

(** The character of a key. *)
Definition key_char (m : mods) (k : key) : Z :=
  if m_ctl m then k_ctl k
  else if lower_letter (k_plain k) then (if xorb (m_shift m) (m_caps m) then k_shifted k else k_plain k)
  else if m_shift m then k_shifted k else k_plain k.

Definition event_chars (m : mods) (e : event) : list Z :=
  match e with
  | KeyDown k | ExtDown k => if key_char m k =? 0 then [] else [key_char m k]
  | _ => []
  end.

Fixpoint meaning (m : mods) (es : list event) : list Z :=
  match es with [] => [] | e :: es => event_chars m e ++ meaning (mods_after m e) es end.

Definition known (e : event) : Prop :=
  match e with
  | KeyDown k | KeyUp k => k ∈ us_keys
  | ExtDown k | ExtUp k => k ∈ ext_keys
  | _ => True
  end.

(** The modifiers as the driver keeps them. *)
Definition mods_of (sh : Z) : mods := Mods (on sh SHIFT) (on sh CTL) (on sh CAPSLOCK).

Definition both (f : bool -> event) : list event := [f false; f true].
Definition all_events : list event :=
  map KeyDown us_keys ++ map KeyUp us_keys ++ map ExtDown ext_keys ++ map ExtUp ext_keys
  ++ both ShiftDown ++ both ShiftUp ++ both CtlDown ++ both CtlUp ++ both AltDown ++ both AltUp ++ [CapsDown; CapsUp].

Lemma known_event e : known e -> e ∈ all_events.
Proof.
  unfold all_events, both. rewrite !elem_of_app, !elem_of_cons, !list_elem_of_In, !in_map_iff.
  destruct e as [k|k|k|k|[]|[]|[]|[]|[]|[]| |]; cbn [known]; rewrite ?list_elem_of_In; eauto 30.
Qed.

Definition event_check (sh : Z) : bool :=
  on sh E0ESC ||
  forallb (fun e => bool_decide (typed sh (scan e) = event_chars (mods_of sh) e)
                    && bool_decide (mods_of (shift_after sh (scan e)) = mods_after (mods_of sh) e)
                    && negb (on (shift_after sh (scan e)) E0ESC)
                    && (0 <=? shift_after sh (scan e)) && (shift_after sh (scan e) <? 128)) all_events.

Lemma events_checked : all_shift event_check = true.
Proof. vm_compute. reflexivity. Qed.

Lemma event_ok sh e : 0 <= sh < 128 -> on sh E0ESC = false -> known e ->
  typed sh (scan e) = event_chars (mods_of sh) e /\ mods_of (shift_after sh (scan e)) = mods_after (mods_of sh) e /\
  on (shift_after sh (scan e)) E0ESC = false /\ 0 <= shift_after sh (scan e) < 128.
Proof.
  intros Hs He Hk. pose proof (all_shift_spec _ events_checked sh Hs) as E. unfold event_check in E.
  rewrite He, orb_false_l in E. eapply forallb_forall in E; [|by apply list_elem_of_In, known_event].
  cbv beta in E. rewrite !andb_true_iff, negb_true_iff, !bool_decide_eq_true in E. lia || (destruct E as [[[[? ?] ?] ?] ?]; split_and!; (done || lia)).
Qed.

(** The driver decodes a sequence of key events as the user means it. *)
Lemma typed_meaning sh es : 0 <= sh < 128 -> on sh E0ESC = false -> Forall known es ->
  typed sh (flat_map scan es) = meaning (mods_of sh) es.
Proof.
  intros Hs He Hk. revert sh Hs He. induction Hk as [|e es Hk _ IH]; intros sh Hs He; [done|].
  destruct (event_ok sh e Hs He Hk) as (E1 & E2 & E3 & E4).
  cbn [flat_map meaning]. rewrite typed_app, E1, IH by done. by rewrite E2.
Qed.

Section Drain.
Context `{KHeap}.

(** The driver and the variable at [a] it enqueues from: the queue holds [els]. *)
Record kbd_ok (a : Z) (s : kbd) (els : list (list Z)) : Prop := KbdOk {
  ko_rep : que_rep (kb_mem s) (stdio_que s) els;
  ko_byte : q_element_size (stdio_que s) = 1;
  ko_slot : is_Some (bytes (kb_mem s) !! a);
  ko_apart : que_apart (stdio_que s) a 1;
  ko_shift : 0 <= kb_shift s < 128;
  ko_codes : byte_list (kb_pending s)
}.

Lemma getc_run a s els d l :
  kbd_ok a s els -> kb_pending s = d :: l ->
  exists p, keyboard_device_getc s =
    Ret ((key_step (kb_shift s) d).1.2, Kbd l (key_step (kb_shift s) d).1.1 p (kb_mem s) (stdio_que s)) /\
    kbd_ok a (Kbd l (key_step (kb_shift s) d).1.1 p (kb_mem s) (stdio_que s)) els /\
    0 <= (key_step (kb_shift s) d).1.2 < 256.
Proof.
  intros [Hr Hb Hm Ha Hs Hc] E. rewrite E in Hc. apply Forall_cons in Hc as [Hd Hc].
  destruct (key_step_types _ _ Hs Hd) as [Ht1 Ht2].
  unfold keyboard_device_getc, mget, mbind, M_bind. rewrite E.
  destruct (key_step (kb_shift s) d) as [[sh c] rb]. simpl in *.
  destruct rb; eexists; (split; [reflexivity|]); (split; [|done]); by split.
Qed.

Lemma enqueue_char_run a s els c :
  kbd_ok a s els -> 0 <= c < 256 -> 2 * q_capacity (stdio_que s) < 2 ^ 30 ->
  exists s', enqueue_char a c s = Ret (tt, s') /\ kb_pending s' = kb_pending s /\ kb_shift s' = kb_shift s /\
    (kbd_ok a s' (els ++ [[c]]) \/ (kbd_ok a s' els /\ length els + 1 = q_capacity (stdio_que s))) /\
    q_capacity (stdio_que s') <= Z.max (q_capacity (stdio_que s)) (2 * (length els + 1)) /\
    (length els + 1 < q_capacity (stdio_que s) -> q_capacity (stdio_que s') = q_capacity (stdio_que s)).
Proof.
  intros [Hr Hb Hm Ha Hs Hc] Hv Hcap. unfold enqueue_char.
  set (m1 := put_bytes (<[a := c]> (bytes (kb_mem s))) (kb_mem s)).
  rewrite (M_bind_run _ _ _ _ _ (wrb_run _ _ _ Hm Hv)). fold m1.
  assert (Hr1 : que_rep m1 (stdio_que s) els) by (by apply (que_rep_write _ _ _ a [c])).
  assert (Ha1 : arr (bytes m1) a [c]) by (apply arr_cons; split; [apply lookup_insert_eq|apply arr_length_0]).
  assert (Hbl : byte_list [c]) by byte_list_tac.
  assert (Hap : que_apart (stdio_que s) a (q_element_size (stdio_que s))) by (by rewrite Hb).
  destruct (enqueue_run m1 (stdio_que s) els a [c] Hr1 ltac:(rewrite Hb; lia) Ha1 ltac:(by rewrite Hb) Hbl Hap)
    as [[Hfull E]|(q' & m' & E & Hr' & _ & _ & Hk & He & Hc' & Hap' & Hsame)]; rewrite E; eexists; (split; [reflexivity|]);
    (split; [done|]); (split; [done|]); cbn [stdio_que].
  - split; [right|]; [|lia]. split; [|done]. split; try done. cbn [kb_mem]. unfold m1. cbn [bytes put_bytes].
    rewrite lookup_insert_eq. eauto.
  - rewrite Hb in *. split; [left|]; [|done]. split; try done. cbn [kb_mem]. exists c. apply Hk.
    + cbn. by rewrite lookup_insert_eq.
    + unfold que_apart in Ha. rewrite Hb in Ha. lia.
Qed.

Lemma read_loop_run fuel a s els :
  kbd_ok a s els -> (length (kb_pending s) < fuel)%nat ->
  2 * Z.max (q_capacity (stdio_que s)) (2 * (length els + length (kb_pending s))) < 2 ^ 30 ->
  exists s' l, read_loop fuel a s = Ret (tt, s') /\ kb_pending s' = [] /\
    kb_shift s' = shift_after (kb_shift s) (kb_pending s) /\ kbd_ok a s' (els ++ map (fun c => [c]) l) /\
    sublist l (typed (kb_shift s) (kb_pending s)) /\
    (length els + length (typed (kb_shift s) (kb_pending s)) < q_capacity (stdio_que s) ->
     l = typed (kb_shift s) (kb_pending s)).
Proof.
  revert s els. induction fuel as [|fuel IH]; intros s els Hk Hf Hcap; [lia|]. simpl read_loop.
  destruct (kb_pending s) as [|d codes] eqn:Ep.
  - rewrite (M_bind_run _ _ s s (-1)) by (unfold keyboard_device_getc, mget, mbind, M_bind; by rewrite Ep).
    exists s, []. rewrite app_nil_r. split_and!; try done. 
  - destruct (getc_run _ _ _ _ _ Hk Ep) as (p & E & Hk1 & Hc). rewrite (M_bind_run _ _ _ _ _ E).
    cbn [typed shift_after foldl length] in *. fold (shift_after (key_step (kb_shift s) d).1.1 codes).
    destruct (key_step (kb_shift s) d) as [[sh c] rb] eqn:Eks. cbn [fst snd] in *.
    set (s1 := Kbd codes sh p (kb_mem s) (stdio_que s)) in *.
    replace (c =? -1) with false by lia. destruct (Z.eqb_spec c 0) as [->|Hc0]; cbn [negb].
    + rewrite (M_bind_run _ _ s1 s1 tt) by done.
      destruct (IH s1 els Hk1 ltac:(simpl; lia) ltac:(simpl; lia)) as (s' & l & ?). by exists s', l.
    + destruct (enqueue_char_run a s1 els c Hk1 ltac:(lia) ltac:(simpl; lia))
        as (s2 & E2 & Hp2 & Hs2 & Hor & Hcap2 & Hsame). rewrite (M_bind_run _ _ _ _ _ E2).
      cbn [s1 kb_pending kb_shift stdio_que] in Hp2, Hs2, Hcap2, Hsame, Hor.
      destruct Hor as [Hk2|[Hk2 Hfull]].
      * destruct (IH s2 (els ++ [[c]]) Hk2) as (s' & l & E' & Hp' & Hs' & Hk' & Hsub & Hall);
          [rewrite Hp2; lia|rewrite Hp2, length_app; simpl; lia|].
        rewrite Hp2, Hs2 in *. exists s', (c :: l). split_and!; try done.
        -- by rewrite <-app_assoc in Hk'.
        -- by constructor.
        -- intros Hroom. f_equal. apply Hall. rewrite length_app, Hsame; simpl in *; lia.
      * destruct (IH s2 els Hk2) as (s' & l & E' & Hp' & Hs' & Hk' & Hsub & Hall);
          [rewrite Hp2; lia|rewrite Hp2; lia|].
        rewrite Hp2, Hs2 in *. exists s', l. split_and!; try done; [by constructor|]. intros Hroom. simpl in Hroom. lia.
Qed.
End Drain.

(** The keyboard interrupt drains the controller: it always returns, the
    controller is empty afterwards, the modifiers are those of the whole
    sequence of codes, and the characters of the codes have been appended to
    [stdio_que] in order, all of them if the queue has room; a character is
    lost only when the queue is full and cannot grow.  (The bound keeps the
    size of the ring within 32 bits.) *)
Theorem keyboard_drains `{KHeap} (a : Z) (s : kbd) (els : list (list Z)) :
  kbd_ok a s els ->
  2 * Z.max (q_capacity (stdio_que s)) (2 * (length els + length (kb_pending s))) < 2 ^ 30 ->
  exists s' l, keyboard_irq_handler a s = Ret (tt, s') /\ kb_pending s' = [] /\
    kb_shift s' = shift_after (kb_shift s) (kb_pending s) /\ kbd_ok a s' (els ++ map (fun c => [c]) l) /\
    sublist l (typed (kb_shift s) (kb_pending s)) /\
    (length els + length (typed (kb_shift s) (kb_pending s)) < q_capacity (stdio_que s) ->
     l = typed (kb_shift s) (kb_pending s)).
Proof.
  intros Hk Hcap. unfold keyboard_irq_handler, keyboard_read_all_buffer.
  rewrite (M_bind_run _ _ s s s) by done. by apply read_loop_run; [|lia|].
Qed.

(** C39. What a call of [keyboard_device_getc] returns and leaves: with seven
    bits of modifiers and bytes in the controller, -1 and nothing changed
    when there is no data, otherwise a byte (0 for no character) with one
    scan code less; the modifiers stay seven bits and the queue and its
    memory are not touched. *)
Theorem keyboard_getc_type (s : kbd) :
  0 <= kb_shift s < 128 -> byte_list (kb_pending s) ->
  exists c s', keyboard_device_getc s = Ret (c, s') /\
    (kb_pending s = [] -> c = -1 /\ s' = s) /\ (kb_pending s <> [] -> 0 <= c < 256) /\
    kb_pending s' = tail (kb_pending s) /\ 0 <= kb_shift s' < 128 /\ byte_list (kb_pending s') /\
    kb_mem s' = kb_mem s /\ stdio_que s' = stdio_que s.
Proof.
  intros Hs Hc. unfold keyboard_device_getc, mget, mbind, M_bind. destruct (kb_pending s) as [|d l] eqn:E.
  - exists (-1), s. rewrite E. split; [done|]. split; [done|]. split; [intros Hne; by destruct Hne|]. split_and!; done || lia.
  - apply Forall_cons in Hc as [Hd Hc]. destruct (key_step_types _ _ Hs Hd) as [Ht1 Ht2].
    destruct (key_step (kb_shift s) d) as [[sh c] rb]. simpl in *.
    destruct rb; eexists _, _; (split; [reflexivity|]); split_and!; simpl; intros; done || lia.
Qed.

(** *** Shift held down, "a", Shift released, "a" *)

Lemma key_letters_witness : key_step SHIFT 0x1E = (SHIFT, 65, false).
Proof. apply (key_letters SHIFT 0x1E); [done|lia|done|done]. Defined.

Definition ring8 : queue := Queue 100 1 0 0 8.
Definition mem_ring : cmem := CMem (blit 100 [0; 0; 0; 0; 0; 0; 0; 0] (blit 200 [0] ∅)) (<[100 := 8]> ∅).
Definition kbd0 : kbd := Kbd [0x2A; 0x1E; 0xAA; 0x1E] 0 [] mem_ring ring8.

Lemma kbd0_ok : kbd_ok 200 kbd0 [].
Proof.
  split; [|done|by exists 0|by right|done|byte_list_tac].
  split; try done.
  split.
  - intros x n E. cbn [kb_mem kbd0 mem_ring blocks] in E. apply lookup_insert_Some in E as [[<- <-]|[_ E]]; [|by rewrite lookup_empty in E].
    split; [done|]. intros i Hi.
    assert (i = 0 \/ i = 1 \/ i = 2 \/ i = 3 \/ i = 4 \/ i = 5 \/ i = 6 \/ i = 7) as Hc by lia.
    repeat destruct Hc as [->|Hc]; [by eexists..|]. subst i. by eexists.
  - intros x n y k Ex Ey Hne. cbn [kb_mem kbd0 mem_ring blocks] in Ex, Ey.
    apply lookup_insert_Some in Ex as [[<- _]|[_ Ex]]; [|by rewrite lookup_empty in Ex].
    apply lookup_insert_Some in Ey as [[<- _]|[_ Ey]]; [done|by rewrite lookup_empty in Ey].
Qed.

Lemma keyboard_getc_type_witness :
  exists c s', keyboard_device_getc kbd0 = Ret (c, s') /\
    (kb_pending kbd0 = [] -> c = -1 /\ s' = kbd0) /\ (kb_pending kbd0 <> [] -> 0 <= c < 256) /\
    kb_pending s' = tail (kb_pending kbd0) /\ 0 <= kb_shift s' < 128 /\ byte_list (kb_pending s') /\
    kb_mem s' = kb_mem kbd0 /\ stdio_que s' = stdio_que kbd0.
Proof. apply (keyboard_getc_type kbd0); [done|exact (ko_codes _ _ _ kbd0_ok)]. Defined.

Lemma keyboard_drains_witness :
  exists s' l, @keyboard_irq_handler bump_heap 200 kbd0 = Ret (tt, s') /\ kbd_ok 200 s' (map (fun c => [c]) l) /\ l = [65; 97].
Proof.
  destruct (@keyboard_drains bump_heap 200 kbd0 [] kbd0_ok) as (s' & l & E & _ & _ & Hk & _ & Hl); [done|].
  exists s', l. split; [exact E|]. split; [exact Hk|]. apply Hl. reflexivity.
Defined.
