(* ===== verification/Console.v ===== *)
(** * The console (kernel/stdio.c, kernel/serial.c, include/stdio.h)

    Output goes to the serial port, which has to be polled until its
    transmitter is ready; input comes from the serial port and from the
    queue the keyboard interrupt fills.  [printk] prints strings up to an
    end marker; [ch], [dec] and [hex] format into one of 128 static buffers
    that are used in turn; [readline] reads a line into a growing string
    and echoes it.

    The transmitter is busy for [delay] reads of the line status after each
    character.  When there is no input, [readchar] halts until an interrupt;
    no interrupt arrives in this model, so it waits for ever ([Spin]). *)

From stdpp Require Import base numbers list gmap.
From Stdlib Require Import ZArith Lia.
From S2P Require Import Prelude Lock CMem CString KString Queue.

Open Scope Z_scope.

#[local] Coercion Z.of_nat : nat >-> Z.

Definition STDIO_MAX_ARGS : Z := 128.
Definition LSR_RXRDY : Z := 0x01.
Definition LSR_TXRDY : Z := 0x20.

(** [con_rx]: what the serial port has received; [con_tx]: what it has sent,
    the last character first; [con_index]: the variable [index]. *)
Record console := Console {
  con_mem : cmem;
  con_rx : list Z;
  con_busy : nat;
  con_tx : list Z;
  con_que : queue;
  con_index : Z;
  pr_lock : Z
}.

Definition with_mem (m : cmem) (s : console) : console :=
  Console m (con_rx s) (con_busy s) (con_tx s) (con_que s) (con_index s) (pr_lock s).
Definition with_rx (l : list Z) (s : console) : console :=
  Console (con_mem s) l (con_busy s) (con_tx s) (con_que s) (con_index s) (pr_lock s).
Definition with_tx (n : nat) (l : list Z) (s : console) : console :=
  Console (con_mem s) (con_rx s) n l (con_que s) (con_index s) (pr_lock s).
Definition with_que (q : queue) (s : console) : console :=
  Console (con_mem s) (con_rx s) (con_busy s) (con_tx s) q (con_index s) (pr_lock s).
Definition with_index (i : Z) (s : console) : console :=
  Console (con_mem s) (con_rx s) (con_busy s) (con_tx s) (con_que s) i (pr_lock s).
Definition with_lock (c : Z) (s : console) : console :=
  Console (con_mem s) (con_rx s) (con_busy s) (con_tx s) (con_que s) (con_index s) c.

Definition on_mem {A} (m : M cmem A) : M console A := zoom con_mem with_mem m.

Section Console.
Context `{KHeap} (delay : nat) (g_out_buf line_end tmp : Z).

(** The line status register. *)
Definition serial_lsr : M console Z := fun s =>
  Ret (Z.lor (if con_rx s then 0 else LSR_RXRDY) (match con_busy s with O => LSR_TXRDY | S _ => 0 end),
       with_tx (pred (con_busy s)) (con_tx s) s).

Definition serial_received : M console Z := st ← serial_lsr; mret (Z.land st LSR_RXRDY).
Definition is_transmit_empty : M console Z := st ← serial_lsr; mret (Z.land st LSR_TXRDY).

Fixpoint transmit_loop (fuel : nat) : M console unit :=
  match fuel with
  | O => fun _ => Spin
  | S fuel => r ← is_transmit_empty; if r =? 0 then transmit_loop fuel else mret tt
  end.
Definition serial_putc (c : Z) : M console unit :=
  s ← mget;
  _ ← transmit_loop (S (con_busy s));
  mmod (fun s => with_tx delay (u8 c :: con_tx s) s).

(** The receive buffer reads as 0 when it is empty. *)
Definition serial_getc : M console Z :=
  s ← mget;
  match con_rx s with
  | [] => mret 0
  | c :: l => _ ← mput (with_rx l s); mret (if c =? 13 then 10 else c)
  end.

Definition putchar (c : Z) : M console unit := serial_putc c.

Fixpoint puts_loop (fuel : nat) (p r : Z) : M console Z :=
  match fuel with
  | O => fun _ => Spin
  | S fuel =>
      b ← on_mem (rdb p);
      if b =? 0 then mret r else _ ← putchar b; puts_loop fuel (p + 1) (s32 (r + 1))
  end.
Definition puts (p : Z) : M console Z :=
  if p =? 0 then mret 0 else s ← mget; puts_loop (scan_fuel (con_mem s)) p 0.

(** The loop of [print_args]; reading an argument behind the last one is
    undefined. *)
Fixpoint args_loop (args : list Z) (p n ret : Z) : M console Z :=
  if negb (p =? line_end) && (n <=? STDIO_MAX_ARGS) then
    match args with
    | [] => fun _ => Fault
    | a :: args => r ← puts a; args_loop args a (n + 1) (s32 (ret + r))
    end
  else mret ret.

Definition print_args (args : list Z) : M console Z :=
  s ← mget;
  c ← mlift (spin_lock (pr_lock s));
  _ ← mmod (with_lock c);
  ret ← args_loop args 0 0 0;
  _ ← mmod (fun s => with_lock (spin_unlock (pr_lock s)) s);
  mret ret.

(** [printk(...)]: the end marker follows the arguments. *)
Definition printk (args : list Z) : M console Z := print_args (args ++ [line_end]).

Definition get_out_string : M console string :=
  s ← mget;
  let i := Z.rem (con_index s + 1) STDIO_MAX_ARGS in
  _ ← mput (with_index i s);
  mret (ksinit (g_out_buf + 128 * i) 128).

Definition ch (c : Z) : M console Z :=
  s ← get_out_string;
  r ← on_mem (ksappend_char s c);
  mret (str r.2).

(** [dequeue(stdio_que, char)]: [tmp] is the variable of the macro. *)
Definition dequeue_char : M console Z :=
  s ← mget;
  r ← on_mem (dequeue (con_que s) tmp);
  _ ← mmod (with_que r.2);
  on_mem (rdb tmp).

Definition readchar : M console Z :=
  r ← serial_received;
  if negb (r =? 0) then serial_getc
  else
    s ← mget;
    if negb (queue_empty (con_que s)) then dequeue_char else fun _ => Spin.

Fixpoint readline_loop (fuel : nat) (st : string) : M console string :=
  match fuel with
  | O => fun _ => Spin
  | S fuel =>
      c ← readchar;
      p ← ch c;
      _ ← printk [p];
      if c =? 10 then mret st
      else r ← on_mem (ksappend_char st c); readline_loop fuel r.2
  end.

(** [readline(s)] on the string [st]: [prompt] is the address of the prompt.
    The fuel is the number of characters that can be read. *)
Definition readline (prompt : Z) (st : string) : M console string :=
  _ ← printk [prompt];
  s ← mget;
  n ← mlift (queue_size (con_que s));
  readline_loop (length (con_rx s) + Z.to_nat n) (Str (str st) 0 (str_capacity st)).

(** ** Printing *)

(** [s'] is [s] after the characters [l] have been sent. *)
Definition sent (l : list Z) (s s' : console) : Prop :=
  exists n, s' = with_tx n (rev l ++ con_tx s) s.

Lemma sent_nil s : sent [] s s.
Proof. exists (con_busy s). by destruct s. Qed.

Lemma sent_trans l1 l2 s s1 s2 : sent l1 s s1 -> sent l2 s1 s2 -> sent (l1 ++ l2) s s2.
Proof. intros [n ->] [k ->]. exists k. unfold with_tx. cbn. by rewrite rev_app_distr, app_assoc. Qed.

Lemma transmit_run n : forall s, con_busy s = n -> transmit_loop (S n) s = Ret (tt, with_tx O (con_tx s) s).
Proof.
  induction n as [|n IH]; intros s E; cbn [transmit_loop]; unfold is_transmit_empty, serial_lsr, mbind, M_bind; rewrite E.
  - by destruct (con_rx s).
  - destruct (con_rx s); cbn [Z.lor Z.land Z.eqb LSR_RXRDY LSR_TXRDY]; change (transmit_loop (S n) (with_tx n (con_tx s) s) = Ret (tt, with_tx 0 (con_tx s) s));
      by rewrite IH.
Qed.

Lemma putc_run s c : 0 <= c < 256 -> exists s', putchar c s = Ret (tt, s') /\ sent [c] s s'.
Proof.
  intros Hc. unfold putchar, serial_putc. rewrite (M_bind_run _ _ s s s) by done.
  rewrite (M_bind_run _ _ _ _ _ (transmit_run _ s eq_refl)). eexists. split; [reflexivity|].
  exists delay. cbn. by rewrite wrap_small.
Qed.

Lemma rdb_con s p x : bytes (con_mem s) !! p = Some x -> on_mem (rdb p) s = Ret (x, s).
Proof. intros E. unfold on_mem. rewrite (zoom_run con_mem with_mem _ s _ _ (rdb_run _ _ _ E)). by destruct s. Qed.

Lemma puts_loop_run l : forall fuel s p r, cstr (bytes (con_mem s)) p l -> (length l < fuel)%nat -> 0 <= r -> r + length l < 2 ^ 31 ->
  exists s', puts_loop fuel p r s = Ret (r + length l, s') /\ sent l s s'.
Proof.
  induction l as [|c l IH]; intros fuel s p r [Ha Hc] Hf Hr Hl; (destruct fuel as [|fuel]; [simpl in Hf; lia|]);
    cbn [puts_loop]; apply arr_cons in Ha as [E Ha]; rewrite (M_bind_run _ _ _ _ _ (rdb_con _ _ _ E)).
  - exists s. split; [cbn; by rewrite Z.add_0_r|apply sent_nil].
  - apply Forall_cons in Hc as [Hc0 Hc]. replace (c =? 0) with false by lia. cbn [length] in *.
    destruct (putc_run s c ltac:(lia)) as (s1 & E1 & S1). rewrite (M_bind_run _ _ _ _ _ E1).
    assert (Er : s32 (r + 1) = r + 1).
    { unfold sext. rewrite wrap_small by (unfold fits; lia). by replace (r + 1 <? 2 ^ (32 - 1)) with true by lia. }
    rewrite Er. destruct (IH fuel s1 (p + 1) (r + 1)) as (s2 & E2 & S2); [|lia|lia|lia|].
    + destruct S1 as [n ->]. by split.
    + exists s2. split; [rewrite E2; do 2 f_equal; lia|]. exact (sent_trans [c] l _ _ _ S1 S2).
Qed.

Lemma puts_run s p l : cstr (bytes (con_mem s)) p l -> 0 < p -> length l < 2 ^ 31 ->
  exists s', puts p s = Ret (Z.of_nat (length l), s') /\ sent l s s'.
Proof.
  intros Hc Hp Hl. unfold puts. replace (p =? 0) with false by lia. rewrite (M_bind_run _ _ s s s) by done.
  pose proof (cstr_fuel _ _ _ Hc). apply (puts_loop_run l _ s p 0 Hc); [unfold scan_fuel|..]; lia.
Qed.

Lemma args_run args : forall ls s p n ret,
  Forall2 (fun a l => cstr (bytes (con_mem s)) a l /\ 0 < a /\ a <> line_end) args ls ->
  cstr (bytes (con_mem s)) line_end [] -> 0 < line_end -> p <> line_end ->
  0 <= n -> n + length args <= STDIO_MAX_ARGS -> 0 <= ret -> ret + length (concat ls) < 2 ^ 31 ->
  exists s', args_loop (args ++ [line_end]) p n ret s = Ret (ret + length (concat ls), s') /\ sent (concat ls) s s'.
Proof.
  induction args as [|a args IH]; intros ls s p n ret Ha He Hpe Hp Hn Hm Hr Hl; cbn [app args_loop].
  - apply Forall2_nil_inv_l in Ha as ->. cbn [length] in Hm. replace (negb (p =? line_end) && (n <=? STDIO_MAX_ARGS)) with true by lia.
    destruct (puts_run s line_end [] He Hpe ltac:(done)) as (s1 & E1 & S1). rewrite (M_bind_run _ _ _ _ _ E1).
    cbn [args_loop]. rewrite Z.eqb_refl. cbn [negb andb concat length]. exists s1. cbn [concat length] in Hl.
    assert (s32 (ret + O) = ret + O) as ->.
    { unfold sext. rewrite wrap_small by (unfold fits; lia). by replace (ret + O <? 2 ^ (32 - 1)) with true by lia. }
    by split.
  - apply Forall2_cons_inv_l in Ha as (l & ls' & (Hc & Ha0 & Hae) & Ha & ->). cbn [length concat] in *. rewrite length_app in Hl.
    replace (negb (p =? line_end) && (n <=? STDIO_MAX_ARGS)) with true by lia.
    destruct (puts_run s a l Hc Ha0 ltac:(lia)) as (s1 & E1 & S1). rewrite (M_bind_run _ _ _ _ _ E1).
    assert (s32 (ret + length l) = ret + length l) as ->.
    { unfold sext. rewrite wrap_small by (unfold fits; lia). by replace (ret + length l <? 2 ^ (32 - 1)) with true by lia. }
    destruct (IH ls' s1 a (n + 1) (ret + length l)) as (s2 & E2 & S2); [|by destruct S1 as [k ->]|done|done|lia|lia|lia|lia|].
    + destruct S1 as [k ->]. exact Ha.
    + exists s2. split; [rewrite E2, length_app; do 2 f_equal; lia|]. exact (sent_trans _ _ _ _ _ S1 S2).
Qed.

Lemma printk_run s args ls :
  Forall2 (fun a l => cstr (bytes (con_mem s)) a l /\ 0 < a /\ a <> line_end) args ls ->
  cstr (bytes (con_mem s)) line_end [] -> 0 < line_end -> pr_lock s = 0 ->
  length args <= STDIO_MAX_ARGS -> length (concat ls) < 2 ^ 31 ->
  exists s', printk args s = Ret (Z.of_nat (length (concat ls)), s') /\ sent (concat ls) s s'.
Proof.
  intros Ha He Hpe Hl Hm Hb. unfold printk, print_args. rewrite (M_bind_run _ _ s s s) by done. rewrite Hl.
  rewrite (M_bind_run _ _ s s 1) by done. rewrite (M_bind_run _ _ s (with_lock 1 s) tt) by done.
  destruct (args_run args ls (with_lock 1 s) 0 0 0 Ha He Hpe ltac:(lia) ltac:(lia) ltac:(lia) ltac:(lia) ltac:(lia)) as (s1 & E1 & [n ->]).
  rewrite (M_bind_run _ _ _ _ _ E1). eexists. split; [reflexivity|]. exists n. destruct s. cbn in Hl. by subst.
Qed.

(** [printk] prints its arguments: with the lock free and at most 128
    strings, it sends exactly their characters, in order, over the serial
    port, however long the transmitter is busy, returns their number and
    leaves the lock free and memory unchanged. *)
Theorem printk_ok (s : console) (args : list Z) (ls : list (list Z)) :
  Forall2 (fun a l => cstr (bytes (con_mem s)) a l /\ 0 < a /\ a <> line_end) args ls ->
  cstr (bytes (con_mem s)) line_end [] -> 0 < line_end -> pr_lock s = 0 ->
  length args <= STDIO_MAX_ARGS -> length (concat ls) < 2 ^ 31 ->
  exists s', printk args s = Ret (Z.of_nat (length (concat ls)), s') /\ sent (concat ls) s s'.
Proof. apply printk_run. Qed.

(** ** Reading a line *)

(** Carriage return becomes newline. *)
Definition crlf (c : Z) : Z := if c =? 13 then 10 else c.

(** The characters that can be read, in the order in which they are read:
    the serial port comes first. *)
Definition stream (s : console) (keys : list Z) : list Z := map crlf (con_rx s) ++ keys.

(** The string at [st] with the text [l], which is terminated unless it is
    empty. *)
Record line_rep (m : cmem) (st : string) (l : list Z) : Prop := LineRep {
  lr_heap : heap_ok m;
  lr_block : blocks m !! str st = Some (str_capacity st);
  lr_pos : 0 < str st /\ str_capacity st < 2 ^ 30;
  lr_len : str_length st = length l /\ length l < str_capacity st;
  lr_text : arr (bytes m) (str st) l /\ char_list l /\ (l <> [] -> cstr (bytes m) (str st) l)
}.

(** Where everything is: the output buffers, the variable of [dequeue], the
    empty string that ends the arguments, the line and the queue's ring. *)
Record layout (st : string) (q : queue) : Prop := Layout {
  ly_pos : 0 < line_end /\ 0 < g_out_buf;
  ly_out : str_apart st g_out_buf 16384 /\ que_apart q g_out_buf 16384;
  ly_tmp : str_apart st tmp 1 /\ que_apart q tmp 1 /\ (tmp < g_out_buf \/ g_out_buf + 16384 <= tmp);
  ly_end : str_apart st line_end 1 /\ line_end <> tmp /\ (line_end < g_out_buf \/ g_out_buf + 16384 <= line_end);
  ly_que : str st <> q_base q
}.

Record con_ok (s : console) (st : string) (l keys : list Z) : Prop := ConOk {
  co_line : line_rep (con_mem s) st l;
  co_que : que_rep (con_mem s) (con_que s) (map (fun c => [c]) keys) /\ q_element_size (con_que s) = 1;
  co_in : char_list (con_rx s) /\ char_list keys;
  co_out : mapped (bytes (con_mem s)) g_out_buf 16384;
  co_tmp : is_Some (bytes (con_mem s) !! tmp);
  co_end : cstr (bytes (con_mem s)) line_end [];
  co_index : 0 <= con_index s < 128;
  co_lock : pr_lock s = 0;
  co_layout : layout st (con_que s)
}.

Lemma line_rep_write m st l p k : line_rep m st l -> str_apart st p (length k) ->
  line_rep (put_bytes (blit p k (bytes m)) m) st l.
Proof.
  intros [Hh Hb Hp [Hl Hc] (Ha & Hch & Ht)] Hap. unfold str_apart in Hap. split; try done; [by apply heap_ok_blit|].
  split_and!; [|done|intros Hne; specialize (Ht Hne)].
  - eapply arr_frame; [|exact Ha]. intros a Hin. apply blit_out. lia.
  - eapply cstr_frame; [|exact Ht]. intros a Hin. apply blit_out. lia.
Qed.

(** Writing to a place apart from the line, the ring and the end marker. *)
Lemma con_ok_write s st l keys p k : con_ok s st l keys ->
  str_apart st p (length k) -> que_apart (con_que s) p (length k) -> ~ p <= line_end < p + length k ->
  con_ok (with_mem (put_bytes (blit p k (bytes (con_mem s))) (con_mem s)) s) st l keys.
Proof.
  intros [L [Q Q1] I O T E X K Y] H1 H2 H3. split; try done; cbn [con_mem with_mem con_que].
  - by apply line_rep_write.
  - split; [by apply que_rep_write|done].
  - by apply mapped_blit.
  - rewrite <-(Z.add_0_r tmp). apply (mapped_blit _ p k tmp 1); [|lia]. intros i Hi. by replace (tmp + i) with tmp by lia.
  - eapply cstr_frame; [|exact E]. intros a Ha. apply blit_out. cbn [length] in Ha. assert (a = line_end) as -> by lia. lia.
Qed.

Lemma con_ok_sent s s' st l keys k : con_ok s st l keys -> sent k s s' -> con_ok s' st l keys.
Proof. intros [? ? ? ? ? ? ? ? ?] [n ->]. by split. Qed.

Lemma on_mem_run {A} (m : M cmem A) s r m' : m (con_mem s) = Ret (r, m') -> on_mem m s = Ret (r, with_mem m' s).
Proof. apply zoom_run. Qed.

(** [ch(c)] followed by [printk]: the character is sent. *)
Lemma echo_run s st l keys c : con_ok s st l keys -> 0 < c < 256 ->
  exists p s1 s2, ch c s = Ret (p, s1) /\ printk [p] s1 = Ret (1, s2) /\ con_ok s2 st l keys /\
    con_rx s2 = con_rx s /\ con_que s2 = con_que s /\ con_tx s2 = c :: con_tx s.
Proof.
  intros K Hc. pose proof (co_index _ _ _ _ K) as Hi. set (i := Z.rem (con_index s + 1) STDIO_MAX_ARGS).
  assert (Hi' : 0 <= i < 128) by (unfold i, STDIO_MAX_ARGS; rewrite Z.rem_mod_nonneg by lia; apply Z.mod_pos_bound; lia).
  set (p := g_out_buf + 128 * i). destruct (co_layout _ _ _ _ K) as [[Le Lg] [Lo1 Lo2] [Lt1 [Lt2 Lt3]] (L1 & L2 & L3) Lq].
  assert (Hm : mapped (bytes (con_mem s)) p 128) by (eapply mapped_sub; [exact (co_out _ _ _ _ K)|unfold p; lia|unfold p; lia]).
  set (m1 := put_bytes (blit p [c; 0] (bytes (con_mem s))) (con_mem s)). set (s1 := with_mem m1 (with_index i s)).
  assert (E1 : ch c s = Ret (p, s1)).
  { unfold ch, get_out_string. rewrite M_bind_assoc, (M_bind_run _ _ s s s) by done. fold i.
    rewrite M_bind_assoc, (M_bind_run _ _ s (with_index i s) tt) by done.
    rewrite (M_bind_run _ _ (with_index i s) (with_index i s) (ksinit p 128)) by done.
    pose proof (append_char_run (con_mem s) (ksinit p 128) [] c eq_refl ltac:(done) ltac:(done) ltac:(lia) Hm) as Ea.
    cbn [ksinit str length] in Ea. change (Z.of_nat 0) with 0 in Ea. rewrite Z.add_0_r in Ea.
    by rewrite (M_bind_run _ _ _ _ _ (on_mem_run _ (with_index i s) _ _ Ea)). }
  assert (K1 : con_ok s1 st l keys).
  { assert (K0 : con_ok (with_index i s) st l keys) by (destruct K; by split).
    apply (con_ok_write _ _ _ _ p [c; 0]) in K0; [exact K0|..].
    - unfold str_apart, p in *. cbn [length]. lia.
    - unfold que_apart, p in *. cbn [length with_index con_que]. lia.
    - unfold p. cbn [length]. lia. }
  assert (Hp : cstr (bytes (con_mem s1)) p [c]).
  { split; [|apply Forall_cons; split; [done|by apply Forall_nil]]. apply (arr_blit p [c; 0]). }
  destruct (printk_run s1 [p] [[c]]) as (s2 & E2 & S2).
  - constructor; [|constructor]. split; [done|]. unfold p. lia.
  - exact (co_end _ _ _ _ K1).
  - done.
  - exact (co_lock _ _ _ _ K1).
  - done.
  - done.
  - exists p, s1, s2. split; [exact E1|]. split; [exact E2|]. split; [by eapply con_ok_sent|]. by destruct S2 as [n ->].
Qed.

Lemma layout_ring st q q' : layout st q -> q_base q' = q_base q -> q_element_size q' = q_element_size q ->
  q_capacity q' = q_capacity q -> layout st q'.
Proof. intros [B1 B2 B3 B4 B5] E1 E2 E3. unfold que_apart in *. split; unfold que_apart; rewrite ?E1, ?E2, ?E3; done. Qed.

Lemma serial_received_run s :
  serial_received s = Ret (match con_rx s with [] => 0 | _ => 1 end, with_tx (pred (con_busy s)) (con_tx s) s).
Proof. unfold serial_received, serial_lsr, mbind, M_bind. by destruct (con_rx s), (con_busy s). Qed.

(** [readchar] takes the first character of the stream. *)
Lemma readchar_run s st l keys c rest : con_ok s st l keys -> stream s keys = c :: rest ->
  exists s' keys', readchar s = Ret (c, s') /\ con_ok s' st l keys' /\ stream s' keys' = rest /\ con_tx s' = con_tx s /\ 0 < c < 256 /\
    (length (con_rx s') + length keys' < length (con_rx s) + length keys)%nat.
Proof.
  intros K Hs. unfold readchar. rewrite (M_bind_run _ _ _ _ _ (serial_received_run s)).
  set (s0 := with_tx (pred (con_busy s)) (con_tx s) s).
  assert (K0 : con_ok s0 st l keys) by (destruct K; by split).
  destruct (co_in _ _ _ _ K) as [I1 I2]. unfold stream in Hs. destruct (con_rx s) as [|b rx] eqn:Er.
  - cbn in Hs. subst keys. apply Forall_cons in I2 as [Hc I2].
    cbn [Z.eqb negb]. destruct (co_que _ _ _ _ K0) as [Q Q1].
    assert (En : queue_empty (con_que s0) = false) by (rewrite (queue_empty_run _ _ _ Q); by apply bool_decide_false).
    rewrite (M_bind_run _ _ s0 s0 s0), En by done. cbn [negb].
    destruct (co_layout _ _ _ _ K0) as [Lp Lo [Lt1 [Lt2 Lt3]] (L1 & L2 & L3) Lq].
    pose proof (dequeue_tail (con_mem s0) (con_que s0) [c] (map (fun c => [c]) rest) tmp Q) as D. rewrite Q1 in D.
    destruct D as (q' & Ed & Qd & Qb); [intros i Hi; replace (tmp + i) with tmp by lia; exact (co_tmp _ _ _ _ K0)|done|].
    unfold dequeue_char. rewrite (M_bind_run _ _ s0 s0 s0) by done.
    rewrite (M_bind_run _ _ _ _ _ (on_mem_run _ _ _ _ Ed)). cbn [snd].
    set (m1 := put_bytes (blit tmp [c] (bytes (con_mem s0))) (con_mem s0)). set (s1 := with_que q' (with_mem m1 s0)).
    rewrite (M_bind_run _ _ (with_mem m1 s0) s1 tt) by done.
    rewrite (rdb_con s1 tmp c) by apply lookup_insert_eq.
    pose proof (con_ok_write s0 st l (c :: rest) tmp [c] K0 Lt1 Lt2 ltac:(cbn; lia)) as K1.
    exists s1, rest. split; [done|]. split; [|split; [unfold stream; cbn; by rewrite Er|split; [done|split; [done|cbn; rewrite Er; cbn; lia]]]].
    destruct K1 as [A1 A2 A3 A4 A5 A6 A7 A8 A9]. destruct Qb as (Qb1 & Qb2 & Qb3). split; try done.
    + cbn. rewrite Er. split; [by apply Forall_nil|done].
    + eapply layout_ring; [exact A9|exact Qb1|by etransitivity; [exact Qb2|symmetry; exact Q1]|exact Qb3].
  - cbn in Hs. injection Hs as <- <-. apply Forall_cons in I1 as [Hb I1].
    cbn [Z.eqb negb]. unfold serial_getc. rewrite (M_bind_run _ _ s0 s0 s0) by done.
    change (con_rx s0) with (con_rx s). rewrite Er. rewrite (M_bind_run _ _ s0 (with_rx rx s0) tt) by done.
    exists (with_rx rx s0), keys. split; [done|]. split; [|].
    + destruct K0. by split.
    + split; [done|]. split; [done|]. split; [unfold crlf; destruct (b =? 13); lia|]. cbn. lia.
Qed.


(** Storing a character of the line. *)
Lemma store_char_run s st l keys c : con_ok s st l keys -> 0 < c < 256 -> length l + 1 < str_capacity st ->
  let st' := Str (str st) (length l + 1) (str_capacity st) in
  exists s', on_mem (ksappend_char st c) s = Ret ((0, st'), s') /\ con_ok s' st' (l ++ [c]) keys /\
    con_rx s' = con_rx s /\ con_tx s' = con_tx s /\ con_que s' = con_que s.
Proof.
  intros [L [Q Q1] I O T E X K Y] Hc Hr st'. destruct L as [Lh Lb [Lp Lcap] [Ll Lc] (La & Lch & _)].
  pose proof (proj2 (ho_mapped _ Lh _ _ Lb)) as Hm.
  pose proof (append_char_run (con_mem s) st l c Ll Hr Lcap ltac:(lia) Hm) as Ea.
  set (m1 := put_bytes (blit (str st + length l) [c; 0] (bytes (con_mem s))) (con_mem s)) in Ea.
  exists (with_mem m1 s). split; [by apply on_mem_run|]. split; [|done].
  assert (Ht : cstr (bytes m1) (str st) (l ++ [c])).
  { split; [|apply Forall_app; split; [done|apply Forall_cons; split; [lia|by apply Forall_nil]]].
    rewrite <-app_assoc. apply arr_app. split; [|apply (arr_blit _ [c; 0])].
    eapply arr_frame; [|exact La]. intros a Ha. apply blit_out. lia. }
  destruct Y as [Y1 [Y2 Y3] [Y4 [Y5 Y6]] (Y7 & Y8 & Y9) Yq]. pose proof (qr_block _ _ _ Q) as Qb.
  assert (Hq : que_apart (con_que s) (str st + length l) (length [c; 0])).
  { pose proof (ho_disjoint _ Lh _ _ _ _ Lb Qb Yq). unfold que_apart. cbn [length]. lia. }
  unfold str_apart in *. split; cbn [with_mem con_mem con_que con_rx con_index pr_lock]; try done.
  - split; cbn [st' str str_capacity str_length].
    + by apply heap_ok_blit.
    + exact Lb.
    + done.
    + rewrite length_app. cbn [length]. lia.
    + split; [apply (proj1 (arr_app _ _ _ _) (proj1 Ht))|]. split; [exact (proj2 Ht)|done].
  - split; [by apply que_rep_write|done].
  - by apply mapped_blit.
  - rewrite <-(Z.add_0_r tmp). apply (mapped_blit _ _ _ tmp 1); [|lia]. intros i Hi. by replace (tmp + i) with tmp by lia.
  - eapply cstr_frame; [|exact E]. intros a Ha. apply blit_out. cbn [length] in *. lia.
Qed.

Lemma readline_loop_run l : forall fuel s st l0 keys rest,
  con_ok s st l0 keys -> stream s keys = l ++ 10 :: rest -> 10 ∉ l -> length l0 + length l < str_capacity st ->
  (length (con_rx s) + length keys <= fuel)%nat ->
  exists s' st' keys', readline_loop fuel st s = Ret (st', s') /\ con_ok s' st' (l0 ++ l) keys' /\
    str st' = str st /\ stream s' keys' = rest /\ con_tx s' = rev (l ++ [10]) ++ con_tx s.
Proof.
  induction l as [|c l IH]; intros fuel s st l0 keys rest K Hs Hn Hl Hf.
  - destruct (readchar_run s st l0 keys 10 rest K Hs) as (s1 & keys' & E1 & K1 & Hs1 & Ht1 & Hc & Hlt).
    destruct fuel as [|fuel]; [lia|]. cbn [readline_loop]. rewrite (M_bind_run _ _ _ _ _ E1).
    destruct (echo_run s1 st l0 keys' 10 K1 ltac:(lia)) as (p & s2 & s3 & E2 & E3 & K3 & Hrx & Hq & Ht).
    rewrite (M_bind_run _ _ _ _ _ E2), (M_bind_run _ _ _ _ _ E3). exists s3, st, keys'. rewrite app_nil_r.
    split; [done|]. split; [done|]. split; [done|]. unfold stream in *. rewrite Hrx, Ht, Ht1. done.
  - destruct (readchar_run s st l0 keys c (l ++ 10 :: rest) K Hs) as (s1 & keys1 & E1 & K1 & Hs1 & Ht1 & Hc & Hlt).
    destruct fuel as [|fuel]; [lia|]. cbn [readline_loop]. rewrite (M_bind_run _ _ _ _ _ E1).
    destruct (echo_run s1 st l0 keys1 c K1 Hc) as (p & s2 & s3 & E2 & E3 & K3 & Hrx & Hq & Ht).
    rewrite (M_bind_run _ _ _ _ _ E2), (M_bind_run _ _ _ _ _ E3).
    apply not_elem_of_cons in Hn as [Hc10 Hn]. replace (c =? 10) with false by lia. cbn [length] in Hl.
    destruct (store_char_run s3 st l0 keys1 c K3 Hc ltac:(lia)) as (s4 & E4 & K4 & Hrx4 & Ht4 & Hq4).
    rewrite (M_bind_run _ _ _ _ _ E4). cbn [snd].
    destruct (IH fuel s4 (Str (str st) (length l0 + 1) (str_capacity st)) (l0 ++ [c]) keys1 rest K4)
      as (s5 & st' & keys' & E5 & K5 & Hst & Hs5 & Ht5).
    + unfold stream in *. by rewrite Hrx4, Hrx.
    + done.
    + rewrite length_app. cbn [length str_capacity]. lia.
    + rewrite Hrx4, Hrx. lia.
    + exists s5, st', keys'. split; [exact E5|]. rewrite <-app_assoc in K5. split; [exact K5|]. split; [exact Hst|].
      split; [exact Hs5|]. rewrite Ht5, Ht4, Ht, Ht1. cbn [app rev]. by rewrite <-app_assoc.
Qed.

(** C28. [readline] reads a line: when the input, serial port first, is a line
    shorter than the string's buffer and a newline, it returns with the
    string holding exactly the line (its bytes and length; terminated unless
    the line is empty), the rest of the input is still there, and the prompt
    and every character of the line have been sent, with the newline.
    Carriage returns of the serial port count as newlines.  (A line that
    fills the buffer is written past its end: [ksappend_char_overflow] of
    KString.v.) *)
Theorem readline_ok (s : console) (st : string) (l0 keys l rest text : list Z) (prompt : Z) :
  con_ok s st l0 keys -> stream s keys = l ++ 10 :: rest -> 10 ∉ l -> length l < str_capacity st ->
  cstr (bytes (con_mem s)) prompt text -> 0 < prompt -> prompt <> line_end -> length text < 2 ^ 31 ->
  exists s' st' keys', readline prompt st s = Ret (st', s') /\ con_ok s' st' l keys' /\
    str st' = str st /\ stream s' keys' = rest /\ con_tx s' = rev (text ++ l ++ [10]) ++ con_tx s.
Proof.
  intros K Hs Hn Hl Hp Hp0 Hpe Ht. unfold readline.
  destruct (printk_run s [prompt] [text]) as (s1 & E1 & S1).
  - constructor; [done|constructor].
  - exact (co_end _ _ _ _ K).
  - apply (co_layout _ _ _ _ K).
  - exact (co_lock _ _ _ _ K).
  - done.
  - cbn [concat]. by rewrite app_nil_r.
  - rewrite (M_bind_run _ _ _ _ _ E1). cbn [concat] in S1. rewrite app_nil_r in S1.
    pose proof (con_ok_sent _ _ _ _ _ _ K S1) as K1. rewrite (M_bind_run _ _ s1 s1 s1) by done.
    rewrite (queue_size_run _ _ _ (proj1 (co_que _ _ _ _ K1))), length_map, (M_bind_run _ _ s1 s1 (Z.of_nat (length keys))), Nat2Z.id by done.
    assert (K2 : con_ok s1 (Str (str st) 0 (str_capacity st)) [] keys).
    { destruct K1 as [[Lh Lb Lp [Ll Lc] _] Q I O T E X Lk [Y1 Y2 Y3 Y4 Y5]]. split; try done.
      split; try done; cbn; [lia|]. split; [apply arr_length_0|]. split; [by apply Forall_nil|done]. }
    destruct (readline_loop_run l (length (con_rx s1) + length keys) s1 _ [] keys rest K2) as (s' & st' & keys' & E & K' & Hst & Hs' & Ht');
      [by destruct S1 as [n ->]|done|done|reflexivity|].
    exists s', st', keys'. split; [exact E|]. split; [exact K'|]. split; [exact Hst|]. split; [exact Hs'|].
    rewrite Ht'. destruct S1 as [n ->]. cbn [con_tx with_tx]. by rewrite (rev_app_distr text), app_assoc.
Qed.
End Console.

(** ** A console with a line typed on both devices *)

Definition small0 : gmap Z Z :=
  blit 100 (replicate 32 0) (blit 200 [104; 10; 0; 0; 0; 0; 0; 0] (blit 300 [0] (blit 400 [0] (blit 500 [35; 32; 0] ∅)))).
Definition con_mem0 : cmem :=
  CMem (blit 1000 (replicate (Z.to_nat 16384) 0) small0) (<[100 := 32]> (<[200 := 8]> ∅)).
Definition line0 : string := Str 100 0 32.
Definition con0 : console := Console con_mem0 [108; 115] 5 [] (Queue 200 1 0 2 8) 127 0.

Lemma con0_arr p l : arr small0 p l -> p + length l <= 1000 -> arr (bytes con_mem0) p l.
Proof. intros Ha Hp. apply arr_blit_other; [by right|exact Ha]. Qed.

Lemma small0_arr p l : bool_decide (map (fun i => small0 !! (p + Z.of_nat i)) (seq 0 (length l)) = map Some l) = true -> arr small0 p l.
Proof.
  intros E%bool_decide_eq_true i x Hi. assert (Hl := lookup_lt_Some _ _ _ Hi).
  assert (E' : map (fun i => small0 !! (p + Z.of_nat i)) (seq 0 (length l)) !! i = map Some l !! i) by by rewrite E.
  rewrite !list_lookup_fmap, lookup_seq_lt, Hi in E' by done. by injection E'.
Qed.

Lemma con0_heap : heap_ok con_mem0.
Proof.
  assert (H1 : mapped (bytes con_mem0) 100 32).
  { apply (arr_mapped _ 100 (replicate 32 0)), con0_arr; [|done]. by apply small0_arr. }
  assert (H2 : mapped (bytes con_mem0) 200 8).
  { apply (arr_mapped _ 200 [104; 10; 0; 0; 0; 0; 0; 0]), con0_arr; [|done]. by apply small0_arr. }
  split.
  - intros a n E. cbn [con_mem0 blocks] in E. apply lookup_insert_Some in E as [[<- <-]|[_ E]]; [by split|].
    apply lookup_insert_Some in E as [[<- <-]|[_ E]]; [by split|by rewrite lookup_empty in E].
  - intros a n b k Ea Eb Hne. cbn [con_mem0 blocks] in Ea, Eb.
    apply lookup_insert_Some in Ea as [[<- <-]|[_ [[<- <-]|[_ Ea]]%lookup_insert_Some]];
      apply lookup_insert_Some in Eb as [[<- <-]|[_ [[<- <-]|[_ Eb]]%lookup_insert_Some]]; try (by rewrite lookup_empty in * ); lia.
Qed.

Lemma con0_ok : con_ok 1000 400 300 con0 line0 [] [104; 10].
Proof.
  split.
  - split; [exact con0_heap|done|done|done|]. split; [apply arr_length_0|]. split; [by apply Forall_nil|done].
  - split; [|done]. split; [exact con0_heap|done|done|done|done|done|done| |].
    { repeat (apply Forall_cons; split; [split; [done|byte_list_tac]|]). by apply Forall_nil. }
    intros i e E. destruct i as [|[|i]]; [| |done]; injection E as <-; (apply con0_arr; [|done]); by apply small0_arr.
  - split; repeat (apply Forall_cons; split; [lia|]); by apply Forall_nil.
  - pose proof (arr_mapped _ _ _ (arr_blit 1000 (replicate (Z.to_nat 16384) 0) small0)) as Hm.
    rewrite length_replicate, Z2Nat.id in Hm by lia. exact Hm.
  - exists 0. assert (Ha : arr (bytes con_mem0) 300 [0]) by (apply con0_arr; [by apply small0_arr|done]).
    exact (proj1 (proj1 (arr_cons _ _ _ _) Ha)).
  - split; [|by apply Forall_nil]. apply con0_arr; [by apply small0_arr|done].
  - done.
  - done.
  - by split; unfold str_apart, que_apart; cbn; try lia.
Qed.

Lemma con0_prompt : cstr (bytes con_mem0) 500 [35; 32].
Proof. split; [apply con0_arr; [by apply small0_arr|done]|]. repeat (apply Forall_cons; split; [lia|]). by apply Forall_nil. Qed.

#[local] Existing Instance bump_heap.

Lemma readline_ok_witness :
  exists s' st' keys', readline 3 1000 400 300 500 line0 con0 = Ret (st', s') /\
    con_ok 1000 400 300 s' st' [108; 115; 104] keys' /\ stream s' keys' = [] /\
    con_tx s' = [10; 104; 115; 108; 32; 35].
Proof.
  destruct (readline_ok 3 1000 400 300 con0 line0 [] [104; 10] [108; 115; 104] [] [35; 32] 500 con0_ok eq_refl)
    as (s' & st' & keys' & E & K & _ & Hs & Ht).
  - intros Hin. repeat (apply elem_of_cons in Hin as [Hin|Hin]; [lia|]). by apply elem_of_nil in Hin.
  - cbn. lia.
  - exact con0_prompt.
  - lia.
  - lia.
  - cbn. lia.
  - exists s', st', keys'. split; [exact E|]. split; [exact K|]. split; [exact Hs|exact Ht].
Defined.

Lemma printk_ok_witness :
  exists s', printk 3 400 [500; 500] con0 = Ret (4, s') /\ sent [35; 32; 35; 32] con0 s'.
Proof.
  apply (printk_ok 3 400 con0 [500; 500] [[35; 32]; [35; 32]]).
  - repeat (constructor; [split; [exact con0_prompt|lia]|]). constructor.
  - exact (co_end _ _ _ _ _ _ _ con0_ok).
  - lia.
  - reflexivity.
  - unfold STDIO_MAX_ARGS. cbn. lia.
  - cbn. lia.
Defined.
