(* ===== verification/Debug.v ===== *)
(** * Debug information (kernel/debug.c)

    The linker puts a table of stabs into the kernel.  [debug_init] turns
    the source file entries and the function entries into two interval
    trees, each interval reaching from one entry to the next, and
    [dump_eip] looks an address up in both; [dump_trapstack] walks over the
    saved frame pointers.  The model of [dump_eip] returns what the kernel
    prints: the offsets of the names in the string table, the offset into
    the function and its size.  Formatting the message is left out. *)

From stdpp Require Import base numbers list gmap.
From Stdlib Require Import ZArith Lia.
From S2P Require Import Prelude RbTree RbTreeRep RbTreeOk RbTreeRemove RbTreeSpec CMem.

Open Scope Z_scope.

#[local] Coercion Z.of_nat : nat >-> Z.

Definition N_FUN : Z := 0x24.
Definition N_SO : Z := 0x64.

(** The fields of [struct stab] that are used. *)
Record stab := Stab { n_strx : Z; n_type : Z; n_value : Z }.
Definition sizeof_stab : Z := 12.

(** The two trees and the flag [b_init_debug]. *)
Record dbg := Dbg { g_stab_so_tree : rb_tree; g_stab_fun_tree : rb_tree; b_init_debug : bool }.

Definition with_so (t : rb_tree) (d : dbg) : dbg := Dbg t (g_stab_fun_tree d) (b_init_debug d).
Definition with_fun (t : rb_tree) (d : dbg) : dbg := Dbg (g_stab_so_tree d) t (b_init_debug d).
Definition on_so {A} (m : M rb_tree A) : M dbg A := zoom g_stab_so_tree with_so m.
Definition on_fun {A} (m : M rb_tree A) : M dbg A := zoom g_stab_fun_tree with_fun m.

(** What is printed for an address: the file, and the function with the
    offset of the address in it and its size. *)
Record report := Report { r_file : option Z; r_func : option (Z * Z * Z) }.

Section Debug.
Context `{NodeAlloc} (stabs : list stab) (STAB_BEGIN : Z).

Definition is_so (s : stab) : bool := (n_type s =? N_SO) && negb (n_strx s =? 0).
Definition is_fun (s : stab) : bool := n_type s =? N_FUN.

(** One of the two [if]s of the loop: [prev] is the value and the address of
    the previous entry of the kind. *)
Definition note (sel : bool) (s : stab) (a : Z) (prev : option (Z * Z)) : M rb_tree (option (Z * Z)) :=
  if sel then
    _ ← (match prev with
         | Some (v, p) => rb_tree_insert (Some 0) v (u32 (n_value s - 1)) p
         | None => mret None
         end);
    mret (Some (n_value s, a))
  else mret prev.

Fixpoint debug_loop (l : list stab) (a : Z) (prev_so prev_fun : option (Z * Z)) : M dbg (option (Z * Z) * option (Z * Z)) :=
  match l with
  | [] => mret (prev_so, prev_fun)
  | s :: l =>
      prev_so ← on_so (note (is_so s) s a prev_so);
      prev_fun ← on_fun (note (is_fun s) s a prev_fun);
      debug_loop l (a + sizeof_stab) prev_so prev_fun
  end.

(** The insertion of the last entry, up to the end of the address space. *)
Definition note_last (prev : option (Z * Z)) : M rb_tree unit :=
  match prev with
  | Some (v, p) => _ ← rb_tree_insert (Some 0) v 0xffffffff p; mret tt
  | None => mret tt
  end.

Definition debug_init : M dbg unit :=
  _ ← mput (Dbg rb_tree_create rb_tree_create false);
  prevs ← debug_loop stabs STAB_BEGIN None None;
  let '(prev_so_stab, prev_fun_stab) := prevs in
  _ ← on_so (note_last prev_so_stab);
  _ ← on_fun (note_last prev_fun_stab);
  mmod (fun d => Dbg (g_stab_so_tree d) (g_stab_fun_tree d) true).

(** The entry at an address of the table. *)
Definition stab_at (a : Z) : outcome stab :=
  if (a - STAB_BEGIN) mod sizeof_stab =? 0
  then deref (if a <? STAB_BEGIN then None else stabs !! Z.to_nat ((a - STAB_BEGIN) / sizeof_stab)) else Fault.

(** The second half of [dump_eip], with the file that was found. *)
Definition dump_function (eip : Z) (file : option Z) : M dbg (option report) :=
  node ← on_fun (rb_tree_search eip);
  if is_null node then mret (Some (Report file None))
  else
    v ← on_fun (rb_node_value node);
    if v =? 0 then mret None
    else
      s ← mlift (stab_at v);
      en ← on_fun (rb_node_key_end node);
      st ← on_fun (rb_node_key_start node);
      mret (Some (Report file (Some (n_strx s, u32 (eip - n_value s), u32 (en - st))))).

Definition dump_eip (eip : Z) : M dbg (option report) :=
  d ← mget;
  if negb (b_init_debug d) then mret None
  else
    node ← on_so (rb_tree_search eip);
    if is_null node then dump_function eip None
    else
      v ← on_so (rb_node_value node);
      if v =? 0 then mret None
      else s ← mlift (stab_at v); dump_function eip (Some (n_strx s)).

(** The debug information and the memory that holds the stack. *)
Record trace := Trace { t_dbg : dbg; t_mem : cmem }.
Definition with_dbg (d : dbg) (s : trace) : trace := Trace d (t_mem s).
Definition with_tmem (m : cmem) (s : trace) : trace := Trace (t_dbg s) m.

(** The loop of [dump_trapstack] (and of [dump_stack]). *)
Fixpoint trace_loop (n : nat) (ebp eip : Z) : M trace (list (option report)) :=
  match n with
  | O => mret []
  | S n =>
      if ebp =? 0 then mret []
      else
        r ← zoom t_dbg with_dbg (dump_eip eip);
        eip ← zoom t_mem with_tmem (rd32 (u32 (ebp + 4)));
        ebp ← zoom t_mem with_tmem (rd32 ebp);
        l ← trace_loop n ebp eip;
        mret (r :: l)
  end.
Definition dump_trapstack (ebp eip : Z) : M trace (list (option report)) := trace_loop 20 ebp eip.

(** [dump_stack] takes the two values from the registers. *)
Definition dump_stack (read_ebp read_eip : Z) : M trace (list (option report)) := trace_loop 20 read_ebp read_eip.

(** ** The intervals of a table *)

(** The entries of a kind: value and address. *)
Fixpoint select (p : stab -> bool) (l : list stab) (a : Z) : list (Z * Z) :=
  match l with
  | [] => []
  | s :: l => (if p s then [(n_value s, a)] else []) ++ select p l (a + sizeof_stab)
  end.

(** The intervals between entries, the last one ending before [w]; those
    between entries with the same value are empty and left out. *)
Fixpoint spans (l : list (Z * Z)) (w : Z) : list (Z * Z * Z) :=
  match l with
  | [] => []
  | (v, a) :: l =>
      let e := match l with [] => w | (v', _) :: _ => v' end in
      (if v <? e then [(v, e - 1, a)] else []) ++ spans l w
  end.

(** Values above 0 that do not decrease. *)
Fixpoint ascending (from : Z) (l : list (Z * Z)) : Prop :=
  match l with [] => True | (v, _) :: l => from <= v < 2 ^ 32 /\ ascending v l end.

(** The last entry that is not behind the address. *)
Definition covering (l : list (Z * Z)) (eip : Z) : option (Z * Z) := last (filter (fun x => x.1 <= eip) l).

Definition span_of (i : info) : Z * Z * Z := (i_start i, i_end i, i_value i).

(** ** Building the trees *)

(** The tree [t] holds exactly the intervals [l], in this order. *)
Definition holds_spans (t : rb_tree) (l : list (Z * Z * Z)) : Prop :=
  exists T, rb_inv t T /\ map span_of (intervals T) = l.

Lemma insert_behind t l v e a :
  (forall m, alloc m <> None) -> holds_spans t l -> Forall (fun x => x.1.2 < v) l ->
  exists r t', rb_tree_insert (Some 0) v (e - 1) a t = Ret (r, t') /\
    holds_spans t' (l ++ if v <? e then [(v, e - 1, a)] else []).
Proof.
  intros Hal (T & Hi & El) Hb. destruct (rb_tree_insert_run t T (Some 0) v (e - 1) a Hi) as (r & t' & E & Hp & Hr).
  exists r, t'. split; [exact E|].
  assert (Hbt : forall x, x ∈ elems T -> i_end x.2 < v).
  { intros x Hx. rewrite Forall_forall in Hb. apply (Hb (span_of x.2)). rewrite <-El.
    apply list_elem_of_fmap. exists x.2. split; [done|]. apply intervals_in. exists x.1. by destruct x. }
  destruct r as [z|]; cbn [insert_post] in Hp.
  - destruct Hp as (T' & pre & post & Hi' & He & He').
    assert (Hve : v < e) by (destruct (Z.ltb_spec v e); [done|]; discriminate (proj2 Hr ltac:(right; left; lia))).
    replace (v <? e) with true by lia.
    destruct Hi' as (Hs' & Hok' & Ho'). assert (Ho := Ho'). rewrite He' in Ho. apply ordered_app in Ho as (_ & (_ & _ & Hb2)%ordered_cons & _).
    assert (post = []) as ->.
    { destruct post as [|q post]; [done|]. specialize (Hb2 q ltac:(set_solver)). unfold before in Hb2. cbn in Hb2.
      specialize (Hbt q ltac:(rewrite He; set_solver)). destruct Hi as (_ & _ & Hord). rewrite He in Hord.
      apply ordered_app in Hord as (_ & (Hpr & _)%ordered_cons & _). unfold proper in Hpr. lia. }
    exists T'. split; [by split_and!|]. rewrite <-El. unfold intervals. rewrite He', He, app_nil_r, !map_app. done.
  - subst t'. destruct (proj1 Hr eq_refl) as [?|[Hlt|[Hn|(x & Hx & H1 & H2)]]]; [done| | |].
    + replace (v <? e) with false by lia. rewrite app_nil_r. by exists T.
    + by destruct (Hal (nodes t)).
    + specialize (Hbt x Hx). lia.
Qed.

(** The insertions the loop does into one tree. *)
Fixpoint feed (l : list (Z * Z)) (prev : option (Z * Z)) : M rb_tree (option (Z * Z)) :=
  match l with
  | [] => mret prev
  | (v, a) :: l =>
      _ ← (match prev with Some (v0, p) => rb_tree_insert (Some 0) v0 (u32 (v - 1)) p | None => mret None end);
      feed l (Some (v, a))
  end.

Lemma debug_loop_feed l : forall a ps pf d rs rf t1 t2,
  feed (select is_so l a) ps (g_stab_so_tree d) = Ret (rs, t1) ->
  feed (select is_fun l a) pf (g_stab_fun_tree d) = Ret (rf, t2) ->
  debug_loop l a ps pf d = Ret ((rs, rf), Dbg t1 t2 (b_init_debug d)).
Proof.
  induction l as [|s l IH]; intros a ps pf d rs rf t1 t2 E1 E2; cbn [debug_loop select feed] in *.
  - injection E1 as <- <-. injection E2 as <- <-. by destruct d.
  - assert (N : forall sel k prev t r t', feed ((if sel : bool then [(n_value s, a)] else []) ++ k) prev t = Ret (r, t') ->
      exists prev' t0, note sel s a prev t = Ret (prev', t0) /\ feed k prev' t0 = Ret (r, t')).
    { intros [|] k prev t r t' E; [|by exists prev, t]. cbn [app feed note] in E |- *.
      apply M_bind_ret in E as (b & t0 & E0 & E). exists (Some (n_value s, a)), t0. split; [|exact E].
      by rewrite (M_bind_run _ _ _ _ _ E0). }
    apply N in E1 as (p1 & t3 & N1 & E1). apply N in E2 as (p2 & t4 & N2 & E2).
    rewrite (M_bind_run _ _ _ _ _ (zoom_run g_stab_so_tree with_so _ d _ _ N1)).
    rewrite (M_bind_run _ _ _ _ _ (zoom_run g_stab_fun_tree with_fun _ (with_so t3 d) _ _ N2)).
    by rewrite (IH _ p1 p2 _ rs rf t1 t2).
Qed.

Lemma feed_run l : (forall m, alloc m <> None) -> forall v a t k,
  0 < v < 2 ^ 32 -> ascending v l -> holds_spans t k -> Forall (fun x => x.1.2 < v) k ->
  exists p t1 t2, feed l (Some (v, a)) t = Ret (p, t1) /\ note_last p t1 = Ret (tt, t2) /\
    holds_spans t2 (k ++ spans ((v, a) :: l) (2 ^ 32)).
Proof.
  intros Hal. induction l as [|[v' a'] l IH]; intros v a t k Hv Ha Hh Hb; cbn [feed ascending] in *.
  - destruct (insert_behind t k v (2 ^ 32) a Hal Hh Hb) as (r & t' & E & Hh'). exists (Some (v, a)), t, t'.
    split; [done|]. split; [cbn [note_last]; change 0xffffffff with (2 ^ 32 - 1); by rewrite (M_bind_run _ _ _ _ _ E)|].
    cbn [spans]. by rewrite app_nil_r.
  - destruct Ha as [Hv' Ha]. rewrite wrap_small by (unfold fits; lia).
    destruct (insert_behind t k v v' a Hal Hh Hb) as (r & t' & E & Hh'). rewrite (M_bind_run _ _ _ _ _ E).
    destruct (IH v' a' t' _ ltac:(lia) Ha Hh') as (p & t1 & t2 & E1 & E2 & H2).
    + apply Forall_app. split.
      * eapply Forall_impl; [exact Hb|]. intros x Hx. cbn beta in Hx. lia.
      * destruct (v <? v'); [|by apply Forall_nil]. apply Forall_cons. split; [cbn; lia|by apply Forall_nil].
    + exists p, t1, t2. split; [exact E1|]. split; [exact E2|]. by rewrite <-app_assoc in H2.
Qed.

Lemma holds_nothing : holds_spans rb_tree_create [].
Proof. exists Leaf. split; [apply rb_inv_create|done]. Qed.

Lemma feed_all l : (forall m, alloc m <> None) -> ascending 1 l ->
  exists p t1 t2, feed l None rb_tree_create = Ret (p, t1) /\ note_last p t1 = Ret (tt, t2) /\ holds_spans t2 (spans l (2 ^ 32)).
Proof.
  intros Hal Ha. destruct l as [|[v a] l].
  - exists None, rb_tree_create, rb_tree_create. split_and!; [done|done|exact holds_nothing].
  - destruct Ha as [Hv Ha]. cbn [feed].
    rewrite (M_bind_run _ _ rb_tree_create rb_tree_create None) by done.
    by apply (feed_run l Hal v a rb_tree_create []); [lia|done|exact holds_nothing|apply Forall_nil].
Qed.

(** ** Looking addresses up *)

Lemma covering_cons v a l eip : covering ((v, a) :: l) eip =
  match covering l eip with Some x => Some x | None => if decide (v <= eip) then Some (v, a) else None end.
Proof.
  unfold covering. cbn [filter list_filter]. unfold decide at 1. cbn [fst]. fold (decide (v <= eip)).
  destruct (decide (v <= eip)) as [Hd|Hd]; [|by destruct (last _)]. destruct (filter _ l) as [|x k] eqn:E; [done|].
  rewrite last_cons. by destruct (last (x :: k)) eqn:El.
Qed.

Lemma covering_none l from eip : ascending from l -> eip < from -> covering l eip = None.
Proof.
  revert from. induction l as [|[v a] l IH]; intros from Ha Hlt; [done|]. destruct Ha as [Hv Ha].
  rewrite covering_cons, (IH v) by (done || lia). by rewrite decide_False by lia.
Qed.

Lemma covering_spans l w eip : forall from, ascending from l -> 2 ^ 32 <= w -> eip < w ->
  match covering l eip with
  | Some (v, a) => exists e, (v, e, a) ∈ spans l w /\ v <= eip <= e
  | None => forall x, x ∈ spans l w -> eip < x.1.1
  end.
Proof.
  induction l as [|[v a] l IH]; intros from Ha Hw He; [by intros x ?%elem_of_nil|]. destruct Ha as [Hv Ha].
  specialize (IH v Ha Hw He). rewrite covering_cons. cbn [spans]. destruct (covering l eip) as [[v' a']|] eqn:Ec.
  - destruct IH as (e & Hin & Hb). exists e. split; [|done]. apply elem_of_app. by right.
  - destruct (decide (v <= eip)) as [Hd|Hd].
    + set (e := match l with [] => w | (v', _) :: _ => v' end). assert (Hlt : eip < e).
      { unfold e. destruct l as [|[v' a'] l]; [done|]. rewrite covering_cons in Ec.
        destruct (covering l eip); [done|]. case_decide; [done|lia]. }
      exists (e - 1). replace (v <? e) with true by lia. split; [set_solver|lia].
    + intros x Hx. apply elem_of_app in Hx as [Hx|Hx]; [|by apply IH].
      destruct (v <? _); [|by apply elem_of_nil in Hx]. apply list_elem_of_singleton in Hx as ->. cbn. lia.
Qed.

Lemma span_covering l w eip : forall from v e a, ascending from l -> 2 ^ 32 <= w ->
  (v, e, a) ∈ spans l w -> v <= eip <= e -> covering l eip = Some (v, a) /\ e < w /\ from <= v.
Proof.
  induction l as [|[v0 a0] l IH]; intros from v e a Ha Hw Hin Hb; [by apply elem_of_nil in Hin|]. destruct Ha as [Hv Ha].
  rewrite covering_cons. cbn [spans] in Hin. apply elem_of_app in Hin as [Hin|Hin].
  - destruct (Z.ltb_spec v0 (match l with [] => w | (v', _) :: _ => v' end)) as [Hlt|]; [|by apply elem_of_nil in Hin].
    apply list_elem_of_singleton in Hin as [= -> -> ->]. assert (covering l eip = None) as ->.
    { destruct l as [|[v' a'] l]; [done|]. destruct Ha as [Hv' Ha]. apply (covering_none _ v'); [split; [lia|done]|lia]. }
    rewrite decide_True by lia. split; [done|]. destruct l as [|[v' a'] l]; [lia|]. destruct Ha. lia.
  - destruct (IH v0 v e a Ha Hw Hin Hb) as [-> He]. split; [done|lia].
Qed.

Lemma search_spans t l eip :
  holds_spans t (spans l (2 ^ 32)) -> ascending 1 l -> fits 32 eip ->
  match covering l eip with
  | Some (v, a) => exists z e, rb_tree_search eip t = Ret (Some z, t) /\ rb_node_value (Some z) t = Ret (a, t) /\
      rb_node_key_start (Some z) t = Ret (v, t) /\ rb_node_key_end (Some z) t = Ret (e, t) /\ 0 < v <= eip /\ eip <= e < 2 ^ 32
  | None => rb_tree_search eip t = Ret (None, t)
  end.
Proof.
  intros (T & Hi & El) Ha [He1 He2]. pose proof (covering_spans l (2 ^ 32) eip 1 Ha ltac:(lia) He2) as Hc.
  assert (Hi' := Hi). destruct Hi' as (Hs & Hok & Ho). rewrite (rb_tree_search_run _ _ eip Hs).
  destruct (tree_search T eip) as [z|] eqn:Ez.
  - destruct (search_node t T eip z Hi Ez) as (n & En & Hin & Hcn).
    destruct (span_covering l (2 ^ 32) eip 1 (start n) (end_ n) (value n) Ha ltac:(lia)) as (-> & Hlt & Hge).
    + rewrite <-El. apply list_elem_of_fmap. by exists (node_info n).
    + exact Hcn.
    + exists z, (end_ n). pose proof (rd_run _ _ _ En) as Er.
      unfold rb_node_key_start, rb_node_key_end, rb_node_value. rewrite !(M_bind_run _ _ _ _ _ Er). unfold contains in Hcn. cbn in Hcn. split_and!; done || lia.
  - destruct (covering l eip) as [[v a]|]; [|done]. destruct Hc as (e & Hin & Hb). exfalso.
    rewrite <-El in Hin. apply list_elem_of_fmap in Hin as (i & Ei & [z Hz]%intervals_in).
    injection Ei as -> -> ->. by rewrite (tree_search_complete T eip z i Ho Hz Hb) in Ez.
Qed.

(** The last entry of a kind that is not behind the address. *)
Definition entry_for (p : stab -> bool) (eip : Z) : option stab :=
  last (filter (fun s => n_value s <= eip) (filter (fun s => p s = true) stabs)).

(** Entries of the table and their addresses. *)
Definition addresses (x : Z * Z) (s : stab) : Prop := x.1 = n_value s /\ 0 < x.2 /\ stab_at x.2 = Ret s.

Lemma stab_at_nth (k : nat) s : stabs !! k = Some s -> stab_at (STAB_BEGIN + sizeof_stab * k) = Ret s.
Proof.
  intros E. unfold stab_at, sizeof_stab. replace (STAB_BEGIN + 12 * k - STAB_BEGIN) with (k * 12) by lia.
  rewrite Z.mod_mul, Z.div_mul by lia. replace (STAB_BEGIN + 12 * k <? STAB_BEGIN) with false by lia.
  by rewrite Nat2Z.id, E.
Qed.

Lemma select_addresses p : 0 < STAB_BEGIN ->
  Forall2 addresses (select p stabs STAB_BEGIN) (filter (fun s => p s = true) stabs).
Proof.
  intros Hpos. assert (G : forall l k, (forall i s, l !! i = Some s -> stabs !! (k + i)%nat = Some s) ->
    Forall2 addresses (select p l (STAB_BEGIN + sizeof_stab * Z.of_nat k)) (filter (fun s => p s = true) l)).
  - induction l as [|s l IH]; intros k Hl; cbn [select]; [constructor|].
    assert (Ht : Forall2 addresses (select p l (STAB_BEGIN + sizeof_stab * k + sizeof_stab)) (filter (fun s => p s = true) l)).
    { replace (STAB_BEGIN + sizeof_stab * k + sizeof_stab) with (STAB_BEGIN + sizeof_stab * S k) by (unfold sizeof_stab; lia).
      apply IH. intros i x E. replace (S k + i)%nat with (k + S i)%nat by lia. by apply Hl. }
    rewrite filter_cons. destruct (p s) eqn:Ep; [rewrite decide_True by done|rewrite decide_False by done; exact Ht].
    cbn [app]. constructor; [|exact Ht]. split; [done|]. split; [unfold sizeof_stab; cbn; lia|].
    apply stab_at_nth. specialize (Hl O s eq_refl). by rewrite Nat.add_0_r in Hl.
  - specialize (G stabs O). cbn in G. rewrite Z.add_0_r in G. apply G. done.
Qed.

Lemma covering_entry l k eip : Forall2 addresses l k ->
  match covering l eip with
  | Some x => exists s, last (filter (fun s => n_value s <= eip) k) = Some s /\ addresses x s
  | None => last (filter (fun s => n_value s <= eip) k) = None
  end.
Proof.
  induction 1 as [|[v a] s l k Hr _ IH]; [done|]. rewrite covering_cons, filter_cons.
  destruct (covering l eip) as [x|].
  - destruct IH as (s' & E & Hx). exists s'. split; [|done]. case_decide; [|done]. rewrite last_cons. by rewrite E.
  - destruct Hr as (Hv & Hr). cbn in Hv. subst v. case_decide; [|done]. exists s. by rewrite last_cons, IH.
Qed.

Lemma dump_function_run d eip file :
  0 < STAB_BEGIN -> ascending 1 (select is_fun stabs STAB_BEGIN) -> fits 32 eip ->
  holds_spans (g_stab_fun_tree d) (spans (select is_fun stabs STAB_BEGIN) (2 ^ 32)) ->
  exists f, dump_function eip file d = Ret (Some (Report file f), d) /\
    match entry_for is_fun eip with
    | Some s => exists size, f = Some (n_strx s, eip - n_value s, size) /\ eip - n_value s <= size
    | None => f = None
    end.
Proof.
  intros Hpos Ha He Hh. pose proof (search_spans _ _ eip Hh Ha He) as Hs.
  pose proof (covering_entry _ _ eip (select_addresses is_fun Hpos)) as Hc. fold (entry_for is_fun eip) in Hc.
  assert (Z0 : with_fun (g_stab_fun_tree d) d = d) by by destruct d. unfold dump_function.
  destruct (covering _ eip) as [[v a]|].
  - destruct Hs as (z & e & E1 & E2 & E3 & E4 & Hb & Hw). destruct Hc as (s & -> & (Hv & Hap & Hat)). cbn in Hv, Hap, Hat. subst v.
    rewrite (M_bind_run _ _ _ _ _ (zoom_run g_stab_fun_tree with_fun _ d _ _ E1)), is_null_Some, Z0.
    rewrite (M_bind_run _ _ _ _ _ (zoom_run g_stab_fun_tree with_fun _ d _ _ E2)), Z0.
    replace (a =? 0) with false by lia. rewrite Hat, (M_bind_run _ _ d d s) by done.
    rewrite (M_bind_run _ _ _ _ _ (zoom_run g_stab_fun_tree with_fun _ d _ _ E4)), Z0.
    rewrite (M_bind_run _ _ _ _ _ (zoom_run g_stab_fun_tree with_fun _ d _ _ E3)), Z0.
    unfold fits in He. rewrite !wrap_small by (unfold fits; lia). eexists. split; [done|]. eexists. split; [done|lia].
  - rewrite Hc, (M_bind_run _ _ _ _ _ (zoom_run g_stab_fun_tree with_fun _ d _ _ Hs)), Z0. eexists. split; [done|done].
Qed.

(** What is printed for an address, by the table alone. *)
Definition report_for (eip : Z) (r : report) : Prop :=
  r_file r = n_strx <$> entry_for is_so eip /\
  match entry_for is_fun eip with
  | Some s => exists size, r_func r = Some (n_strx s, eip - n_value s, size) /\ eip - n_value s <= size
  | None => r_func r = None
  end.

(** The trees hold the table. *)
Record indexed (d : dbg) : Prop := Indexed {
  ix_ready : b_init_debug d = true;
  ix_so : holds_spans (g_stab_so_tree d) (spans (select is_so stabs STAB_BEGIN) (2 ^ 32));
  ix_fun : holds_spans (g_stab_fun_tree d) (spans (select is_fun stabs STAB_BEGIN) (2 ^ 32))
}.

(** The file entries and the function entries of the table come in the order
    of their addresses. *)
Definition table_ok : Prop :=
  0 < STAB_BEGIN /\ ascending 1 (select is_so stabs STAB_BEGIN) /\ ascending 1 (select is_fun stabs STAB_BEGIN).

Lemma debug_init_run d0 : (forall m, alloc m <> None) -> table_ok -> exists d, debug_init d0 = Ret (tt, d) /\ indexed d.
Proof.
  intros Hal (_ & A1 & A2). destruct (feed_all _ Hal A1) as (p1 & s1 & s2 & E1 & L1 & H1).
  destruct (feed_all _ Hal A2) as (p2 & f1 & f2 & E2 & L2 & H2). unfold debug_init.
  set (d := Dbg rb_tree_create rb_tree_create false). rewrite (M_bind_run _ _ d0 d tt) by done.
  rewrite (M_bind_run _ _ _ _ _ (debug_loop_feed stabs STAB_BEGIN None None d _ _ _ _ E1 E2)).
  rewrite (M_bind_run _ _ _ _ _ (zoom_run g_stab_so_tree with_so _ (Dbg s1 f1 false) _ _ L1)).
  rewrite (M_bind_run _ _ _ _ _ (zoom_run g_stab_fun_tree with_fun _ (Dbg s2 f1 false) _ _ L2)).
  exists (Dbg s2 f2 true). by split.
Qed.

Lemma dump_eip_run d eip : table_ok -> indexed d -> fits 32 eip ->
  exists r, dump_eip eip d = Ret (Some r, d) /\ report_for eip r.
Proof.
  intros (Hpos & A1 & A2) [Hr H1 H2] He. unfold dump_eip. rewrite (M_bind_run _ _ d d d), Hr by done. cbn [negb].
  pose proof (search_spans _ _ eip H1 A1 He) as Hs.
  pose proof (covering_entry _ _ eip (select_addresses is_so Hpos)) as Hc. fold (entry_for is_so eip) in Hc.
  assert (Z0 : with_so (g_stab_so_tree d) d = d) by by destruct d.
  assert (G : forall file, file = n_strx <$> entry_for is_so eip ->
    exists r, dump_function eip file d = Ret (Some r, d) /\ report_for eip r).
  { intros file ->. destruct (dump_function_run d eip (n_strx <$> entry_for is_so eip) Hpos A2 He H2) as (f & E & Hf). eexists. split; [exact E|]. by split. }
  destruct (covering _ eip) as [[v a]|].
  - destruct Hs as (z & e & E1 & E2 & _). destruct Hc as (s & Hes & (_ & Hap & Hat)). cbn in Hap, Hat.
    rewrite (M_bind_run _ _ _ _ _ (zoom_run g_stab_so_tree with_so _ d _ _ E1)), is_null_Some, Z0.
    rewrite (M_bind_run _ _ _ _ _ (zoom_run g_stab_so_tree with_so _ d _ _ E2)), Z0.
    replace (a =? 0) with false by lia. rewrite Hat, (M_bind_run _ _ d d s) by done. apply G. by rewrite Hes.
  - rewrite (M_bind_run _ _ _ _ _ (zoom_run g_stab_so_tree with_so _ d _ _ Hs)), Z0. apply G. by rewrite Hc.
Qed.

(** A stack: each frame holds the frame pointer of the caller and the return
    address; the outermost frame pointer is 0. *)
Fixpoint frames (b : gmap Z Z) (ebp : Z) (rets : list Z) : Prop :=
  match rets with
  | [] => ebp = 0
  | ret :: rets => 0 < ebp < 2 ^ 32 - 4 /\ fits 32 ret /\ arr b (ebp + 4) (le32 ret) /\
                   exists next, arr b ebp (le32 next) /\ frames b next rets
  end.

Lemma trace_loop_run n : forall ebp eip rets s,
  table_ok -> indexed (t_dbg s) -> fits 32 eip -> frames (bytes (t_mem s)) ebp rets ->
  exists rs, trace_loop n ebp eip s = Ret (Some <$> rs, s) /\
    Forall2 report_for (take (n `min` length rets) (eip :: rets)) rs.
Proof.
  induction n as [|n IH]; intros ebp eip rets s Ht Hi He Hf; [by exists []|]. cbn [trace_loop].
  destruct rets as [|ret rets]; cbn [frames] in Hf; [subst ebp; by exists []|].
  destruct Hf as (Hb & Hr & Ha & next & Hn & Hf). replace (ebp =? 0) with false by lia.
  destruct (dump_eip_run (t_dbg s) eip Ht Hi He) as (r & E & Hrep).
  assert (Z0 : with_dbg (t_dbg s) s = s) by by destruct s. assert (Z1 : with_tmem (t_mem s) s = s) by by destruct s.
  rewrite (M_bind_run _ _ _ _ _ (zoom_run t_dbg with_dbg _ s _ _ E)), Z0.
  rewrite wrap_small by (unfold fits; lia).
  rewrite (M_bind_run _ _ _ _ _ (zoom_run t_mem with_tmem _ s _ _ (rd32_run _ _ _ Ha))), Z1.
  rewrite (M_bind_run _ _ _ _ _ (zoom_run t_mem with_tmem _ s _ _ (rd32_run _ _ _ Hn))), Z1.
  destruct (IH next ret rets s Ht Hi Hr Hf) as (rs & El & Hrs). rewrite (M_bind_run _ _ _ _ _ El).
  exists (r :: rs). split; [done|]. cbn [length Nat.min take]. by constructor.
Qed.

(** A call trace terminates also before [debug_init], without names. *)
Definition trace_ready (d : dbg) : Prop := b_init_debug d = false \/ (table_ok /\ indexed d).

Lemma trace_returns n : forall ebp eip rets s,
  trace_ready (t_dbg s) -> fits 32 eip -> frames (bytes (t_mem s)) ebp rets ->
  exists rs, trace_loop n ebp eip s = Ret (rs, s).
Proof.
  intros ebp eip rets s [Hn|[Ht Hi]] He Hf.
  2: { destruct (trace_loop_run n ebp eip rets s Ht Hi He Hf) as (rs & E & _). by eexists. }
  revert ebp eip rets He Hf. induction n as [|n IH]; intros ebp eip rets He Hf; [by exists []|]. cbn [trace_loop].
  destruct rets as [|ret rets]; cbn [frames] in Hf; [subst ebp; by exists []|].
  destruct Hf as (Hb & Hr & Ha & next & Hx & Hf). replace (ebp =? 0) with false by lia.
  assert (E : dump_eip eip (t_dbg s) = Ret (None, t_dbg s))
    by (unfold dump_eip; rewrite (M_bind_run _ _ (t_dbg s) (t_dbg s) (t_dbg s)) by done; by rewrite Hn).
  assert (Z0 : with_dbg (t_dbg s) s = s) by by destruct s. assert (Z1 : with_tmem (t_mem s) s = s) by by destruct s.
  rewrite (M_bind_run _ _ _ _ _ (zoom_run t_dbg with_dbg _ s _ _ E)), Z0.
  rewrite wrap_small by (unfold fits; lia).
  rewrite (M_bind_run _ _ _ _ _ (zoom_run t_mem with_tmem _ s _ _ (rd32_run _ _ _ Ha))), Z1.
  rewrite (M_bind_run _ _ _ _ _ (zoom_run t_mem with_tmem _ s _ _ (rd32_run _ _ _ Hx))), Z1.
  destruct (IH next ret rets Hr Hf) as (rs & El). rewrite (M_bind_run _ _ _ _ _ El). by eexists.
Qed.

(** C19. The debug information is right: with memory for the trees and a table
    in the order of addresses, [debug_init] returns, and from then on
    [dump_eip] names, for every address, the last source file and the last
    function that start at or before it, with the offset into the function;
    an address before all entries is unknown. *)
Theorem dump_eip_ok (d0 : dbg) : (forall m, alloc m <> None) -> table_ok ->
  exists d, debug_init d0 = Ret (tt, d) /\
    forall eip, fits 32 eip -> exists r, dump_eip eip d = Ret (Some r, d) /\ report_for eip r.
Proof.
  intros Hal Ht. destruct (debug_init_run d0 Hal Ht) as (d & E & Hi). exists d. split; [exact E|].
  intros eip He. by apply dump_eip_run.
Qed.

(** C34. A call trace terminates and is right: after [debug_init], on a stack
    of linked frames, [dump_trapstack] reports the interrupted address and
    the return addresses of the frames below the outermost one, innermost
    first, 20 at most. *)
Theorem dump_trapstack_ok (d0 : dbg) (m : cmem) (ebp eip : Z) (rets : list Z) :
  (forall m, alloc m <> None) -> table_ok -> fits 32 eip -> frames (bytes m) ebp rets ->
  exists d rs, debug_init d0 = Ret (tt, d) /\ dump_trapstack ebp eip (Trace d m) = Ret (Some <$> rs, Trace d m) /\
    Forall2 report_for (take (20 `min` length rets) (eip :: rets)) rs.
Proof.
  intros Hal Ht He Hf. destruct (debug_init_run d0 Hal Ht) as (d & E & Hi).
  destruct (trace_loop_run 20 ebp eip rets (Trace d m) Ht Hi He Hf) as (rs & El & Hrs). by exists d, rs.
Qed.

End Debug.

(** ** A table of two files and three functions *)

#[local] Instance fresh_node : NodeAlloc := {
  alloc m := Some (fresh (dom m));
  alloc_fresh m a E := ltac:(injection E as <-; apply not_elem_of_dom, is_fresh)
}.

Definition stabs3 : list stab :=
  [Stab 1 N_SO 0xC0100000; Stab 10 N_FUN 0xC0100000; Stab 0 N_SO 0; Stab 20 N_FUN 0xC0100040;
   Stab 5 N_SO 0xC0100100; Stab 30 N_FUN 0xC0100100].
Definition dbg0 : dbg := Dbg rb_tree_create rb_tree_create false.
Definition stack2 : cmem :=
  CMem (blit 0xC0200000 (le32 0xC0200100 ++ le32 0xC0100120) (blit 0xC0200100 (le32 0 ++ le32 0xC0100010) ∅)) ∅.

Lemma stabs3_ok : table_ok stabs3 0xC0300000.
Proof. unfold table_ok. cbn. lia. Qed.

Lemma dump_eip_ok_witness :
  exists d r, debug_init stabs3 0xC0300000 dbg0 = Ret (tt, d) /\
    dump_eip stabs3 0xC0300000 0xC0100050 d = Ret (Some r, d) /\ r_file r = Some 1 /\
    exists size, r_func r = Some (20, 0x10, size) /\ 0x10 <= size.
Proof.
  destruct (dump_eip_ok stabs3 0xC0300000 dbg0) as (d & E & H); [done|exact stabs3_ok|].
  destruct (H 0xC0100050 ltac:(split; lia)) as (r & Er & Hf & Hg). exists d, r. split; [exact E|]. split; [exact Er|].
  split; [exact Hf|exact Hg].
Defined.

Lemma dump_trapstack_ok_witness :
  exists d rs, debug_init stabs3 0xC0300000 dbg0 = Ret (tt, d) /\
    dump_trapstack stabs3 0xC0300000 0xC0200000 0xC0100050 (Trace d stack2) = Ret (Some <$> rs, Trace d stack2) /\
    Forall2 (report_for stabs3) [0xC0100050; 0xC0100120] rs.
Proof.
  apply (dump_trapstack_ok stabs3 0xC0300000 dbg0 stack2 0xC0200000 0xC0100050 [0xC0100120; 0xC0100010]);
    [done|exact stabs3_ok|split; lia|].
  assert (H1 := arr_blit 0xC0200000 (le32 0xC0200100 ++ le32 0xC0100120) (blit 0xC0200100 (le32 0 ++ le32 0xC0100010) ∅)).
  apply arr_app in H1 as [H1 H2].
  assert (H3 : arr (bytes stack2) 0xC0200100 (le32 0 ++ le32 0xC0100010)).
  { apply arr_blit_other; [left; by vm_compute|apply arr_blit]. }
  apply arr_app in H3 as [H3 H4]. cbn [frames].
  split; [lia|]. split; [split; lia|]. split; [exact H2|]. exists 0xC0200100. split; [exact H1|].
  split; [lia|]. split; [split; lia|]. split; [exact H4|]. exists 0. by split.
Defined.
