(* ===== verification/Irq.v ===== *)
(** * Interrupts and exceptions (kernel/irq.c)

    The descriptor table that sends every vector to its stub in
    kernel/entry.S, the table of registered handlers and [irq_handler], which
    the stubs call with the number of the vector.  The state composes the
    components an interrupt reaches: the timers with the scheduler
    ([istate_t]), the keyboard, the local APIC and the page tables.

    The text [irq_handler] prints is left out, but not the memory it reads
    for that: the page tables for a page fault and the frames of the stack
    for the call trace.  [halt] with interrupts disabled stops the processor,
    which is the outcome [Bug].  When [thread_exit] switches to another
    thread, the rest of [irq_handler] does not run. *)

From stdpp Require Import base numbers list gmap.
From Stdlib Require Import ZArith Lia.
From S2P Require Import Prelude Bitops ListNode Page PageTable CMem Vector Queue RbTree Debug Fs Schedule Timer Apic Keyboard.

Open Scope Z_scope.

Definition IRQ_GP : Z := 13.
Definition IRQ_PGFLT : Z := 14.
Definition IRQ_NUM : Z := 256.
Definition STS_IG32 : Z := 0xE.
Definition STS_TG32 : Z := 0xF.
Definition GD_KTEXT : Z := Z.shiftl 1 3.

(** ** The descriptor table *)

Record gate_desc := GateDesc {
  offset_15_0 : Z; selector : Z; gate_args : Z; gate_rsv : Z; gate_type : Z; gate_s : Z; gate_dpl : Z; gate_p : Z;
  offset_31_16 : Z
}.

Definition set_gate (istrap selector offset dpl : Z) : gate_desc :=
  GateDesc (Z.land offset 0xffff) (u16 selector) 0 0 (if negb (istrap =? 0) then STS_TG32 else STS_IG32) 0
    (wrap 2 dpl) 1 (Z.land (Z.shiftr offset 16) 0xffff).

(** Gates [i .. i + n - 1], all with the stub [v] gives for the index. *)
Fixpoint set_gates (n : nat) (i : Z) (v : Z -> Z) (t : gmap Z gate_desc) : gmap Z gate_desc :=
  match n with
  | O => t
  | S n => set_gates n (i + 1) v (<[i := set_gate 0 GD_KTEXT (v i) 0]> t)
  end.

(** The array and the register of the processor that says where the table
    is: its limit and its base. *)
Record idt := Idt { gates : gmap Z gate_desc; idtr : Z * Z }.

(** [vectors]: the table of stubs [__vectors]; [idt_array]: the address of
    the array, whose 256 entries have 8 bytes each; [idt_pd] is what [lidt]
    loads. *)
Definition idt_init (vectors : Z -> Z) (idt_array : Z) (t : gmap Z gate_desc) : idt :=
  let t := set_gates 65 0 vectors t in
  let t := set_gates 191 65 (fun _ => vectors 65) t in
  let idt_pd := (8 * IRQ_NUM - 1, idt_array) in
  Idt t idt_pd.

(** How the processor reads a gate. *)
Definition gate_offset (g : gate_desc) : Z := offset_15_0 g + 2 ^ 16 * offset_31_16 g.

(** An address survives the encoding in a gate. *)
Lemma set_gate_offset istrap sel off dpl : fits 32 off -> gate_offset (set_gate istrap sel off dpl) = off.
Proof.
  intros Ho. unfold gate_offset, set_gate; cbn [offset_15_0 offset_31_16]. unfold fits in Ho.
  change 0xffff with (Z.ones 16). rewrite !Z.land_ones, Z.shiftr_div_pow2 by lia.
  rewrite (Z.mod_small (off / 2 ^ 16)) by (Z.div_mod_to_equations; lia). Z.div_mod_to_equations. lia.
Qed.

Lemma set_gates_lookup n i v t k :
  set_gates n i v t !! k = if decide (i <= k < i + Z.of_nat n) then Some (set_gate 0 GD_KTEXT (v k) 0) else t !! k.
Proof.
  revert i t. induction n as [|n IH]; intros i t; cbn [set_gates]; [by rewrite decide_False by lia|].
  rewrite IH, lookup_insert. repeat case_decide; try lia; try done. by subst.
Qed.

(** After [idt_init] all 256 vectors have a present interrupt gate (one
    that disables interrupts) of the kernel's code segment and privilege,
    whose address is that of the stub of the vector, the last stub for the
    vectors from 65 on; the processor uses this table, all of it. *)
Theorem idt_init_ok (vectors : Z -> Z) (base : Z) (t : gmap Z gate_desc) (i : Z) :
  (forall k, fits 32 (vectors k)) -> 0 <= i < IRQ_NUM ->
  idtr (idt_init vectors base t) = (2047, base) /\
  exists g, gates (idt_init vectors base t) !! i = Some g /\ gate_offset g = vectors (Z.min i 65) /\
    selector g = 8 /\ gate_type g = STS_IG32 /\ gate_s g = 0 /\ gate_dpl g = 0 /\ gate_p g = 1.
Proof.
  intros Hv Hi. split; [done|]. unfold idt_init, IRQ_NUM in *. cbn [gates]. rewrite set_gates_lookup.
  case_decide as D; [|rewrite set_gates_lookup, decide_True by lia]; eexists; (split; [done|]);
    rewrite set_gate_offset by apply Hv; (split; [f_equal; lia|done]).
Qed.

Lemma idt_init_ok_witness :
  idtr (idt_init (fun k => 0xC0100000 + 16 * u8 k) 0xC0110000 ∅) = (2047, 0xC0110000) /\
  exists g, gates (idt_init (fun k => 0xC0100000 + 16 * u8 k) 0xC0110000 ∅) !! 200 = Some g /\ gate_offset g = 0xC0100410 /\
    selector g = 8 /\ gate_type g = STS_IG32 /\ gate_s g = 0 /\ gate_dpl g = 0 /\ gate_p g = 1.
Proof.
  apply (idt_init_ok (fun k => 0xC0100000 + 16 * u8 k) 0xC0110000 ∅ 200); [|done].
  intros k. pose proof (wrap_fits 8 k ltac:(lia)). unfold fits in *. lia.
Defined.

(** ** Handlers *)

(** The functions that are registered. *)
Inductive handler : Type := TimerIrq | KeyboardIrq.

Section Irq.
Context `{FH : FsHeap} `{SH : SchedHeap} `{TH : TimerHeap} `{KH : KHeap}.
(** The bound of the loop over the timers, the reads an interrupt command
    stays pending, the address of the keyboard driver's local variable and
    the address of the function [run_shell]. *)
Context (fuel delay : nat) (kslot run_shell : Z).
(** The table of debug information and its address (see Debug.v). *)
Context `{NA : NodeAlloc} (stabs : list stab) (STAB_BEGIN : Z).

Record irqs := Irqs {
  irq_handlers : gmap Z handler;
  itimer : tstate;
  ikbd : kbd;
  ihw : hw;
  ipgdir : Z;
  itrace : trace;
  os_start : bool;
  shell : option Z
}.

Definition with_handlers (x : gmap Z handler) (s : irqs) : irqs :=
  Irqs x (itimer s) (ikbd s) (ihw s) (ipgdir s) (itrace s) (os_start s) (shell s).
Definition with_itimer (x : tstate) (s : irqs) : irqs :=
  Irqs (irq_handlers s) x (ikbd s) (ihw s) (ipgdir s) (itrace s) (os_start s) (shell s).
Definition with_ikbd (x : kbd) (s : irqs) : irqs :=
  Irqs (irq_handlers s) (itimer s) x (ihw s) (ipgdir s) (itrace s) (os_start s) (shell s).
Definition with_ihw (x : hw) (s : irqs) : irqs :=
  Irqs (irq_handlers s) (itimer s) (ikbd s) x (ipgdir s) (itrace s) (os_start s) (shell s).
Definition with_shell (x : option Z) (s : irqs) : irqs :=
  Irqs (irq_handlers s) (itimer s) (ikbd s) (ihw s) (ipgdir s) (itrace s) (os_start s) x.

Definition with_itrace (x : trace) (s : irqs) : irqs :=
  Irqs (irq_handlers s) (itimer s) (ikbd s) (ihw s) (ipgdir s) x (os_start s) (shell s).

Definition on_timer {A} (m : M tstate A) : M irqs A := zoom itimer with_itimer m.
Definition on_threads {A} (m : M sched A) : M irqs A := on_timer (on_sched m).
Definition on_kbd {A} (m : M kbd A) : M irqs A := zoom ikbd with_ikbd m.
Definition on_hw {A} (m : M hw A) : M irqs A := zoom ihw with_ihw m.

(** The array has [IRQ_NUM] entries: index [IRQ_NUM], which both checks let
    pass, is outside it. *)
Definition request_irq (irq : Z) (fn : handler) : M irqs Z :=
  if IRQ_NUM <? irq then mret (- EINVAL)
  else if irq =? IRQ_NUM then mlift Fault
  else _ ← mmod (fun s => with_handlers (<[irq := fn]> (irq_handlers s)) s); mret 0.

Definition handler_at (irq : Z) : M irqs (option handler) :=
  if irq =? IRQ_NUM then mlift Fault else s ← mget; mret (irq_handlers s !! irq).

Definition run_handler (c : Z) (h : handler) : M irqs unit :=
  match h with
  | TimerIrq => on_timer (timer_irq_handler fuel c)
  | KeyboardIrq => on_kbd (keyboard_irq_handler kslot)
  end.

Definition start_new_shell (c : Z) : M irqs Z :=
  t ← on_threads (thread_run c run_shell 0 0);
  _ ← mmod (with_shell t);
  mret 0.

(** [dump_trapframe]: the call trace from the saved frame pointer and
    instruction pointer. *)
Definition dump_trapframe (ebp eip : Z) : M irqs (list (option report)) :=
  zoom itrace with_itrace (dump_trapstack stabs STAB_BEGIN ebp eip).

(** [irq_handler] on processor [c]: [irq], [ebp] and [eip] are fields of the
    trap frame, [cr2] is the address of a page fault.  For a number out of
    range, [pr_err] is given the number itself among its strings. *)
Definition irq_handler (c irq cr2 ebp eip : Z) : M irqs unit :=
  if IRQ_NUM <? irq then mlift Fault
  else
    h ← handler_at irq;
    match h with
    | Some h => _ ← run_handler c h; on_hw (lapic_eoi delay)
    | None =>
        s ← mget;
        _ ← (if irq =? IRQ_PGFLT
             then _ ← on_hw (zoom hpt with_hpt (page_table_dump (ipgdir s) cr2 PAGE_SIZE)); mret tt
             else mret tt);
        _ ← dump_trapframe ebp eip;
        if negb (os_start s) then mlift Bug
        else
          cur ← on_threads (current c);
          _ ← (if bool_decide (shell s = Some cur) then start_new_shell c else mret 0);
          _ ← on_threads (thread_exit c);
          cur' ← on_threads (current c);
          if cur' =? cur then on_hw (lapic_eoi delay) else mret tt
    end.

(** [keyboard_init] (kernel/keyboard.c). *)
Definition keyboard_init : M irqs unit :=
  _ ← on_kbd (keyboard_read_all_buffer kslot);
  _ ← request_irq IRQ_KEYBD KeyboardIrq;
  on_hw (ioapic_enable IRQ_KEYBD 0).

Lemma request_irq_run irq fn s : 0 <= irq < IRQ_NUM ->
  request_irq irq fn s = Ret (0, with_handlers (<[irq := fn]> (irq_handlers s)) s).
Proof.
  intros Hi. unfold request_irq. replace (IRQ_NUM <? irq) with false by lia. by replace (irq =? IRQ_NUM) with false by lia.
Qed.

(** A registered interrupt runs its handler and is then acknowledged. *)
Lemma irq_handler_dispatch c irq cr2 ebp eip h s s' :
  0 <= irq < IRQ_NUM -> irq_handlers s !! irq = Some h -> run_handler c h s = Ret (tt, s') -> lapic_up (ihw s') ->
  irq_handler c irq cr2 ebp eip s = Ret (tt, with_ihw (wrote delay EOI 0 (ihw s')) s').
Proof.
  intros Hi Hh E U. unfold irq_handler. replace (IRQ_NUM <? irq) with false by lia.
  rewrite (M_bind_run _ _ s s (Some h)).
  - rewrite (M_bind_run _ _ _ _ _ E). apply zoom_run. by apply lapic_eoi_run.
  - unfold handler_at. replace (irq =? IRQ_NUM) with false by lia. unfold mget, mbind, M_bind. by rewrite Hh.
Qed.

(** C11. A key press reaches the console queue as the user means it: once
    the driver has registered itself, with the scan codes of key events of a
    US keyboard waiting (letters, digits, punctuation, keypad, the escaped
    keys, Shift, Control, Alt and Caps Lock, pressed and released), the
    keyboard interrupt drains the controller and, when the queue has room for
    the characters without growing, appends exactly the characters these keys
    stand for, in order ([meaning]); it is acknowledged, and neither the
    timers nor the threads are touched. *)
Theorem keyboard_interrupt (s : irqs) (c cr2 ebp eip : Z) (els : list (list Z)) (es : list event) :
  kbd_ok kslot (ikbd s) els -> lapic_up (ihw s) ->
  on (kb_shift (ikbd s)) E0ESC = false -> kb_pending (ikbd s) = flat_map scan es -> Forall known es ->
  let typed_text := meaning (mods_of (kb_shift (ikbd s))) es in
  (length els + length typed_text < Z.to_nat (q_capacity (stdio_que (ikbd s))))%nat ->
  2 * Z.max (q_capacity (stdio_que (ikbd s))) (2 * (Z.of_nat (length els) + Z.of_nat (length (kb_pending (ikbd s))))) < 2 ^ 30 ->
  exists s1 s2, request_irq IRQ_KEYBD KeyboardIrq s = Ret (0, s1) /\ irq_handler c IRQ_KEYBD cr2 ebp eip s1 = Ret (tt, s2) /\
    kb_pending (ikbd s2) = [] /\ kbd_ok kslot (ikbd s2) (els ++ map (fun x => [x]) typed_text) /\
    l_log (ihw s2) = (EOI, 0) :: l_log (ihw s) /\ itimer s2 = itimer s.
Proof.
  intros Hk U He Hes Hkn typed_text Hroom Hcap.
  pose proof (typed_meaning _ es (ko_shift _ _ _ Hk) He Hkn) as Ht. rewrite <- Hes in Ht. fold typed_text in Ht.
  destruct (read_loop_run (S (length (kb_pending (ikbd s)))) kslot (ikbd s) els Hk ltac:(lia) Hcap)
    as (k' & l & E & Hp & _ & Hk' & _ & Hall). rewrite Ht in Hall.
  rewrite Hall in Hk' by lia. rewrite request_irq_run by done. set (s1 := with_handlers _ s).
  exists s1, (with_ihw (wrote delay EOI 0 (ihw s)) (with_ikbd k' s1)). split; [done|]. split; [|done].
  assert (E1 : run_handler c KeyboardIrq s1 = Ret (tt, with_ikbd k' s1)).
  { apply zoom_run. unfold keyboard_irq_handler, keyboard_read_all_buffer.
    by rewrite (M_bind_run _ _ (ikbd s1) (ikbd s1) (ikbd s1)) by done. }
  apply (irq_handler_dispatch c IRQ_KEYBD cr2 ebp eip KeyboardIrq s1 (with_ikbd k' s1)); [done| |exact E1|exact U].
  cbn. by rewrite lookup_insert_eq.
Qed.

(** What the messages of an exception need: a stack of linked frames from
    [ebp] on, debug information that is not initialised or right, and for a
    page fault page tables in low memory. *)
Record can_dump (s : irqs) (irq ebp eip : Z) (rets : list Z) : Prop := CanDump {
  cd_frames : frames (bytes (t_mem (itrace s))) ebp rets;
  cd_eip : fits 32 eip;
  cd_debug : trace_ready stabs STAB_BEGIN (t_dbg (itrace s));
  cd_tables : irq = IRQ_PGFLT -> exists d, ipgdir s = page_to_virt d /\ tables_low (hpt (ihw s)) d
}.

(** The messages change nothing. *)
Lemma dump_run s irq cr2 ebp eip rets {A} (k : M irqs A) :
  can_dump s irq ebp eip rets ->
  (_ ← (if irq =? IRQ_PGFLT
        then _ ← on_hw (zoom hpt with_hpt (page_table_dump (ipgdir s) cr2 PAGE_SIZE)); mret tt
        else mret tt); _ ← dump_trapframe ebp eip; k) s = k s.
Proof.
  intros [Hf He Hd Ht].
  assert (E1 : (if irq =? IRQ_PGFLT
        then _ ← on_hw (zoom hpt with_hpt (page_table_dump (ipgdir s) cr2 PAGE_SIZE)); mret tt
        else mret tt) s = Ret (tt, s)).
  { destruct (Z.eqb_spec irq IRQ_PGFLT) as [->|]; [|done]. destruct (Ht eq_refl) as (d & -> & Hl).
    destruct (page_table_dump_run (hpt (ihw s)) d cr2 PAGE_SIZE Hl) as [l E].
    rewrite (M_bind_run _ _ s s l); [done|]. unfold on_hw.
    rewrite (zoom_run ihw with_ihw _ s l (ihw s)); [by destruct s|].
    rewrite (zoom_run hpt with_hpt _ (ihw s) l (hpt (ihw s)) E). by destruct (ihw s). }
  rewrite (M_bind_run _ _ _ _ _ E1).
  destruct (trace_returns stabs STAB_BEGIN 20 ebp eip rets (itrace s) Hd He Hf) as [rs E2].
  rewrite (M_bind_run _ _ s s rs); [done|]. unfold dump_trapframe, dump_trapstack.
  rewrite (zoom_run itrace with_itrace _ s rs (itrace s) E2). by destruct s.
Qed.

(** C12. An exception without a handler, page faults included, costs the
    thread that raised it, and only that thread: when it is not the shell,
    its stack came from the heap, another thread is waiting and what the
    messages read is intact ([can_dump]), [irq_handler] ends it.  The next
    thread runs with its saved registers; the thread has left the thread
    group, its descriptor, its stack and its directory are gone, and the
    other threads, the handlers, the clocks and the hardware are as before. *)
Theorem irq_fault_kills_thread (s : irqs) (c irq cr2 ebp eip : Z) (rets : list Z) (n : Z) (q : list Z) (cur : Z) (x : thread)
    g1 g2 d t p pre post :
  0 <= irq < IRQ_NUM -> irq_handlers s !! irq = None -> can_dump s irq ebp eip rets ->
  os_start s = true -> shell s <> Some cur ->
  cpu_ok (tsched (itimer s)) c (n :: q) cur -> threads (tsched (itimer s)) !! cur = Some x ->
  dll (snodes (tsched (itimer s))) ThreadGroup (TNode <$> g1 ++ cur :: g2) ->
  kstack x ∈ stacks (tsched (itimer s)) ->
  tdir x = Some d -> proc_dir (sfs (tsched (itimer s))) d t p pre post ->
  exists s' y, irq_handler c irq cr2 ebp eip s = Ret (tt, s') /\ cpu_ok (tsched (itimer s')) c q n /\
    dll (snodes (tsched (itimer s'))) ThreadGroup (TNode <$> g1 ++ g2) /\
    (forall u, threads (tsched (itimer s')) !! u = if decide (u = cur) then None else threads (tsched (itimer s)) !! u) /\
    stacks (tsched (itimer s')) = stacks (tsched (itimer s)) ∖ {[kstack x]} /\
    threads (tsched (itimer s)) !! n = Some y /\ regs_of (tsched (itimer s')) c = context y /\
    removed [t] (sfs (tsched (itimer s))) (sfs (tsched (itimer s'))) /\
    irq_handlers s' = irq_handlers s /\ times (itimer s') = times (itimer s) /\ ihw s' = ihw s.
Proof.
  intros Hi Hh Hcd Ho Hsh K Ex Hg Hk Ed Hp.
  destruct (thread_exit_run _ c n q cur x g1 g2 d t p pre post K Ex Hg Hk Ed Hp)
    as (s1 & y & E & K' & Hg' & Hth & Ey & Er & Hrm & Hst).
  exists (with_itimer (with_tsched s1 (itimer s)) s), y. split; [|by split_and!].
  assert (Hc : on_threads (current c) s = Ret (cur, s)).
  { unfold on_threads, on_timer. rewrite (zoom_run _ _ _ s cur (itimer s)); [by destruct s|].
    unfold on_sched. rewrite (zoom_run _ _ _ _ cur (tsched (itimer s))); [by destruct (itimer s)|].
    apply current_run. apply (co_cur _ _ _ _ K). }
  unfold irq_handler. replace (IRQ_NUM <? irq) with false by lia.
  rewrite (M_bind_run _ _ s s None)
    by (unfold handler_at; replace (irq =? IRQ_NUM) with false by lia; unfold mget, mbind, M_bind; by rewrite Hh).
  rewrite (M_bind_run _ _ s s s) by done. rewrite (dump_run s irq cr2 ebp eip rets _ Hcd). rewrite Ho. cbn [negb].
  rewrite (M_bind_run _ _ _ _ _ Hc). rewrite bool_decide_false by done.
  rewrite (M_bind_run _ _ s s 0) by done.
  rewrite (M_bind_run _ _ _ (with_itimer (with_tsched s1 (itimer s)) s) tt)
    by (apply zoom_run, zoom_run; exact E).
  rewrite (M_bind_run _ _ _ (with_itimer (with_tsched s1 (itimer s)) s) n).
  - assert (n <> cur) by (intros ->; apply (co_off _ _ _ _ K); by left).
    by replace (n =? cur) with false by lia.
  - unfold on_threads, on_timer. rewrite (zoom_run _ _ _ _ n (with_tsched s1 (itimer s))); [done|].
    unfold on_sched. rewrite (zoom_run _ _ _ _ n s1); [done|]. apply current_run. apply (co_cur _ _ _ _ K').
Qed.

(** Both checks of the vector number let 256 pass, one beyond the table:
    registering it stores outside the array, and a vector 256 would be
    looked up there. *)
Theorem request_irq_out_of_bounds (s : irqs) (fn : handler) (c cr2 ebp eip : Z) :
  request_irq IRQ_NUM fn s = Fault /\ irq_handler c IRQ_NUM cr2 ebp eip s = Fault /\
  (forall irq, IRQ_NUM < irq -> request_irq irq fn s = Ret (- EINVAL, s)).
Proof.
  split; [done|]. split; [done|]. intros irq Hi. unfold request_irq. by replace (IRQ_NUM <? irq) with true by lia.
Qed.

End Irq.

(** ** A machine with three threads, a keyboard and a local APIC *)

#[local] Existing Instance fsheap1.
#[local] Existing Instance schedheap1.
#[local] Existing Instance timerheap0.
#[local] Existing Instance bump_heap.

(** The page of the local APIC is mapped. *)
Definition lapic_base : Z := 0xFEE00000.
Definition ptm_lapic : ptm :=
  PTM (<[wd 256 1019 := 0x101003]> (<[wd 257 512 := 0xFEE00003]> ∅)) (falloc ptm0) 0 0x100000 ∅.
Definition hw_lapic : hw := Hw ptm_lapic 0 ∅ 0 lapic_base ∅ [] 0%nat (0, 0) [].

Lemma hw_lapic_up : lapic_up hw_lapic.
Proof. split; [done|]. split; [done|]. by vm_compute. Qed.

(** Two frames on the stack; no debug information. *)
Definition stack0 : cmem :=
  CMem (blit 0xC0200000 (le32 0xC0200100 ++ le32 0xC0100120) (blit 0xC0200100 (le32 0 ++ le32 0xC0100010) ∅)) ∅.
Definition trace0 : trace := Trace (Dbg rb_tree_create rb_tree_create false) stack0.

Definition irqs0 : irqs :=
  Irqs ∅ (TState ∅ ∅ ∅ (booted 2)) kbd0 hw_lapic 0xC0100000 trace0 true (Some (th 1)).

#[local] Instance no_nodes : NodeAlloc := {
  alloc m := None;
  alloc_fresh m a E := ltac:(discriminate E)
}.

(** The key "a". *)
Definition key_a : key := Key 0x1E 97 65 1.

Lemma typed_known : Forall known [ShiftDown false; KeyDown key_a; ShiftUp false; KeyDown key_a].
Proof. repeat constructor; apply (bool_decide_unpack _); by vm_compute. Qed.

Lemma keyboard_interrupt_witness :
  exists s1 s2, request_irq IRQ_KEYBD KeyboardIrq irqs0 = Ret (0, s1) /\
    irq_handler 1 0 200 0 [] 0 0 IRQ_KEYBD 0 0 0 s1 = Ret (tt, s2) /\
    kb_pending (ikbd s2) = [] /\ kbd_ok 200 (ikbd s2) [[65]; [97]] /\
    l_log (ihw s2) = [(EOI, 0)] /\ itimer s2 = itimer irqs0.
Proof.
  apply (keyboard_interrupt 1 0 200 0 [] 0 irqs0 0 0 0 0 [] [ShiftDown false; KeyDown key_a; ShiftUp false; KeyDown key_a]
    kbd0_ok hw_lapic_up).
  - reflexivity.
  - reflexivity.
  - exact typed_known.
  - apply Nat.ltb_lt. by vm_compute.
  - done.
Defined.

Lemma stack0_frames : frames (bytes stack0) 0xC0200000 [0xC0100120; 0xC0100010].
Proof.
  assert (H1 := arr_blit 0xC0200000 (le32 0xC0200100 ++ le32 0xC0100120) (blit 0xC0200100 (le32 0 ++ le32 0xC0100010) ∅)).
  apply arr_app in H1 as [H1 H2].
  assert (H3 : arr (bytes stack0) 0xC0200100 (le32 0 ++ le32 0xC0100010)).
  { apply arr_blit_other; [left; by vm_compute|apply arr_blit]. }
  apply arr_app in H3 as [H3 H4]. cbn [frames].
  split_and!; [lia|lia|split; lia|exact H2|]. eexists. split; [exact H1|].
  split_and!; [lia|lia|split; lia|exact H4|]. eexists. by split.
Qed.

(** One switch later, thread 2 raises an exception. *)
Definition irqs1 : irqs :=
  Irqs ∅ (TState ∅ ∅ ∅ switched) kbd0 hw_lapic 0xC0100000 trace0 true (Some (th 1)).

Lemma irqs1_dump : can_dump [] 0 irqs1 IRQ_GP 0xC0200000 0xC0100050 [0xC0100120; 0xC0100010].
Proof. split; [exact stack0_frames|split; lia|by left|done]. Qed.

(** A general protection fault in thread 2. *)
Lemma irq_fault_kills_thread_witness :
  exists s' y, irq_handler 1 0 200 0 [] 0 0 IRQ_GP 0 0xC0200000 0xC0100050 irqs1 = Ret (tt, s') /\
    cpu_ok (tsched (itimer s')) 0 [th 0] (th 1) /\
    dll (snodes (tsched (itimer s'))) ThreadGroup (TNode <$> [] ++ [th 1; th 0]) /\
    (forall u, threads (tsched (itimer s')) !! u =
       if decide (u = th 2) then None else threads (tsched (itimer irqs1)) !! u) /\
    stacks (tsched (itimer s')) = stacks (tsched (itimer irqs1)) ∖ {[kstack (thread_at switched (th 2))]} /\
    threads (tsched (itimer irqs1)) !! th 1 = Some y /\ regs_of (tsched (itimer s')) 0 = context y /\
    removed [DTree dir2 [file2] []] (sfs (tsched (itimer irqs1))) (sfs (tsched (itimer s'))) /\
    irq_handlers s' = irq_handlers irqs1 /\ times (itimer s') = times (itimer irqs1) /\ ihw s' = ihw irqs1.
Proof.
  apply (irq_fault_kills_thread 1 0 200 0 [] 0 irqs1 0 IRQ_GP 0 0xC0200000 0xC0100050 [0xC0100120; 0xC0100010]
    (th 1) [th 0] (th 2) (thread_at switched (th 2)) [] [th 1; th 0] dir2 (DTree dir2 [file2] []) proc2 [] [dir1; dir0]).
  - done.
  - done.
  - exact irqs1_dump.
  - done.
  - apply (bool_decide_unpack _). by vm_compute.
  - exact switched_ok.
  - exact th2_live.
  - exact group_switched.
  - exact th2_stack.
  - exact th2_dir.
  - exact proc_dir2.
Defined.
