(* ===== verification/Smp.v ===== *)
(** * Processors (kernel/smp.c, include/smp.h)

    The BIOS leaves a floating pointer in its ROM that leads to the MP
    configuration table, a header followed by entries of 20 bytes for a
    processor and 8 bytes for everything else.  [mp_search] finds the
    pointer, [scan_mp_entry] walks over the entries and fills [cpus],
    [smp_init] does both and maps the local APIC; [cpu_up] starts a processor
    and waits for it.  A processor that comes up starts the next one before
    it reports that it is there, so starting processor 1 starts them one
    after the other.  Whether a processor comes up is decided by the writes
    of [lapic_startap] to the interrupt command register ([icr]); the
    log of Apic.v stands for the local APICs of all processors, which are at
    the same address.  Of [start_secondary] the end is modelled, from the
    choice of the next processor on: its set-up of the new processor
    (paging, local APIC, interrupt table, idle thread) is not.

    Tables are read from the byte memory of CMem.v.  The string that
    [smp_init] builds for a message (and does not free) is left out. *)

From stdpp Require Import base numbers list gmap.
From Stdlib Require Import ZArith Lia.
From S2P Require Import Prelude Bitops Page PageTable CMem Schedule Apic.

Open Scope Z_scope.

#[local] Coercion Z.of_nat : nat >-> Z.

Definition ROM_BASE : Z := 0xF0000.
Definition ROM_SIZE : Z := 0x10000.
Definition ROM_ENTITY_SIZE : Z := 0x10.
Definition MP_ENTRY_TYPE_PROCESSOR : Z := 0.
Definition MP_ENTRY_TYPE_BUS : Z := 1.
Definition MP_ENTRY_TYPE_IOAPIC : Z := 2.
Definition MP_ENTRY_TYPE_IOINTR : Z := 3.
Definition MP_ENTRY_TYPE_LINTR : Z := 4.

(** Sizes and offsets of the tables of include/smp.h. *)
Definition sizeof_mp_processor : Z := 20.
Definition sizeof_mp_entry : Z := 8.
Definition sizeof_mp_config : Z := 44.

(** [struct cpu]; [processor] is the address of its table entry. *)
Record cpu := Cpu { cpu_no : Z; init : bool; started : bool; processor : option Z }.

(** [cpus] (a processor that was never set is all zero), the devices, and
    the flag [__smp_init]. *)
Record smp := Smp { smem : cmem; cpus : gmap Z cpu; shw : hw; smp_up : bool; imcr : list (Z * Z) }.

Definition with_smem (x : cmem) (s : smp) : smp := Smp x (cpus s) (shw s) (smp_up s) (imcr s).
Definition with_cpus (x : gmap Z cpu) (s : smp) : smp := Smp (smem s) x (shw s) (smp_up s) (imcr s).
Definition with_shw (x : hw) (s : smp) : smp := Smp (smem s) (cpus s) x (smp_up s) (imcr s).

Definition zero_cpu : cpu := Cpu 0 false false None.
Definition cpu_at (s : smp) (i : Z) : cpu := default zero_cpu (cpus s !! i).
Definition set_cpu (i : Z) (x : cpu) : M smp unit := mmod (fun s => with_cpus (<[i := x]> (cpus s)) s).

Definition on_smem {A} (m : M cmem A) : M smp A := zoom smem with_smem m.
Definition read8 (p : Z) : M smp Z := on_smem (rdb p).
Definition read16 (p : Z) : M smp Z := on_smem (rd16 p).
Definition read32 (p : Z) : M smp Z := on_smem (rd32 p).

Definition with_ioapic_id (x : Z) (s : smp) : smp :=
  let h := shw s in
  with_shw (Hw (hpt h) (io_sel h) (io_regs h) x (l_ptr h) (l_regs h) (l_log h) (l_busy h) (warm h) (cmos h)) s.
Definition with_lapic_ptr (p : Z) (s : smp) : smp :=
  let h := shw s in
  with_shw (Hw (hpt h) (io_sel h) (io_regs h) (ioapic_id h) p (l_regs h) (l_log h) (l_busy h) (warm h) (cmos h)) s.

(** [cpu_id]: the number of the processor that runs. *)
Definition cpu_id : M smp Z :=
  s ← mget; if negb (smp_up s) then mret 0 else zoom shw with_shw lapic_id.

(** ** The configuration table *)

(** The loop of [scan_mp_entry] at [p]; [iointr] is the local variable of
    that name, not set at first, which the message for a local interrupt
    entry reads by mistake.  A processor that does not fit into [cpus] is
    skipped without advancing [p]. *)
Fixpoint scan_loop (fuel : nat) (p en : Z) (iointr : option Z) : M smp Z :=
  match fuel with
  | O => fun _ => Spin
  | S fuel =>
      if en <=? p then mret 0
      else
        t ← read8 p;
        if t =? MP_ENTRY_TYPE_PROCESSOR then
          id ← read8 (p + 1);
          if MAX_CPU <=? id then
            _ ← mlift (WARN_ON (MAX_CPU <? id));
            scan_loop fuel p en iointr
          else
            _ ← set_cpu id (Cpu id true false (Some p));
            scan_loop fuel (p + sizeof_mp_processor) en iointr
        else if t =? MP_ENTRY_TYPE_BUS then scan_loop fuel (p + sizeof_mp_entry) en iointr
        else if t =? MP_ENTRY_TYPE_IOAPIC then
          id ← read8 (p + 1);
          _ ← mmod (with_ioapic_id id);
          scan_loop fuel (p + sizeof_mp_entry) en iointr
        else if t =? MP_ENTRY_TYPE_IOINTR then scan_loop fuel (p + sizeof_mp_entry) en (Some p)
        else if t =? MP_ENTRY_TYPE_LINTR then
          i ← mlift (deref iointr);
          _ ← read8 (i + 1);
          scan_loop fuel (p + sizeof_mp_entry) en iointr
        else mret (- ENODEV)
  end.

(** Every entry advances by at least a byte. *)
Definition scan_mp_entry (start en : Z) : M smp Z := scan_loop (S (Z.to_nat (en - start))) start en None.

(** [mp_search]: [lit] is the address of the literal "_MP_". *)
Fixpoint search_loop (n : nat) (lit virt offset : Z) : M smp (option Z) :=
  match n with
  | O => mret None
  | S n =>
      let mp := u32 (virt + offset) in
      r ← on_smem (memcmp mp lit 4);
      if r =? 0 then mret (Some mp) else search_loop n lit virt (offset + ROM_ENTITY_SIZE)
  end.
Definition mp_search (lit : Z) : M smp (option Z) :=
  search_loop (Z.to_nat (ROM_SIZE / ROM_ENTITY_SIZE)) lit (phys_to_virt ROM_BASE) 0.

(** [smp_init(mm)]: [pgdir] is [mm->pgdir], [lit_mp] and [lit_pcmp] the
    addresses of the literals, [port23] what the port 0x23 reads. *)
Definition smp_init (lit_mp lit_pcmp pgdir port23 : Z) : M smp Z :=
  mp ← mp_search lit_mp;
  match mp with
  | None => mret (- ENOENT)
  | Some mp =>
      addr ← read32 (mp + 4);
      let config := phys_to_virt addr in
      r ← on_smem (memcmp config lit_pcmp 4);
      if negb (r =? 0) then mret (- EINVAL)
      else
        la ← read32 (config + 36);
        _ ← mmod (with_lapic_ptr la);
        _ ← zoom shw with_shw (zoom hpt with_hpt (page_map pgdir la la PAGE_SIZE PTE_W));
        len ← read16 (config + 4);
        _ ← scan_mp_entry (config + sizeof_mp_config) (config + len);
        b ← read8 (mp + 12);
        _ ← (if negb (Z.shiftr b 7 =? 0)
             then mmod (fun s => Smp (smem s) (cpus s) (shw s) (smp_up s)
                          ((0x23, Z.lor port23 1) :: (0x22, 0x70) :: imcr s))
             else mret tt);
        _ ← mmod (fun s => Smp (smem s) (cpus s) (shw s) true (imcr s));
        mret 0
  end.

(** ** Starting processors *)

(** What the interrupt command register of a local APIC does with the
    writes to it: [icr_dest] is the processor in its high word; an asserted
    INIT (delivery mode 5) resets that processor, which then waits, and a
    STARTUP (mode 6) makes a processor that waits run at the page of the
    vector, and is ignored by any other.  [icr_runs] lists the processors
    that began to run, with the page. *)
Record icr := Icr { icr_dest : Z; icr_waiting : list Z; icr_runs : list (Z * Z) }.

Definition icr_write (x : icr) (w : Z * Z) : icr :=
  let (reg, v) := w in
  if reg =? 0x310 then Icr (Z.shiftr v 24) (icr_waiting x) (icr_runs x)
  else if reg =? 0x300 then
    let md := Z.land (Z.shiftr v 8) 7 in
    if (md =? 5) && Z.testbit v 14 then Icr (icr_dest x) (icr_dest x :: icr_waiting x) (icr_runs x)
    else if (md =? 6) && bool_decide (icr_dest x ∈ icr_waiting x) then
      Icr (icr_dest x) (filter (fun i => i <> icr_dest x) (icr_waiting x)) (icr_runs x ++ [(icr_dest x, Z.land v 255)])
    else x
  else x.

(** The processors that began to run, in order, from the writes so far. *)
Definition ap_starts (log : list (Z * Z)) : list (Z * Z) := icr_runs (foldl icr_write (Icr 0 [] []) log).
(** Those that began to run between two states. *)
Definition woken (h h' : hw) : list (Z * Z) := drop (length (ap_starts (rev (l_log h)))) (ap_starts (rev (l_log h'))).

(** The end of [start_secondary], on the processor [id]: it starts the next
    processor ([up] is [cpu_up]) and reports that it is there; then it halts
    for ever.  [cpu_id] is its own number once the machine is set up. *)
Definition start_secondary (up : Z -> M smp Z) (id : Z) : M smp unit :=
  s ← mget;
  let next_cpu := (if smp_up s then id else 0) + 1 in
  _ ← (if (next_cpu <? MAX_CPU) && init (cpu_at s next_cpu) then up next_cpu else mret 0);
  s ← mget;
  if negb (smp_up s) then mlift Fault
  else let x := cpu_at s id in set_cpu id (Cpu (cpu_no x) (init x) true (processor x)).

(** [cpu_up]: the processor that the interrupts of [lapic_startap] make run
    the code at page 5, the trampoline, comes to [secondary]; without it
    nobody sets the flag the loop waits for. *)
Definition cpu_up_body (secondary : Z -> M smp unit) (delay : nat) (c : Z) : M smp Z :=
  if MAX_CPU <=? c then mret (- ENODEV)
  else
    s ← mget;
    if negb (init (cpu_at s c)) then mret (- EINVAL)
    else
      p ← mlift (deref (processor (cpu_at s c)));
      id ← read8 (p + 1);
      _ ← mlift (assert (cpu_no (cpu_at s c) =? id));
      _ ← zoom shw with_shw (lapic_startap delay id (virt_to_phys (phys_to_virt 0x5000)));
      s' ← mget;
      _ ← (if bool_decide ((id, 5) ∈ woken (shw s) (shw s')) then secondary id else mret tt);
      s' ← mget;
      if started (cpu_at s' c) then mret 0 else mlift Spin.

Fixpoint cpu_up_loop (fuel : nat) (delay : nat) (c : Z) : M smp Z :=
  match fuel with
  | O => fun _ => Spin
  | S fuel => cpu_up_body (start_secondary (cpu_up_loop fuel delay)) delay c
  end.

(** There are [MAX_CPU] processors at most. *)
Definition cpu_up (delay : nat) (c : Z) : M smp Z := cpu_up_loop 9 delay c.

(** ** What a table says *)

Inductive mp_entry : Type :=
  | MpProcessor (id : Z) (rest : list Z)
  | MpBus (rest : list Z)
  | MpIoapic (id : Z) (rest : list Z)
  | MpIointr (rest : list Z)
  | MpLintr (rest : list Z).

Definition encode (e : mp_entry) : list Z :=
  match e with
  | MpProcessor id r => 0 :: id :: r
  | MpBus r => 1 :: r
  | MpIoapic id r => 2 :: id :: r
  | MpIointr r => 3 :: r
  | MpLintr r => 4 :: r
  end.

Definition entry_size (e : mp_entry) : Z := match e with MpProcessor _ _ => 20 | _ => 8 end.

(** An entry of the right size; a processor that has a place in [cpus]. *)
Definition entry_wf (e : mp_entry) : Prop :=
  Z.of_nat (length (encode e)) = entry_size e /\
  match e with MpProcessor id _ => 0 <= id < MAX_CPU | _ => True end.

(** Every local interrupt entry comes behind an I/O interrupt entry. *)
Fixpoint lintr_ok (seen : bool) (es : list mp_entry) : Prop :=
  match es with
  | [] => True
  | MpIointr _ :: es => lintr_ok true es
  | MpLintr _ :: es => seen = true /\ lintr_ok seen es
  | _ :: es => lintr_ok seen es
  end.

(** The address of the last entry, of those from [p] on, for processor [i],
    and the number of the last I/O APIC. *)
Fixpoint last_processor (p : Z) (es : list mp_entry) (i : Z) : option Z :=
  match es with
  | [] => None
  | e :: es =>
      match last_processor (p + entry_size e) es i with
      | Some q => Some q
      | None => match e with MpProcessor id _ => if id =? i then Some p else None | _ => None end
      end
  end.
Fixpoint last_ioapic (es : list mp_entry) : option Z :=
  match es with
  | [] => None
  | e :: es =>
      match last_ioapic es with
      | Some x => Some x
      | None => match e with MpIoapic id _ => Some id | _ => None end
      end
  end.

Lemma on_smem_run {A} (m : M cmem A) s r : m (smem s) = Ret (r, smem s) -> on_smem m s = Ret (r, s).
Proof. intros E. unfold on_smem. rewrite (zoom_run smem with_smem _ s _ _ E). by destruct s. Qed.

Lemma read16_run p x s : arr (bytes (smem s)) p (le16 x) -> read16 p s = Ret (x, s).
Proof. intros Ha. by apply on_smem_run, rd16_run. Qed.

Lemma read32_run p x s : arr (bytes (smem s)) p (le32 x) -> read32 p s = Ret (x, s).
Proof. intros Ha. by apply on_smem_run, rd32_run. Qed.

Lemma read8_run p x s : bytes (smem s) !! p = Some x -> read8 p s = Ret (x, s).
Proof. intros E. by apply on_smem_run, rdb_run. Qed.

(** Only [cpus] and the number of the I/O APIC change. *)
Definition scan_frame (s s' : smp) : Prop :=
  smem s' = smem s /\ smp_up s' = smp_up s /\ imcr s' = imcr s /\
  hpt (shw s') = hpt (shw s) /\ l_ptr (shw s') = l_ptr (shw s) /\ l_log (shw s') = l_log (shw s).

(** The state after a whole table. *)
Definition scanned (p : Z) (es : list mp_entry) (s s' : smp) : Prop :=
  scan_frame s s' /\
  (forall i, cpu_at s' i = match last_processor p es i with
                           | Some q => Cpu i true false (Some q) | None => cpu_at s i end) /\
  ioapic_id (shw s') = default (ioapic_id (shw s)) (last_ioapic es).

Lemma cpu_at_set s i x j : cpu_at (with_cpus (<[i := x]> (cpus s)) s) j = if decide (i = j) then x else cpu_at s j.
Proof. unfold cpu_at; simpl. rewrite lookup_insert. by case_decide. Qed.

Lemma scanned_cons p e es s s1 s' :
  scan_frame s s1 ->
  (forall i, cpu_at s1 i = match e with MpProcessor id _ => if id =? i then Cpu i true false (Some p) else cpu_at s i
                           | _ => cpu_at s i end) ->
  ioapic_id (shw s1) = (match e with MpIoapic id _ => id | _ => ioapic_id (shw s) end) ->
  scanned (p + entry_size e) es s1 s' -> scanned p (e :: es) s s'.
Proof.
  intros (F1 & F2 & F3 & F4 & F5 & F6) Hc Hi ((G1 & G2 & G3 & G4 & G5 & G6) & Hc' & Hi'). split_and!; [split_and!; congruence| |].
  - intros i. rewrite Hc'. cbn [last_processor]. destruct (last_processor _ es i) as [q|]; [done|].
    rewrite Hc. destruct e; try done. by destruct (id =? i).
  - rewrite Hi'. cbn [last_ioapic]. destruct (last_ioapic es); [done|]. cbn. rewrite Hi. by destruct e.
Qed.

Lemma scan_loop_run es : forall (fuel : nat) p io s,
  Forall entry_wf es -> lintr_ok (bool_decide (is_Some io)) es ->
  arr (bytes (smem s)) p (concat (map encode es)) ->
  (forall i, io = Some i -> is_Some (bytes (smem s) !! (i + 1))) ->
  length (concat (map encode es)) < fuel ->
  exists s', scan_loop fuel p (p + length (concat (map encode es))) io s = Ret (0, s') /\ scanned p es s s'.
Proof.
  induction es as [|e es IH]; intros fuel p io s Hw Hl Ha Hio Hf; (destruct fuel as [|fuel]; [simpl in *; lia|]).
  - exists s. cbn [scan_loop map concat length]. replace (p + O <=? p) with true by lia. split; [done|].
    split; [by split_and!|done].
  - apply Forall_cons in Hw as [[Hs He] Hw]. cbn [map concat] in Ha, Hf |- *. rewrite length_app in Hf |- *.
    apply arr_app in Ha as [Hae Ha]. rewrite Hs in Ha.
    rewrite Nat2Z.inj_add, Hs, Z.add_assoc in *.
    assert (Hpos : 8 <= entry_size e) by (destruct e; simpl; lia).
    cbn [scan_loop]. replace (_ <=? p) with false by lia.
    assert (Hstep : forall s1 io1, scan_frame s s1 ->
      lintr_ok (bool_decide (is_Some io1)) es ->
      (forall i, io1 = Some i -> is_Some (bytes (smem s) !! (i + 1))) ->
      exists s', scan_loop fuel (p + entry_size e) (p + entry_size e + length (concat (map encode es))) io1 s1 = Ret (0, s')
        /\ scanned (p + entry_size e) es s1 s').
    { intros s1 io1 (F1 & _) Hl1 Hio1. apply IH; [done|done|by rewrite F1|by rewrite F1|lia]. }
    assert (Href : scan_frame s s) by (by split_and!).
    destruct e as [id r|r|id r|r|r]; cbn [encode] in Hae; apply arr_cons in Hae as [H0 H1]; cbn [lintr_ok entry_size] in *;
      rewrite (M_bind_run _ _ _ _ _ (read8_run _ _ _ H0)); cbv beta.
    + change (0 =? MP_ENTRY_TYPE_PROCESSOR) with true. cbv iota. apply arr_cons in H1 as [H1 _]. rewrite (M_bind_run _ _ _ _ _ (read8_run _ _ _ H1)).
      replace (MAX_CPU <=? id) with false by lia.
      set (s1 := with_cpus (<[id := Cpu id true false (Some p)]> (cpus s)) s).
      rewrite (M_bind_run _ _ s s1 tt) by done.
      destruct (Hstep s1 io) as (s' & E & Hsc); [by split_and!|done|done|]. exists s'. split; [exact E|].
      apply (scanned_cons p (MpProcessor id r) es s s1 s'); [by split_and!| |done|exact Hsc].
      intros i. unfold s1. rewrite cpu_at_set. destruct (Z.eqb_spec id i) as [->|]; [by rewrite decide_True|by rewrite decide_False].
    + destruct (Hstep s io Href Hl Hio) as (s' & E & Hsc). exists s'. split; [exact E|]. by apply (scanned_cons p (MpBus r) es s s s').
    + change (2 =? MP_ENTRY_TYPE_PROCESSOR) with false. change (2 =? MP_ENTRY_TYPE_BUS) with false.
      change (2 =? MP_ENTRY_TYPE_IOAPIC) with true. cbv iota.
      apply arr_cons in H1 as [H1 _]. rewrite (M_bind_run _ _ _ _ _ (read8_run _ _ _ H1)).
      set (f := with_ioapic_id id). rewrite (M_bind_run _ _ s (f s) tt) by done.
      destruct (Hstep (f s) io) as (s' & E & Hsc); [by split_and!|done|done|]. exists s'. split; [exact E|].
      apply (scanned_cons p (MpIoapic id r) es s (f s) s'); [by split_and!|done|done|exact Hsc].
    + destruct (Hstep s (Some p) Href) as (s' & E & Hsc).
      * by rewrite bool_decide_true.
      * intros i Hi. injection Hi as <-. destruct r as [|x r]; [done|]. apply arr_cons in H1 as [H1 _]. by eexists.
      * exists s'. split; [exact E|]. by apply (scanned_cons p (MpIointr r) es s s s').
    + destruct Hl as [Hb Hl]. apply bool_decide_eq_true in Hb as [i ->]. destruct (Hio i eq_refl) as [x Hx].
      change (4 =? MP_ENTRY_TYPE_PROCESSOR) with false. change (4 =? MP_ENTRY_TYPE_BUS) with false.
      change (4 =? MP_ENTRY_TYPE_IOAPIC) with false. change (4 =? MP_ENTRY_TYPE_IOINTR) with false.
      change (4 =? MP_ENTRY_TYPE_LINTR) with true. cbv iota.
      rewrite (M_bind_run _ _ s s i) by done. rewrite (M_bind_run _ _ _ _ _ (read8_run _ _ _ Hx)).
      destruct (Hstep s (Some i) Href Hl Hio) as (s' & E & Hsc). exists s'. split; [exact E|].
      by apply (scanned_cons p (MpLintr r) es s s s').
Qed.

(** [scan_mp_entry] reads a table as it is meant: on well-formed entries
    whose processors have a place in [cpus], with an I/O interrupt before
    the first local interrupt, it returns 0; every processor of the table is
    entered under its number, not started, with the address of its (last)
    entry; no other processor changes; and the number of the (last) I/O APIC
    is remembered. *)
Theorem scan_mp_entry_ok (s : smp) (p : Z) (es : list mp_entry) :
  Forall entry_wf es -> lintr_ok false es -> arr (bytes (smem s)) p (concat (map encode es)) ->
  exists s', scan_mp_entry p (p + length (concat (map encode es))) s = Ret (0, s') /\ scanned p es s s'.
Proof.
  intros Hw Hl Ha. unfold scan_mp_entry. apply scan_loop_run; [done|done|done|done|lia].
Qed.

(** A processor whose number is too large for [cpus] stops the boot: the
    warning faults, or, for the first number too large, the loop skips the
    entry with [continue] and never advances. *)
Theorem scan_mp_entry_hangs (s : smp) (p en id : Z) (fuel : nat) r :
  p < en -> MAX_CPU <= id -> bytes (smem s) !! p = Some 0 -> bytes (smem s) !! (p + 1) = Some id ->
  scan_loop fuel p en None s <> Ret r.
Proof.
  intros Hp Hid H0 H1. induction fuel as [|fuel IH]; [done|]. cbn [scan_loop]. replace (en <=? p) with false by lia.
  rewrite (M_bind_run _ _ _ _ _ (read8_run _ _ _ H0)). change (0 =? MP_ENTRY_TYPE_PROCESSOR) with true. cbv iota.
  rewrite (M_bind_run _ _ _ _ _ (read8_run _ _ _ H1)). replace (MAX_CPU <=? id) with true by lia.
  unfold WARN_ON. destruct (MAX_CPU <? id); [done|]. by rewrite (M_bind_run _ _ s s tt).
Qed.

(** An entry of an unknown type ends the scan with [-ENODEV]; what came
    before it has been taken over. *)
Theorem scan_mp_entry_unknown (s : smp) (p en t : Z) :
  p < en -> 4 < t -> bytes (smem s) !! p = Some t -> scan_mp_entry p en s = Ret (- ENODEV, s).
Proof.
  intros Hp Ht H0. unfold scan_mp_entry. cbn [scan_loop]. replace (en <=? p) with false by lia.
  rewrite (M_bind_run _ _ _ _ _ (read8_run _ _ _ H0)).
  unfold MP_ENTRY_TYPE_PROCESSOR, MP_ENTRY_TYPE_BUS, MP_ENTRY_TYPE_IOAPIC, MP_ENTRY_TYPE_IOINTR, MP_ENTRY_TYPE_LINTR.
  repeat (replace (t =? _) with false by lia). done.
Qed.

(** ** Finding the table *)

(** The bytes of the [k]th paragraph of the ROM that [mp_search] compares. *)
Definition paragraph (rom : list Z) (k : nat) : list Z := take 4 (drop (16 * k) rom).

(** The first paragraph that starts with the signature. *)
Definition first_mp (sig rom : list Z) (k : nat) : Prop :=
  (k < 4096)%nat /\ paragraph rom k = sig /\ forall j, (j < k)%nat -> paragraph rom j <> sig.

Lemma paragraph_arr b p rom k :
  arr b p rom -> Z.of_nat (length rom) = ROM_SIZE -> (k < 4096)%nat ->
  arr b (p + 16 * k) (paragraph rom k) /\ length (paragraph rom k) = 4%nat.
Proof.
  intros Ha Hl Hk. unfold ROM_SIZE in Hl. unfold paragraph. split; [|rewrite length_take, length_drop; lia].
  intros i x E. apply lookup_take_Some in E as [E _]. rewrite lookup_drop in E. apply Ha in E.
  rewrite <-E. f_equal. lia.
Qed.

Lemma mp_scan_run s lit rom sig n : forall k,
  arr (bytes (smem s)) lit sig -> length sig = 4%nat ->
  arr (bytes (smem s)) 0xC00F0000 rom -> Z.of_nat (length rom) = ROM_SIZE -> (n + k = 4096)%nat ->
  (forall j, (j < k)%nat -> paragraph rom j <> sig) ->
  exists r, search_loop n lit 0xC00F0000 (16 * k) s = Ret (r, s) /\
    match r with
    | Some a => exists k', first_mp sig rom k' /\ a = 0xC00F0000 + 16 * k'
    | None => forall j, (j < 4096)%nat -> paragraph rom j <> sig
    end.
Proof.
  induction n as [|n IH]; intros k Hs Hl Hr Hlr Hn Hno; cbn [search_loop].
  - exists None. split; [done|]. intros j Hj. apply Hno. lia.
  - destruct (paragraph_arr _ _ rom k Hr Hlr ltac:(lia)) as [Hp Hpl].
    rewrite wrap_small by (unfold fits; lia).
    destruct (memcmp_run (smem s) _ lit _ sig Hp Hs ltac:(congruence)) as (r & E & Hz). rewrite Hpl in E.
    rewrite (M_bind_run _ _ _ _ _ (zoom_run smem with_smem _ s _ _ E)).
    replace (with_smem (smem s) s) with s by (by destruct s).
    destruct (Z.eqb_spec r 0) as [->|Hr0].
    + eexists. split; [done|]. exists k. split; [|done]. split; [lia|]. split; [by apply Hz|exact Hno].
    + unfold ROM_ENTITY_SIZE. replace (16 * k + 0x10) with (16 * (S k)) by lia. apply IH; try done; [lia|].
      intros j Hj. destruct (decide (j = k)) as [->|]; [by rewrite <-Hz|apply Hno; lia].
Qed.

(** [mp_search] finds the first paragraph of the ROM that starts with the
    signature, and returns no address only when none does. *)
Lemma mp_search_run s lit rom sig :
  arr (bytes (smem s)) lit sig -> length sig = 4%nat ->
  arr (bytes (smem s)) (phys_to_virt ROM_BASE) rom -> Z.of_nat (length rom) = ROM_SIZE ->
  exists r, mp_search lit s = Ret (r, s) /\
    match r with
    | Some a => exists k, first_mp sig rom k /\ a = phys_to_virt ROM_BASE + 16 * k
    | None => forall j, (j < 4096)%nat -> paragraph rom j <> sig
    end.
Proof.
  intros Hs Hl Hr Hlr. unfold mp_search. change (phys_to_virt ROM_BASE) with 0xC00F0000 in *.
  replace (Z.to_nat (ROM_SIZE / ROM_ENTITY_SIZE)) with 4096%nat by (by vm_compute).
  apply (mp_scan_run s lit rom sig 4096 0); try done. intros j Hj. lia.
Qed.

Lemma first_mp_unique sig rom k k' : first_mp sig rom k -> first_mp sig rom k' -> k = k'.
Proof.
  intros (_ & E & H) (_ & E' & H'). destruct (lt_eq_lt_dec k k') as [[Hlt|]|Hlt]; [by destruct (H' k)|done|by destruct (H k')].
Qed.

(** ** The whole set-up *)

(** The table entry of the processor has its number. *)
Definition cpu_ready (s : smp) (i : Z) : Prop :=
  init (cpu_at s i) = true /\
  exists p, processor (cpu_at s i) = Some p /\ bytes (smem s) !! (p + 1) = Some (cpu_no (cpu_at s i)).

(** A machine with a configuration table: the signature is found in the
    [k]th paragraph of the ROM and leads to a table at [addr] that names the
    address [la] of the local APIC and holds the entries [es]; [flags] is
    the byte with the IMCR bit. *)
Record mp_tables (s : smp) (lit_mp lit_pcmp : Z) (k : nat) (addr la flags : Z) (es : list mp_entry) : Prop := MpTables {
  mt_mp : arr (bytes (smem s)) lit_mp [95; 77; 80; 95];
  mt_pcmp : arr (bytes (smem s)) lit_pcmp [80; 67; 77; 80];
  mt_rom : exists rom, arr (bytes (smem s)) (phys_to_virt ROM_BASE) rom /\ Z.of_nat (length rom) = ROM_SIZE /\
             first_mp [95; 77; 80; 95] rom k;
  mt_addr : arr (bytes (smem s)) (phys_to_virt ROM_BASE + 16 * k + 4) (le32 addr);
  mt_flags : bytes (smem s) !! (phys_to_virt ROM_BASE + 16 * k + 12) = Some flags;
  mt_sig : arr (bytes (smem s)) (phys_to_virt addr) [80; 67; 77; 80];
  mt_len : arr (bytes (smem s)) (phys_to_virt addr + 4) (le16 (sizeof_mp_config + length (concat (map encode es))));
  mt_lapic : arr (bytes (smem s)) (phys_to_virt addr + 36) (le32 la);
  mt_entries : arr (bytes (smem s)) (phys_to_virt addr + sizeof_mp_config) (concat (map encode es));
  mt_wf : Forall entry_wf es;
  mt_lintr : lintr_ok false es
}.

(** The local APIC has a page of its own that can be mapped. *)
Definition lapic_mappable (s : smp) (d la : Z) (F : gset Z) : Prop :=
  pt_ok (hpt (shw s)) d F /\ cr3 (hpt (shw s)) = 4096 * d /\ editable (hpt (shw s)) d la PAGE_SIZE F /\
  0 < la < 2 ^ 32 - 4096 /\ la mod 4096 = 0.

Lemma last_processor_entry b es : forall p i q,
  arr b p (concat (map encode es)) -> Forall entry_wf es -> last_processor p es i = Some q -> b !! (q + 1) = Some i.
Proof.
  induction es as [|e es IH]; intros p i q Ha Hw E; [done|]. cbn [map concat] in Ha. apply Forall_cons in Hw as [[Hs _] Hw].
  apply arr_app in Ha as [He Ha]. rewrite Hs in Ha. cbn [last_processor] in E.
  destruct (last_processor (p + entry_size e) es i) as [q'|] eqn:E'.
  - injection E as <-. by apply (IH (p + entry_size e)).
  - destruct e as [id r| | | |]; try done. destruct (Z.eqb_spec id i) as [->|]; [|done]. injection E as <-.
    cbn [encode] in He. apply arr_cons in He as [_ He]. by apply arr_cons in He as [He _].
Qed.

Lemma smp_init_run (s : smp) lit_mp lit_pcmp k addr la flags es d F port23 :
  mp_tables s lit_mp lit_pcmp k addr la flags es -> lapic_mappable s d la F ->
  exists s' F', smp_init lit_mp lit_pcmp (page_to_virt d) port23 s = Ret (0, s') /\
    smem s' = smem s /\ smp_up s' = true /\ l_ptr (shw s') = la /\ lapic_up (shw s') /\ pt_ok (hpt (shw s')) d F' /\
    l_log (shw s') = l_log (shw s) /\
    (forall i, cpu_at s' i = match last_processor (phys_to_virt addr + sizeof_mp_config) es i with
                             | Some q => Cpu i true false (Some q) | None => cpu_at s i end) /\
    ioapic_id (shw s') = default (ioapic_id (shw s)) (last_ioapic es) /\
    imcr s' = (if Z.shiftr flags 7 =? 0 then [] else [(0x23, Z.lor port23 1); (0x22, 0x70)]) ++ imcr s.
Proof.
  intros [Tm Tp (rom & Tr & Trl & Tk) Ta Tf Ts Tl Tla Te Tw Ti] (K & Hc & He & Hla & Hal). unfold smp_init.
  destruct (mp_search_run s lit_mp rom _ Tm eq_refl Tr Trl) as (r & E & Hr).
  rewrite (M_bind_run _ _ _ _ _ E). destruct r as [a|]; [|by destruct (Hr k (proj1 Tk)), Tk as (_ & ? & _)].
  destruct Hr as (k' & Hk' & ->). rewrite (first_mp_unique _ _ _ _ Hk' Tk). set (mp := phys_to_virt ROM_BASE + 16 * k) in *.
  rewrite (M_bind_run _ _ _ _ _ (read32_run _ _ _ Ta)). set (config := phys_to_virt addr) in *.
  destruct (memcmp_run (smem s) config lit_pcmp _ _ Ts Tp eq_refl) as (r & E1 & Hz).
  rewrite (M_bind_run _ _ _ _ _ (on_smem_run _ _ _ E1)), (proj2 Hz eq_refl). cbn [Z.eqb negb].
  rewrite (M_bind_run _ _ _ _ _ (read32_run _ _ _ Tla)). set (s1 := with_lapic_ptr la s).
  rewrite (M_bind_run _ _ s s1 tt) by done.
  destruct (map_device (hpt (shw s)) d la F K Hc ltac:(unfold fits; lia) Hal He) as (t' & F' & Em & K' & R & Hc' & _).
  assert (Ez : zoom shw with_shw (zoom hpt with_hpt (page_map (page_to_virt d) la la PAGE_SIZE PTE_W)) s1 =
               Ret (tt, with_shw (with_hpt t' (shw s1)) s1)).
  { apply zoom_run. by apply (zoom_run hpt with_hpt). }
  rewrite (M_bind_run _ _ _ _ _ Ez). set (s2 := with_shw _ _).
  rewrite (M_bind_run _ _ _ _ _ (read16_run (config + 4) _ s2 Tl)).
  destruct (scan_loop_run es (S (length (concat (map encode es)))) (config + sizeof_mp_config) None s2 Tw Ti Te ltac:(done) ltac:(lia))
    as (s3 & E3 & (F1 & F2 & F3 & F4 & F5 & F6) & Hcpu & Hio).
  assert (Es : scan_mp_entry (config + sizeof_mp_config) (config + (sizeof_mp_config + length (concat (map encode es)))) s2 = Ret (0, s3)).
  { unfold scan_mp_entry. replace (Z.to_nat _) with (length (concat (map encode es))) by lia.
    rewrite Z.add_assoc. exact E3. }
  rewrite (M_bind_run _ _ _ _ _ Es), (M_bind_run _ _ _ _ _ (read8_run (mp + 12) flags s3 ltac:(by rewrite F1))).
  set (pre := if Z.shiftr flags 7 =? 0 then [] else _). set (s4 := Smp (smem s3) (cpus s3) (shw s3) (smp_up s3) (pre ++ imcr s3)).
  rewrite (M_bind_run _ _ s3 s4 tt) by (unfold s4, pre; destruct (Z.shiftr flags 7 =? 0); [by destruct s3|done]).
  rewrite (M_bind_run _ _ s4 (Smp (smem s4) (cpus s4) (shw s4) true (imcr s4)) tt) by done.
  eexists _, F'. split; [reflexivity|]. unfold lapic_up, cpu_at in *. cbn [smem cpus shw smp_up imcr s4] in *.
  rewrite F3, F4, F5, F6. change (l_ptr (shw s2)) with la. split_and!; try done; lia.
Qed.

(** ** Starting the processors *)

Lemma icr_cons x w l : foldl icr_write x (w :: l) = foldl icr_write (icr_write x w) l.
Proof. done. Qed.

Lemma icr_sipi id w r :
  icr_write (Icr id w r) (ICRLO, 0x605) =
  if decide (id ∈ w) then Icr id (filter (fun i => i <> id) w) (r ++ [(id, 5)]) else Icr id w r.
Proof.
  change (icr_write (Icr id w r) (ICRLO, 0x605)) with
    (if bool_decide (id ∈ w) then Icr id (filter (fun i => i <> id) w) (r ++ [(id, 5)]) else Icr id w r).
  by case_bool_decide; case_decide.
Qed.

(** The commands of the universal start-up algorithm make exactly one
    processor run, once: the second STARTUP is ignored. *)
Lemma startup_sequence x id :
  0 <= id < 256 ->
  icr_runs (foldl icr_write x
    [(ICRHI, u32 (Z.shiftl id 24)); (ICRLO, Z.lor (Z.lor INIT LEVEL) ASSERT); (ICRLO, Z.lor INIT LEVEL);
     (ICRHI, u32 (Z.shiftl id 24)); (ICRLO, Z.lor STARTUP (Z.shiftr 0x5000 12));
     (ICRHI, u32 (Z.shiftl id 24)); (ICRLO, Z.lor STARTUP (Z.shiftr 0x5000 12))]) = icr_runs x ++ [(id, 5)].
Proof.
  intros Hid. destruct x as [d w r].
  assert (E : forall y, icr_write y (ICRHI, u32 (Z.shiftl id 24)) = Icr id (icr_waiting y) (icr_runs y)).
  { intros y. unfold icr_write. change (ICRHI =? 0x310) with true. cbv iota. f_equal.
    rewrite Z.shiftl_mul_pow2, wrap_small by (unfold fits; lia). rewrite Z.shiftr_div_pow2, Z.div_mul by lia. done. }
  change (Z.lor STARTUP (Z.shiftr 0x5000 12)) with 0x605.
  rewrite icr_cons, E.
  change (icr_runs (foldl icr_write (Icr id (id :: w) r)
    [(ICRHI, u32 (Z.shiftl id 24)); (ICRLO, 0x605); (ICRHI, u32 (Z.shiftl id 24)); (ICRLO, 0x605)]) = r ++ [(id, 5)]).
  rewrite icr_cons, E, icr_cons. cbn [icr_waiting icr_runs]. rewrite (icr_sipi id (id :: w) r). rewrite decide_True by apply list_elem_of_here.
  rewrite icr_cons, E, icr_cons. cbn [icr_waiting icr_runs]. rewrite icr_sipi, decide_False; [done|].
  rewrite list_elem_of_filter. by intros [? _].
Qed.

(** [s'] is [s] with the processors [c .. k - 1] woken, in this order, and
    marked as started. *)
Definition started_from (c k : Z) (s s' : smp) : Prop :=
  smem s' = smem s /\ hpt (shw s') = hpt (shw s) /\ lapic_up (shw s') /\ smp_up s' = smp_up s /\
  ap_starts (rev (l_log (shw s'))) = ap_starts (rev (l_log (shw s))) ++ map (fun i => (i, 5)) (seqZ c (k - c)) /\
  forall i, cpu_at s' i =
    let x := cpu_at s i in if decide (c <= i < k) then Cpu (cpu_no x) (init x) true (processor x) else x.

(** [cpu_up] on a processor that is not there yet makes it run, and leaves
    the state in which that processor's [start_secondary] ended. *)
Lemma cpu_up_wakes secondary delay c s :
  0 <= c < MAX_CPU -> cpu_ready s c -> cpu_no (cpu_at s c) = c -> lapic_up (shw s) ->
  exists h, lapic_up h /\ hpt h = hpt (shw s) /\
    ap_starts (rev (l_log h)) = ap_starts (rev (l_log (shw s))) ++ [(c, 5)] /\
    forall s2, secondary c (with_shw h s) = Ret (tt, s2) -> started (cpu_at s2 c) = true ->
      cpu_up_body secondary delay c s = Ret (0, s2).
Proof.
  intros Hc (Hi & p & Hp & Hb) Hn U. unfold MAX_CPU in Hc.
  destruct (lapic_startap_run delay (shw s) c (virt_to_phys (phys_to_virt 0x5000)) U) as (h & E & U' & Hh & Hl).
  assert (Ha : ap_starts (rev (l_log h)) = ap_starts (rev (l_log (shw s))) ++ [(c, 5)]).
  { rewrite Hl. unfold ap_starts. rewrite foldl_app. apply startup_sequence. lia. }
  exists h. split; [exact U'|]. split; [exact Hh|]. split; [exact Ha|]. intros s2 E2 Hst. unfold cpu_up_body.
  unfold MAX_CPU. replace (8 <=? c) with false by lia. rewrite (M_bind_run _ _ s s s) by done.
  rewrite Hi, Hp. cbn [negb deref]. rewrite (M_bind_run _ _ s s p) by done.
  rewrite (M_bind_run _ _ _ _ _ (read8_run _ _ _ Hb)), (M_bind_run _ _ s s tt) by (by rewrite Z.eqb_refl).
  rewrite Hn, (M_bind_run _ _ _ _ _ (zoom_run shw with_shw _ s _ _ E)). set (s1 := with_shw h s) in *.
  rewrite (M_bind_run _ _ s1 s1 s1) by done.
  rewrite bool_decide_true by (unfold woken; cbn [shw with_shw s1]; rewrite Ha, drop_app_length; apply list_elem_of_here).
  rewrite (M_bind_run _ _ _ _ _ E2), (M_bind_run _ _ s2 s2 s2) by done. by rewrite Hst.
Qed.

Lemma cpu_up_run delay n : forall fuel c s,
  0 <= c -> c + (S n) <= MAX_CPU -> (forall i, c <= i < c + (S n) -> cpu_ready s i /\ cpu_no (cpu_at s i) = i) ->
  (c + (S n) = MAX_CPU \/ init (cpu_at s (c + (S n))) = false) -> lapic_up (shw s) -> smp_up s = true -> (n < fuel)%nat ->
  exists s', cpu_up_loop fuel delay c s = Ret (0, s') /\ started_from c (c + (S n)) s s'.
Proof.
  induction n as [|n IH]; intros fuel c s Hc Hk Hr Hend U Hup Hf; (destruct fuel as [|fuel]; [lia|]); cbn [cpu_up_loop];
    destruct (Hr c ltac:(lia)) as [Rc Nc];
    destruct (cpu_up_wakes (start_secondary (cpu_up_loop fuel delay)) delay c s ltac:(lia) Rc Nc U) as (h & U' & Hh & Ha & Hw);
    set (s1 := with_shw h s) in *;
    assert (Hsec : forall s2, (if (c + 1 <? MAX_CPU) && init (cpu_at s (c + 1)) then cpu_up_loop fuel delay (c + 1) else mret 0) s1 = Ret (0, s2) ->
      smp_up s2 = true ->
      start_secondary (cpu_up_loop fuel delay) c s1 =
        Ret (tt, with_cpus (<[c := Cpu (cpu_no (cpu_at s2 c)) (init (cpu_at s2 c)) true (processor (cpu_at s2 c))]> (cpus s2)) s2))
    by (intros s2 E2 Hu; unfold start_secondary; rewrite (M_bind_run _ _ s1 s1 s1) by done;
        change (smp_up s1) with (smp_up s); rewrite Hup; change (cpu_at s1) with (cpu_at s);
        rewrite (M_bind_run _ _ _ _ _ E2), (M_bind_run _ _ s2 s2 s2) by done; by rewrite Hu).
  - replace (c + 1%nat) with (c + 1) in * by lia. replace ((c + 1 <? MAX_CPU) && init (cpu_at s (c + 1))) with false in Hsec
      by (destruct Hend as [Hend|Hend]; [by replace (c + 1 <? MAX_CPU) with false by lia|by rewrite Hend, andb_false_r]).
    eexists. split; [apply (Hw _ (Hsec s1 eq_refl Hup)); rewrite cpu_at_set; by rewrite decide_True|].
    split_and!; [done|exact Hh|exact U'|done|by replace (c + 1 - c) with 1 by lia|]. intros i. rewrite cpu_at_set.
    repeat case_decide; try lia; [by subst|done].
  - destruct (Hr (c + 1) ltac:(lia)) as [[Hi1 _] _]. rewrite Hi1 in Hsec. replace (c + 1 <? MAX_CPU) with true in Hsec by lia. cbn [andb] in Hsec.
    destruct (IH fuel (c + 1) s1 ltac:(lia) ltac:(lia)) as (s2 & E2 & Hm & Hp2 & U2 & Hu2 & Ha2 & Hc2);
      [intros i Hi'; apply Hr; lia|by replace (c + 1 + S n) with (c + S (S n)) by lia|exact U'|exact Hup|lia|].
    eexists. split; [apply (Hw _ (Hsec s2 E2 (eq_trans Hu2 Hup))); rewrite cpu_at_set; by rewrite decide_True|].
    split_and!; [exact Hm|by rewrite <-Hh|exact U2|exact Hu2| |].
    + cbn [shw with_cpus]. rewrite Ha2. change (shw s1) with h. rewrite Ha, <-app_assoc. f_equal.
      rewrite (seqZ_cons c) by lia. cbn [map app]. f_equal. f_equal. f_equal; lia.
    + intros i. rewrite cpu_at_set, !Hc2. change (cpu_at s1) with (cpu_at s).
      cbv zeta. repeat case_decide; try lia; try done; by subst.
Qed.

(** Starting processor [c] starts the whole row behind it, one after the
    other: on a machine that is set up, with a local APIC and a consistent
    table, [cpu_up] returns 0, and exactly the processors from [c] up to the
    first number without a processor are woken, each once, and marked as
    started.  A processor behind a gap in the numbers is not started.  The
    result is [-ENODEV] for a number beyond the table and [-EINVAL] for a
    number without a processor. *)
Theorem cpu_up_ok (delay : nat) (s : smp) (c k : Z) :
  0 <= c < k -> k <= MAX_CPU -> (forall i, c <= i < k -> cpu_ready s i /\ cpu_no (cpu_at s i) = i) ->
  (k = MAX_CPU \/ init (cpu_at s k) = false) -> lapic_up (shw s) -> smp_up s = true ->
  (exists s', cpu_up delay c s = Ret (0, s') /\ started_from c k s s') /\
  (forall j, MAX_CPU <= j -> cpu_up delay j s = Ret (- ENODEV, s)) /\
  (k < MAX_CPU -> cpu_up delay k s = Ret (- EINVAL, s)).
Proof.
  intros Hc Hk Hr Hend U Hup. split_and!.
  - destruct (cpu_up_run delay (Z.to_nat (k - c - 1)) 9 c s) as (s' & E & Hs).
    + lia.
    + lia.
    + intros i Hi. apply Hr. lia.
    + replace (c + S (Z.to_nat (k - c - 1))) with k by lia. exact Hend.
    + exact U.
    + exact Hup.
    + unfold MAX_CPU in *. lia.
    + replace (c + S (Z.to_nat (k - c - 1))) with k in Hs by lia. by exists s'.
  - intros j Hj. unfold cpu_up. cbn [cpu_up_loop]. unfold cpu_up_body. by replace (MAX_CPU <=? j) with true by lia.
  - intros Hlt. destruct Hend as [Hend|Hend]; [lia|]. unfold cpu_up. cbn [cpu_up_loop]. unfold cpu_up_body.
    replace (MAX_CPU <=? k) with false by lia. rewrite (M_bind_run _ _ s s s) by done. by rewrite Hend.
Qed.

(** [smp_init] sets the machine up from its tables: with a floating
    pointer in the ROM, the right signatures, well-formed entries and a page
    for the local APIC, it returns 0 and marks the machine as set up; the
    local APIC can then be reached at the address the table names, the
    processors and the I/O APIC of the table are known, and the IMCR is
    programmed exactly when the table says that there is one. *)
Theorem smp_init_ok (s : smp) (lit_mp lit_pcmp : Z) (k : nat) (addr la flags : Z) (es : list mp_entry) (d : Z) (F : gset Z) (port23 : Z) :
  mp_tables s lit_mp lit_pcmp k addr la flags es -> lapic_mappable s d la F ->
  exists s' F', smp_init lit_mp lit_pcmp (page_to_virt d) port23 s = Ret (0, s') /\
    smem s' = smem s /\ smp_up s' = true /\ l_ptr (shw s') = la /\ lapic_up (shw s') /\ pt_ok (hpt (shw s')) d F' /\
    l_log (shw s') = l_log (shw s) /\
    (forall i, cpu_at s' i = match last_processor (phys_to_virt addr + sizeof_mp_config) es i with
                             | Some q => Cpu i true false (Some q) | None => cpu_at s i end) /\
    ioapic_id (shw s') = default (ioapic_id (shw s)) (last_ioapic es) /\
    imcr s' = (if Z.shiftr flags 7 =? 0 then [] else [(0x23, Z.lor port23 1); (0x22, 0x70)]) ++ imcr s.
Proof. apply smp_init_run. Qed.


(** ** A machine with two processors *)

Definition es2 : list mp_entry :=
  [MpProcessor 0 (replicate 18 0); MpProcessor 1 (replicate 18 0); MpIoapic 2 (replicate 6 0);
   MpIointr (replicate 7 0); MpLintr (replicate 7 0)].
Definition rom2 : list Z := [95; 77; 80; 95] ++ le32 0x9FC00 ++ [1; 4; 0; 0] ++ 128 :: replicate (Z.to_nat 65523) 0.
Definition table2 : list Z :=
  [80; 67; 77; 80] ++ le16 (sizeof_mp_config + length (concat (map encode es2))) ++ replicate 30 0 ++
  le32 0xFEE00000 ++ replicate 4 0 ++ concat (map encode es2).
Definition mem2 : cmem :=
  CMem (blit (phys_to_virt ROM_BASE) rom2 (blit (phys_to_virt 0x9FC00) table2
         (blit 0xC0008000 [95; 77; 80; 95; 80; 67; 77; 80] ∅))) ∅.
Definition smp2 : smp := Smp mem2 ∅ hw0 false [].

Lemma tables_from (b : gmap Z Z) (rest : list Z) :
  arr b (phys_to_virt ROM_BASE) ([95; 77; 80; 95] ++ le32 0x9FC00 ++ [1; 4; 0; 0] ++ 128 :: rest) ->
  Z.of_nat (length rest) = 65523 ->
  arr b (phys_to_virt 0x9FC00) table2 -> arr b 0xC0008000 ([95; 77; 80; 95] ++ [80; 67; 77; 80]) ->
  mp_tables (Smp (CMem b ∅) ∅ hw0 false []) 0xC0008000 0xC0008004 0 0x9FC00 0xFEE00000 128 es2.
Proof.
  intros Hr Hlen Ht Hl. apply arr_app in Hl as [Hm Hp].
  assert (Hr0 := Hr). apply arr_app in Hr0 as [_ Hr0]. apply arr_app in Hr0 as [Ha Hr0]. apply arr_app in Hr0 as [_ Hf].
  apply arr_cons in Hf as [Hf _].
  apply arr_app in Ht as [Hs Ht]. apply arr_app in Ht as [Hn Ht]. apply arr_app in Ht as [_ Ht].
  apply arr_app in Ht as [Hla Ht]. apply arr_app in Ht as [_ He].
  split; cbn [smem bytes]; try assumption.
  - eexists. split; [exact Hr|]. split; [rewrite !length_app; cbn [length]; unfold ROM_SIZE; simpl; lia|].
    split; [lia|]. split; [done|]. lia.
  - repeat (apply Forall_cons; split; [split; [done|simpl; unfold MAX_CPU; lia]|]). by apply Forall_nil.
  - simpl. done.
Qed.

Lemma smp2_tables : mp_tables smp2 0xC0008000 0xC0008004 0 0x9FC00 0xFEE00000 128 es2.
Proof.
  apply (tables_from _ (replicate (Z.to_nat 65523) 0)).
  - apply arr_blit.
  - rewrite length_replicate, Z2Nat.id; lia.
  - apply arr_blit_other; [|apply arr_blit]. right. by vm_compute.
  - do 2 (apply arr_blit_other; [right; by vm_compute|]). apply arr_blit.
Qed.

Lemma smp2_mappable : lapic_mappable smp2 256 0xFEE00000 frames0.
Proof.
  split; [exact ptm0_ok|]. split; [done|]. split; [|lia].
  change (hpt (shw smp2)) with ptm0. split; change (npages PAGE_SIZE) with 1; change (0xFEE00000 / 4096) with 0xFEE00.
  - intros u Hu. assert (u = 0xFEE00) as -> by lia. done.
  - exists {[1019]}. split; [intros u Hu; assert (u = 0xFEE00) as -> by lia; right; by apply elem_of_singleton|].
    rewrite size_singleton, <- (size_singleton (C := gset Z) 0x37c00).
    apply subseteq_size, singleton_subseteq_l, frames0_spec. lia.
Qed.

Lemma smp_init_ok_witness :
  exists s', smp_init 0xC0008000 0xC0008004 (page_to_virt 256) 0 smp2 = Ret (0, s') /\ smp_up s' = true /\
    lapic_up (shw s') /\ ioapic_id (shw s') = 2 /\ imcr s' = [(0x23, 1); (0x22, 0x70)].
Proof.
  destruct (smp_init_ok smp2 0xC0008000 0xC0008004 0 0x9FC00 0xFEE00000 128 es2 256 frames0 0 smp2_tables smp2_mappable)
    as (s' & F' & E & _ & Hu & _ & U & _ & _ & _ & Hi & Hm).
  exists s'. split; [exact E|]. split; [exact Hu|]. split; [exact U|]. split; [exact Hi|exact Hm].
Defined.


Lemma scan_mp_entry_ok_witness :
  exists s', scan_mp_entry (phys_to_virt 0x9FC00 + 44) (phys_to_virt 0x9FC00 + 44 + length (concat (map encode es2))) smp2 = Ret (0, s') /\
    scanned (phys_to_virt 0x9FC00 + 44) es2 smp2 s'.
Proof.
  apply (scan_mp_entry_ok smp2 (phys_to_virt 0x9FC00 + 44) es2).
  - apply (mt_wf _ _ _ _ _ _ _ _ smp2_tables).
  - done.
  - apply (mt_entries _ _ _ _ _ _ _ _ smp2_tables).
Defined.
