(* ===== verification/Gpu.v ===== *)
(** * The frame buffer (graphic/gpu.c, graphic/init.c)

    Pixels are written through pointers to the three-byte [struct color],
    into the linear frame buffer at [vram].  A pixel takes
    [pixelbits / 8] bytes; the loops advance by the size of a colour, so
    the routines are right for 24 bits per pixel.  Mapping the frame buffer
    and the sys file that describes it ([gpu_init]) are left out. *)

From stdpp Require Import base numbers list gmap.
From Stdlib Require Import ZArith Lia.
From S2P Require Import Prelude CMem.

Open Scope Z_scope.

(** [struct color]: blue, green, red. *)
Record color := Color { blue : Z; green : Z; red : Z }.
Definition sizeof_color : Z := 3.

Definition Ivory : color := Color 0xF0 0xFF 0xFF.
Definition LightGreen : color := Color 0x90 0xEE 0x90.

(** The fields of [struct gpu_info] that the routines use. *)
Record gpu_info := GpuInfo { width : Z; height : Z; pixelbits : Z; vram : Z }.

Section Gpu.
Context (g : gpu_info).

Definition assert_point (x y : Z) : outcome unit := assert ((x <? width g) && (y <? height g)).
Definition pixel_bytes : Z := Z.shiftr (pixelbits g) 3.
Definition vram_size : Z := u32 (u32 (height g * width g) * pixel_bytes).
Definition vram_pixel (x y : Z) : Z := u32 (vram g + u32 (u32 (u32 (width g * y) + x) * pixel_bytes)).
Definition vram_width : Z := width g.
Definition vram_height : Z := height g.

(** [*p = c]. *)
Definition put_color (p : Z) (c : color) : M cmem unit :=
  _ ← wrb p (blue c); _ ← wrb (p + 1) (green c); wrb (p + 2) (red c).

Definition gpu_set_pixel (x y : Z) (c : color) : M cmem unit := put_color (vram_pixel x y) c.

(** [n] times [*p++ = c]. *)
Fixpoint put_colors (n : nat) (p : Z) (c : color) : M cmem unit :=
  match n with O => mret tt | S n => _ ← put_color p c; put_colors n (p + sizeof_color) c end.

Definition gpu_draw_line (x1 x2 y : Z) (c : color) : M cmem unit :=
  _ ← mlift (assert_point x1 y);
  _ ← mlift (assert_point x2 y);
  _ ← mlift (assert (x1 <? x2));
  put_colors (Z.to_nat (x2 - x1 + 1)) (vram_pixel x1 y) c.

(** The rows [y], [y + 1], ... *)
Fixpoint fill_rows (n : nat) (x1 x2 y : Z) (c : color) : M cmem unit :=
  match n with
  | O => mret tt
  | S n => _ ← put_colors (Z.to_nat (x2 - x1 + 1)) (vram_pixel x1 y) c; fill_rows n x1 x2 (y + 1) c
  end.

Definition gpu_fill_rect (x1 y1 x2 y2 : Z) (c : color) : M cmem unit :=
  _ ← mlift (assert_point x1 y1);
  _ ← mlift (assert_point x2 y2);
  _ ← mlift (assert (x1 <? x2));
  _ ← mlift (assert (y1 <? y2));
  fill_rows (Z.to_nat (y2 - y1 + 1)) x1 x2 y1 c.

(** The two rectangles of [graphic_init]. *)
Definition graphic_fill : M cmem unit :=
  _ ← gpu_fill_rect 0 0 (u32 (vram_width - 1)) (u32 (vram_height - 1)) Ivory;
  gpu_fill_rect 0 (u32 (vram_height - 51)) (u32 (vram_width - 1)) (u32 (vram_height - 1)) LightGreen.

(** ** What is painted *)

(** A component of a colour, in the order of the bytes. *)
Definition component (c : color) (k : Z) : Z := if k =? 0 then blue c else if k =? 1 then green c else red c.

(** [b'] is [b] with the pixels that [P] selects, and no other byte, set to
    the colour [c]. *)
Definition painted (P : Z -> Z -> bool) (c : color) (b b' : gmap Z Z) : Prop :=
  forall a, b' !! a =
    let i := (a - vram g) / 3 in
    if P (i mod width g) (i / width g) then Some (component c ((a - vram g) mod 3)) else b !! a.

(** A frame buffer of 24 bits per pixel, all of it in memory. *)
Record frame_buffer (b : gmap Z Z) : Prop := FrameBuffer {
  fb_width : 0 < width g < 2 ^ 16;
  fb_height : 0 < height g < 2 ^ 16;
  fb_bits : pixelbits g = 24;
  fb_vram : 0 <= vram g /\ vram g + 3 * (width g * height g) <= 2 ^ 32;
  fb_mapped : mapped b (vram g) (3 * (width g * height g))
}.

Definition color_ok (c : color) : Prop := 0 <= blue c < 256 /\ 0 <= green c < 256 /\ 0 <= red c < 256.

Lemma painted_none c b : painted (fun _ _ => false) c b b.
Proof. by intros a. Qed.

Lemma painted_ext P Q c b b' : (forall x y, P x y = Q x y) -> painted P c b b' -> painted Q c b b'.
Proof. intros E H a. rewrite H. cbv zeta. by rewrite E. Qed.

Lemma painted_union P Q c b b1 b2 :
  painted P c b b1 -> painted Q c b1 b2 -> painted (fun x y => P x y || Q x y) c b b2.
Proof. intros H1 H2 a. rewrite H2. cbv zeta. destruct (Q _ _); [by rewrite orb_true_r|]. rewrite orb_false_r. apply H1. Qed.

(** Painting over. *)
Lemma painted_over P Q c d b b1 b2 a :
  painted P c b b1 -> painted Q d b1 b2 ->
  b2 !! a = let i := (a - vram g) / 3 in
    if Q (i mod width g) (i / width g) then Some (component d ((a - vram g) mod 3))
    else if P (i mod width g) (i / width g) then Some (component c ((a - vram g) mod 3)) else b !! a.
Proof. intros H1 H2. rewrite H2. cbv zeta. by rewrite H1. Qed.

Lemma frame_buffer_painted P c b b' : frame_buffer b -> painted P c b b' -> frame_buffer b'.
Proof.
  intros [? ? ? ? Hm] H. split; try done. intros i Hi. rewrite H. cbv zeta. destruct (P _ _); [done|]. by apply Hm.
Qed.

Lemma vram_pixel_spec b x y : frame_buffer b -> 0 <= x < width g -> 0 <= y < height g ->
  vram_pixel x y = vram g + 3 * (width g * y + x).
Proof.
  intros [Hw Hh Hb Hv _] Hx Hy. unfold vram_pixel, pixel_bytes. rewrite Hb. change (Z.shiftr 24 3) with 3.
  assert (0 <= width g * y /\ width g * y + x < width g * height g) by nia.
  rewrite (wrap_small 32 (width g * y)) by (unfold fits; lia). rewrite (wrap_small 32 (width g * y + x)) by (unfold fits; lia).
  rewrite (wrap_small 32 ((width g * y + x) * 3)) by (unfold fits; lia). rewrite wrap_small by (unfold fits; lia). lia.
Qed.

Lemma put_color_run s p c : color_ok c -> mapped (bytes s) p 3 ->
  put_color p c s = Ret (tt, put_bytes (blit p [blue c; green c; red c] (bytes s)) s).
Proof.
  intros (H1 & H2 & H3) Hm. unfold put_color.
  assert (Hi : forall b i, 0 <= i < 3 -> is_Some (blit p b (bytes s) !! (p + i))).
  { intros b i Hi. apply (mapped_blit _ p b p 3 Hm). lia. }
  rewrite (M_bind_run _ _ _ _ _ (wrb_run s p _ ltac:(rewrite <-(Z.add_0_r p); by apply Hm) H1)).
  set (s1 := put_bytes _ _).
  rewrite (M_bind_run _ _ _ _ _ (wrb_run s1 (p + 1) _ ltac:(by apply (Hi [blue c])) H2)). set (s2 := put_bytes _ _).
  assert (E2 : bytes s2 = blit p [blue c; green c] (bytes s)).
  { unfold s2, s1. cbn [put_bytes bytes blit]. apply insert_insert_ne. lia. }
  rewrite (wrb_run s2 (p + 2) _ ltac:(rewrite E2; by apply Hi) H3). unfold s2, s1. cbn [put_bytes bytes blocks blit].
  apply (f_equal (fun b => Ret (tt, CMem b (blocks s)))). replace (p + 1 + 1) with (p + 2) by lia.
  rewrite (insert_insert_ne _ (p + 2) (p + 1)) by lia. rewrite (insert_insert_ne _ (p + 2) p) by lia.
  by rewrite (insert_insert_ne _ (p + 1) p) by lia.
Qed.

(** One pixel. *)
Lemma painted_pixel b x y c : 0 <= x < width g -> 0 <= y ->
  painted (fun x' y' => (x' =? x) && (y' =? y)) c b (blit (vram g + 3 * (width g * y + x)) [blue c; green c; red c] b).
Proof.
  intros Hx Hy a. set (w := width g) in *. rewrite blit_lookup. cbn [length]. cbv zeta.
  set (d := a - vram g). set (i := d / 3). pose proof (Z.div_mod d 3 ltac:(lia)) as Ed. fold i in Ed.
  pose proof (Z.mod_pos_bound d 3 ltac:(lia)) as Hm. pose proof (Z.div_mod i w ltac:(lia)) as Ei.
  pose proof (Z.mod_pos_bound i w ltac:(lia)) as Hmi.
  destruct (decide (i = w * y + x)) as [E|E].
  - assert (i mod w = x /\ i / w = y) as [-> ->].
    { rewrite E. split; [symmetry; apply (Z.mod_unique_pos _ _ y); lia|symmetry; apply (Z.div_unique_pos _ _ _ x); lia]. }
    rewrite !Z.eqb_refl. cbn [andb]. replace (_ && _) with true by (unfold d in *; lia).
    replace (a - (vram g + 3 * (w * y + x))) with (d mod 3) by (unfold d in *; lia).
    assert (d mod 3 = 0 \/ d mod 3 = 1 \/ d mod 3 = 2) as [->|[->| ->]] by lia; done.
  - assert (i mod w =? x = true -> i / w =? y = true -> False) by (intros; apply E; lia).
    replace ((i mod w =? x) && (i / w =? y)) with false by (destruct (i mod w =? x), (i / w =? y); naive_solver).
    by replace (_ && _) with false by (unfold d in *; lia).
Qed.

Lemma put_colors_run c n : forall s x y,
  frame_buffer (bytes s) -> color_ok c -> 0 <= x -> x + Z.of_nat n <= width g -> 0 <= y < height g ->
  exists b', put_colors n (vram g + 3 * (width g * y + x)) c s = Ret (tt, put_bytes b' s) /\
    painted (fun x' y' => (x <=? x') && (x' <? x + Z.of_nat n) && (y' =? y)) c (bytes s) b'.
Proof.
  induction n as [|n IH]; intros s x y F Hc Hx Hn Hy; cbn [put_colors].
  - exists (bytes s). split; [by destruct s|]. eapply painted_ext; [|apply painted_none].
    intros x' y'. cbv beta. lia.
  - destruct F as [Fw Fh Fb Fv Fm] eqn:HF. clear HF.
    assert (Hm : mapped (bytes s) (vram g + 3 * (width g * y + x)) 3) by (eapply mapped_sub; [exact Fm|lia|nia]).
    rewrite (M_bind_run _ _ _ _ _ (put_color_run s _ c Hc Hm)). set (s1 := put_bytes _ _).
    pose proof (painted_pixel (bytes s) x y c ltac:(lia) ltac:(lia)) as P1.
    destruct (IH s1 (x + 1) y) as (b' & E & P2); [by eapply frame_buffer_painted|done|lia|lia|done|].
    unfold sizeof_color. replace (vram g + 3 * (width g * y + x) + 3) with (vram g + 3 * (width g * y + (x + 1))) by lia.
    exists b'. split; [exact E|]. eapply painted_ext; [|exact (painted_union _ _ _ _ _ _ P1 P2)].
    intros x' y'. cbv beta. lia.
Qed.

Definition in_rect (x1 y1 x2 y2 x y : Z) : bool := (x1 <=? x) && (x <=? x2) && (y1 <=? y) && (y <=? y2).

Lemma fill_rows_run c n : forall s x1 x2 y,
  frame_buffer (bytes s) -> color_ok c -> 0 <= x1 <= x2 -> x2 < width g -> 0 <= y -> y + Z.of_nat n <= height g ->
  exists b', fill_rows n x1 x2 y c s = Ret (tt, put_bytes b' s) /\
    painted (in_rect x1 y x2 (y + Z.of_nat n - 1)) c (bytes s) b'.
Proof.
  induction n as [|n IH]; intros s x1 x2 y F Hc Hx Hx2 Hy Hn; cbn [fill_rows].
  - exists (bytes s). split; [by destruct s|]. eapply painted_ext; [|apply painted_none].
    intros x' y'. unfold in_rect. lia.
  - rewrite (vram_pixel_spec (bytes s)) by (done || lia).
    destruct (put_colors_run c (Z.to_nat (x2 - x1 + 1)) s x1 y F Hc) as (b1 & E1 & P1); [lia|lia|lia|].
    rewrite (M_bind_run _ _ _ _ _ E1).
    destruct (IH (put_bytes b1 s) x1 x2 (y + 1)) as (b' & E & P2); [by eapply frame_buffer_painted|done|lia|lia|lia|lia|].
    exists b'. split; [exact E|]. eapply painted_ext; [|exact (painted_union _ _ _ _ _ _ P1 P2)].
    intros x' y'. unfold in_rect. cbv beta. lia.
Qed.

Lemma gpu_fill_rect_run s x1 y1 x2 y2 c :
  frame_buffer (bytes s) -> color_ok c -> 0 <= x1 < x2 -> x2 < width g -> 0 <= y1 < y2 -> y2 < height g ->
  exists b', gpu_fill_rect x1 y1 x2 y2 c s = Ret (tt, put_bytes b' s) /\
    painted (in_rect x1 y1 x2 y2) c (bytes s) b'.
Proof.
  intros F Hc Hx Hx2 Hy Hy2. unfold gpu_fill_rect, assert_point.
  replace ((x1 <? width g) && (y1 <? height g)) with true by lia.
  replace ((x2 <? width g) && (y2 <? height g)) with true by lia.
  replace (x1 <? x2) with true by lia. replace (y1 <? y2) with true by lia.
  do 4 rewrite (M_bind_run _ _ s s tt) by done.
  destruct (fill_rows_run c (Z.to_nat (y2 - y1 + 1)) s x1 x2 y1 F Hc) as (b' & E & P); [lia|lia|lia|lia|].
  exists b'. split; [exact E|]. by replace (y1 + Z.of_nat (Z.to_nat (y2 - y1 + 1)) - 1) with y2 in P by lia.
Qed.

(** On a frame buffer of 24 bits per pixel, [gpu_fill_rect] sets exactly
    the pixels of the rectangle, corners included, to the colour; every
    other byte of memory is unchanged.  A rectangle that leaves the screen
    or is not at least two pixels wide and high stops the kernel before
    anything is written. *)
Theorem gpu_fill_rect_ok (s : cmem) (x1 y1 x2 y2 : Z) (c : color) :
  frame_buffer (bytes s) -> color_ok c -> 0 <= x1 -> 0 <= y1 ->
  if (x1 <? x2) && (x2 <? width g) && (y1 <? y2) && (y2 <? height g)
  then exists b', gpu_fill_rect x1 y1 x2 y2 c s = Ret (tt, put_bytes b' s) /\
         painted (in_rect x1 y1 x2 y2) c (bytes s) b'
  else gpu_fill_rect x1 y1 x2 y2 c s = Bug.
Proof.
  intros F Hc Hx Hy. destruct (_ && _) eqn:E; [apply gpu_fill_rect_run; lia || done|].
  unfold gpu_fill_rect, assert_point.
  destruct ((x1 <? width g) && (y1 <? height g)) eqn:E1; [|done].
  destruct ((x2 <? width g) && (y2 <? height g)) eqn:E2; [|done].
  destruct (x1 <? x2) eqn:E3; [|done]. destruct (y1 <? y2) eqn:E4; [|done]. lia.
Qed.

(** [gpu_draw_line] is one row of it. *)
Theorem gpu_draw_line_ok (s : cmem) (x1 x2 y : Z) (c : color) :
  frame_buffer (bytes s) -> color_ok c -> 0 <= x1 < x2 -> x2 < width g -> 0 <= y < height g ->
  exists b', gpu_draw_line x1 x2 y c s = Ret (tt, put_bytes b' s) /\ painted (in_rect x1 y x2 y) c (bytes s) b'.
Proof.
  intros F Hc Hx Hx2 Hy. unfold gpu_draw_line, assert_point.
  replace ((x1 <? width g) && (y <? height g)) with true by lia.
  replace ((x2 <? width g) && (y <? height g)) with true by lia. replace (x1 <? x2) with true by lia.
  do 3 rewrite (M_bind_run _ _ s s tt) by done. rewrite (vram_pixel_spec (bytes s)) by (done || lia).
  destruct (put_colors_run c (Z.to_nat (x2 - x1 + 1)) s x1 y F Hc) as (b' & E & P); [lia|lia|done|].
  exists b'. split; [exact E|]. eapply painted_ext; [|exact P]. intros x' y'. unfold in_rect. lia.
Qed.

Lemma graphic_fill_run (s : cmem) :
  frame_buffer (bytes s) -> 1 < width g -> 1 < height g ->
  if 50 <? height g
  then exists b', graphic_fill s = Ret (tt, put_bytes b' s) /\
    (forall a, vram g <= a < vram g + 3 * (width g * height g) ->
       b' !! a = Some (component (if (a - vram g) / 3 / width g <? height g - 51 then Ivory else LightGreen) ((a - vram g) mod 3))) /\
    (forall a, ~ (vram g <= a < vram g + 3 * (width g * height g)) -> b' !! a = bytes s !! a)
  else graphic_fill s = Bug.
Proof.
  intros F Hw Hh. pose proof (fb_width _ F). pose proof (fb_height _ F). unfold graphic_fill, vram_width, vram_height.
  rewrite (wrap_small 32 (width g - 1)), (wrap_small 32 (height g - 1)) by (unfold fits; lia).
  destruct (gpu_fill_rect_run s 0 0 (width g - 1) (height g - 1) Ivory F) as (b1 & E1 & P1); [by split_and!|lia|lia|lia|lia|].
  rewrite (M_bind_run _ _ _ _ _ E1). destruct (Z.ltb_spec 50 (height g)) as [Hb|Hb].
  - rewrite wrap_small by (unfold fits; lia).
    destruct (gpu_fill_rect_run (put_bytes b1 s) 0 (height g - 51) (width g - 1) (height g - 1) LightGreen) as (b2 & E2 & P2);
      [by eapply frame_buffer_painted|by split_and!|lia|lia|lia|lia|].
    exists b2. split; [exact E2|].
    assert (Hrow : forall a, let i := (a - vram g) / 3 in 0 <= i mod width g < width g /\
      (vram g <= a < vram g + 3 * (width g * height g) <-> 0 <= i / width g < height g)).
    { intros a i. split; [apply Z.mod_pos_bound; lia|]. unfold i. rewrite Z.div_div by lia.
      pose proof (Z.div_mod (a - vram g) (3 * width g) ltac:(lia)). pose proof (Z.mod_pos_bound (a - vram g) (3 * width g) ltac:(lia)).
      split; intros; nia. }
    split; intros a Ha; destruct (Hrow a) as [Hc Hr]; rewrite (painted_over _ _ _ _ _ _ _ a P1 P2); unfold in_rect; cbv zeta in *.
    + apply Hr in Ha. destruct (Z.ltb_spec ((a - vram g) / 3 / width g) (height g - 51)).
      * replace (height g - 51 <=? (a - vram g) / 3 / width g) with false by lia. rewrite andb_false_r. cbn [andb]. if_true. done.
      * if_true. done.
    + assert (~ 0 <= (a - vram g) / 3 / width g < height g) by tauto. do 2 if_false. done.
  - unfold gpu_fill_rect, assert_point.
    assert (Hwr : u32 (height g - 51) = height g - 51 + 2 ^ 32).
    { unfold wrap. rewrite <-(Z.mod_add _ 1) by lia. rewrite Z.mod_small; lia. }
    rewrite Hwr. by replace ((0 <? width g) && (height g - 51 + 2 ^ 32 <? height g)) with false by lia.
Qed.

(** The first screen: above the last 51 lines every pixel is ivory, the
    last 51 lines are light green, and no byte outside the frame buffer
    changes.  On a screen of less than 51 lines the unsigned subtraction
    wraps and an assertion stops the kernel. *)
Theorem graphic_fill_ok (s : cmem) :
  frame_buffer (bytes s) -> 1 < width g -> 1 < height g ->
  if 50 <? height g
  then exists b', graphic_fill s = Ret (tt, put_bytes b' s) /\
    (forall a, vram g <= a < vram g + 3 * (width g * height g) ->
       b' !! a = Some (component (if (a - vram g) / 3 / width g <? height g - 51 then Ivory else LightGreen) ((a - vram g) mod 3))) /\
    (forall a, ~ (vram g <= a < vram g + 3 * (width g * height g)) -> b' !! a = bytes s !! a)
  else graphic_fill s = Bug.
Proof. apply graphic_fill_run. Qed.

End Gpu.

(** ** Two small screens *)

Definition gpu24 : gpu_info := GpuInfo 4 60 24 0xFD000000.
Definition gpu32 : gpu_info := GpuInfo 4 4 32 0xFD000000.
Definition blank (n : nat) : cmem := CMem (blit 0xFD000000 (replicate n 0) ∅) ∅.

(** With 32 bits per pixel the loops advance by three bytes instead of four:
    filling the screen leaves the last pixel of each line as it was. *)
Theorem gpu_fill_rect_32bpp :
  exists s', gpu_fill_rect gpu32 0 0 3 3 Ivory (blank 64) = Ret (tt, s') /\
    bytes s' !! vram_pixel gpu32 0 0 = Some (blue Ivory) /\ bytes s' !! vram_pixel gpu32 3 0 = Some 0.
Proof. eexists. split; [by vm_compute|]. split; by vm_compute. Qed.

Lemma gpu24_frame : frame_buffer gpu24 (bytes (blank 720)).
Proof.
  split; cbn; try lia. unfold blank. cbn [bytes].
  pose proof (arr_mapped _ _ _ (arr_blit 0xFD000000 (replicate 720 0) ∅)) as H. by rewrite length_replicate in H.
Qed.

Lemma gpu_fill_rect_ok_witness :
  exists b', gpu_fill_rect gpu24 1 2 3 4 Ivory (blank 720) = Ret (tt, put_bytes b' (blank 720)) /\
    painted gpu24 (in_rect 1 2 3 4) Ivory (bytes (blank 720)) b'.
Proof. apply (gpu_fill_rect_ok gpu24 (blank 720) 1 2 3 4 Ivory gpu24_frame); [by split_and!|lia|lia]. Defined.

Lemma graphic_fill_ok_witness :
  exists b', graphic_fill gpu24 (blank 720) = Ret (tt, put_bytes b' (blank 720)) /\
    b' !! 0xFD000000 = Some (blue Ivory) /\ b' !! (0xFD000000 + 719) = Some (red LightGreen).
Proof.
  destruct (graphic_fill_ok gpu24 (blank 720) gpu24_frame) as (b' & E & Hp & _); [cbn; lia|cbn; lia|].
  exists b'. split; [exact E|]. split; [apply (Hp 0xFD000000)|apply (Hp (0xFD000000 + 719))]; cbn; lia.
Defined.
