(* ===== verification/Boot.v ===== *)
(** * The boot loader (boot/setup/main.c, include/elf.h)

    [readseg] reads whole sectors of the first IDE disk, programmed through
    its ports, and [bootmain] reads the first page of the kernel image,
    which is an ELF file, loads its segments and the code for the other
    processors, and jumps to the entry point.  The disk is a function from
    a sector and an index to a byte; the controller holds the values last
    written to its ports and is busy for [delay] reads of its status after a
    command.  Physical memory accepts every write. *)

From stdpp Require Import base numbers list gmap.
From Stdlib Require Import ZArith Lia.
From S2P Require Import Prelude CMem.

Open Scope Z_scope.

#[local] Coercion Z.of_nat : nat >-> Z.

Definition SECTSIZE : Z := 512.
Definition ELFHDR : Z := 0x10000.
Definition ELF_MAGIC : Z := 0x464C457F.

(** Offsets in [struct elfhdr] and [struct proghdr], and the size of the
    latter. *)
Definition e_entry : Z := 24.
Definition e_phoff : Z := 28.
Definition e_phnum : Z := 44.
Definition p_offset : Z := 4.
Definition p_va : Z := 8.
Definition p_memsz : Z := 20.
Definition sizeof_proghdr : Z := 32.

(** Memory, the ports of the disk controller, and for how many reads of its
    status it stays busy. *)
Record boot := Boot { bmem : cmem; ports : gmap Z Z; busy : nat }.

Definition with_bmem (m : cmem) (s : boot) : boot := Boot m (ports s) (busy s).
Definition on_bmem {A} (m : M cmem A) : M boot A := zoom bmem with_bmem m.

Section Disk.
Context (disk : Z -> Z -> Z) (delay : nat).

Definition port (s : boot) (p : Z) : Z := default 0 (ports s !! p).

Definition disk_outb (p v : Z) : M boot unit := mmod (fun s =>
  Boot (bmem s) (<[p := u8 v]> (ports s)) (if p =? 0x1F7 then delay else busy s)).

(** The status register: busy (0x80) or ready (0x40). *)
Definition disk_status : M boot Z := fun s =>
  match busy s with
  | O => Ret (0x40, s)
  | S n => Ret (0x80, Boot (bmem s) (ports s) n)
  end.

Fixpoint waitdisk_loop (fuel : nat) : M boot unit :=
  match fuel with
  | O => fun _ => Spin
  | S fuel => st ← disk_status; if negb (Z.land st 0xC0 =? 0x40) then waitdisk_loop fuel else mret tt
  end.
Definition waitdisk : M boot unit := fun s => waitdisk_loop (S (busy s)) s.

(** The sector the ports address (28 bits), and its bytes. *)
Definition lba (s : boot) : Z :=
  port s 0x1F3 + Z.shiftl (port s 0x1F4) 8 + Z.shiftl (port s 0x1F5) 16 + Z.shiftl (Z.land (port s 0x1F6) 0xF) 24.
Definition sector (n : Z) : list Z := map (disk n) (seqZ 0 SECTSIZE).

(** [insl(0x1F0, dst, SECTSIZE / 4)] after a read command for one sector. *)
Definition insl (dst : Z) : M boot unit := fun s =>
  if (port s 0x1F7 =? 0x20) && (port s 0x1F2 =? 1)
  then Ret (tt, with_bmem (put_bytes (blit dst (sector (lba s)) (bytes (bmem s))) (bmem s)) s) else Fault.

Definition readsect (dst secno : Z) : M boot unit :=
  _ ← waitdisk;
  _ ← disk_outb 0x1F2 1;
  _ ← disk_outb 0x1F3 (Z.land secno 0xFF);
  _ ← disk_outb 0x1F4 (Z.land (Z.shiftr secno 8) 0xFF);
  _ ← disk_outb 0x1F5 (Z.land (Z.shiftr secno 16) 0xFF);
  _ ← disk_outb 0x1F6 (Z.lor (Z.land (Z.shiftr secno 24) 0xF) 0xE0);
  _ ← disk_outb 0x1F7 0x20;
  _ ← waitdisk;
  insl dst.

Fixpoint readseg_loop (fuel : nat) (va end_va secno : Z) : M boot unit :=
  match fuel with
  | O => fun _ => Spin
  | S fuel =>
      if va <? end_va then _ ← readsect va secno; readseg_loop fuel (u32 (va + SECTSIZE)) end_va (u32 (secno + 1))
      else mret tt
  end.

(** A round reads a sector of the [count] bytes. *)
Definition readseg (va count offset : Z) : M boot unit :=
  let end_va := u32 (va + count) in
  let va := u32 (va - offset mod SECTSIZE) in
  let secno := offset / SECTSIZE in
  readseg_loop (Z.to_nat (count / SECTSIZE + 3)) va end_va secno.

Fixpoint load_loop (fuel : nat) (ph eph : Z) : M boot unit :=
  match fuel with
  | O => fun _ => Spin
  | S fuel =>
      if ph <? eph then
        va ← on_bmem (rd32 (ph + p_va));
        memsz ← on_bmem (rd32 (ph + p_memsz));
        off ← on_bmem (rd32 (ph + p_offset));
        _ ← readseg (Z.land va 0xFFFFFF) memsz (u32 (SECTSIZE * 4 + off));
        load_loop fuel (u32 (ph + sizeof_proghdr)) eph
      else mret tt
  end.

(** [bootmain]: the address it jumps to, or [None] for an invalid image. *)
Definition bootmain : M boot (option Z) :=
  _ ← readseg ELFHDR (SECTSIZE * 8) (SECTSIZE * 4);
  magic ← on_bmem (rd32 ELFHDR);
  if negb (magic =? ELF_MAGIC) then mret None
  else
    phoff ← on_bmem (rd32 (ELFHDR + e_phoff));
    phnum ← on_bmem (rd16 (ELFHDR + e_phnum));
    let ph := u32 (ELFHDR + phoff) in
    let eph := u32 (ph + sizeof_proghdr * phnum) in
    _ ← load_loop (S (Z.to_nat phnum)) ph eph;
    _ ← readseg 0x5000 SECTSIZE (SECTSIZE * 3);
    entry ← on_bmem (rd32 (ELFHDR + e_entry));
    mret (Some (Z.land entry 0xFFFFFF)).

(** ** Reading sectors *)

(** The byte at an offset of the disk. *)
Definition disk_byte (o : Z) : Z := disk (o / SECTSIZE) (o mod SECTSIZE).

(** [b'] is [b] with the bytes of the disk from [src] on at [lo .. hi - 1]. *)
Definition loaded (lo hi src : Z) (b b' : gmap Z Z) : Prop :=
  forall a, b' !! a = if (lo <=? a) && (a <? hi) then Some (disk_byte (src + (a - lo))) else b !! a.

Lemma waitdisk_run s : waitdisk s = Ret (tt, Boot (bmem s) (ports s) O).
Proof.
  unfold waitdisk. destruct s as [m p n]. cbn [busy]. induction n as [|n IH]; [done|].
  cbn [waitdisk_loop]. rewrite (M_bind_run _ _ _ (Boot m p n) 0x80) by done. exact IH.
Qed.

Lemma lba_number n : 0 <= n < 2 ^ 28 ->
  u8 (Z.land n 0xFF) + Z.shiftl (u8 (Z.land (Z.shiftr n 8) 0xFF)) 8 + Z.shiftl (u8 (Z.land (Z.shiftr n 16) 0xFF)) 16 +
  Z.shiftl (Z.land (u8 (Z.lor (Z.land (Z.shiftr n 24) 0xF) 0xE0)) 0xF) 24 = n.
Proof.
  intros Hn. unfold wrap. rewrite <-!(Z.land_ones _ 8) by lia. change (Z.ones 8) with 0xFF. change 0xF with (Z.ones 4).
  rewrite <-!Z.land_assoc. change (Z.land 0xFF 0xFF) with (Z.ones 8). change (Z.land 0xFF (Z.ones 4)) with (Z.ones 4).
  rewrite Z.land_lor_distr_l. change (Z.land 0xE0 (Z.ones 4)) with 0. rewrite Z.lor_0_r, <-Z.land_assoc.
  change (Z.land (Z.ones 4) (Z.ones 4)) with (Z.ones 4).
  rewrite !Z.land_ones, !Z.shiftr_div_pow2, !Z.shiftl_mul_pow2 by lia.
  change (2 ^ 8) with 256. change (2 ^ 16) with 65536. change (2 ^ 24) with 16777216. change (2 ^ 4) with 16. change (2 ^ 28) with 268435456 in Hn.
  Z.div_mod_to_equations. lia.
Qed.

Lemma disk_outb_run p v s : disk_outb p v s =
  Ret (tt, Boot (bmem s) (<[p := u8 v]> (ports s)) (if p =? 0x1F7 then delay else busy s)).
Proof. done. Qed.

Lemma readsect_run s dst secno : 0 <= secno < 2 ^ 28 ->
  exists p n, readsect dst secno s =
    Ret (tt, Boot (put_bytes (blit dst (sector secno) (bytes (bmem s))) (bmem s)) p n).
Proof.
  intros Hn. unfold readsect. rewrite (M_bind_run _ _ _ _ _ (waitdisk_run s)).
  do 6 (rewrite (M_bind_run _ _ _ _ _ (disk_outb_run _ _ _)); cbn [bmem ports busy Z.eqb Pos.eqb]).
  rewrite (M_bind_run _ _ _ _ _ (waitdisk_run _)). cbn [bmem ports]. unfold insl, lba, port. cbn [ports bmem].
  repeat (rewrite lookup_insert_eq || rewrite lookup_insert_ne by done). cbn [default from_option id]. unfold default.
  change (u8 32 =? 32) with true. change (u8 1 =? 1) with true. cbn [andb].
  rewrite lba_number by done. eauto.
Qed.

Lemma sector_length n : length (sector n) = 512%nat.
Proof. unfold sector. by rewrite length_map, length_seqZ. Qed.

Lemma sector_lookup n i : (i < 512)%nat -> sector n !! i = Some (disk n i).
Proof. intros Hi. unfold sector. rewrite list_lookup_fmap, lookup_seqZ_lt by (unfold SECTSIZE; lia). done. Qed.

Lemma loaded_sector dst n b : loaded dst (dst + 512) (512 * n) b (blit dst (sector n) b).
Proof.
  intros a. rewrite blit_lookup, sector_length. change (Z.of_nat 512) with 512. destruct (_ && _) eqn:E; [|done].
  rewrite sector_lookup by lia. f_equal. unfold disk_byte, SECTSIZE. rewrite Z2Nat.id by lia.
  replace (512 * n + (a - dst)) with ((a - dst) + n * 512) by lia. rewrite Z.div_add, Z.mod_add by lia.
  by rewrite Z.div_small, Z.mod_small by lia.
Qed.

Lemma loaded_trans lo mi hi src b b1 b2 : lo <= mi <= hi ->
  loaded lo mi src b b1 -> loaded mi hi (src + (mi - lo)) b1 b2 -> loaded lo hi src b b2.
Proof.
  intros Hm H1 H2 a. rewrite H2, H1. destruct (Z.ltb_spec a mi).
  - replace (mi <=? a) with false by lia. replace (a <? hi) with true by lia. cbn [andb]. by rewrite andb_true_r.
  - replace (mi <=? a) with true by lia. replace (lo <=? a) with true by lia. cbn [andb]. destruct (a <? hi); [|done].
    do 2 f_equal. lia.
Qed.

Lemma readseg_loop_run n : forall fuel s va end_va secno,
  0 <= va -> va + 512 * Z.of_nat n < 2 ^ 32 -> va + 512 * Z.of_nat n - 512 < end_va <= va + 512 * Z.of_nat n ->
  0 <= secno -> secno + Z.of_nat n <= 2 ^ 28 -> (n < fuel)%nat ->
  exists s', readseg_loop fuel va end_va secno s = Ret (tt, s') /\
    loaded va (va + 512 * Z.of_nat n) (512 * secno) (bytes (bmem s)) (bytes (bmem s')).
Proof.
  induction n as [|n IH]; intros fuel s va end_va secno Hva Hw He Hs Hsn Hf; (destruct fuel as [|fuel]; [lia|]);
    cbn [readseg_loop].
  - if_false. exists s. split; [done|]. intros a. by replace ((va <=? a) && (a <? va + 512 * 0%nat)) with false by lia.
  - if_true. destruct (readsect_run s va secno ltac:(lia)) as (p & k & E). rewrite (M_bind_run _ _ _ _ _ E).
    unfold SECTSIZE. rewrite (wrap_small 32 (va + 512)), (wrap_small 32 (secno + 1)) by (unfold fits; lia).
    destruct (IH fuel (Boot (put_bytes (blit va (sector secno) (bytes (bmem s))) (bmem s)) p k) (va + 512) end_va (secno + 1)) as (s' & E' & L);
      [lia|lia|lia|lia|lia|lia|].
    exists s'. split; [exact E'|]. cbn [bmem] in L.
    apply (loaded_trans va (va + 512) _ (512 * secno) _ (blit va (sector secno) (bytes (bmem s)))); [lia|apply loaded_sector|].
    replace (512 * secno + (va + 512 - va)) with (512 * (secno + 1)) by lia.
    replace (va + 512 * S n) with (va + 512 + 512 * n) by lia. exact L.
Qed.

(** The first and the last address [readseg] writes, rounded to sectors. *)
Definition seg_lo (va offset : Z) : Z := va - offset mod 512.
Definition seg_hi (va count offset : Z) : Z := seg_lo va offset + 512 * ((offset mod 512 + count + 511) / 512).

Definition seg_fits (va count offset : Z) : Prop :=
  0 <= count /\ 0 <= seg_lo va offset /\ seg_hi va count offset < 2 ^ 32 /\ 0 <= offset /\ offset + count <= 2 ^ 37.

Lemma readseg_run s va count offset : seg_fits va count offset ->
  exists s', readseg va count offset s = Ret (tt, s') /\
    loaded (seg_lo va offset) (seg_hi va count offset) (offset - offset mod 512) (bytes (bmem s)) (bytes (bmem s')).
Proof.
  intros (Hc & Hlo & Hhi & Ho & Hd). unfold readseg, seg_hi, seg_lo in *. unfold SECTSIZE.
  pose proof (Z.mod_pos_bound offset 512 ltac:(lia)) as Hm. pose proof (Z.div_mod offset 512 ltac:(lia)) as Ed.
  set (k := (offset mod 512 + count + 511) / 512) in *.
  assert (Hk : 512 * k - 512 < offset mod 512 + count <= 512 * k) by (unfold k; Z.div_mod_to_equations; lia).
  rewrite (wrap_small 32 (va + count)), (wrap_small 32 (va - offset mod 512)) by (unfold fits; lia).
  destruct (readseg_loop_run (Z.to_nat k) (Z.to_nat (count / 512 + 3)) s (va - offset mod 512) (va + count) (offset / 512))
    as (s' & E & L); [lia|lia|lia|apply Z.div_pos; lia|lia|unfold k in *; Z.div_mod_to_equations; lia|].
  exists s'. split; [exact E|]. replace (Z.of_nat (Z.to_nat k)) with k in L by lia.
  by replace (512 * (offset / 512)) with (offset - offset mod 512) in L by lia.
Qed.

(** [readseg] brings the bytes asked for from the disk to memory: for
    every segment that fits into memory and into the 28 bits of a sector
    number, it returns, byte [i] of the range is the byte of the disk at
    [offset + i], and only the bytes of the first and the last sector around
    the range may change beside it. *)
Theorem readseg_ok (s : boot) (va count offset : Z) : seg_fits va count offset ->
  exists s', readseg va count offset s = Ret (tt, s') /\
    (forall i, 0 <= i < count -> bytes (bmem s') !! (va + i) = Some (disk_byte (offset + i))) /\
    (forall a, a < va - offset mod 512 \/ va + count + 511 <= a -> bytes (bmem s') !! a = bytes (bmem s) !! a).
Proof.
  intros Hf. destruct (readseg_run s va count offset Hf) as (s' & E & L). exists s'. split; [exact E|].
  destruct Hf as (Hc & _). unfold seg_hi, seg_lo in L.
  pose proof (Z.mod_pos_bound offset 512 ltac:(lia)) as Hm. set (k := (offset mod 512 + count + 511) / 512) in *.
  assert (Hk : 512 * k - 512 < offset mod 512 + count <= 512 * k) by (unfold k; Z.div_mod_to_equations; lia).
  split; [intros i Hi|intros a Ha]; rewrite L; [if_true|if_false; done]. do 2 f_equal. lia.
Qed.

(** ** Loading the kernel *)

(** A program header, by the fields the loader uses. *)
Record phdr := Phdr { ph_off : Z; ph_va : Z; ph_memsz : Z }.

Definition on_disk (o : Z) (l : list Z) : Prop := forall i x, l !! i = Some x -> disk_byte (o + Z.of_nat i) = x.
Definition in_mem (s : boot) (p : Z) (h : phdr) : Prop :=
  arr (bytes (bmem s)) (p + p_va) (le32 (ph_va h)) /\ arr (bytes (bmem s)) (p + p_memsz) (le32 (ph_memsz h)) /\
  arr (bytes (bmem s)) (p + p_offset) (le32 (ph_off h)).

(** Where a segment goes and where it comes from. *)
Definition dest (h : phdr) : Z := Z.land (ph_va h) 0xFFFFFF.
Definition src (h : phdr) : Z := 2048 + ph_off h.
Definition lo (h : phdr) : Z := seg_lo (dest h) (src h).
Definition hi (h : phdr) : Z := seg_hi (dest h) (ph_memsz h) (src h).

(** A segment that fits, behind the scratch page at 0x10000. *)
Definition seg_ok (h : phdr) : Prop :=
  seg_fits (dest h) (ph_memsz h) (src h) /\ src h < 2 ^ 32 /\ 0 <= ph_off h /\ 0x11000 <= lo h.

Definition apart_from (h h' : phdr) : Prop := hi h <= lo h' \/ hi h' <= lo h.

(** The segment is in memory. *)
Definition segment_loaded (b : gmap Z Z) (h : phdr) : Prop :=
  forall i, 0 <= i < ph_memsz h -> b !! (dest h + i) = Some (disk_byte (src h + i)).

Lemma on_bmem_run {A} (m : M cmem A) s r : m (bmem s) = Ret (r, bmem s) -> on_bmem m s = Ret (r, s).
Proof. intros E. unfold on_bmem. rewrite (zoom_run bmem with_bmem _ s _ _ E). by destruct s. Qed.

Lemma loaded_arr lo' hi' so b b' p l :
  loaded lo' hi' so b b' -> on_disk (so + (p - lo')) l -> lo' <= p -> p + Z.of_nat (length l) <= hi' -> arr b' p l.
Proof.
  intros L D H1 H2 i x E. pose proof (lookup_lt_Some _ _ _ E). rewrite L. if_true.
  rewrite <-(D i x E). do 2 f_equal. lia.
Qed.

Lemma loaded_outside lo' hi' so b b' a : loaded lo' hi' so b b' -> a < lo' \/ hi' <= a -> b' !! a = b !! a.
Proof. intros L Ha. rewrite L. if_false. done. Qed.

Lemma segment_span h i : seg_ok h -> 0 <= i < ph_memsz h -> lo h <= dest h + i < hi h.
Proof.
  intros ((Hc & _) & _) Hi. unfold lo, hi, seg_hi, seg_lo. pose proof (Z.mod_pos_bound (src h) 512 ltac:(lia)) as Hm.
  set (k := (src h mod 512 + ph_memsz h + 511) / 512).
  assert (src h mod 512 + ph_memsz h <= 512 * k) by (unfold k; Z.div_mod_to_equations; lia). lia.
Qed.

Lemma loaded_segment h b b' : seg_ok h ->
  loaded (lo h) (hi h) (src h - src h mod 512) b b' -> segment_loaded b' h.
Proof.
  intros Hok L i Hi. pose proof (segment_span h i Hok Hi) as Hs. rewrite L. if_true. do 2 f_equal. unfold lo, seg_lo. lia.
Qed.

(** The program headers from [p] on. *)
Fixpoint headers (s : boot) (p : Z) (hs : list phdr) : Prop :=
  match hs with [] => True | h :: hs => in_mem s p h /\ headers s (p + 32) hs end.

Lemma headers_frame s s' hs : forall p,
  (forall a, p <= a < p + 32 * Z.of_nat (length hs) -> bytes (bmem s') !! a = bytes (bmem s) !! a) ->
  headers s p hs -> headers s' p hs.
Proof.
  induction hs as [|h hs IH]; intros p Hf; [done|]. cbn [headers length] in *. intros [(H1 & H2 & H3) Hh]. split.
  - unfold in_mem, p_va, p_memsz, p_offset in *. split_and!; (eapply arr_frame; [|eassumption]); intros a Ha; apply Hf; cbn in Ha; lia.
  - apply IH; [|done]. intros a Ha. apply Hf. lia.
Qed.

Lemma load_loop_run hs : forall (fuel : nat) s p,
  0x10000 <= p -> p + 32 * Z.of_nat (length hs) <= 0x11000 -> headers s p hs ->
  Forall seg_ok hs -> ForallOrdPairs apart_from hs -> (length hs < fuel)%nat ->
  exists s', load_loop fuel p (p + 32 * Z.of_nat (length hs)) s = Ret (tt, s') /\
    Forall (segment_loaded (bytes (bmem s'))) hs /\
    (forall a, Forall (fun h => a < lo h \/ hi h <= a) hs -> bytes (bmem s') !! a = bytes (bmem s) !! a).
Proof.
  induction hs as [|h hs IH]; intros fuel s p Hp He Hh Hok Hd Hf; (destruct fuel as [|fuel]; [simpl in Hf; lia|]); cbn [load_loop].
  - cbn [length]. if_false. exists s. split; [done|]. split; [by apply Forall_nil|done].
  - cbn [length] in He, Hf |- *. if_true. destruct Hh as [(H1 & H2 & H3) Hh].
    apply Forall_cons in Hok as [Ho Hok]. inversion Hd as [|? ? Ha Hd' ]; subst.
    assert (Hso := Ho). destruct Ho as (Hfit & Hs32 & Hoff & Hlo).
    rewrite (M_bind_run _ _ _ _ _ (on_bmem_run _ _ _ (rd32_run _ _ _ H1))).
    rewrite (M_bind_run _ _ _ _ _ (on_bmem_run _ _ _ (rd32_run _ _ _ H2))).
    rewrite (M_bind_run _ _ _ _ _ (on_bmem_run _ _ _ (rd32_run _ _ _ H3))).
    change (SECTSIZE * 4 + ph_off h) with (src h). rewrite (wrap_small 32 (src h)) by (unfold fits, src in *; lia).
    destruct (readseg_run s _ _ _ Hfit) as (s1 & E1 & L1). fold (dest h) in E1. rewrite (M_bind_run _ _ _ _ _ E1).
    unfold sizeof_proghdr. rewrite (wrap_small 32 (p + 32)) by (unfold fits; lia).
    destruct (IH fuel s1 (p + 32)) as (s2 & E2 & Hl2 & Hf2); [lia|lia| |done|done|lia|].
    { eapply headers_frame; [|exact Hh]. intros a Hin. apply (loaded_outside _ _ _ _ _ _ L1). left. fold (lo h). lia. }
    exists s2. split; [by replace (p + 32 * S (length hs)) with (p + 32 + 32 * length hs) by lia|]. split.
    + apply Forall_cons. split; [|done]. intros i Hi.
      rewrite <-(loaded_segment h _ _ Hso L1 i Hi). apply Hf2.
      eapply Forall_impl; [exact Ha|]. intros h' Hap. unfold apart_from in Hap. pose proof (segment_span h i Hso Hi). lia.
    + intros a Hout. apply Forall_cons in Hout as [Hh0 Hout]. rewrite Hf2 by done. by apply (loaded_outside _ _ _ _ _ _ L1).
Qed.

(** The image on the disk behind the first four sectors: an ELF header with
    [hs] as its program headers, all within the page that is read first. *)
Record elf_image (entry phoff : Z) (hs : list phdr) : Prop := ElfImage {
  ei_magic : on_disk 2048 (le32 ELF_MAGIC);
  ei_entry : on_disk (2048 + e_entry) (le32 entry);
  ei_phoff : on_disk (2048 + e_phoff) (le32 phoff);
  ei_phnum : on_disk (2048 + e_phnum) (le16 (length hs));
  ei_page : 0 <= phoff /\ phoff + 32 * Z.of_nat (length hs) <= 4096;
  ei_headers : forall k h, hs !! k = Some h ->
    on_disk (2048 + phoff + 32 * Z.of_nat k + p_va) (le32 (ph_va h)) /\
    on_disk (2048 + phoff + 32 * Z.of_nat k + p_memsz) (le32 (ph_memsz h)) /\
    on_disk (2048 + phoff + 32 * Z.of_nat k + p_offset) (le32 (ph_off h));
  ei_segs : Forall seg_ok hs;
  ei_apart : ForallOrdPairs apart_from hs
}.

Lemma image_headers b s o hs : forall p,
  loaded 0x10000 0x11000 2048 b (bytes (bmem s)) -> p = 0x10000 + o -> 0 <= o -> o + 32 * Z.of_nat (length hs) <= 4096 ->
  (forall k h, hs !! k = Some h ->
    on_disk (2048 + o + 32 * Z.of_nat k + p_va) (le32 (ph_va h)) /\
    on_disk (2048 + o + 32 * Z.of_nat k + p_memsz) (le32 (ph_memsz h)) /\
    on_disk (2048 + o + 32 * Z.of_nat k + p_offset) (le32 (ph_off h))) -> headers s p hs.
Proof.
  revert o. induction hs as [|h hs IH]; intros o p L -> Ho He Hh; [done|]. cbn [headers length] in *. split.
  - destruct (Hh O h eq_refl) as (H1 & H2 & H3). unfold in_mem, p_va, p_memsz, p_offset in *.
    split_and!; (eapply loaded_arr; [exact L| |lia|cbn; lia]).
    + replace (2048 + (0x10000 + o + 8 - 0x10000)) with (2048 + o + 32 * O + 8) by lia. done.
    + replace (2048 + (0x10000 + o + 20 - 0x10000)) with (2048 + o + 32 * O + 20) by lia. done.
    + replace (2048 + (0x10000 + o + 4 - 0x10000)) with (2048 + o + 32 * O + 4) by lia. done.
  - apply (IH (o + 32)); [done|lia|lia|lia|]. intros k h' E. specialize (Hh (S k) h' E).
    by replace (2048 + o + 32 * S k) with (2048 + (o + 32) + 32 * k) in Hh by lia.
Qed.

(** C20. [bootmain] loads a kernel: for an image with an ELF header whose
    segments fit into memory above the scratch page and do not touch the
    same sectors' worth of memory, it jumps to the entry point (with its top
    byte cleared), and by then every byte of every segment has come from its
    place in the image, the start-up code of the other processors is at
    0x5000, and nothing else changed but the scratch page and the rest of
    the sectors that hold the ends of the segments. *)
Theorem bootmain_ok (s : boot) (entry phoff : Z) (hs : list phdr) : elf_image entry phoff hs ->
  exists s', bootmain s = Ret (Some (Z.land entry 0xFFFFFF), s') /\
    Forall (segment_loaded (bytes (bmem s'))) hs /\
    (forall i, 0 <= i < 512 -> bytes (bmem s') !! (0x5000 + i) = Some (disk_byte (1536 + i))) /\
    (forall a, ~ (0x5000 <= a < 0x5200) -> ~ (0x10000 <= a < 0x11000) -> Forall (fun h => a < lo h \/ hi h <= a) hs ->
       bytes (bmem s') !! a = bytes (bmem s) !! a).
Proof.
  intros [Im Ie Ip In (Ig & Ig2) Ih Is Ia]. unfold bootmain.
  destruct (readseg_run s ELFHDR (SECTSIZE * 8) (SECTSIZE * 4)) as (s1 & E1 & L1); [by repeat split|].
  rewrite (M_bind_run _ _ _ _ _ E1). change (loaded 0x10000 0x11000 2048 (bytes (bmem s)) (bytes (bmem s1))) in L1.
  assert (R : forall o x, on_disk (2048 + o) (le32 x) -> 0 <= o <= 4092 -> on_bmem (rd32 (ELFHDR + o)) s1 = Ret (x, s1)).
  { intros o x D Ho. apply on_bmem_run, rd32_run. eapply loaded_arr; [exact L1| |unfold ELFHDR; lia|unfold ELFHDR; cbn; lia].
    unfold ELFHDR. by replace (2048 + (0x10000 + o - 0x10000)) with (2048 + o) by lia. }
  rewrite (M_bind_run _ _ _ _ _ (R 0 ELF_MAGIC Im ltac:(lia))). rewrite Z.eqb_refl. cbn [negb].
  rewrite (M_bind_run _ _ _ _ _ (R e_phoff phoff Ip ltac:(done))).
  assert (R16 : on_bmem (rd16 (ELFHDR + e_phnum)) s1 = Ret (Z.of_nat (length hs), s1)).
  { apply on_bmem_run, rd16_run. eapply loaded_arr; [exact L1|exact In|done|done]. }
  rewrite (M_bind_run _ _ _ _ _ R16). unfold ELFHDR, sizeof_proghdr. rewrite Nat2Z.id.
  rewrite (wrap_small 32 (0x10000 + phoff)), (wrap_small 32 (_ + 32 * _)) by (unfold fits; lia).
  destruct (load_loop_run hs (S (length hs)) s1 (0x10000 + phoff)) as (s2 & E2 & Hl & Hf);
    [lia|lia|by eapply image_headers|done|done|lia|].
  rewrite (M_bind_run _ _ _ _ _ E2).
  destruct (readseg_run s2 0x5000 SECTSIZE (SECTSIZE * 3)) as (s3 & E3 & L3); [by repeat split|].
  rewrite (M_bind_run _ _ _ _ _ E3). change (loaded 0x5000 0x5200 1536 (bytes (bmem s2)) (bytes (bmem s3))) in L3.
  assert (Hpage : forall a, 0x10000 <= a < 0x11000 -> bytes (bmem s3) !! a = bytes (bmem s1) !! a).
  { intros a Ha. rewrite (loaded_outside _ _ _ _ _ _ L3) by lia. apply Hf. eapply Forall_impl; [exact Is|].
    intros h (_ & _ & _ & Hlo). lia. }
  assert (Re : on_bmem (rd32 (ELFHDR + e_entry)) s3 = Ret (entry, s3)).
  { apply on_bmem_run, rd32_run. eapply arr_frame; [|eapply loaded_arr; [exact L1|exact Ie|done|done]].
    intros a Ha. apply Hpage. change (0x10018 <= a < 0x1001c) in Ha. lia. }
  change (0x10000 + e_entry) with (ELFHDR + e_entry). rewrite (M_bind_run _ _ _ _ _ Re).
  exists s3. split; [done|]. split; [|split].
  - apply Forall_forall. intros h Hin i Hi. rewrite Forall_forall in Hl, Is. rewrite <-(Hl h Hin i Hi).
    apply (loaded_outside _ _ _ _ _ _ L3). right. pose proof (segment_span h i (Is h Hin) Hi).
    destruct (Is h Hin) as (_ & _ & _ & Hlo). lia.
  - intros i Hi. rewrite L3. if_true. do 2 f_equal. lia.
  - intros a H1 H2 H3. rewrite (loaded_outside _ _ _ _ _ _ L3) by lia. rewrite Hf by done.
    apply (loaded_outside _ _ _ _ _ _ L1). lia.
Qed.

(** Anything else in the fifth sector: the loader gives up. *)
Theorem bootmain_bad_magic (s : boot) (m : Z) :
  on_disk 2048 (le32 m) -> m <> ELF_MAGIC -> exists s', bootmain s = Ret (None, s').
Proof.
  intros D Hm. unfold bootmain.
  destruct (readseg_run s ELFHDR (SECTSIZE * 8) (SECTSIZE * 4)) as (s1 & E1 & L1); [by repeat split|].
  rewrite (M_bind_run _ _ _ _ _ E1). change (loaded 0x10000 0x11000 2048 (bytes (bmem s)) (bytes (bmem s1))) in L1.
  assert (R : on_bmem (rd32 ELFHDR) s1 = Ret (m, s1)).
  { apply on_bmem_run, rd32_run. by eapply loaded_arr; [exact L1|exact D|..]. }
  rewrite (M_bind_run _ _ _ _ _ R). replace (m =? ELF_MAGIC) with false by lia. by eexists.
Qed.
End Disk.

(** ** A small image *)

Definition hs2 : list phdr := [Phdr 0x1000 0xC0100000 1000; Phdr 0x2010 0xC0102010 300].
Definition image2 : gmap Z Z :=
  blit 2048 (le32 ELF_MAGIC) (blit (2048 + e_entry) (le32 0xC0100010 ++ le32 52) (blit (2048 + e_phnum) (le16 2)
    (blit (2048 + 52 + p_offset) (le32 0x1000 ++ le32 0xC0100000) (blit (2048 + 52 + p_memsz) (le32 1000)
    (blit (2048 + 84 + p_offset) (le32 0x2010 ++ le32 0xC0102010) (blit (2048 + 84 + p_memsz) (le32 300) ∅)))))).
Definition disk2 (n i : Z) : Z := default 0 (image2 !! (512 * n + i)).
Definition boot2 : boot := Boot (CMem ∅ ∅) ∅ 3.

Lemma on_disk_check disk o l : map (fun i => disk_byte disk (o + i)) (seqZ 0 (length l)) = l -> on_disk disk o l.
Proof.
  intros E i x Hi. pose proof (lookup_lt_Some _ _ _ Hi). rewrite <-E, list_lookup_fmap, lookup_seqZ_lt in Hi by lia.
  by injection Hi as <-.
Qed.

Lemma image2_ok : elf_image disk2 0xC0100010 52 hs2.
Proof.
  split; try (apply on_disk_check; by vm_compute); [cbn; lia| | |].
  - intros [|[|k]] h E; [..|done]; injection E as <-; split_and!; apply on_disk_check; by vm_compute.
  - repeat (apply Forall_cons; split; [by repeat split|]). by apply Forall_nil.
  - constructor; [apply Forall_cons; split; [left; by vm_compute|by apply Forall_nil]|]. constructor; [by apply Forall_nil|constructor].
Qed.

Lemma bootmain_ok_witness :
  exists s', bootmain disk2 7 boot2 = Ret (Some 0x100010, s') /\ Forall (segment_loaded disk2 (bytes (bmem s'))) hs2.
Proof.
  destruct (bootmain_ok disk2 7 boot2 0xC0100010 52 hs2 image2_ok) as (s' & E & H & _). exists s'. split; [exact E|exact H].
Defined.

Lemma readseg_ok_witness :
  exists s', readseg disk2 7 0x10000 100 2048 boot2 = Ret (tt, s') /\
    bytes (bmem s') !! (0x10000 + 1) = Some 0x45.
Proof.
  destruct (readseg_ok disk2 7 boot2 0x10000 100 2048) as (s' & E & H & _); [by repeat split|].
  exists s'. split; [exact E|]. rewrite (H 1 ltac:(lia)). reflexivity.
Defined.
