(* ===== verification/FifoSpsc.v ===== *)
(** * A fifo between two processors (libs/fifo.c, usr/thread.c)

    [test_producer] and [test_consumer] of usr/thread.c share a fifo without
    a lock: one only calls [fifo_in], the other only [fifo_out].  This file
    runs the two on different processors of an x86, one memory access at a
    time: a store goes into the store buffer of its processor and reaches
    memory at some later point, in the order of the stores; a load sees the
    processor's own buffer first; [mfence] ([smp_wmb]) waits until the buffer
    is empty.  Copies are byte by byte, which includes every interleaving of
    the double words that [memcpy] moves.

    In every interleaving the consumer receives exactly the messages sent, in
    order, none torn or lost, and every state can be continued to the end. *)

From stdpp Require Import base numbers list option relations.
From Stdlib Require Import ZArith Lia.
From S2P Require Import Prelude CMem Fifo.

Open Scope Z_scope.

#[local] Coercion Z.of_nat : nat >-> Z.

(** ** Memory and store buffers *)

(** The words both processors access: the two indices and the bytes of the
    ring.  [size] and [data] of the [struct fifo] do not change. *)
Inductive loc : Type :=
  | LIn
  | LOut
  | LByte (k : Z).

#[global] Instance loc_eq_dec : EqDecision loc.
Proof. solve_decision. Defined.

Definition memory : Type := loc -> Z.
Definition buffer : Type := list (loc * Z).

Definition upd (m : memory) (l : loc) (x : Z) : memory := fun l' => if decide (l' = l) then x else m l'.

(** A load of the processor with buffer [b]: the last store to [l] counts. *)
Definition load (b : buffer) (m : memory) (l : loc) : Z :=
  fold_left (fun x e => if decide (e.1 = l) then e.2 else x) b (m l).

(** ** The two threads *)

(** Where a thread is in [fifo_in]: about to test for room, copying byte [i],
    at the fence, about to store [in]. *)
Inductive producer_pc : Type :=
  | PCheck (i : nat)
  | PCopy (i : nat) (k : nat)
  | PFence (i : nat)
  | PStore (i : nat).

(** In the loop of [test_consumer]: in [fifo_out], with the bytes copied so
    far, testing [v], or after the loop. *)
Inductive consumer_pc : Type :=
  | CCheck
  | CCopy (got : list Z)
  | CFence (got : list Z)
  | CStore (got : list Z)
  | CTest
  | CExit.

#[global] Instance consumer_pc_eq_dec : EqDecision consumer_pc.
Proof. solve_decision. Defined.

Record duo := Duo {
  mem : memory;
  pbuf : buffer;
  cbuf : buffer;
  ppc : producer_pc;
  cpc : consumer_pc;
  v : list Z;
  printed : list (list Z)
}.

Section Spsc.
(** The size of the ring and of a message, the messages, and the value that
    ends the loop of the consumer. *)
Context (size n : Z) (msgs : list (list Z)) (stop : list Z -> bool).

(** Byte [k] of a copy of [len] bytes from offset [off]: [l] of them up to the
    end of the ring, the others from its start. *)
Definition copy_index (len off k : Z) : Z :=
  let l := Z.min len (u32 (size - off)) in if k <? l then off + k else k - l.

Definition seen (b : buffer) (m : memory) : fifo := Fifo (load b m LIn) (load b m LOut) 0 size.

(** A step of [test_producer]. *)
Definition producer_step (s : duo) : option duo :=
  let goto pc := Some (Duo (mem s) (pbuf s) (cbuf s) pc (cpc s) (v s) (printed s)) in
  let store l x pc := Some (Duo (mem s) (pbuf s ++ [(l, x)]) (cbuf s) pc (cpc s) (v s) (printed s)) in
  let off := load (pbuf s) (mem s) LIn in
  match ppc s with
  | PCheck i =>
      if (i <? length msgs)%nat then
        match fifo_avail (seen (pbuf s) (mem s)) with
        | Ret avail => goto (if avail <? n then PCheck i else PCopy i 0)
        | _ => None
        end
      else None
  | PCopy i k =>
      if k <? n then
        store (LByte (copy_index n off k)) (default 0 (default [] (msgs !! i) !! k)) (PCopy i (S k))
      else goto (PFence i)
  | PFence i => if bool_decide (pbuf s = []) then goto (PStore i) else None
  | PStore i =>
      match umod (u32 (off + n)) size with
      | Ret x => store LIn x (PCheck (S i))
      | _ => None
      end
  end.

(** A step of [test_consumer]. *)
Definition consumer_step (s : duo) : option duo :=
  let goto pc := Some (Duo (mem s) (pbuf s) (cbuf s) (ppc s) pc (v s) (printed s)) in
  let off := load (cbuf s) (mem s) LOut in
  match cpc s with
  | CCheck =>
      match fifo_len (seen (cbuf s) (mem s)) with
      | Ret len => goto (if len <? n then CTest else CCopy [])
      | _ => None
      end
  | CCopy got =>
      if length got <? n then goto (CCopy (got ++ [load (cbuf s) (mem s) (LByte (copy_index n off (length got)))]))
      else goto (CFence got)
  | CFence got => if bool_decide (cbuf s = []) then goto (CStore got) else None
  | CStore got =>
      match umod (u32 (off + n)) size with
      | Ret x => Some (Duo (mem s) (pbuf s) (cbuf s ++ [(LOut, x)]) (ppc s) CTest got (printed s ++ [got]))
      | _ => None
      end
  | CTest => goto (if stop (v s) then CExit else CCheck)
  | CExit => None
  end.

(** The oldest store of a buffer reaches memory. *)
Definition drain_p (s : duo) : option duo :=
  match pbuf s with
  | (l, x) :: b => Some (Duo (upd (mem s) l x) b (cbuf s) (ppc s) (cpc s) (v s) (printed s))
  | [] => None
  end.
Definition drain_c (s : duo) : option duo :=
  match cbuf s with
  | (l, x) :: b => Some (Duo (upd (mem s) l x) (pbuf s) b (ppc s) (cpc s) (v s) (printed s))
  | [] => None
  end.

Inductive actor : Type := Producer | Consumer | DrainP | DrainC.

Definition move (a : actor) : duo -> option duo :=
  match a with
  | Producer => producer_step | Consumer => consumer_step | DrainP => drain_p | DrainC => drain_c
  end.

Inductive step (s s' : duo) : Prop :=
  | step_move (a : actor) : move a s = Some s' -> step s s'.

(** An empty fifo; [data] and [v] hold whatever was there. *)
Definition start (data : Z -> Z) (v0 : list Z) : duo :=
  Duo (fun l => if l is LByte k then data k else 0) [] [] (PCheck 0) CCheck v0 [].

(** ** The invariant *)

Context (Hn : 0 < n < size) (Hsize : size <= 2 ^ 31) (Hmsgs : Forall (fun m => Z.of_nat (length m) = n) msgs).

Definition sent (pc : producer_pc) : nat :=
  match pc with PCheck i | PCopy i _ | PFence i | PStore i => i end.
Definition copied (pc : producer_pc) : nat :=
  match pc with PCheck _ => 0%nat | PCopy _ k => k | PFence _ | PStore _ => Z.to_nat n end.
Definition busy (pc : producer_pc) : Z := if pc is PCheck _ then 0 else 1.
Definition received (pc : consumer_pc) : list Z :=
  match pc with CCopy got | CFence got | CStore got => got | _ => [] end.
Definition taking (pc : consumer_pc) : Z :=
  match pc with CCopy _ | CFence _ | CStore _ => 1 | _ => 0 end.

(** The bytes written and read so far, in program order. *)
Definition written (s : duo) : Z := n * sent (ppc s).
Definition read (s : duo) : Z := n * length (printed s).

(** Byte [q] of the messages one after the other. *)
Definition stream (q : Z) : Z := default 0 (default [] (msgs !! Z.to_nat (q / n)) !! Z.to_nat (q mod n)).

Definition pending (w : Z) (j c : nat) : buffer :=
  (fun k : nat => (LByte ((w + k) mod size), stream (w + k))) <$> seq j c.

(** [wm] and [rm] are the counts behind the indices in memory, which lag
    behind [written] and [read] by one message at most; [j] bytes of the
    message being copied have reached memory. *)
Record inv (wm rm : Z) (j : nat) (s : duo) : Prop := Inv {
  i_in : mem s LIn = wm mod size;
  i_out : mem s LOut = rm mod size;
  i_wm : wm = written s \/ (wm = written s - n /\ j = 0%nat /\ forall i, ppc s <> PStore i);
  i_rm : rm = read s \/ rm = read s - n;
  i_pbuf : pbuf s = (if decide (wm = written s) then [] else [(LIn, written s mod size)]) ++
                      pending (written s) j (copied (ppc s) - j);
  i_cbuf : cbuf s = if decide (rm = read s) then [] else [(LOut, read s mod size)];
  i_copied : j <= copied (ppc s) <= n;
  i_stored : forall i, ppc s = PStore i -> j = Z.to_nat n;
  i_pos : 0 <= rm;
  i_order : read s + n * taking (cpc s) <= wm;
  i_room : written s + n * busy (ppc s) < rm + size;
  i_old : forall q, rm <= q < written s -> mem s (LByte (q mod size)) = stream q;
  i_new : forall k : nat, (k < j)%nat -> mem s (LByte ((written s + k) mod size)) = stream (written s + k);
  i_got : received (cpc s) = stream <$> seqZ (read s) (length (received (cpc s)));
  i_gotlen : length (received (cpc s)) <= n;
  i_whole : match cpc s with CFence got | CStore got => Z.of_nat (length got) = n | _ => True end;
  i_taken : forall got, cpc s = CStore got -> rm = read s;
  i_sent : sent (ppc s) + busy (ppc s) <= length msgs;
  i_printed : printed s = take (length (printed s)) msgs
}.

(** ** Index arithmetic *)

Lemma mod_range a : 0 <= a mod size < size.
Proof. apply Z.mod_pos_bound. lia. Qed.

Lemma mod_add a k : 0 <= k < size ->
  (a + k) mod size = if a mod size + k <? size then a mod size + k else a mod size + k - size.
Proof. intros Hk. pose proof (mod_range a). rewrite <- Z.add_mod_idemp_l by lia. apply mod_wrap; lia. Qed.

Lemma len_run w r : 0 <= w - r < size -> fifo_len (Fifo (w mod size) (r mod size) 0 size) = Ret (w - r).
Proof.
  intros H. unfold fifo_len, umod. cbn [f_in f_out f_size]. rewrite (proj2 (Z.eqb_neq size 0)) by lia.
  pose proof (mod_range w). pose proof (mod_range r). rewrite wrap_small by (unfold fits; lia). f_equal.
  rewrite <- (Z.mod_small (w - r) size) by lia. rewrite (Zminus_mod w r), Zminus_mod.
  rewrite <- (Z.add_mod_idemp_r (w mod size) size), Z.mod_same, Z.add_0_r by lia. by rewrite !Z.mod_mod by lia.
Qed.

Lemma copy_index_run w k : 0 <= k < n -> copy_index n (w mod size) k = (w + k) mod size.
Proof.
  intros Hk. pose proof (mod_range w). unfold copy_index. rewrite wrap_small by (unfold fits; lia).
  rewrite mod_add by lia. destruct (Z.ltb_spec k (Z.min n (size - w mod size))), (Z.ltb_spec (w mod size + k) size); lia.
Qed.

Lemma store_index w : umod (u32 (w mod size + n)) size = Ret ((w + n) mod size).
Proof.
  pose proof (mod_range w). unfold umod. rewrite (proj2 (Z.eqb_neq size 0)) by lia.
  rewrite wrap_small by (unfold fits; lia). by rewrite Z.add_mod_idemp_l by lia.
Qed.

Lemma slots_differ p q : p <> q -> - size < p - q < size -> p mod size <> q mod size.
Proof.
  assert (Hlt : forall a b, 0 < a - b < size -> a mod size <> b mod size).
  { intros a b Hab E. assert (Hz : (a - b) mod size = 0) by (rewrite Zminus_mod, E, Z.sub_diag; apply Z.mod_0_l; lia).
    rewrite Z.mod_small in Hz by lia. lia. }
  intros Hne Hd. destruct (decide (q < p)); [apply Hlt; lia|]. apply not_eq_sym, Hlt. lia.
Qed.

Lemma stream_message (i k : nat) : k < n ->
  default 0 (default [] (msgs !! i) !! k) = stream (n * i + k).
Proof.
  intros Hk. unfold stream. rewrite (Z.mul_comm n), Z.div_add_l, (Z.div_small k), Z.add_0_r by lia.
  rewrite Z.add_comm, Z.mod_add, Z.mod_small by lia. by rewrite !Nat2Z.id.
Qed.

(** The bytes of a whole message. *)
Lemma stream_whole (i : nat) m : msgs !! i = Some m -> stream <$> seqZ (n * i) n = m.
Proof.
  intros Hm. assert (Hl : Z.of_nat (length m) = n) by exact (proj1 (Forall_lookup _ _) Hmsgs _ _ Hm).
  apply list_eq. intros k. rewrite list_lookup_fmap. destruct (decide (k < length m)%nat) as [Hk|Hk].
  - rewrite (lookup_seqZ_lt (n * i) n k) by lia. cbn [fmap option_fmap option_map].
    rewrite <- stream_message by lia. rewrite Hm. cbn [default]. unfold id.
    destruct (m !! k) eqn:E; [done|]. apply lookup_ge_None in E. lia.
  - rewrite (lookup_seqZ_ge (n * i) n k) by lia. symmetry. apply lookup_ge_None. lia.
Qed.

(** ** Buffers *)

Lemma load_app b1 b2 m l : load (b1 ++ b2) m l = load b2 (fun l => load b1 m l) l.
Proof. unfold load. by rewrite fold_left_app. Qed.

Lemma load_other b m l : Forall (fun e => e.1 <> l) b -> load b m l = m l.
Proof.
  unfold load. induction b as [|e b IH] in m |- *; [done|]. intros [He Hb]%Forall_cons. cbn [fold_left].
  rewrite decide_False by done. exact (IH m Hb).
Qed.

Lemma pending_bytes w j c l : (forall k, l <> LByte k) -> Forall (fun e => e.1 <> l) (pending w j c).
Proof. intros Hl. apply Forall_fmap, Forall_forall. intros k _. cbn. intros E. by eapply Hl. Qed.

Lemma pending_cons w j c : pending w j (S c) = (LByte ((w + j) mod size), stream (w + j)) :: pending w (S j) c.
Proof. done. Qed.

Lemma pending_snoc w j c : pending w j (S c) = pending w j c ++ [(LByte ((w + (j + c)%nat) mod size), stream (w + (j + c)%nat))].
Proof. unfold pending. by rewrite seq_S, fmap_app. Qed.

(** What the producer sees of the indices, and the consumer. *)
Lemma producer_sees wm rm j s : inv wm rm j s ->
  load (pbuf s) (mem s) LIn = written s mod size /\ load (pbuf s) (mem s) LOut = rm mod size.
Proof.
  intros I. rewrite (i_pbuf _ _ _ _ I), !load_app. rewrite (load_other _ _ LIn), (load_other _ _ LOut) by (by apply pending_bytes).
  rewrite <- (i_out _ _ _ _ I). case_decide as E; cbn; [|done]. by rewrite (i_in _ _ _ _ I), E.
Qed.

Lemma consumer_sees wm rm j s : inv wm rm j s ->
  load (cbuf s) (mem s) LIn = wm mod size /\ load (cbuf s) (mem s) LOut = read s mod size /\
  forall k, load (cbuf s) (mem s) (LByte k) = mem s (LByte k).
Proof.
  intros I. rewrite (i_cbuf _ _ _ _ I). rewrite <- (i_in _ _ _ _ I).
  case_decide as E; cbn; [|done]. by rewrite (i_out _ _ _ _ I), E.
Qed.

(** ** Every step preserves it *)

#[local] Ltac open_inv I :=
  destruct I as [Hin Hout Hwm Hrm Hpb Hcb Hcop Hst Hpos Hord Hroom Hold Hnew Hgot Hgl Hwh Htk Hsent Hpr];
  unfold written, read in *; cbn [mem pbuf cbuf ppc cpc v printed sent copied busy received taking] in *.
(** [lia] without the hypotheses that only slow it down. *)
#[local] Ltac clia :=
  repeat match goal with
  | H : @eq (list _) _ _ |- _ => clear H
  | H : forall _, _ |- _ => clear H
  | H : _ mod _ = _ |- _ => clear H
  | H : _ = _ mod _ |- _ => clear H
  end; lia.
#[local] Ltac close_inv :=
  split; unfold written, read; cbn [mem pbuf cbuf ppc cpc v printed sent copied busy received taking];
  try done;
  try match goal with
      | |- (_ <= _)%Z => clia
      | |- (_ < _)%Z => clia
      | |- _ <= _ <= _ => clia
      end.

Lemma inv_bounds wm rm j s : inv wm rm j s -> rm <= read s <= wm /\ wm <= written s < rm + size.
Proof.
  intros I. destruct I as [_ _ Hwm Hrm _ _ _ _ _ Ho Hr _ _ _ _ _ _ _ _].
  destruct (ppc s), (cpc s); cbn [busy taking] in *; lia.
Qed.

Lemma check_room wm rm j s i :
  inv wm rm j s -> ppc s = PCheck i -> (i < length msgs)%nat ->
  exists avail, fifo_avail (seen (pbuf s) (mem s)) = Ret avail /\ avail = size - 1 - (written s - rm).
Proof.
  intros I Hp Hi. destruct (producer_sees _ _ _ _ I) as [E1 E2]. unfold seen. rewrite E1, E2.
  pose proof (inv_bounds _ _ _ _ I). unfold fifo_avail. rewrite len_run by lia.
  eexists. split; [done|]. cbn [f_size]. rewrite wrap_small; [lia|unfold fits; lia].
Qed.

Lemma producer_inv wm rm j s s' : inv wm rm j s -> producer_step s = Some s' -> exists wm' j', inv wm' rm j' s'.
Proof.
  intros I. pose proof (producer_sees _ _ _ _ I) as [E1 _]. unfold producer_step.
  destruct (ppc s) as [i|i k|i|i] eqn:Hp.
  - destruct (Nat.ltb_spec i (length msgs)) as [Hi|]; [|done].
    destruct (check_room _ _ _ _ _ I Hp Hi) as (avail & -> & Ha). intros [= <-]. exists wm, j.
    destruct s as [m pb cb pp cp vv pr]. open_inv I. subst pp. cbn [sent copied busy] in *.
    destruct (Z.ltb_spec avail n); close_inv. destruct Hwm as [?|(?&?&?)]; [by left|right; done].
  - destruct (Z.ltb_spec k n) as [Hk|Hk]; intros [= <-]; exists wm, j.
    + rewrite E1. unfold written. rewrite Hp. cbn [sent]. rewrite copy_index_run, stream_message by clia.
      destruct s as [m pb cb pp cp vv pr]. open_inv I. subst pp. cbn [sent copied busy] in *. close_inv.
      * destruct Hwm as [?|(?&?&?)]; [by left|right; done].
      * rewrite Hpb, <- app_assoc. f_equal. replace (S k - j)%nat with (S (k - j)) by clia.
        rewrite pending_snoc. by replace (j + (k - j))%nat with k by clia.
    + destruct s as [m pb cb pp cp vv pr]. open_inv I. subst pp. cbn [sent copied busy] in *.
      assert (k = Z.to_nat n) as -> by clia. close_inv. destruct Hwm as [?|(?&?&?)]; [by left|right; done].
  - destruct (bool_decide_reflect (pbuf s = [])) as [Hb|]; [|done]. intros [= <-]. exists wm, j.
    destruct s as [m pb cb pp cp vv pr]. open_inv I. subst pp. cbn [sent copied busy] in *.
    rewrite Hb in Hpb. symmetry in Hpb. apply app_nil in Hpb as [Hw Hpe]. apply fmap_nil_inv in Hpe.
    assert (Hj : j = Z.to_nat n).
    { destruct (Z.to_nat n - j)%nat eqn:En; [clia|done]. }
    destruct (decide (wm = n * i)) as [Ew|]; [|done]. close_inv; [by left|].
    rewrite Hb, decide_True by done. rewrite Hj, Nat.sub_diag. done.
  - rewrite E1, store_index. intros [= <-]. exists wm, 0%nat.
    destruct s as [m pb cb pp cp vv pr]. open_inv I. subst pp. cbn [sent copied busy] in *.
    assert (j = Z.to_nat n) as -> by eauto. destruct Hwm as [Ew|(_ & _ & Hx)]; [|by destruct (Hx i)].
    rewrite decide_True, Nat.sub_diag in Hpb by done.
    assert (EwS : n * S i = n * i + n) by clia. close_inv.
    + right. split_and!; [clia|done|by intros].
    + rewrite Hpb, decide_False by clia. rewrite EwS. done.
    + intros q Hq. destruct (decide (q < n * i)); [apply Hold; clia|].
      specialize (Hnew (Z.to_nat (q - n * i)) ltac:(clia)). rewrite Z2Nat.id in Hnew by clia.
      by replace (n * i + (q - n * i)) with q in Hnew by clia.
    + intros k Hk. clia.
Qed.

Lemma consumer_inv wm rm j s s' : inv wm rm j s -> consumer_step s = Some s' -> exists rm', inv wm rm' j s'.
Proof.
  intros I. pose proof (consumer_sees _ _ _ _ I) as (E1 & E2 & E3). pose proof (inv_bounds _ _ _ _ I) as Hb.
  unfold consumer_step. destruct (cpc s) as [|got|got|got| |] eqn:Hc.
  - unfold seen. rewrite E1, E2. rewrite len_run.
    2:{ pose proof (inv_bounds _ _ _ _ I). clia. }
    intros [= <-]. exists rm. destruct s as [m pb cb pp cp vv pr]. open_inv I. subst cp. cbn [received taking] in *.
    destruct (Z.ltb_spec (wm - n * length pr) n); close_inv.
  - destruct (Z.ltb_spec (length got) n) as [Hk|Hk]; intros [= <-]; exists rm.
    + rewrite E2, E3, copy_index_run by clia.
      destruct s as [m pb cb pp cp vv pr]. open_inv I. subst cp. cbn [received taking] in *. close_inv.
      * rewrite length_app, Nat.add_1_r, seqZ_S, fmap_app, <- Hgot. f_equal. cbn. f_equal.
        apply Hold. unfold written, read in Hb. cbn in Hb. clia.
      * rewrite length_app. cbn. clia.
    + destruct s as [m pb cb pp cp vv pr]. open_inv I. subst cp. cbn [received taking] in *. close_inv. clia.
  - destruct (bool_decide_reflect (cbuf s = [])) as [He|]; [|done]. intros [= <-]. exists rm.
    destruct s as [m pb cb pp cp vv pr]. open_inv I. subst cp. cbn [received taking] in *. close_inv.
    intros _ _. rewrite He in Hcb. by case_decide.
  - rewrite E2, store_index. intros [= <-]. exists rm.
    destruct s as [m pb cb pp cp vv pr]. open_inv I. subst cp. cbn [received taking] in *.
    assert (Er : rm = n * length pr) by eauto. assert (EwS : n * length (pr ++ [got]) = n * length pr + n)
      by (rewrite length_app; cbn; clia).
    close_inv.
    + right. clia.
    + rewrite Hcb, decide_True, decide_False, EwS by clia. done.
    + cbn [length]. clia.
    + rewrite Hwh in Hgot. rewrite Hpr at 1. rewrite length_app. cbn [length]. rewrite Nat.add_1_r.
      destruct (lookup_lt_is_Some_2 msgs (length pr)) as [x Hx].
      { unfold written in Hb. cbn [ppc] in Hb. destruct pp; cbn [busy sent] in *; clear - Hb Hsent Hord Hn; nia. }
      rewrite (take_S_r _ _ _ Hx). f_equal. f_equal. by rewrite Hgot, (stream_whole _ _ Hx).
  - intros [= <-]. exists rm. destruct s as [m pb cb pp cp vv pr]. open_inv I. subst cp. cbn [received taking] in *.
    destruct (stop vv); close_inv.
  - done.
Qed.

Lemma drain_p_inv wm rm j s s' : inv wm rm j s -> drain_p s = Some s' -> exists wm' j', inv wm' rm j' s'.
Proof.
  intros I. pose proof (inv_bounds _ _ _ _ I) as Hb. unfold drain_p. destruct s as [m pb cb pp cp vv pr]. open_inv I.
  rewrite Hpb. destruct (decide (wm = n * sent pp)) as [Ew|Ew]; cbn [app].
  - destruct (copied pp - j)%nat as [|c] eqn:Ec; [done|]. rewrite pending_cons. intros [= <-].
    exists wm, (S j).
    assert (Hbusy : busy pp = 1) by (destruct pp; [cbn [copied] in *; clia|done..]).
    rewrite Hbusy in *. close_inv.
    + by left.
    + rewrite decide_True by done. by replace (copied pp - S j)%nat with c by clia.
    + intros i Hi. apply Hst in Hi as ->. clia.
    + intros q Hq. unfold upd. rewrite decide_False; [by apply Hold|].
      intros [= E]. revert E. apply slots_differ; clia.
    + intros k Hk. unfold upd. destruct (decide (k = j)) as [->|Hne]; [by rewrite decide_True|].
      rewrite decide_False; [apply Hnew; clia|]. intros [= E]. revert E. apply slots_differ; clia.
  - intros [= <-]. destruct Hwm as [?|(Hw & -> & Hx)]; [done|]. exists (n * sent pp), 0%nat. close_inv.
    + by left.
    + by rewrite decide_True.
Qed.

Lemma drain_c_inv wm rm j s s' : inv wm rm j s -> drain_c s = Some s' -> exists rm', inv wm rm' j s'.
Proof.
  intros I. pose proof (inv_bounds _ _ _ _ I) as Hb. unfold drain_c. destruct s as [m pb cb pp cp vv pr]. open_inv I.
  rewrite Hcb. destruct (decide (rm = n * length pr)) as [Er|Er]; [done|]. intros [= <-]. exists (n * length pr). close_inv.
  - by left.
  - by rewrite decide_True.
  - intros q Hq. unfold upd. cbn. apply Hold. clia.
Qed.

Lemma step_inv s s' : step s s' -> (exists wm rm j, inv wm rm j s) -> exists wm rm j, inv wm rm j s'.
Proof.
  intros [a Ha] (wm & rm & j & I). destruct a; cbn [move] in Ha.
  - destruct (producer_inv _ _ _ _ _ I Ha) as (? & ? & ?). eauto.
  - destruct (consumer_inv _ _ _ _ _ I Ha) as (? & ?). eauto.
  - destruct (drain_p_inv _ _ _ _ _ I Ha) as (? & ? & ?). eauto.
  - destruct (drain_c_inv _ _ _ _ _ I Ha) as (? & ?). eauto.
Qed.

Lemma start_inv data v0 : inv 0 0 0 (start data v0).
Proof.
  split; unfold written, read, start; cbn [mem pbuf cbuf ppc cpc v printed sent copied busy received taking length];
    rewrite ?Z.mul_0_r; try done; try lia.
Qed.

Lemma reachable_inv data v0 s : rtc step (start data v0) s -> exists wm rm j, inv wm rm j s.
Proof.
  generalize (start_inv data v0). generalize (start data v0) as s0. intros s0 H0 Hr.
  assert (H : exists wm rm j, inv wm rm j s0) by eauto. clear H0. induction Hr; eauto using step_inv.
Qed.

(** ** The end of the loops *)

Context (v0 : list Z) (Hv0 : stop v0 = false).

(** [v] is the message printed last; past the test it is not the one that
    ends the loop. *)
Record vinv (s : duo) : Prop := VInv {
  v_last : v s = default v0 (last (printed s));
  v_test : match cpc s with CTest => True | CExit => stop (v s) = true | _ => stop (v s) = false end
}.

Lemma step_vinv s s' : step s s' -> vinv s -> vinv s'.
Proof.
  intros [a Ha] [Hl Ht]. destruct a; cbn [move] in Ha.
  - unfold producer_step in Ha. repeat case_match; simplify_eq; by split.
  - unfold consumer_step in Ha. destruct (cpc s); repeat case_match; simplify_eq; split; cbn [v cpc printed]; try done.
    by rewrite last_snoc.
  - unfold drain_p in Ha. repeat case_match; simplify_eq; by split.
  - unfold drain_c in Ha. repeat case_match; simplify_eq; by split.
Qed.

Lemma reachable_vinv data s : rtc step (start data v0) s -> vinv s.
Proof.
  assert (H0 : vinv (start data v0)) by done. generalize dependent (start data v0). intros s0 H0 Hr.
  induction Hr; eauto using step_vinv.
Qed.

(** The last message, and only that one, ends the loop. *)
Context (Hpos : (0 < length msgs)%nat)
        (Hlast : forall i m, msgs !! i = Some m -> stop m = true <-> S i = length msgs).

Lemma all_printed wm rm j s : inv wm rm j s -> vinv s -> stop (v s) = true -> printed s = msgs.
Proof.
  intros I [Hl _] Hs. pose proof (i_printed _ _ _ _ I) as Hp. rewrite Hl in Hs. rewrite Hp.
  destruct (last (printed s)) as [m|] eqn:E; cbn in Hs; [|by rewrite Hv0 in Hs].
  rewrite last_lookup in E.
  assert (E' : take (length (printed s)) msgs !! pred (length (printed s)) = Some m) by (by rewrite <- Hp).
  apply lookup_take_Some in E' as [E' Hi].
  apply (Hlast _ _ E') in Hs. apply take_ge. lia.
Qed.

(** ** Progress *)

Definition work (s : duo) : Z :=
  let p := (length msgs - sent (ppc s)) * (2 * n + 5) in
  let c := (length msgs - length (printed s)) * (n + 6) in
  match ppc s with PCheck _ => p | PCopy _ k => p - 1 - 2 * k | PFence _ => p - 2 - 2 * n | PStore _ => p - 3 - 2 * n end +
  match cpc s with
  | CCheck | CExit => c | CCopy got => c - 1 - length got | CFence _ => c - 2 - n | CStore _ => c - 3 - n | CTest => c + 1
  end + length (pbuf s) + length (cbuf s).

Lemma work_nonneg wm rm j s : inv wm rm j s -> 0 <= work s.
Proof.
  intros I. pose proof (inv_bounds _ _ _ _ I) as Hb.
  destruct I as [_ _ _ _ _ _ Hcop _ _ Hord _ _ _ _ Hgl _ _ Hsent _]. unfold work, written, read in *.
  assert (Hp : length (printed s) + taking (cpc s) <= sent (ppc s)).
  { apply (Zmult_le_reg_r _ _ n); [lia|]. clear - Hb Hord. lia. }
  clear - Hp Hsent Hcop Hgl Hn. destruct (ppc s), (cpc s); cbn [sent copied busy taking received] in *; nia.
Qed.

(** A step of the producer that finishes its work on a message. *)
Lemma producer_progress wm rm j s :
  inv wm rm j s -> pbuf s = [] -> (sent (ppc s) < length msgs)%nat -> written s = rm ->
  exists s', producer_step s = Some s' /\ work s' < work s.
Proof.
  intros I Hb Hi Hw. pose proof (producer_sees _ _ _ _ I) as [E1 _]. unfold producer_step.
  destruct (ppc s) as [i|i k|i|i] eqn:Hp; cbn [sent] in Hi.
  - rewrite (proj2 (Nat.ltb_lt _ _)) by done. destruct (check_room _ _ _ _ _ I Hp Hi) as (avail & -> & Ha).
    rewrite (proj2 (Z.ltb_ge _ _)) by lia. eexists. split; [done|]. unfold work. cbn. rewrite Hp. cbn. lia.
  - destruct (Z.ltb_spec k n); (eexists; split; [done|]); unfold work; cbn; rewrite Hp; cbn; [rewrite length_app; cbn; lia|].
    pose proof (i_copied _ _ _ _ I) as Hc. rewrite Hp in Hc. cbn in Hc. lia.
  - rewrite Hb, bool_decide_true by done. eexists. split; [done|]. unfold work. cbn. rewrite Hp, Hb. cbn. lia.
  - rewrite E1, store_index. eexists. split; [done|]. unfold work. cbn. rewrite Hp, length_app. cbn. lia.
Qed.

Lemma consumer_progress wm rm j s :
  inv wm rm j s -> cbuf s = [] -> match cpc s with CCheck => read s + n <= wm | CExit => False | _ => True end ->
  exists s', consumer_step s = Some s' /\ work s' < work s.
Proof.
  intros I Hb Hc. pose proof (consumer_sees _ _ _ _ I) as (E1 & E2 & _). pose proof (inv_bounds _ _ _ _ I) as Ho.
  unfold consumer_step. destruct (cpc s) as [|got|got|got| |] eqn:Ec; [..|done].
  - unfold seen. rewrite E1, E2, len_run by lia. rewrite (proj2 (Z.ltb_ge _ _)) by lia.
    eexists. split; [done|]. unfold work. cbn. rewrite Ec. lia.
  - pose proof (i_gotlen _ _ _ _ I) as Hg. rewrite Ec in Hg. cbn in Hg.
    destruct (Z.ltb_spec (length got) n); (eexists; split; [done|]); unfold work; cbn; rewrite Ec; [rewrite length_app; cbn|]; lia.
  - rewrite Hb, bool_decide_true by done. eexists. split; [done|]. unfold work. cbn. rewrite Ec, Hb. lia.
  - rewrite E2, store_index. eexists. split; [done|]. unfold work. cbn. rewrite Ec, !length_app, Hb. cbn. lia.
  - eexists. split; [done|]. unfold work. cbn. rewrite Ec. destruct (stop (v s)); lia.
Qed.

(** Whatever happened so far, some step brings the two closer to the end. *)
Lemma some_progress wm rm j s : inv wm rm j s -> vinv s -> cpc s <> CExit -> exists s', step s s' /\ work s' < work s.
Proof.
  intros I V Hx.
  destruct (pbuf s) as [|[l x] b] eqn:Hpb; [|eexists; split; [apply (step_move _ _ DrainP); cbn; unfold drain_p; by rewrite Hpb|]].
  2: { unfold work. cbn. rewrite Hpb. cbn. lia. }
  destruct (cbuf s) as [|[l x] b] eqn:Hcb; [|eexists; split; [apply (step_move _ _ DrainC); cbn; unfold drain_c; by rewrite Hcb|]].
  2: { unfold work. cbn. rewrite Hcb. cbn. lia. }
  destruct (decide (cpc s = CCheck /\ wm < read s + n)) as [[Ec Hlt]|Hgo].
  - assert (Erm : rm = read s) by (pose proof (i_cbuf _ _ _ _ I) as E; rewrite Hcb in E; by case_decide).
    assert (Ewm : wm = written s).
    { pose proof (i_pbuf _ _ _ _ I) as E. rewrite Hpb in E. by case_decide. }
    pose proof (inv_bounds _ _ _ _ I) as Ho. assert (Ei : sent (ppc s) = length (printed s)) by (unfold written, read in *; nia).
    destruct (producer_progress _ _ _ _ I Hpb) as (s' & Hs & Hw); [|unfold written, read in *; lia|].
    + pose proof (i_sent _ _ _ _ I) as Hs. apply dec_stable. intros Hge.
      assert (Hall : length (printed s) = length msgs) by (destruct (ppc s); cbn [busy sent] in *; lia).
      pose proof (v_test _ V) as Hv. rewrite Ec in Hv. pose proof (v_last _ V) as Hl.
      pose proof (i_printed _ _ _ _ I) as Hp. rewrite Hall, take_ge in Hp by done. rewrite Hp in Hl.
      destruct (lookup_lt_is_Some_2 msgs (pred (length msgs))) as [m Hm]; [lia|].
      rewrite last_lookup, Hm in Hl. cbn in Hl. rewrite Hl in Hv. apply Hlast in Hm. assert (stop m = true) by (apply Hm; lia). congruence.
    + exists s'. split; [by apply (step_move _ _ Producer)|done].
  - destruct (consumer_progress _ _ _ _ I Hcb) as (s' & Hs & Hw).
    + destruct (cpc s); try done. apply dec_stable. intros ?. apply Hgo. split; [done|lia].
    + exists s'. split; [by apply (step_move _ _ Consumer)|done].
Qed.

Lemma reaches_end data s : rtc step (start data v0) s -> exists s', rtc step s s' /\ cpc s' = CExit /\ printed s' = msgs.
Proof.
  remember (Z.to_nat (work s)) as k eqn:Hk. revert s Hk. induction k as [k IH] using lt_wf_ind. intros s -> Hr.
  destruct (reachable_inv _ _ _ Hr) as (wm & rm & j & I). pose proof (reachable_vinv _ _ Hr) as V.
  destruct (decide (cpc s = CExit)) as [He|He].
  { exists s. split_and!; [apply rtc_refl|done|]. eapply all_printed; [done..|]. pose proof (v_test _ V) as Hv. by rewrite He in Hv. }
  destruct (some_progress _ _ _ _ I V He) as (s1 & Hs & Hw). pose proof (work_nonneg _ _ _ _ I).
  assert (Hr1 : rtc step (start data v0) s1) by (eapply rtc_r; eauto).
  destruct (reachable_inv _ _ _ Hr1) as (wm1 & rm1 & j1 & I1). pose proof (work_nonneg _ _ _ _ I1).
  destruct (IH (Z.to_nat (work s1)) ltac:(lia) s1 eq_refl Hr1) as (s' & Hs' & ?). exists s'. split; [by eapply rtc_l|done].
Qed.

End Spsc.

(** ** The threads of usr/thread.c *)

(** The value of an [int] in memory. *)
Definition int_value (l : list Z) : Z :=
  match l with [a; b; c; d] => s32 (a + 256 * b + 65536 * c + 16777216 * d) | _ => 0 end.

Definition test_msgs : list (list Z) := le32 <$> seqZ 0 256.
Definition test_stop (v : list Z) : bool := int_value v =? 255.

(** [fifo_test] makes a ring of 64 bytes; an [int] has 4. *)
Definition test_step : duo -> duo -> Prop := step 64 4 test_msgs test_stop.

Lemma test_lengths : Forall (fun m => Z.of_nat (length m) = 4) test_msgs.
Proof. apply Forall_fmap, Forall_forall. done. Qed.

Lemma test_last i m : test_msgs !! i = Some m -> test_stop m = true <-> S i = length test_msgs.
Proof.
  intros H. pose proof (lookup_lt_Some _ _ _ H) as Hi. change (length test_msgs) with 256%nat in *.
  unfold test_msgs in H. rewrite list_lookup_fmap, (lookup_seqZ_lt 0 256 i) in H by lia. injection H as <-.
  rewrite Z.add_0_l. assert (Ha : forallb (fun i : nat => Bool.eqb (test_stop (le32 i)) (S i =? 256)%nat) (seq 0 256) = true)
    by (vm_compute; reflexivity).
  rewrite forallb_forall in Ha. specialize (Ha i ltac:(apply in_seq; lia)). apply Bool.eqb_prop in Ha. rewrite Ha.
  apply Nat.eqb_eq.
Qed.

(** A given interleaving. *)
Fixpoint run_duo (size n : Z) (msgs : list (list Z)) (stop : list Z -> bool) (l : list actor) (s : duo) : option duo :=
  match l with
  | [] => Some s
  | a :: l => s' ← move size n msgs stop a s; run_duo size n msgs stop l s'
  end.

Lemma run_duo_rtc size n msgs stop l s s' : run_duo size n msgs stop l s = Some s' -> rtc (step size n msgs stop) s s'.
Proof.
  revert s. induction l as [|a l IH]; intros s H; cbn in H; [injection H as ->; apply rtc_refl|].
  apply bind_Some in H as (s1 & H1 & H2). eapply rtc_l; [by eapply step_move|by apply IH].
Qed.

Lemma run_duo_printed size n msgs stop l s p :
  printed <$> run_duo size n msgs stop l s = Some p -> exists s', rtc (step size n msgs stop) s s' /\ printed s' = p.
Proof. intros (s' & E & ->)%fmap_Some. exists s'. split; [by eapply run_duo_rtc|done]. Qed.

(** C8. The fifo between two processors: one thread calls only [fifo_in] and
    one only [fifo_out], with messages of the same size that fit the ring.
    In every interleaving of their memory accesses, with the store buffers of
    the processors in between, what the receiver has got is a prefix of what
    the sender sends: no message is torn, lost, repeated or reordered; and
    no index leaves the ring. *)
Theorem fifo_spsc (size n : Z) (msgs : list (list Z)) (stop : list Z -> bool) (data : Z -> Z) (v0 : list Z) (s : duo) :
  0 < n < size -> size <= 2 ^ 31 -> Forall (fun m => Z.of_nat (length m) = n) msgs ->
  rtc (step size n msgs stop) (start data v0) s ->
  printed s `prefix_of` msgs /\ 0 <= mem s LIn < size /\ 0 <= mem s LOut < size.
Proof.
  intros Hn Hsize Hm Hr. destruct (reachable_inv size n msgs stop Hn Hsize Hm data v0 s Hr) as (wm & rm & j & I). split.
  - rewrite (i_printed _ _ _ _ _ _ _ I). apply prefix_take.
  - rewrite (i_in _ _ _ _ _ _ _ I), (i_out _ _ _ _ _ _ _ I). split; exact (mod_range size n Hn _).
Qed.

(** C21. The producer and the consumer of usr/thread.c, while their fifo is
    there and [v] does not happen to be 255 at the start: the consumer prints
    0, 1, 2 and so on; when it exits it has printed all 256 numbers; and
    from every state the two can still get there, so they never block each
    other for good. *)
Theorem fifo_threads_ok (data : Z -> Z) (v0 : list Z) (s : duo) :
  int_value v0 <> 255 -> rtc test_step (start data v0) s ->
  printed s `prefix_of` test_msgs /\ (cpc s = CExit -> printed s = test_msgs) /\
  exists s', rtc test_step s s' /\ cpc s' = CExit /\ printed s' = test_msgs.
Proof.
  intros Hv Hr. assert (Hv0 : test_stop v0 = false) by (by apply Z.eqb_neq). assert (Hn : 0 < 4 < 64) by lia.
  assert (Hs : 64 <= 2 ^ 31) by lia. assert (Hp : (0 < length test_msgs)%nat) by (vm_compute; lia).
  destruct (reachable_inv _ _ _ _ Hn Hs test_lengths _ _ _ Hr) as (wm & rm & j & I).
  pose proof (reachable_vinv _ _ _ _ _ Hv0 _ _ Hr) as V. split_and!.
  - rewrite (i_printed _ _ _ _ _ _ _ I). apply prefix_take.
  - intros He. eapply all_printed; [exact Hv0|exact Hp|exact test_last|exact I|exact V|]. pose proof (v_test _ _ _ V) as Ht. by rewrite He in Ht.
  - exact (reaches_end _ _ _ _ Hn Hs test_lengths _ Hv0 Hp test_last _ _ Hr).
Qed.

(** [v] is not initialised: when the stack holds 255 there and the fifo is
    still empty, the consumer exits without having read anything. *)
Theorem consumer_exits_early (data : Z -> Z) (v0 : list Z) :
  int_value v0 = 255 -> exists s, rtc test_step (start data v0) s /\ cpc s = CExit /\ printed s = [].
Proof.
  intros Hv. assert (Hs : test_stop v0 = true) by (by apply Z.eqb_eq).
  exists (Duo (mem (start data v0)) [] [] (PCheck 0) CExit v0 []). split; [|done].
  eapply rtc_l; [by apply (step_move _ _ _ _ _ (Duo (mem (start data v0)) [] [] (PCheck 0) CTest v0 []) Consumer)|].
  apply rtc_once, (step_move _ _ _ _ _ _ Consumer). cbn [move]. unfold consumer_step. cbn [cpc v]. by rewrite Hs.
Qed.

(** *** Examples *)

(** One message through, with the stores reaching memory late. *)
Definition one_message : list actor :=
  replicate 6 Producer ++ replicate 4 DrainP ++ [Producer; Producer; Consumer; Consumer; DrainP] ++
  replicate 8 Consumer ++ [DrainC; Consumer].

Lemma fifo_spsc_witness : exists s,
  rtc (step 4 2 [[1; 2]; [3; 4]] (fun _ => false)) (start (fun _ => 9) []) s /\ printed s = [[1; 2]] /\
  (printed s `prefix_of` [[1; 2]; [3; 4]] /\ 0 <= mem s LIn < 4 /\ 0 <= mem s LOut < 4).
Proof.
  set (sched := [Producer; Producer; Producer; Producer; DrainP; DrainP; Producer; Producer; DrainP;
                 Consumer; Consumer; Consumer; Consumer; Consumer; Consumer]).
  destruct (run_duo_printed 4 2 [[1; 2]; [3; 4]] (fun _ => false) sched (start (fun _ => 9) []) [[1; 2]]) as (s & Hr & Hp);
    [vm_compute; reflexivity|].
  exists s. split; [exact Hr|]. split; [exact Hp|].
  apply (fifo_spsc 4 2 _ (fun _ => false) (fun _ => 9) []); [lia|lia|by repeat constructor|exact Hr].
Defined.

Lemma fifo_threads_ok_witness : exists s,
  int_value [0; 0; 0; 0] <> 255 /\ rtc test_step (start (fun _ => 0) [0; 0; 0; 0]) s /\ printed s = [[0; 0; 0; 0]; [1; 0; 0; 0]] /\
  (printed s `prefix_of` test_msgs /\ (cpc s = CExit -> printed s = test_msgs) /\
   exists s', rtc test_step s s' /\ cpc s' = CExit /\ printed s' = test_msgs).
Proof.
  destruct (run_duo_printed 64 4 test_msgs test_stop (one_message ++ one_message) (start (fun _ => 0) [0; 0; 0; 0])
              [[0; 0; 0; 0]; [1; 0; 0; 0]]) as (s & Hr & Hp); [vm_compute; reflexivity|].
  exists s. split; [done|]. split; [exact Hr|]. split; [exact Hp|].
  apply (fifo_threads_ok (fun _ => 0) [0; 0; 0; 0]); [done|exact Hr].
Defined.
