(* ===== verification/Usr.v ===== *)
(** * The user part of the kernel (usr/init.c, usr/thread.c, usr/mem.c, usr/debug.c)

    [usr_init] registers the commands of the shell as files of /bin and
    starts the shell as a thread.  The commands that need threads or memory
    are here: "thread_test" and "fifo_test" start threads, "devmem" prints
    physical memory; those of usr/fs.c are in Shell.v.  What "bt" and "dmesg"
    print is the subject of Debug.v and Console.v, so the two are arguments.
    The state puts the threads, which hold the file system, next to the
    variables of the shell and the heap objects of "fifo_test". *)

From stdpp Require Import base numbers list gmap.
From Stdlib Require Import ZArith Lia.
From S2P Require Import Prelude Bitops ListNode CMem CString KString Fifo Fs Shell Schedule.

Open Scope Z_scope.

#[local] Coercion Z.of_nat : nat >-> Z.

(** "bt", "dmesg", "thread_test", "fifo_test" and "devmem". *)
Definition s_bt : word := [98; 116].
Definition s_dmesg : word := [100; 109; 101; 115; 103].
Definition s_thread_test : word := [116; 104; 114; 101; 97; 100; 95; 116; 101; 115; 116].
Definition s_fifo_test : word := [102; 105; 102; 111; 95; 116; 101; 115; 116].
Definition s_devmem : word := [100; 101; 118; 109; 101; 109].
(** "read ", ":" and a newline *)
Definition s_read : word := [114; 101; 97; 100; 32].
Definition s_colon : word := [58; 10].

Definition debug_fops : Z := 4.
Definition dmesg_fops : Z := 5.
Definition thread_fops : Z := 6.
Definition fifo_fops : Z := 7.
Definition devmem_fops : Z := 8.

(** The live [struct fifo]s and the live buffers with their sizes. *)
Class FifoHeap := {
  new_fifo : gmap Z fifo -> option Z;
  new_buffer : gmap Z Z -> Z -> option Z;
  junk_fifo : fifo;
  new_fifo_fresh : forall m a, new_fifo m = Some a -> m !! a = None;
  new_buffer_fresh : forall m n a, new_buffer m n = Some a -> m !! a = None
}.

Section Usr.
Context `{FH : FsHeap} `{SH : SchedHeap} `{QH : FifoHeap}.

Record usr := Usr {
  uthreads : sched;
  ucurrent_dir : option Z;
  uprinted : list word;
  ufifos : gmap Z fifo;
  ubuffers : gmap Z Z;
  ushell : option Z
}.

Definition with_uthreads (x : sched) (s : usr) : usr :=
  Usr x (ucurrent_dir s) (uprinted s) (ufifos s) (ubuffers s) (ushell s).
Definition with_ufifos (x : gmap Z fifo) (s : usr) : usr :=
  Usr (uthreads s) (ucurrent_dir s) (uprinted s) x (ubuffers s) (ushell s).
Definition with_ubuffers (x : gmap Z Z) (s : usr) : usr :=
  Usr (uthreads s) (ucurrent_dir s) (uprinted s) (ufifos s) x (ushell s).
Definition with_ushell (x : option Z) (s : usr) : usr :=
  Usr (uthreads s) (ucurrent_dir s) (uprinted s) (ufifos s) (ubuffers s) x.

(** The part of the state Shell.v works on. *)
Definition shell_of (s : usr) : shell := Shell (sfs (uthreads s)) (ucurrent_dir s) (uprinted s).
Definition with_shell_of (x : shell) (s : usr) : usr :=
  Usr (with_sfs (shfs x) (uthreads s)) (current_dir x) (printed x) (ufifos s) (ubuffers s) (ushell s).
Definition on_shell {A} (m : M shell A) : M usr A := zoom shell_of with_shell_of m.
Definition on_threads {A} (m : M sched A) : M usr A := zoom uthreads with_uthreads m.

(** The entry points of the threads; [peek] is the memory "devmem" reads, by
    virtual address, [None] where nothing is mapped. *)
Context (c : Z) (test_thread test_producer test_consumer run_shell : Z) (peek : Z -> option Z).

Definition thread_test : M usr Z := _ ← on_threads (thread_run c test_thread 0 (-1)); mret 0.

(** [kfree] of a [struct fifo] and of a buffer. *)
Definition kfree_fifo (p : Z) : M usr unit := mmod (fun s => with_ufifos (delete p (ufifos s)) s).
Definition kfree_buffer (d : Z) : M usr unit := mmod (fun s => with_ubuffers (delete d (ubuffers s)) s).

Definition fifo_test : M usr Z :=
  s ← mget;
  match new_fifo (ufifos s) with
  | None => mret (- ENOMEM)
  | Some p =>
      _ ← mmod (fun s => with_ufifos (<[p := junk_fifo]> (ufifos s)) s);
      match new_buffer (ubuffers s) 64 with
      | None => _ ← kfree_fifo p; mret (- ENOMEM)
      | Some d =>
          _ ← mmod (fun s => with_ubuffers (<[d := 64]> (ubuffers s)) s);
          _ ← mmod (fun s => with_ufifos (<[p := fifo_init d 64]> (ufifos s)) s);
          _ ← on_threads (thread_run c test_producer p 1);
          _ ← on_threads (thread_run c test_consumer p 2);
          _ ← kfree_buffer d;
          _ ← kfree_fifo p;
          mret 0
      end
  end.

(** [hex_to_value] on a word: its characters and a terminator in memory. *)
Definition word_value (w : word) : outcome (Z * Z) :=
  match hex_to_value (Str 1 (length w) (length w + 1)) (CMem (blit 1 (w ++ [0]) ∅) ∅) with
  | Ret (r, _) => Ret r | Bug => Bug | Fault => Fault | Spin => Spin
  end.

(** The two loops of [do_devmem]: [k] words of a line from address [a]. *)
Fixpoint devmem_line (k : nat) (a : Z) : M usr unit :=
  match k with
  | O => mret tt
  | S k =>
      x ← mlift (deref (peek (phys_to_virt a)));
      _ ← on_shell (print (hex_text x ++ [32]));
      devmem_line k (u32 (a + 4))
  end.
Fixpoint devmem_lines (k : nat) (a : Z) : M usr unit :=
  match k with
  | O => mret tt
  | S k => _ ← devmem_line 4 a; _ ← on_shell (print [10]); devmem_lines k (u32 (a + 16))
  end.

Definition do_devmem (vec : list word) : M usr Z :=
  if length vec <? 2 then mret (-1)
  else
    match vec !! 1%nat with
    | None => fun _ => Fault
    | Some w =>
        '(ret, addr) ← mlift (word_value w);
        if negb (ret =? 0) then mret (-1)
        else
          _ ← on_shell (print (s_read ++ hex_text (u32 addr) ++ s_colon));
          _ ← devmem_lines 16 (u32 addr);
          _ ← on_shell (print [10]);
          mret 0
    end.

(** ** Registration *)

Definition usr_debug_init : M usr Z :=
  '(ret, _) ← on_shell (Shell.on_fs (binfs_create_file s_bt debug_fops 0));
  if negb (ret =? 0) then mret ret else
  '(ret, _) ← on_shell (Shell.on_fs (binfs_create_file s_dmesg dmesg_fops 0));
  if negb (ret =? 0) then mret ret else mret 0.

Definition usr_thread_init : M usr Z :=
  '(ret, _) ← on_shell (Shell.on_fs (binfs_create_file s_thread_test thread_fops 0));
  if negb (ret =? 0) then mret ret else
  '(ret, _) ← on_shell (Shell.on_fs (binfs_create_file s_fifo_test fifo_fops 0));
  if negb (ret =? 0) then mret ret else mret 0.

Definition mem_init : M usr Z :=
  _ ← on_shell go_root;
  '(ret, _) ← on_shell (Shell.on_fs (binfs_create_file s_devmem devmem_fops 0));
  if negb (ret =? 0) then mret ret else mret 0.

Definition start_new_shell : M usr Z :=
  t ← on_threads (thread_run c run_shell 0 0);
  _ ← mmod (with_ushell t);
  mret 0.

Definition usr_init : M usr Z :=
  ret ← on_shell usr_fs_init;
  if negb (ret =? 0) then mret ret else
  ret ← usr_debug_init;
  if negb (ret =? 0) then mret ret else
  ret ← usr_thread_init;
  if negb (ret =? 0) then mret ret else
  ret ← mem_init;
  if negb (ret =? 0) then mret ret else
  _ ← start_new_shell;
  mret 0.

(** ** Registered commands *)

(** The commands [cmds], the newest first, in front of the files that /bin
    held; the process directories are untouched. *)
Definition registered (g : fs) (b : Z) (cmds : list (word * Z)) : Prop :=
  bin g = Some b /\ exists fs rest, dir_ok g b (fs ++ rest) /\
    Forall2 (fun f cmd => files g !! f = Some (File cmd.1 0 b cmd.2)) fs cmds.

Record ufs_ok (g : fs) (r b p : Z) (ds : list Z) (cmds : list (word * Z)) : Prop := UfsOk {
  uf_root : root g = Some r;
  uf_proc : proc g = Some p;
  uf_live : is_Some (dirs g !! p);
  uf_procs : dll (fnodes g) (DirList p) (DNode <$> ds);
  uf_ds : forall x, x ∈ ds -> is_Some (dirs g !! x);
  uf_cmds : registered g b cmds
}.

Lemma command_run g r b p ds cmds name fops :
  (forall m, new_file m <> None) -> ufs_ok g r b p ds cmds ->
  exists f g', binfs_create_file name fops 0 g = Ret ((0, Some f), g') /\ ufs_ok g' r b p ds ((name, fops) :: cmds).
Proof.
  intros Hal [Hr Hp Hl Hd Hds (Hb & fs & rest & Hok & Hf)].
  destruct (new_file (files g)) as [f|] eqn:En; [|by destruct (Hal (files g))].
  destruct (create_file_run g b (fs ++ rest) name fops 0 f Hok En) as (n & E & Hok' & Hnin & Hfr).
  set (g' := with_fnodes n _) in *. exists f, g'. split.
  { unfold binfs_create_file, global. rewrite M_bind_assoc, (M_bind_run _ _ _ _ _ eq_refl), Hb.
    rewrite (M_bind_run _ _ _ g b) by done. exact E. }
  split; [done|done|done| |done|].
  - cbn [g' fnodes with_fnodes]. apply (dll_frame (fnodes g)); [|done]. intros z Hz. apply Hfr.
    apply elem_of_cons in Hz as [->|(u & -> & _)%list_elem_of_fmap]; rewrite !not_elem_of_cons;
      (split_and!; [done|done|]); by intros (y & ? & _)%list_elem_of_fmap.
  - split; [done|]. exists (f :: fs), rest. split; [done|]. constructor; [cbn; by rewrite lookup_insert_eq|].
    apply Forall2_same_length_lookup_2; [by eapply Forall2_length|]. intros i h cmd Hi Hc.
    cbn. rewrite lookup_insert_ne; [exact (Forall2_lookup_lr _ _ _ _ _ _ Hf Hi Hc)|]. intros <-. apply Hnin, elem_of_app. left.
    by eapply list_elem_of_lookup_2.
Qed.

(** A registered command is found under its name. *)
Lemma command_found g b cmds name fops :
  registered g b cmds -> NoDup (fst <$> cmds) -> (name, fops) ∈ cmds ->
  exists f, binfs_find_file name g = Ret (Some f, g) /\ files g !! f = Some (File name 0 b fops).
Proof.
  intros (Hb & fs & rest & Hok & Hf) Hn Hin.
  assert (Hfind : exists f, first_named (files g) name (fs ++ rest) = Some f /\ files g !! f = Some (File name 0 b fops)).
  { clear Hok. revert cmds Hn Hin Hf. induction fs as [|h fs IH]; intros cmds Hn Hin Hf; inversion Hf as [|? [w o] ? l Hh Hl]; subst.
    { by apply elem_of_nil in Hin. }
    cbn [app first_named]. rewrite Hh. cbn [fmap option_fmap option_map f_name fst]. cbn [fmap list_fmap] in Hn.
    apply NoDup_cons in Hn as [Hw Hn]. apply elem_of_cons in Hin as [[= <- <-]|Hin].
    - rewrite bool_decide_true by done. by exists h.
    - rewrite bool_decide_false; [by eapply IH|]. intros [= ->]. apply Hw. apply list_elem_of_fmap. by exists (name, fops). }
  destruct Hfind as (f & Ef & Hx). exists f. split; [|done]. unfold binfs_find_file, global.
  rewrite M_bind_assoc, (M_bind_run _ _ _ _ _ eq_refl), Hb. rewrite (M_bind_run _ _ _ g b) by done.
  by rewrite (dir_find_file_run _ _ _ _ Hok), Ef.
Qed.

Lemma registered_kept s s' b cmds : files_kept s s' -> registered (sfs s) b cmds -> registered (sfs s') b cmds.
Proof.
  intros [(_ & Eb & _) Hf Hd] (Hb & fs & rest & Hok & Hc). split; [by rewrite Eb|]. exists fs, rest. split; [by apply Hd|].
  eapply Forall2_impl; [exact Hc|]. intros f cmd. apply Hf.
Qed.

(** The state with another file system. *)
Definition put_fs (g : fs) (s : usr) : usr := with_shell_of (Shell g (ucurrent_dir s) (uprinted s)) s.

Lemma command_created s r b p ds cmds name fops :
  (forall m, new_file m <> None) -> ufs_ok (sfs (uthreads s)) r b p ds cmds ->
  exists f g, ufs_ok g r b p ds ((name, fops) :: cmds) /\
    on_shell (Shell.on_fs (binfs_create_file name fops 0)) s = Ret ((0, Some f), put_fs g s).
Proof.
  intros Hal K. destruct (command_run _ _ _ _ _ _ name fops Hal K) as (f & g & E & K'). exists f, g. split; [done|].
  unfold on_shell. apply (zoom_run shell_of with_shell_of _ s _ (Shell g (ucurrent_dir s) (uprinted s))).
  by apply (zoom_run shfs with_shfs).
Qed.

Lemma two_commands_run s r b p ds cmds n1 o1 n2 o2 :
  (forall m, new_file m <> None) -> ufs_ok (sfs (uthreads s)) r b p ds cmds ->
  exists g, ufs_ok g r b p ds ((n2, o2) :: (n1, o1) :: cmds) /\
    ('(ret, _) ← on_shell (Shell.on_fs (binfs_create_file n1 o1 0));
     if negb (ret =? 0) then mret ret else
     '(ret, _) ← on_shell (Shell.on_fs (binfs_create_file n2 o2 0));
     if negb (ret =? 0) then mret ret else mret 0) s = Ret (0, put_fs g s).
Proof.
  intros Hal K. destruct (command_created s r b p ds cmds n1 o1 Hal K) as (f1 & g1 & K1 & E1). rewrite (M_bind_run _ _ _ _ _ E1).
  change (negb (0 =? 0)) with false. cbv beta iota.
  destruct (command_created (put_fs g1 s) r b p ds _ n2 o2 Hal K1) as (f2 & g2 & K2 & E2). rewrite (M_bind_run _ _ _ _ _ E2).
  exists g2. done.
Qed.

Lemma usr_fs_init_run s r b p ds cmds :
  (forall m, new_file m <> None) -> ufs_ok (sfs (uthreads s)) r b p ds cmds ->
  exists g, ufs_ok g r b p ds ((s_cat, cat_fops) :: (s_cd, cd_fops) :: (s_ls, ls_fops) :: cmds) /\
    on_shell usr_fs_init s = Ret (0, with_shell_of (Shell g (Some r) (uprinted s)) s).
Proof.
  intros Hal K. destruct (command_run _ _ _ _ _ _ s_ls ls_fops Hal K) as (f1 & g1 & E1 & K1).
  destruct (command_run _ _ _ _ _ _ s_cd cd_fops Hal K1) as (f2 & g2 & E2 & K2).
  destruct (command_run _ _ _ _ _ _ s_cat cat_fops Hal K2) as (f3 & g3 & E3 & K3).
  exists g3. split; [done|]. unfold on_shell. apply (zoom_run shell_of with_shell_of).
  unfold usr_fs_init. rewrite (M_bind_run _ _ _ _ _ eq_refl). cbn [shell_of shfs]. rewrite (uf_root _ _ _ _ _ _ K).
  rewrite (M_bind_run _ _ _ (Shell (sfs (uthreads s)) (Some r) (uprinted s)) tt) by done.
  rewrite (M_bind_run _ _ _ _ _ (zoom_run shfs with_shfs _ (Shell (sfs (uthreads s)) (Some r) (uprinted s)) _ _ E1)).
  change (negb (0 =? 0)) with false. cbv beta iota.
  rewrite (M_bind_run _ _ _ _ _ (zoom_run shfs with_shfs _ (Shell g1 (Some r) (uprinted s)) _ _ E2)).
  change (negb (0 =? 0)) with false. cbv beta iota.
  by rewrite (M_bind_run _ _ _ _ _ (zoom_run shfs with_shfs _ (Shell g2 (Some r) (uprinted s)) _ _ E3)).
Qed.

Definition commands : list (word * Z) :=
  [(s_devmem, devmem_fops); (s_fifo_test, fifo_fops); (s_thread_test, thread_fops); (s_dmesg, dmesg_fops);
   (s_bt, debug_fops); (s_cat, cat_fops); (s_cd, cd_fops); (s_ls, ls_fops)].

Lemma register_run s r b p ds :
  (forall m, new_file m <> None) -> ufs_ok (sfs (uthreads s)) r b p ds [] ->
  exists g, ufs_ok g r b p ds commands /\
    usr_init s = (_ ← start_new_shell; mret 0) (with_shell_of (Shell g (Some r) (uprinted s)) s).
Proof.
  intros Hal K. destruct (usr_fs_init_run s r b p ds [] Hal K) as (g1 & K1 & E1). unfold usr_init.
  rewrite (M_bind_run _ _ _ _ _ E1). change (negb (0 =? 0)) with false. cbv beta iota. set (s1 := with_shell_of _ s).
  destruct (two_commands_run s1 r b p ds _ s_bt debug_fops s_dmesg dmesg_fops Hal K1) as (g2 & K2 & E2).
  rewrite (M_bind_run _ _ _ _ _ E2). change (negb (0 =? 0)) with false. cbv beta iota.
  destruct (two_commands_run (put_fs g2 s1) r b p ds _ s_thread_test thread_fops s_fifo_test fifo_fops Hal K2) as (g3 & K3 & E3).
  rewrite (M_bind_run _ _ _ _ _ E3). change (negb (0 =? 0)) with false. cbv beta iota. set (s3 := put_fs g3 _).
  destruct (command_created s3 r b p ds _ s_devmem devmem_fops Hal K3) as (f4 & g4 & K4 & E4).
  assert (Er : on_shell go_root s3 = Ret (0, s3)).
  { unfold on_shell. apply (zoom_run shell_of with_shell_of _ s3 0 (shell_of s3)). unfold go_root.
    rewrite (M_bind_run _ _ _ _ _ eq_refl). cbn [shell_of shfs]. by rewrite (uf_root _ _ _ _ _ _ K3 : root (sfs (uthreads s3)) = Some r). }
  assert (E5 : mem_init s3 = Ret (0, put_fs g4 s3)).
  { unfold mem_init. rewrite (M_bind_run _ _ _ _ _ Er). by rewrite (M_bind_run _ _ _ _ _ E4). }
  rewrite (M_bind_run _ _ _ _ _ E5). change (negb (0 =? 0)) with false. cbv beta iota. by exists g4.
Qed.

(** C23. Starting the user part: with memory at hand, [usr_init] answers 0; all
    eight commands can be looked up in /bin, the shell stands in the root
    directory, and its thread waits at the front of the queue of processor 0
    with [run_shell] as its function. *)
Theorem usr_init_ok (s : usr) (r b p : Z) (ds fl : list Z) (q : list Z) (cur : Z) (g : list Z) :
  let th := uthreads s in let h := sfs th in
  (forall m, new_file m <> None) -> (forall m, new_dir m <> None) -> (forall m, new_thread m <> None) ->
  (forall m, new_stack m <> None) -> (forall i, tid_name i <> None) ->
  root h = Some r -> bin h = Some b -> proc h = Some p -> dir_ok h b fl ->
  is_Some (dirs h !! p) -> dll (fnodes h) (DirList p) (DNode <$> ds) -> (forall x, x ∈ ds -> is_Some (dirs h !! x)) ->
  cpu_ok th 0 q cur -> is_Some (current_threads th !! c) ->
  dll (snodes th) ThreadGroup (TNode <$> g) -> (forall u, u ∈ g -> is_Some (threads th !! u)) ->
  exists s' t x, usr_init s = Ret (0, s') /\ ucurrent_dir s' = Some r /\ ushell s' = Some t /\
    cpu_ok (uthreads s') 0 (t :: q) cur /\
    threads (uthreads s') !! t = Some x /\ tf_ebx (tf x) = run_shell /\ state x = THREAD_RUNNABLE /\
    forall w o, (w, o) ∈ commands ->
      exists f y, binfs_find_file w (sfs (uthreads s')) = Ret (Some f, sfs (uthreads s')) /\
        files (sfs (uthreads s')) !! f = Some y /\ f_fops y = o.
Proof.
  intros th h Hf Hdir Hth Hst Hstr Hr Hb Hp Hok Hl Hd Hds K Hc Hg Hgl.
  assert (K0 : ufs_ok h r b p ds []) by (split; try done; split; [done|by exists [], fl]).
  destruct (register_run s r b p ds Hf K0) as (g1 & K1 & E1). rewrite E1. set (s1 := with_shell_of _ s).
  destruct (new_thread (threads th)) as [t|] eqn:Nt; [|by apply Hth in Nt].
  destruct (new_stack (stacks th)) as [stack|] eqn:Ns; [|by apply Hst in Ns].
  destruct (tid_name (g_thread_id th)) as [name|] eqn:Nn; [|by apply Hstr in Nn].
  destruct (new_dir (dirs g1)) as [d|] eqn:Nd; [|by apply Hdir in Nd].
  destruct (new_file (files g1)) as [f|] eqn:Nf; [|by apply Hf in Nf].
  assert (Kc1 : cpu_ok (uthreads s1) 0 q cur) by (destruct K; by split).
  destruct (thread_run_run (uthreads s1) c run_shell 0 0 q cur g t stack name p ds d f) as
    (th' & E & Kc & _ & Hx & _ & _ & _ & _ & _ & Fk); try (by apply K1); try done.
  assert (E2 : on_threads (thread_run c run_shell 0 0) s1 = Ret (Some t, with_uthreads th' s1)) by (by apply zoom_run).
  unfold start_new_shell. rewrite M_bind_assoc, (M_bind_run _ _ _ _ _ E2).
  eexists _, t, _. split; [reflexivity|]. split_and!; [done|done|exact Kc|exact Hx|done|done|].
  intros w o Hin. cbn [uthreads with_uthreads with_ushell].
  destruct (command_found (sfs th') b commands w o) as (k & Ef & Ek); [|apply (bool_decide_unpack _); by vm_compute|done|].
  - eapply registered_kept; [exact Fk|apply K1].
  - exists k, (File w 0 b o). done.
Qed.

(** ** "devmem" *)

Lemma u32_s32 v : 0 <= v < 2 ^ 32 -> u32 (s32 v) = v.
Proof. intros Hv. unfold wrap. rewrite s32_mod. by apply Z.mod_small. Qed.

Lemma word_value_hex v : 0 <= v < 2 ^ 32 -> word_value (hex_text v) = Ret (0, s32 v).
Proof.
  intros Hv. unfold word_value. assert (Hl : length (hex_text v) = 10%nat).
  { unfold hex_text. by rewrite length_app, length_fmap, hex8_length. }
  rewrite Hl. change (Z.of_nat 10) with 10. rewrite (hex_to_value_run _ v); [done|done|].
  exact (proj1 (proj1 (arr_app _ _ _ _) (arr_blit 1 (hex_text v ++ [0]) ∅))).
Qed.

(** The state after printing [l]. *)
Definition told (l : list word) (s : usr) : usr := with_shell_of (shown l (shell_of s)) s.

Lemma told_app l k s : told k (told l s) = told (l ++ k) s.
Proof. unfold told, with_shell_of, shell_of, shown. destruct s as [[]]. cbn. by rewrite rev_app_distr, app_assoc. Qed.
Lemma told_nil s : told [] s = s.
Proof. by destruct s as [[]]. Qed.
Lemma print_run w s : on_shell (print w) s = Ret (tt, told [w] s).
Proof. done. Qed.

(** The line of [k] words from address [a], and [k] such lines. *)
Definition line_text (mem : Z -> Z) (k : nat) (a : Z) : list word :=
  (fun j : nat => hex_text (mem (phys_to_virt (u32 (a + 4 * j)))) ++ [32]) <$> seq 0 k.
Definition block_text (mem : Z -> Z) (k : nat) (a : Z) : list word :=
  concat ((fun i : nat => line_text mem 4 (u32 (a + 16 * i)) ++ [[10]]) <$> seq 0 k).

Lemma u32_add a k j : u32 (u32 (a + k) + j) = u32 (a + (k + j)).
Proof. unfold wrap. rewrite Z.add_mod_idemp_l by lia. by rewrite Z.add_assoc. Qed.

Lemma devmem_line_run (mem : Z -> Z) k : forall a s,
  0 <= a < 2 ^ 32 -> (forall j : nat, (j < k)%nat -> peek (phys_to_virt (u32 (a + 4 * j))) = Some (mem (phys_to_virt (u32 (a + 4 * j))))) ->
  devmem_line k a s = Ret (tt, told (line_text mem k a) s).
Proof.
  induction k as [|k IH]; intros a s Ha Hp; cbn [devmem_line]; [by rewrite told_nil|].
  pose proof (Hp 0%nat ltac:(lia)) as H0. change (4 * Z.of_nat 0) with 0 in H0. rewrite Z.add_0_r in H0.
  rewrite (wrap_small 32 a) in H0 by done.
  rewrite (M_bind_run _ _ s s (mem (phys_to_virt a))) by (by rewrite H0).
  rewrite (M_bind_run _ _ _ _ _ (print_run _ s)). rewrite IH.
  - rewrite told_app. unfold line_text. rewrite <- cons_seq. cbn [fmap list_fmap]. change (4 * Z.of_nat 0) with 0.
    rewrite Z.add_0_r, (wrap_small 32 a) by done. cbn [app].
    apply (f_equal (fun l => Ret (tt, told (_ :: l) s))). rewrite <- fmap_S_seq, <- list_fmap_compose.
    apply list_fmap_ext. intros _ j _. unfold compose. rewrite u32_add. by replace (4 + 4 * j) with (4 * S j) by lia.
  - by apply wrap_fits.
  - intros j Hj. rewrite u32_add. replace (4 + 4 * j) with (4 * S j) by lia. apply Hp. lia.
Qed.

Lemma devmem_lines_run (mem : Z -> Z) k : forall a s,
  0 <= a < 2 ^ 32 -> (forall j : nat, (j < 4 * k)%nat -> peek (phys_to_virt (u32 (a + 4 * j))) = Some (mem (phys_to_virt (u32 (a + 4 * j))))) ->
  devmem_lines k a s = Ret (tt, told (block_text mem k a) s).
Proof.
  induction k as [|k IH]; intros a s Ha Hp; cbn [devmem_lines]; [by rewrite told_nil|].
  rewrite (M_bind_run _ _ _ _ _ (devmem_line_run mem 4 a s Ha ltac:(intros; apply Hp; lia))).
  rewrite (M_bind_run _ _ _ _ _ (print_run _ _)), told_app. rewrite IH.
  - rewrite told_app. unfold block_text. rewrite <- cons_seq. cbn [fmap list_fmap concat]. change (16 * Z.of_nat 0) with 0.
    rewrite Z.add_0_r, (wrap_small 32 a) by done. apply (f_equal (fun l => Ret (tt, told (_ ++ concat l) s))).
    rewrite <- fmap_S_seq, <- list_fmap_compose.
    apply list_fmap_ext. intros _ j _. unfold compose. rewrite u32_add. by replace (16 + 16 * j) with (16 * S j) by lia.
  - by apply wrap_fits.
  - intros j Hj. rewrite u32_add. replace (16 + 4 * j) with (4 * (4 + j)%nat) by lia. apply Hp. lia.
Qed.

(** "devmem 0x..." prints the address and the 64 words of physical memory
    from there on, in lines of four, and nothing else happens; the address
    wraps around at 4 GiB.  If one of the words is not mapped, the kernel
    faults. *)
Theorem do_devmem_ok (mem : Z -> Z) (v : Z) (cmd : word) (s : usr) :
  0 <= v < 2 ^ 32 ->
  (forall j : nat, (j < 64)%nat -> peek (phys_to_virt (u32 (v + 4 * j))) = Some (mem (phys_to_virt (u32 (v + 4 * j))))) ->
  do_devmem [cmd; hex_text v] s =
    Ret (0, told ((s_read ++ hex_text v ++ s_colon) :: block_text mem 16 v ++ [[10]]) s).
Proof.
  intros Hv Hp. unfold do_devmem. cbn [length lookup list_lookup]. change (Z.of_nat 2 <? 2) with false. cbv iota.
  rewrite (word_value_hex v Hv). rewrite (M_bind_run _ _ s s (0, s32 v)) by done. cbv beta iota.
  change (negb (0 =? 0)) with false. cbv iota. rewrite u32_s32 by done.
  rewrite (M_bind_run _ _ _ _ _ (print_run _ s)).
  rewrite (M_bind_run _ _ _ _ _ (devmem_lines_run mem 16 v _ Hv Hp)), told_app.
  rewrite (M_bind_run _ _ _ _ _ (print_run _ _)), told_app. cbn [app]. done.
Qed.

(** ** "fifo_test" *)

(** Without a second processor, [current_threads[1]] is NULL and
    [thread_run] dereferences it. *)
Theorem fifo_test_one_processor (s : usr) (p d : Z) :
  new_fifo (ufifos s) = Some p -> new_buffer (ubuffers s) 64 = Some d ->
  (forall m, new_thread m <> None) -> (forall m, new_stack m <> None) ->
  is_Some (current_threads (uthreads s) !! c) -> current_threads (uthreads s) !! 1 = None -> lock_of (uthreads s) 1 = 0 ->
  fifo_test s = Fault.
Proof.
  intros Hp Hd Hth Hst [cur Hc] H1 Hl. unfold fifo_test. rewrite (M_bind_run _ _ s s s eq_refl), Hp.
  rewrite (M_bind_run _ _ _ _ _ eq_refl), Hd, (M_bind_run _ _ _ _ _ eq_refl), (M_bind_run _ _ _ _ _ eq_refl).
  set (s1 := with_ufifos _ _). enough (E : on_threads (thread_run c test_producer p 1) s1 = Fault).
  { unfold mbind, M_bind at 1. by rewrite E. }
  unfold on_threads, zoom. change (uthreads s1) with (uthreads s). unfold thread_run.
  change ((1 <? 0) || (MAX_CPU <=? 1))%bool with false. cbv iota. set (th := uthreads s) in *.
  destruct (new_thread (threads th)) as [t|] eqn:Nt; [|by apply Hth in Nt].
  destruct (new_stack (stacks th)) as [stack|] eqn:Ns; [|by apply Hst in Ns].
  rewrite (M_bind_run _ _ th (with_threads (<[t := junk_thread]> (threads th)) th) (Some t)) by (unfold kmalloc_thread; by rewrite Nt).
  set (th1 := with_threads _ th).
  rewrite (M_bind_run _ _ th1 (with_stacks ({[stack]} ∪ stacks th) th1) (Some stack))
    by (unfold kmalloc_stack; change (stacks th1) with (stacks th); by rewrite Ns).
  set (th2 := with_stacks _ th1).
  rewrite (M_bind_run _ _ _ _ _ (current_run c cur th2 Hc)), (M_bind_run _ _ th2 th2 th2 eq_refl).
  rewrite (M_bind_run _ _ _ _ _ (upd_thread_run t junk_thread _ th2 (lookup_insert_eq _ _ _))), (M_bind_run _ _ _ _ _ eq_refl).
  erewrite (M_bind_run (lock_sched 1)); [|apply lock_sched_run; exact Hl].
  unfold mbind, M_bind at 1, current, mbind, M_bind at 1, mget, mlift.
  cbn [current_threads with_slock with_next_id with_threads with_stacks th2 th1]. by rewrite H1.
Qed.

End Usr.

(** ** Three processors *)

#[local] Existing Instance fsheap1.
#[local] Existing Instance schedheap1.

#[local] Instance fifoheap0 : FifoHeap := {
  new_fifo m := Some (fresh (dom m));
  new_buffer m n := Some (fresh (dom m));
  junk_fifo := Fifo 0 0 0 0;
  new_fifo_fresh m a E := ltac:(injection E as <-; apply not_elem_of_dom, is_fresh);
  new_buffer_fresh m n a E := ltac:(injection E as <-; apply not_elem_of_dom, is_fresh)
}.

Definition boot3 : M sched unit :=
  _ ← Schedule.on_fs fs_init; _ ← schedule_init 0; _ ← schedule_init 1; _ ← schedule_init 2; mret tt.
Definition usr3 : usr :=
  Usr match boot3 sched_bss with Ret (_, s) => s | _ => sched_bss end None [] ∅ ∅ None.

(** What "fifo_test" leaves behind: the argument of the first thread of the
    queue of a processor, and whether that fifo and a buffer are live. *)
Definition front_arg (s : usr) (cpu : Z) : option Z :=
  match next (nd (snodes (uthreads s)) (RqHead cpu)) with
  | Some (SchedNode t) => (fun x => tf_edx (tf x)) <$> threads (uthreads s) !! t
  | _ => None
  end.

(** [fifo_test] starts the producer and the consumer on other processors and
    frees the fifo and its buffer at once: both threads are left with a
    pointer to freed memory. *)
Theorem fifo_test_frees_too_early :
  exists s p, fifo_test 0 0x1000 0x2000 usr3 = Ret (0, s) /\
    front_arg s 1 = Some p /\ front_arg s 2 = Some p /\ ufifos s !! p = None /\ ubuffers s = ∅.
Proof.
  set (r := fifo_test 0 0x1000 0x2000 usr3).
  assert (H : match r with
              | Ret (0, s) => bool_decide (front_arg s 1 = Some (fresh (∅ : gset Z)) /\ front_arg s 2 = Some (fresh (∅ : gset Z)) /\
                                ufifos s !! fresh (∅ : gset Z) = None /\ ubuffers s = ∅)
              | _ => false end = true) by (vm_compute; reflexivity).
  destruct r as [[[| |] s]| | |]; try discriminate H. exists s, (fresh (∅ : gset Z)).
  apply bool_decide_eq_true in H. done.
Qed.

Definition usr0 : usr := Usr (booted 0) None [] ∅ ∅ None.
Definition root0 : Z := default 0 (root (sfs (booted 0))).
Definition bin0 : Z := default 0 (bin (sfs (booted 0))).

Lemma usr_init_ok_witness :
  exists s' t x, usr_init 0 0x3000 usr0 = Ret (0, s') /\ ucurrent_dir s' = Some root0 /\ ushell s' = Some t /\
    cpu_ok (uthreads s') 0 [t] idle /\
    threads (uthreads s') !! t = Some x /\ tf_ebx (tf x) = 0x3000 /\ state x = THREAD_RUNNABLE /\
    forall w o, (w, o) ∈ commands ->
      exists f y, binfs_find_file w (sfs (uthreads s')) = Ret (Some f, sfs (uthreads s')) /\
        files (sfs (uthreads s')) !! f = Some y /\ f_fops y = o.
Proof.
  apply (usr_init_ok 0 0x3000 usr0 root0 bin0 proc0 [idle_dir] [] [] idle [idle]).
  - by intros m.
  - by intros m.
  - by intros m.
  - by intros m.
  - by intros i.
  - by vm_compute.
  - by vm_compute.
  - by vm_compute.
  - split; [apply (bool_decide_unpack _); by vm_compute|]. split; [|intros f Hf; apply elem_of_nil in Hf; destruct Hf].
    split; [apply (bool_decide_unpack _); by vm_compute|repeat split; by vm_compute].
  - apply (bool_decide_unpack _). by vm_compute.
  - split; [apply (bool_decide_unpack _); by vm_compute|]. repeat split; by vm_compute.
  - intros x ->%list_elem_of_singleton. apply (bool_decide_unpack _). by vm_compute.
  - exact booted0_ok.
  - apply (bool_decide_unpack _). by vm_compute.
  - exact group0.
  - exact idle_live.
Defined.

Lemma do_devmem_ok_witness :
  do_devmem (fun a => Some (a - 0xC0000000)) [s_devmem; hex_text 0x100000] usr0 =
    Ret (0, told ((s_read ++ hex_text 0x100000 ++ s_colon) :: block_text (fun a => a - 0xC0000000) 16 0x100000 ++ [[10]]) usr0).
Proof. apply (do_devmem_ok (fun a => Some (a - 0xC0000000)) (fun a => a - 0xC0000000)); [lia|done]. Defined.
