(* ===== verification/IrqInit.v ===== *)
(** * Switching interrupts on ([irq_init] of kernel/irq.c, [timer_init] of kernel/timer.c)

    [irq_init] silences the old interrupt controllers, sets the local APIC
    and the I/O APIC up, loads the descriptor table, programs the interval
    timer, lets the timer and the keyboard register their handlers and
    enables interrupts.  The state adds to that of Irq.v the devices only
    start-up touches: the 8259A pair, the 8253 interval timer, the descriptor
    table and the interrupt flag of the processor.

    [irq_init_ok] is the state all of them are left in; it also shows that no
    pin of the I/O APIC is let through, the keyboard's included, so that the
    timer of the local APIC is the only source of interrupts. *)

From stdpp Require Import base numbers list gmap.
From Stdlib Require Import ZArith Lia.
From S2P Require Import Prelude Bitops ListNode Page PageTable CMem Vector Queue Fs Schedule Timer Apic Keyboard Irq.

Open Scope Z_scope.

(** ** The interval timer *)

Definition IO_TIMER : Z := 0x40.
Definition IO_TIMER_CMD : Z := 0x43.
Definition TIMER_CHANNEL0 : Z := 0x00.
Definition TIMER_MODE_RATEGEN : Z := Z.shiftl 1 2.
Definition TIMER_FREQ : Z := 1193182.
Definition TIMER_BIT_16 : Z := 0x30.
Definition TIMER_OFFSET : Z := Z.shiftl 1 8.
Definition TIMER_DIV (x : Z) : Z := Z.quot (TIMER_FREQ + Z.quot x 2) x.

(** Channel 0 of the 8253: the command word in force, the low byte when only
    that has been written, and the divisor. *)
Record pit := Pit { pit_cmd : Z; pit_low : option Z; pit_div : Z }.

(** A command for channel 0 in the two-byte mode is followed by the low and
    the high byte of the divisor. *)
Definition pit_write (port v : Z) (p : pit) : pit :=
  let v := u8 v in
  if port =? IO_TIMER_CMD then
    if Z.shiftr v 6 =? 0 then Pit v None (pit_div p) else p
  else if port =? IO_TIMER then
    match pit_low p with
    | None => Pit (pit_cmd p) (Some v) (pit_div p)
    | Some low => Pit (pit_cmd p) None (low + 256 * v)
    end
  else p.

(** Mode 2 repeats, with the frequency [TIMER_FREQ] divided by the divisor. *)
Definition pit_mode (p : pit) : Z := Z.land (Z.shiftr (pit_cmd p) 1) 7.

Section Init.
Context `{FH : FsHeap} `{SH : SchedHeap} `{TH : TimerHeap} `{KH : KHeap}.
Context (fuel delay : nat) (kslot run_shell : Z) (vectors : Z -> Z) (idt_array : Z).

Record machine := Machine {
  m_irqs : irqs;
  m_pic : Pic.pic;
  m_pit : pit;
  m_idt : idt;
  m_if : bool
}.

Definition with_irqs (x : irqs) (s : machine) : machine := Machine x (m_pic s) (m_pit s) (m_idt s) (m_if s).
Definition with_pic (x : Pic.pic) (s : machine) : machine := Machine (m_irqs s) x (m_pit s) (m_idt s) (m_if s).
Definition with_pit (x : pit) (s : machine) : machine := Machine (m_irqs s) (m_pic s) x (m_idt s) (m_if s).
Definition with_idt (x : idt) (s : machine) : machine := Machine (m_irqs s) (m_pic s) (m_pit s) x (m_if s).
Definition with_if (x : bool) (s : machine) : machine := Machine (m_irqs s) (m_pic s) (m_pit s) (m_idt s) x.

Definition on_irqs {A} (m : M irqs A) : M machine A := zoom m_irqs with_irqs m.

(** [timer_init] on processor [c]. *)
Definition timer_init (c : Z) : M machine unit :=
  _ ← mmod (fun s => with_pit (pit_write IO_TIMER_CMD (Z.lor (Z.lor TIMER_CHANNEL0 TIMER_MODE_RATEGEN) TIMER_BIT_16) (m_pit s)) s);
  _ ← mmod (fun s => with_pit (pit_write IO_TIMER (Z.rem (TIMER_DIV TICK_NUM) TIMER_OFFSET) (m_pit s)) s);
  _ ← mmod (fun s => with_pit (pit_write IO_TIMER (Z.quot (TIMER_DIV TICK_NUM) TIMER_OFFSET) (m_pit s)) s);
  _ ← on_irqs (request_irq IRQ_TIMER TimerIrq);
  on_irqs (mmod (fun s => with_itimer (with_tnodes (list_init (TimerHead c) (tnodes (itimer s))) (itimer s)) s)).

Definition irq_init (c : Z) : M machine unit :=
  _ ← zoom m_pic with_pic (Pic.pic_init false);
  _ ← on_irqs (on_hw (lapic_init delay));
  s ← mget;
  _ ← on_irqs (on_hw (ioapic_init (ipgdir (m_irqs s))));
  _ ← mmod (fun s => with_idt (idt_init vectors idt_array (gates (m_idt s))) s);
  _ ← timer_init c;
  _ ← on_irqs (keyboard_init kslot);
  mmod (with_if true).

(** ** Its effect *)

Lemma timer_init_run c s :
  timer_init c s =
    Ret (tt, with_pit (Pit 0x34 None 11932)
      (with_irqs (with_itimer (with_tnodes (list_init (TimerHead c) (tnodes (itimer (m_irqs s)))) (itimer (m_irqs s)))
                    (with_handlers (<[IRQ_TIMER := TimerIrq]> (irq_handlers (m_irqs s))) (m_irqs s))) s)).
Proof. reflexivity. Qed.

(** Reaching a device does not depend on other pages. *)
Lemma reaches_other (t t' : ptm) d a :
  cr3 t = 4096 * d -> cr3 t' = cr3 t -> walk (words t') d (a / 4096) = walk (words t) d (a / 4096) ->
  reaches t' a = reaches t a.
Proof.
  intros Hc Hc' Hw. unfold reaches. rewrite Hc', Hc. unfold frame_of at 1 3. rewrite Z.mul_comm, Z.div_mul by lia. by rewrite Hw.
Qed.

Lemma keyboard_init_run (x : irqs) (els : list (list Z)) :
  reaches (hpt (ihw x)) IOAPIC = true -> kbd_ok kslot (ikbd x) els ->
  2 * Z.max (q_capacity (stdio_que (ikbd x))) (2 * (Z.of_nat (length els) + Z.of_nat (length (kb_pending (ikbd x))))) < 2 ^ 30 ->
  exists k' i r, keyboard_init kslot x =
      Ret (tt, with_ihw (with_io i r (ihw x)) (with_handlers (<[IRQ_KEYBD := KeyboardIrq]> (irq_handlers x)) (with_ikbd k' x))) /\
    kb_pending k' = [] /\ forall j, j <> IRQ_KEYBD -> redirection (with_io i r (ihw x)) j = redirection (ihw x) j.
Proof.
  intros R Hk Hcap. destruct (read_loop_run (S (length (kb_pending (ikbd x)))) kslot (ikbd x) els Hk ltac:(lia) Hcap) as (k' & l & Ek & Hp & _).
  unfold keyboard_init. assert (E : keyboard_read_all_buffer kslot (ikbd x) = Ret (tt, k')).
  { unfold keyboard_read_all_buffer. by rewrite (M_bind_run _ _ (ikbd x) (ikbd x) (ikbd x)) by done. }
  rewrite (M_bind_run _ _ _ _ _ (zoom_run ikbd with_ikbd _ x _ _ E)).
  rewrite (M_bind_run _ _ _ _ _ (request_irq_run IRQ_KEYBD KeyboardIrq (with_ikbd k' x) ltac:(done))).
  set (y := with_handlers _ _). assert (Ry : reaches (hpt (ihw y)) IOAPIC = true) by exact R.
  assert (Ee : exists i r, ioapic_enable IRQ_KEYBD 0 (ihw y) = Ret (tt, with_io i r (ihw y)) /\
    forall j, j <> IRQ_KEYBD -> redirection (with_io i r (ihw y)) j = redirection (ihw y) j).
  { unfold ioapic_enable. rewrite (M_bind_run _ _ _ _ _ (ioapic_write_run _ _ _ Ry)). rewrite ioapic_write_run by exact Ry.
    eexists _, _. split; [reflexivity|]. intros j Hj. unfold redirection.
    change (with_io ?a ?b (with_io _ _ ?z)) with (with_io a b z). unfold io_reg. cbn [with_io io_regs].
    rewrite !lookup_insert. unfold IRQ_KEYBD, IRQ_OFFSET, PIC_KEYBD, REG_TABLE in *. repeat case_decide; try lia; done. }
  destruct Ee as (i & r & Ee & Hj). exists k', i, r. split; [|by split].
  exact (zoom_run ihw with_ihw _ y _ _ Ee).
Qed.

(** C22. Interrupts are set up: [irq_init] returns with the 8259A pair masked,
    the local APIC enabled with a periodic timer on vector 32, every pin of
    the I/O APIC below 33 masked, a gate for each of the 256 vectors in the
    table the processor uses, the
    interval timer in mode 2 at 100 Hz, handlers for the timer and the
    keyboard added and no others, the list of timers of the processor empty,
    the codes that waited in the keyboard controller consumed, and
    interrupts enabled.  Since the keyboard is on pin 1, its interrupt
    cannot arrive. *)
Theorem irq_init_ok (c d : Z) (F : gset Z) (els : list (list Z)) (s : machine) :
  let h := ihw (m_irqs s) in let k := ikbd (m_irqs s) in
  Pic.idle (m_pic s) -> 0 <= Pic.irq_mask (m_pic s) < 0xFFFF -> (forall i, fits 32 (vectors i)) ->
  lapic_up h -> outside_vpt (l_ptr h / 4096) -> l_ptr h / 4096 <> IOAPIC / 4096 ->
  pt_ok (hpt h) d F -> cr3 (hpt h) = 4096 * d -> editable (hpt h) d IOAPIC PAGE_SIZE F ->
  ipgdir (m_irqs s) = page_to_virt d -> kbd_ok kslot k els ->
  2 * Z.max (q_capacity (stdio_que k)) (2 * (Z.of_nat (length els) + Z.of_nat (length (kb_pending k)))) < 2 ^ 30 ->
  exists s', irq_init c s = Ret (tt, s') /\
    (forall i, 0 <= i < 16 -> Pic.pic_passes (m_pic s') i = false) /\
    lapic_up (ihw (m_irqs s')) /\ l_reg (ihw (m_irqs s')) SVR = 0x13f /\ l_reg (ihw (m_irqs s')) TIMER = Z.lor PERIODIC 32 /\
    (forall i, 0 <= i <= maxintr h -> i < IRQ_KEYBD -> masked (ihw (m_irqs s')) i = true) /\
    idtr (m_idt s') = (2047, idt_array) /\
    (forall i, 0 <= i < IRQ_NUM -> exists g, gates (m_idt s') !! i = Some g /\ gate_offset g = vectors (Z.min i 65)) /\
    pit_mode (m_pit s') = 2 /\ pit_low (m_pit s') = None /\ pit_div (m_pit s') = TIMER_DIV TICK_NUM /\
    irq_handlers (m_irqs s') = <[IRQ_KEYBD := KeyboardIrq]> (<[IRQ_TIMER := TimerIrq]> (irq_handlers (m_irqs s))) /\
    dll (tnodes (itimer (m_irqs s'))) (TimerHead c) [] /\ kb_pending (ikbd (m_irqs s')) = [] /\ m_if s' = true.
Proof.
  intros h k Hidle Hmask Hv U Ho Hne K Hc He Hpg Hk Hcap.
  destruct (Pic.pic_init_ok (m_pic s) false Hidle Hmask) as (p' & Ep & _ & _ & _ & Hpass & _).
  unfold irq_init. rewrite (M_bind_run _ _ _ _ _ (zoom_run m_pic with_pic _ s _ _ Ep)). set (s1 := with_pic p' s).
  destruct (lapic_init_ok delay h U) as (h1 & El & U1 & _ & L1 & L2 & _ & _ & _ & _ & _ & _ & _ & _ & Hpt & Hio & Hl).
  rewrite (M_bind_run _ _ _ _ _ (zoom_run m_irqs with_irqs _ s1 _ _ (zoom_run ihw with_ihw _ (m_irqs s1) _ _ El))).
  set (s2 := with_irqs _ s1). rewrite (M_bind_run _ _ s2 s2 s2 eq_refl).
  change (ipgdir (m_irqs s2)) with (ipgdir (m_irqs s)). rewrite Hpg.
  destruct (ioapic_init_run h1 d F) as (t & ix & rx & F' & Ei & _ & Hct & Rt & Hmk & _ & Hw); [by rewrite Hpt..|].
  rewrite (M_bind_run _ _ _ _ _ (zoom_run m_irqs with_irqs _ s2 _ _ (zoom_run ihw with_ihw _ (m_irqs s2) _ _ Ei))).
  set (h2 := with_io ix rx (with_hpt t h1)) in *. set (s3 := with_irqs _ s2).
  rewrite (M_bind_run _ _ s3 (with_idt (idt_init vectors idt_array (gates (m_idt s3))) s3) tt eq_refl). set (s4 := with_idt _ s3).
  rewrite (M_bind_run _ _ _ _ _ (timer_init_run c s4)). set (s5 := with_pit _ _).
  destruct (keyboard_init_run (m_irqs s5) els Rt Hk Hcap) as (k' & i & r & Ek & Hp & Hj).
  rewrite (M_bind_run _ _ _ _ _ (zoom_run m_irqs with_irqs _ s5 _ _ Ek)). eexists. split; [reflexivity|].
  assert (Em : maxintr h1 = maxintr h) by (unfold maxintr, io_reg; by rewrite Hio). destruct U1 as (V1 & V2 & V3).
  split_and!; try done.
  - split; [exact V1|]. split; [exact V2|]. etransitivity; [|exact V3]. apply (reaches_other (hpt h1) t d (l_ptr h1)); [by rewrite Hpt|done|]. apply Hw; by rewrite Hl.
  - intros j Hj1 Hj2. unfold masked. change (ihw (m_irqs (with_if true _))) with (with_io i r h2).
    change (ihw (m_irqs s5)) with h2 in Hj. rewrite Hj by lia. apply Hmk. lia.
  - intros j Hlt. destruct (idt_init_ok vectors idt_array (gates (m_idt s)) j Hv Hlt) as (_ & g & Eg & Hg & _). by exists g.
  - apply list_init_dll.
Qed.
End Init.

(** *** Example *)

#[local] Existing Instance fsheap1.
#[local] Existing Instance schedheap1.
#[local] Existing Instance timerheap0.
#[local] Existing Instance bump_heap.

(** A machine with a 24-pin I/O APIC and the page tables [t]. *)
Definition machine0 (t : ptm) : machine :=
  Machine (Irqs ∅ (TState ∅ ∅ ∅ (booted 2)) kbd0 (Hw t 0 {[REG_VER := 0x00170011]} 0 lapic_base ∅ [] 0%nat (0, 0) []) (page_to_virt 256)
             trace0 false None)
    (Pic.Pic (Pic.Chip 0 8 0 0 None) (Pic.Chip 0 112 0 0 None) false 0xFFFB) (Pit 0 None 0) (Idt ∅ (0, 0)) false.

#[local] Opaque frames0.

(** The entry points of the stubs, 16 bytes apart. *)
Definition vectors0 (k : Z) : Z := 0xC0100000 + 16 * u8 k.

Lemma vectors0_fit k : fits 32 (vectors0 k).
Proof. pose proof (wrap_fits 8 k ltac:(lia)). unfold fits, vectors0 in *. lia. Qed.

Lemma irq_init_ok_witness :
  exists t s', irq_init 3 200 vectors0 0xC0110000 0 (machine0 t) = Ret (tt, s') /\
    masked (ihw (m_irqs s')) 1 = true /\ pit_div (m_pit s') = 11932 /\ m_if s' = true.
Proof.
  assert (He : editable ptm0 256 lapic_base PAGE_SIZE frames0).
  { apply one_page_editable; [reflexivity|split; [split; [discriminate|reflexivity]|discriminate]|]. exact (Nat.lt_succ_l _ _ two_frames). }
  assert (Hb : fits 32 lapic_base) by (split; [discriminate|reflexivity]).
  destruct (map_device ptm0 256 lapic_base frames0 ptm0_ok eq_refl Hb eq_refl He) as (t & F' & _ & K & R & Hc & _ & Hsz).
  assert (Hf' : (0 < base.size F')%nat) by (pose proof two_frames as Hf; revert Hf Hsz; generalize (base.size frames0); clear; lia).
  destruct (irq_init_ok 3 200 vectors0 0xC0110000 0 256 F' [] (machine0 t))
    as (s' & E & _ & _ & _ & _ & Hm & _ & _ & _ & _ & Hd & _ & _ & _ & Hif).
  - repeat split.
  - split; [discriminate|reflexivity].
  - exact vectors0_fit.
  - split; [split; reflexivity|]. split; [reflexivity|exact R].
  - split; [split; [discriminate|reflexivity]|discriminate].
  - discriminate.
  - exact K.
  - exact Hc.
  - apply one_page_editable; [reflexivity|split; [split; [discriminate|reflexivity]|discriminate]|exact Hf'].
  - reflexivity.
  - exact kbd0_ok.
  - reflexivity.
  - exists t, s'. split; [exact E|]. split; [apply Hm; split; discriminate || reflexivity|]. split; [exact Hd|exact Hif].
Defined.
