(* ===== verification/Serial.v ===== *)
(** * Setting up the console (kernel/serial.c, kernel/stdio.c)

    [stdio_init] creates the queue of the keyboard, programs the serial port
    and initialises the lock of [printk].  The serial port is an 8250: the
    registers at offsets 0 and 1 are the divisor while bit 7 of the line
    control register (DLAB) is set.  A port that does not exist reads as
    0xFF. *)

From stdpp Require Import base numbers list gmap.
From Stdlib Require Import ZArith Lia.
From S2P Require Import Prelude Lock CMem Queue.

Open Scope Z_scope.

#[local] Coercion Z.of_nat : nat >-> Z.

Definition TX : Z := 0.
Definition IER : Z := 1.
Definition FCR : Z := 2.
Definition LCR : Z := 3.
Definition MCR : Z := 4.
Definition LCR_DLL : Z := 0.
Definition LCR_DLH : Z := 1.
Definition RX : Z := 0.
Definition IIR : Z := 2.
Definition LSR : Z := 5.

(** The chip: is it there, the divisor, the registers, what was received and
    what was sent, the last character first. *)
Record uart := Uart {
  u_present : bool;
  u_low : Z; u_high : Z;
  u_ier : Z; u_fcr : Z; u_lcr : Z; u_mcr : Z;
  u_rx : list Z; u_tx : list Z
}.

Definition dlab (u : uart) : bool := Z.testbit (u_lcr u) 7.
Definition divisor (u : uart) : Z := u_low u + 256 * u_high u.

(** A write; no chip, no effect. *)
Definition uart_write (off v : Z) (u : uart) : uart :=
  let 'Uart p l h ie fc lc mc r t := u in
  if negb p then u
  else if (off =? LCR_DLL) && dlab u then Uart p v h ie fc lc mc r t
  else if (off =? LCR_DLH) && dlab u then Uart p l v ie fc lc mc r t
  else if off =? TX then Uart p l h ie fc lc mc r (v :: t)
  else if off =? IER then Uart p l h v fc lc mc r t
  else if off =? FCR then Uart p l h ie v lc mc r t
  else if off =? LCR then Uart p l h ie fc v mc r t
  else if off =? MCR then Uart p l h ie fc lc v r t
  else u.

(** A read; the transmitter is idle. *)
Definition uart_read (off : Z) (u : uart) : Z * uart :=
  let 'Uart p l h ie fc lc mc r t := u in
  if negb p then (0xFF, u)
  else if off =? LSR then (Z.lor (if r then 0 else 1) 0x60, u)
  else if off =? IIR then (match r with [] => 1 | _ => 4 end, u)
  else if off =? RX then (hd 0 r, Uart p l h ie fc lc mc (tl r) t)
  else (0, u).

(** The variables: [stdio_que] is NULL or the address of a queue. *)
Record stdio := Stdio {
  sd_uart : uart;
  serial_exists : bool;
  sd_mem : cmem;
  sd_que : option (Z * queue);
  sd_lock : Z
}.

Definition with_uart (u : uart) (s : stdio) : stdio := Stdio u (serial_exists s) (sd_mem s) (sd_que s) (sd_lock s).

Definition serial_out (offset value : Z) : M stdio unit := mmod (fun s => with_uart (uart_write offset (u8 value) (sd_uart s)) s).
Definition serial_in (offset : Z) : M stdio Z := fun s =>
  let '(x, u) := uart_read offset (sd_uart s) in Ret (x, with_uart u s).

Definition serial_init : M stdio unit :=
  _ ← serial_out FCR 0;
  _ ← serial_out LCR 0x80;
  _ ← serial_out LCR_DLL 0x03;
  _ ← serial_out LCR_DLH 0x00;
  _ ← serial_out LCR (Z.land 0x03 (Z.lnot 0x80));
  _ ← serial_out MCR 0x00;
  _ ← serial_out IER 0x01;
  x ← serial_in LSR;
  _ ← mmod (fun s => Stdio (sd_uart s) (negb (x =? 0xFF)) (sd_mem s) (sd_que s) (sd_lock s));
  _ ← serial_in IIR;
  _ ← serial_in RX;
  mret tt.

Section Init.
Context `{KHeap}.

Definition stdio_init : M stdio unit :=
  q ← zoom sd_mem (fun m s => Stdio (sd_uart s) (serial_exists s) m (sd_que s) (sd_lock s)) (queue_create 1);
  _ ← mmod (fun s => Stdio (sd_uart s) (serial_exists s) (sd_mem s) q (sd_lock s));
  _ ← serial_init;
  mmod (fun s => Stdio (sd_uart s) (serial_exists s) (sd_mem s) (sd_que s) (counter spinlock_init)).

(** ** Correctness *)

(** The chip afterwards: 38400 baud, 8 bits, no parity, interrupts for
    received characters, and one character less. *)
Definition programmed (u : uart) : uart :=
  if u_present u then Uart true 3 0 1 0 3 0 (tl (u_rx u)) (u_tx u) else u.

Lemma serial_init_run s : serial_init s = Ret (tt, Stdio (programmed (sd_uart s)) (u_present (sd_uart s)) (sd_mem s) (sd_que s) (sd_lock s)).
Proof.
  destruct s as [[[] l h ie fc lc mc r t] e m q k]; [|reflexivity]. unfold programmed. cbn [sd_uart u_present u_rx u_tx sd_mem sd_que sd_lock].
  destruct r; reflexivity.
Qed.

(** A new queue is empty. *)
Lemma queue_create_run m es : heap_ok m -> 0 < es -> es * QUE_MIN_CAPACITY < 2 ^ 30 ->
  (exists m', queue_create es m = Ret (None, m') /\ heap_ok m' /\ (kalloc m QUEUE_SIZE = None \/ exists m1, kalloc m1 (QUE_MIN_CAPACITY * es) = None)) \/
  exists a q m', queue_create es m = Ret (Some (a, q), m') /\ que_rep m' q [] /\ q_element_size q = es /\ q_capacity q = QUE_MIN_CAPACITY /\
    blocks m' !! a = Some QUEUE_SIZE /\ forall p x, bytes m !! p = Some x -> bytes m' !! p = Some x.
Proof.
  intros Hh He Hs. unfold queue_create. assert (Hc : 1 < QUE_MIN_CAPACITY) by done.
  destruct (kmalloc_run m QUEUE_SIZE ltac:(done) Hh) as [[En E]|(a & m1 & E & Ha & Hh1 & _ & Hb1 & _ & _ & _ & Hk1)];
    rewrite (M_bind_run _ _ _ _ _ E).
  { left. exists m. split; [done|]. split; [done|by left]. }
  replace (a =? 0) with false by lia. rewrite wrap_small by (unfold fits; lia).
  destruct (kmalloc_run m1 (QUE_MIN_CAPACITY * es) ltac:(lia) Hh1) as [[En E2]|(b & m2 & E2 & Hb0 & Hh2 & Hn2 & Hb2 & _ & _ & _ & Hk2)];
    rewrite (M_bind_run _ _ _ _ _ E2).
  - left. change (0 =? 0) with true. cbv iota.
    destruct (kfree_run m1 a QUEUE_SIZE Hh1 ltac:(rewrite Hb1; apply lookup_insert_eq)) as (m3 & E3 & Hh3 & _).
    rewrite (M_bind_run _ _ _ _ _ E3). exists m3. split; [done|]. split; [done|]. right. by exists m1.
  - right. replace (b =? 0) with false by lia. exists a, (Queue b es 0 0 QUE_MIN_CAPACITY), m2. split; [done|].
    assert (Hab : a <> b) by (intros ->; by rewrite Hb1, lookup_insert_eq in Hn2).
    split; [|split; [done|split; [done|split]]].
    + split; cbn [q_base q_element_size q_front q_rear q_capacity length]; try done.
      rewrite Hb2, Z.mul_comm. apply lookup_insert_eq.
    + rewrite Hb2, lookup_insert_ne, Hb1 by congruence. apply lookup_insert_eq.
    + intros p x Hx. by apply Hk2, Hk1.
Qed.

(** The console is set up: with memory for the queue, [stdio_init] leaves an
    empty queue of characters, the lock free, and, if there is a serial port
    (and only then [serial_exists] is set), programs it for 38400 baud, 8
    bits without parity and receiver interrupts, the divisor latch closed,
    dropping at most one character that had been received; nothing is sent
    and no memory in use is changed. *)
Theorem stdio_init_ok (s : stdio) :
  heap_ok (sd_mem s) -> (forall m n, kalloc m n <> None) ->
  exists s' a q, stdio_init s = Ret (tt, s') /\ sd_que s' = Some (a, q) /\ que_rep (sd_mem s') q [] /\ q_element_size q = 1 /\
    sd_lock s' = 0 /\ serial_exists s' = u_present (sd_uart s) /\ u_tx (sd_uart s') = u_tx (sd_uart s) /\
    (u_present (sd_uart s) = true -> divisor (sd_uart s') = 115200 / 38400 /\ dlab (sd_uart s') = false /\
       Z.land (u_lcr (sd_uart s')) 0x3F = 3 /\ u_ier (sd_uart s') = 1 /\ u_rx (sd_uart s') = tl (u_rx (sd_uart s))) /\
    forall p x, bytes (sd_mem s) !! p = Some x -> bytes (sd_mem s') !! p = Some x.
Proof.
  intros Hh Hal. unfold stdio_init.
  destruct (queue_create_run (sd_mem s) 1 Hh ltac:(done) ltac:(done)) as [(m' & _ & _ & [Hn|[m1 Hn]])|(a & q & m' & E & Hq & He & _ & _ & Hk)];
    [by apply Hal in Hn|by apply Hal in Hn|].
  rewrite (M_bind_run _ _ _ _ _ (zoom_run sd_mem _ _ s _ _ E)). set (s1 := Stdio _ _ _ _ _).
  rewrite (M_bind_run _ _ s1 (Stdio (sd_uart s1) (serial_exists s1) m' (Some (a, q)) (sd_lock s1)) tt) by done.
  rewrite (M_bind_run _ _ _ _ _ (serial_init_run _)). eexists _, a, q. split; [reflexivity|].
  cbn [sd_uart sd_mem sd_que sd_lock serial_exists s1]. split_and!; try done.
  - unfold programmed. by destruct (u_present (sd_uart s)).
  - intros Hp. unfold programmed. rewrite Hp. by vm_compute.
Qed.
End Init.
