(* ===== verification/Klog.v ===== *)
(** * The kernel log (kernel/debug.c, include/debug.h, include/stdio.h)

    [pr_info], [pr_err] and [pr_debug] call [print_debug], which builds a
    line in a static string, the time, the processor, the module padded to
    ten characters, the level and the message, prints it on the serial port
    until the system has started, and appends it to a log of 128 KiB that
    the command [dmesg] prints.  The three strings live in static arrays:
    they may be filled, but they cannot grow, since growing a string frees
    its buffer.

    Numbers are formatted by [dec] into the static output strings of the
    console.  The array of 32 characters [ksappend_int] formats into is on
    the stack at [stk]; [to_str] does not terminate it, and [strlen] reads on
    to the next NUL. *)

From stdpp Require Import base numbers list gmap.
From Stdlib Require Import ZArith Lia.
From S2P Require Import Prelude Bitops Lock ListNode CMem CString KString Queue Timer Console.

Open Scope Z_scope.

#[local] Coercion Z.of_nat : nat >-> Z.

(** The sizes of [dmesg_buf] and of the other three arrays. *)
Definition DMESG_SIZE : Z := 4096 * 32.
Definition LINE_SIZE : Z := 128.

(** The static variables of debug.c and [os_start] of init.c. *)
Record klog := Klog {
  k_con : console;
  k_line : string;
  k_s : string;
  k_dmesg : string;
  os_start : bool
}.

Definition with_con (x : console) (s : klog) : klog := Klog x (k_line s) (k_s s) (k_dmesg s) (os_start s).
Definition with_line (x : string) (s : klog) : klog := Klog (k_con s) x (k_s s) (k_dmesg s) (os_start s).
Definition with_s (x : string) (s : klog) : klog := Klog (k_con s) (k_line s) x (k_dmesg s) (os_start s).
Definition with_dmesg (x : string) (s : klog) : klog := Klog (k_con s) (k_line s) (k_s s) x (os_start s).

Definition on_con {A} (m : M console A) : M klog A := zoom k_con with_con m.

Section Code.
Context `{KHeap} (delay : nat) (g_out_buf line_end stk : Z).
(** Where the static arrays are, and the address of a string literal. *)
Context (line_buf s_buf dmesg_buf : Z) (lit : list Z -> Z).

Definition dec (v : Z) : M console Z :=
  s ← get_out_string g_out_buf;
  r ← on_mem (ksappend_int s (s32 v) stk);
  mret (str r.2).

(** The loop over the arguments; [n] is never incremented, so only the end
    marker ends it. *)
Fixpoint message_loop (args : list Z) (p : Z) (st : string) : M cmem string :=
  if p =? line_end then mret st
  else
    match args with
    | [] => fun _ => Fault
    | a :: args => '(_, st) ← ksappend_str st a; message_loop args a st
    end.

Definition emptied (st : string) : string := Str (str st) 0 (str_capacity st).

Definition s_open : list Z := [91].
Definition s_dot : list Z := [46].
Definition s_sep : list Z := [93; 91].
Definition s_shut : list Z := [93].
Definition s_last : list Z := [93; 32].

(** [s] holds the name of the module, padded or cut to ten characters. *)
Definition put_module (module : Z) : M klog unit :=
  s ← mget;
  '(_, st) ← on_con (on_mem (ksappend_str (emptied (k_s s)) module));
  '(_, st) ← on_con (on_mem (ksfit st 32 10));
  mmod (with_s st).

(** The start of the line.  The arguments are evaluated before the call. *)
Definition put_header (now : time) (cpu debug : Z) : M klog unit :=
  d1 ← on_con (dec (hours now));
  d2 ← on_con (dec (minutes now));
  d3 ← on_con (dec (seconds now));
  d4 ← on_con (dec (msecs now));
  d5 ← on_con (dec cpu);
  s ← mget;
  '(_, ln) ← on_con (on_mem (ksappend_args (k_line s)
    [lit s_open; d1; lit s_dot; d2; lit s_dot; d3; lit s_dot; d4; lit s_sep; d5; lit s_shut; lit s_open;
     str (k_s s); lit s_sep; debug; lit s_last]));
  mmod (with_line ln).

Definition print_debug (now : time) (cpu module debug : Z) (args : list Z) : M klog Z :=
  s ← mget;
  c ← mlift (spin_lock (pr_lock (k_con s)));
  _ ← on_con (mmod (with_lock c));
  _ ← mmod (fun s => with_line (emptied (k_line s)) s);
  _ ← put_module module;
  _ ← put_header now cpu debug;
  s ← mget;
  ln ← on_con (on_mem (message_loop args 0 (k_line s)));
  _ ← mmod (with_line ln);
  _ ← (if os_start s then mret 0 else on_con (puts delay (str ln)));
  s ← mget;
  '(_, d) ← on_con (on_mem (ksappend_str (k_dmesg s) (str ln)));
  _ ← mmod (with_dmesg d);
  _ ← on_con (mmod (fun s => with_lock (spin_unlock (pr_lock s)) s));
  mret 0.

(** [printk_debug(module, debug, ...)]. *)
Definition printk_debug (now : time) (cpu module debug : Z) (args : list Z) : M klog Z :=
  print_debug now cpu module debug (args ++ [line_end]).

Definition dmesg : M klog Z := s ← mget; on_con (printk delay line_end [str (k_dmesg s)]).

(** The strings are initialised at the end of [debug_init]. *)
Definition log_init : M klog unit :=
  mmod (fun s => Klog (k_con s) (ksinit line_buf 128) (ksinit s_buf 128) (ksinit dmesg_buf (4096 * 32)) (os_start s)).

(** ** Memory *)

(** [m'] differs from [m] at addresses in [P] at most. *)
Definition same_but (P : Z -> Prop) (m m' : cmem) : Prop :=
  blocks m' = blocks m /\ (forall a, is_Some (bytes m !! a) -> is_Some (bytes m' !! a)) /\
  forall a, ~ P a -> bytes m' !! a = bytes m !! a.

Definition within (p n a : Z) : Prop := p <= a < p + n.

Lemma same_refl P m : same_but P m m.
Proof. by split. Qed.

Lemma same_trans P Q m m1 m2 : same_but P m m1 -> same_but Q m1 m2 -> same_but (fun a => P a \/ Q a) m m2.
Proof.
  intros (B1 & M1 & F1) (B2 & M2 & F2). split; [congruence|]. split; [auto|]. intros a Ha. rewrite F2, F1 by tauto. done.
Qed.

Lemma same_weaken (P Q : Z -> Prop) m m' : (forall a, P a -> Q a) -> same_but P m m' -> same_but Q m m'.
Proof. intros Hi (B & Hm & F). split; [done|]. split; [done|]. intros a Ha. apply F. auto. Qed.

Lemma same_blit m p l : mapped (bytes m) p (length l) -> same_but (within p (length l)) m (put_bytes (blit p l (bytes m)) m).
Proof.
  intros Hm. split; [done|]. split.
  - intros a Ha. cbn [bytes put_bytes]. rewrite <- (Z.add_0_r a). apply (mapped_blit _ _ _ a 1); [|lia].
    intros i Hi. by replace (a + i) with a by lia.
  - intros a Ha. apply blit_out. exact Ha.
Qed.

Lemma same_mapped P m m' p n : same_but P m m' -> mapped (bytes m) p n -> mapped (bytes m') p n.
Proof. intros (_ & Hs & _) Hm i Hi. by apply Hs, Hm. Qed.

Lemma same_cstr P m m' p l : same_but P m m' -> (forall a, p <= a <= p + length l -> ~ P a) ->
  cstr (bytes m) p l -> cstr (bytes m') p l.
Proof. intros (_ & _ & F) Ha. apply cstr_frame. intros a Hin. by apply F, Ha. Qed.

(** ** Appending to a string that does not grow *)

(** [st] has room for [str_capacity st] bytes and holds [l]. *)
Record holds (m : cmem) (st : string) (l : list Z) : Prop := Holds {
  ho_room : mapped (bytes m) (str st) (str_capacity st);
  ho_len : str_length st = length l;
  ho_arr : arr (bytes m) (str st) l;
  ho_chars : char_list l;
  ho_cap : str_capacity st < 2 ^ 30
}.

Lemma holds_same P m m' st l : same_but P m m' -> (forall a, within (str st) (length l) a -> ~ P a) -> holds m st l -> holds m' st l.
Proof.
  intros S Ha [R L A C K]. split; [exact (same_mapped _ _ _ _ _ S R)|done| |done|done].
  eapply arr_frame; [|exact A]. intros a Hin. apply S, Ha. exact Hin.
Qed.

Lemma strn_fixed m st l p t n :
  holds m st l -> cstr (bytes m) p t -> 0 < p -> 0 <= n -> length t < 2 ^ 31 ->
  p + length t + 1 <= str st \/ str st + str_capacity st <= p ->
  let k := Z.to_nat (Z.min n (length t)) in length l + k < str_capacity st ->
  exists m', ksappend_strn st p n m = Ret ((0, Str (str st) (length l + k) (str_capacity st)), m') /\
    holds m' (Str (str st) (length l + k) (str_capacity st)) (l ++ take k t) /\
    bytes m' !! (str st + (length l + k)) = Some 0 /\ same_but (within (str st) (str_capacity st)) m m'.
Proof.
  intros [R L A C K] Hp Hp0 Hn Ht Hap k Hk. pose proof (strlen_run t m p Hp ltac:(lia)) as Es. unfold ksappend_strn.
  replace (p =? 0) with false by lia. rewrite (M_bind_run _ _ _ _ _ Es).
  assert (Ek : (if length t <? n then strlen p else mret n) m = Ret (Z.of_nat k, m)).
  { destruct (Z.ltb_spec (length t) n); [rewrite Es|unfold mret, M_ret]; do 2 f_equal; lia. }
  rewrite (M_bind_run _ _ _ _ _ Ek), L, (wrap_small 32 (length l + k)) by (unfold fits; lia).
  unfold string_try_expand. replace (length l + k <=? str_capacity st) with true by lia.
  rewrite (M_bind_run _ _ m m (0, st)) by done. cbv beta iota. change (negb (0 =? 0)) with false. cbv iota. rewrite L.
  rewrite (M_bind_run _ _ _ _ _ (strncpy_run t m (str st + length l) p k Hp
    ltac:(eapply mapped_sub; [exact R|lia|lia]) ltac:(lia))).
  rewrite padded_take by lia. cbn [str str_length str_capacity]. rewrite (wrap_small 32 (length l + k)) by (unfold fits; lia).
  set (m1 := put_bytes _ m). assert (Htk : length (take k t) = k) by (rewrite length_take; lia).
  assert (S1 : same_but (within (str st + length l) (length (take k t))) m m1).
  { apply same_blit. eapply mapped_sub; [exact R|lia|lia]. }
  assert (Hw : is_Some (bytes m1 !! (str st + (length l + k)))) by (apply (same_mapped _ _ _ _ _ S1 R); lia).
  rewrite (M_bind_run _ _ _ _ _ (wrb_run m1 _ 0 Hw ltac:(lia))). eexists. split; [reflexivity|]. cbn [bytes put_bytes].
  assert (S2 : same_but (within (str st) (str_capacity st)) m (put_bytes (<[str st + (length l + k) := 0]> (bytes m1)) m1)).
  { eapply same_weaken; [|apply (same_trans _ _ _ _ _ S1 (same_blit m1 (str st + (length l + k)) [0]
      ltac:(intros i Hi; cbn in Hi; replace i with 0 by lia; by rewrite Z.add_0_r)))].
    unfold within. intros a. rewrite Htk. cbn [length]. lia. }
  pose proof (cstr_extend (bytes m) (str st) l (take k t) A C (Forall_take _ _ _ (proj2 Hp))) as [Hx Hc].
  rewrite length_app, Htk in Hx. replace (Z.of_nat (length l + k)) with (length l + k) in Hx by lia.
  apply arr_app in Hx as [Hx Hz]. apply arr_cons in Hz as [Hz _]. split; [|split; [|exact S2]].
  - split; cbn [str str_length str_capacity].
    + exact (same_mapped _ _ _ _ _ S2 R).
    + rewrite length_app, Htk. lia.
    + exact Hx.
    + exact Hc.
    + exact K.
  - apply lookup_insert_eq.
Qed.

Lemma str_fixed m st l p t :
  holds m st l -> cstr (bytes m) p t -> 0 < p -> p + length t + 1 <= str st \/ str st + str_capacity st <= p ->
  length l + length t < str_capacity st ->
  exists m' st', ksappend_str st p m = Ret ((0, st'), m') /\ str st' = str st /\ str_capacity st' = str_capacity st /\
    holds m' st' (l ++ t) /\ bytes m' !! (str st + length (l ++ t)) = Some 0 /\ same_but (within (str st) (str_capacity st)) m m'.
Proof.
  intros Hh Hp Hp0 Hap Hk. pose proof (ho_cap _ _ _ Hh). unfold ksappend_str.
  rewrite (M_bind_run _ _ _ _ _ (strlen_run t m p Hp ltac:(lia))).
  destruct (strn_fixed m st l p t (length t) Hh Hp Hp0 ltac:(lia) ltac:(lia) Hap ltac:(lia)) as (m' & E & Hh' & Hz & S).
  rewrite Z.min_id, Nat2Z.id in *. rewrite take_ge in Hh' by lia. eexists m', _. split; [exact E|].
  split; [done|]. split; [done|]. split; [exact Hh'|]. rewrite length_app.
  by replace (Z.of_nat (length l + length t)) with (length l + length t) by lia.
Qed.

(** A string [t] at [p], away from the buffer of [st]. *)
Definition source (m : cmem) (st : string) (p : Z) (t : list Z) : Prop :=
  cstr (bytes m) p t /\ 0 < p /\ (p + length t + 1 <= str st \/ str st + str_capacity st <= p).

Lemma source_kept m m' st st' p t : same_but (within (str st) (str_capacity st)) m m' ->
  str st' = str st -> str_capacity st' = str_capacity st -> source m st p t -> source m' st' p t.
Proof.
  intros S E1 E2 (Hc & Hp & Ha). unfold source. rewrite E1, E2. split; [|done].
  eapply same_cstr; [exact S| |exact Hc]. unfold within. lia.
Qed.

Lemma same_twice P m m1 m2 : same_but P m m1 -> same_but P m1 m2 -> same_but P m m2.
Proof. intros S1 S2. eapply same_weaken; [|exact (same_trans _ _ _ _ _ S1 S2)]. by intros a [?|?]. Qed.

Lemma args_fixed ps : forall m st l ts, holds m st l -> (ps = [] -> bytes m !! (str st + length l) = Some 0) ->
  Forall2 (source m st) ps ts -> length l + length (concat ts) < str_capacity st ->
  exists m' st', ksappend_args st ps m = Ret ((0, st'), m') /\ str st' = str st /\ str_capacity st' = str_capacity st /\
    holds m' st' (l ++ concat ts) /\ bytes m' !! (str st + length (l ++ concat ts)) = Some 0 /\
    same_but (within (str st) (str_capacity st)) m m'.
Proof.
  induction ps as [|p ps IH]; intros m st l ts Hh Hz Hs Hr.
  - apply Forall2_nil_inv_l in Hs as ->. cbn [concat]. rewrite app_nil_r. exists m, st. split_and!; try done. by apply Hz.
  - apply Forall2_cons_inv_l in Hs as (t & ts' & (Hc & Hp & Ha) & Hs & ->). cbn [concat] in Hr |- *. rewrite length_app in Hr.
    destruct (str_fixed m st l p t Hh Hc Hp Ha ltac:(lia)) as (m1 & st1 & E1 & B1 & C1 & H1 & Z1 & S1).
    cbn [ksappend_args]. rewrite (M_bind_run _ _ _ _ _ E1).
    destruct (IH m1 st1 (l ++ t) ts' H1) as (m2 & st2 & E2 & B2 & C2 & H2 & Z2 & S2).
    + intros _. by rewrite B1.
    + eapply Forall2_impl; [exact Hs|]. intros q u. by apply source_kept.
    + rewrite C1, length_app. lia.
    + rewrite <- app_assoc in *. rewrite B1, C1 in *. exists m2, st2. split_and!; try done. exact (same_twice _ _ _ _ S1 S2).
Qed.

Lemma message_fixed ps : forall m st l ts p0, holds m st l ->
  Forall2 (source m st) (ps ++ [line_end]) (ts ++ [[]]) -> Forall (fun p => p <> line_end) (p0 :: ps) ->
  length l + length (concat ts) < str_capacity st ->
  exists m' st', message_loop (ps ++ [line_end]) p0 st m = Ret (st', m') /\ str st' = str st /\ str_capacity st' = str_capacity st /\
    holds m' st' (l ++ concat ts) /\ bytes m' !! (str st + length (l ++ concat ts)) = Some 0 /\
    same_but (within (str st) (str_capacity st)) m m'.
Proof.
  induction ps as [|p ps IH]; intros m st l ts p0 Hh Hs Hne Hr; apply Forall_cons in Hne as [Hp0 Hne];
    cbn [app message_loop]; replace (p0 =? line_end) with false by lia.
  - assert (ts = []) as ->.
    { apply Forall2_length in Hs. rewrite !length_app in Hs. destruct ts; [done|]. cbn in Hs. lia. }
    apply Forall2_cons in Hs as ((Hc & Hp & Ha) & _). cbn [concat length] in *. rewrite app_nil_r.
    destruct (str_fixed m st l line_end [] Hh Hc Hp Ha ltac:(cbn; lia)) as (m1 & st1 & E1 & B1 & C1 & H1 & Z1 & S1).
    rewrite (M_bind_run _ _ _ _ _ E1). cbn [message_loop]. rewrite Z.eqb_refl. rewrite app_nil_r in *. by exists m1, st1.
  - apply Forall2_cons_inv_l in Hs as (t & ts' & (Hc & Hp & Ha) & Hs & E). destruct ts as [|t1 ts].
    { inversion E; subst. apply Forall2_length in Hs. rewrite !length_app in Hs. cbn in Hs. lia. }
    injection E as -> E. subst ts'. cbn [concat] in Hr |- *. rewrite length_app in Hr.
    destruct (str_fixed m st l p t Hh Hc Hp Ha ltac:(lia)) as (m1 & st1 & E1 & B1 & C1 & H1 & Z1 & S1).
    rewrite (M_bind_run _ _ _ _ _ E1).
    destruct (IH m1 st1 (l ++ t) ts p H1) as (m2 & st2 & E2 & B2 & C2 & H2 & Z2 & S2).
    + eapply Forall2_impl; [exact Hs|]. intros q u. by apply source_kept.
    + exact Hne.
    + rewrite C1, length_app. lia.
    + rewrite <- app_assoc in *. rewrite B1, C1 in *. exists m2, st2. split_and!; try done. exact (same_twice _ _ _ _ S1 S2).
Qed.

(** What [ksfit] makes of [l]. *)
Definition fitted (c n : Z) (l : list Z) : list Z := take (Z.to_nat n) (l ++ replicate (Z.to_nat n - length l) c).

Lemma fit_loop_run (k : nat) : forall m p c, mapped (bytes m) p k -> 0 <= c < 256 ->
  ksfit_loop k p c m = Ret (tt, put_bytes (blit p (replicate k c) (bytes m)) m).
Proof.
  induction k as [|k IH]; intros m p c Hm Hc; cbn [ksfit_loop replicate]; [by destruct m|].
  assert (H0 : is_Some (bytes m !! p)) by (rewrite <- (Z.add_0_r p); apply Hm; lia).
  rewrite (M_bind_run _ _ _ _ _ (wrb_run m p c H0 Hc)), IH; [|..|done].
  - cbn [bytes put_bytes blocks]. rewrite blit_insert. done.
  - apply (mapped_blit _ p [c]). eapply mapped_sub; [exact Hm|lia|lia].
Qed.

Lemma fit_fixed m st l c n : holds m st l -> 0 < c < 256 -> 0 < n < str_capacity st ->
  exists m' st', ksfit st c n m = Ret ((0, st'), m') /\ str st' = str st /\ str_capacity st' = str_capacity st /\
    cstr (bytes m') (str st) (fitted c n l) /\ same_but (within (str st) (str_capacity st)) m m'.
Proof.
  intros [R L A C K] Hc Hn. unfold ksfit. rewrite (wrap_small 32 n) by (unfold fits; lia). unfold string_try_expand.
  replace (n <=? str_capacity st) with true by lia. rewrite (M_bind_run _ _ m m (0, st)) by done. cbv beta iota.
  change (negb (0 =? 0)) with false. cbv iota. rewrite L. set (k := Z.to_nat (n - length l)).
  assert (Hk : mapped (bytes m) (str st + length l) k).
  { intros i Hi. rewrite <- Z.add_assoc. apply R. lia. }
  rewrite (M_bind_run _ _ _ _ _ (fit_loop_run k m (str st + length l) c Hk ltac:(lia))). set (m1 := put_bytes _ m).
  assert (S1 : same_but (within (str st + length l) (length (replicate k c))) m m1).
  { apply same_blit. by rewrite length_replicate. }
  rewrite (s32_signed n) by lia. assert (Hw : is_Some (bytes m1 !! (str st + n))) by (apply (same_mapped _ _ _ _ _ S1 R); lia).
  rewrite (M_bind_run _ _ _ _ _ (wrb_run m1 _ 0 Hw ltac:(lia))). eexists _, _. split; [reflexivity|]. split; [done|]. split; [done|].
  assert (Hl : length (fitted c n l) = Z.to_nat n).
  { unfold fitted. rewrite length_take, length_app, length_replicate. lia. }
  split.
  - split.
    + apply arr_app. rewrite Hl, Z2Nat.id by lia. cbn [bytes put_bytes]. split.
      * eapply arr_frame; [intros a Ha; apply lookup_insert_ne; rewrite Hl in Ha; lia|].
        assert (Hx : arr (bytes m1) (str st) (l ++ replicate k c)).
        { apply arr_app. split; [|apply arr_blit]. eapply arr_frame; [|exact A]. intros a Ha. apply blit_out. lia. }
        rewrite <- (take_drop (Z.to_nat n) (l ++ replicate k c)) in Hx. apply arr_app in Hx as [Hx _].
        unfold fitted. by replace (Z.to_nat n - length l)%nat with k by lia.
      * apply arr_cons. split; [apply lookup_insert_eq|apply arr_length_0].
    + apply Forall_take, Forall_app. split; [done|]. by apply Forall_replicate.
  - apply (same_twice _ _ m1).
    + eapply same_weaken; [|exact S1]. unfold within. rewrite length_replicate. lia.
    + eapply same_weaken; [|apply (same_blit m1 (str st + n) [0])].
      * unfold within. cbn [length]. lia.
      * intros i Hi. cbn in Hi. replace i with 0 by lia. by rewrite Z.add_0_r.
Qed.

(** ** Formatting a number *)

Definition OUT_SIZE : Z := 128 * STDIO_MAX_ARGS.

(** The static arrays and the array on the stack do not overlap. *)
Definition apart (p n q k : Z) : Prop := p + n <= q \/ q + k <= p.

Record placed : Prop := Placed {
  pl_pos : 0 < line_buf /\ 0 < s_buf /\ 0 < dmesg_buf /\ 0 < g_out_buf /\ 0 < stk;
  pl_line : apart line_buf LINE_SIZE s_buf LINE_SIZE /\ apart line_buf LINE_SIZE dmesg_buf DMESG_SIZE /\
    apart line_buf LINE_SIZE g_out_buf OUT_SIZE /\ apart line_buf LINE_SIZE stk 33;
  pl_s : apart s_buf LINE_SIZE dmesg_buf DMESG_SIZE /\ apart s_buf LINE_SIZE g_out_buf OUT_SIZE /\ apart s_buf LINE_SIZE stk 33;
  pl_out : apart dmesg_buf DMESG_SIZE g_out_buf OUT_SIZE /\ apart dmesg_buf DMESG_SIZE stk 33 /\ apart g_out_buf OUT_SIZE stk 33
}.

(** The array on the stack holds any bytes; a NUL follows it. *)
Definition stack_ok (m : cmem) : Prop :=
  exists g, arr (bytes m) stk (g ++ [0]) /\ length g = 32%nat /\ byte_list g.

(** Whatever is behind the text [l] in the array. *)
Lemma stack_text m l : stack_ok m -> char_list l -> (length l <= 32)%nat ->
  let m' := put_bytes (blit stk l (bytes m)) m in
  stack_ok m' /\ same_but (within stk 33) m m' /\ exists t, cstr (bytes m') stk (l ++ t) /\ (length (l ++ t) <= 32)%nat.
Proof.
  intros (g & Ha & Hl & Hb) Hc Hlen m'. pose proof (arr_mapped _ _ _ Ha) as Hm. rewrite length_app, Hl in Hm.
  apply arr_app in Ha as [Ha Hz]. rewrite <- (take_drop (length l) g) in Ha.
  apply arr_app in Ha as [_ Ha]. rewrite length_take, Hl, Nat.min_l in Ha by done.
  assert (Hd : length (drop (length l) g) = (32 - length l)%nat) by (rewrite length_drop; lia).
  assert (Ha' : arr (bytes m') (stk + length l) (drop (length l) g ++ [0])).
  { apply arr_blit_other; [lia|]. apply arr_app. split; [done|]. rewrite Hd. rewrite Hl in Hz.
    by replace (stk + length l + (32 - length l)%nat) with (stk + 32%nat) by lia. }
  assert (Hb' : byte_list (drop (length l) g)) by by apply Forall_drop. split; [|split].
  - exists (l ++ drop (length l) g). rewrite <- app_assoc. split; [apply arr_app; split; [apply arr_blit|done]|].
    split; [rewrite length_app; lia|]. apply Forall_app. split; [|done]. eapply Forall_impl; [exact Hc|]. cbn. lia.
  - eapply same_weaken; [|apply (same_blit m stk l)]; [unfold within; lia|]. eapply mapped_sub; [exact Hm|lia|cbn; lia].
  - destruct (first_nul _ _ _ Ha' Hb') as (t & [Ht Hct] & Hlt). exists t. split; [|rewrite length_app; lia].
    split; [|by apply Forall_app]. rewrite <- app_assoc. apply arr_app. split; [apply arr_blit|done].
Qed.

Definition slot (i : Z) : Z := g_out_buf + 128 * (i mod 128).

(** [dec] formats into the next output string. *)
Lemma dec_run s v : placed -> - 2 ^ 31 < v < 2 ^ 31 -> 0 <= con_index s < 128 ->
  mapped (bytes (con_mem s)) g_out_buf OUT_SIZE -> stack_ok (con_mem s) ->
  let p := slot (con_index s + 1) in
  exists m', dec v s = Ret (p, with_mem m' (with_index ((con_index s + 1) mod 128) s)) /\ cstr (bytes m') p (decimal v) /\
    stack_ok m' /\ same_but (fun a => within p 128 a \/ within stk 33 a) (con_mem s) m'.
Proof.
  intros [Hpos _ _ (_ & _ & Hos)] Hv Hi Hm Hst p. unfold dec, get_out_string. rewrite M_bind_assoc, (M_bind_run _ _ s s s) by done.
  unfold STDIO_MAX_ARGS. rewrite Z.rem_mod_nonneg by lia. set (i := (con_index s + 1) mod 128).
  assert (Hi' : 0 <= i < 128) by (apply Z.mod_pos_bound; lia). rewrite M_bind_assoc, (M_bind_run _ _ s (with_index i s) tt) by done.
  rewrite (M_bind_run _ _ (with_index i s) (with_index i s) (ksinit (g_out_buf + 128 * i) 128)) by done.
  unfold ksinit. change (g_out_buf + 128 * i) with p. assert (Hp : p = g_out_buf + 128 * i) by done. unfold OUT_SIZE, STDIO_MAX_ARGS, apart in *.
  rewrite (s32_signed v) by lia. set (m := con_mem s) in *. destruct (decimal_chars v Hv) as [Hc Hl].
  destruct (stack_text m (decimal v) Hst Hc ltac:(lia)) as (Hst1 & S1 & t & Ht & Htl).
  set (m1 := put_bytes _ m) in *. assert (E1 : to_str v stk 32 m = Ret (Z.of_nat (length (decimal v)), m1)).
  { apply to_str_run; [done|]. destruct Hst as (g & Ha & Hg & _). apply arr_mapped in Ha. rewrite length_app, Hg in Ha.
    eapply mapped_sub; [exact Ha|lia|cbn; lia]. }
  assert (Hh : holds m1 (Str p 0 128) []).
  { split; cbn [str str_capacity str_length]; [|done|apply arr_length_0|by apply Forall_nil|lia].
    apply (same_mapped _ _ _ _ _ S1). eapply mapped_sub; [exact Hm|lia|lia]. }
  destruct (strn_fixed m1 (Str p 0 128) [] stk (decimal v ++ t) (length (decimal v)) Hh Ht) as (m2 & E2 & H2 & Z2 & S2);
    cbn [str str_capacity str_length length] in *; try lia.
  set (k := Z.to_nat _) in *. assert (Hk : k = length (decimal v)) by (unfold k; rewrite length_app; lia). rewrite Hk in *.
  rewrite take_app_length in H2. exists m2.
  assert (Ek : ksappend_int (Str p 0 128) v stk m = Ret ((0, Str p (0%nat + length (decimal v)) 128), m2)).
  { unfold ksappend_int. rewrite (M_bind_run _ _ _ _ _ E1). exact E2. }
  rewrite (M_bind_run _ _ _ _ _ (on_mem_run _ (with_index i s) _ _ Ek)). split; [reflexivity|]. split; [|split].
  - destruct H2 as [_ _ Ha _ _]. cbn [str app] in Ha. split; [|done]. apply arr_app. split; [done|].
    apply arr_cons. split; [exact Z2|apply arr_length_0].
  - destruct Hst1 as (g & Ha & Hg & Hb). exists g. split; [|done]. eapply arr_frame; [|exact Ha]. intros a Hin.
    apply S2. unfold within. rewrite length_app, Hg in Hin. cbn in Hin. lia.
  - eapply same_weaken; [|exact (same_trans _ _ _ _ _ S1 S2)]. cbn [str str_capacity]. tauto.
Qed.

(** The texts [L] are in the output strings behind number [i]. *)
Definition slots_ok (m : cmem) (i : Z) (L : list (list Z)) : Prop :=
  forall (j : nat) t, L !! j = Some t -> cstr (bytes m) (slot (i + 1 + j)) t /\ (length t <= 11)%nat.

Definition outs (a : Z) : Prop := within g_out_buf OUT_SIZE a \/ within stk 33 a.

Record out_ok (s : console) (i : Z) (L : list (list Z)) : Prop := OutOk {
  oo_index : con_index s = (i + length L) mod 128;
  oo_mapped : mapped (bytes (con_mem s)) g_out_buf OUT_SIZE;
  oo_stack : stack_ok (con_mem s);
  oo_slots : slots_ok (con_mem s) i L
}.

Lemma dec_next s v i L : placed -> - 2 ^ 31 < v < 2 ^ 31 -> (length L < 127)%nat -> out_ok s i L ->
  exists s', dec v s = Ret (slot (i + 1 + length L), s') /\ out_ok s' i (L ++ [decimal v]) /\
    s' = with_mem (con_mem s') (with_index (con_index s') s) /\ same_but outs (con_mem s) (con_mem s').
Proof.
  intros Hpl Hv HL [Hi Hm Hst Hsl]. assert (Hr : 0 <= con_index s < 128) by (rewrite Hi; apply Z.mod_pos_bound; lia).
  destruct (dec_run s v Hpl Hv Hr Hm Hst) as (m' & E & Hc & Hst' & S).
  assert (Ep : slot (con_index s + 1) = slot (i + 1 + length L)).
  { unfold slot. rewrite Hi, Zplus_mod_idemp_l. do 3 f_equal. lia. }
  rewrite Ep in *. destruct Hpl as [_ _ _ (_ & _ & Hos)]. unfold apart, OUT_SIZE, STDIO_MAX_ARGS in Hos.
  exists (with_mem m' (with_index ((con_index s + 1) mod 128) s)). split; [exact E|]. split; [|split; [done|]].
  - split; cbn [con_index con_mem with_mem with_index].
    + rewrite Hi, Zplus_mod_idemp_l, length_app. cbn [length]. f_equal. lia.
    + exact (same_mapped _ _ _ _ _ S Hm).
    + exact Hst'.
    + intros j t Ej. destruct (decide (j < length L)%nat) as [Hj|Hj].
      * rewrite lookup_app_l in Ej by done. destruct (Hsl j t Ej) as [Hcj Hlj]. split; [|done].
        eapply same_cstr; [exact S| |exact Hcj]. intros a. unfold within, slot. Z.div_mod_to_equations. lia.
      * rewrite lookup_app_r in Ej by lia. apply list_lookup_singleton_Some in Ej as [Ej <-].
        replace (Z.of_nat j) with (Z.of_nat (length L)) by lia. split; [exact Hc|]. by apply decimal_chars.
  - eapply same_weaken; [|exact S]. intros a [Ha|Ha]; [left|by right]. unfold within, slot, OUT_SIZE, STDIO_MAX_ARGS in *.
    Z.div_mod_to_equations. lia.
Qed.

(** ** A message *)

(** What [print_debug] writes to. *)
Definition area (a : Z) : Prop :=
  within line_buf LINE_SIZE a \/ within s_buf LINE_SIZE a \/ outs a \/ within dmesg_buf DMESG_SIZE a.

(** A string away from all of it. *)
Definition literal (m : cmem) (p : Z) (t : list Z) : Prop :=
  cstr (bytes m) p t /\ 0 < p /\ forall a, p <= a <= p + length t -> ~ area a.

Lemma literal_kept P m m' p t : same_but P m m' -> (forall a, P a -> area a) -> literal m p t -> literal m' p t.
Proof.
  intros S Hi (Hc & Hp & Ho). split; [|done]. eapply same_cstr; [exact S| |exact Hc]. intros a Ha HP. exact (Ho a Ha (Hi a HP)).
Qed.

Lemma literal_source m st p t : (forall a, within (str st) (str_capacity st) a -> area a) -> 0 < str_capacity st ->
  literal m p t -> source m st p t.
Proof.
  intros Hi Hc0 (Hc & Hp & Ho). split; [done|]. split; [done|].
  destruct (decide (p + length t + 1 <= str st \/ str st + str_capacity st <= p)) as [?|Hn]; [done|]. exfalso.
  apply (Ho (Z.max p (str st))); [lia|]. apply Hi. unfold within. lia.
Qed.

Abbreviation mem_of s := (con_mem (k_con s)).
Definition put_mem (m : cmem) (s : klog) : klog := with_con (with_mem m (k_con s)) s.

Lemma on_log_mem {A} (x : M cmem A) s r m' : x (mem_of s) = Ret (r, m') -> on_con (on_mem x) s = Ret (r, put_mem m' s).
Proof. intros E. exact (zoom_run k_con with_con _ s _ _ (on_mem_run _ (k_con s) _ _ E)). Qed.

Definition static (st : string) (buf size : Z) : Prop := str st = buf /\ str_capacity st = size.

(** The log holds [l]. *)
Record log_ok (s : klog) (l : list Z) : Prop := LogOk {
  lo_line : static (k_line s) line_buf LINE_SIZE /\ mapped (bytes (mem_of s)) line_buf LINE_SIZE;
  lo_s : static (k_s s) s_buf LINE_SIZE /\ mapped (bytes (mem_of s)) s_buf LINE_SIZE;
  lo_dmesg : static (k_dmesg s) dmesg_buf DMESG_SIZE;
  lo_text : holds (mem_of s) (k_dmesg s) l /\ bytes (mem_of s) !! (dmesg_buf + length l) = Some 0 /\ length l < DMESG_SIZE;
  lo_out : out_ok (k_con s) (con_index (k_con s)) [];
  lo_lock : pr_lock (k_con s) = 0
}.

Lemma emptied_holds m st buf size : static st buf size -> mapped (bytes m) buf size -> size < 2 ^ 30 -> holds m (emptied st) [].
Proof.
  intros [<- <-] Hm Hs. split; cbn [emptied str str_length str_capacity]; [done|done|apply arr_length_0|by apply Forall_nil|done].
Qed.

Lemma put_module_run s p t : static (k_s s) s_buf LINE_SIZE -> mapped (bytes (mem_of s)) s_buf LINE_SIZE ->
  literal (mem_of s) p t -> length t < LINE_SIZE ->
  exists m' st, put_module p s = Ret (tt, with_s st (put_mem m' s)) /\ static st s_buf LINE_SIZE /\
    cstr (bytes m') s_buf (fitted 32 10 t) /\ same_but (within s_buf LINE_SIZE) (mem_of s) m'.
Proof.
  intros Hs Hm Hl Ht. pose proof Hs as [Eb Ec]. unfold put_module. rewrite (M_bind_run _ _ s s s) by done.
  assert (Hsrc : source (mem_of s) (emptied (k_s s)) p t).
  { apply literal_source; cbn [emptied str str_capacity]; rewrite ?Eb, ?Ec; [|done|done]. intros a Ha. right. by left. }
  destruct Hsrc as (Hc & Hp & Ha).
  destruct (str_fixed _ _ _ p t (emptied_holds _ _ _ _ Hs Hm ltac:(done)) Hc Hp Ha) as (m1 & st1 & E1 & B1 & C1 & H1 & _ & S1).
  { cbn [emptied str_capacity length]. lia. }
  rewrite (M_bind_run _ _ _ _ _ (on_log_mem _ s _ _ E1)). cbn [emptied str str_capacity] in *. rewrite Eb, Ec in *.
  destruct (fit_fixed m1 st1 ([] ++ t) 32 10 H1 ltac:(lia) ltac:(rewrite C1; done)) as (m2 & st2 & E2 & B2 & C2 & H2 & S2).
  rewrite B1, C1 in *. rewrite (M_bind_run _ _ _ _ _ (on_log_mem _ (put_mem m1 s) _ _ E2)).
  exists m2, st2. split; [reflexivity|]. split; [done|]. split; [done|]. exact (same_twice _ _ _ _ S1 S2).
Qed.

Definition int_range (v : Z) : Prop := - 2 ^ 31 < v < 2 ^ 31.

Definition clock_ok (now : time) (cpu : Z) : Prop :=
  int_range (hours now) /\ int_range (minutes now) /\ int_range (seconds now) /\ int_range (msecs now) /\ int_range cpu.

Definition numbers (now : time) (cpu : Z) : list (list Z) :=
  decimal <$> [hours now; minutes now; seconds now; msecs now; cpu].

Definition header_parts (now : time) (cpu : Z) (mt dt : list Z) : list (list Z) :=
  [s_open; decimal (hours now); s_dot; decimal (minutes now); s_dot; decimal (seconds now); s_dot; decimal (msecs now);
   s_sep; decimal cpu; s_shut; s_open; mt; s_sep; dt; s_last].

(** The literals of the format. *)
Definition literals (m : cmem) : Prop :=
  forall w, w ∈ [s_open; s_dot; s_sep; s_shut; s_last] -> literal m (lit w) w.

Lemma dec_log s v i L : placed -> int_range v -> out_ok (k_con s) i L -> (length L < 127)%nat ->
  exists c', on_con (dec v) s = Ret (slot (i + 1 + length L), with_con c' s) /\ out_ok c' i (L ++ [decimal v]) /\
    c' = with_mem (con_mem c') (with_index (con_index c') (k_con s)) /\ same_but outs (mem_of s) (con_mem c').
Proof.
  intros Hpl Hv Ho HL. destruct (dec_next (k_con s) v i L Hpl Hv HL Ho) as (c' & E & O & Ec & S).
  exists c'. split; [exact (zoom_run k_con with_con _ s _ _ E)|done].
Qed.

(** The output strings may be reused; memory elsewhere may change. *)
Lemma out_ok_reset P c i L m : placed -> out_ok c i L -> same_but P (con_mem c) m -> (forall a, within stk 33 a -> ~ P a) ->
  out_ok (with_mem m c) (con_index c) [].
Proof.
  intros Hpl [Hi Hm (g & Ha & Hg & Hb) _] S Hn. split; cbn [con_index con_mem with_mem length].
  - rewrite Z.add_0_r, Hi. symmetry. apply Z.mod_mod. lia.
  - exact (same_mapped _ _ _ _ _ S Hm).
  - exists g. split; [|done]. eapply arr_frame; [|exact Ha]. intros a Hin. apply S, Hn. unfold within.
    rewrite length_app, Hg in Hin. cbn in Hin. lia.
  - intros j t E. done.
Qed.

Lemma numbers_run {A} s now cpu i (f : Z -> Z -> Z -> Z -> Z -> M klog A) : placed -> clock_ok now cpu -> out_ok (k_con s) i [] ->
  exists c', out_ok c' i (numbers now cpu) /\ c' = with_mem (con_mem c') (with_index (con_index c') (k_con s)) /\
    same_but outs (mem_of s) (con_mem c') /\
    (d1 ← on_con (dec (hours now)); d2 ← on_con (dec (minutes now)); d3 ← on_con (dec (seconds now));
     d4 ← on_con (dec (msecs now)); d5 ← on_con (dec cpu); f d1 d2 d3 d4 d5) s
      = f (slot (i + 1)) (slot (i + 2)) (slot (i + 3)) (slot (i + 4)) (slot (i + 5)) (with_con c' s).
Proof.
  intros Hpl (R1 & R2 & R3 & R4 & R5) O0.
  destruct (dec_log s (hours now) i [] Hpl R1 O0 ltac:(cbn; lia)) as (c1 & E1 & O1 & F1 & S1).
  destruct (dec_log (with_con c1 s) (minutes now) i _ Hpl R2 O1 ltac:(cbn; lia)) as (c2 & E2 & O2 & F2 & S2).
  destruct (dec_log (with_con c2 s) (seconds now) i _ Hpl R3 O2 ltac:(cbn; lia)) as (c3 & E3 & O3 & F3 & S3).
  destruct (dec_log (with_con c3 s) (msecs now) i _ Hpl R4 O3 ltac:(cbn; lia)) as (c4 & E4 & O4 & F4 & S4).
  destruct (dec_log (with_con c4 s) cpu i _ Hpl R5 O4 ltac:(cbn; lia)) as (c5 & E5 & O5 & F5 & S5).
  exists c5. split; [exact O5|]. split.
  { rewrite F5. cbn [with_con k_con]. rewrite F4. cbn [with_con k_con]. rewrite F3. cbn [with_con k_con]. rewrite F2.
    cbn [with_con k_con]. by rewrite F1. }
  split; [exact (same_twice _ _ _ _ S1 (same_twice _ _ _ _ S2 (same_twice _ _ _ _ S3 (same_twice _ _ _ _ S4 S5))))|].
  rewrite (M_bind_run _ _ _ _ _ E1), (M_bind_run _ _ _ _ _ E2), (M_bind_run _ _ _ _ _ E3), (M_bind_run _ _ _ _ _ E4), (M_bind_run _ _ _ _ _ E5).
  cbn [length app with_con k_con]. assert (Hk : forall (k : nat) z, z = i + 1 + k -> slot (i + 1 + k) = slot z) by by intros k z ->.
  by rewrite (Hk 0%nat (i + 1)), (Hk 1%nat (i + 2)), (Hk 2%nat (i + 3)), (Hk 3%nat (i + 4)), (Hk 4%nat (i + 5)) by lia.
Qed.

Lemma slot_source m st i L (j : nat) t p : placed -> static st line_buf LINE_SIZE -> slots_ok m i L -> L !! j = Some t ->
  p = slot (i + 1 + j) -> source m st p t.
Proof.
  intros [(_ & _ & _ & Hg & _) (_ & _ & Hlo & _) _ _] [Eb Ec] Hs E ->. unfold source. rewrite Eb, Ec. destruct (Hs j t E) as [Hc Hl]. split; [done|].
  unfold apart, slot, OUT_SIZE, STDIO_MAX_ARGS, LINE_SIZE in *. pose proof (Z.mod_pos_bound (i + 1 + j) 128 ltac:(lia)). lia.
Qed.

(** Everything the header is made of is away from the line. *)
Lemma header_sources m st now cpu mt dt i ps debug : placed -> static st line_buf LINE_SIZE -> slots_ok m i (numbers now cpu) ->
  (forall w, w ∈ [s_open; s_dot; s_sep; s_shut; s_last] -> source m st (lit w) w) -> source m st ps mt -> source m st debug dt ->
  Forall2 (source m st)
    [lit s_open; slot (i + 1); lit s_dot; slot (i + 2); lit s_dot; slot (i + 3); lit s_dot; slot (i + 4); lit s_sep;
     slot (i + 5); lit s_shut; lit s_open; ps; lit s_sep; debug; lit s_last] (header_parts now cpu mt dt).
Proof.
  intros Hpl Hln Hsl Hlit5 Hsb Hds.
  assert (Hn : forall (j : nat) v z, numbers now cpu !! j = Some v -> z = i + 1 + j -> source m st (slot z) v).
  { intros j v z Ej ->. exact (slot_source _ _ i _ j v _ Hpl Hln Hsl Ej eq_refl). }
  assert (W1 : source m st (lit s_open) s_open) by (apply Hlit5; repeat constructor).
  assert (W2 : source m st (lit s_dot) s_dot) by (apply Hlit5; repeat constructor).
  assert (W3 : source m st (lit s_sep) s_sep) by (apply Hlit5; repeat constructor).
  assert (W4 : source m st (lit s_shut) s_shut) by (apply Hlit5; repeat constructor).
  assert (W5 : source m st (lit s_last) s_last) by (apply Hlit5; repeat constructor).
  unfold header_parts. repeat apply Forall2_cons_2; try assumption.
  - apply (Hn 0%nat); [reflexivity|lia].
  - apply (Hn 1%nat); [reflexivity|lia].
  - apply (Hn 2%nat); [reflexivity|lia].
  - apply (Hn 3%nat); [reflexivity|lia].
  - apply (Hn 4%nat); [reflexivity|lia].
  - apply Forall2_nil_2.
Qed.

Lemma put_header_run s now cpu debug mt dt i :
  placed -> clock_ok now cpu -> out_ok (k_con s) i [] -> static (k_line s) line_buf LINE_SIZE -> holds (mem_of s) (k_line s) [] ->
  str (k_s s) = s_buf -> cstr (bytes (mem_of s)) s_buf mt -> length mt < LINE_SIZE -> literals (mem_of s) -> literal (mem_of s) debug dt ->
  length (concat (header_parts now cpu mt dt)) < LINE_SIZE ->
  exists c' ln, put_header now cpu debug s = Ret (tt, with_line ln (with_con c' s)) /\ static ln line_buf LINE_SIZE /\
    holds (con_mem c') ln (concat (header_parts now cpu mt dt)) /\ out_ok c' (con_index c') [] /\
    c' = with_mem (con_mem c') (with_index (con_index c') (k_con s)) /\
    same_but (fun a => within line_buf LINE_SIZE a \/ outs a) (mem_of s) (con_mem c').
Proof.
  intros Hpl Hck Ho Hln Hh Hs Hmt Hml Hlit Hd Hlen. unfold put_header. pose proof Hln as [Eb Ec].
  destruct (numbers_run s now cpu i (fun d1 d2 d3 d4 d5 => s ← mget;
    '(_, ln) ← on_con (on_mem (ksappend_args (k_line s)
      [lit s_open; d1; lit s_dot; d2; lit s_dot; d3; lit s_dot; d4; lit s_sep; d5; lit s_shut; lit s_open; str (k_s s); lit s_sep; debug; lit s_last]));
    mmod (with_line ln)) Hpl Hck Ho) as (c5 & O5 & F5 & S5 & E5).
  rewrite E5. rewrite (M_bind_run _ _ (with_con c5 s) (with_con c5 s) (with_con c5 s)) by done. cbn [with_con k_line k_s k_con].
  pose proof Hpl as [(P1 & P2 & P3 & P4 & P5) (L1 & L2 & L3 & L4) (Q1 & Q2 & Q3) (U1 & U2 & U3)].
  unfold apart, LINE_SIZE, DMESG_SIZE, OUT_SIZE, STDIO_MAX_ARGS in L1, L2, L3, L4, Q1, Q2, Q3, U1, U2, U3.
  assert (Hh5 : holds (con_mem c5) (k_line s) []).
  { eapply holds_same; [exact S5| |exact Hh]. intros a Ha. unfold within in Ha. cbn [length] in Ha. lia. }
  assert (Hin : forall a, within (str (k_line s)) (str_capacity (k_line s)) a -> area a) by (rewrite Eb, Ec; intros a Ha; by left).
  assert (Hlit5 : forall w, w ∈ [s_open; s_dot; s_sep; s_shut; s_last] -> source (con_mem c5) (k_line s) (lit w) w).
  { intros w Hw. apply literal_source; [exact Hin|rewrite Ec; done|]. eapply literal_kept; [exact S5| |by apply Hlit].
    intros a Ha. right. right. by left. }
  assert (Hsb : source (con_mem c5) (k_line s) (str (k_s s)) mt).
  { rewrite Hs. split; [|rewrite Eb, Ec; unfold LINE_SIZE in *; lia]. eapply same_cstr; [exact S5| |exact Hmt].
    intros a Ha. unfold outs, within, OUT_SIZE, STDIO_MAX_ARGS, LINE_SIZE in *. lia. }
  assert (Hds : source (con_mem c5) (k_line s) debug dt).
  { apply literal_source; [exact Hin|rewrite Ec; done|]. eapply literal_kept; [exact S5| |exact Hd]. intros a Ha. right. right. by left. }
  destruct (args_fixed [lit s_open; slot (i + 1); lit s_dot; slot (i + 2); lit s_dot; slot (i + 3); lit s_dot; slot (i + 4); lit s_sep;
      slot (i + 5); lit s_shut; lit s_open; str (k_s s); lit s_sep; debug; lit s_last] (con_mem c5) (k_line s) [] (header_parts now cpu mt dt) Hh5)
    as (m' & ln & E & B & C & H1 & Z1 & S1); [done| |rewrite Ec; exact Hlen|].
  { apply header_sources; [done|done|apply O5|exact Hlit5|exact Hsb|exact Hds]. }
  cbn [app] in H1. rewrite (M_bind_run _ _ _ _ _ (on_log_mem _ (with_con c5 s) _ _ E)). rewrite Eb, Ec in *.
  exists (with_mem m' c5), ln. split; [reflexivity|]. split; [by split; congruence|]. split; [exact H1|]. split; [|split].
  - refine (out_ok_reset _ c5 i _ m' Hpl O5 S1 _). unfold within, LINE_SIZE. lia.
  - cbn [con_mem con_index with_mem]. rewrite F5 at 1. done.
  - eapply same_weaken; [|exact (same_trans _ _ _ _ _ S5 S1)]. cbn. tauto.
Qed.

Definition message (now : time) (cpu : Z) (mt dt : list Z) (ts : list (list Z)) : list Z :=
  concat (header_parts now cpu (fitted 32 10 mt) dt) ++ concat ts.

(** The console after [x] was sent, with other memory and output strings. *)
Definition spoke (x : list Z) (c c' : console) : Prop :=
  con_tx c' = rev x ++ con_tx c /\ con_rx c' = con_rx c /\ con_que c' = con_que c.

(** The rest of [print_debug] once the line is complete. *)
Definition finish (started : bool) (ln : string) : M klog Z :=
  _ ← (if started then mret 0 else on_con (puts delay (str ln)));
  s ← mget;
  '(_, d) ← on_con (on_mem (ksappend_str (k_dmesg s) (str ln)));
  _ ← mmod (with_dmesg d);
  _ ← on_con (mmod (fun s => with_lock (spin_unlock (pr_lock s)) s));
  mret 0.

(** The line is printed unless the system has started, then logged. *)
Lemma line_out s l t : placed -> static (k_line s) line_buf LINE_SIZE -> cstr (bytes (mem_of s)) line_buf t -> length t < LINE_SIZE ->
  static (k_dmesg s) dmesg_buf DMESG_SIZE -> holds (mem_of s) (k_dmesg s) l -> length l + length t < DMESG_SIZE ->
  exists c' d, finish (os_start s) (k_line s) s
      = Ret (0, with_dmesg d (with_con (with_lock (spin_unlock (pr_lock (k_con s))) c') s)) /\
    spoke (if os_start s then [] else t) (k_con s) c' /\ con_index c' = con_index (k_con s) /\
    static d dmesg_buf DMESG_SIZE /\ holds (con_mem c') d (l ++ t) /\ bytes (con_mem c') !! (dmesg_buf + length (l ++ t)) = Some 0 /\
    same_but (within dmesg_buf DMESG_SIZE) (mem_of s) (con_mem c').
Proof.
  intros Hpl [Eb Ec] Ht Hlt [Db Dc] Hh Hr. pose proof Hpl as [(P1 & _) (_ & L2 & _) _ _]. unfold apart, LINE_SIZE, DMESG_SIZE in *.
  assert (Hput : exists n, (if os_start s then mret 0 else on_con (puts delay (str (k_line s)))) s
    = Ret (if os_start s then 0 else Z.of_nat (length t), with_con (with_tx n (rev (if os_start s then [] else t) ++ con_tx (k_con s)) (k_con s)) s)).
  { destruct (os_start s) eqn:Eo.
    - exists (con_busy (k_con s)). by destruct s as [[] ? ? ? ?].
    - rewrite Eb. destruct (puts_run delay (k_con s) line_buf t Ht P1 ltac:(lia)) as (c1 & E1 & [n ->]). exists n.
      exact (zoom_run k_con with_con _ s _ _ E1). }
  destruct Hput as [n En]. unfold finish. rewrite (M_bind_run _ _ _ _ _ En). set (c1 := with_tx _ _ (k_con s)).
  rewrite (M_bind_run _ _ (with_con c1 s) (with_con c1 s) (with_con c1 s)) by done. cbn [with_con k_dmesg]. rewrite Eb.
  destruct (str_fixed (mem_of s) (k_dmesg s) l line_buf t Hh Ht P1) as (m' & d & E & B & C & H1 & Z1 & S1).
  { rewrite Db, Dc. lia. }
  { rewrite Dc. exact Hr. }
  rewrite (M_bind_run _ _ _ _ _ (on_log_mem _ (with_con c1 s) _ _ E)). rewrite Db, Dc in *.
  exists (with_mem m' c1), d. split; [reflexivity|]. split; [done|]. split; [done|]. split; [done|]. by split.
Qed.

Definition scratch (a : Z) : Prop := within s_buf LINE_SIZE a \/ within line_buf LINE_SIZE a \/ outs a.

(** The line emptied and the module formatted. *)
Definition locked (s : klog) : klog := let s := with_con (with_lock 1 (k_con s)) s in with_line (emptied (k_line s)) s.

Lemma module_ready s l module mt : placed -> log_ok s l -> literal (mem_of s) module mt -> length mt < LINE_SIZE ->
  exists m st, let s' := with_s st (put_mem m (locked s)) in put_module module (locked s) = Ret (tt, s') /\
    static st s_buf LINE_SIZE /\ cstr (bytes m) s_buf (fitted 32 10 mt) /\ same_but (within s_buf LINE_SIZE) (mem_of s) m /\
    (forall q u, literal (mem_of s) q u -> literal m q u) /\ holds m (k_line s') [] /\ out_ok (k_con s') (con_index (k_con s)) [].
Proof.
  intros Hpl [[Ll Lm] [Ss Sm] _ _ Ho Hlk] Hmod Hmt. pose proof Hpl as [_ _ (_ & _ & Q3) _]. unfold apart in Q3.
  destruct (put_module_run (locked s) module mt Ss Sm Hmod Hmt) as (m1 & st & E1 & Hst & Hfit & S1).
  change (mem_of (locked s)) with (mem_of s) in S1. exists m1, st. cbv zeta. split_and!; try done.
  - intros q u. apply (literal_kept _ _ _ _ _ S1). intros a Ha. right. by left.
  - apply (emptied_holds m1 _ _ _ Ll); [exact (same_mapped _ _ _ _ _ S1 Lm)|done].
  - refine (out_ok_reset _ (with_lock 1 (k_con s)) _ _ m1 Hpl _ S1 _); [by destruct Ho|]. unfold within, LINE_SIZE in *. lia.
Qed.

(** [print_debug] up to there. *)
Lemma line_built s l now cpu module mt debug dt args ts :
  placed -> log_ok s l -> clock_ok now cpu -> literals (mem_of s) -> literal (mem_of s) line_end [] ->
  literal (mem_of s) module mt -> length mt < LINE_SIZE -> literal (mem_of s) debug dt ->
  Forall2 (literal (mem_of s)) args ts -> Forall (fun p => p <> line_end) args ->
  let t := message now cpu mt dt ts in length t < LINE_SIZE ->
  exists m i st ln, let s' := with_line ln (with_s st (with_con (with_mem m (with_index i (with_lock 1 (k_con s)))) s)) in
    printk_debug now cpu module debug args s = finish (os_start s) ln s' /\
    static st s_buf LINE_SIZE /\ static ln line_buf LINE_SIZE /\ cstr (bytes m) line_buf t /\
    out_ok (k_con s') i [] /\ same_but scratch (mem_of s) m.
Proof.
  intros Hpl Hok Hck Hlit Hend Hmod Hmt Hdbg Hargs Hne t Hlt.
  assert (Hpos : 0 < line_end) by apply Hend. pose proof Hpl as [_ (_ & _ & _ & L4) _ _]. unfold apart in L4.
  destruct (module_ready s l module mt Hpl Hok Hmod Hmt) as (m1 & st & E1 & Hst & Hfit & S1 & Hl3 & Hh3 & Ho3).
  destruct Hok as [[Ll _] _ _ _ _ Hlk]. unfold printk_debug, print_debug. rewrite (M_bind_run _ _ s s s) by done. rewrite Hlk.
  rewrite (M_bind_run _ _ s s 1) by done. rewrite (M_bind_run _ _ s (with_con (with_lock 1 (k_con s)) s) tt) by done.
  rewrite (M_bind_run _ _ _ (locked s) tt) by done. rewrite (M_bind_run _ _ _ _ _ E1). set (s3 := with_s _ _) in *.
  assert (Hfl : length (fitted 32 10 mt) = 10%nat) by (unfold fitted; rewrite length_take, length_app, length_replicate; lia).
  assert (Ht : length t = (length (concat (header_parts now cpu (fitted 32 10 mt) dt)) + length (concat ts))%nat) by apply length_app.
  destruct (put_header_run s3 now cpu debug (fitted 32 10 mt) dt (con_index (k_con s)) Hpl Hck Ho3 Ll Hh3 (proj1 Hst) Hfit
    ltac:(rewrite Hfl; done) ltac:(intros w Hw; by apply Hl3, Hlit) (Hl3 _ _ Hdbg) ltac:(lia)) as (c4 & ln & E4 & [B4 C4] & Hh4 & Ho4 & F4 & S4).
  rewrite (M_bind_run _ _ _ _ _ E4). set (s4 := with_line ln _). rewrite (M_bind_run _ _ s4 s4 s4) by done.
  change (mem_of s3) with m1 in S4. pose proof (same_trans _ _ _ _ _ S1 S4) as S14.
  assert (Hl4 : forall q u, literal (mem_of s) q u -> source (con_mem c4) ln q u).
  { intros q u Hq. apply literal_source; rewrite ?B4, ?C4; [by left|done|].
    eapply literal_kept; [exact S14| |exact Hq]. unfold area. tauto. }
  destruct (message_fixed args (con_mem c4) ln _ ts 0 Hh4) as (m5 & ln' & E5 & B5 & C5 & H5 & Z5 & S5).
  { apply Forall2_app; [|apply Forall2_cons; split; [by apply Hl4|by apply Forall2_nil]]. eapply Forall2_impl; [exact Hargs|exact Hl4]. }
  { apply Forall_cons. split; [lia|done]. }
  { rewrite C4. lia. }
  rewrite (M_bind_run _ _ _ _ _ (on_log_mem _ s4 _ _ E5)). rewrite (M_bind_run _ _ _ (with_line ln' (put_mem m5 s4)) tt) by done.
  rewrite B4, C4 in *. exists m5, (con_index c4), st, ln'. cbv zeta.
  assert (Fc : with_mem m5 c4 = with_mem m5 (with_index (con_index c4) (with_lock 1 (k_con s)))) by (rewrite F4 at 1; done).
  split; [|split; [done|split; [done|split; [|split]]]].
  - unfold finish. change (os_start s4) with (os_start s). unfold put_mem, s4. cbn [with_line with_con with_s k_con]. by rewrite Fc.
  - destruct H5 as [_ _ Ha Hc _]. rewrite B5 in Ha. split; [|exact Hc]. apply arr_app. split; [exact Ha|].
    apply arr_cons. split; [exact Z5|apply arr_length_0].
  - cbn [with_line with_s with_con k_con]. rewrite <- Fc. refine (out_ok_reset _ c4 _ _ m5 Hpl Ho4 S5 _).
    unfold within, LINE_SIZE in *. lia.
  - eapply same_weaken; [|exact (same_trans _ _ _ _ _ S14 S5)]. unfold scratch. cbn. tauto.
Qed.

Lemma print_debug_run s l now cpu module mt debug dt args ts :
  placed -> log_ok s l -> clock_ok now cpu -> literals (mem_of s) -> literal (mem_of s) line_end [] ->
  literal (mem_of s) module mt -> length mt < LINE_SIZE -> literal (mem_of s) debug dt ->
  Forall2 (literal (mem_of s)) args ts -> Forall (fun p => p <> line_end) args ->
  let t := message now cpu mt dt ts in length t < LINE_SIZE -> length l + length t < DMESG_SIZE ->
  exists s', printk_debug now cpu module debug args s = Ret (0, s') /\ log_ok s' (l ++ t) /\
    spoke (if os_start s then [] else t) (k_con s) (k_con s') /\ os_start s' = os_start s /\ same_but area (mem_of s) (mem_of s').
Proof.
  intros Hpl Hok Hck Hlit Hend Hmod Hmt Hdbg Hargs Hne t Hlt Hroom.
  destruct (line_built s l now cpu module mt debug dt args ts Hpl Hok Hck Hlit Hend Hmod Hmt Hdbg Hargs Hne Hlt)
    as (m & i & st & ln & E & Hst & Hln & Hc & Ho & S). set (s1 := with_line ln _) in *. rewrite E.
  destruct Hok as [[_ Lm] [_ Sm] Dd [Dh [Dz Dl]] _ _].
  pose proof Hpl as [_ (_ & L2 & _) (Q1 & _) (U1 & U2 & _)]. unfold apart in L2, Q1, U1, U2.
  assert (Hh : holds m (k_dmesg s) l).
  { eapply holds_same; [exact S| |exact Dh]. rewrite (proj1 Dd). unfold scratch, outs, within. lia. }
  destruct (line_out s1 l t Hpl Hln Hc Hlt Dd Hh Hroom) as (c' & d & E2 & Hsp & Hi & Hd & Hh' & Hz & S').
  change (finish (os_start s) ln s1) with (finish (os_start s1) (k_line s1) s1). eexists. split; [exact E2|].
  cbn [with_dmesg with_con k_con k_line k_s k_dmesg os_start s1 with_line with_s] in *. change (mem_of s1) with m in S'.
  split; [|split; [exact Hsp|split; [done|]]].
  - split; cbn [with_dmesg with_con k_con k_line k_s k_dmesg os_start s1 with_line with_s].
    + split; [exact Hln|]. exact (same_mapped _ _ _ _ _ S' (same_mapped _ _ _ _ _ S Lm)).
    + split; [exact Hst|]. exact (same_mapped _ _ _ _ _ S' (same_mapped _ _ _ _ _ S Sm)).
    + exact Hd.
    + split; [exact Hh'|]. split; [exact Hz|]. rewrite length_app. lia.
    + refine (out_ok_reset (within dmesg_buf DMESG_SIZE) (with_lock _ (with_mem m c')) i [] (con_mem c') Hpl _ S' _).
      * destruct Ho as [O1 O2 O3 _]. split; [etransitivity; [exact Hi|exact O1]|exact O2|exact O3|by intros j u].
      * unfold within. lia.
    + done.
  - eapply same_weaken; [|exact (same_trans _ _ _ _ _ S S')]. unfold scratch, area. cbn. tauto.
Qed.

(** ** The log *)

(** A call of [pr_info], [pr_err] or [pr_debug] with the texts of its
    arguments. *)
Record entry := Entry {
  e_now : time; e_cpu : Z; e_module : Z; e_debug : Z; e_args : list Z;
  e_mtext : list Z; e_dtext : list Z; e_texts : list (list Z)
}.

Definition entry_text (e : entry) : list Z := message (e_now e) (e_cpu e) (e_mtext e) (e_dtext e) (e_texts e).

Record entry_ok (m : cmem) (e : entry) : Prop := EntryOk {
  en_clock : clock_ok (e_now e) (e_cpu e);
  en_module : literal m (e_module e) (e_mtext e) /\ length (e_mtext e) < LINE_SIZE;
  en_debug : literal m (e_debug e) (e_dtext e);
  en_args : Forall2 (literal m) (e_args e) (e_texts e) /\ Forall (fun p => p <> line_end) (e_args e);
  en_len : length (entry_text e) < LINE_SIZE
}.

Fixpoint log_all (es : list entry) : M klog unit :=
  match es with
  | [] => mret tt
  | e :: es => _ ← printk_debug (e_now e) (e_cpu e) (e_module e) (e_debug e) (e_args e); log_all es
  end.

Lemma entry_kept m m' e : same_but area m m' -> entry_ok m e -> entry_ok m' e.
Proof.
  intros S [C [M1 M2] D [A1 A2] L]. assert (Hk : forall q u, literal m q u -> literal m' q u) by (intros q u; by apply (literal_kept _ _ _ _ _ S)).
  split; [done|split; [by apply Hk|done]|by apply Hk|split; [|done]|done]. eapply Forall2_impl; [exact A1|exact Hk].
Qed.

Lemma spoke_trans x y c c1 c2 : spoke x c c1 -> spoke y c1 c2 -> spoke (x ++ y) c c2.
Proof. intros (T1 & R1 & Q1) (T2 & R2 & Q2). split; [|split; congruence]. by rewrite T2, T1, rev_app_distr, app_assoc. Qed.

Lemma log_all_run es : placed -> forall s l, log_ok s l -> literals (mem_of s) -> literal (mem_of s) line_end [] ->
  Forall (entry_ok (mem_of s)) es -> length l + length (concat (entry_text <$> es)) < DMESG_SIZE ->
  exists s', log_all es s = Ret (tt, s') /\ log_ok s' (l ++ concat (entry_text <$> es)) /\ literal (mem_of s') line_end [] /\
    spoke (if os_start s then [] else concat (entry_text <$> es)) (k_con s) (k_con s') /\ os_start s' = os_start s.
Proof.
  intros Hpl. induction es as [|e es IH]; intros s l Hok Hlit Hend He Hr; cbn [log_all fmap list_fmap concat] in *.
  - rewrite app_nil_r. exists s. split; [done|]. split; [done|]. split; [done|]. split; [|done]. by destruct (os_start s).
  - apply Forall_cons in He as [Ee He]. rewrite length_app in Hr. pose proof Ee as [C [M1 M2] D [A1 A2] L].
    destruct (print_debug_run s l _ _ _ _ _ _ _ _ Hpl Hok C Hlit Hend M1 M2 D A1 A2 L ltac:(unfold entry_text in *; lia))
      as (s1 & E1 & K1 & P1 & O1 & S1). rewrite (M_bind_run _ _ _ _ _ E1).
    assert (Hk : forall q u, literal (mem_of s) q u -> literal (mem_of s1) q u) by (intros q u; by apply (literal_kept _ _ _ _ _ S1)).
    destruct (IH s1 (l ++ entry_text e) K1) as (s2 & E2 & K2 & N2 & P2 & O2).
    + intros w Hw. by apply Hk, Hlit.
    + by apply Hk.
    + eapply Forall_impl; [exact He|]. intros x. by apply entry_kept.
    + rewrite length_app. lia.
    + exists s2. rewrite <- app_assoc in K2. split; [exact E2|]. split; [exact K2|]. split; [exact N2|]. split; [|congruence].
      rewrite O1 in P2. pose proof (spoke_trans _ _ _ _ _ P1 P2) as P. by destruct (os_start s).
Qed.

(** The static arrays, zero at first, and the end marker. *)
Definition fresh (s : klog) : Prop :=
  mapped (bytes (mem_of s)) line_buf LINE_SIZE /\ mapped (bytes (mem_of s)) s_buf LINE_SIZE /\
  mapped (bytes (mem_of s)) dmesg_buf DMESG_SIZE /\ bytes (mem_of s) !! dmesg_buf = Some 0 /\
  mapped (bytes (mem_of s)) g_out_buf OUT_SIZE /\ stack_ok (mem_of s) /\ 0 <= con_index (k_con s) < 128 /\ pr_lock (k_con s) = 0.

Lemma log_init_run s : fresh s -> exists s', log_init s = Ret (tt, s') /\ log_ok s' [] /\ k_con s' = k_con s /\ os_start s' = os_start s.
Proof.
  intros (M1 & M2 & M3 & Hz & M4 & Hst & Hi & Hl). eexists. split; [reflexivity|]. split; [|done].
  split; cbn [k_con k_line k_s k_dmesg]; [by split|by split|done| |split|exact Hl].
  - split; [|split; [by rewrite Z.add_0_r|done]].
    split; cbn [str str_length str_capacity ksinit]; [exact M3|done|apply arr_length_0|by apply Forall_nil|done].
  - cbn [length]. rewrite Z.add_0_r. symmetry. by apply Z.mod_small.
  - exact M4.
  - exact Hst.
  - by intros j t.
Qed.

(** C24. The kernel log: after the strings are set up, any sequence of
    [pr_info], [pr_err] and [pr_debug] calls whose lines are shorter than 128
    characters and together fit into 128 KiB runs to its end, with every
    line printed on the serial port in order as long as the system has not
    started, and then [dmesg] prints the whole log: every line, complete and
    in order, each with the time, the processor, the module padded or cut to
    ten characters, the level and the message.  Input and the keyboard queue
    are not touched and the lock is free. *)
Theorem klog_ok (s : klog) (es : list entry) :
  placed -> fresh s -> literals (mem_of s) -> literal (mem_of s) line_end [] -> Forall (entry_ok (mem_of s)) es ->
  let log := concat (entry_text <$> es) in length log < DMESG_SIZE ->
  exists s', (_ ← log_init; _ ← log_all es; dmesg) s = Ret (Z.of_nat (length log), s') /\
    con_tx (k_con s') = rev ((if os_start s then [] else log) ++ log) ++ con_tx (k_con s) /\
    con_rx (k_con s') = con_rx (k_con s) /\ con_que (k_con s') = con_que (k_con s) /\ pr_lock (k_con s') = 0.
Proof.
  intros Hpl Hf Hlit Hend He log Hlen. destruct (log_init_run s Hf) as (s1 & E1 & K1 & C1 & O1). rewrite (M_bind_run _ _ _ _ _ E1).
  rewrite <- C1 in Hlit, Hend, He. destruct (log_all_run es Hpl s1 [] K1 Hlit Hend He Hlen) as (s2 & E2 & K2 & N2 & P2 & O2).
  rewrite (M_bind_run _ _ _ _ _ E2). fold log in P2, K2. cbn [app] in K2.
  unfold dmesg. rewrite (M_bind_run _ _ s2 s2 s2) by done. pose proof K2 as [_ _ [Db _] [Dh [Dz Dl]] _ Hlk].
  assert (Hd : dmesg_buf <> line_end).
  { intros E. destruct N2 as (_ & _ & No). apply (No line_end); [cbn; lia|]. rewrite <- E. do 3 right. unfold within, DMESG_SIZE. lia. }
  destruct Hpl as [(_ & _ & P3 & _) _ _ _].
  destruct (printk_run delay line_end (k_con s2) [dmesg_buf] [log]) as (c3 & E3 & [n ->]).
  - apply Forall2_cons. split; [|by apply Forall2_nil]. split; [|by split]. destruct Dh as [_ _ Ha Hc _]. rewrite Db in Ha.
    split; [|exact Hc]. apply arr_app. split; [exact Ha|]. apply arr_cons. split; [exact Dz|apply arr_length_0].
  - apply N2.
  - apply N2.
  - exact Hlk.
  - done.
  - cbn [concat]. rewrite app_nil_r. unfold DMESG_SIZE in *. lia.
  - cbn [concat] in E3. rewrite app_nil_r in E3. rewrite Db. unfold on_con. rewrite (zoom_run k_con with_con _ s2 _ _ E3). eexists. split; [reflexivity|].
    cbn [with_con k_con with_tx con_tx con_rx con_que pr_lock concat]. rewrite ?app_nil_r. destruct P2 as (T2 & R2 & Q2).
    rewrite T2, R2, Q2, O1, C1, rev_app_distr, app_assoc. done.
Qed.
End Code.

(** A static string cannot grow: appending more than fits allocates a new
    buffer, copies the text and passes the static array to [kfree], which is
    not a block of the heap. *)
Theorem static_string_cannot_grow `{KHeap} (m : cmem) (st : string) (l t : list Z) (p : Z) :
  holds m st l -> cstr (bytes m) (str st) l -> 0 < str st -> cstr (bytes m) p t -> 0 < p -> length t < 2 ^ 28 -> length l < 2 ^ 28 ->
  length l < str_capacity st < length l + length t -> heap_ok m -> blocks m !! str st = None ->
  (forall m n, kalloc m n <> None) -> ksappend_str st p m = Fault.
Proof.
  intros [R L A C K] Hl Hs Hp Hp0 Ht Hl2 Hc Hh Hb Hal. unfold ksappend_str. pose proof (strlen_run t m p Hp ltac:(lia)) as Es.
  rewrite (M_bind_run _ _ _ _ _ Es). unfold ksappend_strn. replace (p =? 0) with false by lia. rewrite (M_bind_run _ _ _ _ _ Es).
  replace (length t <? length t) with false by lia. rewrite (M_bind_run _ _ m m (Z.of_nat (length t))) by done.
  rewrite L, (wrap_small 32 (length l + length t)) by (unfold fits; lia). unfold string_try_expand.
  replace (length l + length t <=? str_capacity st) with false by lia. rewrite (wrap_small 32 (length l + length t + 1)) by (unfold fits; lia).
  destruct (roundup_pow_of_two_spec (length l + length t + 1) ltac:(lia)) as [Hru _]. set (new := roundup_pow_of_two _) in *.
  replace (str_capacity st <? new) with true by lia. unfold mbind at 1, M_bind at 1. rewrite (M_bind_run _ _ m m tt) by done.
  destruct (kmalloc_run m new ltac:(lia) Hh) as [[En _]|(a & m1 & E & Ha0 & _ & _ & Hb1 & Hm1 & Hnew & _ & Hkeep)]; [by apply Hal in En|].
  rewrite (M_bind_run _ _ _ _ _ E). replace (a =? 0) with false by lia. replace (str st =? 0) with false by lia. rewrite L.
  assert (Hsep : a + new <= str st \/ str st + str_capacity st <= a).
  { destruct (decide (a + new <= str st \/ str st + str_capacity st <= a)) as [?|Hn]; [done|]. exfalso.
    destruct (R (Z.max a (str st) - str st) ltac:(lia)) as [x Hx]. rewrite Hnew in Hx by lia. done. }
  assert (Hl1 : cstr (bytes m1) (str st) l) by (destruct Hl as [Hl Hcl]; split; [|done]; intros i x Hi; by apply Hkeep, Hl).
  rewrite !M_bind_assoc. rewrite (M_bind_run _ _ _ _ _ (strncpy_run l m1 a (str st) (length l) Hl1 ltac:(eapply mapped_sub; [exact Hm1|lia|lia]) ltac:(lia))).
  set (m2 := put_bytes _ m1). assert (Hw : is_Some (bytes m2 !! (str st + length l))).
  { apply (mapped_blit _ _ _ (str st) (str_capacity st)); [|lia]. intros i Hi. destruct (R i Hi) as [x Hx]. exists x. by apply Hkeep. }
  rewrite M_bind_assoc, (M_bind_run _ _ _ _ _ (wrb_run m2 _ 0 Hw ltac:(lia))).
  assert (Ef : kfree_bytes (str st) (put_bytes (<[str st + length l := 0]> (bytes m2)) m2) = Fault).
  { unfold kfree_bytes. cbn [blocks put_bytes m2]. rewrite Hb1, lookup_insert_ne, Hb by lia. done. }
  unfold mbind, M_bind. by rewrite Ef.
Qed.

(** *** Example *)

#[local] Existing Instance bump_heap.

Definition lit0 (w : list Z) : Z := if decide (w = s_open) then 500 else if decide (w = s_dot) then 504 else if decide (w = s_sep) then 508
  else if decide (w = s_shut) then 512 else 516.
Definition strings0 : gmap Z Z :=
  blit 500 [91; 0] (blit 504 [46; 0] (blit 508 [93; 91; 0] (blit 512 [93; 0] (blit 516 [93; 32; 0]
    (blit 520 [105; 110; 105; 116; 0] (blit 530 [105; 110; 102; 111; 32; 0] (blit 540 [104; 105; 10; 0] (blit 550 [0] ∅)))))))).
Definition klog0 : klog :=
  Klog (Console (CMem (blit 1000 (replicate (Z.to_nat 160000) 0) strings0) ∅) [] 0 [] (Queue 0 1 0 0 8) 127 0)
    (Str 0 0 0) (Str 0 0 0) (Str 0 0 0) false.

Lemma strings0_arr p l : p + length l <= 1000 ->
  bool_decide (map (fun i => strings0 !! (p + Z.of_nat i)) (seq 0 (length l)) = map Some l) = true -> arr (bytes (con_mem (k_con klog0))) p l.
Proof.
  intros Hp E%bool_decide_eq_true. apply arr_blit_other; [by right|]. intros i x Hi. assert (Hl := lookup_lt_Some _ _ _ Hi).
  assert (E' : map (fun i => strings0 !! (p + Z.of_nat i)) (seq 0 (length l)) !! i = map Some l !! i) by by rewrite E.
  rewrite !list_lookup_fmap, lookup_seq_lt, Hi in E' by done. by injection E'.
Qed.

Lemma klog0_zero p n : 1000 <= p -> p + n <= 161000 -> arr (bytes (con_mem (k_con klog0))) p (replicate (Z.to_nat n) 0).
Proof.
  intros Hp Hn i x [-> Hi]%lookup_replicate. cbn [klog0 k_con con_mem bytes].
  replace (p + Z.of_nat i) with (1000 + Z.of_nat (Z.to_nat (p - 1000) + i)) by lia. apply blit_in, lookup_replicate. lia.
Qed.

Lemma klog0_mapped p n : 1000 <= p -> 0 <= n -> p + n <= 161000 -> mapped (bytes (con_mem (k_con klog0))) p n.
Proof. intros Hp H0 Hn. pose proof (arr_mapped _ _ _ (klog0_zero p n Hp Hn)) as Hm. rewrite length_replicate, Z2Nat.id in Hm by lia. exact Hm. Qed.

Lemma klog0_nul : bytes (con_mem (k_con klog0)) !! 20000 = Some 0.
Proof.
  pose proof (klog0_zero 20000 1 ltac:(lia) ltac:(lia)) as Ha. revert Ha. generalize (bytes (con_mem (k_con klog0))).
  intros b Ha. exact (proj1 (proj1 (arr_cons b 20000 0 []) Ha)).
Qed.

Lemma literal0 p l : 0 < p -> p + length l + 1 <= 1000 -> char_list l ->
  bool_decide (map (fun i => strings0 !! (p + Z.of_nat i)) (seq 0 (length (l ++ [0]))) = map Some (l ++ [0])) = true ->
  literal 1300 1256 1000 1128 20000 (con_mem (k_con klog0)) p l.
Proof.
  intros Hp Hl Hc E. split; [split; [|done]; apply strings0_arr; [rewrite length_app; cbn; lia|done]|]. split; [done|].
  intros a Ha. unfold area, outs, within, LINE_SIZE, OUT_SIZE, STDIO_MAX_ARGS, DMESG_SIZE. lia.
Qed.

Ltac char_list_tac := repeat (apply Forall_cons; split; [lia|]); by apply Forall_nil.

Definition hi (now : time) : entry :=
  Entry now 0 520 530 [540] [105; 110; 105; 116] [105; 110; 102; 111; 32] [[104; 105; 10]].

Lemma hi_ok now : clock_ok now 0 -> length (entry_text (hi now)) < LINE_SIZE ->
  entry_ok 1300 550 1256 1000 1128 20000 (con_mem (k_con klog0)) (hi now).
Proof.
  intros Hc Hl. split; cbn [hi e_now e_cpu e_module e_debug e_args e_mtext e_dtext e_texts]; [exact Hc| | | |exact Hl].
  - split; [|done]. apply literal0; [lia|cbn; lia|char_list_tac|done].
  - apply literal0; [lia|cbn; lia|char_list_tac|done].
  - split; [|by repeat constructor]. constructor; [|constructor]. apply literal0; [lia|cbn; lia|char_list_tac|done].
Qed.

Definition two_lines : list entry := [hi (Time 0 0 0 0 0); hi (Time 1 2 3 40 0)].

Lemma klog_ok_witness :
  exists s', (_ ← log_init 1000 1128 20000; _ ← log_all 3 1300 550 1256 lit0 two_lines; dmesg 3 550) klog0 = Ret (71, s') /\
    take 4 (con_tx (k_con s')) = [10; 105; 104; 32] /\ length (con_tx (k_con s')) = 142%nat.
Proof.
  destruct (klog_ok 3 1300 550 1256 1000 1128 20000 lit0 klog0 two_lines) as (s' & E & T & _).
  - split; unfold apart, LINE_SIZE, DMESG_SIZE, OUT_SIZE, STDIO_MAX_ARGS; lia.
  - split_and!; try (apply klog0_mapped; vm_compute; discriminate).
    + exact klog0_nul.
    + exists (replicate 32 0). split; [exact (klog0_zero 1256 33 ltac:(done) ltac:(done))|]. split; [done|]. by apply Forall_replicate.
    + discriminate.
    + reflexivity.
    + reflexivity.
  - intros w Hw. repeat (apply elem_of_cons in Hw as [->|Hw]; [apply literal0; [done|done|char_list_tac|done]|]). by apply elem_of_nil in Hw.
  - apply literal0; [done|done|char_list_tac|done].
  - repeat (apply Forall_cons; split; [apply hi_ok; [unfold clock_ok, int_range; cbn; lia|done]|]). by apply Forall_nil.
  - reflexivity.
  - exists s'. rewrite T. split; [exact E|]. by split.
Defined.
