(* ===== verification/Sysfs.v ===== *)
(** * The files of /sys (mm/page.c, mm/kmalloc.c, mm/vmalloc.c, kernel/smp.c, kernel/init.c)

    At the end of start-up, [kernel_init_late] creates files whose read
    functions report the state of the allocators, and the command "lscpu".
    A read function appends to a string; here it returns the text it
    appends.  The lists are walked while nothing else runs. *)

From stdpp Require Import base numbers list gmap.
From Stdlib Require Import ZArith Lia Ascii.
From Stdlib Require String.
From S2P Require Import Prelude Bitops ListNode Buddy KmallocEarly Page Slab Kmalloc CMem CString Fs Schedule Apic Smp.

Import String.StringSyntax.

Open Scope string_scope.
Open Scope Z_scope.

#[local] Coercion Z.of_nat : nat >-> Z.

(** The character codes of a literal. *)
Fixpoint codes (s : String.string) : list Z :=
  match s with
  | String.EmptyString => []
  | String.String a s => Z.of_N (N_of_ascii a) :: codes s
  end.

(** [ksappend_kv] on the text. *)
Definition kv (key : String.string) (val : Z) : list Z := codes key ++ decimal (s32 val).

Section Size.
Context {L : Type} `{Countable L}.

(** [list_size] with as many steps as there are nodes. *)
Definition size_of (h : L) (n : gmap L (list_node L)) : outcome Z := list_size (S (base.size n)) h n.

Lemma dll_size (n : gmap L (list_node L)) h xs : dll n h xs -> (length xs < S (base.size n))%nat.
Proof.
  intros [Hn Hc]. assert (Hin : forall x, x ∈ h :: xs -> is_Some (n !! x)).
  { clear Hn. change (h :: xs ++ [h]) with ((h :: xs) ++ [h]) in Hc. revert Hc. generalize (h :: xs) as l. intros l.
    generalize h at 1. induction l as [|y l IH]; intros z Hc x Hx; [by apply elem_of_nil in Hx|].
    assert (Hy : is_Some (n !! y)).
    { destruct l as [|w l]; cbn in Hc; destruct Hc as [[E _] _]; unfold nd in E; destruct (n !! y); [done|done|done|done]. }
    apply elem_of_cons in Hx as [->|Hx]; [done|]. apply (IH z); [|done]. destruct l as [|w l]; [by apply elem_of_nil in Hx|]. apply Hc. }
  rewrite <- size_dom. apply NoDup_cons in Hn as [_ Hn]. rewrite <- (size_list_to_set (C := gset L) xs Hn).
  apply Nat.lt_succ_r, subseteq_size. intros x Hx%elem_of_list_to_set. apply elem_of_dom, Hin. by right.
Qed.

Lemma size_of_dll n h xs : dll n h xs -> size_of h n = Ret (Z.of_nat (length xs)).
Proof. intros Hd. apply list_size_dll; [done|]. by eapply dll_size. Qed.
End Size.

(** ** The page allocator *)

(** [n] lines from order [i] on. *)
Fixpoint dump_lines (n : nat) (i : Z) : M pmem (list Z) :=
  match n with
  | O => mret []
  | S n =>
      s ← mget;
      hi ← mlift (size_of (HighmemFreeList i) (pnodes s));
      lo ← mlift (size_of (Page.FreeList i) (pnodes s));
      rest ← dump_lines n (i + 1);
      mret (kv "order:" i ++ kv " highmem-" i ++ kv " " hi ++
        [9; 9] ++ kv "linear-" i ++ kv " " lo ++ [10] ++ rest)
  end.
Definition dump_free_list : M pmem (list Z) := dump_lines (Z.to_nat (PAGE_MAX_ORDER + 1)) 0.

(** The number of free blocks of an order in a zone. *)
Definition free_blocks_of (a : blockmap) (z : bool) (o : Z) : Z :=
  base.size (dom (filter (fun e => e.2 = (o, true) /\ in_highmem e.1 = z) a)).

Definition page_line (a : blockmap) (o : Z) : list Z :=
  kv "order:" o ++ kv " highmem-" o ++ kv " " (free_blocks_of a true o) ++
  [9; 9] ++ kv "linear-" o ++ kv " " (free_blocks_of a false o) ++ [10].

Lemma zone_count s a z o : pinv s a -> 0 <= o <= PAGE_MAX_ORDER ->
  size_of (fl_head z o) (pnodes s) = Ret (free_blocks_of a z o).
Proof.
  intros [[_ _ _ _ [fl Hfl]] _] Ho. destruct (Hfl z o Ho) as [Hd Hm]. rewrite (size_of_dll _ _ _ Hd). unfold free_blocks_of.
  rewrite length_fmap. do 2 f_equal. destruct Hd as [Hn _]. apply NoDup_cons in Hn as [_ Hn]. apply NoDup_fmap_1 in Hn.
  rewrite <- (size_list_to_set (C := gset Z) _ Hn). apply set_size_proper. intros h. rewrite elem_of_list_to_set, Hm, elem_of_dom.
  split.
  - intros [E Hz]. exists (o, true). by apply map_lookup_filter_Some.
  - intros [[o' f] E]. apply map_lookup_filter_Some in E as [E [[= -> ->] Hz]]. by split.
Qed.

(** "free_pages" tells the truth: one line for each order from 0 to 10, with
    the number of free blocks of that order in high memory and in the linear
    area; reading it changes nothing. *)
Theorem dump_free_list_ok (s : pmem) (a : blockmap) : pinv s a ->
  dump_free_list s = Ret (concat (page_line a <$> seqZ 0 (PAGE_MAX_ORDER + 1)), s).
Proof.
  intros K. unfold dump_free_list. assert (G : forall (n : nat) i, 0 <= i -> i + n <= PAGE_MAX_ORDER + 1 ->
    dump_lines n i s = Ret (concat (page_line a <$> seqZ i n), s)).
  { induction n as [|n IH]; intros i Hi Hn; [done|]. cbn [dump_lines].
    rewrite (M_bind_run _ _ s s s) by done. rewrite (M_bind_run _ _ s s (free_blocks_of a true i)).
    2:{ unfold mlift. by rewrite (zone_count s a true i K ltac:(lia) : size_of (HighmemFreeList i) (pnodes s) = _). }
    rewrite (M_bind_run _ _ s s (free_blocks_of a false i)).
    2:{ unfold mlift. by rewrite (zone_count s a false i K ltac:(lia) : size_of (Page.FreeList i) (pnodes s) = _). }
    rewrite (M_bind_run _ _ _ _ _ (IH (i + 1) ltac:(lia) ltac:(lia))). rewrite (seqZ_cons i (S n)) by lia. cbn [fmap list_fmap concat].
    replace (Z.succ i) with (i + 1) by lia. replace (Z.pred (S n)) with (Z.of_nat n) by lia.
    unfold page_line. by rewrite <- !app_assoc. }
  apply (G (Z.to_nat (PAGE_MAX_ORDER + 1)) 0); [lia|done].
Qed.

(** ** The early heap and the slab caches *)

Section Heap.
Context (block_buffer : Z).

Fixpoint early_lines (n : nat) (i : Z) : M kheap (list Z) :=
  match n with
  | O => mret []
  | S n =>
      s ← mget;
      count ← mlift (size_of (KmallocEarly.FreeList i) (knodes s));
      rest ← early_lines n (i + 1);
      mret ((if 0 <? count then codes "size-" ++ decimal (s32 (Z.shiftl MIN_SIZE i)) ++ codes ": " ++ decimal (s32 count) ++ [10] else []) ++ rest)
  end.
Definition dump_kmalloc_early : M kheap (list Z) :=
  rest ← early_lines (Z.to_nat (MAX_ORDER + 1)) 0;
  mret (codes "init buffer: <" ++ hex_text (u32 block_buffer) ++ codes ", " ++ hex_text (u32 (block_buffer + MAX_SIZE)) ++ codes "> " ++ [10] ++ rest).

Definition early_free (a : blockmap) (o : Z) : Z := base.size (dom (filter (fun e => e.2 = (o, true)) a)).

Definition early_line (a : blockmap) (o : Z) : list Z :=
  if 0 <? early_free a o
  then codes "size-" ++ decimal (s32 (Z.shiftl MIN_SIZE o)) ++ codes ": " ++ decimal (s32 (early_free a o)) ++ [10] else [].

Lemma early_count s a o : kinv s a -> 0 <= o <= MAX_ORDER ->
  size_of (KmallocEarly.FreeList o) (knodes s) = Ret (early_free a o).
Proof.
  intros [_ _ _ [fl Hfl]] Ho. destruct (Hfl tt o Ho) as [Hd Hm]. cbn [fl_head kloc_shape] in Hd. rewrite (size_of_dll _ _ _ Hd).
  unfold early_free. rewrite length_fmap. do 2 f_equal. destruct Hd as [Hn _]. apply NoDup_cons in Hn as [_ Hn]. apply NoDup_fmap_1 in Hn.
  rewrite <- (size_list_to_set (C := gset Z) _ Hn). apply set_size_proper. intros h. rewrite elem_of_list_to_set, Hm, elem_of_dom.
  split.
  - intros [E Hz]. exists (o, true). by apply map_lookup_filter_Some.
  - intros [[o' f] E]. apply map_lookup_filter_Some in E as [E [= -> ->]]. by split.
Qed.

Lemma early_lines_run s a : kinv s a -> forall (n : nat) i, 0 <= i -> i + n <= MAX_ORDER + 1 ->
  early_lines n i s = Ret (concat (early_line a <$> seqZ i n), s).
Proof.
  intros K. induction n as [|n IH]; intros i Hi Hn; [done|]. cbn [early_lines]. rewrite (M_bind_run _ _ s s s) by done.
  rewrite (M_bind_run _ _ s s (early_free a i)) by (unfold mlift; by rewrite (early_count s a i K) by lia).
  rewrite (M_bind_run _ _ _ _ _ (IH (i + 1) ltac:(lia) ltac:(lia))). rewrite (seqZ_cons i (S n)) by lia. cbn [fmap list_fmap concat].
  replace (Z.succ i) with (i + 1) by lia. replace (Z.pred (S n)) with (Z.of_nat n) by lia. done.
Qed.
End Heap.

(** The pages of a partial list: [page->active] of each. *)
Fixpoint active_loop (fuel : nat) (head : ploc) (node : option ploc) : M slabs (list Z) :=
  match fuel with
  | O => fun _ => Spin
  | S fuel =>
      if bool_decide (node = Some head) then mret []
      else
        p ← mlift (page_of_node node);
        d ← on_pages (get_page p);
        s ← mget;
        rest ← active_loop fuel head (next (nd (pnodes (sl_pages s)) (PageNode p)));
        mret (kv " " (active d) ++ rest)
  end.

Fixpoint cache_lines (n : nat) (i : Z) : M slabs (list Z) :=
  match n with
  | O => mret []
  | S n =>
      s ← mget;
      let nodes := pnodes (sl_pages s) in
      if list_empty (SlabsFull i) nodes && list_empty (SlabsPartial i) nodes then cache_lines n (i + 1)
      else
        full ← mlift (size_of (SlabsFull i) nodes);
        partial ← mlift (size_of (SlabsPartial i) nodes);
        act ← active_loop (S (base.size nodes)) (SlabsPartial i) (next (nd nodes (SlabsPartial i)));
        rest ← cache_lines n (i + 1);
        mret (kv "size:" (Slab.size (cache_of s i)) ++ kv " slabs_full:" full ++ kv " slabs_partial:" partial ++ act ++ [10] ++ rest)
  end.
Definition dump_kmalloc : M slabs (list Z) :=
  rest ← cache_lines (Z.to_nat (KMEM_CACHE_MAX_ORDER + 1)) 0;
  mret (codes "max_size:" ++ decimal (s32 KMEM_CACHE_MAX_SIZE) ++ [10] ++ codes "max_order:" ++ decimal (s32 KMEM_CACHE_MAX_ORDER) ++ [10] ++ rest).

(** The caches' lists: partial pages [ps i], full pages [fl i]. *)
Definition caches_listed (s : slabs) (ps fl : Z -> list Z) : Prop :=
  forall i, 0 <= i <= KMEM_CACHE_MAX_ORDER ->
    dll (pnodes (sl_pages s)) (SlabsPartial i) (PageNode <$> ps i) /\ dll (pnodes (sl_pages s)) (SlabsFull i) (PageNode <$> fl i) /\
    forall p, p ∈ ps i -> 0 <= p < TOTAL_PAGES.

Definition cache_line (s : slabs) (ps fl : Z -> list Z) (i : Z) : list Z :=
  if bool_decide (fl i = [] /\ ps i = []) then []
  else kv "size:" (Slab.size (cache_of s i)) ++ kv " slabs_full:" (length (fl i)) ++ kv " slabs_partial:" (length (ps i)) ++
    concat ((fun p => kv " " (active (slabs_pg s p))) <$> ps i) ++ [10].

Lemma active_run s h ps : forall fuel x,
  chain (pnodes (sl_pages s)) (x :: (PageNode <$> ps) ++ [h]) -> (forall p, h <> PageNode p) -> (forall p, p ∈ ps -> 0 <= p < TOTAL_PAGES) ->
  (length ps < fuel)%nat ->
  active_loop fuel h (next (nd (pnodes (sl_pages s)) x)) s = Ret (concat ((fun p => kv " " (active (slabs_pg s p))) <$> ps), s).
Proof.
  induction ps as [|p ps IH]; intros fuel x Hc Hh Hp Hf; (destruct fuel as [|fuel]; [cbn in Hf; lia|]);
    cbn [active_loop fmap list_fmap app] in *; destruct Hc as [[-> _] Hc].
  - by rewrite bool_decide_true.
  - rewrite bool_decide_false by (intros [= E]; by apply (Hh p)). cbn [page_of_node]. rewrite (M_bind_run _ _ s s p) by done.
    assert (Eg : on_pages (get_page p) s = Ret (slabs_pg s p, s)).
    { unfold on_pages, get_page. rewrite (proj2 (in_pages_spec p) (Hp p ltac:(by left))). by destruct s. }
    rewrite (M_bind_run _ _ _ _ _ Eg), (M_bind_run _ _ s s s) by done.
    rewrite (M_bind_run _ _ _ _ _ (IH fuel (PageNode p) Hc Hh (fun q Hq => Hp q (list_elem_of_further _ _ _ Hq)) ltac:(cbn in Hf; lia))). done.
Qed.

Lemma cache_lines_run s ps fl : caches_listed s ps fl -> forall (n : nat) i, 0 <= i -> i + n <= KMEM_CACHE_MAX_ORDER + 1 ->
  cache_lines n i s = Ret (concat (cache_line s ps fl <$> seqZ i n), s).
Proof.
  intros K. induction n as [|n IH]; intros i Hi Hn; [done|]. cbn [cache_lines]. rewrite (M_bind_run _ _ s s s) by done.
  destruct (K i ltac:(lia)) as (Dp & Df & Hp). rewrite (seqZ_cons i (S n)) by lia. cbn [fmap list_fmap concat].
  replace (Z.succ i) with (i + 1) by lia. replace (Z.pred (S n)) with (Z.of_nat n) by lia.
  pose proof (IH (i + 1) ltac:(lia) ltac:(lia)) as Er. unfold cache_line at 1.
  pose proof (list_empty_dll _ _ _ Df) as Ef. pose proof (list_empty_dll _ _ _ Dp) as Ep. cbv zeta.
  case_bool_decide as He.
  - destruct He as [E1 E2]. rewrite E1 in Ef. rewrite E2 in Ep. rewrite (proj2 Ef eq_refl), (proj2 Ep eq_refl). exact Er.
  - assert (list_empty (SlabsFull i) (pnodes (sl_pages s)) && list_empty (SlabsPartial i) (pnodes (sl_pages s)) = false) as ->.
    { apply andb_false_iff. destruct (list_empty (SlabsFull i) _) eqn:E1; [|by left]. right.
      destruct (list_empty (SlabsPartial i) _) eqn:E2; [|done]. exfalso. apply He.
      split; eapply fmap_nil_inv; [by apply Ef|by apply Ep]. }
    rewrite (M_bind_run _ _ s s (Z.of_nat (length (fl i)))) by (unfold mlift; by rewrite (size_of_dll _ _ _ Df), length_fmap).
    rewrite (M_bind_run _ _ s s (Z.of_nat (length (ps i)))) by (unfold mlift; by rewrite (size_of_dll _ _ _ Dp), length_fmap).
    pose proof (dll_size _ _ _ Dp) as Hsz. rewrite length_fmap in Hsz.
    rewrite (M_bind_run _ _ _ _ _ (active_run s (SlabsPartial i) (ps i) _ _ (proj2 Dp) ltac:(done) Hp Hsz)).
    rewrite (M_bind_run _ _ _ _ _ Er). unfold mret, M_ret. by rewrite <- !app_assoc.
Qed.

(** What the two other files of the allocators report: the free blocks of the
    early heap by size, and for each slab cache in use its size, the number
    of full and of partial pages, and the objects in use of each partial
    page. *)
Theorem dump_heap_ok (block_buffer : Z) (s : slabs) (h : kheap) (a : blockmap) (ps fl : Z -> list Z) :
  kinv h a -> caches_listed s ps fl ->
  dump_kmalloc_early block_buffer h = Ret (codes "init buffer: <" ++ hex_text (u32 block_buffer) ++ codes ", " ++
    hex_text (u32 (block_buffer + MAX_SIZE)) ++ codes "> " ++ [10] ++ concat (early_line a <$> seqZ 0 (MAX_ORDER + 1)), h) /\
  dump_kmalloc s = Ret (codes "max_size:1024" ++ [10] ++ codes "max_order:7" ++ [10] ++
    concat (cache_line s ps fl <$> seqZ 0 (KMEM_CACHE_MAX_ORDER + 1)), s).
Proof.
  intros Kh Ks. split.
  - unfold dump_kmalloc_early. by rewrite (M_bind_run _ _ _ _ _ (early_lines_run h a Kh (Z.to_nat (MAX_ORDER + 1)) 0 ltac:(lia) ltac:(done))).
  - unfold dump_kmalloc.
    by rewrite (M_bind_run _ _ _ _ _ (cache_lines_run s ps fl Ks (Z.to_nat (KMEM_CACHE_MAX_ORDER + 1)) 0 ltac:(lia) ltac:(done))).
Qed.

(** ** lscpu *)

(** The bit fields of [struct mp_processor] at [p]. *)
Definition cpu_line_of (c : Smp.cpu) (p : Z) : M smp (list Z) :=
  id ← read8 (p + 1);
  fl ← read8 (p + 3);
  sg ← read8 (p + 4);
  fam ← read8 (p + 5);
  mret (kv "cpu-" (cpu_no c) ++ kv " lapic_id:" id ++ kv " en:" (Z.land fl 1) ++ kv " bootstrap:" (Z.land (Z.shiftr fl 1) 1) ++
    kv " stepping:" (Z.land sg 15) ++ kv " model:" (Z.shiftr sg 4) ++ kv " family:" (Z.land fam 15) ++ [10]).

(** [list_cpu] on the processors from [i] on: the text it prints. *)
Fixpoint list_cpu_loop (n : nat) (i : Z) : M smp (list Z) :=
  match n with
  | O => mret []
  | S n =>
      s ← mget;
      let c := cpu_at s i in
      if negb (started c) then list_cpu_loop n (i + 1)
      else
        p ← mlift (deref (processor c));
        l ← cpu_line_of c p;
        rest ← list_cpu_loop n (i + 1);
        mret (l ++ rest)
  end.
Definition list_cpu : M smp (list Z) := list_cpu_loop (Z.to_nat MAX_CPU) 0.

(** What the table says about a processor. *)
Record cpu_info := CpuInfo { ci_id : Z; ci_flags : Z; ci_sig : Z; ci_family : Z }.

Definition info_line (no : Z) (x : cpu_info) : list Z :=
  kv "cpu-" no ++ kv " lapic_id:" (ci_id x) ++ kv " en:" (Z.land (ci_flags x) 1) ++ kv " bootstrap:" (Z.land (Z.shiftr (ci_flags x) 1) 1) ++
  kv " stepping:" (Z.land (ci_sig x) 15) ++ kv " model:" (Z.shiftr (ci_sig x) 4) ++ kv " family:" (Z.land (ci_family x) 15) ++ [10].

Definition cpu_told (s : smp) (i : Z) (x : cpu_info) : Prop :=
  exists p, processor (cpu_at s i) = Some p /\ bytes (smem s) !! (p + 1) = Some (ci_id x) /\ bytes (smem s) !! (p + 3) = Some (ci_flags x) /\
    bytes (smem s) !! (p + 4) = Some (ci_sig x) /\ bytes (smem s) !! (p + 5) = Some (ci_family x).

(** "lscpu" prints a line for each processor that has been started, in the
    order of their numbers, with what the configuration table says of it, and
    nothing for the others. *)
Theorem list_cpu_ok (s : smp) (x : Z -> cpu_info) :
  (forall i, 0 <= i < MAX_CPU -> started (cpu_at s i) = true -> cpu_told s i (x i)) ->
  list_cpu s = Ret (concat ((fun i => info_line (cpu_no (cpu_at s i)) (x i)) <$> filter (fun i => started (cpu_at s i) = true) (seqZ 0 MAX_CPU)), s).
Proof.
  intros Hx. unfold list_cpu. assert (G : forall (n : nat) i, 0 <= i -> i + n <= MAX_CPU -> list_cpu_loop n i s
    = Ret (concat ((fun i => info_line (cpu_no (cpu_at s i)) (x i)) <$> filter (fun i => started (cpu_at s i) = true) (seqZ i n)), s)).
  { induction n as [|n IH]; intros i Hi Hn; [done|]. cbn [list_cpu_loop]. rewrite (M_bind_run _ _ s s s) by done. cbv zeta.
    pose proof (IH (i + 1) ltac:(lia) ltac:(lia)) as Er. rewrite (seqZ_cons i (S n)) by lia.
    replace (Z.succ i) with (i + 1) by lia. replace (Z.pred (S n)) with (Z.of_nat n) by lia. rewrite filter_cons.
    destruct (started (cpu_at s i)) eqn:Es; cbn [negb]; [|rewrite decide_False by done; exact Er]. rewrite decide_True by done.
    destruct (Hx i ltac:(lia) Es) as (p & Hp & H1 & H2 & H3 & H4). rewrite Hp. rewrite (M_bind_run _ _ s s p) by done.
    assert (El : cpu_line_of (cpu_at s i) p s = Ret (info_line (cpu_no (cpu_at s i)) (x i), s)).
    { unfold cpu_line_of. rewrite (M_bind_run _ _ _ _ _ (read8_run _ _ _ H1)), (M_bind_run _ _ _ _ _ (read8_run _ _ _ H2)).
      by rewrite (M_bind_run _ _ _ _ _ (read8_run _ _ _ H3)), (M_bind_run _ _ _ _ _ (read8_run _ _ _ H4)). }
    rewrite (M_bind_run _ _ _ _ _ El), (M_bind_run _ _ _ _ _ Er). done. }
  apply (G (Z.to_nat MAX_CPU) 0); [lia|done].
Qed.
