(* ===== verification/Late.v ===== *)
(** * The end of start-up (kernel/init.c, graphic/gpu.c, graphic/init.c, and the *_init_late functions)

    [kernel_init_late] starts the screen, the frame buffer of which has to be
    mapped first, and creates the files of /sys and the command "lscpu". *)

From stdpp Require Import base numbers list gmap.
From Stdlib Require Import ZArith Lia.
From Stdlib Require String.
From S2P Require Import Prelude Bitops ListNode Page PageTable Memory CMem Fs Shell Gpu Sysfs.

Import String.StringSyntax.

Open Scope string_scope.
Open Scope Z_scope.

#[local] Coercion Z.of_nat : nat >-> Z.

(** The operations of the files, by number. *)
Definition gpu_dump_fops : Z := 20.
Definition dump_page_fops : Z := 21.
Definition dump_kmalloc_fops : Z := 22.
Definition dump_kmalloc_early_fops : Z := 23.
Definition free_vma_fops : Z := 24.
Definition vma_fops : Z := 25.
Definition list_cpu_ops : Z := 26.

Record late := Late { g_gpu : gpu_info; lt_pt : ptm; lt_mem : cmem; lt_fs : fs }.

Definition with_gpu (x : gpu_info) (s : late) : late := Late x (lt_pt s) (lt_mem s) (lt_fs s).
Definition with_lpt (x : ptm) (s : late) : late := Late (g_gpu s) x (lt_mem s) (lt_fs s).
Definition with_lmem (x : cmem) (s : late) : late := Late (g_gpu s) (lt_pt s) x (lt_fs s).
Definition with_lfs (x : fs) (s : late) : late := Late (g_gpu s) (lt_pt s) (lt_mem s) x.
Definition on_lpt {A} (m : M ptm A) : M late A := zoom lt_pt with_lpt m.
Definition on_lmem {A} (m : M cmem A) : M late A := zoom lt_mem with_lmem m.
Definition on_lfs {A} (m : M fs A) : M late A := zoom lt_fs with_lfs m.

Section Late.
Context `{FsHeap} (pgdir : Z).

(** [memcpy(&g_gpu, info, sizeof(g_gpu))]: the fields that are used. *)
Definition read_info (p : Z) : M cmem gpu_info :=
  w ← rd16 (p + 4); h ← rd16 (p + 6); b ← rdb (p + 8); v ← rd32 (p + 12); mret (GpuInfo w h b v).

(** [create_file(name, fops, sys, priv, &file)]; the answer is ignored. *)
Definition sys_file (name : list Z) (fops priv : Z) : M fs unit :=
  d ← global sys; _ ← create_file name fops d priv; mret tt.

Definition gpu_init (info : Z) : M late unit :=
  g ← on_lmem (read_info info);
  _ ← mmod (with_gpu g);
  _ ← on_lpt (page_map pgdir (vram g) (vram g) (vram_size g) PTE_W);
  on_lfs (sys_file (codes "gpu_dump") gpu_dump_fops info).

Definition graphic_init : M late unit :=
  _ ← gpu_init (phys_to_virt 0);
  s ← mget;
  on_lmem (graphic_fill (g_gpu s)).

Definition page_init_late : M fs Z := _ ← sys_file (codes "free_pages") dump_page_fops 0; mret 0.
Definition kmalloc_init_late : M fs Z :=
  _ ← sys_file (codes "kmalloc") dump_kmalloc_fops 0;
  _ ← sys_file (codes "kmalloc-early") dump_kmalloc_early_fops 0;
  mret 0.
Definition vmalloc_init_late : M fs Z :=
  _ ← sys_file (codes "free_vma") free_vma_fops 0;
  _ ← sys_file (codes "vma") vma_fops 0;
  mret 0.
Definition smp_init_late : M fs Z := _ ← binfs_create_file (codes "lscpu") list_cpu_ops 0; mret 0.

Definition kernel_init_late : M late Z :=
  _ ← graphic_init;
  _ ← on_lfs page_init_late;
  _ ← on_lfs kmalloc_init_late;
  _ ← on_lfs vmalloc_init_late;
  _ ← on_lfs smp_init_late;
  mret 0.

(** ** The files *)

(** The directory [d] starts with the files [cmds]. *)
Definition lists (g : fs) (d : Z) (cmds : list (list Z * Z)) : Prop :=
  exists fl, dir_ok g d fl /\ Forall2 (fun f c => exists priv, files g !! f = Some (File c.1 priv d c.2)) fl cmds.

(** [y] is /sys, [b] is /bin, with the files [cmds] in the former. *)
Record late_fs (g : fs) (y b : Z) (cmds : list (list Z * Z)) : Prop := LateFs {
  lf_sys : sys g = Some y;
  lf_bin : bin g = Some b;
  lf_ne : y <> b;
  lf_files : lists g y cmds;
  lf_empty : dir_ok g b []
}.

Lemma sys_file_run g y b cmds name fops priv : (forall m, new_file m <> None) -> late_fs g y b cmds ->
  exists g', sys_file name fops priv g = Ret (tt, g') /\ late_fs g' y b ((name, fops) :: cmds).
Proof.
  intros Hal [Hy Hb Hne (fl & Hok & Hf) (Hbd & Hbl & _)]. destruct (new_file (files g)) as [f|] eqn:En; [|by destruct (Hal (files g))].
  destruct (create_file_run g y fl name fops priv f Hok En) as (n & E & Hok' & Hnin & Hfr). set (g' := with_fnodes n _) in *.
  exists g'. split.
  - unfold sys_file, global. rewrite M_bind_assoc, (M_bind_run _ _ _ _ _ eq_refl), Hy. rewrite (M_bind_run _ _ _ g y) by done.
    by rewrite (M_bind_run _ _ _ _ _ E).
  - split; [done|done|done| |].
    + exists (f :: fl). split; [done|]. constructor; [exists priv; cbn; apply lookup_insert_eq|].
      apply Forall2_same_length_lookup_2; [by eapply Forall2_length|]. intros i h c Hi Hc.
      destruct (Forall2_lookup_lr _ _ _ _ _ _ Hf Hi Hc) as [q Hq]. exists q. cbn. rewrite lookup_insert_ne; [done|].
      intros <-. apply Hnin. by eapply list_elem_of_lookup_2.
    + split; [done|]. split; [|by intros x Hx%elem_of_nil]. apply (dll_frame (fnodes g)); [|done].
      intros c ->%list_elem_of_singleton. apply Hfr. rewrite !not_elem_of_cons. split_and!; [done|congruence|].
      by intros (x & ? & _)%list_elem_of_fmap.
Qed.

Lemma lscpu_run g y b cmds : (forall m, new_file m <> None) -> late_fs g y b cmds ->
  exists g' f, smp_init_late g = Ret (0, g') /\ bin g' = Some b /\ lists g' y cmds /\
    binfs_find_file (codes "lscpu") g' = Ret (Some f, g') /\ files g' !! f = Some (File (codes "lscpu") 0 b list_cpu_ops).
Proof.
  intros Hal [Hy Hb Hne (fl & (Hyd & Hyl & Hyf) & Hf) Hok]. destruct (new_file (files g)) as [f|] eqn:En; [|by destruct (Hal (files g))].
  pose proof (new_file_fresh _ _ En) as Hfr0.
  destruct (create_file_run g b [] (codes "lscpu") list_cpu_ops 0 f Hok En) as (n & E & Hok' & _ & Hfr). set (g' := with_fnodes n _) in *.
  assert (Hfl : forall x, x ∈ fl -> x <> f) by (intros x Hx ->; destruct (Hyf f Hx); congruence).
  exists g', f. split; [|split; [done|split; [|split]]].
  - unfold smp_init_late, binfs_create_file, global. rewrite !M_bind_assoc, (M_bind_run _ _ _ _ _ eq_refl), Hb.
    rewrite (M_bind_run _ _ _ g b) by done. by rewrite (M_bind_run _ _ _ _ _ E).
  - exists fl. split; [split; [done|split]|].
    + apply (dll_frame (fnodes g)); [|done]. intros c Hc. apply Hfr. rewrite !not_elem_of_cons.
      apply elem_of_cons in Hc as [->|(x & -> & Hx)%list_elem_of_fmap].
      * split_and!; [done|congruence|by intros ?%elem_of_nil].
      * split_and!; [intros [= ->]; by apply (Hfl f)|done|by intros ?%elem_of_nil].
    + intros x Hx. cbn. rewrite lookup_insert_ne by (intros <-; by apply (Hfl f)). by apply Hyf.
    + apply Forall2_same_length_lookup_2; [by eapply Forall2_length|]. intros i h c Hi Hc.
      destruct (Forall2_lookup_lr _ _ _ _ _ _ Hf Hi Hc) as [q Hq]. exists q. cbn. rewrite lookup_insert_ne; [done|].
      intros <-. apply (Hfl f); [|done]. by eapply list_elem_of_lookup_2.
  - unfold binfs_find_file, global. rewrite M_bind_assoc, (M_bind_run _ _ _ _ _ eq_refl). change (bin g') with (bin g). rewrite Hb.
    rewrite (M_bind_run _ _ _ g' b) by done. rewrite (dir_find_file_run _ _ _ _ Hok'). cbn [first_named g' files with_fnodes with_files].
    rewrite lookup_insert_eq. by rewrite bool_decide_true.
  - cbn. apply lookup_insert_eq.
Qed.

Lemma listed_found g d cmds name fops : lists g d cmds -> NoDup (fst <$> cmds) -> (name, fops) ∈ cmds ->
  exists f priv, dir_find_file d name g = Ret (Some f, g) /\ files g !! f = Some (File name priv d fops).
Proof.
  intros (fl & Hok & Hf) Hn Hin.
  assert (Hfind : exists f priv, first_named (files g) name fl = Some f /\ files g !! f = Some (File name priv d fops)).
  { clear Hok. revert cmds Hn Hin Hf. induction fl as [|h fl IH]; intros cmds Hn Hin Hf; inversion Hf as [|? [w o] ? l [q Hh] Hl]; subst.
    { by apply elem_of_nil in Hin. }
    cbn [first_named]. rewrite Hh. cbn [fmap option_fmap option_map f_name fst]. cbn [fmap list_fmap] in Hn.
    apply NoDup_cons in Hn as [Hw Hn]. apply elem_of_cons in Hin as [[= <- <-]|Hin].
    - rewrite bool_decide_true by done. by exists h, q.
    - rewrite bool_decide_false; [by eapply IH|]. intros [= ->]. apply Hw. apply list_elem_of_fmap. by exists (name, fops). }
  destruct Hfind as (f & q & Ef & Hx). exists f, q. split; [|done]. by rewrite (dir_find_file_run _ _ _ _ Hok), Ef.
Qed.

(** "cat" of such a file prints what its read function appends. *)
Lemma cat_found reads sh d cmds name fops content :
  lists (shfs sh) d cmds -> NoDup (fst <$> cmds) -> (name, fops) ∈ cmds -> current_dir sh = Some d ->
  reads fops = Some (fun _ => (0, content)) ->
  do_cat reads [s_cat; name] sh = Ret (0, shown [content ++ [10]] sh).
Proof.
  intros Hl Hn Hin Hd Hr. destruct (listed_found _ _ _ _ _ Hl Hn Hin) as (f & q & Ef & Hx). unfold do_cat. cbn [length negb Z.eqb lookup].
  change (negb (2%nat =? 2)) with false. cbv iota.
  assert (Ec : cwd sh = Ret (d, sh)) by (unfold cwd; by rewrite (M_bind_run _ _ sh sh sh eq_refl), Hd).
  cbn. rewrite (M_bind_run _ _ _ _ _ Ec).
  assert (E1 : on_fs (dir_find_file d name) sh = Ret (Some f, sh)).
  { unfold on_fs. rewrite (zoom_run shfs with_shfs _ sh _ _ Ef). by destruct sh. }
  assert (E2 : on_fs (get_file f) sh = Ret (File name q d fops, sh)).
  { unfold on_fs. rewrite (zoom_run shfs with_shfs _ sh (File name q d fops) (shfs sh)); [by destruct sh|]. unfold get_file. by rewrite Hx. }
  rewrite (M_bind_run _ _ _ _ _ E1), (M_bind_run _ _ _ _ _ E2). cbn [f_fops]. by rewrite Hr.
Qed.

Definition sys_files : list (list Z * Z) :=
  [(codes "vma", vma_fops); (codes "free_vma", free_vma_fops); (codes "kmalloc-early", dump_kmalloc_early_fops);
   (codes "kmalloc", dump_kmalloc_fops); (codes "free_pages", dump_page_fops); (codes "gpu_dump", gpu_dump_fops)].

(** The screen information the loader leaves at address 0. *)
Definition info_at (m : cmem) (p : Z) (g : gpu_info) : Prop :=
  arr (bytes m) (p + 4) (le16 (width g)) /\ arr (bytes m) (p + 6) (le16 (height g)) /\
  bytes m !! (p + 8) = Some (pixelbits g) /\ arr (bytes m) (p + 12) (le32 (vram g)).

Lemma read_info_run m p g : info_at m p g -> read_info p m = Ret (g, m).
Proof.
  intros (Hw & Hh & Hb & Hv). unfold read_info. rewrite (M_bind_run _ _ _ _ _ (rd16_run _ _ _ Hw)), (M_bind_run _ _ _ _ _ (rd16_run _ _ _ Hh)).
  rewrite (M_bind_run _ _ _ _ _ (rdb_run _ _ _ Hb)), (M_bind_run _ _ _ _ _ (rd32_run _ _ _ Hv)). by destruct g.
Qed.

(** The four files after the screen. *)
Lemma late_files_run {A} g y b cmds (s : late) (k : M late A) : (forall m, new_file m <> None) -> lt_fs s = g -> late_fs g y b cmds ->
  exists g', late_fs g' y b (take 5 sys_files ++ cmds) /\
    (_ ← on_lfs page_init_late; _ ← on_lfs kmalloc_init_late; _ ← on_lfs vmalloc_init_late; k) s = k (with_lfs g' s).
Proof.
  intros Hal <- K0.
  destruct (sys_file_run _ y b _ (codes "free_pages") dump_page_fops 0 Hal K0) as (g1 & E1 & K1).
  destruct (sys_file_run _ y b _ (codes "kmalloc") dump_kmalloc_fops 0 Hal K1) as (g2 & E2 & K2).
  destruct (sys_file_run _ y b _ (codes "kmalloc-early") dump_kmalloc_early_fops 0 Hal K2) as (g3 & E3 & K3).
  destruct (sys_file_run _ y b _ (codes "free_vma") free_vma_fops 0 Hal K3) as (g4 & E4 & K4).
  destruct (sys_file_run _ y b _ (codes "vma") vma_fops 0 Hal K4) as (g5 & E5 & K5).
  exists g5. split; [exact K5|].
  assert (F1 : page_init_late (lt_fs s) = Ret (0, g1)) by (unfold page_init_late; by rewrite (M_bind_run _ _ _ _ _ E1)).
  assert (F2 : kmalloc_init_late g1 = Ret (0, g3)) by (unfold kmalloc_init_late; by rewrite (M_bind_run _ _ _ _ _ E2), (M_bind_run _ _ _ _ _ E3)).
  assert (F3 : vmalloc_init_late g3 = Ret (0, g5)) by (unfold vmalloc_init_late; by rewrite (M_bind_run _ _ _ _ _ E4), (M_bind_run _ _ _ _ _ E5)).
  rewrite (M_bind_run _ _ _ _ _ (zoom_run lt_fs with_lfs _ s _ _ F1)).
  rewrite (M_bind_run _ _ _ _ _ (zoom_run lt_fs with_lfs _ (with_lfs g1 s) _ _ F2)).
  by rewrite (M_bind_run _ _ _ _ _ (zoom_run lt_fs with_lfs _ (with_lfs g3 s) _ _ F3)).
Qed.

(** C25. The end of start-up: with a screen of more than 50 lines of 24 bits
    per pixel, pages for the tables and memory for the files,
    [kernel_init_late] returns 0; the pages of the frame buffer are mapped to
    themselves; the screen is painted and no other byte of memory changed;
    in /sys, "cat" of each of the six files prints what its read function
    reports; and "lscpu" is a command. *)
Theorem kernel_init_late_ok (s : late) (g : gpu_info) (d y b : Z) (F : gset Z) :
  pgdir = page_to_virt d -> info_at (lt_mem s) (phys_to_virt 0) g ->
  frame_buffer g (bytes (lt_mem s)) -> 1 < width g -> 50 < height g ->
  pt_ok (lt_pt s) d F -> editable (lt_pt s) d (vram g) (vram_size g) F -> vram_size g <= 2 ^ 32 - PAGE_SIZE ->
  (forall m, new_file m <> None) -> late_fs (lt_fs s) y b [] ->
  exists s', kernel_init_late s = Ret (0, s') /\ g_gpu s' = g /\
    (forall u, vram g / 4096 <= u < vram g / 4096 + npages (vram_size g) -> outside_vpt u ->
       walk (words (lt_pt s')) d u = Some (Z.lor (Z.lor (u32 (4096 * u)) PTE_W) PTE_P)) /\
    (forall a, vram g <= a < vram g + 3 * (width g * height g) ->
       bytes (lt_mem s') !! a = Some (component (if (a - vram g) / 3 / width g <? height g - 51 then Ivory else LightGreen) ((a - vram g) mod 3))) /\
    (forall a, ~ (vram g <= a < vram g + 3 * (width g * height g)) -> bytes (lt_mem s') !! a = bytes (lt_mem s) !! a) /\
    (forall reads sh name fops content, shfs sh = lt_fs s' -> current_dir sh = Some y -> (name, fops) ∈ sys_files ->
       reads fops = Some (fun _ => (0, content)) -> do_cat reads [s_cat; name] sh = Ret (0, shown [content ++ [10]] sh)) /\
    exists f, binfs_find_file (codes "lscpu") (lt_fs s') = Ret (Some f, lt_fs s') /\
      files (lt_fs s') !! f = Some (File (codes "lscpu") 0 b list_cpu_ops).
Proof.
  intros Hpg Hi Hfb Hw Hh Hpt He Hsz Hal Hfs. unfold kernel_init_late, graphic_init, gpu_init.
  assert (Hv : fits 32 (vram g)) by (pose proof (fb_vram _ _ Hfb); pose proof (fb_width _ _ Hfb); pose proof (fb_height _ _ Hfb); unfold fits; nia).
  assert (Hs0 : 0 <= vram_size g) by (unfold vram_size, wrap; apply Z.mod_pos_bound; lia).
  rewrite !M_bind_assoc. rewrite (M_bind_run _ _ _ _ _ (zoom_run lt_mem with_lmem _ s _ _ (read_info_run _ _ _ Hi))).
  rewrite !M_bind_assoc. set (s0 := with_lmem _ s). rewrite (M_bind_run _ _ s0 (with_gpu g s0) tt) by done. rewrite !M_bind_assoc.
  destruct (page_map_run (lt_pt s) d (vram g) (vram g) (vram_size g) PTE_W F Hpt Hv Hv ltac:(lia) He) as (t & F' & Em & D). rewrite Hpg.
  rewrite (M_bind_run _ _ _ _ _ (zoom_run lt_pt with_lpt _ (with_gpu g s0) _ _ Em)). set (s1 := with_lpt t _).
  destruct (sys_file_run _ y b _ (codes "gpu_dump") gpu_dump_fops (phys_to_virt 0) Hal Hfs) as (g1 & E1 & K1).
  rewrite (M_bind_run _ _ _ _ _ (zoom_run lt_fs with_lfs _ s1 _ _ E1)). rewrite !M_bind_assoc. set (s2 := with_lfs g1 s1).
  rewrite (M_bind_run _ _ s2 s2 s2) by done.
  pose proof (graphic_fill_run g (lt_mem s) Hfb Hw ltac:(lia)) as Hg. replace (50 <? height g) with true in Hg by lia.
  destruct Hg as (m' & Eg & Hp & Ho). rewrite (M_bind_run _ _ _ _ _ (zoom_run lt_mem with_lmem _ s2 _ _ Eg)). set (s3 := with_lmem _ s2).
  destruct (late_files_run g1 y b _ s3 (_ ← on_lfs smp_init_late; mret 0) Hal eq_refl K1) as (g2 & K2 & E2). rewrite E2.
  destruct (lscpu_run g2 y b _ Hal K2) as (g3 & f & E3 & _ & Hl & Ef & Hx).
  rewrite (M_bind_run _ _ _ _ _ (zoom_run lt_fs with_lfs _ (with_lfs g2 s3) _ _ E3)). eexists. split; [reflexivity|].
  split; [done|]. split; [|split; [exact Hp|split; [exact Ho|split]]].
  - intros u Hu Hou. cbn [with_lfs lt_pt s3 s2 s1 with_lmem with_lpt]. rewrite (ed_walk _ _ _ _ _ _ _ _ D) by done.
    rewrite decide_True by done. do 5 f_equal. lia.
  - intros reads sh name fops content Hsh Hd Hin Hr. apply (cat_found reads sh y sys_files name fops); [by rewrite Hsh| |done..].
    repeat (apply NoDup_cons; split; [by apply (bool_decide_unpack _)|]). by apply NoDup_nil.
  - exists f. by split.
Qed.
End Late.

(** *** Example *)

#[local] Existing Instance fsheap0.
#[local] Opaque frames0.

Definition fs_late : fs := match fs_init fs_bss with Ret (_, s) => s | _ => fs_bss end.
Definition sys_late : Z := default 0 (sys fs_late).
Definition bin_late : Z := default 0 (bin fs_late).

Lemma fs_late_ok : late_fs fs_late sys_late bin_late [].
Proof.
  split; [by vm_compute|by vm_compute|by vm_compute| |].
  - exists []. split; [|by apply Forall2_nil]. split; [apply (bool_decide_unpack _); by vm_compute|]. split; [concrete_list|by intros f ?%elem_of_nil].
  - split; [apply (bool_decide_unpack _); by vm_compute|]. split; [concrete_list|by intros f ?%elem_of_nil].
Qed.

Definition info24 : list Z := [0; 0; 0; 0] ++ le16 4 ++ le16 60 ++ [24; 0; 0; 0] ++ le32 0xFD000000.
Definition mem_late : cmem := CMem (blit 0xFD000000 (replicate 720 0) (blit 0xC0000000 info24 ∅)) ∅.
Definition late0 : late := Late (GpuInfo 0 0 0 0) ptm0 mem_late fs_late.

Lemma mem_late_info : info_at mem_late (phys_to_virt 0) gpu24.
Proof.
  assert (Ha : arr (bytes mem_late) 0xC0000000 info24) by (apply arr_blit_other; [right; cbn; lia|apply arr_blit]).
  unfold info24 in Ha. apply arr_app in Ha as [_ Ha]. apply arr_app in Ha as [H1 Ha]. apply arr_app in Ha as [H2 Ha].
  apply arr_app in Ha as [H3 H4]. apply arr_cons in H3 as [H3 _]. by split_and!.
Qed.

Lemma mem_late_frame : frame_buffer gpu24 (bytes mem_late).
Proof.
  split; cbn [gpu24 width height pixelbits vram]; [lia|lia|done|lia|].
  pose proof (arr_mapped _ _ _ (arr_blit 0xFD000000 (replicate 720 0) (blit 0xC0000000 info24 ∅))) as Hm. by rewrite length_replicate in Hm.
Qed.

Lemma kernel_init_late_ok_witness :
  exists s', kernel_init_late (page_to_virt 256) late0 = Ret (0, s') /\ bytes (lt_mem s') !! 0xFD000000 = Some (blue Ivory) /\
    do_cat (fun f => if f =? vma_fops then Some (fun _ => (0, [104; 105])) else None) [s_cat; codes "vma"] (Shell (lt_fs s') (Some sys_late) [])
      = Ret (0, Shell (lt_fs s') (Some sys_late) [[104; 105; 10]]).
Proof.
  destruct (kernel_init_late_ok (page_to_virt 256) late0 gpu24 256 sys_late bin_late frames0) as (s' & E & _ & _ & Hp & _ & Hc & _).
  - reflexivity.
  - exact mem_late_info.
  - exact mem_late_frame.
  - reflexivity.
  - reflexivity.
  - exact ptm0_ok.
  - apply one_page_editable; [reflexivity|split; [split; [discriminate|reflexivity]|discriminate]|exact (Nat.lt_succ_l _ _ two_frames)].
  - discriminate.
  - discriminate.
  - exact fs_late_ok.
  - exists s'. split; [exact E|]. split; [apply (Hp 0xFD000000); cbn; lia|].
    apply (Hc _ (Shell (lt_fs s') (Some sys_late) []) (codes "vma") vma_fops [104; 105]); [reflexivity|reflexivity|by left|reflexivity].
Defined.
