(* ===== verification/ResizeBinary.v ===== *)
(** * The build tool that pads an image (tools/resize_binary.c)

    A program of the host: it copies a file into a buffer of a given size,
    filled up with zeros, marks it as a boot sector if asked to, and writes
    the buffer to another file.  Files are a map from names to contents.
    What the C library answers is part of the environment: whether [malloc]
    and [fopen] for reading and for writing succeed (the results are used
    without a check: reading, writing or filling through NULL is a fault),
    how many bytes [fwrite] can put into the
    file, and the options [getopt] finds in the arguments, each with its
    [optarg]; [atoi] is an argument. *)

From stdpp Require Import base numbers list gmap.
From Stdlib Require Import ZArith Lia.
From S2P Require Import Prelude.

Open Scope Z_scope.

#[local] Coercion Z.of_nat : nat >-> Z.

Abbreviation name := (list Z).
Definition files : Type := gmap name (list Z).

Section Tool.
Context (malloc : Z -> bool) (readable writable : name -> bool) (room : Z) (atoi : name -> Z).

(** The first [n] bytes of a file, or what it has; [None] for -1. *)
Definition read_binary (fname : name) (n : Z) : M files (option (list Z)) := fun fs =>
  match fs !! fname with
  | None => Fault
  | Some l =>
      if readable fname then
        let got := take (Z.to_nat n) l in
        if negb (length got =? n) then Ret (None, fs) else Ret (Some got, fs)
      else Fault
  end.

(** "wb+" empties the file before anything is written. *)
Definition write_binary (fname : name) (buf : list Z) (n : Z) : M files Z := fun fs =>
  if writable fname then
    let put := take (Z.to_nat (Z.min n room)) buf in
    let fs := <[fname := put]> fs in
    if negb (length put =? n) then Ret (-1, fs) else Ret (n, fs)
  else Fault.

(** [buf[i] = x] on the buffer. *)
Definition set_byte (i : Z) (x : Z) (buf : list Z) : list Z := <[Z.to_nat i := x]> buf.

Definition resize_binary (ifname ofname : name) (n : Z) (isbootsect : bool) : M files Z :=
  fs ← mget;
  match fs !! ifname with
  | None => mret (-1)
  | Some st =>
      let st_size := Z.of_nat (length st) in
      if (if isbootsect then 510 else n) <? st_size then mret (-1)
      else
        let buf_size := if isbootsect then 512 else n in
        if negb (malloc buf_size) then mlift Fault
        else
          let buf := replicate (Z.to_nat buf_size) 0 in
          r ← read_binary ifname st_size;
          match r with
          | None => mret (-1)
          | Some got =>
              let buf := got ++ drop (length got) buf in
              let buf := if isbootsect then set_byte 511 0xAA (set_byte 510 0x55 buf) else buf in
              ret ← write_binary ofname buf buf_size;
              if ret <? 0 then mret (-1) else mret 0
          end
  end.

(** The variables of [main] that the options set. *)
Record options := Options { o_in : option name; o_out : option name; o_boot : bool; o_size : Z }.

(** The loop over the options; [None] for the jump to [err]. *)
Fixpoint parse (opts : list (Z * name)) (o : options) : option options :=
  match opts with
  | [] => Some o
  | (c, optarg) :: opts =>
      if c =? 105 then parse opts (Options (Some optarg) (o_out o) (o_boot o) (o_size o))
      else if c =? 111 then parse opts (Options (o_in o) (Some optarg) (o_boot o) (o_size o))
      else if c =? 98 then parse opts (Options (o_in o) (o_out o) true (o_size o))
      else if c =? 110 then parse opts (Options (o_in o) (o_out o) (o_boot o) (atoi optarg))
      else None
  end.

Definition main (opts : list (Z * name)) : M files Z :=
  match parse opts (Options None None false 512) with
  | None => mret (-1)
  | Some o =>
      match o_in o, o_out o with
      | Some i, Some out =>
          if o_size o <=? 0 then mret (-1)
          else ret ← resize_binary i out (o_size o) (o_boot o); if ret <? 0 then mret (-1) else mret 0
      | _, _ => mret (-1)
      end
  end.

(** ** What it does *)

(** The image: the contents, zeros, and the mark of a boot sector. *)
Definition image (l : list Z) (n : Z) (boot : bool) : list Z :=
  if boot then l ++ replicate (510 - length l) 0 ++ [0x55; 0xAA] else l ++ replicate (Z.to_nat n - length l) 0.

Lemma set_mark (l : list Z) : (length l <= 510)%nat ->
  set_byte 511 0xAA (set_byte 510 0x55 (l ++ drop (length l) (replicate 512 0))) = image l 512 true.
Proof.
  intros Hl. unfold set_byte, image. rewrite drop_replicate.
  replace (512 - length l)%nat with ((510 - length l) + 2)%nat by lia. rewrite replicate_add, app_assoc.
  set (k := l ++ replicate (510 - length l) 0). assert (Hk : length k = 510%nat) by (unfold k; rewrite length_app, length_replicate; lia).
  change (Z.to_nat 510) with 510%nat. change (Z.to_nat 511) with 511%nat.
  rewrite (insert_app_r_alt k _ 510) by lia. rewrite insert_app_r_alt by lia. rewrite Hk. unfold k. by rewrite <- app_assoc.
Qed.

Lemma image_length (l : list Z) (n : Z) (boot : bool) : 0 < n -> length l <= (if boot then 510 else n) ->
  length (image l n boot) = Z.to_nat (if boot then 512 else n).
Proof. intros Hn Hl. unfold image. destruct boot; rewrite !length_app, ?length_replicate; cbn [length]; lia. Qed.

Lemma resize_run (fs : files) (ifname ofname : name) (n : Z) (boot : bool) (l : list Z) :
  0 < n -> fs !! ifname = Some l -> length l <= (if boot then 510 else n) -> malloc (if boot then 512 else n) = true ->
  readable ifname = true -> writable ofname = true -> (if boot then 512 else n) <= room ->
  resize_binary ifname ofname n boot fs = Ret (0, <[ofname := image l n boot]> fs).
Proof.
  intros Hn Hf Hl Hm Hrd Hw Hr. unfold resize_binary. rewrite (M_bind_run _ _ fs fs fs eq_refl), Hf.
  rewrite (proj2 (Z.ltb_ge _ _)) by lia. rewrite Hm. cbn [negb].
  assert (Er : read_binary ifname (length l) fs = Ret (Some l, fs)).
  { unfold read_binary. rewrite Hf, Hrd, Nat2Z.id, take_ge, Z.eqb_refl by done. done. }
  rewrite (M_bind_run _ _ _ _ _ Er).
  set (buf := if boot then _ else _). assert (Eb : buf = image l n boot).
  { unfold buf. destruct boot; [by rewrite set_mark by lia|]. unfold image. by rewrite drop_replicate. }
  rewrite Eb. pose proof (image_length l n boot Hn Hl) as Hil.
  assert (Ew : write_binary ofname (image l n boot) (if boot then 512 else n) fs
    = Ret (if boot then 512 else n, <[ofname := image l n boot]> fs)).
  { unfold write_binary. rewrite Hw, Z.min_l by done. rewrite take_ge by lia. rewrite Hil.
    rewrite Z2Nat.id, Z.eqb_refl by (destruct boot; lia). done. }
  rewrite (M_bind_run _ _ _ _ _ Ew). by destruct boot; rewrite (proj2 (Z.ltb_ge _ _)) by lia.
Qed.

Lemma resize_faults (fs : files) (ifname ofname : name) (n : Z) (boot : bool) (l : list Z) :
  fs !! ifname = Some l -> length l <= (if boot then 510 else n) ->
  malloc (if boot then 512 else n) = false \/ readable ifname = false \/ writable ofname = false ->
  resize_binary ifname ofname n boot fs = Fault.
Proof.
  intros Hf Hl Hbad. unfold resize_binary. rewrite (M_bind_run _ _ fs fs fs eq_refl), Hf.
  rewrite (proj2 (Z.ltb_ge _ _)) by lia. destruct (malloc _); [|done]. destruct Hbad as [?|Hbad]; [done|]. cbn [negb].
  unfold mbind, M_bind, read_binary. rewrite Hf. destruct (readable ifname); [|done]. destruct Hbad as [?|Hw]; [done|].
  rewrite Nat2Z.id, take_ge, Z.eqb_refl by done. cbn [negb]. unfold write_binary. by rewrite Hw.
Qed.

(** The options that were understood, in terms of the last occurrence. *)
Fixpoint last_of (c : Z) (opts : list (Z * name)) (d : option name) : option name :=
  match opts with [] => d | (x, a) :: opts => last_of c opts (if x =? c then Some a else d) end.

Definition known (c : Z) : Prop := c = 105 \/ c = 111 \/ c = 98 \/ c = 110.

Lemma parse_run opts : forall i out b sz, Forall (fun x => known x.1) opts ->
  parse opts (Options i out b (default 512 (atoi <$> sz))) =
    Some (Options (last_of 105 opts i) (last_of 111 opts out) (b || existsb (fun x => x.1 =? 98) opts)
            (default 512 (atoi <$> last_of 110 opts sz))).
Proof.
  induction opts as [|[c a] opts IH]; intros i out b sz Hf; [by rewrite orb_false_r|].
  apply Forall_cons in Hf as [Hc Hf]. cbn [fst] in Hc. cbn [parse last_of existsb fst o_in o_out o_boot o_size].
  destruct Hc as [->|[->|[->| ->]]]; cbn [Z.eqb Pos.eqb orb].
  - by apply IH.
  - by apply IH.
  - rewrite (IH i out true sz Hf). by rewrite orb_true_r.
  - by apply (IH i out b (Some a)).
Qed.

Lemma parse_unknown opts : forall o, Exists (fun x => ~ known x.1) opts -> parse opts o = None.
Proof.
  induction opts as [|[c a] opts IH]; intros o He; [by apply Exists_nil in He|]. cbn [parse].
  destruct (Z.eqb_spec c 105) as [->|]; [|destruct (Z.eqb_spec c 111) as [->|]; [|destruct (Z.eqb_spec c 98) as [->|];
    [|destruct (Z.eqb_spec c 110) as [->|]; [|done]]]];
    (apply IH; apply Exists_cons in He as [Hc|He]; [destruct Hc; unfold known; cbn; tauto|done]).
Qed.

(** C27. The tool writes the image it is asked for: when all options are known and
    the last "-i", "-o" and "-n" name an existing file, a file that can be
    written and a positive size (512 when there is none), the input is small
    enough and the system gives what is needed (memory, both files open,
    room for the output), [main] answers 0 and the
    output file holds the input followed by zeros up to the size, or with
    "-b" up to 510 bytes and the mark 55 AA.  No other file changes.  An
    unknown option, a missing file name, a size that is not positive, a
    missing input or one that is too large gives -1 with no file changed.
    Without memory, or when a file cannot be opened, the tool faults. *)
Theorem resize_main_ok (opts : list (Z * name)) (fs : files) :
  let i := last_of 105 opts None in
  let out := last_of 111 opts None in
  let boot := existsb (fun x => x.1 =? 98) opts in
  let n := default 512 (atoi <$> last_of 110 opts None) in
  let limit := if boot then 510 else n in
  (Exists (fun x => ~ known x.1) opts \/ i = None \/ out = None \/ n <= 0 \/
   (exists f, i = Some f /\ (fs !! f = None \/ exists l, fs !! f = Some l /\ limit < length l)) ->
   main opts fs = Ret (-1, fs)) /\
  (forall f o l, Forall (fun x => known x.1) opts -> i = Some f -> out = Some o -> 0 < n -> fs !! f = Some l -> length l <= limit ->
   (malloc (if boot then 512 else n) = true -> readable f = true -> writable o = true -> (if boot then 512 else n) <= room ->
    main opts fs = Ret (0, <[o := image l n boot]> fs)) /\
   (malloc (if boot then 512 else n) = false \/ readable f = false \/ writable o = false -> main opts fs = Fault)).
Proof.
  intros i out boot n limit. split.
  - intros Hbad. destruct (decide (Forall (fun x => known x.1) opts)) as [Hk|Hk].
    2: { unfold main. rewrite parse_unknown; [done|]. by apply not_Forall_Exists in Hk; [|apply _]. }
    unfold main.
    change 512 with (default 512 (atoi <$> None)) at 1. rewrite (parse_run opts None None false None Hk). cbn [o_in o_out o_size o_boot orb].
    fold i. fold out. fold n. change (false || _)%bool with boot.
    destruct Hbad as [Hx|Hbad]; [by apply Exists_not_Forall in Hx|].
    destruct i as [f|], out as [o|]; try done. destruct (Z.leb_spec n 0); [done|].
    destruct Hbad as [?|[?|[?|(g & [= <-] & Hg)]]]; [done|done|lia|].
    unfold resize_binary. rewrite M_bind_assoc, (M_bind_run _ _ fs fs fs eq_refl).
    destruct Hg as [->|(l & -> & Hl)]; [done|]. unfold limit in Hl. by rewrite (proj2 (Z.ltb_lt _ _)) by exact Hl.
  - intros f o l Hk Hi Ho Hn Hf Hl. unfold main.
    pose proof (parse_run opts None None false None Hk) as Ep. change (default 512 (atoi <$> None)) with 512 in Ep. rewrite Ep.
    cbn [o_in o_out o_size o_boot]. fold i. fold out. fold n. change (false || _)%bool with boot. rewrite Hi, Ho.
    rewrite (proj2 (Z.leb_gt _ _)) by lia. split.
    + intros Hm Hrd Hw Hr. by rewrite (M_bind_run _ _ _ _ _ (resize_run fs f o n boot l Hn Hf Hl Hm Hrd Hw Hr)).
    + intros Hbad. unfold mbind, M_bind. by rewrite (resize_faults fs f o n boot l Hf Hl Hbad).
Qed.
End Tool.

(** *** Example: the boot sector of the Makefile *)

Definition boot_opts : list (Z * name) := [(105, [1]); (111, [2]); (98, [])].
Definition boot_files : files := {[ [1] := [0xFA; 0xEB] ]}.

Lemma resize_main_ok_witness :
  main (fun _ => true) (fun _ => true) (fun _ => true) 1000 (fun _ => 0) boot_opts boot_files =
    Ret (0, <[[2] := image [0xFA; 0xEB] 512 true]> boot_files).
Proof.
  apply (proj2 (resize_main_ok (fun _ => true) (fun _ => true) (fun _ => true) 1000 (fun _ => 0) boot_opts boot_files) [1] [2] [0xFA; 0xEB]); try done.
  repeat (apply Forall_cons; split; [unfold known; cbn; lia|]). by apply Forall_nil.
Defined.
